(* ===== verification/_CoqProject ===== *)
-Q . S2P
Prelude.v
GoText.v
GoFloat.v
GoTime.v
GoJson.v
GoRegexp.v
Sha256.v
Watch.v
Numeric.v
Evaluator.v
RecordJson.v
EvaluatorFacts.v
EvaluatorSpec.v
EvaluatorEvents.v
EvaluatorExamples.v
LogWindow.v
LogWindowFacts.v
LogSummaryFacts.v
LogFrame.v
LogClassify.v
LogClassifyFacts.v
LogCollector.v
LogExamples.v
Plan.v
PlanFacts.v
PlanSpec.v
PlanExamples.v
Outbox.v
OutboxFacts.v
PushReceipts.v
Records.v
Access.v
Render.v
Acceptance.v
Lifecycle.v
Maintenance.v
OutboxLinks.v
Apply.v
Handoff.v
Runtime.v
Evidence.v
SeenFacts.v
TxLogic.v
EvidenceFacts.v
RuntimeSteps.v
EvidenceTables.v
EvidenceAccept.v
EvidenceLifecycle.v
EntityCache.v
Integrity.v
EvidenceRetention.v
AcceptOnce.v
HandoffFacts.v
HandoffFence.v
HandoffNet.v
RetentionFacts.v
RetentionExact.v
EvidenceRun.v
EvidenceExamples.v
OutboxSpec.v
Delivery.v
DeliveryFacts.v
Transform.v
TransformFacts.v
Sources.v
SourcesFacts.v
Passwords.v
Control.v
ControlAccounts.v
ControlSessions.v
ControlServices.v
ControlUsage.v
ControlRun.v
ControlFacts.v
ControlAuth.v
ControlRoles.v
ControlProducers.v
ControlExamples.v
