(* ===== verification/Prelude.v ===== *)
(** * Ding: watches, conditions and durable delivery

    Ding watches sources (HTTP endpoints, pushed facts, process logs), decides
    per entity whether a condition holds, and delivers notifications durably.
    This library models its decision and durability core, the acquisition of
    observations, the transfer of watches between instances and the accounts of
    the server, and proves what makes them correct.

    ** The program and the files that model it

    A manifest is compiled into watches and destinations
    ([internal/plan]).  Sources hand batches of observations to
    [App.acceptPush] ([internal/watchrun]), which in one transaction fences the
    watch, records the observations, evaluates them for every entity they
    concern ([internal/condition]), appends events with replay checkpoints and
    enqueues delivery intents ([internal/store]).  Workers claim intents, send
    them ([internal/delivery]) and acknowledge them.  Operators pause, resume,
    delete, purge, and later replay the evidence of an event
    ([internal/replay]).  A log collector frames, classifies and counts process
    output ([internal/logs]) and produces the summaries that log watches judge.
    A watch moves between instances by prepared, paused and activated transfers
    ([watchrun/handoff*.go]).  A server keeps users, workspaces, sessions,
    producers and budgets in a control database ([internal/serverstate]).

    - Language: [Prelude] (results, record update, tactics, hint databases),
      [GoText] (bytes, UTF-8, decimal text, [strings]), [GoFloat] (binary64,
      [ParseFloat], shortest printing), [GoTime] ([ParseDuration] and its
      inverse with the 64-bit limits, RFC 3339 text), [GoJson] (dynamic values,
      [encoding/json], [json.Unmarshal] into [any]), [GoRegexp] (regular
      expressions with Go's leftmost-first preference), [Sha256].
    - Contract: [Watch] ([internal/watch/types.go], [logs.go], their
      struct tags), [RecordJson] (JSON of observations, events and states, and
      what reading a stored record back gives).
    - Conditions: [Numeric] ([condition/numeric.go]), [Evaluator]
      ([transition.go], [signals.go], [routing.go]: [New], [Evaluate], [Routes],
      [SourceRecovered] on every branch), [EvaluatorFacts] (evaluation as
      micro-steps, and its invariants by rule induction), [EvaluatorSpec] (the
      incident automaton), [EvaluatorEvents] (events of a run, numeric windows),
      [EvaluatorExamples].
    - Logs: [LogWindow] ([logs/window.go], [summary.go]), [LogFrame]
      ([frame.go], [multiline.go]), [LogClassify]
      ([classify.go]), [LogCollector] ([collector.go], [stats.go]: writers, the
      queue, the analysing goroutine and snapshots as interleaved steps), with
      [LogWindowFacts], [LogSummaryFacts], [LogClassifyFacts],
      [LogExamples].
    - Compiler: [Plan] ([plan/compile.go], [logs.go]: every stage of [Compile]
      and [CompileDestination]), [PlanFacts], [PlanSpec],
      [PlanExamples].
    - Durable state: [Outbox] ([store/outbox.go], [scheduling.go], the triggers
      of [schema14.sql]), [PushReceipts] ([store/push.go], [schema8.sql]),
      [Records] (the other tables and [Tx] methods of [internal/store], as a
      state and error monad whose failing transactions are rolled back).
    - Runtime: [Access] ([internal/access], [watchrun/access.go]), [Render]
      ([delivery/payload.go], [notificationstyle]), [Acceptance]
      ([watchrun/app.go] [acceptPush], [acceptance_entities.go], [jitter.go]),
      [Lifecycle] ([lifecycle.go], [clock.go], [mutation.go]), [Apply]
      ([app.go] [apply], [review.go]), [Maintenance] ([maintenance.go],
      [store/retention_batch.go], [retention_sweep.go], [maintenance_page.go]:
      expiry of idle entities and the resumable retention sweeps), [Evidence]
      ([internal/replay], [inspection.go]), [Runtime] (any interleaving of
      these operations and of the delivery workers' transactions, from empty
      tables).
    - Runtime proofs: [TxLogic] (triples and relations on transactions),
      [RuntimeSteps] (the class [TableSteps]: a relation the primitive writes
      respect is respected by every operation of a run), [SeenFacts],
      [EvidenceFacts] (well-formed text and verifying evidence), [EvidenceTables], [EvidenceAccept],
      [EvidenceLifecycle], [EvidenceRetention], [EvidenceRun], [EntityCache],
      [AcceptOnce], [OutboxLinks] and [Integrity], [RetentionFacts],
      [RetentionExact], [EvidenceExamples] (runs, retention and a transfer).
    - Transfers: [Handoff] ([store/handoffs.go], [watchrun/handoff*.go]: every
      transaction of a transfer), [HandoffFacts], [HandoffFence],
      [HandoffNet] (any number of instances, their whole runtime and receipts
      however stale).
    - Delivery: [Delivery] ([delivery/http.go], [DeliverOne] of
      [watchrun/workers.go], the backoff), [OutboxFacts], [OutboxSpec]
      (order, fairness, acknowledgements), [DeliveryFacts].
    - Acquisition: [Transform] ([internal/transform]: [ValidateJSON] over the
      tokens of [json.Decoder], [Project]), [Sources] ([internal/source]: polls
      and commands; [watchrun/push.go], [ingest.go]: pushed documents), with
      [TransformFacts], [SourcesFacts].
    - Server: [Passwords] ([identity/password.go], [profile.go]), [Control] (the
      tables of [serverstate/state.go] and transactions on them),
      [ControlAccounts], [ControlSessions], [ControlServices], [ControlUsage]
      (the operations of [internal/serverstate]), [ControlRun] (any sequence of
      them), with [ControlFacts], [ControlAuth], [ControlRoles],
      [ControlProducers], [ControlExamples].

    ** What the theorems show

    - Evaluation: [Evaluate] refines a three-component incident automaton; over
      whole runs incidents and source health alternate, event identities are
      never reused, evidence is increasing and ends with the deciding
      observation, state per entity is bounded, cooldowns and deduplication
      hold, streaks open and close incidents exactly at their thresholds, and
      numeric windows over the pruned samples agree with the whole history.
    - The condition language: the recursive-descent parser accepts what the
      left-to-right grouping accepts and its tree means OR of AND-groups.
    - Compilation: idempotent, insensitive to the order of sets, within the
      documented bounds; the evaluator accepts what was compiled; fingerprints
      depend on evaluation only.
    - Logs: snapshots are exact, loss is visible, producer and consumer agree,
      framing does not depend on write boundaries and stays bounded; the
      classifying expressions equal a single pass over the line, quoted values
      are opaque, the highest rule wins; the collector's statistics equal a
      reference count under every interleaving, and a snapshot sees exactly what
      was completed before it.
    - Acquisition: a document the structural check accepts is read without
      ambiguity, its integers below 2^53; a poll moves its cursor only with
      observations of the answer.
    - Outbox and delivery: order per stream, fairness between streams, exact
      wake-up times, at most one acknowledgement per lease, attempts and
      backoffs within the policy, exact cached receipt statistics; a worker's
      round ([DeliverOne]) against any operations of others between its claim
      and its final transaction, which may also fail to commit.
    - Runtime: a recorded event is reproduced from its checkpoint whatever
      happened in between, for watches whose templates write well-formed text
      ([run_ok] of [EvidenceRun] lists the conditions); the entity cache is transparent against evaluation
      directly on the tables; an accepted input is never accepted again; foreign
      keys, uniqueness and reference pins hold after any sequence of operations.
    - Retention: a maintenance pass ends; it keeps every event that is recent,
      pinned by an entity or still to be delivered, with all its evidence; and a
      completed sweep removes every old event that nothing refers to.
    - Transfers: over any interleaving of instances, once a target has
      activated a transfer its source does not run the watch.
    - Server: every workspace keeps an owner who can sign in; an accepted session
      or service credential was issued and not ended since; device sessions go
      back to an approval; roles change only by those entitled; budgets and
      external tests are not exceeded or repeated.
    - Two theorems show what the code does not mean to do: a finished transfer
      whose watch was deleted stops retention ([transfer_stops_retention]); a
      password reset outlives a promotion ([stale_reset_takes_over_owner]).  A
      lemma of [EvidenceExamples] is a run in which a message template cuts a
      character and the evidence of its event is not reproduced.

    ** Parameters and hypotheses

    Code outside the repository is a parameter: template parsing (a parsed
    template is the text it writes and the error that stops it), jq and user
    regular expressions, [url.Parse], together the class [Libraries]; the
    network, terminal and provider-response decoders of a delivery (a record);
    the network, processes and time parsers of acquisition (the record
    [Environment]), with gojq as a function from an input to its outputs;
    Argon2, the sealing of secrets; the grants of integrations (the outcome of
    their check);
    the size the database engine reports ([storage : db -> Z]); the order of
    Go's [range] over a map (any permutation of the entries); clock readings,
    the shutdown flag, random lifetimes, identities and tokens (arguments of
    each operation, which reads the clock once); the YAML decoding of a manifest (the decoded bundle is the
    argument).  Theorems that need something of a parameter state it as a
    hypothesis, and their witnesses instantiate it with a concrete function.

    Integers are Go's where a width matters: durations and timestamps saturate
    or are range-checked as the code does, counters of a log window saturate at
    their limit, floats are binary64.  Instants are nanoseconds since the epoch.
    A column that holds JSON text holds the value that text decodes to; what
    encoding changes (ill-formed UTF-8) is applied when the value is stored.

    Recursion is structural except where fuel is written out: UTF-8 decoding,
    the tokenizer, the two loops of the numeric parser and the duration parser
    take the length of the remaining text or token list, and consume at least
    one byte or token per step; so do the regular-expression matcher and the JSON
    readers, which take at most two calls per byte; decimal printing takes the number of digits of
    its largest argument; the shortest float text takes 700 steps for the
    decimal exponent (that of a binary64 number lies between -323 and 309) and 17
    digits, which always read back.

    ** Not modelled

    Listings of the store, PostgreSQL batching and drivers, opening and migrating
    databases, backups; the scheduling loop of the workers (goroutines and
    timers; each of its transactions is an operation of [Runtime]); the network
    calls of a transfer's test and its coordinator; the local and cloud control
    planes, the route table, OIDC transport, installation, command line, MCP
    bridge, native helper and web interface, which are HTTP, process and file
    plumbing around the modelled core; YAML decoding and the one-time migration
    of the old configuration format. *)

From Stdlib Require Export ZArith Lia Ascii String.
From stdpp Require Export base gmap sets list strings sorting numbers.

#[global] Open Scope Z_scope.

(** ** Fallible computations

    A Go function returning [(T, error)] is modelled as [result T]; the error
    is the fixed part of its message. *)

Inductive result (A : Type) : Type :=
| Ok (a : A)
| Err (e : string).
Arguments Ok {A} a.
Arguments Err {A} e.

#[global] Instance result_ret : MRet result := fun A a => Ok a.
#[global] Instance result_bind : MBind result := fun A B f m =>
  match m with Ok a => f a | Err e => Err e end.
#[global] Instance result_fmap : FMap result := fun A B f m =>
  match m with Ok a => Ok (f a) | Err e => Err e end.

(** [fail_if b msg] is the Go statement [if b { return ..., Errorf(msg) }]. *)
Definition fail_if (b : bool) (msg : string) : result unit :=
  if b then Err msg else Ok tt.

Definition is_ok {A : Type} (r : result A) : bool :=
  match r with Ok _ => true | Err _ => false end.

#[global] Instance result_eq_dec {A : Type} `{EqDecision A} : EqDecision (result A).
Proof. solve_decision. Defined.

(** Boolean equality on any type with decidable equality: Go's [==]. *)
Declare Scope ding_scope.
Delimit Scope ding_scope with ding.
Notation "a ≟ b" := (bool_decide (a = b)) (at level 70, no associativity) : ding_scope.
#[global] Open Scope ding_scope.

(** ** Updating one field of a struct

    [r <| f := v |>] is the Go assignment [r.f = v] on a copied struct. *)

Class Eta (R : Type) := eta : R → R.
Class FieldUpdate {R T : Type} (proj : R → T) := upd : (T → T) → R → R.
Arguments upd {R T} proj {_} _ _ /.

Ltac field_update :=
  lazymatch goal with
  | |- @FieldUpdate ?R ?T ?p =>
      let body := eval hnf in (@eta R _) in
      lazymatch eval pattern p in body with
      | ?g _ =>
          let t := eval cbv beta in (fun (f : T → T) (r : R) => g (fun x => f (p x)) r) in
          exact t
      end
  end.

Notation "r <| p := v |>" := (upd p (fun _ => v) r)
  (at level 1, left associativity, format "r <| p  :=  v |>") : ding_scope.

(** ** Machine integers *)

Definition min_int64 : Z := - 2 ^ 63.
Definition max_int64 : Z := 2 ^ 63 - 1.
Definition is_int64 (z : Z) : Prop := min_int64 <= z <= max_int64.

(** Two's complement wrap-around of Go's 64-bit [int] and [int64]. *)
Definition wrap64 (z : Z) : Z := (z + 2 ^ 63) mod 2 ^ 64 - 2 ^ 63.

(** Saturation to the representable durations, as [time.Time.Sub] does. *)
Definition saturate64 (z : Z) : Z := Z.max min_int64 (Z.min max_int64 z).

(** ** Instants and durations

    A [time.Time] is the number of nanoseconds since the zero time (January 1,
    year 1, UTC), so [IsZero] is equality with 0; a [time.Duration] is a number
    of nanoseconds. *)

Abbreviation time := Z.
Abbreviation duration := Z.

Definition zero_time : time := 0.
Definition Nanosecond : duration := 1.
Definition Microsecond : duration := 1000 * Nanosecond.
Definition Millisecond : duration := 1000 * Microsecond.
Definition Second : duration := 1000 * Millisecond.
Definition Minute : duration := 60 * Second.
Definition Hour : duration := 60 * Minute.

Definition IsZero (t : time) : bool := t =? zero_time.
Definition Before (t u : time) : bool := t <? u.
Definition After (t u : time) : bool := u <? t.
Definition Add (t : time) (d : duration) : time := t + d.
Definition Sub (t u : time) : duration := saturate64 (t - u).

(** Seconds between the zero time and the Unix epoch. *)
Definition unix_offset : Z := 62135596800.
Definition Unix (t : time) : Z := t / Second - unix_offset.
Definition UnixNano (t : time) : Z := wrap64 (t - unix_offset * Second).
Definition from_unix_nano (ns : Z) : time := ns + unix_offset * Second.
Definition Truncate (t : time) (d : duration) : time :=
  if d <=? 0 then t else t - t mod d.

(** ** Lemmas shared by the components *)

Create HintDb ding.

Lemma bind_Ok {A B : Type} (m : result A) (f : A → result B) b :
  (m ≫= f) = Ok b ↔ ∃ a, m = Ok a ∧ f a = Ok b.
Proof. destruct m; cbn; naive_solver. Qed.

Lemma fmap_Ok {A B : Type} (m : result A) (f : A → B) b :
  (f <$> m) = Ok b ↔ ∃ a, m = Ok a ∧ b = f a.
Proof. destruct m; cbn; naive_solver. Qed.

Lemma fail_if_Ok b msg u : fail_if b msg = Ok u ↔ b = false.
Proof. destruct b, u; cbn; naive_solver. Qed.

Lemma fail_if_bind {A : Type} b msg (k : result A) a :
  (fail_if b msg ;; k) = Ok a ↔ b = false ∧ k = Ok a.
Proof. destruct b; cbn; naive_solver. Qed.

Lemma wrap64_id z : is_int64 z → wrap64 z = z.
Proof.
  unfold is_int64, min_int64, max_int64, wrap64; intros.
  rewrite Z.mod_small; lia.
Qed.

Lemma wrap64_range z : is_int64 (wrap64 z).
Proof.
  unfold is_int64, min_int64, max_int64, wrap64.
  pose proof (Z.mod_pos_bound (z + 2 ^ 63) (2 ^ 64) ltac:(lia)). lia.
Qed.

Lemma saturate64_range z : is_int64 (saturate64 z).
Proof. unfold is_int64, saturate64, min_int64, max_int64. lia. Qed.

Lemma Second_pos : 0 < Second.
Proof. reflexivity. Qed.

#[export] Hint Resolve Second_pos wrap64_range saturate64_range : ding.

(** Lists under boolean predicates. *)

Lemma existsb_In {A : Type} (f : A → bool) l : existsb f l = true ↔ ∃ x, x ∈ l ∧ f x = true.
Proof.
  rewrite existsb_exists. split; intros (x & Hx & Hf); exists x; (split; [|done]); by apply list_elem_of_In.
Qed.

Lemma existsb_false {A : Type} (f : A → bool) l : existsb f l = false ↔ ∀ x, x ∈ l → f x = false.
Proof.
  rewrite <- not_true_iff_false, existsb_In. split.
  - intros H x Hx. apply not_true_iff_false. intros Hf. apply H. by exists x.
  - intros H (x & Hx & Hf). by rewrite H in Hf.
Qed.

Lemma existsb_map_ext {A : Type} (f : A → bool) (g : A → A) l :
  (∀ x, x ∈ l → f (g x) = f x) → existsb f (map g l) = existsb f l.
Proof.
  induction l as [|x l IH]; intros H; cbn; [done|]. rewrite H by left. f_equal. apply IH. intros y Hy. apply H. by right.
Qed.

Lemma sorted_lt_NoDup (l : list Z) : StronglySorted Z.lt l → NoDup l.
Proof.
  induction 1 as [|x l _ IH Hx]; constructor; [|done]. intros Hin. rewrite list.Forall_forall in Hx. specialize (Hx x Hin). lia.
Qed.

Lemma NoDup_fmap_inj {A B : Type} (f : A → B) l x y : NoDup (f <$> l) → x ∈ l → y ∈ l → f x = f y → x = y.
Proof.
  intros Hn Hx Hy Hf. apply list_elem_of_lookup in Hx as [i Hi], Hy as [j Hj].
  assert (i = j) as ->; [|congruence].
  eapply NoDup_lookup; [exact Hn| |]; rewrite list_lookup_fmap; [by rewrite Hi|]. rewrite Hj. cbn. by rewrite Hf.
Qed.

Lemma elem_of_map {A B : Type} (f : A → B) l y : y ∈ map f l ↔ ∃ x, y = f x ∧ x ∈ l.
Proof.
  rewrite list_elem_of_In, in_map_iff. split; intros (x & H1 & H2); exists x; by rewrite list_elem_of_In in *.
Qed.

Lemma find_elem {A : Type} (f : A → bool) l x : find f l = Some x → x ∈ l ∧ f x = true.
Proof. intros H. apply find_some in H as [H ?]. by rewrite <- list_elem_of_In in H. Qed.

Lemma sorted_snoc (l : list Z) n : StronglySorted Z.lt l → Forall (fun x => x < n) l → StronglySorted Z.lt (l ++ [n]).
Proof.
  induction 1 as [|x l _ IH Hx]; intros Hn; cbn; [repeat constructor|]. apply list.Forall_cons in Hn as [Hxn Hn].
  constructor; [by apply IH|]. apply Forall_app. split; [done|]. by repeat constructor.
Qed.

Lemma NoDup_filter_fmap {A B : Type} (f : A → B) (p : A → bool) l : NoDup (f <$> l) → NoDup (f <$> List.filter p l).
Proof.
  induction l as [|x l IH]; cbn; [done|]. rewrite list.NoDup_cons. intros [Hx Hn]. destruct (p x); [|auto]. cbn. constructor; [|auto].
  intros (y & Hy & Hin)%list_elem_of_fmap. apply Hx. rewrite Hy. apply list_elem_of_fmap_2.
  rewrite list_elem_of_In, filter_In, <- list_elem_of_In in Hin. by destruct Hin.
Qed.

Lemma elem_of_filter_bool {A : Type} (p : A → bool) l x : x ∈ List.filter p l ↔ x ∈ l ∧ p x = true.
Proof. by rewrite !list_elem_of_In, filter_In. Qed.

(** Case analysis on the outcome of a monadic computation known to succeed. *)
Ltac res_inv :=
  repeat match goal with
  | H : (fail_if _ _ ;; _) = Ok _ |- _ => apply fail_if_bind in H as [? H]
  | H : fail_if _ _ = Ok _ |- _ => apply fail_if_Ok in H
  | H : (_ ≫= _) = Ok _ |- _ =>
      let a := fresh "a" in let Ha := fresh "Ha" in apply bind_Ok in H as (a & Ha & H)
  | H : (_ <$> _) = Ok _ |- _ =>
      let a := fresh "a" in let Ha := fresh "Ha" in apply fmap_Ok in H as (a & Ha & H)
  | H : Ok _ = Ok _ |- _ => injection H; clear H; intros; simplify_eq
  | H : Err _ = Ok _ |- _ => discriminate H
  | H : mret _ = Ok _ |- _ => injection H; clear H; intros; simplify_eq
  end.

(** Boolean guards to propositions. *)
Ltac bools :=
  repeat match goal with
  | H : _ && _ = true |- _ => apply andb_true_iff in H as [? ?]
  | H : _ || _ = false |- _ => apply orb_false_iff in H as [? ?]
  | H : negb _ = true |- _ => apply negb_true_iff in H
  | H : negb _ = false |- _ => apply negb_false_iff in H
  | H : bool_decide _ = true |- _ => apply bool_decide_eq_true in H
  | H : bool_decide _ = false |- _ => apply bool_decide_eq_false in H
  | H : (_ <? _) = true |- _ => apply Z.ltb_lt in H
  | H : (_ <? _) = false |- _ => apply Z.ltb_ge in H
  | H : (_ <=? _) = true |- _ => apply Z.leb_le in H
  | H : (_ <=? _) = false |- _ => apply Z.leb_gt in H
  | H : (_ =? _) = true |- _ => apply Z.eqb_eq in H
  | H : (_ =? _) = false |- _ => apply Z.eqb_neq in H
  end.

(** Components of the pairs a computation returned. *)
Ltac pairs := repeat match goal with p : (_ * _)%type |- _ => destruct p end.
