(* ===== verification/GoText.v ===== *)
(** * Go strings: bytes, UTF-8, decimal text and the [strings] functions used

    A Go [string] is a byte sequence, here Stdlib's [string] of 8-bit
    characters.  The file models the parts of [unicode/utf8], [strings],
    [strconv] and [sort] the program calls, as executable functions. *)
From S2P Require Import Prelude.

#[global] Arguments String.append !_ _ /.
#[global] Open Scope string_scope.
#[global] Open Scope Z_scope.

(** ** Bytes *)

Definition zb (c : ascii) : Z := Z.of_N (N_of_ascii c).
Definition bz (z : Z) : ascii := ascii_of_N (Z.to_N z).
Definition in_range (lo hi : Z) (c : ascii) : bool := (lo <=? zb c) && (zb c <=? hi).
Definition one (c : ascii) : string := String c EmptyString.

Definition len (s : string) : Z := Z.of_nat (String.length s).

Fixpoint str_app_list (l : list string) : string :=
  match l with
  | [] => ""
  | s :: l => s ++ str_app_list l
  end.

(** Slicing: [take]/[drop] are [s[:n]] and [s[n:]] for [n] within the string. *)
Fixpoint str_take (n : nat) (s : string) : string :=
  match n, s with
  | S n, String c s => String c (str_take n s)
  | _, _ => ""
  end.

Fixpoint str_drop (n : nat) (s : string) : string :=
  match n, s with
  | S n, String _ s => str_drop n s
  | _, _ => s
  end.

Fixpoint str_rev_app (s acc : string) : string :=
  match s with
  | "" => acc
  | String c s => str_rev_app s (String c acc)
  end.
Definition str_rev (s : string) : string := str_rev_app s "".

Fixpoint str_forallb (f : ascii → bool) (s : string) : bool :=
  match s with
  | "" => true
  | String c s => f c && str_forallb f s
  end.

Definition str_existsb (f : ascii → bool) (s : string) : bool :=
  negb (str_forallb (fun c => negb (f c)) s).

(** ** [strings] *)

Definition HasPrefix (s p : string) : bool := String.prefix p s.

(** [strip_prefix p s] is what follows the prefix [p] of [s], if any. *)
Fixpoint strip_prefix (p s : string) : option string :=
  match p, s with
  | "", _ => Some s
  | String a p, String b s => if a ≟ b then strip_prefix p s else None
  | String _ _, "" => None
  end.

(** [strings.Index]; [None] is Go's [-1]. *)
Fixpoint Index (s sub : string) : option nat :=
  if HasPrefix s sub then Some 0%nat
  else match s with
       | "" => None
       | String _ s => S <$> Index s sub
       end.

Definition Contains (s sub : string) : bool :=
  match Index s sub with Some _ => true | None => false end.

(** [strings.Split] on a one-byte separator. *)
Fixpoint split_on (sep : ascii) (s : string) (cur : string) : list string :=
  match s with
  | "" => [str_rev cur]
  | String c s => if c ≟ sep then str_rev cur :: split_on sep s "" else split_on sep s (String c cur)
  end.
Definition Split (s : string) (sep : ascii) : list string := split_on sep s "".

(** The UTF-8 encodings of the runes for which [unicode.IsSpace] holds. *)
Definition b2 (a b : Z) : string := String (bz a) (one (bz b)).
Definition b3 (a b c : Z) : string := String (bz a) (b2 b c).
Definition space_runes : list string :=
  map one (map bz [9; 10; 11; 12; 13; 32]) ++
  [b2 0xC2 0x85; b2 0xC2 0xA0; b3 0xE1 0x9A 0x80] ++
  map (b3 0xE2 0x80) [0x80; 0x81; 0x82; 0x83; 0x84; 0x85; 0x86; 0x87; 0x88; 0x89; 0x8A; 0xA8; 0xA9; 0xAF] ++
  [b3 0xE2 0x81 0x9F; b3 0xE3 0x80 0x80].

Fixpoint first_prefix (l : list string) (s : string) : option string :=
  match l with
  | [] => None
  | p :: l => match strip_prefix p s with Some r => Some r | None => first_prefix l s end
  end.

Fixpoint trim_with (l : list string) (fuel : nat) (s : string) : string :=
  match fuel with
  | O => s
  | S fuel => match first_prefix l s with Some r => trim_with l fuel r | None => s end
  end.

(** [strings.TrimSpace]: a space rune is never a proper part of another valid
    rune, so the right end is trimmed on the reversed string. *)
Definition TrimSpace (s : string) : string :=
  let l := trim_with space_runes (String.length s) s in
  str_rev (trim_with (map str_rev space_runes) (String.length l) (str_rev l)).

(** ** [unicode/utf8]

    [decode] cuts a byte sequence into the runes [utf8.DecodeRune] finds: a
    well-formed encoding, or one ill-formed byte. *)

Inductive piece :=
| Rune (bytes : string)
| Bad (c : ascii).

#[global] Instance piece_eq_dec : EqDecision piece.
Proof. solve_decision. Defined.

Definition cont : ascii → bool := in_range 0x80 0xBF.

(** Second byte accepted after a lead byte of a three or four byte encoding. *)
Definition second3 (c0 c1 : ascii) : bool :=
  let z := zb c0 in
  if z =? 0xE0 then in_range 0xA0 0xBF c1
  else if z =? 0xED then in_range 0x80 0x9F c1
  else in_range 0xE1 0xEF c0 && cont c1.
Definition second4 (c0 c1 : ascii) : bool :=
  let z := zb c0 in
  if z =? 0xF0 then in_range 0x90 0xBF c1
  else if z =? 0xF4 then in_range 0x80 0x8F c1
  else in_range 0xF1 0xF3 c0 && cont c1.

(** The first piece and what follows it. *)
Definition decode1 (s : string) : option (piece * string) :=
  match s with
  | "" => None
  | String c0 r0 =>
      if zb c0 <? 0x80 then Some (Rune (one c0), r0)
      else match r0 with
      | "" => Some (Bad c0, r0)
      | String c1 r1 =>
          if in_range 0xC2 0xDF c0 && cont c1 then Some (Rune (String c0 (one c1)), r1)
          else match r1 with
          | "" => Some (Bad c0, r0)
          | String c2 r2 =>
              if second3 c0 c1 && cont c2 then Some (Rune (String c0 (String c1 (one c2))), r2)
              else match r2 with
              | "" => Some (Bad c0, r0)
              | String c3 r3 =>
                  if second4 c0 c1 && cont c2 && cont c3
                  then Some (Rune (String c0 (String c1 (String c2 (one c3)))), r3)
                  else Some (Bad c0, r0)
              end
          end
      end
  end.

(** Every piece takes at least one byte, so the length is enough fuel. *)
Fixpoint decode_fuel (fuel : nat) (s : string) : list piece :=
  match fuel with
  | O => []
  | S fuel => match decode1 s with None => [] | Some (p, r) => p :: decode_fuel fuel r end
  end.
Definition decode (s : string) : list piece := decode_fuel (String.length s) s.
#[global] Arguments decode : simpl never.

Definition piece_bytes (p : piece) : string :=
  match p with Rune b => b | Bad c => one c end.
Definition is_rune (p : piece) : bool :=
  match p with Rune _ => true | Bad _ => false end.

Definition ValidString (s : string) : bool := forallb is_rune (decode s).

(** U+FFFD, which replaces ill-formed bytes. *)
Definition replacement : string := b3 0xEF 0xBF 0xBD.
Definition sanitize_piece (p : piece) : string :=
  match p with Rune b => b | Bad _ => replacement end.
Definition sanitize (s : string) : string := str_app_list (map sanitize_piece (decode s)).

(** [utf8.RuneStart] *)
Definition RuneStart (c : ascii) : bool := negb (cont c).

(** ** Decimal text *)

Definition is_digit : ascii → bool := in_range 48 57.
Definition digit_val (c : ascii) : Z := zb c - 48.
Definition digit_char (d : Z) : ascii := bz (48 + d).

(** Value of a digit sequence, most significant first. *)
Fixpoint digits_val (acc : Z) (s : string) : Z :=
  match s with
  | "" => acc
  | String c s => digits_val (10 * acc + digit_val c) s
  end.

(** Decimal digits of a natural number, prepended to [acc]; [fuel] bounds the
    number of digits. *)
Fixpoint dec_digits (fuel : nat) (n : Z) (acc : string) : string :=
  match fuel with
  | O => acc
  | S fuel =>
      let acc := String (digit_char (n mod 10)) acc in
      if n / 10 =? 0 then acc else dec_digits fuel (n / 10) acc
  end.

(** [log2 n + 2] digits are always enough. *)
Definition format_nat (n : Z) : string := dec_digits (Z.to_nat (Z.log2 n + 2)) n "".

(** [strconv.Itoa] / [FormatInt(_, 10)] *)
Definition Itoa (z : Z) : string :=
  if z <? 0 then "-" ++ format_nat (- z) else format_nat z.

(** [strconv.ParseInt(s, 10, 64)] *)
Definition parse_digits (s : string) : option Z :=
  if (s ≟ "") || negb (str_forallb is_digit s) then None else Some (digits_val 0 s).
Definition ParseInt (s : string) : option Z :=
  match s with
  | String c r =>
      let n := if c ≟ "-"%char then Z.opp <$> parse_digits r
               else if c ≟ "+"%char then parse_digits r else parse_digits s in
      match n with Some n => if (min_int64 <=? n) && (n <=? max_int64) then Some n else None | None => None end
  | "" => None
  end.

(** Longest prefix of decimal digits. *)
Fixpoint span (f : ascii → bool) (s : string) : string * string :=
  match s with
  | "" => ("", "")
  | String c r => if f c then let '(a, b) := span f r in (String c a, b) else ("", s)
  end.

(** ** Ordering: [sort.Strings] *)

Fixpoint str_compare (a b : string) : comparison :=
  match a, b with
  | "", "" => Eq
  | "", _ => Lt
  | _, "" => Gt
  | String c a, String d b => match zb c ?= zb d with Eq => str_compare a b | r => r end
  end.
Definition str_le (a b : string) : Prop := str_compare a b ≠ Gt.
#[global] Instance str_le_dec : RelDecision str_le.
Proof. intros a b. unfold str_le. destruct (str_compare a b); [left|left|right]; congruence. Defined.

Definition sort_strings (l : list string) : list string := merge_sort str_le l.

(** ** Facts *)

#[global] Instance str_app_assoc : Assoc (=) String.append.
Proof. intros a b c. induction a; cbn; congruence. Qed.

Lemma str_app_nil_r s : s ++ "" = s.
Proof. induction s; cbn; congruence. Qed.

Lemma str_length_app a b : String.length (a ++ b) = (String.length a + String.length b)%nat.
Proof. induction a; cbn; congruence. Qed.

Lemma str_app_inj_l a b c : a ++ b = a ++ c → b = c.
Proof. induction a; cbn; intros; simplify_eq; auto. Qed.

Lemma str_rev_app_spec s acc : str_rev_app s acc = str_rev s ++ acc.
Proof.
  revert acc. unfold str_rev. induction s as [|c s IH]; intros acc; cbn; [done|].
  rewrite IH, (IH (String c "")), <- str_app_assoc. done.
Qed.

Lemma strip_prefix_app p s : strip_prefix p (p ++ s) = Some s.
Proof. induction p; cbn; [done|]. rewrite bool_decide_eq_true_2; done. Qed.

Lemma strip_prefix_Some p s r : strip_prefix p s = Some r → s = p ++ r.
Proof.
  revert s; induction p as [|a p IH]; intros [|b s]; cbn; try congruence.
  case_bool_decide; [|done]. intros. subst. f_equal. auto.
Qed.

Lemma str_app_list_app l k : str_app_list (l ++ k)%list = str_app_list l ++ str_app_list k.
Proof. induction l; cbn; [done|]. rewrite <- str_app_assoc. congruence. Qed.

(** Strong induction on strings by length. *)
Lemma str_ind_len (P : string → Prop) :
  (∀ s, (∀ r, (String.length r < String.length s)%nat → P r) → P s) → ∀ s, P s.
Proof.
  intros H s. remember (String.length s) as n eqn:E.
  revert s E. induction n as [n IH] using lt_wf_ind. intros s ->. apply H.
  intros r Hr. exact (IH _ Hr _ eq_refl).
Qed.

Lemma zb_range c : 0 <= zb c < 256.
Proof.
  unfold zb. pose proof (N_ascii_bounded c). lia.
Qed.

Lemma zb_bz z : 0 <= z < 256 → zb (bz z) = z.
Proof. intros. unfold zb, bz. rewrite N_ascii_embedding; lia. Qed.

Lemma zb_inj c d : zb c = zb d → c = d.
Proof.
  unfold zb. intros H. apply N2Z.inj in H.
  rewrite <- (ascii_N_embedding c), <- (ascii_N_embedding d). congruence.
Qed.

Lemma decode1_bytes s p r : decode1 s = Some (p, r) → s = piece_bytes p ++ r.
Proof. intros H. destruct s as [|c0 [|c1 [|c2 [|c3 s]]]]; cbn [decode1] in H; repeat case_match; simplify_eq; done. Qed.

Lemma decode1_None s : decode1 s = None → s = "".
Proof.
  intros H. destruct s as [|c0 [|c1 [|c2 [|c3 s]]]]; [done|..];
    cbn [decode1] in H; repeat case_match; discriminate.
Qed.

Lemma decode1_shrinks s p r : decode1 s = Some (p, r) → (String.length r < String.length s)%nat.
Proof. intros H. destruct s as [|c0 [|c1 [|c2 [|c3 s]]]]; cbn [decode1] in H; repeat case_match; simplify_eq; cbn; lia. Qed.

Lemma decode_fuel_enough n m s :
  (String.length s <= n)%nat → (String.length s <= m)%nat → decode_fuel n s = decode_fuel m s.
Proof.
  revert m s. induction n as [|n IH]; intros [|m] s Hn Hm; cbn [decode_fuel]; try done;
    try (assert (s = "") as -> by (destruct s; [done|cbn in *; lia]); done).
  destruct (decode1 s) as [[p r]|] eqn:E; [|done].
  f_equal. apply decode1_shrinks in E. apply IH; lia.
Qed.

Lemma decode_step s :
  decode s = match decode1 s with None => [] | Some (p, r) => p :: decode r end.
Proof.
  unfold decode at 1. destruct (String.length s) as [|n] eqn:E.
  - by destruct s.
  - cbn [decode_fuel]. destruct (decode1 s) as [[p r]|] eqn:E1; [|done].
    f_equal. apply decode1_shrinks in E1. apply decode_fuel_enough; lia.
Qed.

(** Induction along the pieces of a string. *)
Lemma decode_ind (P : string → Prop) :
  P "" → (∀ s p r, decode1 s = Some (p, r) → decode s = p :: decode r → P r → P s) → ∀ s, P s.
Proof.
  intros H0 H s. induction s as [s IH] using str_ind_len.
  pose proof (decode_step s) as Hs. destruct (decode1 s) as [[p r]|] eqn:E.
  - eapply H; eauto using decode1_shrinks.
  - by rewrite (decode1_None _ E).
Qed.

(** [decode] only cuts the string: no byte is lost or invented. *)
Lemma decode_bytes s : str_app_list (map piece_bytes (decode s)) = s.
Proof.
  induction s as [|s p r H1 Hd IH] using decode_ind; [done|].
  rewrite Hd; cbn. rewrite IH. by rewrite (decode1_bytes _ _ _ H1).
Qed.

Lemma sanitize_valid s : ValidString s = true → sanitize s = s.
Proof.
  unfold ValidString, sanitize. rewrite <- (decode_bytes s) at 3.
  induction (decode s) as [|p l IH]; cbn; [done|]. intros [Hp Hl]%andb_true_iff.
  rewrite IH by done. by destruct p.
Qed.

(** A rune found by [decode] is found again in any context it starts. *)
Lemma decode1_rune_app s b r r' : decode1 s = Some (Rune b, r) → decode1 (b ++ r') = Some (Rune b, r').
Proof.
  intros H. destruct s as [|c0 [|c1 [|c2 [|c3 s]]]]; cbn [decode1] in H; repeat case_match; simplify_eq;
    cbn [append one]; cbn [decode1];
    repeat match goal with Hb : ?b = _ |- context [?b] => rewrite Hb end; try done;
    destruct r'; done.
Qed.

Lemma decode_rune_app s b r r' : decode1 s = Some (Rune b, r) → decode (b ++ r') = Rune b :: decode r'.
Proof. intros H. rewrite decode_step. by erewrite decode1_rune_app. Qed.

(** The byte sequences [decode] reports as runes. *)
Definition wf_rune (b : string) : Prop := ∃ s r, decode1 s = Some (Rune b, r).

Lemma decode_runes_wf s : Forall (fun p => match p with Rune b => wf_rune b | Bad _ => True end) (decode s).
Proof.
  induction s as [|s p r H1 Hd IH] using decode_ind; [by apply Forall_nil|].
  rewrite Hd. constructor; [|done]. destruct p; [|done]. by exists s, r.
Qed.

Lemma decode_app_list l :
  Forall wf_rune l → decode (str_app_list l) = map Rune l.
Proof.
  intros H. induction l as [|b l IH]; [done|]. apply Forall_cons_iff in H as [(x & r & Hb) Hl]. cbn.
  rewrite (decode_rune_app _ _ _ _ Hb). by rewrite IH.
Qed.

Lemma sanitize_pieces_wf s : Forall wf_rune (map sanitize_piece (decode s)).
Proof.
  apply Forall_map. eapply list.Forall_impl; [apply decode_runes_wf|].
  intros [b|c]; cbn; [done|]. intros _. exists replacement, "". by vm_compute.
Qed.

Lemma sanitize_is_valid s : ValidString (sanitize s) = true.
Proof.
  unfold ValidString, sanitize. rewrite decode_app_list by apply sanitize_pieces_wf.
  induction (decode s); cbn; auto.
Qed.

Lemma sanitize_idem s : sanitize (sanitize s) = sanitize s.
Proof. apply sanitize_valid, sanitize_is_valid. Qed.

(** *** Decimal numbers *)

Lemma digit_char_val d : 0 <= d < 10 → digit_val (digit_char d) = d.
Proof. intros. unfold digit_val, digit_char. rewrite zb_bz; lia. Qed.

Lemma digit_char_is_digit d : 0 <= d < 10 → is_digit (digit_char d) = true.
Proof.
  intros. unfold is_digit, in_range, digit_char. rewrite zb_bz by lia.
  apply andb_true_iff; split; apply Z.leb_le; lia.
Qed.

Lemma digits_val_app acc a b : digits_val acc (a ++ b) = digits_val (digits_val acc a) b.
Proof. revert acc; induction a; intros; cbn; auto. Qed.

Lemma dec_digits_spec fuel n acc :
  0 <= n < 10 ^ Z.of_nat fuel →
  ∃ p, dec_digits fuel n acc = p ++ acc ∧ digits_val 0 p = n ∧
       str_forallb is_digit p = true ∧ (fuel ≠ 0%nat → p ≠ "").
Proof.
  revert n acc. induction fuel as [|fuel IH]; intros n acc Hn.
  { exists "". assert (n = 0) by (cbn in Hn; lia). subst. done. }
  cbn [dec_digits].
  assert (0 <= n mod 10 < 10) by (apply Z.mod_pos_bound; lia).
  pose proof (digit_char_is_digit (n mod 10) ltac:(done)) as Hd.
  pose proof (digit_char_val (n mod 10) ltac:(done)) as Hv.
  pose proof (Z.div_mod n 10 ltac:(lia)).
  case_match eqn:Hz; bools.
  - exists (one (digit_char (n mod 10))). cbn. rewrite Hd, Hv. split_and!; try done. lia.
  - destruct (IH (n / 10) (String (digit_char (n mod 10)) acc)) as (p & Hp & Hpv & Hpd & _).
    { rewrite Nat2Z.inj_succ, Z.pow_succ_r in Hn by lia. split; [apply Z.div_pos; lia|].
      apply Z.div_lt_upper_bound; lia. }
    exists (p ++ one (digit_char (n mod 10))). rewrite Hp.
    split_and!.
    + rewrite <- str_app_assoc. done.
    + rewrite digits_val_app, Hpv. cbn. rewrite Hv. lia.
    + clear -Hpd Hd. induction p; cbn in *; [by rewrite Hd|]. bools. rewrite H. auto.
    + intros _. destruct p; done.
Qed.

Lemma format_nat_bound n : 0 <= n → n < 10 ^ Z.of_nat (Z.to_nat (Z.log2 n + 2)).
Proof.
  intros Hn. rewrite Z2Nat.id by (pose proof (Z.log2_nonneg n); lia).
  destruct (Z.eq_dec n 0) as [->|]; [done|].
  pose proof (Z.log2_spec n ltac:(lia)) as [_ H].
  pose proof (Z.log2_nonneg n).
  assert (2 ^ (Z.succ (Z.log2 n)) <= 10 ^ (Z.log2 n + 2)); [|lia].
  transitivity (2 ^ (Z.log2 n + 2)); [apply Z.pow_le_mono_r; lia|].
  apply Z.pow_le_mono_l; lia.
Qed.

(** [format_nat] prints digits only, at least one, and they denote [n]. *)
Lemma format_nat_spec n : 0 <= n →
  digits_val 0 (format_nat n) = n ∧ str_forallb is_digit (format_nat n) = true ∧ format_nat n ≠ "".
Proof.
  intros Hn. unfold format_nat.
  destruct (dec_digits_spec (Z.to_nat (Z.log2 n + 2)) n "") as (p & Hp & Hv & Hd & Hne).
  { split; [done|by apply format_nat_bound]. }
  rewrite Hp, str_app_nil_r. split_and!; [done|done|].
  apply Hne. pose proof (Z.log2_nonneg n). lia.
Qed.

Lemma format_nat_inj n m : 0 <= n → 0 <= m → format_nat n = format_nat m → n = m.
Proof.
  intros Hn Hm E. destruct (format_nat_spec n Hn) as (Hv & _). destruct (format_nat_spec m Hm) as (Hw & _).
  congruence.
Qed.

(** *** Lexicographic byte order *)

Lemma str_compare_refl a : str_compare a a = Eq.
Proof. induction a; cbn; [done|]. by rewrite Z.compare_refl. Qed.

Lemma str_compare_eq a b : str_compare a b = Eq → a = b.
Proof.
  revert b. induction a as [|c a IH]; intros [|d b]; cbn; try done.
  destruct (zb c ?= zb d) eqn:E; try done. intros.
  apply Z.compare_eq, zb_inj in E. subst. f_equal. auto.
Qed.

Lemma str_compare_antisym a b : str_compare b a = CompOpp (str_compare a b).
Proof.
  revert b. induction a as [|c a IH]; intros [|d b]; cbn; try done.
  rewrite Z.compare_antisym. destruct (zb c ?= zb d); cbn; auto.
Qed.

#[global] Instance str_le_total : Total str_le.
Proof. intros a b. unfold str_le. rewrite (str_compare_antisym b a). destruct (str_compare b a); cbn; auto. Qed.

#[global] Instance str_le_antisymm : AntiSymm (=) str_le.
Proof.
  intros a b Hab Hba. unfold str_le in *. rewrite str_compare_antisym in Hba.
  destruct (str_compare a b) eqn:E; cbn in *; try congruence. by apply str_compare_eq.
Qed.

#[global] Instance str_le_trans : Transitive str_le.
Proof.
  unfold str_le. intros a. induction a as [|c a IH]; intros [|d b] [|e x]; cbn; try done.
  destruct (zb c ?= zb d) eqn:E1, (zb d ?= zb e) eqn:E2; try done;
    rewrite ?Z.compare_eq_iff, ?Z.compare_lt_iff in *;
    repeat match goal with H : zb _ = zb _ |- _ => rewrite ?H in *; clear H end;
    rewrite ?Z.compare_refl; eauto; intros _ _.
  - apply Z.compare_lt_iff in E2; by rewrite E2.
  - apply Z.compare_lt_iff in E1; by rewrite E1.
  - assert (zb c < zb e) as H%Z.compare_lt_iff by lia. by rewrite H.
Qed.

Lemma sort_strings_sorted l : StronglySorted str_le (sort_strings l).
Proof. apply StronglySorted_merge_sort; apply _. Qed.

Lemma sort_strings_perm l : sort_strings l ≡ₚ l.
Proof. apply merge_sort_Permutation. Qed.

Lemma sort_strings_id l : StronglySorted str_le l → sort_strings l = l.
Proof.
  intros H. apply (StronglySorted_unique str_le); [apply sort_strings_sorted|done|apply sort_strings_perm].
Qed.

#[export] Hint Resolve sanitize_is_valid sort_strings_sorted : ding.

Lemma Itoa_inj a b : Itoa a = Itoa b → a = b.
Proof.
  assert (Hneg : ∀ x y, 0 <= x → 0 <= y → "-" ++ format_nat x = format_nat y → False).
  { intros x y Hx Hy H. destruct (format_nat_spec y Hy) as (_ & Hd & _). rewrite <- H in Hd. by cbn in Hd. }
  unfold Itoa. destruct (Z.ltb_spec a 0), (Z.ltb_spec b 0); intros H'.
  - cbn in H'. injection H' as H'%format_nat_inj; lia.
  - exfalso. apply (Hneg (- a) b); auto; lia.
  - exfalso. apply (Hneg (- b) a); auto; lia.
  - apply format_nat_inj in H'; lia.
Qed.

(** [strings.ToLower] on the runes that can become ASCII letters: the ASCII
    letters, U+0130 and U+212A (the only other runes whose lower case is ASCII);
    other runes never lower to ASCII text and are kept. *)
Definition lower_piece (p : piece) : string :=
  match p with
  | Rune (String c "") => if in_range 65 90 c then one (bz (zb c + 32)) else one c
  | Rune b => if b ≟ b2 0xC4 0xB0 then "i" else if b ≟ b3 0xE2 0x84 0xAA then "k" else b
  | Bad _ => b3 0xEF 0xBF 0xBD
  end.
Definition ToLower (s : string) : string := str_app_list (map lower_piece (decode s)).
