(* ===== verification/GoFloat.v ===== *)
(** * Go's [float64]: IEEE 754 binary64

    Built on Rocq's executable specification of floating-point arithmetic
    ([SpecFloat], 53-bit mantissa, exponents below 1024).  Decimal literals are
    converted with one correct rounding ([strconv.ParseFloat]) and printed with
    the fewest digits that read back to the same number
    ([strconv.FormatFloat(_, -1, 64)]). *)
From S2P Require Import Prelude GoText.
From Corelib Require Export SpecFloat.

Abbreviation float64 := spec_float.

#[global] Instance float64_eq_dec : EqDecision float64.
Proof. intros x y; unfold Decision; decide equality; solve [apply bool_dec | apply Pos.eq_dec | apply Z.eq_dec]. Defined.

Definition prec64 : Z := 53.
Definition emax64 : Z := 1024.

Definition fadd : float64 → float64 → float64 := SFadd prec64 emax64.
Definition fdiv : float64 → float64 → float64 := SFdiv prec64 emax64.
Definition fmul : float64 → float64 → float64 := SFmul prec64 emax64.
Definition feq : float64 → float64 → bool := SFeqb.
Definition flt : float64 → float64 → bool := SFltb.
Definition fle : float64 → float64 → bool := SFleb.

(** [float64(n)] for an integer [n] *)
Definition of_int (n : Z) : float64 := binary_normalize prec64 emax64 n 0 false.

Definition IsNaN (x : float64) : bool := match x with S754_nan => true | _ => false end.
Definition IsInf (x : float64) : bool := match x with S754_infinity _ => true | _ => false end.
Definition is_finite (x : float64) : bool := negb (IsNaN x) && negb (IsInf x).

(** [math.Min] and [math.Max]: an infinity wins, then NaN, then the sign of zero
    decides, then the order. *)
Definition math_Min (x y : float64) : float64 :=
  match x, y with
  | S754_infinity true, _ | _, S754_infinity true => S754_infinity true
  | S754_nan, _ | _, S754_nan => S754_nan
  | S754_zero sx, S754_zero sy => S754_zero (sx || sy)
  | _, _ => if flt x y then x else y
  end.
Definition math_Max (x y : float64) : float64 :=
  match x, y with
  | S754_infinity false, _ | _, S754_infinity false => S754_infinity false
  | S754_nan, _ | _, S754_nan => S754_nan
  | S754_zero sx, S754_zero sy => S754_zero (sx && sy)
  | _, _ => if flt y x then x else y
  end.

(** The float nearest to [(-1)^neg * num / den]. *)
Definition float_of_ratio (neg : bool) (num den : Z) : float64 :=
  if num =? 0 then S754_zero neg
  else let '(q, e, l) := SFdiv_core_binary prec64 emax64 num 0 den 0 in
       binary_round_aux prec64 emax64 neg q e l.

(** [strconv.ParseFloat] on [-?int(.frac)?]: [None] is a range error. *)
Definition parse_float (neg : bool) (int frac : string) : option float64 :=
  let x := float_of_ratio neg (digits_val 0 (int ++ frac)) (10 ^ len frac) in
  if IsInf x then None else Some x.

(** ** Shortest decimal representation *)

(** Numerator and denominator of [m * 2^e]. *)
Definition ratio_of (m : positive) (e : Z) : Z * Z :=
  if 0 <=? e then (Zpos m * 2 ^ e, 1) else (Zpos m, 2 ^ (- e)).

(** [num/den * 10^k] as a fraction. *)
Definition scale10 (num den k : Z) : Z * Z :=
  if 0 <=? k then (num * 10 ^ k, den) else (num, den * 10 ^ (- k)).

(** Decimal exponent [k] with [10^(k-1) <= num/den < 10^k], from a start value. *)
Fixpoint dec_exp (fuel : nat) (num den k : Z) : Z :=
  match fuel with
  | O => k
  | S fuel =>
      let '(a, b) := scale10 num den (- k) in
      if b <=? a then dec_exp fuel num den (k + 1)
      else let '(a, b) := scale10 num den (1 - k) in
           if a <? b then dec_exp fuel num den (k - 1) else k
  end.

(** [d * 10^j] read back as a positive float *)
Definition read_back (d j : Z) : float64 :=
  let '(a, b) := scale10 d 1 j in float_of_ratio false a b.

(** Digits and exponent of the shortest decimal that reads back to [x] =
    [num/den], trying 1, 2, ... digits; of the two [n]-digit neighbours that
    read back, the nearer one. *)
Fixpoint shortest (fuel : nat) (x : float64) (num den k n : Z) : Z * Z :=
  let '(a, b) := scale10 num den (n - k) in
  let d := a / b in
  let lo_ok := read_back d (k - n) ≟ x in
  let hi_ok := read_back (d + 1) (k - n) ≟ x in
  let lo_near := let r := 2 * (a mod b) in (r <? b) || ((r =? b) && Z.even d) in
  match fuel with
  | O => (d, k - n)
  | S fuel =>
      if lo_ok && (lo_near || negb hi_ok) then (d, k - n)
      else if hi_ok then (d + 1, k - n)
      else shortest fuel x num den k (n + 1)
  end.

Fixpoint strip_zeros (fuel : nat) (d j : Z) : Z * Z :=
  match fuel with
  | O => (d, j)
  | S fuel => if (d mod 10 =? 0) && negb (d =? 0) then strip_zeros fuel (d / 10) (j + 1) else (d, j)
  end.

(** Seventeen digits always read back. *)
Definition shortest_digits (m : positive) (e : Z) : Z * Z :=
  let '(num, den) := ratio_of m e in
  let k := dec_exp 700 num den 0 in
  let '(d, j) := shortest 16 (S754_finite false m e) num den k 1 in
  strip_zeros 20 d j.

Fixpoint zeros (n : nat) : string :=
  match n with O => "" | S n => String "0" (zeros n) end.

(** [%f] layout of [digits * 10^j]. *)
Definition layout_f (digits : string) (j : Z) : string :=
  let nd := len digits in
  let dp := nd + j in
  if 0 <=? j then digits ++ zeros (Z.to_nat j)
  else if dp <=? 0 then "0." ++ zeros (Z.to_nat (- dp)) ++ digits
  else str_take (Z.to_nat dp) digits ++ "." ++ str_drop (Z.to_nat dp) digits.

(** [%e] layout; JSON drops the leading zero of a one-digit negative exponent. *)
Definition layout_e (digits : string) (j : Z) : string :=
  let x := len digits + j - 1 in
  let mant := match digits with
              | String c "" => one c
              | String c r => String c ("." ++ r)
              | "" => "" end in
  let ax := Z.abs x in
  mant ++ "e" ++
  (if x <? 0 then "-" ++ format_nat ax
   else "+" ++ (if ax <? 10 then "0" else "") ++ format_nat ax).

Definition lit_1em6 : float64 := float_of_ratio false 1 (10 ^ 6).
Definition lit_1e21 : float64 := float_of_ratio false (10 ^ 21) 1.

(** [encoding/json]'s number syntax for a float64; [None] for NaN and infinities. *)
Definition json_float (x : float64) : option string :=
  match x with
  | S754_nan | S754_infinity _ => None
  | S754_zero s => Some (if s then "-0" else "0")
  | S754_finite s m e =>
      let '(d, j) := shortest_digits m e in
      let a := S754_finite false m e in
      let body := if flt a lit_1em6 || fle lit_1e21 a
                  then layout_e (format_nat d) j else layout_f (format_nat d) j in
      Some ((if s then "-" else "") ++ body)
  end.

(** ** Facts *)

Example json_float_tenth : json_float (float_of_ratio false 1 10) = Some "0.1".
Proof. vm_compute. reflexivity. Qed.
Example json_float_third : json_float (float_of_ratio true 1 3) = Some "-0.3333333333333333".
Proof. vm_compute. reflexivity. Qed.
Example json_float_large : json_float (float_of_ratio false (15 * 10 ^ 24) 10) = Some "1.5e+24".
Proof. vm_compute. reflexivity. Qed.
Example json_float_small : json_float (float_of_ratio false 5 (10 ^ 324)) = Some "5e-324".
Proof. vm_compute. reflexivity. Qed.
Example json_float_int : json_float (of_int 350) = Some "350".
Proof. vm_compute. reflexivity. Qed.

(** *** Exact integers

    Integers below 2^53 are represented exactly and products that stay below
    2^53 are exact. *)

Lemma digits2_log2 p : Zpos (digits2_pos p) = Z.log2 (Zpos p) + 1.
Proof.
  induction p as [p IH|p IH|]; [| |done]; cbn [digits2_pos]; rewrite Pos2Z.inj_succ, IH.
  - rewrite Pos2Z.inj_xI, Z.log2_succ_double by lia. lia.
  - rewrite Pos2Z.inj_xO, Z.log2_double by lia. lia.
Qed.

Lemma log2_shift n k : 0 < n → 0 <= k → Z.log2 (n * 2 ^ k) = Z.log2 n + k.
Proof. intros. rewrite Z.log2_mul_pow2 by lia. lia. Qed.

Lemma iter_pos_nat {A : Type} (f : A → A) p x : iter_pos f p x = Nat.iter (Pos.to_nat p) f x.
Proof.
  revert x. induction p as [p IH|p IH|]; intros x; cbn [iter_pos].
  - rewrite !IH, Pos2Nat.inj_xI, <- Nat.iter_add, Nat.iter_succ_r. f_equal. lia.
  - rewrite !IH, Pos2Nat.inj_xO, <- Nat.iter_add. f_equal. lia.
  - done.
Qed.

Lemma shr_1_even m : 0 <= m → shr_1 (Build_shr_record (2 * m) false false) = Build_shr_record m false false.
Proof. intros. destruct m; [done|done|lia]. Qed.

Lemma shr_iter_exact n m :
  0 <= m → Nat.iter n shr_1 (Build_shr_record (m * 2 ^ Z.of_nat n) false false) = Build_shr_record m false false.
Proof.
  intros Hm. induction n as [|n IH].
  - by rewrite Z.mul_1_r.
  - rewrite Nat.iter_succ_r, <- IH. f_equal.
    replace (m * 2 ^ Z.of_nat (S n)) with (2 * (m * 2 ^ Z.of_nat n)).
    + apply shr_1_even. pose proof (Z.pow_pos_nonneg 2 (Z.of_nat n)). nia.
    + rewrite Nat2Z.inj_succ, Z.pow_succ_r by lia. ring.
Qed.

Lemma shr_exact m e k :
  0 <= m → 0 <= k →
  shr (Build_shr_record (m * 2 ^ k) false false) e k = (Build_shr_record m false false, e + k).
Proof.
  intros. destruct k as [|p|p]; [by rewrite Z.mul_1_r, Z.add_0_r| |lia].
  cbn [shr]. rewrite iter_pos_nat. do 2 f_equal.
  rewrite <- (positive_nat_Z p). by apply shr_iter_exact.
Qed.

(** The canonical float of a positive integer [n < 2^53]. *)
Definition canon (n : Z) : float64 :=
  S754_finite false (Z.to_pos (n * 2 ^ (52 - Z.log2 n))) (Z.log2 n - 52).

Lemma log2_lt_53 n : 0 < n < 2 ^ 53 → 0 <= Z.log2 n < 53.
Proof. intros. split; [apply Z.log2_nonneg|]. apply Z.log2_lt_pow2; lia. Qed.

Lemma fexp_small x : -1000 <= x <= 1000 → fexp prec64 emax64 x = x - 53.
Proof. intros. unfold fexp, emin, prec64, emax64. lia. Qed.

Lemma round_exact n k :
  0 < n < 2 ^ 53 → 0 <= k <= 200 →
  binary_round_aux prec64 emax64 false (n * 2 ^ (52 - Z.log2 n + k)) (Z.log2 n - 52 - k) loc_Exact = canon n.
Proof.
  intros Hn Hk. pose proof (log2_lt_53 n Hn) as Hl.
  set (m := n * 2 ^ (52 - Z.log2 n)).
  assert (Hm : n * 2 ^ (52 - Z.log2 n + k) = m * 2 ^ k).
  { unfold m. rewrite <- Z.mul_assoc, <- Z.pow_add_r by lia. done. }
  assert (Hm0 : 0 < m) by (unfold m; pose proof (Z.pow_pos_nonneg 2 (52 - Z.log2 n)); nia).
  assert (Hml : Z.log2 m = 52) by (unfold m; rewrite log2_shift by lia; lia).
  assert (Hd : ∀ j, 0 <= j → Zdigits2 (m * 2 ^ j) = 53 + j).
  { intros j Hj. assert (0 < m * 2 ^ j) by (pose proof (Z.pow_pos_nonneg 2 j); nia).
    destruct (m * 2 ^ j) eqn:E; try lia. cbn [Zdigits2]. rewrite digits2_log2, <- E, log2_shift by lia. lia. }
  rewrite Hm. unfold binary_round_aux, shr_fexp.
  rewrite Hd, fexp_small by lia. cbn [shr_record_of_loc].
  replace (53 + k + (Z.log2 n - 52 - k) - 53 - (Z.log2 n - 52 - k)) with k by lia.
  rewrite shr_exact by lia. cbn [shr_m loc_of_shr_record round_nearest_even shr_record_of_loc].
  specialize (Hd 0 ltac:(lia)). rewrite Z.mul_1_r in Hd.
  rewrite Hd, fexp_small by lia.
  replace (53 + 0 + (Z.log2 n - 52 - k + k) - 53 - (Z.log2 n - 52 - k + k)) with 0 by lia.
  cbn [shr shr_m]. unfold canon. fold m.
  destruct m as [|p|p] eqn:E; try lia. cbn [shr_m].
  assert (Z.leb (Z.log2 n - 52 - k + k) (Z.sub emax64 prec64) = true) as ->
    by (apply Z.leb_le; unfold emax64, prec64; lia).
  cbn. f_equal. lia.
Qed.

Lemma pos_iter_xO p q : Zpos (Pos.iter xO p q) = Zpos p * 2 ^ Zpos q.
Proof.
  induction q using Pos.peano_ind; [cbn; lia|].
  rewrite Pos.iter_succ, Pos2Z.inj_xO, IHq, Pos2Z.inj_succ, Z.pow_succ_r by lia. ring.
Qed.

Lemma of_int_canon n : 0 < n < 2 ^ 53 → of_int n = canon n.
Proof.
  intros Hn. pose proof (log2_lt_53 n Hn) as Hl.
  destruct n as [|p|p]; try lia. unfold of_int. cbn [binary_normalize]. unfold binary_round.
  rewrite digits2_log2, fexp_small by lia.
  pose proof (round_exact (Zpos p) 0 Hn ltac:(lia)) as R.
  rewrite Z.add_0_r, Z.sub_0_r in R.
  unfold shl_align. replace (Z.log2 (Z.pos p) + 1 + 0 - 53 - 0) with (- (52 - Z.log2 (Z.pos p))) by lia.
  destruct (52 - Z.log2 (Z.pos p)) as [|q|q] eqn:E; try lia.
  - rewrite Z.mul_1_r in R. by replace (Z.log2 (Z.pos p) - 52) with 0 in R by lia.
  - change (- Z.pos q) with (Z.neg q). cbv beta iota. change (@PosDef.Pos.iter positive) with (@Pos.iter positive).
    rewrite pos_iter_xO. replace (Z.log2 (Z.pos p) + 1 + 0 - 53) with (Z.log2 (Z.pos p) - 52) by lia. done.
Qed.

Lemma fmul_exact a b :
  0 < a → 0 < b → a * b < 2 ^ 53 → fmul (of_int a) (of_int b) = of_int (a * b).
Proof.
  intros Ha Hb Hab.
  assert (a < 2 ^ 53) by nia. assert (b < 2 ^ 53) by nia.
  rewrite !of_int_canon by nia. unfold fmul, canon at 1 2. cbn [SFmul xorb].
  pose proof (log2_lt_53 a ltac:(lia)). pose proof (log2_lt_53 b ltac:(lia)).
  pose proof (log2_lt_53 (a * b) ltac:(nia)).
  pose proof (Z.log2_mul_below a b ltac:(lia) ltac:(lia)).
  rewrite <- (round_exact (a * b) (52 + Z.log2 (a * b) - Z.log2 a - Z.log2 b)) by nia.
  f_equal; [|lia].
  pose proof (Z.pow_pos_nonneg 2 (52 - Z.log2 a)). pose proof (Z.pow_pos_nonneg 2 (52 - Z.log2 b)).
  rewrite Pos2Z.inj_mul, !Z2Pos.id by nia.
  replace (52 - Z.log2 (a * b) + (52 + Z.log2 (a * b) - Z.log2 a - Z.log2 b))
    with ((52 - Z.log2 a) + (52 - Z.log2 b)) by lia.
  rewrite Z.pow_add_r by lia. ring.
Qed.

(** [uint64(x)] for a non-negative finite [x]: truncation. *)
Definition trunc (x : float64) : Z :=
  match x with
  | S754_finite false m e => if 0 <=? e then Zpos m * 2 ^ e else Zpos m / 2 ^ (- e)
  | _ => 0
  end.

Lemma trunc_of_int n : 0 < n < 2 ^ 53 → trunc (of_int n) = n.
Proof.
  intros Hn. pose proof (log2_lt_53 n Hn). rewrite of_int_canon by done. unfold trunc, canon.
  pose proof (Z.pow_pos_nonneg 2 (52 - Z.log2 n)).
  case_match eqn:E; bools; rewrite Z2Pos.id by nia.
  - replace (Z.log2 n) with 52 by lia. cbn. lia.
  - replace (- (Z.log2 n - 52)) with (52 - Z.log2 n) by lia. apply Z.div_mul. lia.
Qed.

(** *** Mantissas

    Rounding leaves at most 53 binary digits. *)

Definition mantissa_fits (x : float64) : Prop := match x with S754_finite _ m _ => Zpos m < 2 ^ 53 | _ => True end.

Lemma shr_1_abs r : Z.abs (shr_m (shr_1 r)) = Z.abs (shr_m r) / 2.
Proof. destruct r as [m b s]. rewrite <- Z.div2_div. by destruct m as [|[p|p|]|[p|p|]]. Qed.
Lemma shr_iter_abs n r : Z.abs (shr_m (Nat.iter n shr_1 r)) = Z.abs (shr_m r) / 2 ^ Z.of_nat n.
Proof.
  induction n as [|n IH]; [by rewrite Z.div_1_r|]. cbn [Nat.iter nat_rect]. change (nat_rect _ _ _ n) with (Nat.iter n shr_1 r).
  rewrite shr_1_abs, IH, Z.div_div by (try apply Z.pow_pos_nonneg; lia). f_equal. rewrite Nat2Z.inj_succ, Z.pow_succ_r by lia. lia.
Qed.
Lemma Zdigits2_abs m : Z.abs m < 2 ^ Zdigits2 m.
Proof.
  destruct m as [|p|p]; [done|..]; cbn [Zdigits2 Z.abs]; rewrite digits2_log2; apply Z.log2_spec; lia.
Qed.
Lemma shr_fexp_fits m e : Z.abs (shr_m (fst (shr_fexp prec64 emax64 m e loc_Exact))) < 2 ^ 53.
Proof.
  unfold shr_fexp, shr_record_of_loc. pose proof (Zdigits2_abs m) as Hm.
  assert (Hk : Zdigits2 m - 53 <= fexp prec64 emax64 (Zdigits2 m + e) - e) by (unfold fexp, prec64; lia).
  destruct (fexp prec64 emax64 (Zdigits2 m + e) - e) as [|p|p] eqn:E; cbn [shr fst shr_m].
  - eapply Z.lt_le_trans; [exact Hm|]. apply Z.pow_le_mono_r; lia.
  - rewrite iter_pos_nat, shr_iter_abs, positive_nat_Z. cbn [shr_m]. apply Z.div_lt_upper_bound; [by apply Z.pow_pos_nonneg|].
    rewrite <- Z.pow_add_r by lia. eapply Z.lt_le_trans; [exact Hm|]. apply Z.pow_le_mono_r; lia.
  - eapply Z.lt_le_trans; [exact Hm|]. apply Z.pow_le_mono_r; lia.
Qed.
Lemma float_of_ratio_fits neg num den : mantissa_fits (float_of_ratio neg num den).
Proof.
  unfold float_of_ratio. destruct (num =? 0); [done|]. destruct (SFdiv_core_binary _ _ _ _ _ _) as [[q e] l]. unfold binary_round_aux.
  destruct (shr_fexp _ _ q e l) as [r e']. set (m := round_nearest_even _ _). pose proof (shr_fexp_fits m e') as Hf.
  destruct (shr_fexp prec64 emax64 m e' loc_Exact) as [r' e'']. cbn [fst] in Hf. destruct (shr_m r'); [done| |done]. by destruct (_ <=? _).
Qed.
