(* ===== verification/GoTime.v ===== *)
(** * Durations and instants as text: Go's package [time]

    First [time.ParseDuration] and [time.Duration.String], then RFC 3339.
    Manifests carry durations as text; the compiler parses them, checks their
    range and writes back the canonical text.  Both directions are modelled
    with Go's 64-bit limits, and printing followed by parsing is the identity
    on every representable duration. *)

From S2P Require Import Prelude GoText GoFloat.

(** ** Parsing *)

(** [leadingInt]: digits with the overflow checks against [1<<63]. *)
Fixpoint leadingInt (x : Z) (s : string) : result (Z * string) :=
  match s with
  | "" => Ok (x, s)
  | String c r =>
      if is_digit c then
        if 2 ^ 63 / 10 <? x then Err "time: bad [0-9]*"
        else let y := x * 10 + digit_val c in
             if 2 ^ 63 <? y then Err "time: bad [0-9]*" else leadingInt y r
      else Ok (x, s)
  end.

Definition float_ten : float64 := of_int 10.

(** [leadingFraction]: digits beyond the 63-bit range are skipped. *)
Fixpoint leadingFraction (overflow : bool) (x : Z) (scale : float64) (s : string) : Z * float64 * string :=
  match s with
  | "" => (x, scale, s)
  | String c r =>
      if is_digit c then
        if overflow then leadingFraction true x scale r
        else if max_int64 / 10 <? x then leadingFraction true x scale r
        else let y := x * 10 + digit_val c in
             if 2 ^ 63 <? y then leadingFraction true x scale r
             else leadingFraction false y (fmul scale float_ten) r
      else (x, scale, s)
  end.

Definition micro_sign : string := b2 0xC2 0xB5.
Definition greek_mu : string := b2 0xCE 0xBC.

Definition unitMap (u : string) : option Z :=
  if u ≟ "ns" then Some Nanosecond
  else if (u ≟ "us") || (u ≟ micro_sign ++ "s") || (u ≟ greek_mu ++ "s") then Some Microsecond
  else if u ≟ "ms" then Some Millisecond
  else if u ≟ "s" then Some Second
  else if u ≟ "m" then Some Minute
  else if u ≟ "h" then Some Hour
  else None.

Definition not_number (c : ascii) : bool := negb ((c ≟ "."%char) || is_digit c).

(** One [number unit] group: its value in nanoseconds and the rest. *)
Definition duration_group (s : string) : result (Z * string) :=
  match s with
  | "" => Err "time: invalid duration"
  | String c _ =>
      fail_if (not_number c) "time: invalid duration" ;;
      '(v, s1) ← leadingInt 0 s;
      let pre := negb (len s1 =? len s) in
      let '(f, scale, s2, post) :=
        match s1 with
        | String "." r =>
            let '(f, scale, r') := leadingFraction false 0 (of_int 1) r in
            (f, scale, r', negb (len r' =? len r))
        | _ => (0, of_int 1, s1, false)
        end in
      fail_if (negb pre && negb post) "time: invalid duration" ;;
      let '(u, s3) := span not_number s2 in
      fail_if (u ≟ "") "time: missing unit in duration" ;;
      match unitMap u with
      | None => Err "time: unknown unit in duration"
      | Some unit =>
          fail_if (2 ^ 63 / unit <? v) "time: invalid duration" ;;
          let v := v * unit in
          let v := if 0 <? f then v + trunc (fmul (of_int f) (fdiv (of_int unit) scale)) else v in
          fail_if ((0 <? f) && (2 ^ 63 <? v)) "time: invalid duration" ;;
          Ok (v, s3)
      end
  end.

Fixpoint duration_groups (fuel : nat) (d : Z) (s : string) : result Z :=
  match fuel with
  | O => Err "time: invalid duration"
  | S fuel =>
      match s with
      | "" => Ok d
      | _ => '(v, r) ← duration_group s;
             let d := (d + v) mod 2 ^ 64 in
             fail_if (2 ^ 63 <? d) "time: invalid duration" ;;
             duration_groups fuel d r
      end
  end.

(** Every group consumes at least two bytes: the length plus one is enough fuel. *)
Definition ParseDuration (s : string) : result duration :=
  let '(neg, s) := match s with
                   | String "-" r => (true, r)
                   | String "+" r => (false, r)
                   | _ => (false, s)
                   end in
  if s ≟ "0" then Ok 0
  else if s ≟ "" then Err "time: invalid duration"
  else d ← duration_groups (S (String.length s)) 0 s;
       if neg : bool then Ok (- d)
       else fail_if (max_int64 <? d) "time: invalid duration" ;; Ok d.

(** ** Printing *)

(** [fmtFrac]: the last [prec] digits of [v], without trailing zeros, as
    [".ddd"], prepended to [acc]. *)
Fixpoint fmtFrac (prec : nat) (print : bool) (v : Z) (acc : string) : string :=
  match prec with
  | O => if print then String "." acc else acc
  | S prec =>
      let digit := v mod 10 in
      let print := print || negb (digit =? 0) in
      fmtFrac prec print (v / 10) (if print then String (digit_char digit) acc else acc)
  end.

Definition fmtInt (v : Z) (acc : string) : string := format_nat v ++ acc.

Definition duration_abs_string (u : Z) : string :=
  if u =? 0 then "0s"
  else if u <? Microsecond then fmtInt u "ns"
  else if u <? Millisecond then fmtInt (u / 10 ^ 3) (fmtFrac 3 false u (micro_sign ++ "s"))
  else if u <? Second then fmtInt (u / 10 ^ 6) (fmtFrac 6 false u "ms")
  else
    let secs := u / 10 ^ 9 in
    let out := fmtInt (secs mod 60) (fmtFrac 9 false u "s") in
    let mins := secs / 60 in
    if 0 <? mins then
      let out := fmtInt (mins mod 60) ("m" ++ out) in
      let hours := mins / 60 in
      if 0 <? hours then fmtInt hours ("h" ++ out) else out
    else out.

Definition Duration_String (d : duration) : string :=
  if d <? 0 then String "-" (duration_abs_string (- d)) else duration_abs_string d.

(** ** Samples against the documented behaviour *)

Example parse_90m : ParseDuration "1h30m" = Ok (90 * Minute).
Proof. vm_compute. reflexivity. Qed.
Example parse_frac : ParseDuration "-1.5s" = Ok (- (1500 * Millisecond)).
Proof. vm_compute. reflexivity. Qed.
Example parse_missing_unit : ParseDuration "10" = Err "time: missing unit in duration".
Proof. vm_compute. reflexivity. Qed.
Example parse_overflow : is_ok (ParseDuration "9223372036854775808ns") = false.
Proof. vm_compute. reflexivity. Qed.
Example print_90m : Duration_String (90 * Minute) = "1h30m0s".
Proof. vm_compute. reflexivity. Qed.
Example print_ms : Duration_String (1500 * Microsecond) = "1.5ms".
Proof. vm_compute. reflexivity. Qed.
Example min_round_trip : ParseDuration (Duration_String min_int64) = Ok min_int64.
Proof. vm_compute. reflexivity. Qed.

(** ** Printing then parsing *)

(** The next byte, if any, is not part of a number. *)
Definition stops (s : string) : bool :=
  match s with "" => true | String c _ => not_number c end.

Lemma not_number_digit c : not_number c = true → is_digit c = false ∧ c ≠ "."%char.
Proof. unfold not_number. intros. bools. destruct (is_digit c), (bool_decide_reflect (c = "."%char)); naive_solver. Qed.

(** The next byte, if any, is not a digit. *)
Definition no_digit (s : string) : bool :=
  match s with "" => true | String c _ => negb (is_digit c) end.

Lemma stops_no_digit s : stops s = true → no_digit s = true.
Proof. destruct s; [done|]. cbn. intros H%not_number_digit. by destruct H as [-> _]. Qed.

Lemma digits_val_ge x p : 0 <= x → str_forallb is_digit p = true → x <= digits_val x p.
Proof.
  revert x. induction p as [|c p IH]; intros x Hx Hp; cbn in *; [lia|].
  apply andb_true_iff in Hp as [Hc Hp]. unfold is_digit, in_range in Hc. bools.
  assert (0 <= digit_val c) by (unfold digit_val; lia).
  specialize (IH (10 * x + digit_val c) ltac:(lia) Hp). lia.
Qed.

Lemma leadingInt_digits x p rest :
  0 <= x → str_forallb is_digit p = true → digits_val x p <= 2 ^ 63 → no_digit rest = true →
  leadingInt x (p ++ rest) = Ok (digits_val x p, rest).
Proof.
  revert x. induction p as [|c p IH]; intros x Hx Hp Hv Hr; cbn in *.
  - destruct rest as [|c r]; cbn in *; [done|]. apply negb_true_iff in Hr as ->. done.
  - apply andb_true_iff in Hp as [Hc Hp]. rewrite Hc.
    unfold is_digit, in_range in Hc. bools.
    assert (0 <= digit_val c) by (unfold digit_val; lia).
    pose proof (digits_val_ge (10 * x + digit_val c) p ltac:(lia) Hp).
    replace (x * 10) with (10 * x) by lia.
    change (2 ^ 63 / 10) with 922337203685477580. change (max_int64 / 10) with 922337203685477580.
    repeat match goal with |- context [?a <? ?b] => destruct (Z.ltb_spec a b); [exfalso; lia|] end.
    apply IH; auto with lia.
Qed.

Fixpoint fscale (k : nat) (s : float64) : float64 :=
  match k with O => s | S k => fscale k (fmul s float_ten) end.

Lemma leadingFraction_digits x scale p rest :
  0 <= x → str_forallb is_digit p = true → digits_val x p < 10 ^ 17 → no_digit rest = true →
  leadingFraction false x scale (p ++ rest) = (digits_val x p, fscale (String.length p) scale, rest).
Proof.
  revert x scale. induction p as [|c p IH]; intros x scale Hx Hp Hv Hr; cbn in *.
  - destruct rest as [|c r]; cbn in *; [done|]. apply negb_true_iff in Hr as ->. done.
  - apply andb_true_iff in Hp as [Hc Hp]. rewrite Hc.
    unfold is_digit, in_range in Hc. bools.
    assert (0 <= digit_val c) by (unfold digit_val; lia).
    pose proof (digits_val_ge (10 * x + digit_val c) p ltac:(lia) Hp).
    replace (x * 10) with (10 * x) by lia.
    change (2 ^ 63 / 10) with 922337203685477580. change (max_int64 / 10) with 922337203685477580.
    repeat match goal with |- context [?a <? ?b] => destruct (Z.ltb_spec a b); [exfalso; lia|] end.
    apply IH; auto with lia.
Qed.

(** [unit/10^k] is an exact float for the fractions [String] prints. *)
Lemma unit_fraction_exact unit prec k :
  (unit, prec) ∈ [(Microsecond, 3%nat); (Millisecond, 6%nat); (Second, 9%nat)] → (k <= prec)%nat →
  fdiv (of_int unit) (fscale k (of_int 1)) = of_int (10 ^ Z.of_nat (prec - k)).
Proof.
  intros H Hk. repeat (apply elem_of_cons in H as [H|H]; [|]); [..|by apply not_elem_of_nil in H];
    simplify_eq; do 10 (destruct k as [|k]; [by vm_compute|try lia]); lia.
Qed.

Lemma str_forallb_app f a b : str_forallb f (a ++ b) = str_forallb f a && str_forallb f b.
Proof. induction a; cbn; [done|]. rewrite IHa. apply andb_assoc. Qed.

Lemma mod_pow10_S v n : v mod 10 ^ Z.of_nat (S n) = 10 * ((v / 10) mod 10 ^ Z.of_nat n) + v mod 10.
Proof.
  rewrite Nat2Z.inj_succ, Z.pow_succ_r by lia.
  rewrite Z.rem_mul_r by (pose proof (Z.pow_pos_nonneg 10 (Z.of_nat n)); lia). lia.
Qed.

Lemma fmtFrac_print prec v acc :
  ∃ p, fmtFrac prec true v acc = String "." (p ++ acc) ∧ String.length p = prec ∧
       str_forallb is_digit p = true ∧ digits_val 0 p = v mod 10 ^ Z.of_nat prec.
Proof.
  revert v acc. induction prec as [|prec IH]; intros v acc; cbn [fmtFrac].
  - exists "". cbn. rewrite Z.mod_1_r. done.
  - cbn [orb]. destruct (IH (v / 10) (String (digit_char (v mod 10)) acc)) as (p & -> & Hl & Hd & Hv).
    assert (0 <= v mod 10 < 10) by (apply Z.mod_pos_bound; lia).
    exists (p ++ one (digit_char (v mod 10))). split_and!.
    + rewrite <- str_app_assoc. done.
    + rewrite str_length_app, Hl. cbn. lia.
    + rewrite str_forallb_app, Hd. cbn. by rewrite digit_char_is_digit.
    + rewrite digits_val_app, Hv. cbn [digits_val one]. rewrite digit_char_val by done.
      rewrite mod_pow10_S. lia.
Qed.

(** A fraction is printed exactly when it is not zero, without trailing zeros. *)
Lemma fmtFrac_spec prec v acc :
  (v mod 10 ^ Z.of_nat prec = 0 ∧ fmtFrac prec false v acc = acc) ∨
  (∃ p, fmtFrac prec false v acc = String "." (p ++ acc) ∧ (0 < String.length p <= prec)%nat ∧
        str_forallb is_digit p = true ∧ 0 < digits_val 0 p ∧
        digits_val 0 p * 10 ^ Z.of_nat (prec - String.length p) = v mod 10 ^ Z.of_nat prec).
Proof.
  revert v acc. induction prec as [|prec IH]; intros v acc; cbn [fmtFrac orb].
  - left. rewrite Z.mod_1_r. done.
  - assert (0 <= v mod 10 < 10) by (apply Z.mod_pos_bound; lia).
    assert (0 <= (v / 10) mod 10 ^ Z.of_nat prec) by (apply Z.mod_pos_bound; lia).
    rewrite mod_pow10_S. destruct (Z.eqb_spec (v mod 10) 0) as [E|E]; cbn [negb].
    + destruct (IH (v / 10) acc) as [[H1 H2]|(p & -> & Hl & Hd & Hp & Hv)].
      * left. split; [lia|done].
      * right. exists p. split_and!; try done; try lia.
        rewrite <- Hv, E. replace (S prec - String.length p)%nat with (S (prec - String.length p)) by lia.
        rewrite Nat2Z.inj_succ, Z.pow_succ_r by lia. lia.
    + right. destruct (fmtFrac_print prec (v / 10) (String (digit_char (v mod 10)) acc)) as (p & -> & Hl & Hd & Hv).
      exists (p ++ one (digit_char (v mod 10))). rewrite str_length_app, Hl, digits_val_app, Hv.
      cbn [digits_val one String.length]. rewrite digit_char_val by done.
      split_and!; try lia.
      * rewrite <- str_app_assoc. done.
      * rewrite str_forallb_app, Hd. cbn. by rewrite digit_char_is_digit.
      * replace (S prec - (prec + 1))%nat with 0%nat by lia. cbn. lia.
Qed.

(** What may follow the number of a group. *)
Definition unit_sep (u rest : string) (unit : Z) : Prop :=
  u ≠ "" ∧ unitMap u = Some unit ∧ 0 < unit ∧ stops (u ++ rest) = true ∧
  span not_number (u ++ rest) = (u, rest).

Lemma format_nat_head v rest : 0 <= v → ∃ c r, format_nat v ++ rest = String c r ∧ not_number c = false.
Proof.
  intros Hv. destruct (format_nat_spec v Hv) as (_ & Hd & Hne).
  destruct (format_nat v) as [|c r]; [done|]. exists c, (r ++ rest). split; [done|].
  cbn in Hd. apply andb_true_iff in Hd as [Hd _]. unfold not_number. rewrite Hd.
  by rewrite orb_true_r.
Qed.

Lemma len_app a b : len (a ++ b) = len a + len b.
Proof. unfold len. rewrite str_length_app. lia. Qed.
Lemma len_pos s : s ≠ "" → 0 < len s.
Proof. destruct s; [done|]. unfold len. cbn. lia. Qed.

Lemma group_int v u rest unit :
  0 <= v → v * unit <= 2 ^ 63 → unit_sep u rest unit →
  duration_group (format_nat v ++ u ++ rest) = Ok (v * unit, rest).
Proof.
  intros Hv Hb (Hu & Hm & Hp & Hs & Hsp).
  destruct (format_nat_spec v Hv) as (Hd & Hdig & Hne).
  destruct (format_nat_head v (u ++ rest) Hv) as (c & r & E & Hc).
  unfold duration_group. rewrite E, Hc, <- E. cbn [fail_if mbind result_bind].
  rewrite leadingInt_digits by (rewrite ?Hd; solve [nia | done | by apply stops_no_digit]). rewrite Hd. cbn [mbind result_bind].
  rewrite (len_app (format_nat v)). pose proof (len_pos _ Hne).
  destruct (Z.eqb_spec (len (u ++ rest)) (len (format_nat v) + len (u ++ rest))); [lia|]. cbn [negb andb].
  destruct u as [|cu u]; [done|]. cbn [append] in *. cbn [stops] in Hs.
  destruct (not_number_digit _ Hs) as [_ Hdot].
  assert (∀ (A : Type) (x y : A), match cu with "."%char => x | _ => y end = y) as Hcase.
  { intros. destruct cu as [[] [] [] [] [] [] [] []]; try done. }
  assert ((match String cu (u ++ rest) with
           | String "." r0 => let '(f, scale, r') := leadingFraction false 0 (of_int 1) r0 in
                              (f, scale, r', negb (len r' =? len r0))
           | _ => (0, of_int 1, String cu (u ++ rest), false) end)
          = (0, of_int 1, String cu (u ++ rest), false)) as ->.
  { destruct cu as [[] [] [] [] [] [] [] []]; try done. }
  rewrite Hsp, Hm. rewrite bool_decide_eq_false_2 by done. cbn [fail_if mbind result_bind].
  destruct (Z.ltb_spec (2 ^ 63 / unit) v) as [Hlt|_].
  - exfalso. pose proof (Z.div_le_lower_bound (2 ^ 63) unit v Hp ltac:(lia)). lia.
  - done.
Qed.

Lemma group_frac v prec u rest x :
  let unit := 10 ^ Z.of_nat prec in
  0 <= v → (unit, prec) ∈ [(Microsecond, 3%nat); (Millisecond, 6%nat); (Second, 9%nat)] →
  v * unit + x mod unit <= 2 ^ 63 → unit_sep u rest unit →
  duration_group (format_nat v ++ fmtFrac prec false x (u ++ rest)) = Ok (v * unit + x mod unit, rest).
Proof.
  intros unit Hv Hin Hb Hu.
  assert (Hpu : 0 < unit) by apply Hu.
  pose proof (Z.mod_pos_bound x unit Hpu) as Hmod.
  destruct (fmtFrac_spec prec x (u ++ rest)) as [[Hz ->]|(p & -> & Hl & Hdp & Hpos & Hval)];
    fold unit in Hz || fold unit in Hval.
  { rewrite Hz, Z.add_0_r in *. by apply group_int. }
  destruct Hu as (Hu & Hm & _ & Hs & Hsp).
  destruct (format_nat_spec v Hv) as (Hd & Hdig & Hne).
  destruct (format_nat_head v (String "." (p ++ u ++ rest)) Hv) as (c & r & E & Hc).
  assert (unit <= 10 ^ 9) as Hu9.
  { repeat (apply elem_of_cons in Hin as [Hin|Hin]; [apply (f_equal fst) in Hin; cbn [fst] in Hin; by rewrite Hin|]).
    by apply not_elem_of_nil in Hin. }
  assert (0 < 10 ^ Z.of_nat (prec - String.length p)) by (apply Z.pow_pos_nonneg; lia).
  unfold duration_group. rewrite E, Hc, <- E. cbn [fail_if mbind result_bind].
  rewrite leadingInt_digits by (rewrite ?Hd; solve [nia | done | by apply stops_no_digit]). rewrite Hd. cbn [mbind result_bind].
  rewrite (len_app (format_nat v)). pose proof (len_pos _ Hne).
  destruct (Z.eqb_spec (len (String "." (p ++ u ++ rest)))
              (len (format_nat v) + len (String "." (p ++ u ++ rest)))); [lia|]. cbn [negb andb].
  rewrite leadingFraction_digits by solve [done | nia | by apply stops_no_digit].
  rewrite Hsp, Hm. rewrite bool_decide_eq_false_2 by done. cbn [fail_if mbind result_bind].
  rewrite (unit_fraction_exact unit prec) by (done || lia).
  rewrite fmul_exact, trunc_of_int, Hval by nia.
  destruct (Z.ltb_spec (2 ^ 63 / unit) v) as [Hlt|_].
  { exfalso. pose proof (Z.div_le_lower_bound (2 ^ 63) unit v Hpu ltac:(lia)). lia. }
  destruct (Z.ltb_spec 0 (digits_val 0 p)); [|lia]. cbn [fail_if mbind result_bind andb].
  destruct (Z.ltb_spec (2 ^ 63) (v * unit + x mod unit)); [lia|]. done.
Qed.

Definition starts_number (s : string) : bool :=
  match s with "" => true | String c _ => negb (not_number c) end.

Lemma span_unit u rest :
  str_forallb not_number u = true → starts_number rest = true → span not_number (u ++ rest) = (u, rest).
Proof.
  intros Hu Hr. induction u as [|c u IH]; cbn in *.
  - destruct rest as [|c r]; [done|]. cbn in *. apply negb_true_iff in Hr. by rewrite Hr.
  - apply andb_true_iff in Hu as [Hc Hu]. rewrite Hc, IH by done. done.
Qed.

Lemma unit_sep_intro u rest unit :
  unitMap u = Some unit → 0 < unit → u ≠ "" → str_forallb not_number u = true →
  starts_number rest = true → unit_sep u rest unit.
Proof.
  intros. split_and!; try done; [|by apply span_unit].
  destruct u as [|c u]; [done|]. cbn in *. bools. done.
Qed.

Lemma starts_number_format v rest : 0 <= v → starts_number (format_nat v ++ rest) = true.
Proof. intros Hv. destruct (format_nat_head v rest Hv) as (c & r & -> & Hc). cbn. by rewrite Hc. Qed.

Lemma groups_step fuel d s v r :
  s ≠ "" → duration_group s = Ok (v, r) → 0 <= d → 0 <= v → d + v <= 2 ^ 63 →
  duration_groups (S fuel) d s = duration_groups fuel (d + v) r.
Proof.
  intros Hs Hg Hd Hv Hb. destruct s as [|c s]; [done|]. cbn [duration_groups]. rewrite Hg. cbn [mbind result_bind].
  rewrite Z.mod_small by lia. destruct (Z.ltb_spec (2 ^ 63) (d + v)); [lia|]. done.
Qed.

Lemma format_nat_nonempty v rest : 0 <= v → format_nat v ++ rest ≠ "".
Proof. intros Hv. destruct (format_nat_head v rest Hv) as (c & r & -> & _). done. Qed.

Lemma format_nat_length v : 0 <= v → (0 < String.length (format_nat v))%nat.
Proof. intros Hv. destruct (format_nat_spec v Hv) as (_ & _ & H). destruct (format_nat v); cbn in *; [done|lia]. Qed.

Ltac units := unfold Hour, Minute, Second, Millisecond, Microsecond, Nanosecond in *; lia.

Lemma groups_int fuel d v u rest unit :
  0 <= d → 0 <= v → d + v * unit <= 2 ^ 63 → unit_sep u rest unit →
  duration_groups (S fuel) d (fmtInt v (u ++ rest)) = duration_groups fuel (d + v * unit) rest.
Proof.
  intros Hd Hv Hb Hu. assert (0 < unit) by apply Hu.
  apply groups_step; [by apply format_nat_nonempty| |lia|nia|lia]. apply group_int; [done|lia|done].
Qed.

(** A group with a fraction ends the text. *)
Lemma groups_frac fuel d v prec u x :
  let unit := 10 ^ Z.of_nat prec in
  (unit, prec) ∈ [(Microsecond, 3%nat); (Millisecond, 6%nat); (Second, 9%nat)] →
  0 <= d → 0 <= v → d + (v * unit + x mod unit) <= 2 ^ 63 → unit_sep u "" unit →
  duration_groups (S (S fuel)) d (fmtInt v (fmtFrac prec false x u)) = Ok (d + (v * unit + x mod unit)).
Proof.
  intros unit Hin Hd Hv Hb Hu. assert (0 < unit) as Hp by apply Hu.
  pose proof (Z.mod_pos_bound x unit Hp).
  rewrite (groups_step (S fuel) d _ (v * unit + x mod unit) "");
    [done|by apply format_nat_nonempty| |lia|nia|lia].
  rewrite <- (str_app_nil_r u) at 1. apply (group_frac v prec u ""); try done. fold unit. lia.
Qed.

Lemma groups_small fuel prec u x :
  let unit := 10 ^ Z.of_nat prec in
  (unit, prec) ∈ [(Microsecond, 3%nat); (Millisecond, 6%nat); (Second, 9%nat)] →
  0 <= x <= 2 ^ 63 → unit_sep u "" unit →
  duration_groups (S (S fuel)) 0 (fmtInt (x / unit) (fmtFrac prec false x u)) = Ok x.
Proof.
  intros unit Hin Hx Hu. assert (0 < unit) as Hp by apply Hu.
  pose proof (Z.div_mod x unit ltac:(lia)).
  assert (0 <= x / unit) by (apply Z.div_pos; lia).
  unfold unit. rewrite groups_frac; fold unit; try done; [f_equal|]; lia.
Qed.

Lemma groups_abs u fuel :
  0 < u <= 2 ^ 63 → duration_groups (S (S (S (S fuel)))) 0 (duration_abs_string u) = Ok u.
Proof.
  intros Hu. unfold duration_abs_string.
  destruct (Z.eqb_spec u 0); [lia|].
  destruct (Z.ltb_spec u Microsecond).
  { change "ns" with ("ns" ++ ""). rewrite (groups_int _ _ _ "ns" "" 1) by (lia || by apply unit_sep_intro).
    cbn [duration_groups]. f_equal. lia. }
  destruct (Z.ltb_spec u Millisecond).
  { apply (groups_small _ 3); [left|lia|by apply unit_sep_intro]. }
  destruct (Z.ltb_spec u Second).
  { apply (groups_small _ 6); [right; left|lia|by apply unit_sep_intro]. }
  set (secs := u / 10 ^ 9). set (mins := secs / 60). set (hours := mins / 60).
  pose proof (Z.div_mod u (10 ^ 9) ltac:(lia)) as Eu. pose proof (Z.mod_pos_bound u (10 ^ 9) ltac:(lia)).
  assert (0 <= secs) by (apply Z.div_pos; lia).
  pose proof (Z.div_mod secs 60 ltac:(lia)) as Es. pose proof (Z.mod_pos_bound secs 60 ltac:(lia)).
  assert (0 <= mins) by (apply Z.div_pos; lia).
  pose proof (Z.div_mod mins 60 ltac:(lia)) as Em. pose proof (Z.mod_pos_bound mins 60 ltac:(lia)).
  assert (0 <= hours) by (apply Z.div_pos; lia).
  fold secs in Eu. fold mins in Es. fold hours in Em.
  assert (∀ rest v, 0 <= v → unit_sep "m" (fmtInt v rest) Minute ∧ unit_sep "h" (fmtInt v rest) Hour) as Hsep
    by (intros; split; apply unit_sep_intro; try done; by apply starts_number_format).
  assert ((Second, 9%nat) ∈ [(Microsecond, 3%nat); (Millisecond, 6%nat); (Second, 9%nat)]) as Hin by (right; right; left).
  assert (unit_sep "s" "" Second) as Hs by by apply unit_sep_intro.
  destruct (Z.ltb_spec 0 mins); [destruct (Z.ltb_spec 0 hours)|].
  - rewrite (groups_int _ _ hours "h" _ Hour) by (units || (apply Hsep; lia)).
    rewrite (groups_int _ _ (mins mod 60) "m" _ Minute) by (units || (apply Hsep; lia)).
    rewrite (groups_frac _ _ _ 9) by (done || units). f_equal. units.
  - rewrite (groups_int _ _ (mins mod 60) "m" _ Minute) by (units || (apply Hsep; lia)).
    rewrite (groups_frac _ _ _ 9) by (done || units). f_equal. units.
  - rewrite (groups_frac _ _ _ 9) by (done || units). f_equal. units.
Qed.

Lemma abs_string_head u : 0 <= u → ∃ c r, duration_abs_string u = String c r ∧ not_number c = false.
Proof.
  intros Hu. unfold duration_abs_string, fmtInt.
  assert (∀ v, 0 <= v → ∀ rest, ∃ c r, format_nat v ++ rest = String c r ∧ not_number c = false) as H
    by (intros; by apply format_nat_head).
  repeat case_match; bools; try (apply H; first [lia | apply Z.div_pos; lia | apply Z.mod_pos_bound; lia]).
  by exists "0"%char, "s".
Qed.

(** *** Each group shortens the text, so the fuel of [ParseDuration] is enough *)

Lemma leadingInt_shorter x s v r : leadingInt x s = Ok (v, r) → (String.length r <= String.length s)%nat.
Proof.
  revert x. induction s as [|c s IH]; intros x; cbn; [intros; simplify_eq; done|].
  repeat case_match; intros H'; simplify_eq; cbn; try lia. apply IH in H'. lia.
Qed.

Lemma leadingFraction_shorter o x sc s f sc' r :
  leadingFraction o x sc s = (f, sc', r) → (String.length r <= String.length s)%nat.
Proof.
  revert o x sc. induction s as [|c s IH]; intros o x sc; cbn; [intros; simplify_eq; done|].
  repeat case_match; intros H'; simplify_eq; cbn; try lia; apply IH in H'; lia.
Qed.

Lemma span_length f s a b : span f s = (a, b) → (String.length a + String.length b = String.length s)%nat.
Proof.
  revert a b. induction s as [|c s IH]; intros a b; cbn; [intros; simplify_eq; done|].
  destruct (span f s) as [a' b'] eqn:E. specialize (IH _ _ eq_refl).
  case_match; intros; simplify_eq; cbn; lia.
Qed.

Lemma duration_group_shorter s v r : duration_group s = Ok (v, r) → (String.length r < String.length s)%nat.
Proof.
  destruct s as [|c s]; [done|]. unfold duration_group. intros H. res_inv.
  destruct a as [v1 s1]. apply leadingInt_shorter in Ha.
  destruct (match s1 with String "." r0 => _ | _ => _ end) as [[[f sc] s2] post] eqn:E2.
  assert (String.length s2 <= String.length s1)%nat.
  { revert E2. clear. repeat case_match; intros; simplify_eq; try done.
    all: match goal with Hf : leadingFraction _ _ _ _ = _ |- _ => apply leadingFraction_shorter in Hf end; cbn; lia. }
  res_inv. destruct (span not_number s2) as [u s3] eqn:E3. apply span_length in E3.
  res_inv. bools. destruct (unitMap u); [|done]. res_inv.
  destruct u; [done|]. cbn in *. lia.
Qed.

Lemma duration_groups_fuel n m d s :
  (String.length s < n)%nat → (String.length s < m)%nat → duration_groups n d s = duration_groups m d s.
Proof.
  revert m d s. induction n as [|n IH]; intros [|m] d s Hn Hm; try lia. cbn [duration_groups].
  destruct s as [|c s]; [done|]. destruct (duration_group (String c s)) as [[v r]|] eqn:E; [|done].
  cbn [mbind result_bind]. apply duration_group_shorter in E.
  destruct (2 ^ 63 <? (d + v) mod 2 ^ 64); cbn [fail_if mbind result_bind]; [done|]. apply IH; lia.
Qed.

(** Reading a printed duration gives it back. *)
Lemma ParseDuration_String d : is_int64 d → ParseDuration (Duration_String d) = Ok d.
Proof.
  unfold is_int64, min_int64, max_int64. intros Hd.
  destruct (Z.eq_dec d 0) as [->|Hz]; [by vm_compute|].
  assert (∀ u, 0 < u <= 2 ^ 63 → duration_groups (S (String.length (duration_abs_string u))) 0 (duration_abs_string u) = Ok u
    ∧ duration_abs_string u ≠ "0" ∧ duration_abs_string u ≠ "") as Habs.
  { intros u Hu. pose proof (groups_abs u (String.length (duration_abs_string u)) Hu) as G.
    rewrite (duration_groups_fuel _ (S (String.length (duration_abs_string u)))) in G by lia.
    split_and!; [done| |]; intros E; rewrite E in G; vm_compute in G; simplify_eq; lia. }
  unfold Duration_String. destruct (Z.ltb_spec d 0).
  - unfold ParseDuration. destruct (Habs (- d) ltac:(lia)) as (G & N0 & N1).
    rewrite !bool_decide_eq_false_2, G by done. cbn. f_equal. lia.
  - destruct (Habs d ltac:(lia)) as (G & N0 & N1).
    destruct (abs_string_head d ltac:(lia)) as (c & r & E & Hc). unfold ParseDuration. rewrite E in *.
    assert ((match String c r with String "-" r => (true, r) | String "+" r => (false, r) | _ => (false, String c r) end)
             = (false, String c r)) as ->.
    { destruct c as [[] [] [] [] [] [] [] []]; try done. }
    rewrite !bool_decide_eq_false_2, G by done. cbn [mbind result_bind].
    destruct (Z.ltb_spec max_int64 d); [unfold max_int64 in *; lia|]. done.
Qed.

Lemma ParseDuration_range s d : ParseDuration s = Ok d → is_int64 d.
Proof.
  unfold ParseDuration, is_int64, min_int64, max_int64. intros H.
  destruct (match s with String "-" r => _ | _ => _ end) as [neg s'].
  destruct (s' ≟ "0"); [res_inv; lia|]. destruct (s' ≟ ""); [done|]. res_inv.
  assert (∀ n x t y, duration_groups n x t = Ok y → 0 <= x <= 2 ^ 63 → 0 <= y <= 2 ^ 63) as Hb.
  { clear. induction n as [|n IH]; intros x t y Hy Hx; [done|]. cbn [duration_groups] in Hy.
    destruct t as [|c t]; [by res_inv|]. res_inv. destruct a as [v r]. res_inv. bools.
    eapply IH; [done|]. pose proof (Z.mod_pos_bound (x + v) (2 ^ 64) ltac:(lia)). lia. }
  apply Hb in Ha; [|lia]. destruct neg; res_inv; bools; lia.
Qed.

#[export] Hint Resolve ParseDuration_range : ding.

(** * Calendar text of instants: Go's [time.RFC3339] and [time.RFC3339Nano] in UTC

    [json.Marshal] writes an instant as RFC 3339 text with the fraction's
    trailing zeros removed and refuses years outside 0..9999; reading the text
    back gives the same instant. *)

Record civil := { cv_year : Z; cv_month : Z; cv_day : Z }.

Definition month_days (leap : bool) : list Z := [31; if leap then 29 else 28; 31; 30; 31; 30; 31; 31; 30; 31; 30; 31].
Definition is_leap (y : Z) : bool := (y mod 4 =? 0) && (negb (y mod 100 =? 0) || (y mod 400 =? 0)).

(** The month and the day in it, from a day of the year counted from 0. *)
Fixpoint month_of (months : list Z) (m yday : Z) : Z * Z :=
  match months with
  | [] => (m, yday + 1)
  | n :: months => if yday <? n then (m, yday + 1) else month_of months (m + 1) (yday - n)
  end.

(** The date of a day counted from January 1, year 1. *)
Definition civil_of_days (days : Z) : civil :=
  let n400 := days / 146097 in
  let r := days mod 146097 in
  let n100 := Z.min 3 (r / 36524) in
  let r := r - n100 * 36524 in
  let n4 := r / 1461 in
  let r := r mod 1461 in
  let n1 := Z.min 3 (r / 365) in
  let y := 400 * n400 + 100 * n100 + 4 * n4 + n1 + 1 in
  let '(m, d) := month_of (month_days (is_leap y)) 1 (r - n1 * 365) in
  {| cv_year := y; cv_month := m; cv_day := d |}.

Definition day_nanos : Z := 24 * Hour.
Definition date_of (t : time) : civil := civil_of_days (t / day_nanos).
Definition Year (t : time) : Z := cv_year (date_of t).

Fixpoint pad_with (n : nat) (s : string) : string := match n with O => s | S n => "0" ++ pad_with n s end.
Definition pad (width : nat) (n : Z) : string := let s := format_nat n in pad_with (width - String.length s) s.

Definition seconds_text (t : time) : string :=
  let d := date_of t in
  let s := (t mod day_nanos) / Second in
  pad 4 (cv_year d) ++ "-" ++ pad 2 (cv_month d) ++ "-" ++ pad 2 (cv_day d) ++ "T" ++
  pad 2 (s / 3600) ++ ":" ++ pad 2 ((s / 60) mod 60) ++ ":" ++ pad 2 (s mod 60).

Fixpoint strip_trailing (fuel : nat) (n : Z) (width : nat) : Z * nat :=
  match fuel with
  | O => (n, width)
  | S fuel => if n mod 10 =? 0 then strip_trailing fuel (n / 10) (width - 1) else (n, width)
  end.

(** The fraction of the second, without its trailing zeros. *)
Definition fraction_text (t : time) : string :=
  let n := t mod Second in
  if n =? 0 then "" else let '(n, width) := strip_trailing 9 n 9 in "." ++ pad width n.

(** [t.Format(time.RFC3339)] and [t.Format(time.RFC3339Nano)] *)
Definition RFC3339 (t : time) : string := seconds_text t ++ "Z".
Definition RFC3339Nano (t : time) : string := seconds_text t ++ fraction_text t ++ "Z".

(** [Time.MarshalJSON]: the year has four digits. *)
Definition json_year (t : time) : bool := (0 <=? Year t) && (Year t <=? 9999).
Definition copy_time (t : time) : option time := if json_year t then Some t else None.

Example RFC3339_epoch : RFC3339Nano (from_unix_nano 1700000000120000000) = "2023-11-14T22:13:20.12Z".
Proof. reflexivity. Qed.
Example RFC3339_zero : RFC3339Nano zero_time = "0001-01-01T00:00:00Z".
Proof. reflexivity. Qed.
Example RFC3339_leap : RFC3339 (from_unix_nano 951782400000000000) = "2000-02-29T00:00:00Z".
Proof. reflexivity. Qed.

Lemma copy_time_id t u : copy_time t = Some u → u = t.
Proof. unfold copy_time. destruct (json_year t); naive_solver. Qed.
Lemma copy_time_idem t u : copy_time t = Some u → copy_time u = Some u.
Proof. intros H. by destruct (copy_time_id t u H). Qed.
