(* ===== verification/GoJson.v ===== *)
(** * Dynamic values and [encoding/json]

    [value] is Go's [any] as the program uses it: what [json.Unmarshal] and the
    YAML decoder produce.  [json.Number] is left out: only the structural check
    of [transform.ValidateJSON] decodes with [UseNumber], and it drops the
    values it reads. *)

From S2P Require Import Prelude GoText GoFloat.

Inductive value :=
| VNil
| VBool (b : bool)
| VInt (z : Z)
| VInt64 (z : Z)
| VFloat (f : float64)
| VString (s : string)
| VArray (l : list value)
| VObject (l : list (string * value)).

(** Object fields, a [map[string]any]. *)
Abbreviation fields := (gmap string value).

Section value_ind.
Variable P : value → Prop.
Hypothesis HNil : P VNil.
Hypothesis HBool : ∀ b, P (VBool b).
Hypothesis HInt : ∀ z, P (VInt z).
Hypothesis HInt64 : ∀ z, P (VInt64 z).
Hypothesis HFloat : ∀ f, P (VFloat f).
Hypothesis HString : ∀ s, P (VString s).
Hypothesis HArray : ∀ l, Forall P l → P (VArray l).
Hypothesis HObject : ∀ l, Forall (fun kv => P (snd kv)) l → P (VObject l).

(** Induction through the elements of arrays and objects. *)
Fixpoint value_ind' (v : value) : P v :=
  match v with
  | VNil => HNil
  | VBool b => HBool b
  | VInt z => HInt z
  | VInt64 z => HInt64 z
  | VFloat f => HFloat f
  | VString s => HString s
  | VArray l => HArray l ((fix go l : Forall P l :=
      match l with [] => Forall_nil_2 P | v :: l => Forall_cons_2 P v l (value_ind' v) (go l) end) l)
  | VObject l => HObject l ((fix go l : Forall (fun kv => P (snd kv)) l :=
      match l with
      | [] => Forall_nil_2 _
      | kv :: l => Forall_cons_2 (fun kv => P (snd kv)) kv l (value_ind' (snd kv)) (go l)
      end) l)
  end.
End value_ind.

Fixpoint value_eq_dec (v w : value) : {v = w} + {v ≠ w}.
Proof.
  decide equality; try apply decide; try apply _.
  - apply list_eq_dec. exact value_eq_dec.
  - apply list_eq_dec. intros [k v0] [k' w0].
    destruct (decide (k = k')) as [->|]; [|right; congruence].
    destruct (value_eq_dec v0 w0) as [->|]; [by left|right; congruence].
Defined.
#[global] Instance value_eq_decision : EqDecision value := value_eq_dec.

(** [reflect.TypeOf] up to the types a value can have; [None] is the nil type. *)
Inductive gotype := TBool | TInt | TInt64 | TFloat | TString | TArray | TObject.
#[global] Instance gotype_eq_dec : EqDecision gotype.
Proof. solve_decision. Defined.

Definition TypeOf (v : value) : option gotype :=
  match v with
  | VNil => None
  | VBool _ => Some TBool
  | VInt _ => Some TInt
  | VInt64 _ => Some TInt64
  | VFloat _ => Some TFloat
  | VString _ => Some TString
  | VArray _ => Some TArray
  | VObject _ => Some TObject
  end.

(** Lookup in an object, the last binding winning. *)
Fixpoint obj_get (k : string) (l : list (string * value)) : option value :=
  match l with
  | [] => None
  | (k', v) :: l => match obj_get k l with Some w => Some w | None => if k ≟ k' then Some v else None end
  end.

(** [reflect.DeepEqual]: floats compare with [==], so NaN differs from itself. *)
Fixpoint DeepEqual (v w : value) : bool :=
  match v, w with
  | VNil, VNil => true
  | VBool a, VBool b => Bool.eqb a b
  | VInt a, VInt b | VInt64 a, VInt64 b => a =? b
  | VFloat a, VFloat b => feq a b
  | VString a, VString b => a ≟ b
  | VArray l, VArray m =>
      (fix go l m := match l, m with
                     | [], [] => true
                     | a :: l, b :: m => DeepEqual a b && go l m
                     | _, _ => false
                     end) l m
  | VObject l, VObject m =>
      (Z.of_nat (length l) =? Z.of_nat (length m)) &&
      (fix go l := match l with
                   | [] => true
                   | (k, a) :: l => match obj_get k m with Some b => DeepEqual a b | None => false end && go l
                   end) l
  | _, _ => false
  end.

(** ** Encoding *)

Definition dquote : string := one (bz 34).
Definition backslash : string := one (bz 92).
Definition hex_digit (n : Z) : ascii := if n <? 10 then digit_char n else bz (87 + n).

(** Escapes of one ASCII byte, HTML characters included. *)
Definition escape_ascii (c : ascii) : string :=
  let z := zb c in
  if (z =? 34) || (z =? 92) then backslash ++ one c
  else if z =? 8 then backslash ++ "b"
  else if z =? 12 then backslash ++ "f"
  else if z =? 10 then backslash ++ "n"
  else if z =? 13 then backslash ++ "r"
  else if z =? 9 then backslash ++ "t"
  else if (z <? 32) || (z =? 60) || (z =? 62) || (z =? 38)
       then backslash ++ "u00" ++ one (hex_digit (z / 16)) ++ one (hex_digit (z mod 16))
       else one c.

Definition line_sep : string := b3 0xE2 0x80 0xA8.
Definition para_sep : string := b3 0xE2 0x80 0xA9.

Definition escape_piece (p : piece) : string :=
  match p with
  | Bad _ => backslash ++ "ufffd"
  | Rune (String c "") => escape_ascii c
  | Rune b => if b ≟ line_sep then backslash ++ "u2028"
              else if b ≟ para_sep then backslash ++ "u2029" else b
  end.

Definition quote (s : string) : string :=
  dquote ++ str_app_list (map escape_piece (decode s)) ++ dquote.

Fixpoint join (sep : string) (l : list string) : string :=
  match l with
  | [] => ""
  | [x] => x
  | x :: l => x ++ sep ++ join sep l
  end.

(** Members of a JSON object or struct, already encoded. *)
Definition member (k body : string) : string := quote k ++ ":" ++ body.
Definition object_text (ms : list string) : string := "{" ++ join "," ms ++ "}".
Definition array_text (ms : list string) : string := "[" ++ join "," ms ++ "]".

Definition bool_text (b : bool) : string := if b then "true" else "false".

(** [json.Marshal]; [None] is an unsupported value (NaN or an infinity).  The
    members of an object are written in key order. *)
Fixpoint Marshal (v : value) : option string :=
  match v with
  | VNil => Some "null"
  | VBool b => Some (bool_text b)
  | VInt z | VInt64 z => Some (Itoa z)
  | VFloat f => json_float f
  | VString s => Some (quote s)
  | VArray l => array_text <$> mapM Marshal l
  | VObject l => object_text <$> mapM (fun kv => member (fst kv) <$> Marshal (snd kv)) l
  end.

(** A map's entries sorted by key, as [json.Marshal] writes them. *)
Definition key_le {A : Type} (a b : string * A) : Prop := str_le (fst a) (fst b).
#[global] Instance key_le_dec {A : Type} : RelDecision (@key_le A).
Proof. intros a b. unfold key_le. apply str_le_dec. Defined.
Definition sorted_fields {A : Type} (m : gmap string A) : list (string * A) := merge_sort key_le (map_to_list m).
Definition MarshalFields (m : fields) : option string := Marshal (VObject (sorted_fields m)).

(** What [json.Unmarshal] reads back from [json.Marshal]: numbers become
    float64, ill-formed bytes become U+FFFD; [None] when encoding fails. *)
Fixpoint json_copy (v : value) : option value :=
  match v with
  | VNil => Some VNil
  | VBool b => Some (VBool b)
  | VInt z | VInt64 z => if is_finite (of_int z) then Some (VFloat (of_int z)) else None
  | VFloat f => if is_finite f then Some (VFloat f) else None
  | VString s => Some (VString (sanitize s))
  | VArray l => VArray <$> mapM json_copy l
  | VObject l => VObject <$> mapM (fun kv => pair (sanitize (fst kv)) <$> json_copy (snd kv)) l
  end.

(** A copy is a fixed point of copying. *)
Lemma json_copy_idem v w : json_copy v = Some w → json_copy w = Some w.
Proof.
  revert w. induction v as [| | | | | |l IH|l IH] using value_ind'; intros w H; cbn in H; simplify_eq/=; try done.
  - destruct (is_finite (of_int z)) eqn:E; simplify_eq/=. by rewrite E.
  - destruct (is_finite (of_int z)) eqn:E; simplify_eq/=. by rewrite E.
  - destruct (is_finite f) eqn:E; simplify_eq/=. by rewrite E.
  - by rewrite sanitize_idem.
  - destruct (mapM json_copy l) as [l'|] eqn:E; simplify_eq/=.
    apply mapM_Some_1 in E. change (VArray <$> mapM json_copy l' = Some (VArray l')).
    enough (mapM json_copy l' = Some l') as -> by done.
    apply mapM_Some_2. induction E as [|x y l l' Hxy E IHE]; [constructor|].
    apply list.Forall_cons in IH as [Hx Hl]. constructor; auto.
  - destruct (mapM _ l) as [l'|] eqn:E; simplify_eq/=. apply mapM_Some_1 in E.
    change (VObject <$> mapM (fun kv => pair (sanitize (fst kv)) <$> json_copy (snd kv)) l' = Some (VObject l')).
    enough (mapM (fun kv => pair (sanitize (fst kv)) <$> json_copy (snd kv)) l' = Some l') as -> by done.
    apply mapM_Some_2. induction E as [|x y l l' Hxy E IHE]; [constructor|].
    apply list.Forall_cons in IH as [Hx Hl]. constructor; [|auto].
    destruct (json_copy (snd x)) as [v|] eqn:Ev; [|done]. injection Hxy as <-. cbn [fst snd].
    rewrite (Hx v eq_refl), sanitize_idem. done.
Qed.

(** A later duplicate of a key replaces an earlier one. *)
Definition copy_fields (m : fields) : option fields :=
  (list_to_map ∘ reverse) <$> mapM (fun kv => pair (sanitize (fst kv)) <$> json_copy (snd kv)) (sorted_fields m).

(** ** Reading a JSON string back *)

Definition hex_val (c : ascii) : Z := if is_digit c then digit_val c else zb c - 87.

(** UTF-8 encoding of a code point below 0x10000. *)
Definition encode_bmp (n : Z) : string :=
  if n <? 0x80 then one (bz n)
  else if n <? 0x800 then b2 (0xC0 + n / 64) (0x80 + n mod 64)
  else b3 (0xE0 + n / 4096) (0x80 + (n / 64) mod 64) (0x80 + n mod 64).

Definition unescape_char (c : ascii) : string :=
  let z := zb c in
  if z =? 98 then one (bz 8) else if z =? 102 then one (bz 12) else if z =? 110 then one (bz 10)
  else if z =? 114 then one (bz 13) else if z =? 116 then one (bz 9) else one c.

(** The text after an opening quote: the string denoted and what follows the
    closing quote. *)
Fixpoint unquote (s : string) : option (string * string) :=
  match s with
  | "" => None
  | String c r =>
      if zb c =? 34 then Some ("", r)
      else if zb c =? 92 then
        match r with
        | "" => None
        | String e r =>
            if zb e =? 117 then
              match r with
              | String h1 (String h2 (String h3 (String h4 r))) =>
                  '(t, rest) ← unquote r;
                  Some (encode_bmp (((hex_val h1 * 16 + hex_val h2) * 16 + hex_val h3) * 16 + hex_val h4) ++ t, rest)
              | _ => None
              end
            else '(t, rest) ← unquote r; Some (unescape_char e ++ t, rest)
        end
      else '(t, rest) ← unquote r; Some (String c t, rest)
  end.

(** Bytes that are neither a quote nor a backslash stand for themselves. *)
Definition plain (c : ascii) : bool := negb (zb c =? 34) && negb (zb c =? 92).

Lemma unquote_plain b t u rest :
  str_forallb plain b = true → unquote t = Some (u, rest) → unquote (b ++ t) = Some (b ++ u, rest).
Proof.
  intros Hb Ht. induction b as [|c b IH]; cbn in *; [done|].
  apply andb_true_iff in Hb as [Hc Hb]. unfold plain in Hc. bools.
  destruct (Z.eqb_spec (zb c) 34); [done|]. destruct (Z.eqb_spec (zb c) 92); [done|].
  by rewrite IH.
Qed.

(** The three shapes of an ASCII escape, and what each stands for. *)
Definition escape_shape (c : ascii) : bool :=
  match escape_ascii c with
  | String a "" => plain a && (a ≟ c)
  | String b (String e "") => (zb b =? 92) && negb (zb e =? 117) && (unescape_char e ≟ one c)
  | String b (String e (String h1 (String h2 (String h3 (String h4 ""))))) =>
      (zb b =? 92) && (zb e =? 117) &&
      (encode_bmp (((hex_val h1 * 16 + hex_val h2) * 16 + hex_val h3) * 16 + hex_val h4) ≟ one c)
  | _ => false
  end.

Lemma escape_shape_ok c : zb c < 0x80 → escape_shape c = true.
Proof.
  intros Hc. destruct c as [[] [] [] [] [] [] [] []]; try (by vm_compute); vm_compute in Hc; discriminate.
Qed.

Lemma unquote_escape_ascii c t u rest :
  zb c < 0x80 → unquote t = Some (u, rest) → unquote (escape_ascii c ++ t) = Some (String c u, rest).
Proof.
  intros Hc%escape_shape_ok Ht. unfold escape_shape in Hc.
  repeat case_match; simplify_eq; bools; cbn [append unquote]; try done; subst.
  all: unfold plain in *; bools;
    repeat match goal with H : zb ?a = _ |- context [zb ?a =? _] => rewrite H; cbn [Z.eqb Pos.eqb] end;
    repeat match goal with |- context [?a =? ?b] => destruct (Z.eqb_spec a b); [done|] end;
    rewrite Ht; cbn [mbind option_bind];
    repeat match goal with H : _ = one _ |- _ => rewrite H end; done.
Qed.

Lemma wf_rune_plain b : wf_rune b → (∃ c, b = one c ∧ zb c < 0x80) ∨ (str_forallb plain b = true ∧ (2 <= String.length b)%nat).
Proof.
  intros (s & r & H). destruct s as [|c0 [|c1 [|c2 [|c3 s]]]]; cbn [decode1] in H; repeat case_match; simplify_eq;
    bools; eauto; right; split; cbn; try lia.
  all: unfold second3, second4, cont, in_range, plain in *; repeat case_match; bools;
    repeat match goal with |- context [?a =? ?b] => destruct (Z.eqb_spec a b); [exfalso; lia|] end; done.
Qed.

(** Reading back the escape of one piece gives its well-formed replacement. *)
Lemma unquote_escape_piece p t u rest :
  (match p with Rune b => wf_rune b | Bad _ => True end) →
  unquote t = Some (u, rest) → unquote (escape_piece p ++ t) = Some (sanitize_piece p ++ u, rest).
Proof.
  intros Hp Ht. destruct p as [b|c]; cbn [escape_piece sanitize_piece].
  - destruct (wf_rune_plain b Hp) as [(c & -> & Hc)|[Hb Hl]].
    + by apply unquote_escape_ascii.
    + destruct b as [|c0 [|c1 b]]; cbn in Hl; try lia.
      repeat case_bool_decide.
      * rewrite H. change (backslash ++ "u2028") with (String (bz 92) "u2028"). cbn. by rewrite Ht.
      * rewrite H0. cbn. by rewrite Ht.
      * by apply unquote_plain.
  - cbn. by rewrite Ht.
Qed.

Lemma unquote_body l rest :
  Forall (fun p => match p with Rune b => wf_rune b | Bad _ => True end) l →
  unquote (str_app_list (map escape_piece l) ++ dquote ++ rest) = Some (str_app_list (map sanitize_piece l), rest).
Proof.
  induction l as [|p l IH]; intros H; [done|]. apply Forall_cons_iff in H as [Hp Hl].
  cbn [map str_app_list]. rewrite <- str_app_assoc. apply unquote_escape_piece; auto.
Qed.

(** A quoted string followed by anything is read back as its well-formed text. *)
Lemma unquote_quote s rest : unquote (str_drop 1 (quote s ++ rest)) = Some (sanitize s, rest).
Proof.
  unfold quote. cbn. rewrite <- str_app_assoc. apply unquote_body, decode_runes_wf.
Qed.

Lemma quote_inj s t r r' : quote s ++ r = quote t ++ r' → sanitize s = sanitize t ∧ r = r'.
Proof.
  intros H. pose proof (unquote_quote s r) as H1. rewrite H, unquote_quote in H1. by simplify_eq.
Qed.

(** * [json.Unmarshal] into [any], and [fmt.Sprint] of a float64

    A recursive-descent reader with the rules of [encoding/json]: the grammar of
    RFC 8259 and nothing after the value, at most 10000 open arrays and objects,
    ill-formed bytes and lone surrogates read as U+FFFD, a number outside the
    range of float64 is an error, and a later member replaces an earlier one of
    the same name. *)

Definition json_space (c : ascii) : bool := existsb (fun z => zb c =? z) [9; 10; 13; 32].
Definition skip_space (s : string) : string := snd (span json_space s).

(** ** Numbers *)

(** An exponent's digits; [strconv] stops accumulating at 10000. *)
Fixpoint exponent_val (e : Z) (s : string) : Z :=
  match s with
  | "" => e
  | String c s => exponent_val (if e <? 10000 then e * 10 + digit_val c else e) s
  end.

Definition digits1 (s : string) : option (string * string) :=
  let '(d, r) := span is_digit s in if d ≟ "" then None else Some (d, r).

Definition scan_frac (s : string) : option (string * string) :=
  match s with
  | String "." r => digits1 r
  | _ => Some ("", s)
  end.

Definition scan_exp (s : string) : option (Z * string) :=
  match s with
  | String c r =>
      if (c ≟ "e"%char) || (c ≟ "E"%char) then
        let '(neg, r) := match r with String "+" r => (false, r) | String "-" r => (true, r) | _ => (false, r) end in
        '(d, r) ← digits1 r; Some (if neg : bool then - exponent_val 0 d else exponent_val 0 d, r)
      else Some (0, s)
  | "" => Some (0, s)
  end.

(** A number and what follows it; its float64 is [None] when out of range.
    After a leading zero the number ends. *)
Definition scan_number_text (s : string) : option (option float64 * string) :=
  let '(neg, s) := match s with String "-" r => (true, r) | _ => (false, s) end in
  '(int, s) ← digits1 s;
  let '(int, s) := if HasPrefix int "0" then ("0", str_drop 1 int ++ s) else (int, s) in
  '(frac, s) ← scan_frac s;
  '(e, s) ← scan_exp s;
  let '(a, b) := scale10 (digits_val 0 (int ++ frac)) 1 (e - len frac) in
  let x := float_of_ratio neg a b in
  Some (if IsInf x then None else Some x, s).
Definition scan_number (s : string) : option (float64 * string) :=
  '(x, r) ← scan_number_text s; x ← x; Some (x, r).

(** ** Strings *)

Definition hex_digit_val (c : ascii) : option Z :=
  if in_range 48 57 c then Some (zb c - 48)
  else if in_range 97 102 c then Some (zb c - 87)
  else if in_range 65 70 c then Some (zb c - 55) else None.

Definition hex4 (s : string) : option (Z * string) :=
  match s with
  | String a (String b (String c (String d r))) =>
      a ← hex_digit_val a; b ← hex_digit_val b; c ← hex_digit_val c; d ← hex_digit_val d;
      Some (((a * 16 + b) * 16 + c) * 16 + d, r)
  | _ => None
  end.

Definition encode_rune (n : Z) : string :=
  if n <? 0x10000 then encode_bmp n
  else str_app_list (map (fun z => one (bz z)) [0xF0 + n / 262144; 0x80 + (n / 4096) mod 64; 0x80 + (n / 64) mod 64; 0x80 + n mod 64]).

(** A [\u] escape: a surrogate pair is one rune, a lone surrogate U+FFFD. *)
Definition scan_u (s : string) : option (string * string) :=
  '(n, r) ← hex4 s;
  if (n <? 0xD800) || (0xDFFF <? n) then Some (encode_rune n, r)
  else if n <? 0xDC00 then
    match r with
    | String "\" (String "u" r2) =>
        '(lo, r3) ← hex4 r2;
        if (0xDC00 <=? lo) && (lo <=? 0xDFFF)
        then Some (encode_rune ((n - 0xD800) * 1024 + (lo - 0xDC00) + 0x10000), r3)
        else Some (replacement, r)
    | _ => Some (replacement, r)
    end
  else Some (replacement, r).

Definition scan_escape (s : string) : option (string * string) :=
  match s with
  | String "u" r => scan_u r
  | String c r => if str_existsb (fun d => d ≟ c) (String (bz 34) "\/bfnrt") then Some (unescape_char c, r) else None
  | "" => None
  end.

(** The text after an opening quote; every step consumes a byte. *)
Fixpoint scan_string (fuel : nat) (s : string) : option (string * string) :=
  match fuel with
  | O => None
  | S fuel =>
      match s with
      | "" => None
      | String c r =>
          if zb c =? 34 then Some ("", r)
          else if zb c =? 92 then
            '(t, r) ← scan_escape r; '(u, r) ← scan_string fuel r; Some (t ++ u, r)
          else if zb c <? 32 then None
          else match decode1 s with
               | Some (p, r) => '(u, r) ← scan_string fuel r; Some (sanitize_piece p ++ u, r)
               | None => None
               end
      end
  end.
Definition read_string (s : string) : option (string * string) := scan_string (S (String.length s)) s.

(** ** Values *)

Definition maxNestingDepth : Z := 10000.

(** A map holds one value per key, the last one read. *)
Definition object_of (l : list (string * value)) : value := VObject (sorted_fields (list_to_map (reverse l))).

(** [open] counts the arrays and objects around the value. *)
Fixpoint scan_value (fuel : nat) (open : Z) (s : string) : option (value * string) :=
  match fuel with
  | O => None
  | S fuel =>
      match skip_space s with
      | "" => None
      | String c r =>
          if zb c =? 34 then '(t, r) ← read_string r; Some (VString t, r)
          else if c ≟ "{"%char then
            if maxNestingDepth <? open + 1 then None else
            match skip_space r with
            | String "}" r => Some (VObject [], r)
            | r => '(l, r) ← scan_members fuel (open + 1) r; Some (object_of l, r)
            end
          else if c ≟ "["%char then
            if maxNestingDepth <? open + 1 then None else
            match skip_space r with
            | String "]" r => Some (VArray [], r)
            | r => '(l, r) ← scan_elements fuel (open + 1) r; Some (VArray l, r)
            end
          else match first_prefix ["true"] (String c r) with Some r => Some (VBool true, r) | None =>
          match first_prefix ["false"] (String c r) with Some r => Some (VBool false, r) | None =>
          match first_prefix ["null"] (String c r) with Some r => Some (VNil, r) | None =>
          '(x, r) ← scan_number (String c r); Some (VFloat x, r)
          end end end
      end
  end
with scan_elements (fuel : nat) (open : Z) (s : string) : option (list value * string) :=
  match fuel with
  | O => None
  | S fuel =>
      '(v, r) ← scan_value fuel open s;
      match skip_space r with
      | String "," r => '(l, r) ← scan_elements fuel open r; Some (v :: l, r)
      | String "]" r => Some ([v], r)
      | _ => None
      end
  end
with scan_members (fuel : nat) (open : Z) (s : string) : option (list (string * value) * string) :=
  match fuel with
  | O => None
  | S fuel =>
      match skip_space s with
      | String q r =>
          if negb (zb q =? 34) then None else
          '(k, r) ← read_string r;
          match skip_space r with
          | String ":" r =>
              '(v, r) ← scan_value fuel open r;
              match skip_space r with
              | String "," r => '(l, r) ← scan_members fuel open r; Some ((k, v) :: l, r)
              | String "}" r => Some ([(k, v)], r)
              | _ => None
              end
          | _ => None
          end
      | "" => None
      end
  end.

(** Each call is followed by the consumption of a byte before its next one, so
    twice the length is enough fuel. *)
Definition Unmarshal (s : string) : option value :=
  '(v, r) ← scan_value (S (2 * String.length s)) 0 s;
  if skip_space r ≟ "" then Some v else None.

(** ** [fmt.Sprint] of a float64: [%g] with the shortest digits *)

(** [strconv]'s exponents have at least two digits. *)
Definition layout_g (digits : string) (j : Z) : string :=
  let x := len digits + j - 1 in
  if (x <? -4) || (6 <=? x) then
    (match digits with String c "" => one c | String c r => String c ("." ++ r) | "" => "" end) ++ "e" ++
    (if x <? 0 then "-" else "+") ++ (if Z.abs x <? 10 then "0" else "") ++ format_nat (Z.abs x)
  else layout_f digits j.

Definition Sprint (x : float64) : string :=
  match x with
  | S754_nan => "NaN"
  | S754_infinity s => if s then "-Inf" else "+Inf"
  | S754_zero s => if s then "-0" else "0"
  | S754_finite s m e =>
      let '(d, j) := shortest_digits m e in (if s then "-" else "") ++ layout_g (format_nat d) j
  end.

(** ** Examples *)

Definition dq (s : string) : string := str_app_list (map (fun c => if c ≟ "'"%char then dquote else one c) (String.list_ascii_of_string s)).

Example Unmarshal_object :
  Unmarshal (dq " { 'a' : [1, -2.5e1, true, null], 'b':'x\u00e9\n' , 'a': 3e2 } ") =
  Some (VObject [("a", VFloat (of_int 300)); ("b", VString ("xé" ++ one (bz 10)))]).
Proof. vm_compute. reflexivity. Qed.

Example Unmarshal_refused :
  map Unmarshal [""; "{"; "[1,]"; "01"; "1 2"; "1e999"; "-"; dq "{'a'}"; dq "'\x'"; "nul"] = repeat None 10.
Proof. vm_compute. reflexivity. Qed.

Example Unmarshal_surrogates :
  Unmarshal (dq "['\ud83d\ude00','\ud83d!','\ude00']") =
  Some (VArray [VString "😀"; VString (replacement ++ "!"); VString replacement]).
Proof. vm_compute. reflexivity. Qed.

Example Sprint_values :
  map Sprint [of_int 30; of_int 1000000; of_int 100000; float_of_ratio true 1 10; float_of_ratio false 1 100000] =
  ["30"; "1e+06"; "100000"; "-0.1"; "1e-05"].
Proof. vm_compute. reflexivity. Qed.
