(* ===== verification/GoRegexp.v ===== *)
(** * Package [regexp]: the expressions the program compiles at start-up

    Regular expressions over runes with Go's leftmost-first (Perl) preference:
    an alternation tries its branches in order, a repetition is greedy, and the
    first complete match found by backtracking is the one reported.  [mt] is
    that search; [walks] says which matches there are, without an order, and the
    two agree on whether there is one ([mt_sound], [mt_complete]). *)
From S2P Require Import Prelude GoText.
#[local] Open Scope list_scope.

(** A rune is its UTF-8 encoding. *)
Abbreviation rune := string.
Definition runes (s : string) : list rune := map piece_bytes (decode s).
Definition text_of (l : list rune) : string := str_app_list l.

(** ** Expressions *)

Inductive re :=
| Eps
| Cls (f : rune → bool)
| AtEnd
| Cat (a b : re)
| Alt (a b : re)
| Star (a : re)
| Group (a : re).

Definition Opt (a : re) : re := Alt a Eps.
Definition Plus (a : re) : re := Cat a (Star a).
Definition cats (l : list re) : re := foldr Cat Eps l.
Fixpoint alts (a : re) (l : list re) : re := match l with [] => a | b :: l => Alt a (alts b l) end.
Definition Rep (n : nat) (a : re) : re := cats (repeat a n).

(** Classes of ASCII runes. *)
Definition byte_class (f : ascii → bool) (r : rune) : bool :=
  match r with String c "" => f c | _ => false end.
Definition between (lo hi : Z) : rune → bool := byte_class (in_range lo hi).
Definition is_char (c : ascii) : rune → bool := byte_class (fun d => d ≟ c).
Definition any_of (l : string) : rune → bool := byte_class (fun d => str_existsb (fun c => d ≟ c) l).
Definition either (f g : rune → bool) (r : rune) : bool := f r || g r.
Definition none_of (f : rune → bool) (r : rune) : bool := negb (f r).
Definition fold_case (c : ascii) : ascii := if in_range 65 90 c then bz (zb c + 32) else c.
Definition is_letter (c : ascii) : rune → bool := byte_class (fun d => fold_case d ≟ fold_case c).

(** A literal, and a literal under [(?i)].  (Folding reaches past ASCII only for
    the letters k and s.) *)
Fixpoint lit (s : string) : re := match s with "" => Eps | String c s => Cat (Cls (is_char c)) (lit s) end.
Fixpoint ilit (s : string) : re := match s with "" => Eps | String c s => Cat (Cls (is_letter c)) (ilit s) end.

(** [\d], [\s], [.], and [\w] under [(?i)], which takes in U+017F and U+212A. *)
Definition digit_class : rune → bool := between 48 57.
Definition space_class : rune → bool := byte_class (fun c => existsb (fun z => zb c =? z) [9; 10; 12; 13; 32]).
Definition dot_class : rune → bool := none_of (byte_class (fun c => zb c =? 10)).
Definition word_class (r : rune) : bool :=
  between 48 57 r || between 65 90 r || between 97 122 r || is_char "_" r || (r ≟ b2 0xC5 0xBF) || (r ≟ b3 0xE2 0x84 0xAA).

#[global] Arguments byte_class : simpl never.
#[global] Arguments between : simpl never.
#[global] Arguments is_char : simpl never.
#[global] Arguments any_of : simpl never.
#[global] Arguments either : simpl never.
#[global] Arguments none_of : simpl never.
#[global] Arguments is_letter : simpl never.
#[global] Arguments word_class : simpl never.

(** ** Matching *)

(** What the parentheses captured. *)
Abbreviation capture := (option (list rune)).

Definition shorter (s' s : list rune) : bool := bool_decide (length s' < length s)%nat.
#[global] Arguments shorter : simpl never.

Section Match.
Context {R : Type}.
Abbreviation cont_ := (list rune → capture → option R).

(** Iterations of a repetition: as many as possible first, each consuming
    something; the length of the rest is enough fuel. *)
Fixpoint star (m : list rune → capture → cont_ → option R) (fuel : nat) (s : list rune) (c : capture) (k : cont_) : option R :=
  match fuel with
  | O => k s c
  | S fuel =>
      match m s c (fun s' c' => if shorter s' s then star m fuel s' c' k else None) with
      | Some x => Some x
      | None => k s c
      end
  end.

Fixpoint mt (r : re) (s : list rune) (c : capture) (k : cont_) : option R :=
  match r with
  | Eps => k s c
  | Cls f => match s with x :: s => if f x then k s c else None | [] => None end
  | AtEnd => match s with [] => k s c | _ => None end
  | Cat a b => mt a s c (fun s' c' => mt b s' c' k)
  | Alt a b => match mt a s c k with Some x => Some x | None => mt b s c k end
  | Star a => star (mt a) (length s) s c k
  | Group a => mt a s c (fun s' _ => k s' (Some (take (length s - length s') s)))
  end.
End Match.

(** [FindSubmatch] of an expression that starts with [^]: what follows the match
    and the captured text. *)
Definition match_prefix (r : re) (s : list rune) : option (list rune * capture) := mt r s None (fun s' c => Some (s', c)).

(** [ReplaceAll(_, nil)] for an expression that matches no empty text. *)
Fixpoint remove_all (r : re) (fuel : nat) (s : list rune) : list rune :=
  match fuel with
  | O => []
  | S fuel =>
      match s with
      | [] => []
      | x :: t =>
          match match_prefix r s with
          | Some (s', _) => remove_all r fuel s'
          | None => x :: remove_all r fuel t
          end
      end
  end.
Definition ReplaceAllEmpty (r : re) (s : list rune) : list rune := remove_all r (length s) s.

(** ** The matches there are *)

Inductive walks : re → list rune → list rune → capture → capture → Prop :=
| walks_eps s c : walks Eps s s c c
| walks_cls (f : rune → bool) x s c : f x = true → walks (Cls f) (x :: s) s c c
| walks_end c : walks AtEnd [] [] c c
| walks_cat a b s1 s2 s3 c1 c2 c3 : walks a s1 s2 c1 c2 → walks b s2 s3 c2 c3 → walks (Cat a b) s1 s3 c1 c3
| walks_alt_l a b s s' c c' : walks a s s' c c' → walks (Alt a b) s s' c c'
| walks_alt_r a b s s' c c' : walks b s s' c c' → walks (Alt a b) s s' c c'
| walks_star_nil a s c : walks (Star a) s s c c
| walks_star_cons a s1 s2 s3 c1 c2 c3 :
    walks a s1 s2 c1 c2 → walks (Star a) s2 s3 c2 c3 → walks (Star a) s1 s3 c1 c3
| walks_group a s s' c c' : walks a s s' c c' → walks (Group a) s s' c (Some (take (length s - length s') s)).
#[export] Hint Constructors walks : regexp.

(** What is left of the text is a suffix of it. *)
Lemma walks_suffix r s s' c c' : walks r s s' c c' → ∃ l, s = l ++ s'.
Proof.
  induction 1; try (by exists []); try (eauto; fail).
  - by exists [x].
  - destruct IHwalks1 as [l1 ->], IHwalks2 as [l2 ->]. exists (l1 ++ l2). by rewrite (assoc_L (++)).
  - destruct IHwalks1 as [l1 ->], IHwalks2 as [l2 ->]. exists (l1 ++ l2). by rewrite (assoc_L (++)).
Qed.

Lemma walks_length r s s' c c' : walks r s s' c c' → (length s' <= length s)%nat.
Proof. intros [l ->]%walks_suffix. rewrite length_app. lia. Qed.

(** A match found is a match there is. *)
Definition sound {R : Type} (r : re) (m : list rune → capture → (list rune → capture → option R) → option R) : Prop :=
  ∀ s c k x, m s c k = Some x → ∃ s' c', walks r s s' c c' ∧ k s' c' = Some x.

Lemma star_sound {R : Type} a (m : list rune → capture → (list rune → capture → option R) → option R) n :
  sound a m → sound (Star a) (star m n).
Proof.
  intros Hm. induction n as [|n IH]; intros s c k x H; cbn in H; [eauto with regexp|].
  destruct (m s c _) eqn:E; simplify_eq; [|eauto with regexp].
  apply Hm in E as (s1 & c1 & Ha & E). destruct (shorter s1 s); [|done].
  apply IH in E as (s2 & c2 & Hs & E). eauto with regexp.
Qed.

(** A match found is a match there is. *)
Lemma mt_sound {R : Type} r : sound (R := R) r (mt r).
Proof.
  induction r as [|f| |a IHa b IHb|a IHa b IHb|a IHa|a IHa]; intros s c k x H; cbn in H.
  - eauto with regexp.
  - destruct s as [|y s]; [done|]. destruct (f y) eqn:E; [|done]. eauto with regexp.
  - destruct s; [|done]. eauto with regexp.
  - apply IHa in H as (s1 & c1 & Ha & H). apply IHb in H as (s2 & c2 & Hb & H). eauto with regexp.
  - destruct (mt a s c k) eqn:E; simplify_eq; [apply IHa in E|apply IHb in H]; naive_solver eauto with regexp.
  - by apply (star_sound a (mt a) (length s)).
  - apply IHa in H as (s1 & c1 & Ha & H). eauto with regexp.
Qed.

(** The search finds a match whenever there is one that the rest of the
    expression accepts, whatever was captured. *)
Definition complete {R : Type} (r : re) (m : list rune → capture → (list rune → capture → option R) → option R) : Prop :=
  ∀ s s' d d' c k, walks r s s' d d' → (∀ c', is_Some (k s' c')) → is_Some (m s c k).

Lemma star_walk_shrinks a s s' c c' :
  walks (Star a) s s' c c' → s = s' ∨ ∃ s1 d d1 d', walks a s s1 d d1 ∧ (length s1 < length s)%nat ∧ walks (Star a) s1 s' d1 d'.
Proof.
  remember (Star a) as r eqn:Er. induction 1; simplify_eq; [by left|].
  destruct (IHwalks2 eq_refl) as [->|(s4 & d & d1 & d' & H1 & H2 & H3)].
  all: pose proof (walks_length _ _ _ _ _ H) as Hl.
  all: destruct (walks_suffix _ _ _ _ _ H) as [[|x l] El]; cbn in El; subst.
  - by left.
  - right. exists s3, c1, c2, c2. repeat split; eauto with regexp. cbn. rewrite length_app. lia.
  - right. eauto 10.
  - right. exists s2, c1, c2, c3. repeat split; eauto with regexp. cbn. rewrite ?length_app; lia.
Qed.

Lemma star_complete {R : Type} a (m : list rune → capture → (list rune → capture → option R) → option R) n :
  complete a m → ∀ s s' d d' c k, (length s <= n)%nat → walks (Star a) s s' d d' → (∀ c', is_Some (k s' c')) → is_Some (star m n s c k).
Proof.
  intros Hm. induction n as [|n IH]; intros s s' d d' c k Hn Hw Hk; cbn.
  - destruct s; cbn in Hn; [|lia]. apply walks_suffix in Hw as [[|] Hw]; [|done]. cbn in Hw; subst. auto.
  - destruct (m s c _) eqn:E; [eauto|].
    apply star_walk_shrinks in Hw as [->|(s1 & e & e1 & e' & H1 & H2 & H3)]; [auto|].
    exfalso. destruct (Hm s s1 e e1 c (fun s' c' => if shorter s' s then star m n s' c' k else None) H1) as [y Hy]; [|congruence].
    intros c1. unfold shorter. rewrite bool_decide_true by done. eapply IH; eauto; lia.
Qed.

Lemma mt_complete {R : Type} r : complete (R := R) r (mt r).
Proof.
  induction r as [|f| |a IHa b IHb|a IHa b IHb|a IHa|a IHa]; intros s s' d d' c k Hw Hk; cbn.
  - inversion Hw; subst. auto.
  - inversion Hw; subst. match goal with H : f _ = true |- _ => rewrite H end. auto.
  - inversion Hw; subst. auto.
  - inversion Hw; subst. eapply IHa; eauto.
  - destruct (mt a s c k) eqn:E; [eauto|]. inversion Hw; subst.
    + edestruct (IHa s s' d d' c k); [done..|]. congruence.
    + eauto.
  - eapply star_complete; eauto.
  - inversion Hw; subst. eapply IHa; eauto.
Qed.

(** A prefix of the text matches exactly when the search succeeds. *)
Lemma match_prefix_iff r s : is_Some (match_prefix r s) ↔ ∃ s' c', walks r s s' None c'.
Proof.
  split.
  - intros [[s' c'] H]. apply mt_sound in H as (s1 & c1 & H & E). eauto.
  - intros (s' & c' & H). eapply mt_complete; eauto.
Qed.

(** When every match there is captures the same text, that text is what the
    search captures. *)
Lemma match_prefix_capture r s s' c' :
  walks r s s' None c' → (∀ t e, walks r s t None e → e = c') → snd <$> match_prefix r s = Some c'.
Proof.
  intros H Hu. destruct (proj2 (match_prefix_iff r s)) as [[t e] E]; [eauto|]. rewrite E. cbn. f_equal.
  apply mt_sound in E as (s1 & c1 & E & Ek). injection Ek as -> ->. eauto.
Qed.

(** ** Expressions with one way to match

    [det Q a step]: when the rest of the expression cannot start where [Q]
    holds, [a] matches in one way only and [step] computes it. *)

Definition det (Q : list rune → bool) (a : re) (step : list rune → option (list rune)) : Prop :=
  ∀ (R : Type) s c (k : list rune → capture → option R),
    (∀ t d, Q t = true → k t d = None) → mt a s c k = match step s with Some s' => k s' c | None => None end.

Definition nowhere (s : list rune) : bool := false.
Definition starts (f : rune → bool) (s : list rune) : bool := match s with x :: _ => f x | [] => false end.
Definition step1 (f : rune → bool) (s : list rune) : option (list rune) := match s with x :: s => if f x then Some s else None | [] => None end.
Fixpoint skip (f : rune → bool) (s : list rune) : list rune := match s with x :: t => if f x then skip f t else s | [] => [] end.
Definition skip1 (f : rune → bool) (s : list rune) : list rune := match s with x :: t => if f x then t else s | [] => [] end.
Definition step_plus (f : rune → bool) (s : list rune) : option (list rune) := skip f <$> step1 f s.

(** The runes [skip] passes over. *)
Fixpoint taken (f : rune → bool) (s : list rune) : list rune := match s with x :: t => if f x then x :: taken f t else [] | [] => [] end.

Lemma taken_skip f s : taken f s ++ skip f s = s.
Proof. induction s as [|x s IH]; cbn; [done|]. destruct (f x); cbn; congruence. Qed.
Lemma skip_starts f s : starts f (skip f s) = false.
Proof. induction s as [|x s IH]; cbn; [done|]. by destruct (f x) eqn:E; cbn. Qed.
Lemma skip_length f s : (length (skip f s) <= length s)%nat.
Proof. induction s as [|x s IH]; cbn; [done|]. destruct (f x); cbn; lia. Qed.
Lemma taken_all f s : Forall (fun x => f x = true) (taken f s).
Proof. induction s as [|x s IH]; cbn; [done|]. destruct (f x) eqn:E; by constructor. Qed.

(** The continuation matters only pointwise. *)
Lemma star_ext {R : Type} m n s c (k k' : list rune → capture → option R) :
  (∀ s c k k', (∀ t d, k t d = k' t d) → m s c k = m s c k') → (∀ t d, k t d = k' t d) → star m n s c k = star m n s c k'.
Proof.
  intros Hm Hk. revert s c. induction n as [|n IH]; intros s c; cbn; [auto|].
  rewrite (Hm s c _ (fun s' c' => if shorter s' s then star m n s' c' k' else None)), Hk; [done|].
  intros t d. by destruct (shorter t s).
Qed.

Lemma mt_ext {R : Type} r s c (k k' : list rune → capture → option R) :
  (∀ t d, k t d = k' t d) → mt r s c k = mt r s c k'.
Proof.
  revert s c k k'. induction r as [|f| |a IHa b IHb|a IHa b IHb|a IHa|a IHa]; intros s c k k' Hk; cbn.
  - auto.
  - destruct s as [|x s]; [done|]. destruct (f x); auto.
  - destruct s; auto.
  - apply IHa. auto.
  - by rewrite (IHa s c k k'), (IHb s c k k').
  - by apply star_ext.
  - apply IHa. auto.
Qed.

Lemma det_weaken (Q Q' : list rune → bool) a step : (∀ s, Q s = true → Q' s = true) → det Q a step → det Q' a step.
Proof. intros HQ H R s c k Hk. apply H. auto. Qed.

Lemma det_step (Q : list rune → bool) a step step' : (∀ s, step s = step' s) → det Q a step → det Q a step'.
Proof. intros Hs H R s c k Hk. rewrite <- Hs. auto. Qed.

Lemma det_eps : det nowhere Eps Some.
Proof. by intros R s c k Hk. Qed.

Lemma det_cls f : det nowhere (Cls f) (step1 f).
Proof. intros R [|x s] c k Hk; cbn; [done|]. by destruct (f x). Qed.

Lemma det_cat Q Q' a b sa sb :
  det Q a sa → det Q' b sb → (∀ s s', Q s = true → sb s = Some s' → Q' s' = true) → det Q' (Cat a b) (fun s => sa s ≫= sb).
Proof.
  intros Ha Hb HQ R s c k Hk. cbn. rewrite Ha.
  - destruct (sa s) as [s'|]; cbn; [|done]. by apply Hb.
  - intros t d Ht. rewrite Hb by done. destruct (sb t) eqn:E; [|done]. eapply Hk, HQ; eauto.
Qed.

Lemma det_alt Q Q' a b sa sb :
  det Q a sa → det Q' b sb → (∀ s, is_Some (sa s) → sb s = None) →
  det (fun s => Q s || Q' s) (Alt a b) (fun s => match sa s with Some s' => Some s' | None => sb s end).
Proof.
  intros Ha Hb Hx R s c k Hk. cbn. rewrite Ha, Hb.
  - destruct (sa s) eqn:E; [|done]. rewrite Hx by eauto. by destruct (k l c).
  - intros t d Ht. apply Hk. by rewrite Ht, orb_true_r.
  - intros t d Ht. apply Hk. by rewrite Ht.
Qed.

(** A repetition whose body and continuation never both apply. *)
Fixpoint iterate (step : list rune → option (list rune)) (fuel : nat) (s : list rune) : list rune :=
  match fuel with
  | O => s
  | S fuel => match step s with Some s' => iterate step fuel s' | None => s end
  end.

Definition shrinks (step : list rune → option (list rune)) : Prop := ∀ s s', step s = Some s' → (length s' < length s)%nat.

Lemma det_star a step :
  det nowhere a step → shrinks step → det (fun s => if step s then true else false) (Star a) (fun s => Some (iterate step (length s) s)).
Proof.
  intros Ha Hs R s c k Hk. cbn [mt].
  generalize (le_n (length s)). generalize (length s) at 2 3 4 as n. intros n. revert s c.
  induction n as [|n IH]; intros s c Hn; cbn; [done|].
  rewrite Ha by done. destruct (step s) as [s'|] eqn:E; [|done].
  pose proof (Hs _ _ E). unfold shorter. rewrite bool_decide_true by done. rewrite IH by lia.
  destruct (k (iterate _ _ _) c); [done|]. apply Hk. by rewrite E.
Qed.

Lemma iterate_skip f n s : (length s <= n)%nat → iterate (step1 f) n s = skip f s.
Proof.
  revert s. induction n as [|n IH]; intros [|x s] Hn; cbn in *; try done; try lia.
  destruct (f x); [|done]. apply IH. lia.
Qed.

Lemma step1_shrinks f : shrinks (step1 f).
Proof. intros [|x s] s'; cbn; [done|]. destruct (f x); [|done]. intros [= ->]. cbn. lia. Qed.

Lemma det_skip f : det (starts f) (Star (Cls f)) (fun s => Some (skip f s)).
Proof.
  eapply (det_step _ _ (fun s => Some (iterate (step1 f) (length s) s))).
  - intros s. by rewrite iterate_skip.
  - eapply det_weaken; [|apply det_star; [apply det_cls|apply step1_shrinks]].
    intros [|x s]; cbn; [done|]. by destruct (f x).
Qed.

Lemma det_plus f : det (starts f) (Plus (Cls f)) (step_plus f).
Proof.
  eapply (det_step _ _ (fun s => step1 f s ≫= fun s => Some (skip f s))).
  - intros s. unfold step_plus. by destruct (step1 f s).
  - by apply (det_cat nowhere); [apply det_cls|apply det_skip|].
Qed.

Lemma det_opt f : det (starts f) (Opt (Cls f)) (fun s => Some (skip1 f s)).
Proof.
  intros R [|x s] c k Hk; cbn; [done|]. destruct (f x) eqn:E; [|done].
  destruct (k s c); [done|]. by apply Hk.
Qed.

(** One step of the search. *)
Lemma mt_alt {R : Type} a b s c (k : list rune → capture → option R) :
  mt (Alt a b) s c k = match mt a s c k with Some x => Some x | None => mt b s c k end.
Proof. done. Qed.
Lemma mt_cat {R : Type} a b s c (k : list rune → capture → option R) : mt (Cat a b) s c k = mt a s c (fun s' c' => mt b s' c' k).
Proof. done. Qed.
Lemma mt_group {R : Type} a s c (k : list rune → capture → option R) :
  mt (Group a) s c k = mt a s c (fun s' _ => k s' (Some (take (length s - length s') s))).
Proof. done. Qed.
Lemma mt_eps {R : Type} s c (k : list rune → capture → option R) : mt Eps s c k = k s c.
Proof. done. Qed.
