(* ===== verification/Sha256.v ===== *)
(** * SHA-256 (FIPS 180-4), as [crypto/sha256.Sum256] computes it

    Revisions, fingerprints and event identities are hexadecimal SHA-256
    digests of JSON text; the function is written out so that identities are
    computed, not assumed. *)
From S2P Require Import Prelude GoText GoJson.

Definition mask32 (x : Z) : Z := Z.land x (Z.ones 32).
Definition add32 (x y : Z) : Z := mask32 (x + y).
Definition rotr (n x : Z) : Z := mask32 (Z.lor (Z.shiftr x n) (Z.shiftl x (32 - n))).
Definition Ch (x y z : Z) : Z := Z.lxor (Z.land x y) (Z.land (Z.ones 32 - x) z).
Definition Maj (x y z : Z) : Z := Z.lxor (Z.land x y) (Z.lxor (Z.land x z) (Z.land y z)).
Definition bsig0 (x : Z) : Z := Z.lxor (rotr 2 x) (Z.lxor (rotr 13 x) (rotr 22 x)).
Definition bsig1 (x : Z) : Z := Z.lxor (rotr 6 x) (Z.lxor (rotr 11 x) (rotr 25 x)).
Definition ssig0 (x : Z) : Z := Z.lxor (rotr 7 x) (Z.lxor (rotr 18 x) (Z.shiftr x 3)).
Definition ssig1 (x : Z) : Z := Z.lxor (rotr 17 x) (Z.lxor (rotr 19 x) (Z.shiftr x 10)).

(** The constants are the first 32 bits of the fractional parts of the cube and
    square roots of the first primes; they are computed here. *)
Definition is_prime (n : Z) : bool :=
  forallb (fun d => negb (n mod d =? 0)) (seqZ 2 (n - 2)).
Definition small_primes : list Z := Eval vm_compute in List.filter is_prime (seqZ 2 310).

(** Largest [r] below [2 ^ bits] with [r ^ k <= x], bit by bit from the top. *)
Fixpoint root_bits (bits : nat) (k x r : Z) : Z :=
  match bits with
  | O => r
  | S b => let r' := r + 2 ^ Z.of_nat b in root_bits b k x (if r' ^ k <=? x then r' else r)
  end.
Definition root_fraction (k p : Z) : Z := mask32 (root_bits 40 k (p * 2 ^ (32 * k)) 0).

Definition round_constants : list Z := Eval vm_compute in map (root_fraction 3) (take 64 small_primes).
Definition initial_hash : list Z := Eval vm_compute in map (root_fraction 2) (take 8 small_primes).

Fixpoint str_bytes (s : string) : list Z :=
  match s with "" => [] | String c s => zb c :: str_bytes s end.

(** The message, a 1 bit, zeros to 56 modulo 64 bytes, and the bit length. *)
Definition be_bytes (n : nat) (x : Z) : list Z :=
  map (fun i => Z.land (Z.shiftr x (8 * Z.of_nat i)) 255) (rev (seq 0 n)).
Definition pad (m : list Z) : list Z :=
  let n := Z.of_nat (length m) in
  m ++ [128] ++ repeat 0 (Z.to_nat ((55 - n) mod 64)) ++ be_bytes 8 (8 * n).

Fixpoint words (l : list Z) : list Z :=
  match l with
  | a :: b :: c :: d :: l => (((a * 256 + b) * 256 + c) * 256 + d) :: words l
  | _ => []
  end.

(** Message schedule: the last sixteen words, newest first, and the words
    produced so far, newest first. *)
Fixpoint schedule (n : nat) (w : list Z) : list Z :=
  match n with
  | O => w
  | S n =>
      let at_ i := nth i w 0 in
      schedule n (mask32 (ssig1 (at_ 1%nat) + at_ 6%nat + ssig0 (at_ 14%nat) + at_ 15%nat) :: w)
  end.

Definition round (h : list Z) (kw : Z * Z) : list Z :=
  match h with
  | [a; b; c; d; e; f; g; hh] =>
      let t1 := hh + bsig1 e + Ch e f g + fst kw + snd kw in
      let t2 := bsig0 a + Maj a b c in
      [mask32 (t1 + t2); a; b; c; add32 d t1; e; f; g]
  | _ => h
  end.

Definition block (h : list Z) (ws : list Z) : list Z :=
  let w := rev (schedule 48 (rev ws)) in
  zip_with add32 h (fold_left round (combine round_constants w) h).

Fixpoint blocks (fuel : nat) (h ws : list Z) : list Z :=
  match fuel, ws with
  | S fuel, _ :: _ => blocks fuel (block h (take 16 ws)) (drop 16 ws)
  | _, _ => h
  end.

Definition Sum256 (m : list Z) : list Z :=
  let ws := words (pad m) in
  flat_map (be_bytes 4) (blocks (length ws) initial_hash ws).

Fixpoint hex (l : list Z) : string :=
  match l with
  | [] => ""
  | b :: l => String (hex_digit (b / 16)) (String (hex_digit (b mod 16)) (hex l))
  end.

(** [fmt.Sprintf("%x", sha256.Sum256(b))] *)
Definition sha256_hex (s : string) : string := hex (Sum256 (str_bytes s)).

Example sha256_abc :
  sha256_hex "abc" = "ba7816bf8f01cfea414140de5dae2223b00361a396177a9cb410ff61f20015ad".
Proof. vm_compute. reflexivity. Qed.
Example sha256_two_blocks :
  sha256_hex "abcdbcdecdefdefgefghfghighijhijkijkljklmklmnlmnomnopnopq"
  = "248d6a61d20638b8e5c026930c3e6039a33ce45964ff2167f6ecedd419db06c1".
Proof. vm_compute. reflexivity. Qed.

(** A digest is 64 hexadecimal characters. *)
Lemma hex_length l : String.length (hex l) = (2 * length l)%nat.
Proof. induction l; cbn in *; lia. Qed.

Lemma length_be_bytes n x : length (be_bytes n x) = n.
Proof. unfold be_bytes. by rewrite length_map, length_rev, length_seq. Qed.

Lemma block_length h ws : length h = 8%nat → length (block h ws) = 8%nat.
Proof.
  intros H. unfold block. rewrite length_zip_with, H.
  assert (∀ l h', length h' = 8%nat → length (fold_left round l h') = 8%nat) as ->; [|done|done].
  induction l as [|kw l IH]; intros h' Hh; cbn; [done|]. apply IH.
  do 9 (destruct h' as [|? h']; try done).
Qed.

Lemma sha256_hex_length s : String.length (sha256_hex s) = 64%nat.
Proof.
  unfold sha256_hex, Sum256. rewrite hex_length.
  assert (∀ n h ws, length h = 8%nat → length (blocks n h ws) = 8%nat) as Hb.
  { induction n as [|n IH]; intros h [|w ws] Hh; cbn; try done. by apply IH, block_length. }
  assert (∀ l, length (flat_map (be_bytes 4) l) = 4 * length l)%nat as ->.
  { induction l; cbn [flat_map length]; [done|]. rewrite length_app, length_be_bytes. lia. }
  by rewrite Hb.
Qed.

Lemma sha256_hex_nonempty s : sha256_hex s ≠ "".
Proof. intros E. pose proof (sha256_hex_length s) as H. by rewrite E in H. Qed.
