(* ===== verification/Watch.v ===== *)
(** * The watch contract: [internal/watch/types.go], [internal/watch/logs.go]

    Definitions, destinations, observations and events as records; revisions
    (SHA-256 of the JSON text) and entity identities as executable functions.
    Nil and empty maps or slices are one value: every such field is written with
    [omitempty] or normalised before it is encoded. *)

From S2P Require Import Prelude GoText GoFloat GoJson Sha256.

Definition APIVersion : string := "ding.ing/v1alpha1".

Record SecretRef := { Env : string }.
Record Metadata := { md_ID : string; md_Name : string }.

Record LogMultiline := {
  ml_Start : string; ml_Continue : string; ml_MaxLines : Z; ml_FlushAfter : string }.

Record LogInput := {
  li_Type : string; li_Path : string; li_Start : string; li_Argv : list string;
  li_Directory : string; li_Env : gmap string SecretRef; li_ReconnectEvery : string }.

Record LogSource := {
  ls_Input : LogInput; ls_Format : string; ls_LevelField : string;
  ls_Patterns : gmap string string; ls_LevelMap : gmap string string;
  ls_TextProfile : string; ls_Framing : string; ls_Multiline : option LogMultiline;
  ls_Window : string; ls_Retention : string; ls_EmitEvery : string;
  ls_MinEvents : Z; ls_MinCoverage : float64 }.

Record Source := {
  s_Logs : option LogSource; s_ObservedAtField : string; s_Type : string; s_URL : string;
  s_URLRef : option SecretRef; s_Every : string; s_Timeout : string;
  s_Headers : gmap string SecretRef; s_Fields : gmap string string; s_ItemsPath : string;
  s_JQ : string; s_Argv : list string; s_Directory : string; s_Env : gmap string SecretRef }.

Record Condition := {
  c_Field : string; c_Operator : string; c_Value : value; c_Numeric : string;
  c_MissingFor : string; c_DedupFor : string }.

Record Policy := {
  p_Trigger : string; p_Consecutive : Z; p_RecoverAfter : Z; p_OnUnknown : string;
  p_Interval : string; p_MaxGap : string }.

Record Target := { t_Ref : string; t_Events : list string }.

Record Limits := {
  l_MaxEntities : Z; l_MaxSamples : Z; l_MaxBytes : Z; l_MaxOutputs : Z; l_IdleTTL : string }.

Record Spec := {
  sp_Source : Source; sp_Condition : Condition; sp_Policy : Policy; sp_GroupBy : list string;
  sp_Match : gmap string value; sp_Message : string; sp_Destinations : list Target; sp_Limits : Limits }.

Record Definition_ := {
  d_APIVersion : string; d_Kind : string; d_Metadata : Metadata; d_Spec : Spec }.

Record DestinationSpec := {
  ds_Type : string; ds_URLRef : option SecretRef; ds_Headers : gmap string SecretRef;
  ds_MaxAttempts : Z; ds_MaxAge : string; ds_InitialBackoff : string }.
Record Destination := {
  dst_APIVersion : string; dst_Kind : string; dst_Metadata : Metadata; dst_Spec : DestinationSpec }.

(** Health is one of ok, unknown, unchanged, gap, timer, clock, waiting. *)
Record Observation := {
  o_Entity : string; o_Deadline : option time; o_Sequence : Z; o_InputID : string;
  o_AcceptedAt : time; o_ObservedAt : option time; o_Fields : fields;
  o_Health : string; o_Detail : string }.

Record Event := {
  ev_ID : string; ev_Sequence : Z; ev_WatchID : string; ev_Revision : string; ev_Entity : string;
  ev_Type : string; ev_At : time; ev_Message : string; ev_Fields : fields; ev_Evidence : list Z }.

(** [Observation.DetailOrDefault] *)
Definition DetailOrDefault (o : Observation) : string :=
  if negb (o_Detail o ≟ "") then o_Detail o else "source_unknown".

(** [Revision]: the hexadecimal digest of the JSON text. *)
Definition Revision (json : string) : string := sha256_hex json.

(** ** Entity identity *)

Definition key_part (field : string) (present : bool) (text : string) : string :=
  object_text [member "field" (quote field); member "present" (bool_text present); member "value" text].

(** One grouping field: only scalar values identify an entity. *)
Definition key_value (v : value) : result string :=
  match v with
  | VNil => Ok "null"
  | VBool b => Ok (bool_text b)
  | VInt z | VInt64 z => Ok (Itoa z)
  | VFloat f => match json_float f with Some t => Ok t | None => Err "json: unsupported value" end
  | VString s => if ValidString s then Ok (quote s) else Err "group value is not valid UTF-8"
  | VArray _ | VObject _ => Err "group fields must be scalar values"
  end.

(** The value and presence of every grouping field.  Encoding errors surface
    after all fields were checked, as in the code; both are errors. *)
Definition group_value (fs : fields) (field : string) : result string :=
  let v := default VNil (fs !! field) in
  t ← key_value v;
  Ok (key_part field (bool_decide (is_Some (fs !! field))) t).

Fixpoint key_parts (groupBy : list string) (fs : fields) : result (list string) :=
  match groupBy with
  | [] => Ok []
  | field :: groupBy =>
      p ← group_value fs field; ps ← key_parts groupBy fs; Ok (p :: ps)
  end.

Definition EntityKey (groupBy : list string) (fs : fields) : result string :=
  array_text <$> key_parts groupBy fs.

(** ** Event identity *)

(** The JSON text of the anonymous struct {Watch, Revision, Entity, Type, Sequence}. *)
Definition event_json (watch revision entity kind : string) (sequence : Z) : string :=
  object_text
    [member "Watch" (quote watch); member "Revision" (quote revision);
     member "Entity" (quote entity); member "Type" (quote kind);
     member "Sequence" (Itoa sequence)].

Definition event_id (watch revision entity kind : string) (sequence : Z) : string :=
  Revision (event_json watch revision entity kind sequence).

(** ** Copying through JSON

    [Compile] and [condition.New] copy their input with [json.Marshal] and
    [json.Unmarshal]: strings lose ill-formed bytes, numbers become float64. *)

Definition sanitize_map (m : gmap string string) : gmap string string :=
  list_to_map (reverse ((fun kv => (sanitize (fst kv), sanitize (snd kv))) <$> sorted_fields m)).
Definition copy_ref (r : SecretRef) : SecretRef := {| Env := sanitize (Env r) |}.
Definition copy_refs (m : gmap string SecretRef) : gmap string SecretRef :=
  list_to_map (reverse ((fun kv => (sanitize (fst kv), copy_ref (snd kv))) <$> sorted_fields m)).
Definition copy_float (f : float64) : option float64 :=
  if negb (is_finite f) then None
  else if feq f (S754_zero false) then Some (S754_zero false) else Some f.

Definition copy_input (i : LogInput) : LogInput :=
  {| li_Type := sanitize (li_Type i); li_Path := sanitize (li_Path i); li_Start := sanitize (li_Start i);
     li_Argv := sanitize <$> li_Argv i; li_Directory := sanitize (li_Directory i);
     li_Env := copy_refs (li_Env i); li_ReconnectEvery := sanitize (li_ReconnectEvery i) |}.

Definition copy_multiline (m : LogMultiline) : LogMultiline :=
  {| ml_Start := sanitize (ml_Start m); ml_Continue := sanitize (ml_Continue m);
     ml_MaxLines := ml_MaxLines m; ml_FlushAfter := sanitize (ml_FlushAfter m) |}.

Definition copy_logs (l : LogSource) : option LogSource :=
  cov ← copy_float (ls_MinCoverage l);
  Some {| ls_Input := copy_input (ls_Input l); ls_Format := sanitize (ls_Format l);
     ls_LevelField := sanitize (ls_LevelField l); ls_Patterns := sanitize_map (ls_Patterns l);
     ls_LevelMap := sanitize_map (ls_LevelMap l); ls_TextProfile := sanitize (ls_TextProfile l);
     ls_Framing := sanitize (ls_Framing l); ls_Multiline := copy_multiline <$> ls_Multiline l;
     ls_Window := sanitize (ls_Window l); ls_Retention := sanitize (ls_Retention l);
     ls_EmitEvery := sanitize (ls_EmitEvery l); ls_MinEvents := ls_MinEvents l; ls_MinCoverage := cov |}.

Definition copy_source (s : Source) : option Source :=
  logs ← match s_Logs s with None => Some None | Some l => Some <$> copy_logs l end;
  Some {| s_Logs := logs; s_ObservedAtField := sanitize (s_ObservedAtField s); s_Type := sanitize (s_Type s);
     s_URL := sanitize (s_URL s); s_URLRef := copy_ref <$> s_URLRef s; s_Every := sanitize (s_Every s);
     s_Timeout := sanitize (s_Timeout s); s_Headers := copy_refs (s_Headers s);
     s_Fields := sanitize_map (s_Fields s); s_ItemsPath := sanitize (s_ItemsPath s); s_JQ := sanitize (s_JQ s);
     s_Argv := sanitize <$> s_Argv s; s_Directory := sanitize (s_Directory s); s_Env := copy_refs (s_Env s) |}.

Definition copy_condition (c : Condition) : option Condition :=
  v ← json_copy (c_Value c);
  Some {| c_Field := sanitize (c_Field c); c_Operator := sanitize (c_Operator c); c_Value := v;
     c_Numeric := sanitize (c_Numeric c); c_MissingFor := sanitize (c_MissingFor c);
     c_DedupFor := sanitize (c_DedupFor c) |}.

Definition copy_policy (p : Policy) : Policy :=
  {| p_Trigger := sanitize (p_Trigger p); p_Consecutive := p_Consecutive p; p_RecoverAfter := p_RecoverAfter p;
     p_OnUnknown := sanitize (p_OnUnknown p); p_Interval := sanitize (p_Interval p); p_MaxGap := sanitize (p_MaxGap p) |}.

Definition copy_target (t : Target) : Target :=
  {| t_Ref := sanitize (t_Ref t); t_Events := sanitize <$> t_Events t |}.

Definition copy_limits (l : Limits) : Limits :=
  {| l_MaxEntities := l_MaxEntities l; l_MaxSamples := l_MaxSamples l; l_MaxBytes := l_MaxBytes l;
     l_MaxOutputs := l_MaxOutputs l; l_IdleTTL := sanitize (l_IdleTTL l) |}.

Definition copy_metadata (m : Metadata) : Metadata :=
  {| md_ID := sanitize (md_ID m); md_Name := sanitize (md_Name m) |}.

Definition copy_spec (s : Spec) : option Spec :=
  src ← copy_source (sp_Source s);
  cond ← copy_condition (sp_Condition s);
  mt ← copy_fields (sp_Match s);
  Some {| sp_Source := src; sp_Condition := cond; sp_Policy := copy_policy (sp_Policy s);
     sp_GroupBy := sanitize <$> sp_GroupBy s; sp_Match := mt; sp_Message := sanitize (sp_Message s);
     sp_Destinations := copy_target <$> sp_Destinations s; sp_Limits := copy_limits (sp_Limits s) |}.

(** [None] when the definition holds a float JSON cannot represent. *)
Definition copy_definition (d : Definition_) : option Definition_ :=
  sp ← copy_spec (d_Spec d);
  Some {| d_APIVersion := sanitize (d_APIVersion d); d_Kind := sanitize (d_Kind d);
     d_Metadata := copy_metadata (d_Metadata d); d_Spec := sp |}.

(** ** Identities are faithful *)

Lemma append_cancel_r a b c : a ++ c = b ++ c → a = b.
Proof.
  intros H. assert (String.length a = String.length b) as Hl.
  { apply (f_equal String.length) in H. rewrite !str_length_app in H. lia. }
  revert b H Hl. induction a as [|x a IH]; intros [|y b] H Hl; cbn in *; try done; try lia.
  injection H as -> H. f_equal. apply IH; [done|lia].
Qed.

Lemma append_cancel_l a b c : a ++ b = a ++ c → b = c.
Proof. induction a as [|x a IH]; cbn; [done|]. intros [= H]. auto. Qed.

(** The text hashed for an event determines the watch, the revision, the entity,
    the type and the sequence. *)
Lemma event_json_inj w r n k q w' r' n' k' q' :
  event_json w r n k q = event_json w' r' n' k' q' →
  sanitize w = sanitize w' ∧ sanitize r = sanitize r' ∧ sanitize n = sanitize n' ∧ sanitize k = sanitize k' ∧ q = q'.
Proof.
  unfold event_json, object_text, member. cbn [join]. rewrite <- !str_app_assoc. intros H.
  apply append_cancel_l in H.
  repeat (apply quote_inj in H as [? H]; try (apply append_cancel_l in H)).
  apply append_cancel_r, Itoa_inj in H. done.
Qed.

(** ** A copy is a fixed point of copying *)

Lemma sorted_fields_perm {A : Type} (m : gmap string A) : sorted_fields m ≡ₚ map_to_list m.
Proof. apply merge_sort_Permutation. Qed.

Lemma sorted_fields_map {A : Type} (m : gmap string A) : list_to_map (reverse (sorted_fields m)) = m.
Proof.
  assert (P : reverse (sorted_fields m) ≡ₚ map_to_list m) by by rewrite reverse_Permutation, sorted_fields_perm.
  rewrite <- (list_to_map_to_list m) at 2. apply list_to_map_proper; [|done]. rewrite P. apply NoDup_fst_map_to_list.
Qed.

(** Copying every entry of a map whose entries are copies changes nothing. *)
Lemma copied_map_fixed {A : Type} (f : string * A → string * A) (l : list (string * A)) :
  (∀ kv, kv ∈ l → f kv = kv) →
  list_to_map (M := gmap string A) (reverse (f <$> sorted_fields (list_to_map (M := gmap string A) (reverse l)))) =
  list_to_map (M := gmap string A) (reverse l).
Proof.
  intros Hf. set (m := list_to_map (M := gmap string A) (reverse l)).
  rewrite <- (sorted_fields_map m) at 2. do 2 f_equal.
  rewrite <- (list_fmap_id (sorted_fields m)) at 2. apply list_fmap_ext. intros i [k v] Hi. cbn. apply Hf.
  apply list_elem_of_lookup_2 in Hi. rewrite sorted_fields_perm in Hi. apply elem_of_map_to_list in Hi.
  apply elem_of_list_to_map_2 in Hi. by rewrite elem_of_reverse in Hi.
Qed.

Lemma sanitize_map_idem m : sanitize_map (sanitize_map m) = sanitize_map m.
Proof.
  unfold sanitize_map. apply copied_map_fixed. intros kv ([k v] & -> & _)%list_elem_of_fmap. cbn. by rewrite !sanitize_idem.
Qed.

Lemma copy_ref_idem r : copy_ref (copy_ref r) = copy_ref r.
Proof. unfold copy_ref. cbn. by rewrite sanitize_idem. Qed.

Lemma copy_refs_idem m : copy_refs (copy_refs m) = copy_refs m.
Proof.
  unfold copy_refs. apply copied_map_fixed. intros kv ([k v] & -> & _)%list_elem_of_fmap. cbn. by rewrite sanitize_idem, copy_ref_idem.
Qed.

(** The same for a copy that can fail. *)
Lemma copied_pairs_fixed {A : Type} (g : string * A → option (string * A)) (m m' : gmap string A) :
  (∀ x y, g x = Some y → g y = Some y) →
  (list_to_map ∘ reverse) <$> mapM g (sorted_fields m) = Some m' →
  (list_to_map ∘ reverse) <$> mapM g (sorted_fields m') = Some m'.
Proof.
  intros Hg. destruct (mapM g (sorted_fields m)) as [l|] eqn:E; [|done]. cbn. intros [= <-].
  assert (Hl : ∀ kv, kv ∈ l → g kv = Some kv).
  { intros kv Hin. apply mapM_Some_1 in E. apply list_elem_of_lookup in Hin as [i Hi].
    destruct (Forall2_lookup_r _ _ _ _ _ E Hi) as (kv0 & _ & Hkv). eauto. }
  set (m1 := list_to_map (M := gmap string A) (reverse l)).
  assert (mapM g (sorted_fields m1) = Some (sorted_fields m1)) as ->.
  { apply mapM_Some_2, Forall2_same_length_lookup_2; [done|]. intros i x y Hx Hy. simplify_eq.
    apply Hl. apply list_elem_of_lookup_2 in Hx. rewrite sorted_fields_perm in Hx. destruct x as [k v].
    apply elem_of_map_to_list in Hx. subst m1. apply elem_of_list_to_map_2 in Hx. by rewrite elem_of_reverse in Hx. }
  cbn. f_equal. apply sorted_fields_map.
Qed.

Lemma copy_fields_idem m m' : copy_fields m = Some m' → copy_fields m' = Some m'.
Proof.
  apply copied_pairs_fixed. intros [k v] y. cbn. destruct (json_copy v) as [w|] eqn:Ev; [|done]. intros [= <-]. cbn.
  by rewrite (json_copy_idem _ _ Ev), sanitize_idem.
Qed.

Lemma copy_float_idem f g : copy_float f = Some g → copy_float g = Some g.
Proof.
  unfold copy_float. destruct (is_finite f) eqn:Ef; [|done]. cbn. destruct (feq f (S754_zero false)) eqn:Ez; intros [= <-]; [done|].
  by rewrite Ef, Ez.
Qed.

Lemma fmap_sanitize_idem (l : list string) : sanitize <$> (sanitize <$> l) = sanitize <$> l.
Proof. rewrite <- list_fmap_compose. apply list_fmap_ext. intros. apply sanitize_idem. Qed.

#[export] Hint Rewrite sanitize_idem sanitize_map_idem copy_ref_idem copy_refs_idem fmap_sanitize_idem : copied.

Lemma copy_logs_idem l l' : copy_logs l = Some l' → copy_logs l' = Some l'.
Proof.
  unfold copy_logs. destruct (copy_float _) eqn:E; [|done]. cbn. intros [= <-]. cbn.
  rewrite (copy_float_idem _ _ E). cbn. unfold copy_input. cbn. autorewrite with copied.
  destruct (ls_Multiline l) as [m|]; [|done]. cbn. unfold copy_multiline. cbn. by autorewrite with copied.
Qed.

Lemma copy_source_idem s s' : copy_source s = Some s' → copy_source s' = Some s'.
Proof.
  unfold copy_source. intros H. apply bind_Some in H as (logs & Hl & [= <-]). cbn.
  assert ((match logs with None => Some None | Some l => Some <$> copy_logs l end) = Some logs) as ->.
  { destruct (s_Logs s) as [l|]; [|by injection Hl as <-]. destruct (copy_logs l) as [l'|] eqn:E; [|done].
    injection Hl as <-. by rewrite (copy_logs_idem _ _ E). }
  cbn. autorewrite with copied. destruct (s_URLRef s); cbn; by autorewrite with copied.
Qed.

Lemma copy_definition_idem d d' : copy_definition d = Some d' → copy_definition d' = Some d'.
Proof.
  unfold copy_definition, copy_spec. intros H. apply bind_Some in H as (sp & Hs & [= <-]).
  apply bind_Some in Hs as (src & Hsrc & Hs). apply bind_Some in Hs as (cond & Hcond & Hs).
  apply bind_Some in Hs as (mt & Hmt & [= <-]). cbn.
  rewrite (copy_source_idem _ _ Hsrc). cbn.
  unfold copy_condition in *. apply bind_Some in Hcond as (v & Hv & [= <-]). cbn. rewrite (json_copy_idem _ _ Hv). cbn.
  rewrite (copy_fields_idem _ _ Hmt). cbn. unfold copy_policy, copy_limits, copy_metadata. cbn. autorewrite with copied.
  do 3 f_equal. rewrite <- list_fmap_compose. apply list_fmap_ext. intros i t _. unfold copy_target. cbn. by autorewrite with copied.
Qed.

(** * JSON text of definitions: the struct tags of [internal/watch]

    [json.Marshal] of a definition writes the members in declaration order and
    leaves out empty [omitempty] members; revisions are digests of this text. *)

(** Members: always written, or omitted when empty. *)
Definition always (k body : string) : list string := [member k body].
Definition omit_if (empty : bool) (k body : string) : list string := if empty then [] else [member k body].
Definition str_member (k s : string) : list string := omit_if (s ≟ "") k (quote s).
Definition int_member (k : string) (n : Z) : list string := omit_if (n =? 0) k (Itoa n).

Definition map_text {A : Type} (f : A → string) (m : gmap string A) : string :=
  object_text ((fun kv => member (fst kv) (f (snd kv))) <$> sorted_fields m).
Definition map_member {A : Type} (f : A → string) (k : string) (m : gmap string A) : list string :=
  omit_if (size m =? 0)%nat k (map_text f m).
Definition list_text (l : list string) : string := array_text (quote <$> l).
Definition list_member (k : string) (l : list string) : list string := omit_if (length l =? 0)%nat k (list_text l).

Definition ref_json (r : SecretRef) : string := object_text (always "env" (quote (Env r))).

Definition metadata_json (m : Metadata) : string :=
  object_text (always "id" (quote (md_ID m)) ++ str_member "name" (md_Name m))%list.

Definition multiline_json (m : LogMultiline) : string :=
  object_text (always "start" (quote (ml_Start m)) ++ always "continue" (quote (ml_Continue m))
    ++ int_member "maxLines" (ml_MaxLines m) ++ str_member "flushAfter" (ml_FlushAfter m))%list.

Definition input_json (i : LogInput) : string :=
  object_text (always "type" (quote (li_Type i)) ++ str_member "path" (li_Path i) ++ str_member "start" (li_Start i)
    ++ list_member "argv" (li_Argv i) ++ str_member "directory" (li_Directory i) ++ map_member ref_json "env" (li_Env i)
    ++ str_member "reconnectEvery" (li_ReconnectEvery i))%list.

(** [None] when a float is not representable. *)
Definition logs_json (l : LogSource) : option string :=
  cov ← json_float (ls_MinCoverage l);
  Some (object_text (always "input" (input_json (ls_Input l)) ++ str_member "format" (ls_Format l)
    ++ str_member "levelField" (ls_LevelField l) ++ map_member quote "patterns" (ls_Patterns l)
    ++ map_member quote "levelMap" (ls_LevelMap l) ++ str_member "textProfile" (ls_TextProfile l)
    ++ str_member "framing" (ls_Framing l)
    ++ match ls_Multiline l with Some m => always "multiline" (multiline_json m) | None => [] end
    ++ str_member "window" (ls_Window l) ++ str_member "retention" (ls_Retention l) ++ str_member "emitEvery" (ls_EmitEvery l)
    ++ int_member "minEvents" (ls_MinEvents l) ++ omit_if (feq (ls_MinCoverage l) (S754_zero false)) "minCoverage" cov)%list).

Definition source_json (s : Source) : option string :=
  logs ← match s_Logs s with None => Some [] | Some l => always "logs" <$> logs_json l end;
  Some (object_text (logs ++ str_member "observedAtField" (s_ObservedAtField s) ++ always "type" (quote (s_Type s))
    ++ str_member "url" (s_URL s) ++ match s_URLRef s with Some r => always "urlRef" (ref_json r) | None => [] end
    ++ str_member "every" (s_Every s) ++ str_member "timeout" (s_Timeout s) ++ map_member ref_json "headers" (s_Headers s)
    ++ map_member quote "fields" (s_Fields s) ++ str_member "itemsPath" (s_ItemsPath s) ++ str_member "jq" (s_JQ s)
    ++ list_member "argv" (s_Argv s) ++ str_member "directory" (s_Directory s) ++ map_member ref_json "env" (s_Env s))%list).

Definition condition_json (c : Condition) : option string :=
  v ← Marshal (c_Value c);
  Some (object_text (str_member "field" (c_Field c) ++ str_member "operator" (c_Operator c) ++ always "value" v
    ++ str_member "numeric" (c_Numeric c) ++ str_member "missingFor" (c_MissingFor c) ++ str_member "dedupFor" (c_DedupFor c))%list).

Definition policy_json (p : Policy) : string :=
  object_text (always "trigger" (quote (p_Trigger p)) ++ always "consecutive" (Itoa (p_Consecutive p))
    ++ always "recoverAfter" (Itoa (p_RecoverAfter p)) ++ always "onUnknown" (quote (p_OnUnknown p))
    ++ str_member "interval" (p_Interval p) ++ str_member "maxGap" (p_MaxGap p))%list.

Definition target_json (t : Target) : string :=
  object_text (always "ref" (quote (t_Ref t)) ++ always "events" (list_text (t_Events t)))%list.

Definition limits_json (l : Limits) : string :=
  object_text (always "maxEntities" (Itoa (l_MaxEntities l)) ++ always "maxSamples" (Itoa (l_MaxSamples l))
    ++ always "maxBytes" (Itoa (l_MaxBytes l)) ++ always "maxOutputs" (Itoa (l_MaxOutputs l))
    ++ always "idleTTL" (quote (l_IdleTTL l)))%list.

Definition spec_json (s : Spec) : option string :=
  src ← source_json (sp_Source s);
  cond ← condition_json (sp_Condition s);
  mt ← MarshalFields (sp_Match s);
  Some (object_text (always "source" src ++ always "condition" cond ++ always "policy" (policy_json (sp_Policy s))
    ++ list_member "groupBy" (sp_GroupBy s) ++ omit_if (size (sp_Match s) =? 0)%nat "match" mt
    ++ str_member "message" (sp_Message s)
    ++ always "destinations" (array_text (target_json <$> sp_Destinations s)) ++ always "limits" (limits_json (sp_Limits s)))%list).

Definition definition_json (d : Definition_) : option string :=
  spec ← spec_json (d_Spec d);
  Some (object_text (always "apiVersion" (quote (d_APIVersion d)) ++ always "kind" (quote (d_Kind d))
    ++ always "metadata" (metadata_json (d_Metadata d)) ++ always "spec" spec)%list).

Definition destination_json (d : Destination) : string :=
  let s := dst_Spec d in
  object_text (always "apiVersion" (quote (dst_APIVersion d)) ++ always "kind" (quote (dst_Kind d))
    ++ always "metadata" (metadata_json (dst_Metadata d))
    ++ always "spec" (object_text (always "type" (quote (ds_Type s))
         ++ match ds_URLRef s with Some r => always "urlRef" (ref_json r) | None => [] end
         ++ map_member ref_json "headers" (ds_Headers s) ++ always "maxAttempts" (Itoa (ds_MaxAttempts s))
         ++ always "maxAge" (quote (ds_MaxAge s)) ++ always "initialBackoff" (quote (ds_InitialBackoff s)))))%list.

(** Encoding fails exactly for a float JSON cannot represent, so a copied
    definition always has a text. *)
Definition revision_of (text : option string) : result string :=
  match text with Some t => Ok (Revision t) | None => Err "json: unsupported value" end.
