(* ===== verification/Numeric.v ===== *)
(** * Numeric conditions: [internal/condition/numeric.go]

    The condition language [avg(value) over 5m > 3 AND value < 10 OR ...]: the
    two regular expressions as hand-written matchers, the tokenizer, the
    recursive-descent parser with its window numbering, and evaluation. *)
From S2P Require Import Prelude GoText GoFloat GoTime.

(** ** Single conditions *)

Record NCondition := {
  Windowed : bool; RunBounded : bool; Op : string; Literal : float64;
  Func : string; Window : duration }.

(** [\s] of Go's regular expressions *)
Definition is_ws (c : ascii) : bool := bool_decide (zb c ∈ [9; 10; 12; 13; 32]).
Definition skip_ws (s : string) : string := snd (span is_ws s).

(** The first of the alternatives that is a prefix. *)
Fixpoint match_any (alts : list string) (s : string) : option (string * string) :=
  match alts with
  | [] => None
  | a :: alts => match strip_prefix a s with Some r => Some (a, r) | None => match_any alts s end
  end.

(** [(>|>=|<|<=|==|!=)] followed by a number: an operator is never followed by
    [=], so the two-byte operators are tried first. *)
Definition match_op (s : string) : option (string * string) :=
  match_any [">="; "<="; "=="; "!="; ">"; "<"] s.

(** [(-?\d+(?:\.\d+)?)$]: sign, integer and fraction digits. *)
Definition match_number (s : string) : option (bool * string * string) :=
  let '(neg, s) := match s with String "-" r => (true, r) | _ => (false, s) end in
  let '(int, r) := span is_digit s in
  if int ≟ "" then None
  else match r with
       | "" => Some (neg, int, "")
       | String "." r =>
           let '(frac, r) := span is_digit r in
           if (frac ≟ "") || negb (r ≟ "") then None else Some (neg, int, frac)
       | _ => None
       end.

(** [\s*(op)\s*(number)$] *)
Definition match_comparison (s : string) : option (string * (bool * string * string)) :=
  '(op, r) ← match_op (skip_ws s);
  n ← match_number (skip_ws r);
  Some (op, n).

(** [reEventCond] *)
Definition match_event (s : string) : option (string * (bool * string * string)) :=
  r ← strip_prefix "value" s; match_comparison r.

(** [\s+] *)
Definition skip_ws1 (s : string) : option string :=
  match s with
  | String c r => if is_ws c then Some (skip_ws r) else None
  | "" => None
  end.

(** [(\d+[smh]|run)] *)
Definition match_window (s : string) : option (string * string) :=
  match strip_prefix "run" s with
  | Some r => Some ("run", r)
  | None =>
      let '(ds, r) := span is_digit s in
      match ds, r with
      | "", _ | _, "" => None
      | _, String c r => if bool_decide (c ∈ ["s"%char; "m"%char; "h"%char]) then Some (ds ++ one c, r) else None
      end
  end.

(** [reWindowedCond] *)
Definition match_windowed (s : string) : option (string * string * (string * (bool * string * string))) :=
  '(fn, r) ← match_any ["avg"; "max"; "min"; "count"; "sum"] s;
  r ← strip_prefix "(value)" r;
  r ← skip_ws1 r;
  r ← strip_prefix "over" r;
  r ← skip_ws1 r;
  '(w, r) ← match_window r;
  c ← match_comparison r;
  Some (fn, w, c).

Definition parse_literal (n : bool * string * string) : result float64 :=
  let '(neg, int, frac) := n in
  match parse_float neg int frac with
  | Some x => Ok x
  | None => Err "invalid numeric literal"
  end.

Definition ParseCondition (s : string) : result NCondition :=
  match match_event s with
  | Some (op, n) =>
      lit ← parse_literal n;
      Ok {| Windowed := false; RunBounded := false; Op := op; Literal := lit; Func := ""; Window := 0 |}
  | None =>
      match match_windowed s with
      | Some (fn, w, (op, n)) =>
          lit ← parse_literal n;
          if w ≟ "run"
          then Ok {| Windowed := true; RunBounded := true; Op := op; Literal := lit; Func := fn; Window := 0 |}
          else match ParseDuration w with
               | Err _ => Err "invalid duration in condition"
               | Ok dur =>
                   fail_if (dur <=? 0) "window duration must be positive" ;;
                   Ok {| Windowed := true; RunBounded := false; Op := op; Literal := lit; Func := fn; Window := dur |}
               end
      | None => Err "unrecognized condition syntax"
      end
  end.

Definition CompareNumber (actual : float64) (op : string) (literal : float64) : bool :=
  if op ≟ ">" then flt literal actual
  else if op ≟ ">=" then fle literal actual
  else if op ≟ "<" then flt actual literal
  else if op ≟ "<=" then fle actual literal
  else if op ≟ "==" then feq actual literal
  else if op ≟ "!=" then negb (feq actual literal)
  else false.

(** ** Expressions *)

(** Windowed leaves carry their sequential number, other leaves -1. *)
Record leafExpr := { leaf_cond : NCondition; leaf_id : Z }.

Inductive boolop := AND | OR.

Inductive ConditionExpr :=
| Leaf (l : leafExpr)
| Compound (op : boolop) (left right : ConditionExpr).

(** [Value], and per window number its aggregate when available. *)
Record Context_ := { ctx_Value : float64; ctx_Aggregates : gmap Z float64; ctx_Available : gmap Z bool }.

Record WindowLeaf := { w_ID : Z; w_Func : string; w_Window : duration; w_RunBounded : bool }.

(** A missing map entry reads as the zero value. *)
Definition leaf_eval (l : leafExpr) (ctx : Context_) : bool :=
  let c := leaf_cond l in
  if Windowed c then
    if negb (default false (ctx_Available ctx !! leaf_id l)) then false
    else CompareNumber (default (S754_zero false) (ctx_Aggregates ctx !! leaf_id l)) (Op c) (Literal c)
  else CompareNumber (ctx_Value ctx) (Op c) (Literal c).

Fixpoint Eval_ (e : ConditionExpr) (ctx : Context_) : bool :=
  match e with
  | Leaf l => leaf_eval l ctx
  | Compound AND l r => Eval_ l ctx && Eval_ r ctx
  | Compound OR l r => Eval_ l ctx || Eval_ r ctx
  end.

Fixpoint Windows (e : ConditionExpr) : list WindowLeaf :=
  match e with
  | Leaf l =>
      let c := leaf_cond l in
      if Windowed c then [{| w_ID := leaf_id l; w_Func := Func c; w_Window := Window c; w_RunBounded := RunBounded c |}]
      else []
  | Compound _ l r => Windows l ++ Windows r
  end.

(** ** Tokens *)

Inductive token := TAtom (val : string) | TOp (op : boolop).

(** The first delimiter of the text, its offset and its length. *)
Definition next_delim (rest : string) : option (nat * boolop * nat) :=
  match Index rest " AND ", Index rest " OR " with
  | None, None => None
  | Some a, None => Some (a, AND, 5%nat)
  | Some a, Some o => if (a <? o)%nat then Some (a, AND, 5%nat) else Some (o, OR, 4%nat)
  | None, Some o => Some (o, OR, 4%nat)
  end.

(** Each round drops a delimiter, so the length is enough fuel. *)
Fixpoint tokenize_loop (fuel : nat) (rest : string) : result (list token) :=
  match fuel with
  | O => Ok []
  | S fuel =>
      if rest ≟ "" then Ok []
      else match next_delim rest with
           | None =>
               let atom := TrimSpace rest in
               fail_if (atom ≟ "") "unexpected end of condition" ;; Ok [TAtom atom]
           | Some (i, op, n) =>
               let atom := TrimSpace (str_take i rest) in
               fail_if (atom ≟ "") "operator without left operand" ;;
               ts ← tokenize_loop fuel (str_drop (i + n) rest);
               Ok (TAtom atom :: TOp op :: ts)
           end
  end.

Definition tokenize (s : string) : result (list token) :=
  ts ← tokenize_loop (String.length s) s;
  match list.last ts with
  | None => Err "empty condition"
  | Some (TOp _) => Err "unexpected end of condition after operator"
  | Some (TAtom _) => Ok ts
  end.

(** ** Parser

    The parser state is the remaining tokens and the next window number. *)

Definition parseAtom (ts : list token) (nextID : Z) : result (ConditionExpr * list token * Z) :=
  match ts with
  | [] => Err "unexpected end of condition"
  | TOp _ :: _ => Err "unexpected operator without operand"
  | TAtom val :: ts =>
      match ParseCondition val with
      | Err _ => Err "invalid atom"
      | Ok cond =>
          if Windowed cond
          then Ok (Leaf {| leaf_cond := cond; leaf_id := nextID |}, ts, nextID + 1)
          else Ok (Leaf {| leaf_cond := cond; leaf_id := -1 |}, ts, nextID)
      end
  end.

Fixpoint and_loop (fuel : nat) (lhs : ConditionExpr) (ts : list token) (nextID : Z) : result (ConditionExpr * list token * Z) :=
  match fuel, ts with
  | S fuel, TOp AND :: ts =>
      '(rhs, ts, nextID) ← parseAtom ts nextID;
      and_loop fuel (Compound AND lhs rhs) ts nextID
  | _, _ => Ok (lhs, ts, nextID)
  end.

Definition parseAndExpr (ts : list token) (nextID : Z) : result (ConditionExpr * list token * Z) :=
  '(lhs, ts, nextID) ← parseAtom ts nextID;
  and_loop (length ts) lhs ts nextID.

Fixpoint or_loop (fuel : nat) (lhs : ConditionExpr) (ts : list token) (nextID : Z) : result (ConditionExpr * list token * Z) :=
  match fuel, ts with
  | S fuel, TOp OR :: ts =>
      '(rhs, ts, nextID) ← parseAndExpr ts nextID;
      or_loop fuel (Compound OR lhs rhs) ts nextID
  | _, _ => Ok (lhs, ts, nextID)
  end.

Definition parseExpr (ts : list token) (nextID : Z) : result (ConditionExpr * list token * Z) :=
  '(lhs, ts, nextID) ← parseAndExpr ts nextID;
  or_loop (length ts) lhs ts nextID.

Definition ParseExpression (s : string) : result ConditionExpr :=
  ts ← tokenize s;
  '(e, _, _) ← parseExpr ts 0;
  Ok e.

(** ** Reference semantics: a disjunction of conjunctions

    [groups] reads the tokens left to right without any tree: [OR] starts a new
    group and windows are numbered in order of appearance. *)

Fixpoint groups (ts : list token) (nextID : Z) : result (list (list leafExpr)) :=
  match ts with
  | [] => Err "unexpected end of condition"
  | TOp _ :: _ => Err "unexpected operator without operand"
  | TAtom val :: ts =>
      cond ← (match ParseCondition val with Ok c => Ok c | Err _ => Err "invalid atom" end);
      let leaf := {| leaf_cond := cond; leaf_id := if Windowed cond then nextID else -1 |} in
      let next := if Windowed cond then nextID + 1 else nextID in
      match ts with
      | [] => Ok [[leaf]]
      | TOp AND :: ts => gs ← groups ts next;
                         match gs with g :: gs => Ok ((leaf :: g) :: gs) | [] => Ok [[leaf]] end
      | TOp OR :: ts => gs ← groups ts next; Ok ([leaf] :: gs)
      | TAtom _ :: _ => Ok [[leaf]]
      end
  end.

Definition groups_eval (gs : list (list leafExpr)) (ctx : Context_) : bool :=
  existsb (forallb (fun l => leaf_eval l ctx)) gs.

(** ** Facts *)

Fixpoint leaves (e : ConditionExpr) : list leafExpr :=
  match e with Leaf l => [l] | Compound _ l r => leaves l ++ leaves r end.

(** Atoms and operators alternate, starting and ending with an atom. *)
Fixpoint alternating (ts : list token) : bool :=
  match ts with
  | [TAtom _] => true
  | TAtom _ :: TOp _ :: ts => alternating ts
  | _ => false
  end.

(** What may follow an operand. *)
Definition tail_ok (ts : list token) : Prop :=
  match ts with [] => True | TOp _ :: ts => alternating ts = true | TAtom _ :: _ => False end.

Lemma alternating_inv ts : alternating ts = true → ∃ v rest, ts = TAtom v :: rest ∧ tail_ok rest.
Proof. destruct ts as [|[v|o] [|[v'|o'] ts]]; cbn; try done; intros; eexists _, _; split; done. Qed.

Lemma tokenize_loop_shape fuel s ts :
  tokenize_loop fuel s = Ok ts →
  ts = [] ∨ alternating ts = true ∨ ∃ op, list.last ts = Some (TOp op).
Proof.
  revert s ts. induction fuel as [|fuel IH]; intros s ts; cbn; [intros; simplify_eq; auto|].
  case_bool_decide; [intros; simplify_eq; auto|].
  destruct (next_delim s) as [[[i op] n]|].
  - intros H'. res_inv. destruct (IH _ _ Ha) as [->|[Halt|[op' Hop]]]; [right; right|right; left|right; right].
    + by exists op.
    + by destruct (alternating_inv _ Halt) as (v & r & -> & _).
    + exists op'. by destruct a.
  - intros H'. res_inv. auto.
Qed.

Lemma tokenize_alternating s ts : tokenize s = Ok ts → alternating ts = true.
Proof.
  unfold tokenize. intros H. res_inv. apply tokenize_loop_shape in Ha.
  destruct (list.last a) as [[]|] eqn:E; try done. res_inv.
  destruct Ha as [->|[Ha|[op Hop]]]; [done|done|congruence].
Qed.

(** The groups of the tokens that follow a conjunction. *)
Definition tail_groups (ts : list token) (id : Z) : result (list (list leafExpr)) :=
  match ts with TOp OR :: ts => groups ts id | _ => Ok [] end.

Lemma parseAtom_cases v ts id :
  parseAtom (TAtom v :: ts) id =
  match ParseCondition v with
  | Err _ => Err "invalid atom"
  | Ok c => Ok (Leaf {| leaf_cond := c; leaf_id := if Windowed c then id else -1 |}, ts,
                if Windowed c then id + 1 else id)
  end.
Proof. cbn. destruct (ParseCondition v) as [c|]; [|done]. by destruct (Windowed c). Qed.

(** Prepending operands to the first group. *)
Definition cons_group (l : list leafExpr) (gs : list (list leafExpr)) : list (list leafExpr) :=
  match gs with g :: gs => (l ++ g)%list :: gs | [] => [l] end.

Lemma groups_nonempty ts id gs : groups ts id = Ok gs → gs ≠ [].
Proof.
  destruct ts as [|[v|] ts]; cbn; try done. intros H. res_inv.
  destruct ts as [|[|[]] ts]; res_inv; try done.
  match goal with Hm : match ?g with [] => _ | _ => _ end = Ok _ |- _ => destruct g; res_inv; done end.
Qed.

Lemma and_loop_groups n rest lhs id fuel :
  (length rest <= n)%nat → (length rest <= fuel)%nat → tail_ok rest →
  ('(e, ts', id') ← and_loop fuel lhs rest id; gs ← tail_groups ts' id'; Ok (leaves e :: gs)) =
  match rest with
  | TOp AND :: ts => cons_group (leaves lhs) <$> groups ts id
  | _ => cons (leaves lhs) <$> tail_groups rest id
  end.
Proof.
  revert rest lhs id fuel. induction n as [|n IH]; intros rest lhs id fuel Hn Hf Ht.
  { destruct rest; cbn in *; [|lia]. by destruct fuel. }
  destruct rest as [|[v|[|]] ts]; cbn in Ht; [by destruct fuel|done| |].
  2:{ destruct fuel; cbn; by destruct (groups ts id). }
  destruct (alternating_inv _ Ht) as (v & rest & -> & Hr).
  destruct fuel as [|fuel]; cbn in Hf; [lia|]. cbn [and_loop groups].
  rewrite parseAtom_cases. destruct (ParseCondition v) as [c|m]; [|done]. cbn [mbind result_bind].
  cbn in Hn. rewrite IH by (done || lia). cbn [leaves].
  destruct rest as [|[|[]] rest]; try done;
    cbn [tail_groups fmap result_fmap]; destruct (groups rest _) as [gs|] eqn:E; cbn; try done.
  pose proof (groups_nonempty _ _ _ E). destruct gs; [done|]. cbn. by rewrite <- app_assoc.
Qed.

Lemma parseAndExpr_groups ts id :
  alternating ts = true →
  groups ts id = ('(e, ts', id') ← parseAndExpr ts id; gs ← tail_groups ts' id'; Ok (leaves e :: gs)).
Proof.
  intros H. destruct (alternating_inv _ H) as (v & rest & -> & Hr).
  unfold parseAndExpr. rewrite parseAtom_cases. cbn [groups].
  destruct (ParseCondition v) as [c|m]; [|done]. cbn [mbind result_bind].
  rewrite (and_loop_groups (length rest)) by done.
  destruct rest as [|[|[]] rest]; try done; cbn; by destruct (groups rest _) as [[]|].
Qed.

(** A conjunction evaluates all its leaves. *)
Lemma and_loop_eval fuel lhs ts id e ts' id' ctx :
  and_loop fuel lhs ts id = Ok (e, ts', id') →
  (Eval_ lhs ctx = forallb (fun l => leaf_eval l ctx) (leaves lhs)) →
  Eval_ e ctx = forallb (fun l => leaf_eval l ctx) (leaves e).
Proof.
  revert lhs ts id. induction fuel as [|fuel IH]; intros lhs ts id H Hl; cbn in H.
  { destruct ts as [|[|[]]]; by simplify_eq. }
  destruct ts as [|[v|[|]] ts]; simplify_eq; try done. res_inv. destruct a as [[rhs r] i].
  apply IH in H; [done|]. cbn. rewrite forallb_app, Hl. f_equal.
  destruct ts as [|[v|] ts]; try done. rewrite parseAtom_cases in Ha.
  destruct (ParseCondition v); simplify_eq. cbn. by rewrite andb_true_r.
Qed.

Lemma parseAndExpr_eval ts id e ts' id' ctx :
  parseAndExpr ts id = Ok (e, ts', id') →
  Eval_ e ctx = forallb (fun l => leaf_eval l ctx) (leaves e).
Proof.
  unfold parseAndExpr. intros H. res_inv. destruct a as [[l r] i].
  eapply and_loop_eval; [done|]. destruct ts as [|[v|] ts]; try done.
  rewrite parseAtom_cases in Ha. destruct (ParseCondition v); simplify_eq. cbn. by rewrite andb_true_r.
Qed.

(** A conjunction stops at the end or in front of [OR]. *)
Lemma and_loop_stop n fuel lhs rest id e ts' id' :
  (length rest <= n)%nat → (length rest <= fuel)%nat → tail_ok rest →
  and_loop fuel lhs rest id = Ok (e, ts', id') →
  tail_ok ts' ∧ (length ts' <= length rest)%nat ∧ (∀ ts, ts' ≠ TOp AND :: ts).
Proof.
  revert rest lhs id fuel. induction n as [|n IH]; intros rest lhs id fuel Hn Hf Ht H.
  { destruct rest; cbn in *; [|lia]. destruct fuel; cbn in H; by simplify_eq. }
  destruct rest as [|[v|[|]] ts]; cbn in Ht; [destruct fuel; cbn in H; by simplify_eq|done| |].
  2:{ destruct fuel; cbn in H; simplify_eq; cbn; split_and!; auto; congruence. }
  destruct (alternating_inv _ Ht) as (v & rest & -> & Hr).
  destruct fuel as [|fuel]; cbn in Hf; [lia|]. cbn [and_loop] in H. rewrite parseAtom_cases in H.
  destruct (ParseCondition v) as [c|m]; [|done]. cbn [mbind result_bind] in H. cbn in Hn |- *.
  apply IH in H as (? & ? & ?); try done; try lia. split_and!; [done|lia|done].
Qed.

Lemma parseAndExpr_stop ts id e ts' id' :
  alternating ts = true → parseAndExpr ts id = Ok (e, ts', id') →
  (ts' = [] ∨ ∃ ts'', ts' = TOp OR :: ts'' ∧ alternating ts'' = true) ∧ (length ts' < length ts)%nat.
Proof.
  intros Ht H. destruct (alternating_inv _ Ht) as (v & rest & -> & Hr).
  unfold parseAndExpr in H. rewrite parseAtom_cases in H. destruct (ParseCondition v) as [c|]; [|done].
  cbn [mbind result_bind] in H. apply (and_loop_stop (length rest)) in H as (H1 & H2 & H3); try done.
  split; [|cbn; lia]. destruct ts' as [|[|[]] ts']; cbn in *; try done; [auto|by destruct (H3 ts')|eauto].
Qed.

Lemma or_loop_groups n rest lhs id fuel :
  (length rest <= n)%nat → (length rest <= fuel)%nat → tail_ok rest → (∀ ts, rest ≠ TOp AND :: ts) →
  match or_loop fuel lhs rest id, tail_groups rest id with
  | Ok (e, r, _), Ok gs =>
      r = [] ∧ leaves e = (leaves lhs ++ concat gs)%list ∧ ∀ ctx, Eval_ e ctx = Eval_ lhs ctx || groups_eval gs ctx
  | Err _, Err _ => True
  | _, _ => False
  end.
Proof.
  revert rest lhs id fuel. induction n as [|n IH]; intros rest lhs id fuel Hn Hf Ht Hno.
  { destruct rest; cbn in *; [|lia]. destruct fuel; cbn; rewrite app_nil_r; split_and!; try done;
      intros; by rewrite orb_false_r. }
  destruct rest as [|[v|[|]] ts]; cbn in Ht; [|done|by destruct (Hno ts)|].
  { destruct fuel; cbn; rewrite app_nil_r; split_and!; try done; intros; by rewrite orb_false_r. }
  destruct fuel as [|fuel]; cbn in Hf; [lia|]. cbn [or_loop tail_groups]. rewrite parseAndExpr_groups by done.
  destruct (parseAndExpr ts id) as [[[rhs ts'] id']|] eqn:E; [|done]. cbn [mbind result_bind].
  destruct (parseAndExpr_stop _ _ _ _ _ Ht E) as [Hstop Hlen]. cbn in Hn.
  assert (tail_ok ts' ∧ ∀ ts, ts' ≠ TOp AND :: ts) as [Ht' Hn'].
  { destruct Hstop as [->|(t & -> & ?)]; split; try done; congruence. }
  specialize (IH ts' (Compound OR lhs rhs) id' fuel ltac:(lia) ltac:(lia) Ht' Hn').
  destruct (or_loop fuel _ ts' id') as [[[e r] i]|], (tail_groups ts' id') as [gs|]; cbn [mbind result_bind]; try done.
  destruct IH as (-> & Hl & He). split_and!; [done| |].
  - rewrite Hl. cbn. by rewrite <- app_assoc.
  - intros ctx. rewrite He. cbn. rewrite (parseAndExpr_eval _ _ _ _ _ ctx E). symmetry. apply orb_assoc.
Qed.

Lemma parseExpr_groups ts :
  alternating ts = true →
  match parseExpr ts 0, groups ts 0 with
  | Ok (e, r, _), Ok gs => r = [] ∧ leaves e = concat gs ∧ ∀ ctx, Eval_ e ctx = groups_eval gs ctx
  | Err _, Err _ => True
  | _, _ => False
  end.
Proof.
  intros Ht. unfold parseExpr. rewrite parseAndExpr_groups by done.
  destruct (parseAndExpr ts 0) as [[[lhs ts'] id']|] eqn:E; [|done]. cbn [mbind result_bind].
  destruct (parseAndExpr_stop _ _ _ _ _ Ht E) as [Hstop Hlen].
  assert (tail_ok ts' ∧ ∀ ts, ts' ≠ TOp AND :: ts) as [Ht' Hn'].
  { destruct Hstop as [->|(t & -> & ?)]; split; try done; congruence. }
  pose proof (or_loop_groups (length ts') ts' lhs id' (length ts') ltac:(lia) ltac:(lia) Ht' Hn') as H.
  destruct (or_loop _ _ ts' id') as [[[e r] i]|], (tail_groups ts' id') as [gs|]; cbn [mbind result_bind]; try done.
  destruct H as (-> & Hl & He). split_and!; [done|done|].
  intros ctx. rewrite He. cbn. by rewrite (parseAndExpr_eval _ _ _ _ _ ctx E).
Qed.

Definition windowed_leaf (l : leafExpr) : bool := Windowed (leaf_cond l).

(** Leaves numbered from [id] on in order of appearance. *)
Fixpoint numbered (id : Z) (l : list leafExpr) : Prop :=
  match l with
  | [] => True
  | x :: l => if windowed_leaf x then leaf_id x = id ∧ numbered (id + 1) l else leaf_id x = -1 ∧ numbered id l
  end.

Lemma groups_numbered n ts id gs :
  (length ts <= n)%nat → groups ts id = Ok gs → numbered id (concat gs).
Proof.
  revert ts id gs. induction n as [|n IH]; intros ts id gs Hn H; [destruct ts; cbn in *; [done|lia]|].
  destruct ts as [|[v|] ts]; cbn in H; try done. res_inv. cbn in Hn.
  destruct ts as [|[|[]] ts]; cbn in Hn; res_inv.
  - cbn. unfold windowed_leaf. cbn. destruct (Windowed a); naive_solver.
  - cbn. unfold windowed_leaf. cbn. destruct (Windowed a); naive_solver.
  - match goal with Hg : groups ts _ = Ok ?g |- _ => apply IH in Hg; [|lia]; rename Hg into Hnum end.
    match goal with Hm : match ?g with [] => _ | _ => _ end = Ok _ |- _ => destruct g; res_inv end;
      cbn in *; unfold windowed_leaf; cbn; destruct (Windowed a); naive_solver.
  - match goal with Hg : groups ts _ = Ok ?g |- _ => apply IH in Hg; [|lia]; rename Hg into Hnum end.
    cbn. unfold windowed_leaf. cbn. destruct (Windowed a); naive_solver.
Qed.

Lemma Windows_leaves e :
  w_ID <$> Windows e = leaf_id <$> List.filter windowed_leaf (leaves e).
Proof.
  induction e as [l|op l IHl r IHr]; cbn.
  - unfold windowed_leaf. by destruct (Windowed (leaf_cond l)).
  - rewrite List.filter_app, !fmap_app. congruence.
Qed.

Lemma numbered_ids id l :
  numbered id l → leaf_id <$> List.filter windowed_leaf l = seqZ id (Z.of_nat (length (List.filter windowed_leaf l))).
Proof.
  revert id. induction l as [|x l IH]; intros id; cbn; [done|].
  destruct (windowed_leaf x); intros [Hx Hl]; cbn; rewrite IH with (1 := Hl); [|done].
  rewrite Nat2Z.inj_succ, (seqZ_cons id) by lia. rewrite Hx. f_equal. f_equal; lia.
Qed.

Lemma ParseExpression_ids s e :
  ParseExpression s = Ok e → w_ID <$> Windows e = seqZ 0 (Z.of_nat (length (Windows e))).
Proof.
  intros H. unfold ParseExpression in H. res_inv.
  destruct a0 as [[e' r] i]. res_inv.
  pose proof (parseExpr_groups a (tokenize_alternating _ _ Ha)) as Hg. rewrite Ha0 in Hg.
  destruct (groups a 0) as [gs|] eqn:Eg; [|done]. destruct Hg as (-> & Hl & _).
  apply (groups_numbered (length a)) in Eg; [|done]. rewrite <- Hl in Eg. apply numbered_ids in Eg.
  assert (length (Windows e) = length (List.filter windowed_leaf (leaves e))) as ->
    by (rewrite <- (length_fmap w_ID), Windows_leaves, length_fmap; done).
  by rewrite Windows_leaves.
Qed.

(** C24: a numeric condition means the OR of its AND-groups: for every text,
    the parser and the left-to-right grouping of its tokens accept the same
    conditions, in the same leaf order, and the parsed tree evaluates to "some
    group has all its leaves true" in every context. *)
Theorem ParseExpression_or_of_ands s :
  match ParseExpression s, (ts ← tokenize s; groups ts 0) with
  | Ok e, Ok gs => leaves e = concat gs ∧ ∀ ctx, Eval_ e ctx = groups_eval gs ctx
  | Err _, Err _ => True
  | _, _ => False
  end.
Proof.
  unfold ParseExpression. destruct (tokenize s) as [ts|] eqn:E; [|done]. cbn [mbind result_bind].
  pose proof (parseExpr_groups ts (tokenize_alternating _ _ E)) as H.
  destruct (parseExpr ts 0) as [[[e r] i]|], (groups ts 0); cbn [mbind result_bind]; naive_solver.
Qed.

(** The windows of an accepted condition are numbered 0, 1, 2, ... in the
    order [Windows] lists them, so no two windows share an aggregate. *)
Lemma ParseExpression_window_ids s e :
  ParseExpression s = Ok e → w_ID <$> Windows e = seqZ 0 (Z.of_nat (length (Windows e))).
Proof. apply ParseExpression_ids. Qed.

Lemma ParseExpression_window_ids_witness :
  match ParseExpression "max(value) over 5s > 3 AND min(value) over 1h <= 4" with
  | Ok e => w_ID <$> Windows e = [0; 1]
  | Err _ => False
  end.
Proof.
  destruct (ParseExpression "max(value) over 5s > 3 AND min(value) over 1h <= 4") as [e|m] eqn:E.
  - rewrite (ParseExpression_window_ids _ _ E).
    assert (Z.of_nat (length (Windows e)) = 2) as ->; [|reflexivity].
    vm_compute in E. injection E as <-. reflexivity.
  - vm_compute in E. discriminate.
Defined.
