(* ===== verification/Evaluator.v ===== *)
(** * Condition evaluation: [internal/condition/transition.go], [signals.go], [routing.go]

    The state of one entity, the evaluator of one compiled watch, and the
    transition an accepted observation makes.  A parsed message template is its
    behaviour: the pieces of text it writes and the error that stops it, if
    any; parsing a template is a parameter of [New]. *)
From S2P Require Import Prelude GoText GoFloat GoTime GoJson Sha256 Watch Numeric.

(** ** Data *)

Record Sample := { sm_At : time; sm_Value : float64; sm_Sequence : Z }.

Record State := mkState {
  WaitingReason : string; BaselineSequence : Z; IncidentEvent : string; HealthEvent : string;
  FreshSequence : Z; MissingAt : time; Entity : string; Open : bool; Matches : Z; Recoveries : Z;
  LastAt : time; LastFired : time; LastSequence : Z; SourceUnhealthy : bool; Samples : list Sample;
  OverflowUntil : time; ClockWindowUntil : time; Evidence : list Z; Baseline : string;
  Seen : gmap string time }.

#[global] Instance eta_State : Eta State := fun s =>
  mkState (WaitingReason s) (BaselineSequence s) (IncidentEvent s) (HealthEvent s) (FreshSequence s)
    (MissingAt s) (Entity s) (Open s) (Matches s) (Recoveries s) (LastAt s) (LastFired s) (LastSequence s)
    (SourceUnhealthy s) (Samples s) (OverflowUntil s) (ClockWindowUntil s) (Evidence s) (Baseline s) (Seen s).

#[global] Instance upd_WaitingReason : FieldUpdate WaitingReason. Proof. field_update. Defined.
#[global] Instance upd_BaselineSequence : FieldUpdate BaselineSequence. Proof. field_update. Defined.
#[global] Instance upd_IncidentEvent : FieldUpdate IncidentEvent. Proof. field_update. Defined.
#[global] Instance upd_HealthEvent : FieldUpdate HealthEvent. Proof. field_update. Defined.
#[global] Instance upd_FreshSequence : FieldUpdate FreshSequence. Proof. field_update. Defined.
#[global] Instance upd_MissingAt : FieldUpdate MissingAt. Proof. field_update. Defined.
#[global] Instance upd_Entity : FieldUpdate Entity. Proof. field_update. Defined.
#[global] Instance upd_Open : FieldUpdate Open. Proof. field_update. Defined.
#[global] Instance upd_Matches : FieldUpdate Matches. Proof. field_update. Defined.
#[global] Instance upd_Recoveries : FieldUpdate Recoveries. Proof. field_update. Defined.
#[global] Instance upd_LastAt : FieldUpdate LastAt. Proof. field_update. Defined.
#[global] Instance upd_LastFired : FieldUpdate LastFired. Proof. field_update. Defined.
#[global] Instance upd_LastSequence : FieldUpdate LastSequence. Proof. field_update. Defined.
#[global] Instance upd_SourceUnhealthy : FieldUpdate SourceUnhealthy. Proof. field_update. Defined.
#[global] Instance upd_Samples : FieldUpdate Samples. Proof. field_update. Defined.
#[global] Instance upd_OverflowUntil : FieldUpdate OverflowUntil. Proof. field_update. Defined.
#[global] Instance upd_ClockWindowUntil : FieldUpdate ClockWindowUntil. Proof. field_update. Defined.
#[global] Instance upd_Evidence : FieldUpdate Evidence. Proof. field_update. Defined.
#[global] Instance upd_Baseline : FieldUpdate Baseline. Proof. field_update. Defined.
#[global] Instance upd_Seen : FieldUpdate Seen. Proof. field_update. Defined.

(** The zero value of the struct, with an entity. *)
Definition empty_state (entity : string) : State :=
  mkState "" 0 "" "" 0 zero_time entity false 0 0 zero_time zero_time 0 false [] zero_time zero_time [] "" ∅.

Record Transition := {
  tr_State : State; tr_Events : list Event; Known : bool; Matched : bool; Reason : string }.

(** Data of a message template, and what executing one does. *)
Record MessageContext := {
  mc_Watch : string; mc_Name : string; mc_Type : string; mc_Value : value; mc_Fields : fields }.
Abbreviation template := (MessageContext → list string * option string).

Record Evaluator := {
  e_definition : Definition_; e_revision : string; e_expression : option ConditionExpr;
  e_maxWindow : duration; e_interval : duration; e_maxGap : duration; e_message : template }.

Definition condition_of (d : Definition_) : Condition := sp_Condition (d_Spec d).
Definition policy_of (d : Definition_) : Policy := sp_Policy (d_Spec d).
Definition limits_of (d : Definition_) : Limits := sp_Limits (d_Spec d).
Definition econd (e : Evaluator) : Condition := condition_of (e_definition e).
Definition epolicy (e : Evaluator) : Policy := policy_of (e_definition e).
Definition elimits (e : Evaluator) : Limits := limits_of (e_definition e).

Definition signal_operator (op : string) : bool := (op ≟ "changed") || (op ≟ "new-event").

(** [d, _ := time.ParseDuration(s)] *)
Definition duration_or_zero (s : string) : duration :=
  match ParseDuration s with Ok d => d | Err _ => 0 end.

(** ** [New] *)

Fixpoint max_window (ws : list WindowLeaf) (acc : duration) : result duration :=
  match ws with
  | [] => Ok acc
  | w :: ws =>
      fail_if (w_RunBounded w) "run windows unsupported" ;;
      max_window ws (if acc <? w_Window w then w_Window w else acc)
  end.

Definition New (parse_template : string → result template) (def : Definition_) (revision : string) : result Evaluator :=
  copied ← match copy_definition def with Some d => Ok d | None => Err "json: unsupported value" end;
  let c := condition_of def in
  let p := policy_of def in
  fail_if (signal_operator (c_Operator c) &&
           (negb (c_Value c ≟ VNil) || negb (c_Numeric c ≟ "") || negb (c_MissingFor c ≟ "")
            || negb (p_Trigger p ≟ "level") || negb (p_Consecutive p =? 1)))
    "change/event condition must be compiled before evaluation" ;;
  fail_if ((p_Consecutive p <? 1) || (p_RecoverAfter p <? 1) || (l_MaxSamples (limits_of def) <? 1))
    "definition must be compiled before evaluation" ;;
  '(expr, maxw) ← (if c_Numeric c ≟ "" then Ok (None, 0)
                   else x ← ParseExpression (c_Numeric c);
                        m ← max_window (Windows x) 0;
                        Ok (Some x, m));
  message ← parse_template (sp_Message (d_Spec def));
  Ok {| e_definition := copied; e_revision := revision; e_expression := expr; e_maxWindow := maxw;
        e_interval := duration_or_zero (p_Interval p); e_maxGap := duration_or_zero (p_MaxGap p);
        e_message := message |}.

(** ** Comparison of values *)

(** [Number]: a finite float64 *)
Definition Number (v : value) : option float64 :=
  match v with
  | VFloat f => if is_finite f then Some f else None
  | VInt z | VInt64 z => Some (of_int z)
  | _ => None
  end.

Definition compare_op (op : string) : option string :=
  if op ≟ "eq" then Some "==" else if op ≟ "ne" then Some "!="
  else if op ≟ "gt" then Some ">" else if op ≟ "gte" then Some ">="
  else if op ≟ "lt" then Some "<" else if op ≟ "lte" then Some "<=" else None.

(** [Compare]: known, matched. *)
Definition Compare (actual : value) (op : string) (want : value) : bool * bool :=
  match Number want with
  | Some expected =>
      match Number actual with
      | None => (false, false)
      | Some n =>
          match compare_op op with
          | None => (false, false)
          | Some operator => (true, CompareNumber n operator expected)
          end
      end
  | None =>
      if negb (op ≟ "eq") && negb (op ≟ "ne") then (false, false)
      else if negb (want ≟ VNil) && negb (TypeOf actual ≟ TypeOf want) then (false, false)
      else let equal := DeepEqual actual want in
           (true, if op ≟ "ne" then negb equal else equal)
  end.

Definition nan : float64 := S754_nan.

Definition Aggregate (function : string) (values : list float64) : float64 :=
  match values with
  | [] => nan
  | v :: vs =>
      if function ≟ "count" then of_int (Z.of_nat (length values))
      else if (function ≟ "avg") || (function ≟ "sum") then
        let r := fold_left fadd vs v in
        if function ≟ "avg" then fdiv r (of_int (Z.of_nat (length values))) else r
      else if function ≟ "min" then fold_left math_Min vs v
      else if function ≟ "max" then fold_left math_Max vs v
      else nan
  end.

(** ** Messages *)

Definition message_limit : Z := 64 * 1024.

(** Writes through [messageWriter]: the text so far is bounded. *)
Fixpoint write_all (chunks : list string) (buf : string) : result string :=
  match chunks with
  | [] => Ok buf
  | p :: chunks =>
      fail_if (message_limit <? len buf + len p) "rendered message exceeds limit" ;;
      write_all chunks (buf ++ p)
  end.

Definition render (e : Evaluator) (kind : string) (o : Observation) : result string :=
  let md := d_Metadata (e_definition e) in
  let context := {| mc_Watch := md_ID md; mc_Name := md_Name md; mc_Type := kind;
                    mc_Value := default VNil (o_Fields o !! c_Field (econd e)); mc_Fields := o_Fields o |} in
  let '(chunks, err) := e_message e context in
  match write_all chunks "", err with
  | Ok buf, None => fail_if (message_limit <? len buf) "rendered message exceeds limit" ;; Ok buf
  | _, _ => Err "message template execution failed"
  end.

Definition templated (kind : string) : bool :=
  bool_decide (kind ∈ ["firing"; "recovered"; "changed"; "new-event"]).

(** ** Events *)

Definition add_once (l : list Z) (seq : Z) : list Z := if bool_decide (seq ∈ l) then l else (l ++ [seq])%list.

(** The observations an event rests on, in increasing order. *)
Definition event_evidence (e : Evaluator) (kind : string) (state : State) (o : Observation) : list Z :=
  let decisive := (kind ≟ "firing") || (kind ≟ "recovered") in
  let ev := if decisive && negb (c_MissingFor (econd e) ≟ "") && (0 <? FreshSequence state)
            then add_once [] (FreshSequence state) else [] in
  let ev := if decisive then fold_left add_once (sm_Sequence <$> Samples state) ev else ev in
  let ev := fold_left add_once (Evidence state) ev in
  merge_sort Z.le (add_once ev (o_Sequence o)).

(** The closure [emit] of [Evaluate]. *)
Definition emit (e : Evaluator) (key : string) (o : Observation) (now : time) (state : State)
    (kind reason : string) : result Event :=
  let d := e_definition e in
  let id := event_id (md_ID (d_Metadata d)) (e_revision e) key kind (o_Sequence o) in
  message ← (if negb (sp_Message (d_Spec d) ≟ "") && templated kind then render e kind o else Ok reason);
  fs ← match copy_fields (o_Fields o) with Some fs => Ok fs | None => Err "json: unsupported value" end;
  Ok {| ev_ID := id; ev_Sequence := 0; ev_WatchID := md_ID (d_Metadata d); ev_Revision := e_revision e;
        ev_Entity := key; ev_Type := kind; ev_At := now; ev_Message := message; ev_Fields := fs;
        ev_Evidence := event_evidence e kind state o |}.


Definition clear_counters (state : State) : State :=
  state <| Matches := 0 |> <| Recoveries := 0 |> <| Evidence := [] |>.

(** [source_error], once until the source recovers. *)
Definition source_failure (e : Evaluator) (key : string) (o : Observation) (now : time) (state : State)
    (events : list Event) (reason : string) : result (State * list Event) :=
  if SourceUnhealthy state then Ok (state, events)
  else ev ← emit e key o now state "source_error" reason;
       Ok (state <| SourceUnhealthy := true |> <| HealthEvent := ev_ID ev |>, (events ++ [ev])%list).

(** The closure [unknown]: the incident is held, the counters restart. *)
Definition unknown (e : Evaluator) (key : string) (o : Observation) (now : time) (state : State)
    (events : list Event) (reason : string) : result Transition :=
  '(state, events) ← source_failure e key o now (clear_counters state) events reason;
  let state := state <| LastSequence := o_Sequence o |> in
  let state := if After now (LastAt state) then state <| LastAt := now |> else state in
  Ok {| tr_State := state; tr_Events := events; Known := false; Matched := false; Reason := reason |}.

(** ** Predicates *)

(** The outcome of a predicate: the updated state, known, matched, reason. *)
Record Verdict := { v_State : State; v_Known : bool; v_Matched : bool; v_Reason : string }.
Definition not_known (state : State) (reason : string) : Verdict :=
  {| v_State := state; v_Known := false; v_Matched := false; v_Reason := reason |}.
Definition decided (state : State) (matched : bool) : Verdict :=
  {| v_State := state; v_Known := true; v_Matched := matched; v_Reason := "" |}.

(** [operator: changed]: the value whose JSON text is the baseline. *)
Definition baseline_value (v : value) : option value :=
  match Number v with
  | Some n => Some (VFloat n)
  | None =>
      match v with
      | VNil | VBool _ => Some v
      | VString s => if ValidString s then Some v else None
      | _ => None
      end
  end.

Definition signal_changed (state : State) (v : value) (sequence : Z) : Verdict :=
  match baseline_value v ≫= Marshal with
  | None => not_known state "wrong_field_type"
  | Some encoded =>
      let changed := (0 <? len (Baseline state)) && negb (Baseline state ≟ encoded) in
      let state := state <| Evidence := [] |> in
      let state := if changed && (0 <? BaselineSequence state)
                   then state <| Evidence := [BaselineSequence state] |> else state in
      decided (state <| Baseline := encoded |> <| BaselineSequence := sequence |>) changed
  end.

(** Entries of the seen-set that have not expired at an instant. *)
Definition live (now : time) (seen : gmap string time) : gmap string time :=
  filter (fun kv : string * time => Before now (snd kv)) seen.

Definition event_identity (v : value) : option string :=
  match v with
  | VString id => if (id ≟ "") || (256 <? len id) || negb (ValidString id) then None else Some id
  | _ => None
  end.

Definition signal_new_event (e : Evaluator) (state : State) (v : value) (now : time) : Verdict :=
  match event_identity v with
  | None => not_known state "event_id_must_be_a_nonempty_string_up_to_256_bytes"
  | Some id =>
      let state := state <| Seen := live now (Seen state) |> in
      if match Seen state !! id with Some expiry => Before now expiry | None => false end
      then decided state false
      else if l_MaxSamples (elimits e) <=? Z.of_nat (size (Seen state))
      then not_known state "dedup_budget"
      else decided (state <| Seen := <[id := Add now (duration_or_zero (c_DedupFor (econd e)))]> (Seen state) |>) true
  end.

Definition signal (e : Evaluator) (state : State) (v : value) (sequence : Z) (now : time) : Verdict :=
  if c_Operator (econd e) ≟ "changed" then signal_changed state v sequence
  else signal_new_event e state v now.

(** The absence condition: a fresh observation moves the deadline, a timer
    compares the accepted time with it. *)
Definition predicate_missing (e : Evaluator) (state : State) (o : Observation) (now : time) : Verdict :=
  if o_Health o ≟ "timer" then
    let state := match o_Deadline o with
                 | Some d => if IsZero (MissingAt state) then state <| MissingAt := d |> else state
                 | None => state
                 end in
    if IsZero (MissingAt state) then not_known state "missing_deadline"
    else if match o_Deadline o with Some d => negb (MissingAt state =? d) | None => false end
    then not_known state "stale_deadline"
    else decided state (negb (Before now (MissingAt state)))
  else
    decided (state <| MissingAt := Add now (duration_or_zero (c_MissingFor (econd e))) |>
                   <| FreshSequence := o_Sequence o |>) false.

(** Samples of the half-open interval (now - w, now]. *)
Definition in_window (now : time) (w : duration) (s : Sample) : bool :=
  After (sm_At s) (Add now (- w)) && negb (After (sm_At s) now).
Definition window_samples (now : time) (w : duration) (l : list Sample) : list Sample :=
  filter (fun s => in_window now w s = true) l.

(** The loop over the windows of the expression. *)
Fixpoint aggregate_windows (ws : list WindowLeaf) (samples : list Sample) (now : time) (ctx : Context_)
    : Context_ + string :=
  match ws with
  | [] => inl ctx
  | leaf :: ws =>
      let values := sm_Value <$> window_samples now (w_Window leaf) samples in
      if (length values =? 0)%nat then inr "empty_window"
      else let aggregate := Aggregate (w_Func leaf) values in
           if IsInf aggregate || IsNaN aggregate then inr "numeric_overflow"
           else aggregate_windows ws samples now
                  {| ctx_Value := ctx_Value ctx;
                     ctx_Aggregates := <[w_ID leaf := aggregate]> (ctx_Aggregates ctx);
                     ctx_Available := <[w_ID leaf := true]> (ctx_Available ctx) |}
  end.

Definition predicate_numeric (e : Evaluator) (expr : ConditionExpr) (state : State) (v : value)
    (o : Observation) (now : time) : Verdict :=
  match Number v with
  | None => not_known state "wrong_field_type"
  | Some number =>
      let state := state <| Samples := window_samples now (e_maxWindow e) (Samples state) |> in
      if (0 <? e_maxWindow e) && (l_MaxSamples (elimits e) <=? Z.of_nat (length (Samples state)))
      then let until := Add now (e_maxWindow e) in
           not_known (if After until (OverflowUntil state) then state <| OverflowUntil := until |> else state)
             "window_sample_budget"
      else
        let state := if 0 <? e_maxWindow e
                     then state <| Samples := (Samples state ++
                            [{| sm_At := now; sm_Value := number; sm_Sequence := o_Sequence o |}])%list |>
                     else state in
        if Before now (ClockWindowUntil state) then not_known state "clock_window_incomplete"
        else let state := state <| ClockWindowUntil := zero_time |> in
        if Before now (OverflowUntil state) then not_known state "window_sample_budget"
        else let state := state <| OverflowUntil := zero_time |> in
        match aggregate_windows (Windows expr) (Samples state) now
                {| ctx_Value := number; ctx_Aggregates := ∅; ctx_Available := ∅ |} with
        | inr reason => not_known state reason
        | inl ctx => decided state (Eval_ expr ctx)
        end
  end.

Definition predicate (e : Evaluator) (state : State) (o : Observation) (now : time) : Verdict :=
  let c := econd e in
  if negb (c_MissingFor c ≟ "") then predicate_missing e state o now
  else match o_Fields o !! c_Field c with
       | None => not_known state "missing_field"
       | Some v =>
           if signal_operator (c_Operator c) then signal e state v (o_Sequence o) now
           else match e_expression e with
                | None => let '(known, matched) := Compare v (c_Operator c) (c_Value c) in
                          {| v_State := state; v_Known := known; v_Matched := matched; v_Reason := "wrong_field_type" |}
                | Some expr => predicate_numeric e expr state v o now
                end
       end.

(** ** Evaluation *)

(** The guards of [Evaluate] and the entity the observation is for. *)
Definition admission (e : Evaluator) (previous : State) (o : Observation) (now : time) : result (string * State) :=
  let state := previous <| WaitingReason := "" |> in
  fail_if (IsZero now || (o_Sequence o <? 1) || negb (now =? o_AcceptedAt o))
    "accepted time and positive sequence are required" ;;
  fail_if (o_Sequence o <=? LastSequence state) "observation sequence must increase" ;;
  key ← EntityKey (sp_GroupBy (d_Spec (e_definition e))) (o_Fields o);
  let key := if (o_Health o ≟ "timer") && negb (o_Entity o ≟ "") then o_Entity o else key in
  fail_if (negb (Entity state ≟ "") && ((o_Health o ≟ "ok") && negb (Entity state ≟ key)))
    "observation belongs to another entity" ;;
  let key := if negb (Entity state ≟ "") then Entity state else key in
  Ok (key, state <| Entity := key |>).

(** The state from which a clock discontinuity is reported. *)
Definition clock_state (e : Evaluator) (state : State) (now : time) : State :=
  let c := econd e in
  let state := state <| Samples := [] |> <| OverflowUntil := zero_time |> in
  let state := if 0 <? e_maxWindow e then state <| ClockWindowUntil := Add now (e_maxWindow e) |> else state in
  let state := if negb (IsZero (LastFired state)) then state <| LastFired := now |> else state in
  let state :=
    if negb (c_MissingFor c ≟ "")
    then state <| MissingAt := Add now (duration_or_zero (c_MissingFor c)) |> <| FreshSequence := 0 |>
    else if c_Operator c ≟ "new-event"
    then state <| Seen := (fun _ => Add now (duration_or_zero (c_DedupFor c))) <$> live (LastAt state) (Seen state) |>
    else state in
  state <| LastAt := now |>.

(** Every field of [spec.match] is present and equal. *)
Definition match_fields (e : Evaluator) (o : Observation) : bool :=
  forallb (fun kv : string * value =>
             match o_Fields o !! fst kv with
             | None => false
             | Some actual => let '(known, matched) := Compare actual "eq" (snd kv) in known && matched
             end) (map_to_list (sp_Match (d_Spec (e_definition e)))).

Definition finish (o : Observation) (now : time) (state : State) (events : list Event) (matched : bool) : Transition :=
  {| tr_State := state <| LastAt := now |> <| LastSequence := o_Sequence o |>; tr_Events := events;
     Known := true; Matched := matched; Reason := "" |}.

Definition cooled_down (e : Evaluator) (state : State) (now : time) : bool :=
  IsZero (LastFired state) || negb (Before now (Add (LastFired state) (e_interval e))).

(** Change and event operators: one event per match outside the cooldown. *)
Definition signal_step (e : Evaluator) (key : string) (o : Observation) (now : time) (state : State)
    (events : list Event) (matched : bool) : result Transition :=
  let operator := c_Operator (econd e) in
  '(state, events) ←
     (if matched && cooled_down e state now
      then ev ← emit e key o now state operator ("condition_" ++ operator);
           Ok (state <| LastFired := now |>, (events ++ [ev])%list)
      else Ok (state, events));
  Ok (finish o now (state <| Evidence := [] |>) events matched).

(** A matching sample: counted up to [Consecutive]. *)
Definition count_match (e : Evaluator) (o : Observation) (state : State) : State :=
  let state := state <| Recoveries := 0 |> in
  if Matches state <? p_Consecutive (epolicy e)
  then state <| Matches := wrap64 (Matches state + 1) |>
             <| Evidence := (Evidence state ++ [o_Sequence o])%list |>
  else state.

Definition eligible (e : Evaluator) (state : State) (now : time) : bool :=
  if p_Trigger (epolicy e) ≟ "level" then cooled_down e state now else negb (Open state).

(** Enough matches: the incident is open, and fires when eligible. *)
Definition fire (e : Evaluator) (key : string) (o : Observation) (now : time) (state : State)
    (events : list Event) : result (State * list Event) :=
  if p_Consecutive (epolicy e) <=? Matches state then
    '(state, events) ←
      (if eligible e state now
       then ev ← emit e key o now state "firing" "condition_matched";
            Ok (state <| LastFired := now |> <| IncidentEvent := ev_ID ev |>, (events ++ [ev])%list)
       else Ok (state, events));
    Ok (state <| Open := true |>, events)
  else Ok (state, events).

Definition matched_step (e : Evaluator) (key : string) (o : Observation) (now : time) (state : State)
    (events : list Event) : result Transition :=
  '(state, events) ← fire e key o now (count_match e o state) events;
  Ok (finish o now state events true).

(** A sample that does not match, while the incident is open. *)
Definition count_recovery (o : Observation) (state : State) : State :=
  let state := if Recoveries state =? 0 then state <| Evidence := [] |> else state in
  state <| Recoveries := wrap64 (Recoveries state + 1) |>
        <| Evidence := (Evidence state ++ [o_Sequence o])%list |>.

Definition recover (e : Evaluator) (key : string) (o : Observation) (now : time) (state : State)
    (events : list Event) : result (State * list Event) :=
  if p_RecoverAfter (epolicy e) <=? Recoveries state then
    ev ← emit e key o now state "recovered" "condition_recovered";
    Ok (state <| Open := false |> <| IncidentEvent := "" |> <| Recoveries := 0 |> <| Evidence := [] |>,
        (events ++ [ev])%list)
  else Ok (state, events).

Definition unmatched_step (e : Evaluator) (key : string) (o : Observation) (now : time) (state : State)
    (events : list Event) : result Transition :=
  let state := state <| Matches := 0 |> in
  '(state, events) ←
     (if Open state then recover e key o now (count_recovery o state) events
      else Ok (state <| Recoveries := 0 |> <| Evidence := [] |>, events));
  Ok (finish o now state events false).

(** The branch that ends without an application decision. *)
Definition observed (o : Observation) (now : time) (state : State) (events : list Event) (reason : string) : Transition :=
  {| tr_State := state <| LastAt := now |> <| LastSequence := o_Sequence o |>; tr_Events := events;
     Known := false; Matched := false; Reason := reason |}.

(** Sampling gap: the counters restart and the gap is reported. *)
Definition gap_events (e : Evaluator) (key : string) (o : Observation) (now : time) (state : State)
    : result (State * list Event) :=
  if (c_MissingFor (econd e) ≟ "") && negb (IsZero (LastAt state)) && (0 <? e_maxGap e)
     && (e_maxGap e <? Sub now (LastAt state))
  then let state := clear_counters state in
       ev ← emit e key o now state "gap" "sampling_gap"; Ok (state, [ev])
  else Ok (state, []).

(** [source_recovered] when the source was unhealthy. *)
Definition source_recovery (e : Evaluator) (key : string) (o : Observation) (now : time) (state : State)
    (events : list Event) (healthy : bool) : result (State * list Event) :=
  if SourceUnhealthy state && healthy
  then ev ← emit e key o now state "source_recovered" "source_recovered";
       Ok (state <| SourceUnhealthy := false |> <| HealthEvent := "" |>, (events ++ [ev])%list)
  else Ok (state, events).

(** A connected collector without enough records. *)
Definition waiting_step (e : Evaluator) (key : string) (o : Observation) (now : time) (state : State)
    (events : list Event) : result Transition :=
  let state := (clear_counters state) <| WaitingReason := DetailOrDefault o |>
                 <| LastAt := now |> <| LastSequence := o_Sequence o |> in
  '(state, events) ← source_recovery e key o now state events (negb (o_Detail o ≟ "collection_ended"));
  Ok {| tr_State := state; tr_Events := events; Known := false; Matched := false; Reason := WaitingReason state |}.

(** The application's condition on an admitted observation. *)
Definition decide_step (e : Evaluator) (key : string) (o : Observation) (now : time) (state : State)
    (events : list Event) : result Transition :=
  let v := predicate e state o now in
  if negb (v_Known v) then unknown e key o now (v_State v) events (v_Reason v)
  else
    '(state, events) ← source_recovery e key o now (v_State v) events (negb (o_Health o ≟ "timer"));
    if signal_operator (c_Operator (econd e)) then signal_step e key o now state events (v_Matched v)
    else if v_Matched v then matched_step e key o now state events
    else unmatched_step e key o now state events.

(** An admitted observation whose time does not move backwards. *)
Definition sample_step (e : Evaluator) (key : string) (o : Observation) (now : time) (state : State)
    : result Transition :=
  let missing := negb (c_MissingFor (econd e) ≟ "") in
  '(state, events) ← gap_events e key o now state;
  if (o_Health o ≟ "unchanged") && negb missing then Ok (observed o now state events "unchanged")
  else if (o_Health o ≟ "waiting") && negb missing then waiting_step e key o now state events
  else if negb (o_Health o ≟ "ok") && negb (missing && ((o_Health o ≟ "timer") || (o_Health o ≟ "unchanged")))
  then unknown e key o now state events (DetailOrDefault o)
  else if negb ((o_Health o ≟ "timer") || (o_Health o ≟ "unchanged")) && negb (match_fields e o)
  then Ok (observed o now state events "filtered")
  else decide_step e key o now state events.

Definition gap_step (e : Evaluator) (key : string) (o : Observation) (now : time) (state : State)
    : result Transition :=
  let state := (clear_counters state) <| LastAt := now |> <| LastSequence := o_Sequence o |> in
  ev ← emit e key o now state "gap" "sampling_gap";
  Ok {| tr_State := state; tr_Events := [ev]; Known := false; Matched := false; Reason := "sampling_gap" |}.

Definition Evaluate (e : Evaluator) (previous : State) (o : Observation) (now : time) : result Transition :=
  '(key, state) ← admission e previous o now;
  if o_Health o ≟ "clock" then unknown e key o now (clock_state e state now) [] "clock_discontinuity"
  else if negb (IsZero (LastAt state)) && Before now (LastAt state)
  then unknown e key o now state [] "clock_moved_backwards"
  else if o_Health o ≟ "gap" then gap_step e key o now state
  else sample_step e key o now state.

(** ** Routing: [routing.go] *)

Definition SourceEntity : string := "@source".

(** The entities an observation is evaluated for, and whether the source's own
    pseudo-entity is cleared. *)
Definition Route (e : Evaluator) (existing : list string) (o : Observation) : result (list string * bool) :=
  let groupBy := sp_GroupBy (d_Spec (e_definition e)) in
  let one_key (clear : bool) := key ← EntityKey groupBy (o_Fields o); Ok ([key], clear) in
  if (o_Health o ≟ "timer") && negb (o_Entity o ≟ "") then Ok ([o_Entity o], false)
  else if o_Health o ≟ "ok" then
    if match_fields e o then one_key (bool_decide (SourceEntity ∈ existing)) else Ok ([], false)
  else match existing, groupBy with
       | _ :: _, _ => Ok (sort_strings existing, false)
       | [], _ :: _ => Ok ([SourceEntity], false)
       | [], [] => one_key false
       end.

Definition SourceRecovered (e : Evaluator) (o : Observation) : Event :=
  let id := md_ID (d_Metadata (e_definition e)) in
  {| ev_ID := event_id id (e_revision e) SourceEntity "source_recovered" (o_Sequence o);
     ev_Sequence := 0; ev_WatchID := id; ev_Revision := e_revision e; ev_Entity := SourceEntity;
     ev_Type := "source_recovered"; ev_At := o_AcceptedAt o; ev_Message := "source_recovered";
     ev_Fields := ∅; ev_Evidence := [o_Sequence o] |}.
