(* ===== verification/RecordJson.v ===== *)
(** * JSON of stored records: [watch.Observation], [watch.Event], [condition.State]

    The JSON text of observations and events, and what reading a stored record
    back gives.  [State.Baseline] is a [json.RawMessage] that [json.Marshal]
    wrote, so encoding it again keeps its bytes. *)
From S2P Require Import Prelude GoText GoFloat GoTime GoJson Watch Evaluator.

(** ** Text *)

(** The encoder refuses an instant whose year has not four digits. *)
Definition time_json (t : time) : option string := if json_year t then Some (quote (RFC3339Nano t)) else None.
Definition time_member (k : string) (t : time) : option (list string) := always k <$> time_json t.
Definition time_ref_member (k : string) (t : option time) : option (list string) :=
  match t with None => Some [] | Some t => time_member k t end.
Definition fields_member (k : string) (m : fields) : option (list string) :=
  text ← MarshalFields m; Some (omit_if (size m =? 0)%nat k text).
Definition ints_member (k : string) (l : list Z) : list string :=
  omit_if (length l =? 0)%nat k (array_text (Itoa <$> l)).

Definition observation_json (o : Observation) : option string :=
  deadline ← time_ref_member "deadline" (o_Deadline o);
  accepted ← time_member "acceptedAt" (o_AcceptedAt o);
  observed ← time_ref_member "observedAt" (o_ObservedAt o);
  fs ← fields_member "fields" (o_Fields o);
  Some (object_text (str_member "entity" (o_Entity o) ++ deadline ++ always "sequence" (Itoa (o_Sequence o))
    ++ always "inputId" (quote (o_InputID o)) ++ accepted ++ observed ++ fs ++ always "health" (quote (o_Health o))
    ++ str_member "detail" (o_Detail o))%list).

Definition event_record_json (e : Event) : option string :=
  at_ ← time_member "at" (ev_At e);
  fs ← fields_member "fields" (ev_Fields e);
  Some (object_text (always "id" (quote (ev_ID e)) ++ always "sequence" (Itoa (ev_Sequence e))
    ++ always "watchId" (quote (ev_WatchID e)) ++ always "revision" (quote (ev_Revision e))
    ++ always "entity" (quote (ev_Entity e)) ++ always "type" (quote (ev_Type e)) ++ at_
    ++ always "message" (quote (ev_Message e)) ++ fs ++ ints_member "evidence" (ev_Evidence e))%list).

(** ** Reading back *)

Definition copy_time_ref (t : option time) : option (option time) :=
  match t with None => Some None | Some t => Some <$> copy_time t end.

Definition copy_observation (o : Observation) : option Observation :=
  deadline ← copy_time_ref (o_Deadline o);
  accepted ← copy_time (o_AcceptedAt o);
  observed ← copy_time_ref (o_ObservedAt o);
  fs ← copy_fields (o_Fields o);
  Some {| o_Entity := sanitize (o_Entity o); o_Deadline := deadline; o_Sequence := o_Sequence o;
          o_InputID := sanitize (o_InputID o); o_AcceptedAt := accepted; o_ObservedAt := observed; o_Fields := fs;
          o_Health := sanitize (o_Health o); o_Detail := sanitize (o_Detail o) |}.

Definition copy_event (e : Event) : option Event :=
  at_ ← copy_time (ev_At e);
  fs ← copy_fields (ev_Fields e);
  Some {| ev_ID := sanitize (ev_ID e); ev_Sequence := ev_Sequence e; ev_WatchID := sanitize (ev_WatchID e);
          ev_Revision := sanitize (ev_Revision e); ev_Entity := sanitize (ev_Entity e); ev_Type := sanitize (ev_Type e);
          ev_At := at_; ev_Message := sanitize (ev_Message e); ev_Fields := fs; ev_Evidence := ev_Evidence e |}.

Definition copy_sample (s : Sample) : option Sample :=
  at_ ← copy_time (sm_At s);
  if is_finite (sm_Value s) then Some {| sm_At := at_; sm_Value := sm_Value s; sm_Sequence := sm_Sequence s |} else None.

(** Keys are written in order; of two keys with the same text the later counts. *)
Definition copy_seen (m : gmap string time) : option (gmap string time) :=
  (list_to_map ∘ reverse) <$> mapM (fun kv => pair (sanitize (fst kv)) <$> copy_time (snd kv)) (sorted_fields m).

Definition copy_state (s : State) : option State :=
  missing ← copy_time (MissingAt s);
  last ← copy_time (LastAt s);
  fired ← copy_time (LastFired s);
  samples ← mapM copy_sample (Samples s);
  overflow ← copy_time (OverflowUntil s);
  clock ← copy_time (ClockWindowUntil s);
  seen ← copy_seen (Seen s);
  Some (mkState (sanitize (WaitingReason s)) (BaselineSequence s) (sanitize (IncidentEvent s)) (sanitize (HealthEvent s))
          (FreshSequence s) missing (sanitize (Entity s)) (Open s) (Matches s) (Recoveries s) last fired (LastSequence s)
          (SourceUnhealthy s) samples overflow clock (Evidence s) (Baseline s) seen).

(** ** Copies are fixed points *)

Lemma copy_time_ref_idem t u : copy_time_ref t = Some u → copy_time_ref u = Some u.
Proof.
  destruct t as [t|]; cbn; [|by intros [= <-]]. destruct (copy_time t) as [v|] eqn:E; [|done].
  intros [= <-]. cbn. by rewrite (copy_time_idem t v E).
Qed.

Lemma copy_sample_idem s r : copy_sample s = Some r → copy_sample r = Some r.
Proof.
  unfold copy_sample. intros H. destruct (copy_time (sm_At s)) as [t|] eqn:E; [|done]. cbn in H.
  destruct (is_finite (sm_Value s)) eqn:F; [|done]. injection H as <-. cbn.
  rewrite (copy_time_idem _ _ E). cbn. by rewrite F.
Qed.

Lemma mapM_fixed {A : Type} (f : A → option A) l k :
  (∀ x y, f x = Some y → f y = Some y) → mapM f l = Some k → mapM f k = Some k.
Proof.
  intros Hf H%mapM_Some_1. apply mapM_Some_2. induction H; constructor; eauto.
Qed.

Lemma copy_seen_idem m m' : copy_seen m = Some m' → copy_seen m' = Some m'.
Proof.
  apply copied_pairs_fixed. intros [k t] y. cbn. destruct (copy_time t) as [u|] eqn:E; [|done]. intros [= <-]. cbn.
  by rewrite (copy_time_idem _ _ E), sanitize_idem.
Qed.

Ltac copied_parts := repeat match goal with
  | H : (_ ← _; _) = Some _ |- _ => apply bind_Some in H as (? & ? & H)
  | H : Some _ = Some _ |- _ => injection H as <-
  end.

Lemma copy_observation_idem o o' : copy_observation o = Some o' → copy_observation o' = Some o'.
Proof.
  unfold copy_observation. intros H. copied_parts. cbn.
  erewrite !copy_time_ref_idem, copy_time_idem, copy_fields_idem by eassumption. cbn. by rewrite !sanitize_idem.
Qed.

Lemma copy_event_idem e e' : copy_event e = Some e' → copy_event e' = Some e'.
Proof.
  unfold copy_event. intros H. copied_parts. cbn.
  erewrite copy_time_idem, copy_fields_idem by eassumption. cbn. by rewrite !sanitize_idem.
Qed.

Lemma copy_state_idem s s' : copy_state s = Some s' → copy_state s' = Some s'.
Proof.
  unfold copy_state. intros H. copied_parts. cbn.
  erewrite !copy_time_idem, copy_seen_idem by eassumption.
  erewrite (mapM_fixed copy_sample) by eauto using copy_sample_idem. cbn. by rewrite !sanitize_idem.
Qed.
