(* ===== verification/EvaluatorFacts.v ===== *)
(** * Invariants of condition evaluation

    First the micro-steps of an evaluation, then the invariants they preserve.
    [Evaluate] as a sequence of small steps on the working state and the events
    collected so far: the invariants of the evaluator are proved by rule
    induction on this relation. *)

From S2P Require Import Prelude GoText GoFloat GoTime GoJson Sha256 Watch Numeric Evaluator.

#[global] Arguments clock_state : simpl never.
#[global] Arguments count_match : simpl never.
#[global] Arguments count_recovery : simpl never.
#[global] Arguments predicate : simpl never.
#[global] Arguments emit : simpl never.

(** Why a source is reported unhealthy: the observation's own detail, or one of
    the evaluator's diagnostics. *)
Definition reasons : list string :=
  ["clock_discontinuity"; "clock_moved_backwards"; "missing_field"; "wrong_field_type"; "missing_deadline"; "stale_deadline";
   "event_id_must_be_a_nonempty_string_up_to_256_bytes"; "dedup_budget"; "window_sample_budget"; "clock_window_incomplete";
   "empty_window"; "numeric_overflow"].
Definition reason_of (o : Observation) (reason : string) : Prop := reason = DetailOrDefault o ∨ reason ∈ reasons.

Lemma reasons_ok o reason : reason ∈ reasons → reason_of o reason.
Proof. by right. Qed.

Section Micro.
Context (e : Evaluator) (key : string) (o : Observation) (now : time).

Inductive micro : State * list Event → State * list Event → Prop :=
| micro_clear s evs : micro (s, evs) (clear_counters s, evs)
| micro_clock s evs : o_Health o = "clock" → micro (s, evs) (clock_state e s now, evs)
| micro_error s evs ev reason :
    SourceUnhealthy s = false → reason_of o reason → emit e key o now s "source_error" reason = Ok ev →
    micro (s, evs) (s <| SourceUnhealthy := true |> <| HealthEvent := ev_ID ev |>, (evs ++ [ev])%list)
| micro_healthy s evs ev :
    SourceUnhealthy s = true → emit e key o now s "source_recovered" "source_recovered" = Ok ev →
    micro (s, evs) (s <| SourceUnhealthy := false |> <| HealthEvent := "" |>, (evs ++ [ev])%list)
| micro_gap s evs ev :
    emit e key o now s "gap" "sampling_gap" = Ok ev → micro (s, evs) (s, (evs ++ [ev])%list)
| micro_waiting s evs reason : micro (s, evs) (s <| WaitingReason := reason |>, evs)
| micro_predicate s evs : micro (s, evs) (v_State (predicate e s o now), evs)
| micro_signal s evs ev :
    signal_operator (c_Operator (econd e)) = true → cooled_down e s now = true →
    emit e key o now s (c_Operator (econd e)) ("condition_" ++ c_Operator (econd e)) = Ok ev →
    micro (s, evs) (s <| LastFired := now |>, (evs ++ [ev])%list)
| micro_settled s evs : micro (s, evs) (s <| Evidence := [] |>, evs)
| micro_match s evs : micro (s, evs) (count_match e o s, evs)
| micro_fire s evs ev :
    p_Consecutive (epolicy e) <= Matches s → eligible e s now = true →
    emit e key o now s "firing" "condition_matched" = Ok ev →
    micro (s, evs) (s <| LastFired := now |> <| IncidentEvent := ev_ID ev |> <| Open := true |>, (evs ++ [ev])%list)
| micro_hold s evs :
    p_Consecutive (epolicy e) <= Matches s → eligible e s now = false →
    micro (s, evs) (s <| Open := true |>, evs)
| micro_quiet s evs : Open s = false →
    micro (s, evs) (s <| Matches := 0 |> <| Recoveries := 0 |> <| Evidence := [] |>, evs)
| micro_recovery s evs : Open s = true →
    Recoveries (count_recovery o (s <| Matches := 0 |>)) < p_RecoverAfter (epolicy e) →
    micro (s, evs) (count_recovery o (s <| Matches := 0 |>), evs)
| micro_recover s evs ev :
    Open s = true → p_RecoverAfter (epolicy e) <= Recoveries (count_recovery o (s <| Matches := 0 |>)) →
    emit e key o now (count_recovery o (s <| Matches := 0 |>)) "recovered" "condition_recovered" = Ok ev →
    micro (s, evs) ((count_recovery o (s <| Matches := 0 |>)) <| Open := false |> <| IncidentEvent := "" |>
                      <| Recoveries := 0 |> <| Evidence := [] |>, (evs ++ [ev])%list)
| micro_time s evs : LastAt s <= now ∨ LastAt s = zero_time → micro (s, evs) (s <| LastAt := now |>, evs)
| micro_commit s evs : micro (s, evs) (s <| LastSequence := o_Sequence o |>, evs).

Abbreviation steps := (rtc micro).

(** Where time does not move backwards. *)
Definition forward (s : State) : Prop := LastAt s <= now ∨ LastAt s = zero_time.

Lemma source_failure_steps s evs reason s' evs' :
  reason_of o reason → source_failure e key o now s evs reason = Ok (s', evs') → steps (s, evs) (s', evs') ∧ LastAt s' = LastAt s.
Proof.
  intros Hr. unfold source_failure. destruct (SourceUnhealthy s) eqn:Hu; intros H; res_inv; [done|].
  split; [|done]. by eapply rtc_once, micro_error.
Qed.

Lemma source_recovery_steps s evs healthy s' evs' :
  source_recovery e key o now s evs healthy = Ok (s', evs') → steps (s, evs) (s', evs') ∧ LastAt s' = LastAt s.
Proof.
  unfold source_recovery. destruct (SourceUnhealthy s) eqn:Hu, healthy; cbn; intros H; res_inv; try done.
  split; [|done]. by eapply rtc_once, micro_healthy.
Qed.

Lemma unknown_steps s evs reason tr :
  reason_of o reason → unknown e key o now s evs reason = Ok tr → steps (s, evs) (tr_State tr, tr_Events tr).
Proof.
  intros Hr. unfold unknown. intros H. res_inv. destruct a as [s' evs']. res_inv. cbn [tr_State tr_Events].
  apply (source_failure_steps _ _ _ _ _ Hr) in Ha as [Hs Hl].
  eapply rtc_l; [apply micro_clear|]. etrans; [exact Hs|].
  eapply rtc_l; [apply micro_commit|]. unfold After. case_match; bools; [|done].
  apply rtc_once, micro_time. left. cbn in *. lia.
Qed.

Lemma finish_steps s evs matched :
  forward s → steps (s, evs) (tr_State (finish o now s evs matched), tr_Events (finish o now s evs matched)).
Proof. intros F. eapply rtc_l; [by apply micro_time|]. apply rtc_once, micro_commit. Qed.

Lemma observed_steps s evs reason :
  forward s → steps (s, evs) (tr_State (observed o now s evs reason), tr_Events (observed o now s evs reason)).
Proof. intros F. eapply rtc_l; [by apply micro_time|]. apply rtc_once, micro_commit. Qed.

Lemma signal_step_steps s evs matched tr :
  signal_operator (c_Operator (econd e)) = true → forward s →
  signal_step e key o now s evs matched = Ok tr → steps (s, evs) (tr_State tr, tr_Events tr).
Proof.
  intros Hop F. unfold signal_step. intros H. res_inv. destruct a as [s' evs']. res_inv.
  destruct (matched && cooled_down e s now) eqn:Hm; res_inv; bools.
  - eapply rtc_l; [by eapply micro_signal|]. eapply rtc_l; [apply micro_settled|]. by apply finish_steps.
  - eapply rtc_l; [apply micro_settled|]. by apply finish_steps.
Qed.

Lemma count_match_LastAt s : LastAt (count_match e o s) = LastAt s.
Proof. unfold count_match. by case_match. Qed.
Lemma count_recovery_LastAt s : LastAt (count_recovery o s) = LastAt s.
Proof. unfold count_recovery. by case_match. Qed.

Lemma fire_steps s evs s' evs' :
  fire e key o now s evs = Ok (s', evs') → steps (s, evs) (s', evs') ∧ LastAt s' = LastAt s.
Proof.
  unfold fire. destruct (Z.leb_spec (p_Consecutive (epolicy e)) (Matches s)); [|by intros; res_inv].
  destruct (eligible e s now) eqn:He; intros H'; res_inv; split; try done.
  - by eapply rtc_once, micro_fire.
  - by eapply rtc_once, micro_hold.
Qed.

Lemma matched_step_steps s evs tr :
  forward s → matched_step e key o now s evs = Ok tr → steps (s, evs) (tr_State tr, tr_Events tr).
Proof.
  intros F. unfold matched_step. intros H. res_inv. destruct a as [s' evs']. res_inv.
  apply fire_steps in Ha as [Hs Hl]. rewrite count_match_LastAt in Hl.
  eapply rtc_l; [apply micro_match|]. etrans; [exact Hs|]. apply finish_steps. unfold forward. by rewrite Hl.
Qed.

Lemma recover_steps s evs s' evs' : Open s = true →
  recover e key o now (count_recovery o (s <| Matches := 0 |>)) evs = Ok (s', evs') → steps (s, evs) (s', evs') ∧ LastAt s' = LastAt s.
Proof.
  intros Ho. unfold recover.
  destruct (Z.leb_spec (p_RecoverAfter (epolicy e)) (Recoveries (count_recovery o (s <| Matches := 0 |>)))); intros H'; res_inv.
  - split; [|exact (count_recovery_LastAt (s <| Matches := 0 |>))]. by apply rtc_once, micro_recover.
  - split; [|exact (count_recovery_LastAt (s <| Matches := 0 |>))]. by eapply rtc_once, micro_recovery.
Qed.

Lemma unmatched_step_steps s evs tr :
  forward s → unmatched_step e key o now s evs = Ok tr → steps (s, evs) (tr_State tr, tr_Events tr).
Proof.
  intros F. unfold unmatched_step. intros H. cbn zeta in H. res_inv. destruct a as [s' evs']. res_inv.
  destruct (Open _) eqn:Ho in Ha.
  - apply recover_steps in Ha as [Hs Hl]; [|done]. etrans; [exact Hs|].
    apply finish_steps. unfold forward. by rewrite Hl.
  - res_inv. eapply rtc_l; [by apply micro_quiet|]. by apply finish_steps.
Qed.

(** The fields no predicate touches: incident, health, progress. *)
Definition core (s : State) :=
  (WaitingReason s, IncidentEvent s, HealthEvent s, Entity s, Open s, Matches s, Recoveries s,
   LastAt s, LastFired s, LastSequence s, SourceUnhealthy s).

Lemma predicate_missing_core s : core (v_State (predicate_missing e s o now)) = core s.
Proof.
  unfold predicate_missing. destruct (o_Health o ≟ "timer"); [|done].
  destruct (o_Deadline o) as [d|]; [destruct (IsZero (MissingAt s)) eqn:Hz|]; cbn;
    repeat (case_match; try done).
Qed.

Lemma signal_core s v seq : core (v_State (signal e s v seq now)) = core s.
Proof.
  unfold signal, signal_changed, signal_new_event. destruct (c_Operator (econd e) ≟ "changed").
  - destruct (baseline_value v ≫= Marshal); [|done]. cbn -[Z.ltb len]. by destruct (_ && (0 <? BaselineSequence s)).
  - destruct (event_identity v); [|done]. cbn zeta. repeat (case_match; try done).
Qed.

Lemma predicate_numeric_core expr s v : core (v_State (predicate_numeric e expr s v o now)) = core s.
Proof.
  unfold predicate_numeric. destruct (Number v); [|done]. cbn zeta.
  destruct ((0 <? e_maxWindow e) && _); [by destruct (After _ _)|].
  destruct (0 <? e_maxWindow e); cbn -[aggregate_windows]; do 2 (case_match; [done|]);
    by destruct (aggregate_windows _ _ _ _).
Qed.

Lemma predicate_core s : core (v_State (predicate e s o now)) = core s.
Proof.
  unfold predicate. destruct (negb (c_MissingFor (econd e) ≟ "")); [apply predicate_missing_core|].
  destruct (o_Fields o !! c_Field (econd e)); [|done].
  destruct (signal_operator _); [apply signal_core|].
  destruct (e_expression e); [apply predicate_numeric_core|]. by destruct (Compare _ _ _).
Qed.

Lemma predicate_LastAt s : LastAt (v_State (predicate e s o now)) = LastAt s.
Proof. pose proof (predicate_core s). unfold core in *. congruence. Qed.

Lemma aggregate_windows_reason ws samples ctx reason : aggregate_windows ws samples now ctx = inr reason → reason ∈ reasons.
Proof.
  revert ctx. induction ws as [|w ws IH]; intros ctx; cbn; [done|].
  destruct (_ =? 0)%nat; [intros [= <-]; unfold reasons; set_solver|].
  destruct (_ || _); [intros [= <-]; unfold reasons; set_solver|apply IH].
Qed.

(** A predicate that does not know says why. *)
Lemma predicate_reason s : v_Known (predicate e s o now) = false → v_Reason (predicate e s o now) ∈ reasons.
Proof.
  unfold predicate, signal, signal_changed, signal_new_event, predicate_missing, predicate_numeric, not_known, decided, reasons.
  intros Hk. repeat (case_match; cbn in *; try done); try set_solver.
  all: match goal with H : aggregate_windows _ _ _ _ = inr _ |- _ => apply aggregate_windows_reason in H; by unfold reasons in H end.
Qed.

Lemma decide_step_steps s evs tr :
  forward s → decide_step e key o now s evs = Ok tr → steps (s, evs) (tr_State tr, tr_Events tr).
Proof.
  intros F. unfold decide_step. cbn zeta. eintros H. eapply rtc_l; [apply micro_predicate|].
  destruct (negb (v_Known (predicate e s o now))) eqn:Hk.
  { apply negb_true_iff in Hk. eapply unknown_steps; [|exact H]. by apply reasons_ok, predicate_reason. }
  res_inv. destruct a as [s' evs']. apply source_recovery_steps in Ha as [Hs Hl].
  etrans; [exact Hs|]. assert (forward s') by (unfold forward; by rewrite Hl, predicate_LastAt).
  destruct (signal_operator _) eqn:?; [by eapply signal_step_steps|].
  destruct (v_Matched _); [by eapply matched_step_steps|by eapply unmatched_step_steps].
Qed.

Lemma gap_events_steps s s' evs :
  gap_events e key o now s = Ok (s', evs) → steps (s, []) (s', evs) ∧ LastAt s' = LastAt s.
Proof.
  unfold gap_events. case_match; intros; res_inv; [|done]. split; [|done].
  eapply rtc_l; [apply micro_clear|]. by apply rtc_once, (micro_gap _ []).
Qed.

Lemma waiting_step_steps s evs tr :
  forward s → waiting_step e key o now s evs = Ok tr → steps (s, evs) (tr_State tr, tr_Events tr).
Proof.
  intros F. unfold waiting_step. intros H. res_inv. destruct a as [s' evs']. res_inv.
  apply source_recovery_steps in Ha as [Hs _]. etrans; [|exact Hs].
  eapply rtc_l; [apply micro_clear|]. eapply rtc_l; [apply micro_waiting|].
  eapply rtc_l; [by apply micro_time|]. apply rtc_once, micro_commit.
Qed.

Lemma sample_step_steps s tr :
  forward s → sample_step e key o now s = Ok tr → steps (s, []) (tr_State tr, tr_Events tr).
Proof.
  intros F. unfold sample_step. cbn zeta. intros H. res_inv. destruct a as [s' evs].
  apply gap_events_steps in Ha as [Hs Hl]. etrans; [exact Hs|].
  assert (forward s') by (unfold forward; by rewrite Hl).
  assert (reason_of o (DetailOrDefault o)) by by left.
  repeat case_match; res_inv; eauto using observed_steps, waiting_step_steps, unknown_steps, decide_step_steps.
Qed.

Lemma gap_step_steps s tr :
  forward s → gap_step e key o now s = Ok tr → steps (s, []) (tr_State tr, tr_Events tr).
Proof.
  intros F. unfold gap_step. intros H. res_inv.
  eapply rtc_l; [apply micro_clear|]. eapply rtc_l; [by apply micro_time|].
  eapply rtc_l; [apply micro_commit|]. by apply rtc_once, (micro_gap _ []).
Qed.
End Micro.

Abbreviation steps e key o now := (rtc (micro e key o now)).

(** Every successful evaluation is a sequence of micro-steps from the admitted state. *)
Lemma Evaluate_steps e s o now tr :
  Evaluate e s o now = Ok tr →
  ∃ key st, admission e s o now = Ok (key, st) ∧ steps e key o now (st, []) (tr_State tr, tr_Events tr).
Proof.
  unfold Evaluate. intros H. res_inv. destruct a as [key st]. exists key, st. split; [done|].
  destruct (o_Health o ≟ "clock") eqn:Hc; bools.
  { eapply rtc_l; [by apply micro_clock|]. eapply unknown_steps; [|done]. apply reasons_ok. unfold reasons; set_solver. }
  destruct (negb (IsZero (LastAt st)) && Before now (LastAt st)) eqn:Hb.
  { eapply unknown_steps; [|done]. apply reasons_ok. unfold reasons; set_solver. }
  assert (forward now st).
  { unfold forward, IsZero, Before in *. apply andb_false_iff in Hb as [?|?]; bools; [by right|left; lia]. }
  destruct (o_Health o ≟ "gap"); [by eapply gap_step_steps|by eapply sample_step_steps].
Qed.

Lemma admission_Ok e s o now key st :
  admission e s o now = Ok (key, st) →
  now ≠ zero_time ∧ 1 <= o_Sequence o ∧ o_AcceptedAt o = now ∧ LastSequence s < o_Sequence o ∧
  st = s <| WaitingReason := "" |> <| Entity := key |> ∧ (Entity s ≠ "" → key = Entity s).
Proof.
  unfold admission. intros H. cbn zeta in H. res_inv. bools. cbn in *. repeat split; try done; try lia.
  { unfold IsZero in *. bools. done. }
  intros He. by rewrite bool_decide_false.
Qed.

(** What the closure [emit] builds. *)
Lemma emit_Ok e key o now s kind reason ev :
  emit e key o now s kind reason = Ok ev →
  ev_ID ev = event_id (md_ID (d_Metadata (e_definition e))) (e_revision e) key kind (o_Sequence o) ∧
  ev_WatchID ev = md_ID (d_Metadata (e_definition e)) ∧ ev_Revision ev = e_revision e ∧ ev_Entity ev = key ∧
  ev_Type ev = kind ∧ ev_At ev = now ∧ ev_Evidence ev = event_evidence e kind s o.
Proof. unfold emit. intros H. res_inv. destruct (copy_fields _); res_inv. done. Qed.

(** * Correctness of condition evaluation

    Invariants of the entity state, the incident automaton that [Evaluate]
    refines, the alternation of events over whole runs, and the windows of
    numeric conditions. *)

(** ** Well-formed evaluators *)

Record wf_evaluator (e : Evaluator) : Prop := {
  wf_Consecutive : 1 <= p_Consecutive (epolicy e) <= max_int64;
  wf_RecoverAfter : 1 <= p_RecoverAfter (epolicy e) <= max_int64;
  wf_MaxSamples : 1 <= l_MaxSamples (elimits e) }.

(** The sizes of an entity's state: what is stored per entity is bounded by the
    compiled limits and policy, and refers to accepted sequence numbers up to [q] only. *)
Record bounded (e : Evaluator) (q : Z) (s : State) : Prop := {
  b_Matches : 0 <= Matches s <= p_Consecutive (epolicy e);
  b_Recoveries : 0 <= Recoveries s < p_RecoverAfter (epolicy e);
  b_Recovering : 0 < Recoveries s → Open s = true ∧ Matches s = 0 ∧ Z.of_nat (length (Evidence s)) <= Recoveries s;
  b_Evidence : Z.of_nat (length (Evidence s)) <= p_RecoverAfter (epolicy e) + Matches s;
  b_Samples : Z.of_nat (length (Samples s)) <= l_MaxSamples (elimits e);
  b_Seen : Z.of_nat (size (Seen s)) <= l_MaxSamples (elimits e);
  b_evidence_seq : Forall (fun x => 0 < x <= q) (Evidence s);
  b_sample_seq : Forall (fun x => 0 < sm_Sequence x <= q) (Samples s);
  b_baseline_seq : 0 <= BaselineSequence s <= q;
  b_fresh_seq : 0 <= FreshSequence s <= q }.

Definition state_ok (e : Evaluator) (s : State) : Prop := bounded e (LastSequence s) s.

Lemma bounded_mono e q q' s : q <= q' → bounded e q s → bounded e q' s.
Proof.
  intros Hq [???????? ? ?]. constructor; try done; try lia;
    eapply Forall_impl; try eassumption; cbn; intros; lia.
Qed.

Lemma window_samples_length now w l : (length (window_samples now w l) <= length l)%nat.
Proof. apply length_filter. Qed.

Lemma live_size now m : (size (live now m) <= size m)%nat.
Proof. apply map_subseteq_size, map_filter_subseteq. Qed.

Lemma Forall_window P now w l : Forall P l → Forall P (window_samples now w l).
Proof. rewrite !list.Forall_forall. intros H x [_ ?]%list_elem_of_filter. auto. Qed.

(** Reading one field of a bounded state that other fields determine. *)
Ltac bounded_fields := constructor; cbn in *; try done; try lia.

Section Invariant.
Context (e : Evaluator) (key : string) (o : Observation) (now : time).
Hypothesis Hwf : wf_evaluator e.
Hypothesis Hseq : 1 <= o_Sequence o.
Let q := o_Sequence o.

Lemma clear_counters_bounded s : bounded e q s → bounded e q (clear_counters s).
Proof. destruct Hwf. intros []. bounded_fields. Qed.

Lemma predicate_missing_bounded s : bounded e q s → bounded e q (v_State (predicate_missing e s o now)).
Proof.
  intros []. unfold predicate_missing. repeat case_match; bounded_fields; split; subst q; lia.
Qed.

Lemma baseline_bounded s ev enc :
  bounded e q s → Forall (fun x => 0 < x <= q) ev → (length ev <= 1)%nat →
  bounded e q (s <| Evidence := ev |> <| Baseline := enc |> <| BaselineSequence := q |>).
Proof.
  destruct Hwf. intros [] He Hl. bounded_fields.
  intros Hr. destruct (b_Recovering0 Hr) as (?&?&?). split_and!; [done..|lia].
Qed.

Lemma signal_changed_bounded s v : bounded e q s → bounded e q (v_State (signal_changed s v q)).
Proof.
  intros B. unfold signal_changed. destruct (baseline_value v ≫= Marshal) as [enc|]; [|done].
  cbn zeta. destruct (_ && _) eqn:Hb.
  - bools. apply (baseline_bounded s [BaselineSequence s] enc); [done| |done].
    destruct B. repeat constructor; cbn in *; lia.
  - apply (baseline_bounded s [] enc); [done|constructor|cbn; lia].
Qed.

Lemma signal_new_event_bounded s v : bounded e q s → bounded e q (v_State (signal_new_event e s v now)).
Proof.
  intros []. unfold signal_new_event. destruct (event_identity v) as [id|]; [|done]. cbn zeta.
  pose proof (live_size now (Seen s)).
  case_match; [bounded_fields|].
  destruct (Z.leb_spec (l_MaxSamples (elimits e)) (Z.of_nat (size (Seen (s <| Seen := live now (Seen s) |>))))) as [?|Hroom];
    bounded_fields.
  rewrite map_size_insert. destruct (live now (Seen s) !! id); cbn; lia.
Qed.

Lemma window_bounded s w : bounded e q s → bounded e q (s <| Samples := window_samples now w (Samples s) |>).
Proof.
  intros []. bounded_fields; [|by apply Forall_window].
  pose proof (window_samples_length now w (Samples s)). lia.
Qed.

Lemma sample_bounded s n :
  bounded e q s → Z.of_nat (length (Samples s)) < l_MaxSamples (elimits e) →
  bounded e q (s <| Samples := (Samples s ++ [{| sm_At := now; sm_Value := n; sm_Sequence := o_Sequence o |}])%list |>).
Proof.
  intros [] Hroom. bounded_fields; [rewrite length_app; cbn; lia|].
  apply Forall_app; split; [done|]. repeat constructor; cbn; subst q; lia.
Qed.

Lemma timers_bounded s t u : bounded e q s → bounded e q (s <| OverflowUntil := t |> <| ClockWindowUntil := u |>).
Proof. intros []. by constructor. Qed.

Lemma predicate_numeric_bounded expr s v :
  bounded e q s → bounded e q (v_State (predicate_numeric e expr s v o now)).
Proof.
  intros B. unfold predicate_numeric. destruct (Number v) as [n|]; [|done]. cbn zeta.
  apply (window_bounded s (e_maxWindow e)) in B.
  generalize dependent (s <| Samples := window_samples now (e_maxWindow e) (Samples s) |>). clear s. intros s B.
  destruct (_ && _) eqn:Hfull; [destruct (After _ _); [exact (timers_bounded _ _ (ClockWindowUntil s) B)|done]|].
  set (s2 := if 0 <? e_maxWindow e then _ else s).
  assert (B2 : bounded e q s2).
  { subst s2. destruct (0 <? e_maxWindow e); [|done]. cbn in Hfull. bools. by apply sample_bounded. }
  clearbody s2. destruct (Before now (ClockWindowUntil s2)); [done|].
  destruct (Before now _); [exact (timers_bounded _ (OverflowUntil s2) _ B2)|].
  destruct (aggregate_windows _ _ _ _); exact (timers_bounded _ _ _ B2).
Qed.

Lemma predicate_bounded s : bounded e q s → bounded e q (v_State (predicate e s o now)).
Proof.
  intros B. unfold predicate. destruct (negb (c_MissingFor (econd e) ≟ "")); [by apply predicate_missing_bounded|].
  destruct (o_Fields o !! c_Field (econd e)) as [v|]; [|done].
  destruct (signal_operator _).
  { unfold signal. case_match; [by apply signal_changed_bounded|by apply signal_new_event_bounded]. }
  destruct (e_expression e); [by apply predicate_numeric_bounded|]. by destruct (Compare _ _ _).
Qed.

Lemma clock_bounded s : bounded e q s → bounded e q (clock_state e s now).
Proof.
  intros B. unfold clock_state. cbn zeta.
  set (s1 := if 0 <? e_maxWindow e then _ else _).
  assert (B1 : bounded e q s1) by (subst s1; destruct B; case_match; by constructor; cbn; try lia).
  clearbody s1. set (s2 := if negb (IsZero (LastFired s1)) then _ else _).
  assert (B2 : bounded e q s2) by (subst s2; destruct B1; case_match; by constructor).
  clearbody s2. set (s3 := if negb (c_MissingFor (econd e) ≟ "") then _ else _).
  enough (B3 : bounded e q s3) by (destruct B3; by constructor).
  subst s3. case_match; [destruct B2; bounded_fields; subst q; lia|]. case_match; [|done].
  destruct B2. bounded_fields. rewrite map_size_fmap. pose proof (live_size (LastAt s2) (Seen s2)). lia.
Qed.

Lemma count_match_bounded s : bounded e q s → bounded e q (count_match e o s).
Proof.
  destruct Hwf. intros [? ? Hrec ? ? ? ? ? ? ?]. unfold count_match. cbn [Matches upd upd_Recoveries].
  destruct (Z.ltb_spec (Matches s) (p_Consecutive (epolicy e))); [|bounded_fields].
  assert (wrap64 (Matches s + 1) = Matches s + 1) as Hw by (apply wrap64_id; unfold is_int64, min_int64; lia).
  bounded_fields; rewrite ?Hw; try lia.
  - rewrite length_app. cbn. destruct (decide (0 < Recoveries s)); [|lia].
    destruct Hrec as (?&?&?); [done|]. lia.
  - apply Forall_app; split; [done|]. repeat constructor; subst q; lia.
Qed.

Lemma count_recovery_Recoveries s : bounded e q s →
  Recoveries (count_recovery o (s <| Matches := 0 |>)) = Recoveries s + 1 ∧
  Z.of_nat (length (Evidence (count_recovery o (s <| Matches := 0 |>)))) <= Recoveries s + 1 ∧
  Forall (fun x => 0 < x <= q) (Evidence (count_recovery o (s <| Matches := 0 |>))).
Proof.
  destruct Hwf. intros [? ? Hrec ? ? ? ? ? ? ?].
  assert (wrap64 (Recoveries s + 1) = Recoveries s + 1) as Hw by (apply wrap64_id; unfold is_int64, min_int64; lia).
  assert (Forall (fun x => 0 < x <= q) [o_Sequence o]) by (repeat constructor; subst q; lia).
  unfold count_recovery. cbn. destruct (Z.eqb_spec (Recoveries s) 0) as [E|E]; cbn; rewrite Hw.
  - split_and!; [done| lia |done].
  - destruct Hrec as (?&?&?); [lia|]. rewrite length_app. cbn. split_and!; [done|lia|]. by apply Forall_app.
Qed.

Lemma settled_bounded s : bounded e q s → bounded e q (s <| Evidence := [] |>).
Proof. destruct Hwf. intros [? ? Hrec ? ? ? ? ? ? ?]. bounded_fields. intros Hr. destruct (Hrec Hr) as (?&?&?). split_and!; [done..|lia]. Qed.

Lemma opened_bounded s : bounded e q s → bounded e q (s <| Open := true |>).
Proof. intros [? ? Hrec ? ? ? ? ? ? ?]. bounded_fields. Qed.

Lemma recovery_bounded s :
  Open s = true → Recoveries (count_recovery o (s <| Matches := 0 |>)) < p_RecoverAfter (epolicy e) →
  bounded e q s → bounded e q (count_recovery o (s <| Matches := 0 |>)).
Proof.
  intros Ho Hr B. destruct (count_recovery_Recoveries s B) as (Hc&Hl&Hf). destruct Hwf, B.
  constructor; rewrite ?Hc; try done; try lia; unfold count_recovery in *; cbn in *;
    destruct (Recoveries s =? 0); cbn in *; try done; try lia.
Qed.

Lemma micro_bounded s evs s' evs' :
  micro e key o now (s, evs) (s', evs') → bounded e q s → bounded e q s'.
Proof.
  intros M B. inversion M; simplify_eq;
    eauto using clear_counters_bounded, clock_bounded, predicate_bounded, count_match_bounded,
      settled_bounded, opened_bounded, recovery_bounded;
    try (destruct Hwf, B; by bounded_fields).
  destruct Hwf, B. unfold count_recovery. cbn. destruct (_ =? 0); bounded_fields.
Qed.
End Invariant.

(** An invariant of the micro-steps is an invariant of the whole evaluation. *)
Lemma steps_invariant e key o now (P : State * list Event → Prop) x y :
  (∀ x y, micro e key o now x y → P x → P y) → steps e key o now x y → P x → P y.
Proof. intros Hp. induction 1; eauto. Qed.

Lemma unknown_LastSequence e key o now s evs reason tr :
  unknown e key o now s evs reason = Ok tr → LastSequence (tr_State tr) = o_Sequence o.
Proof. unfold unknown. intros H. res_inv. destruct a. res_inv. cbn. by destruct (After _ _). Qed.

Lemma finished_LastSequence (o : Observation) now (r : result (State * list Event)) matched tr :
  ('(s, evs) ← r; Ok (finish o now s evs matched)) = Ok tr → LastSequence (tr_State tr) = o_Sequence o.
Proof. intros H. apply bind_Ok in H as ([s evs] & _ & [= <-]). done. Qed.

Lemma decide_step_LastSequence e key o now s evs tr :
  decide_step e key o now s evs = Ok tr → LastSequence (tr_State tr) = o_Sequence o.
Proof.
  unfold decide_step. cbn zeta. intros H.
  destruct (negb _); [by eapply unknown_LastSequence|]. apply bind_Ok in H as ([s' evs'] & _ & H).
  destruct (signal_operator _); [|destruct (v_Matched _); by eapply finished_LastSequence].
  unfold signal_step in H. cbn zeta in H. apply bind_Ok in H as ([s2 evs2] & _ & [= <-]). done.
Qed.

Lemma waiting_step_LastSequence e key o now s evs tr :
  waiting_step e key o now s evs = Ok tr → LastSequence (tr_State tr) = o_Sequence o.
Proof.
  unfold waiting_step, source_recovery. cbn zeta. intros H. apply bind_Ok in H as ([s' evs'] & Ha & [= <-]).
  destruct (_ && _); res_inv; done.
Qed.

Lemma Evaluate_LastSequence e s o now tr :
  Evaluate e s o now = Ok tr → LastSequence (tr_State tr) = o_Sequence o.
Proof.
  unfold Evaluate. intros H. res_inv. destruct a as [key st].
  destruct (o_Health o ≟ "clock"); [by eapply unknown_LastSequence|].
  destruct (negb _ && _); [by eapply unknown_LastSequence|].
  destruct (o_Health o ≟ "gap"); [unfold gap_step in H; res_inv; done|].
  unfold sample_step in H. cbn zeta in H. apply bind_Ok in H as ([s' evs'] & _ & H).
  repeat (case_match; [res_inv; eauto using unknown_LastSequence, waiting_step_LastSequence|]);
    eauto using decide_step_LastSequence.
Qed.

Lemma Evaluate_admitted e s o now tr :
  Evaluate e s o now = Ok tr →
  ∃ key, steps e key o now (s <| WaitingReason := "" |> <| Entity := key |>, []) (tr_State tr, tr_Events tr) ∧
    (Entity s ≠ "" → key = Entity s) ∧ 1 <= o_Sequence o ∧ LastSequence s < o_Sequence o ∧ o_AcceptedAt o = now.
Proof.
  intros (key & st & Ha & Hs)%Evaluate_steps.
  apply admission_Ok in Ha as (?&?&?&?&->&?). by exists key.
Qed.

Lemma Evaluate_state_ok e s o now tr :
  wf_evaluator e → state_ok e s → Evaluate e s o now = Ok tr → state_ok e (tr_State tr).
Proof.
  intros Hwf Hok H. pose proof (Evaluate_LastSequence _ _ _ _ _ H) as Hl.
  apply Evaluate_admitted in H as (key & Hs & _ & Hq & Hlt & _). unfold state_ok. rewrite Hl.
  refine (steps_invariant e key o now (fun x => bounded e (o_Sequence o) x.1) _ _ _ Hs _).
  - intros [] [] M ?. by eapply micro_bounded.
  - apply (bounded_mono e (LastSequence s)); [lia|]. destruct Hok. by constructor.
Qed.

(** ** Runs

    The observations of one entity in the order they were accepted.  An
    observation the evaluator refuses leaves the committed state as it was. *)
Fixpoint run (e : Evaluator) (s : State) (os : list Observation) : State * list Event :=
  match os with
  | [] => (s, [])
  | o :: os =>
      match Evaluate e s o (o_AcceptedAt o) with
      | Ok tr => let '(s', evs) := run e (tr_State tr) os in (s', (tr_Events tr ++ evs)%list)
      | Err _ => run e s os
      end
  end.

(** Induction on runs for a property of the state and the events so far. *)
Lemma run_invariant e (P : State → list Event → Prop) s os evs0 :
  (∀ s evs o tr, P s evs → Evaluate e s o (o_AcceptedAt o) = Ok tr →
     P (tr_State tr) (evs ++ tr_Events tr)%list) →
  P s evs0 → P (run e s os).1 (evs0 ++ (run e s os).2)%list.
Proof.
  intros Hstep. revert s evs0. induction os as [|o os IH]; intros s evs0 HP; cbn; [by rewrite app_nil_r|].
  destruct (Evaluate _ _ _ _) as [tr|] eqn:He; [|by apply IH].
  specialize (IH (tr_State tr) (evs0 ++ tr_Events tr)%list (Hstep _ _ _ _ HP He)).
  destruct (run e (tr_State tr) os). cbn in *. by rewrite app_assoc.
Qed.

(** ** Alternation of events

    [replay up down b types] reads a sequence of event types as the history of a
    flag: [up] may only raise it, [down] may only lower it. *)
Definition flag_step (up down : string) (flag : option bool) (type : string) : option bool :=
  '(b : bool) ← flag;
  if type ≟ up then (if b then None else Some true)
  else if type ≟ down then (if b then Some false else None)
  else Some b.
Definition replay (up down : string) (b : bool) (types : list string) : option bool :=
  foldl (flag_step up down) (Some b) types.

Lemma replay_snoc up down b l t c :
  replay up down b l = Some c → replay up down b (l ++ [t])%list = flag_step up down (Some c) t.
Proof. unfold replay. rewrite foldl_app. by intros ->. Qed.

Lemma replay_app up down b l l' c :
  replay up down b l = Some c → replay up down b (l ++ l')%list = replay up down c l'.
Proof. unfold replay. rewrite foldl_app. by intros ->. Qed.

Definition types (evs : list Event) : list string := ev_Type <$> evs.

Lemma types_app l l' : types (l ++ l')%list = (types l ++ types l')%list.
Proof. apply fmap_app. Qed.

Lemma signal_operator_true op : signal_operator op = true → op = "changed" ∨ op = "new-event".
Proof. unfold signal_operator. intros [H|H]%orb_true_iff; bools; auto. Qed.

(** The incident fields under predicates, clock changes and counting. *)
Lemma predicate_Open e s o now : Open (v_State (predicate e s o now)) = Open s.
Proof. pose proof (predicate_core e o now s). unfold core in *. congruence. Qed.
Lemma predicate_SourceUnhealthy e s o now : SourceUnhealthy (v_State (predicate e s o now)) = SourceUnhealthy s.
Proof. pose proof (predicate_core e o now s). unfold core in *. congruence. Qed.

Lemma clock_fields e s now :
  Open (clock_state e s now) = Open s ∧ SourceUnhealthy (clock_state e s now) = SourceUnhealthy s ∧
  IncidentEvent (clock_state e s now) = IncidentEvent s ∧ HealthEvent (clock_state e s now) = HealthEvent s ∧
  Entity (clock_state e s now) = Entity s.
Proof. unfold clock_state. cbn zeta. repeat case_match; done. Qed.

Lemma count_fields e o s :
  Open (count_match e o s) = Open s ∧ SourceUnhealthy (count_match e o s) = SourceUnhealthy s ∧
  Open (count_recovery o s) = Open s ∧ SourceUnhealthy (count_recovery o s) = SourceUnhealthy s.
Proof. unfold count_match, count_recovery. by destruct (_ <? _), (_ =? _). Qed.

(** Case analysis on a micro-step, with the type of the event it emits. *)
Ltac micro_cases M :=
  inversion M; subst; clear M;
  try match goal with
  | H : emit _ _ _ _ _ _ _ = Ok _ |- _ =>
      let Hk := fresh "Hkind" in pose proof H as Hk; apply emit_Ok in Hk as (_&_&_&_&Hk&_&_)
  end.

Lemma types_snoc evs ev k : ev_Type ev = k → types (evs ++ [ev])%list = (types evs ++ [k])%list.
Proof. intros <-. apply types_app. Qed.

Lemma micro_incident_flag e key o now b s evs s' evs' :
  p_Trigger (epolicy e) ≠ "level" → micro e key o now (s, evs) (s', evs') →
  replay "firing" "recovered" b (types evs) = Some (Open s) →
  replay "firing" "recovered" b (types evs') = Some (Open s').
Proof.
  intros Ht M R. destruct (clock_fields e s now) as [Hc _], (count_fields e o s) as (Hm&_&_&_).
  destruct (count_fields e o (s <| Matches := 0 |>)) as (_&_&Hr&_).
  assert (eligible e s now = negb (Open s)) as He by (unfold eligible; by rewrite bool_decide_false).
  micro_cases M; try erewrite types_snoc, replay_snoc by done; try done.
  - by rewrite Hc.
  - by rewrite predicate_Open.
  - destruct (signal_operator_true (c_Operator (econd e))) as [->| ->]; done.
  - by rewrite Hm.
  - cbn. destruct (Open s); [cbn [negb] in He; congruence|done].
  - cbn. destruct (Open s); [done|cbn [negb] in He; congruence].
  - rewrite R. f_equal. symmetry. exact Hr.
  - cbn. by replace (Open s) with true.
Qed.

Lemma micro_health_flag e key o now b s evs s' evs' :
  micro e key o now (s, evs) (s', evs') →
  replay "source_error" "source_recovered" b (types evs) = Some (SourceUnhealthy s) →
  replay "source_error" "source_recovered" b (types evs') = Some (SourceUnhealthy s').
Proof.
  intros M R. destruct (clock_fields e s now) as (_&Hc&_), (count_fields e o s) as (_&Hm&_&_).
  destruct (count_fields e o (s <| Matches := 0 |>)) as (_&_&_&Hr).
  micro_cases M; try erewrite types_snoc, replay_snoc by done; try done.
  - by rewrite Hc.
  - cbn. by replace (SourceUnhealthy s) with false.
  - cbn. by replace (SourceUnhealthy s) with true.
  - by rewrite predicate_SourceUnhealthy.
  - destruct (signal_operator_true (c_Operator (econd e))) as [->| ->]; done.
  - by rewrite Hm.
  - rewrite R. f_equal. symmetry. exact Hr.
  - cbn. f_equal. symmetry. exact Hr.
Qed.

(** From one evaluation to a run: the flag [f] of the state is the replay of its events. *)
Lemma run_flag e (up down : string) (f : State → bool) s os :
  (∀ s r k, f (s <| WaitingReason := r |> <| Entity := k |>) = f s) →
  (∀ key o now b s evs s' evs', micro e key o now (s, evs) (s', evs') →
     replay up down b (types evs) = Some (f s) → replay up down b (types evs') = Some (f s')) →
  replay up down (f s) (types (run e s os).2) = Some (f (run e s os).1).
Proof.
  intros Hf Hm.
  apply (run_invariant e (fun s' evs => replay up down (f s) (types evs) = Some (f s')) s os []); [|done].
  intros s1 evs o tr R (key & Hs & _)%Evaluate_admitted.
  rewrite types_app. erewrite replay_app by done.
  refine (steps_invariant e key o _ (fun x => replay up down (f s1) (types x.2) = Some (f x.1)) _ _ _ Hs _).
  - intros [] [] M. by eapply Hm.
  - cbn [fst snd]. by rewrite Hf.
Qed.
