(* ===== verification/EvaluatorSpec.v ===== *)
(** * What condition evaluation promises

    The incident automaton (an abstract state of three components) that
    [Evaluate] refines, and the theorems over whole runs. *)
From S2P Require Import Prelude GoText GoFloat GoTime GoJson Sha256 Watch Numeric Evaluator EvaluatorFacts.

(** ** The incident automaton *)

Record incident := { i_open : bool; i_matches : Z; i_recoveries : Z }.

Definition incident_of (s : State) : incident :=
  {| i_open := Open s; i_matches := Matches s; i_recoveries := Recoveries s |}.

Definition reset (i : incident) : incident :=
  {| i_open := i_open i; i_matches := 0; i_recoveries := 0 |}.

(** One decided sample: [C] consecutive matches open the incident, [R]
    consecutive misses close it; [cooled] says that the cooldown of a level
    trigger has elapsed.  The second component is what is announced. *)
Definition automaton (C R : Z) (level cooled : bool) (i : incident) (matched : bool) : incident * list string :=
  if matched then
    let m := Z.min C (i_matches i + 1) in
    ({| i_open := i_open i || (C <=? m); i_matches := m; i_recoveries := 0 |},
     if (C <=? m) && (if level then cooled else negb (i_open i)) then ["firing"] else [])
  else if i_open i then
    if R <=? i_recoveries i + 1
    then ({| i_open := false; i_matches := 0; i_recoveries := 0 |}, ["recovered"])
    else ({| i_open := true; i_matches := 0; i_recoveries := i_recoveries i + 1 |}, [])
  else ({| i_open := false; i_matches := 0; i_recoveries := 0 |}, []).

(** The decided part of a transition from state [s]. *)
Definition decision (e : Evaluator) (s : State) (now : time) (i : incident) (matched : bool) : incident * list string :=
  automaton (p_Consecutive (epolicy e)) (p_RecoverAfter (epolicy e)) (p_Trigger (epolicy e) ≟ "level")
    (cooled_down e s now) i matched.

(** ** What each part of an evaluation does to the incident and announces *)

Definition health_types (l : list string) : Prop := l = [] ∨ l = ["source_error"] ∨ l = ["source_recovered"].

Section Parts.
Context (e : Evaluator) (key : string) (o : Observation) (now : time).

Lemma source_failure_spec s evs reason s' evs' :
  source_failure e key o now s evs reason = Ok (s', evs') →
  incident_of s' = incident_of s ∧ IncidentEvent s' = IncidentEvent s ∧
  ∃ l, evs' = (evs ++ l)%list ∧ (types l = [] ∨ types l = ["source_error"]).
Proof.
  unfold source_failure. destruct (SourceUnhealthy s); intros H; res_inv.
  - split_and!; [done..|]. exists []. rewrite app_nil_r. auto.
  - split_and!; [done..|]. exists [a]. split; [done|]. right. cbn. by apply emit_Ok in Ha as (_&_&_&_&->&_).
Qed.

Lemma source_recovery_spec s evs healthy s' evs' :
  source_recovery e key o now s evs healthy = Ok (s', evs') →
  incident_of s' = incident_of s ∧ IncidentEvent s' = IncidentEvent s ∧ LastFired s' = LastFired s ∧
  ∃ l, evs' = (evs ++ l)%list ∧ (types l = [] ∨ types l = ["source_recovered"]).
Proof.
  unfold source_recovery. destruct (_ && _); intros H; res_inv.
  - split_and!; [done..|]. exists [a]. split; [done|]. right. cbn. by apply emit_Ok in Ha as (_&_&_&_&->&_).
  - split_and!; [done..|]. exists []. rewrite app_nil_r. auto.
Qed.

Lemma unknown_spec s evs reason tr :
  unknown e key o now s evs reason = Ok tr →
  Known tr = false ∧ incident_of (tr_State tr) = reset (incident_of s) ∧
  IncidentEvent (tr_State tr) = IncidentEvent s ∧
  ∃ l, tr_Events tr = (evs ++ l)%list ∧ (types l = [] ∨ types l = ["source_error"]).
Proof.
  unfold unknown. intros H. apply bind_Ok in H as ([s' evs'] & Ha & H). res_inv.
  apply source_failure_spec in Ha as (Hi & He & l & -> & Hl). cbn.
  split_and!; [done| | |by exists l].
  - destruct (After _ _); exact Hi.
  - destruct (After _ _); exact He.
Qed.

Lemma fire_spec s evs s' evs' :
  fire e key o now s evs = Ok (s', evs') →
  let announced := (p_Consecutive (epolicy e) <=? Matches s) && eligible e s now in
  incident_of s' = {| i_open := Open s || (p_Consecutive (epolicy e) <=? Matches s);
                      i_matches := Matches s; i_recoveries := Recoveries s |} ∧
  ∃ l, evs' = (evs ++ l)%list ∧ types l = if announced then ["firing"] else [].
Proof.
  unfold fire. destruct (_ <=? _); cbn [andb]; intros H.
  - apply bind_Ok in H as ([s1 evs1] & Ha & H).
    destruct (eligible e s now); [apply bind_Ok in Ha as (ev & Hev & Ha)|]; res_inv; cbn;
      (split; [by rewrite orb_true_r|]).
    + exists [ev]. cbn. by apply emit_Ok in Hev as (_&_&_&_&->&_).
    + exists []. by rewrite app_nil_r.
  - res_inv. rewrite orb_false_r. split; [done|]. exists []. by rewrite app_nil_r.
Qed.

Lemma count_match_matches s : wf_evaluator e → 0 <= Matches s <= p_Consecutive (epolicy e) →
  Matches (count_match e o s) = Z.min (p_Consecutive (epolicy e)) (Matches s + 1) ∧
  Recoveries (count_match e o s) = 0 ∧ Open (count_match e o s) = Open s ∧
  LastFired (count_match e o s) = LastFired s.
Proof.
  intros [? _ _] Hm. unfold count_match. cbn.
  destruct (Z.ltb_spec (Matches s) (p_Consecutive (epolicy e))); cbn; split_and!; try done; [|lia].
  rewrite wrap64_id; [lia|]. unfold is_int64, min_int64. lia.
Qed.

Lemma matched_step_spec s evs tr :
  wf_evaluator e → 0 <= Matches s <= p_Consecutive (epolicy e) →
  matched_step e key o now s evs = Ok tr →
  Known tr = true ∧ Matched tr = true ∧
  ∃ l, tr_Events tr = (evs ++ l)%list ∧
       (incident_of (tr_State tr), types l) = decision e s now (incident_of s) true.
Proof.
  intros Hwf Hm H. unfold matched_step in H. apply bind_Ok in H as ([s' evs'] & Ha & H). res_inv.
  destruct (count_match_matches s Hwf Hm) as (Hc & Hr & Ho & Hf).
  apply fire_spec in Ha as (Hi & l & -> & Hl). split_and!; [done..|]. exists l. split; [done|].
  rewrite Hl. unfold decision, automaton, eligible, cooled_down in *. rewrite Hc, Ho, Hf in *.
  unfold incident_of at 1. cbn. unfold incident_of in Hi. injection Hi as -> -> ->. rewrite Hr. done.
Qed.

Lemma unmatched_step_spec s evs tr :
  wf_evaluator e → 0 <= Recoveries s < p_RecoverAfter (epolicy e) →
  unmatched_step e key o now s evs = Ok tr →
  Known tr = true ∧ Matched tr = false ∧
  ∃ l, tr_Events tr = (evs ++ l)%list ∧
       (incident_of (tr_State tr), types l) = decision e s now (incident_of s) false.
Proof.
  intros [_ ? _] Hr H. unfold unmatched_step in H. cbn zeta in H.
  apply bind_Ok in H as ([s' evs'] & Ha & H). res_inv. split_and!; [done..|].
  unfold decision, automaton. cbn [i_open i_recoveries incident_of].
  change (Open (s <| Matches := 0 |>)) with (Open s) in Ha.
  destruct (Open s) eqn:Ho; [|res_inv; exists []; unfold incident_of; cbn; by rewrite Ho, app_nil_r].
  assert (Hc : Recoveries (count_recovery o (s <| Matches := 0 |>)) = Recoveries s + 1 ∧
    Matches (count_recovery o (s <| Matches := 0 |>)) = 0 ∧ Open (count_recovery o (s <| Matches := 0 |>)) = true).
  { unfold count_recovery. cbn. destruct (_ =? _); cbn; split_and!; try done; apply wrap64_id; unfold is_int64, min_int64; lia. }
  revert Ha Hc. generalize (count_recovery o (s <| Matches := 0 |>)). intros s2 Ha (Hc & Hm & Ho').
  unfold recover in Ha. rewrite Hc in Ha. destruct (_ <=? _).
  - apply bind_Ok in Ha as (ev & Hev & Ha). res_inv.
    exists [ev]. split; [done|]. cbn. apply emit_Ok in Hev as (_&_&_&_&->&_).
    unfold incident_of. cbn. do 2 f_equal. exact Hm.
  - res_inv. exists []. rewrite app_nil_r. split; [done|]. unfold incident_of. cbn. by rewrite Hc, Hm, Ho'.
Qed.

Lemma signal_step_spec s evs matched tr :
  signal_step e key o now s evs matched = Ok tr →
  Known tr = true ∧ Matched tr = matched ∧
  ∃ l, tr_Events tr = (evs ++ l)%list ∧ incident_of (tr_State tr) = incident_of s ∧
       IncidentEvent (tr_State tr) = IncidentEvent s ∧
       types l = if matched && cooled_down e s now then [c_Operator (econd e)] else [].
Proof.
  intros H. unfold signal_step in H. cbn zeta in H. apply bind_Ok in H as ([s' evs'] & Ha & H). res_inv.
  split_and!; [done..|]. destruct (_ && _); [apply bind_Ok in Ha as (ev & Hev & Ha)|]; res_inv.
  - exists [ev]. cbn. by apply emit_Ok in Hev as (_&_&_&_&->&_).
  - exists []. by rewrite app_nil_r.
Qed.
End Parts.

(** ** The refinement *)

(** The health part [h] and the decision part [m] of a transition that starts
    with incident [i] in the middle of the evaluation of state [s]. *)
Definition outcome (e : Evaluator) (s : State) (now : time) (i : incident) (tr : Transition) (h m : list string) : Prop :=
  let i' := incident_of (tr_State tr) in
  health_types h ∧
  if Known tr then
    h ≠ ["source_error"] ∧
    if signal_operator (c_Operator (econd e))
    then i' = i ∧ m = if Matched tr && cooled_down e s now then [c_Operator (econd e)] else []
    else (i', m) = decision e s now i (Matched tr)
  else m = [] ∧ (i' = i ∨ i' = reset i) ∧ IncidentEvent (tr_State tr) = IncidentEvent s.

Section Outcome.
Context (e : Evaluator) (key : string) (o : Observation) (now : time).
Hypothesis Hwf : wf_evaluator e.

Lemma unknown_outcome s0 s evs reason tr :
  IncidentEvent s = IncidentEvent s0 →
  unknown e key o now s evs reason = Ok tr →
  ∃ l h, tr_Events tr = (evs ++ l)%list ∧ types l = (h ++ [])%list ∧ outcome e s0 now (incident_of s) tr h [].
Proof.
  intros Hev (Hk & Hi & He & l & -> & Hl)%unknown_spec. exists l, (types l). rewrite app_nil_r.
  split_and!; [done..|]. unfold outcome, health_types. rewrite Hk, He. naive_solver.
Qed.

Lemma predicate_incident s :
  incident_of (v_State (predicate e s o now)) = incident_of s ∧
  IncidentEvent (v_State (predicate e s o now)) = IncidentEvent s ∧
  LastFired (v_State (predicate e s o now)) = LastFired s.
Proof.
  pose proof (predicate_core e o now s) as Hc. unfold core, incident_of in *.
  injection Hc. intros. split_and!; congruence.
Qed.

Definition counters_ok (s : State) : Prop :=
  0 <= Matches s <= p_Consecutive (epolicy e) ∧ 0 <= Recoveries s < p_RecoverAfter (epolicy e).

Lemma counters_ok_incident s s' : incident_of s' = incident_of s → counters_ok s → counters_ok s'.
Proof. unfold incident_of, counters_ok. by intros [= _ -> ->]. Qed.

Lemma decision_LastFired s s' i matched : LastFired s' = LastFired s → decision e s' now i matched = decision e s now i matched.
Proof. unfold decision, cooled_down. by intros ->. Qed.

Lemma decide_outcome s0 s evs tr :
  counters_ok s → IncidentEvent s = IncidentEvent s0 → LastFired s = LastFired s0 →
  decide_step e key o now s evs = Ok tr →
  ∃ l h m, tr_Events tr = (evs ++ l)%list ∧ types l = (h ++ m)%list ∧ outcome e s0 now (incident_of s) tr h m.
Proof.
  intros Hok Hev Hlf H. unfold decide_step in H. cbn zeta in H.
  destruct (predicate_incident s) as (Hp & Hpe & Hpl).
  destruct (negb (v_Known (predicate e s o now))).
  { apply (unknown_outcome s0) in H as (l & h & Hl & Ht & Ho); [|congruence]. rewrite Hp in Ho. by exists l, h, []. }
  apply bind_Ok in H as ([s1 evs1] & Ha & H).
  apply source_recovery_spec in Ha as (Hi & Hie & Hil & lh & -> & Hlh).
  assert (Hcool : cooled_down e s1 now = cooled_down e s0 now) by (unfold cooled_down; by rewrite Hil, Hpl, Hlf).
  assert (Hh : health_types (types lh) ∧ types lh ≠ ["source_error"]).
  { destruct Hlh as [-> | ->]; unfold health_types; split; (auto || done). }
  rewrite Hp in Hi. assert (Hok1 : counters_ok s1) by by eapply counters_ok_incident.
  assert (∃ l, tr_Events tr = ((evs ++ lh) ++ l)%list ∧ outcome e s0 now (incident_of s) tr (types lh) (types l))
    as (l & -> & Ho); [|exists (lh ++ l)%list, (types lh), (types l); by rewrite types_app, app_assoc].
  unfold outcome. destruct (signal_operator _).
  { apply signal_step_spec in H as (-> & -> & l & -> & -> & He & Hl). exists l.
    rewrite Hi, <- Hcool. naive_solver. }
  rewrite <- Hi, <- !(decision_LastFired s0 s1) by congruence. destruct Hok1.
  destruct (v_Matched _).
  - apply matched_step_spec in H as (-> & -> & l & -> & Hl); [|done..]. exists l. destruct Hh. by split_and!.
  - apply unmatched_step_spec in H as (-> & -> & l & -> & Hl); [|done..]. exists l. destruct Hh. by split_and!.
Qed.

Lemma waiting_outcome s0 s evs tr :
  IncidentEvent s = IncidentEvent s0 → waiting_step e key o now s evs = Ok tr →
  ∃ l h m, tr_Events tr = (evs ++ l)%list ∧ types l = (h ++ m)%list ∧ outcome e s0 now (incident_of s) tr h m.
Proof.
  unfold waiting_step. intros Hev H. apply bind_Ok in H as ([s1 evs1] & Ha & H).
  injection H as <-.
  apply source_recovery_spec in Ha as (Hi & Hie & _ & l & -> & Hl).
  assert (Hr : incident_of s1 = reset (incident_of s)) by (rewrite Hi; reflexivity).
  assert (Hr' : IncidentEvent s1 = IncidentEvent s0) by (rewrite Hie; exact Hev). clear Hi Hie.
  exists l, (types l), []. rewrite app_nil_r. split_and!; [done..|]. unfold outcome, health_types. cbn.
  rewrite Hr, Hr'. destruct Hl as [->| ->]; auto.
Qed.

Lemma observed_outcome s0 s evs reason :
  IncidentEvent s = IncidentEvent s0 →
  ∃ l h m, tr_Events (observed o now s evs reason) = (evs ++ l)%list ∧ types l = (h ++ m)%list ∧
    outcome e s0 now (incident_of s) (observed o now s evs reason) h m.
Proof.
  intros Hev. exists [], [], []. rewrite app_nil_r. split_and!; [done..|].
  unfold outcome, health_types. cbn. naive_solver.
Qed.

Lemma gap_events_spec s s' evs :
  counters_ok s → gap_events e key o now s = Ok (s', evs) →
  IncidentEvent s' = IncidentEvent s ∧ LastFired s' = LastFired s ∧ counters_ok s' ∧
  (types evs = [] ∧ incident_of s' = incident_of s ∨ types evs = ["gap"] ∧ incident_of s' = reset (incident_of s)).
Proof.
  unfold gap_events, counters_ok. destruct Hwf. intros Hok H. destruct (_ && _).
  - apply bind_Ok in H as (ev & Hev & H). res_inv. apply emit_Ok in Hev as (_&_&_&_&Hk&_).
    unfold types. cbn. rewrite Hk. split_and!; try done; try lia. auto.
  - res_inv. destruct Hok as [[? ?] [? ?]]. split_and!; auto.
Qed.

Lemma clock_incident s : incident_of (clock_state e s now) = incident_of s.
Proof. unfold clock_state, incident_of. cbn zeta. repeat case_match; done. Qed.

Lemma sample_outcome s0 s tr :
  counters_ok s → incident_of s = incident_of s0 → IncidentEvent s = IncidentEvent s0 → LastFired s = LastFired s0 →
  sample_step e key o now s = Ok tr →
  ∃ g h m, types (tr_Events tr) = (g ++ h ++ m)%list ∧ (g = [] ∨ g = ["gap"]) ∧
    outcome e s0 now (if g ≟ [] then incident_of s0 else reset (incident_of s0)) tr h m.
Proof.
  intros Hok Hi Hev Hlf H. unfold sample_step in H. cbn zeta in H. apply bind_Ok in H as ([s1 evs] & Ha & H).
  apply gap_events_spec in Ha as (He1 & Hl1 & Hok1 & Hg); [|done].
  assert (∃ l h m, tr_Events tr = (evs ++ l)%list ∧ types l = (h ++ m)%list ∧ outcome e s0 now (incident_of s1) tr h m)
    as (l & h & m & -> & Hl & Ho).
  { repeat (case_match; [res_inv; first
      [apply observed_outcome; congruence | eapply waiting_outcome; [|eassumption]; congruence |
       apply (unknown_outcome s0) in H as (l & h & ?); [|congruence]; by exists l, h, [] ]|]).
    eapply decide_outcome; [exact Hok1| | |eassumption]; congruence. }
  rewrite types_app, Hl. exists (types evs), h, m.
  destruct Hg as [[-> Hr]|[-> Hr]]; rewrite Hr, Hi in Ho; split_and!; auto.
Qed.
End Outcome.

Lemma Evaluate_outcome e s o now tr :
  wf_evaluator e → state_ok e s → Evaluate e s o now = Ok tr →
  ∃ g h m, types (tr_Events tr) = (g ++ h ++ m)%list ∧ (g = [] ∨ g = ["gap"]) ∧
    outcome e s now (if g ≟ [] then incident_of s else reset (incident_of s)) tr h m.
Proof.
  intros Hwf Hok H. unfold Evaluate in H. apply bind_Ok in H as ([key st] & Ha & H).
  apply admission_Ok in Ha as (_&_&_&_&->&_).
  assert (Hc : counters_ok e (s <| WaitingReason := "" |> <| Entity := key |>)) by (destruct Hok; by split).
  destruct (o_Health o ≟ "clock").
  { apply (unknown_outcome e key o now s) in H as (l & h & -> & Ht & Ho).
    - rewrite clock_incident in Ho. exists [], h, []. split_and!; [done|by left|exact Ho].
    - by destruct (clock_fields e (s <| WaitingReason := "" |> <| Entity := key |>) now) as (_&_&->&_). }
  destruct (negb _ && _).
  { apply (unknown_outcome e key o now s) in H as (l & h & -> & Ht & Ho); [|done].
    exists [], h, []. split_and!; [done|by left|exact Ho]. }
  destruct (o_Health o ≟ "gap").
  { unfold gap_step in H. cbn zeta in H. apply bind_Ok in H as (ev & Hev & H). res_inv.
    apply emit_Ok in Hev as (_&_&_&_&Hk&_). exists ["gap"], [], []. unfold types, outcome, health_types. cbn.
    rewrite Hk. split_and!; auto. }
  by eapply sample_outcome.
Qed.

(** C1: [Evaluate] refines the incident automaton.  The announced events are an
    optional gap, then at most one source-health event, then the automaton's own
    announcement; the open flag and both counters are the automaton's, restarted
    first when a gap was announced.  An undecided observation announces nothing
    of the condition, keeps the incident open or closed, and keeps its event. *)
Theorem Evaluate_refines_incident e s o now tr :
  wf_evaluator e → state_ok e s → Evaluate e s o now = Ok tr →
  ∃ g h m, types (tr_Events tr) = (g ++ h ++ m)%list ∧ (g = [] ∨ g = ["gap"]) ∧
    outcome e s now (if g ≟ [] then incident_of s else reset (incident_of s)) tr h m.
Proof. apply Evaluate_outcome. Qed.

(** ** Evaluators built by [New] *)

Lemma copy_definition_ints d d' :
  copy_definition d = Some d' →
  p_Consecutive (policy_of d') = p_Consecutive (policy_of d) ∧
  p_RecoverAfter (policy_of d') = p_RecoverAfter (policy_of d) ∧
  l_MaxSamples (limits_of d') = l_MaxSamples (limits_of d).
Proof. unfold copy_definition, copy_spec. intros H. by simplify_option_eq. Qed.

Lemma New_wf pt def revision e :
  is_int64 (p_Consecutive (policy_of def)) → is_int64 (p_RecoverAfter (policy_of def)) →
  New pt def revision = Ok e → wf_evaluator e.
Proof.
  unfold is_int64, New. intros HC HR H. apply bind_Ok in H as (d & Hd & H).
  destruct (copy_definition def) as [d'|] eqn:Hc; [|done]. injection Hd as <-. cbn zeta in H. res_inv. pairs. res_inv.
  apply copy_definition_ints in Hc as (Hc1 & Hc2 & Hc3). bools.
  constructor; unfold epolicy, elimits; cbn; lia.
Qed.

Lemma empty_state_ok e entity : wf_evaluator e → state_ok e (empty_state entity).
Proof. intros []. constructor; cbn -[size]; rewrite ?map_size_empty; try done; lia. Qed.

(** C22: From the empty state, whatever observations arrive, the state kept for
    an entity stays within the limits of its compiled definition: the counters
    stay within the policy, at most MaxSamples window samples and remembered
    event identities are kept, evidence is bounded, and every sequence number
    it refers to was accepted. *)
Theorem run_bounded_state pt def revision e entity os :
  is_int64 (p_Consecutive (policy_of def)) → is_int64 (p_RecoverAfter (policy_of def)) →
  New pt def revision = Ok e →
  state_ok e (run e (empty_state entity) os).1.
Proof.
  intros HC HR HN. pose proof (New_wf _ _ _ _ HC HR HN) as Hwf.
  apply (run_invariant e (fun s _ => state_ok e s) _ os []); [|by apply empty_state_ok].
  intros. by eapply Evaluate_state_ok.
Qed.

(** C10: Over any run, with a trigger other than [level], firing and recovered
    events alternate, starting with what the open flag allows, and the flag
    kept in the state is what the announced events say. *)
Theorem run_incident_alternates e s os :
  p_Trigger (epolicy e) ≠ "level" →
  replay "firing" "recovered" (Open s) (types (run e s os).2) = Some (Open (run e s os).1).
Proof. intros. apply run_flag; [done|]. intros *. by apply micro_incident_flag. Qed.

(** Over any run, source_error and source_recovered alternate, and the
    health flag of the state is what the announced events say. *)
Lemma run_health_alternates e s os :
  replay "source_error" "source_recovered" (SourceUnhealthy s) (types (run e s os).2)
  = Some (SourceUnhealthy (run e s os).1).
Proof. apply run_flag; [done|]. intros *. apply micro_health_flag. Qed.
