(* ===== verification/EvaluatorEvents.v ===== *)
(** * The events of a run

    Evidence, identities and cooldowns of the events an evaluator announces. *)

From S2P Require Import Prelude GoText GoFloat GoTime GoJson Sha256 Watch Numeric Evaluator EvaluatorFacts EvaluatorSpec.

(** ** Sorting without duplicates *)

Lemma add_once_spec l x y : y ∈ add_once l x ↔ y ∈ l ∨ y = x.
Proof. unfold add_once. case_bool_decide; set_solver. Qed.

Lemma add_once_NoDup l x : NoDup l → NoDup (add_once l x).
Proof.
  unfold add_once. case_bool_decide; [done|]. intros. apply list.NoDup_app. split_and!; [done|set_solver|].
  apply NoDup_singleton.
Qed.

Lemma add_all_spec xs l y : y ∈ fold_left add_once xs l ↔ y ∈ l ∨ y ∈ xs.
Proof. revert l. induction xs as [|x xs IH]; intros l; cbn; [set_solver|]. rewrite IH, add_once_spec. set_solver. Qed.

Lemma add_all_NoDup xs l : NoDup l → NoDup (fold_left add_once xs l).
Proof. revert l. induction xs; intros; cbn; auto using add_once_NoDup. Qed.

Lemma StronglySorted_lt l : StronglySorted Z.le l → NoDup l → StronglySorted Z.lt l.
Proof.
  induction 1 as [|x l Hl IH Hx]; intros Hn; [constructor|]. apply list.NoDup_cons in Hn as [Hx' Hn].
  constructor; [auto|]. rewrite list.Forall_forall in *. intros y Hy.
  assert (x ≠ y) by (by intros ->). specialize (Hx y Hy). lia.
Qed.

Lemma sorted_last l q : StronglySorted Z.lt l → q ∈ l → (∀ x, x ∈ l → x <= q) → list.last l = Some q.
Proof.
  induction 1 as [|x l Hl IH Hx]; intros Hq Hmax; [by apply elem_of_nil in Hq|].
  destruct l as [|y l].
  - apply elem_of_cons in Hq as [->|[]%elem_of_nil]. done.
  - change (list.last (y :: l) = Some q). apply IH; [|set_solver].
    apply elem_of_cons in Hq as [->|Hq]; [|done]. exfalso.
    rewrite list.Forall_forall in Hx. specialize (Hx y ltac:(set_solver)). specialize (Hmax y ltac:(set_solver)). lia.
Qed.

(** ** Evidence *)

Record evidence_ok (q : Z) (l : list Z) : Prop := {
  ev_sorted : StronglySorted Z.lt l;
  ev_last : list.last l = Some q;
  ev_positive : Forall (fun x => 0 < x) l }.

(** Every sequence number an event may cite was accepted. *)
Record recorded (q : Z) (s : State) : Prop := {
  rc_Evidence : Forall (fun x => 0 < x <= q) (Evidence s);
  rc_Samples : Forall (fun x => 0 < sm_Sequence x <= q) (Samples s);
  rc_Fresh : 0 <= FreshSequence s <= q }.

Lemma bounded_recorded e q s : bounded e q s → recorded q s.
Proof. by intros []. Qed.

Lemma event_evidence_ok e kind s o :
  1 <= o_Sequence o → recorded (o_Sequence o) s → evidence_ok (o_Sequence o) (event_evidence e kind s o).
Proof.
  intros Hq [Hev Hsm Hfr]. unfold event_evidence.
  set (l1 := if _ && _ && _ then _ else _). set (l2 := if _ || _ then _ else _).
  set (l3 := add_once _ _).
  assert (H1 : NoDup l1 ∧ Forall (fun x => 0 < x <= o_Sequence o) l1).
  { subst l1. destruct (_ && _ && _) eqn:Hb; [|split; [apply NoDup_nil_2|by apply list.Forall_nil]].
    apply andb_true_iff in Hb as [_ Hb]. bools.
    split; [apply (add_once_NoDup []), NoDup_nil_2|]. unfold add_once. cbn. apply Forall_singleton. cbn in *. lia. }
  assert (H2 : NoDup l2 ∧ Forall (fun x => 0 < x <= o_Sequence o) l2).
  { subst l2. destruct (_ || _); [|done]. split; [apply add_all_NoDup, H1|].
    rewrite list.Forall_forall in *. destruct H1 as [_ H1].
    intros x [Hx|Hx]%add_all_spec; [by apply H1|].
    apply list_elem_of_fmap in Hx as (y & -> & Hy). rewrite list.Forall_forall in Hsm. by apply Hsm. }
  assert (H3 : NoDup l3 ∧ Forall (fun x => 0 < x <= o_Sequence o) l3).
  { subst l3. split; [apply add_once_NoDup, add_all_NoDup, H2|].
    rewrite list.Forall_forall in *. destruct H2 as [_ H2].
    intros x [[Hx|Hx]%add_all_spec| ->]%add_once_spec; [by apply H2|by apply Hev|lia]. }
  destruct H3 as [Hn Hf].
  assert (P : merge_sort Z.le l3 ≡ₚ l3) by apply merge_sort_Permutation.
  assert (S : StronglySorted Z.lt (merge_sort Z.le l3)).
  { apply StronglySorted_lt; [apply StronglySorted_merge_sort; apply _|by rewrite P]. }
  rewrite list.Forall_forall in Hf.
  split; [done| |].
  - apply sorted_last; [done| |].
    + rewrite P. subst l3. apply add_once_spec. auto.
    + intros x Hx. rewrite P in Hx. apply Hf in Hx. lia.
  - apply list.Forall_forall. intros x Hx. rewrite P in Hx. apply Hf in Hx. lia.
Qed.

(** ** Identities *)

Definition event_kinds : list string :=
  ["firing"; "recovered"; "changed"; "new-event"; "gap"; "source_error"; "source_recovered"].

(** What is known of an event announced for the observation with sequence [q]. *)
Record event_ok (q : Z) (ev : Event) : Prop := {
  eo_ID : ev_ID ev = event_id (ev_WatchID ev) (ev_Revision ev) (ev_Entity ev) (ev_Type ev) q;
  eo_Type : ev_Type ev ∈ event_kinds;
  eo_Evidence : evidence_ok q (ev_Evidence ev) }.

(** The text whose digest is the event's identity. *)
Definition event_text (ev : Event) : string :=
  event_json (ev_WatchID ev) (ev_Revision ev) (ev_Entity ev) (ev_Type ev) (default 0 (list.last (ev_Evidence ev))).

Lemma event_ok_text q ev : event_ok q ev → ev_ID ev = Revision (event_text ev).
Proof. intros [-> _ [_ Hl _]]. unfold event_text. by rewrite Hl. Qed.

Lemma emit_event_ok e key o now s kind reason ev :
  1 <= o_Sequence o → recorded (o_Sequence o) s → kind ∈ event_kinds →
  emit e key o now s kind reason = Ok ev → event_ok (o_Sequence o) ev.
Proof.
  intros Hq Hb Hk (Hid & Hw & Hr & He & Ht & _ & Hev)%emit_Ok. split; [congruence|by rewrite Ht|].
  rewrite Hev. by apply event_evidence_ok.
Qed.

Lemma operator_kind op : signal_operator op = true → op ∈ event_kinds.
Proof. intros [->| ->]%signal_operator_true; unfold event_kinds; set_solver. Qed.

Lemma micro_events_ok e key o now s evs s' evs' :
  wf_evaluator e → 1 <= o_Sequence o → micro e key o now (s, evs) (s', evs') → bounded e (o_Sequence o) s →
  Forall (event_ok (o_Sequence o)) evs → Forall (event_ok (o_Sequence o)) evs'.
Proof.
  intros Hwf Hq M B Hevs.
  inversion M; subst; clear M; try done; apply Forall_app; (split; [done|]); apply Forall_singleton;
    (eapply emit_event_ok; [done| | |eassumption]);
    eauto using operator_kind, bounded_recorded; unfold event_kinds; try set_solver.
  destruct (count_recovery_Recoveries e o Hwf Hq s B) as (_ & _ & Hf). destruct B.
  split; [done|..]; unfold count_recovery; cbn; by destruct (_ =? _).
Qed.

Lemma Evaluate_events_ok e s o now tr :
  wf_evaluator e → state_ok e s → Evaluate e s o now = Ok tr → Forall (event_ok (o_Sequence o)) (tr_Events tr).
Proof.
  intros Hwf Hok (key & Hs & _ & Hq & Hlt & _)%Evaluate_admitted.
  refine (proj2 (steps_invariant e key o now
    (fun x => bounded e (o_Sequence o) x.1 ∧ Forall (event_ok (o_Sequence o)) x.2) _ _ _ Hs _)).
  - intros [s1 e1] [s2 e2] M [B E]. split; [by eapply micro_bounded|by eapply micro_events_ok].
  - split; [|constructor]. apply (bounded_mono e (LastSequence s)); [lia|]. destruct Hok. by constructor.
Qed.

(** One evaluation announces an event type at most once. *)
Lemma Evaluate_types_NoDup e s o now tr :
  wf_evaluator e → state_ok e s → Evaluate e s o now = Ok tr → NoDup (types (tr_Events tr)).
Proof.
  intros Hwf Hok H. destruct (Evaluate_outcome _ _ _ _ _ Hwf Hok H) as (g & h & m & -> & Hg & Hh & Hm).
  assert (m = [] ∨ ∃ k, m = [k] ∧ k ∈ ["firing"; "recovered"; "changed"; "new-event"]) as Hk.
  { destruct (Known tr); [destruct Hm as [_ Hm]|by destruct Hm as [-> _]; left].
    destruct (signal_operator _) eqn:Hop.
    - destruct Hm as [_ ->]. destruct (_ && _); [|by left]. right. exists (c_Operator (econd e)).
      split; [done|]. destruct (signal_operator_true _ Hop) as [->| ->]; set_solver.
    - unfold decision, automaton in Hm. repeat case_match; simplify_eq; eauto; right; eexists; (split; [done|]); set_solver. }
  destruct Hg as [->| ->], Hh as [->|[->| ->]], Hk as [->|(k & -> & Hk)]; cbn;
    repeat (apply list.NoDup_cons; split; [set_solver|]); try apply NoDup_nil_2.
Qed.

Lemma event_kind_valid k : k ∈ event_kinds → sanitize k = k.
Proof.
  unfold event_kinds. intros H. repeat (apply elem_of_cons in H as [->|H]; [by vm_compute|]). by apply elem_of_nil in H.
Qed.

Lemma event_text_inj q q' a b : event_ok q a → event_ok q' b → event_text a = event_text b → ev_Type a = ev_Type b ∧ q = q'.
Proof.
  intros [_ Ta [_ La _]] [_ Tb [_ Lb _]]. unfold event_text. rewrite La, Lb. cbn.
  intros (_ & _ & _ & Ht & ->)%event_json_inj. by rewrite !event_kind_valid in Ht.
Qed.

(** Events announced for sequences up to [q], each identity text once. *)
Record announced (q : Z) (evs : list Event) : Prop := {
  an_ok : Forall (fun ev => ∃ p, p <= q ∧ event_ok p ev) evs;
  an_NoDup : NoDup (event_text <$> evs) }.

Lemma announced_app q p evs evs' :
  announced q evs → q < p → Forall (event_ok p) evs' → NoDup (types evs') → announced p (evs ++ evs')%list.
Proof.
  intros [Hok Hn] Hlt Hok' Hn'. split.
  - apply Forall_app. split; eapply list.Forall_impl; try eassumption; cbn.
    + intros ev (p' & ? & ?). exists p'. split; [lia|done].
    + intros ev ?. by exists p.
  - rewrite fmap_app. apply list.NoDup_app. rewrite list.Forall_forall in *. split_and!; [done| |].
    + intros x (a & -> & Ha)%list_elem_of_fmap (b & Hab & Hb)%list_elem_of_fmap.
      destruct (Hok a Ha) as (p' & ? & Ea). destruct (event_text_inj p' p a b Ea (Hok' b Hb) Hab). lia.
    + clear -Hok' Hn'. induction evs' as [|a l IH]; cbn in *; [apply NoDup_nil_2|].
      apply list.NoDup_cons in Hn' as [Ha Hl]. apply list.NoDup_cons. split; [|apply IH; [set_solver|done]].
      intros (b & Hab & Hb)%list_elem_of_fmap. apply Ha. apply list_elem_of_fmap.
      exists b. split; [|done]. eapply event_text_inj; [| |exact Hab]; apply Hok'; set_solver.
Qed.

(** C34: No event is announced twice.  From the empty state, over any run, the
    events announced for an entity are all different: the texts of which their identities are the SHA-256
    digests (watch, revision, entity, type, deciding sequence) never repeat, so
    a replayed or repeated observation never announces an event twice. *)
Theorem run_event_identities pt def revision e entity os :
  is_int64 (p_Consecutive (policy_of def)) → is_int64 (p_RecoverAfter (policy_of def)) →
  New pt def revision = Ok e →
  let evs := (run e (empty_state entity) os).2 in
  NoDup (event_text <$> evs) ∧ Forall (fun ev => ev_ID ev = Revision (event_text ev)) evs.
Proof.
  intros HC HR HN. pose proof (New_wf _ _ _ _ HC HR HN) as Hwf. cbn zeta.
  assert (state_ok e (run e (empty_state entity) os).1 ∧
          announced (LastSequence (run e (empty_state entity) os).1) (run e (empty_state entity) os).2) as [_ [Hok Hn]].
  { refine (run_invariant e (fun s evs => state_ok e s ∧ announced (LastSequence s) evs) _ os [] _ _).
    - intros s evs o tr [S A] H. split; [by eapply Evaluate_state_ok|].
      rewrite (Evaluate_LastSequence _ _ _ _ _ H).
      pose proof H as (_ & _ & _ & _ & Hlt & _)%Evaluate_admitted.
      apply (announced_app (LastSequence s)); [done|done| |]; eauto using Evaluate_events_ok, Evaluate_types_NoDup.
    - split; [by apply empty_state_ok|]. split; [constructor|apply NoDup_nil_2]. }
  split; [done|]. eapply list.Forall_impl; [exact Hok|]. cbn. intros ev (p & _ & E). by eapply event_ok_text.
Qed.

(** Every event cites strictly increasing, positive sequence numbers, the
    last of which is the sequence of the observation that decided it. *)
Lemma Evaluate_evidence e s o now tr :
  wf_evaluator e → state_ok e s → Evaluate e s o now = Ok tr →
  Forall (fun ev => evidence_ok (o_Sequence o) (ev_Evidence ev)) (tr_Events tr).
Proof.
  intros. eapply list.Forall_impl; [by eapply Evaluate_events_ok|]. by intros ev [].
Qed.

(** ** Cooldown *)

Definition cooling (ev : Event) : bool := bool_decide (ev_Type ev ∈ ["firing"; "changed"; "new-event"]).
(** The instants of the events the interval of a level trigger separates. *)
Definition fired_at (evs : list Event) : list time := ev_At <$> filter (fun ev => cooling ev = true) evs.

(** Neighbouring instants are at least [d] apart. *)
Fixpoint spaced (d : duration) (l : list time) : bool :=
  match l with
  | a :: (b :: _) as r => (Add a d <=? b) && spaced d r
  | _ => true
  end.

Lemma spaced_snoc d l t :
  spaced d l = true → (∀ a, list.last l = Some a → a + d <= t) → spaced d (l ++ [t])%list = true.
Proof.
  induction l as [|a l IH]; intros Hs Hl; [done|]. destruct l as [|b l].
  - cbn. unfold Add. specialize (Hl a eq_refl). rewrite andb_true_r. apply Z.leb_le. lia.
  - cbn [spaced app] in *. apply andb_true_iff in Hs as [H1 H2]. rewrite H1. by apply IH.
Qed.

Definition cooldown_ok (e : Evaluator) (s : State) (evs : list Event) : Prop :=
  spaced (e_interval e) (fired_at evs) = true ∧
  (∀ a, list.last (fired_at evs) = Some a → a = LastFired s ∧ a ≠ zero_time).

Lemma cooldown_same e s s' evs : LastFired s' = LastFired s → cooldown_ok e s evs → cooldown_ok e s' evs.
Proof. unfold cooldown_ok. by intros ->. Qed.

Lemma cooldown_quiet e s evs ev : cooling ev = false → cooldown_ok e s evs → cooldown_ok e s (evs ++ [ev])%list.
Proof.
  intros Hc. unfold cooldown_ok, fired_at. rewrite list.filter_app, (filter_cons_False _ ev) by (by rewrite Hc).
  by rewrite app_nil_r.
Qed.

Lemma cooldown_fired e s now evs ev :
  cooling ev = true → ev_At ev = now → now ≠ zero_time → cooled_down e s now = true → cooldown_ok e s evs →
  cooldown_ok e (s <| LastFired := now |>) (evs ++ [ev])%list.
Proof.
  intros Hc Ht Hz Hcool [Hs Hl]. unfold cooldown_ok, fired_at in *.
  rewrite list.filter_app, (filter_cons_True _ ev) by done. rewrite filter_nil, fmap_app. cbn. rewrite Ht. split.
  - apply spaced_snoc; [done|]. intros a Ha. destruct (Hl a Ha) as [-> Hnz].
    unfold cooled_down, IsZero, Before, Add in Hcool. apply orb_true_iff in Hcool as [?|?]; bools; [done|lia].
  - intros a. rewrite last_snoc. by intros [= <-].
Qed.

Lemma micro_cooldown e key o now s evs s' evs' :
  p_Trigger (epolicy e) = "level" → now ≠ zero_time → o_Health o ≠ "clock" →
  micro e key o now (s, evs) (s', evs') → cooldown_ok e s evs → cooldown_ok e s' evs'.
Proof.
  intros Ht Hz Hc M C. unfold cooldown_ok in *.
  assert (He : eligible e s now = cooled_down e s now) by (unfold eligible; by rewrite Ht).
  assert (Hkind : ∀ s k r ev, emit e key o now s k r = Ok ev → cooling ev = bool_decide (k ∈ ["firing"; "changed"; "new-event"])
            ∧ ev_At ev = now).
  { intros s1 k r ev (_&_&_&_&Hk&Ha&_)%emit_Ok. unfold cooling. by rewrite Hk. }
  inversion M; subst; clear M;
    try match goal with H : emit _ _ _ _ _ _ _ = Ok _ |- _ => destruct (Hkind _ _ _ _ H) as [Hev Hat]; clear H end;
    try (by eapply cooldown_same; [|exact C]);
    try (by eapply cooldown_quiet).
  - eapply cooldown_same; [|exact C]. apply predicate_incident.
  - eapply cooldown_fired; try done. rewrite Hev. destruct (signal_operator_true (c_Operator (econd e))) as [->| ->]; done.
  - eapply cooldown_same; [|exact C]. unfold count_match. by destruct (_ <? _).
  - eapply (cooldown_same e (s <| LastFired := now |>)); [done|]. eapply cooldown_fired; try done. congruence.
  - eapply cooldown_same; [|exact C]. unfold count_recovery. by destruct (_ =? _).
  - eapply cooldown_quiet; [done|]. eapply cooldown_same; [|exact C]. unfold count_recovery. cbn. by destruct (_ =? _).
Qed.

(** Micro-steps only append events. *)
Lemma micro_prefix e key o now evs0 s evs s' evs' :
  micro e key o now (s, evs) (s', evs') → micro e key o now (s, (evs0 ++ evs)%list) (s', (evs0 ++ evs')%list).
Proof. intros M. inversion M; subst; clear M; rewrite ?app_assoc; by econstructor. Qed.

Lemma Evaluate_nonzero e s o now tr : Evaluate e s o now = Ok tr → now ≠ zero_time.
Proof. intros (key & st & Ha & _)%Evaluate_steps. by apply admission_Ok in Ha as (? & _). Qed.

(** With a level trigger, and without clock discontinuities, the firing,
    changed and new-event announcements of an entity are at least the policy's
    interval apart. *)
Lemma run_level_cooldown e entity os :
  p_Trigger (epolicy e) = "level" → Forall (fun o => o_Health o ≠ "clock") os →
  spaced (e_interval e) (fired_at (run e (empty_state entity) os).2) = true.
Proof.
  intros Ht Hos.
  enough (∀ s evs, cooldown_ok e s evs → cooldown_ok e (run e s os).1 (evs ++ (run e s os).2)%list) as Hrun.
  { apply (Hrun (empty_state entity) []). by split. }
  induction Hos as [|o os Ho Hos IH]; intros s evs C; cbn; [by rewrite app_nil_r|].
  destruct (Evaluate _ _ _ _) as [tr|] eqn:He; [|by apply IH].
  destruct (run e (tr_State tr) os) as [s' evs'] eqn:Hr. cbn. rewrite app_assoc.
  specialize (IH (tr_State tr) (evs ++ tr_Events tr)%list). rewrite Hr in IH. apply IH.
  pose proof (Evaluate_nonzero _ _ _ _ _ He) as Hz. apply Evaluate_admitted in He as (key & Hs & _).
  refine (steps_invariant e key o _ (fun x => cooldown_ok e x.1 (evs ++ x.2)%list) _ _ _ Hs _).
  - intros [] [] M. cbn. by eapply micro_cooldown, micro_prefix.
  - cbn [fst snd]. rewrite app_nil_r. by eapply cooldown_same; [|exact C].
Qed.

(** ** Hysteresis *)

(** Every observation of the run is decided with verdict [v], without a gap. *)
Fixpoint all_decided (e : Evaluator) (s : State) (os : list Observation) (v : bool) : bool :=
  match os with
  | [] => true
  | o :: os =>
      match Evaluate e s o (o_AcceptedAt o) with
      | Ok tr => Known tr && eqb (Matched tr) v && negb (bool_decide ("gap" ∈ types (tr_Events tr)))
                 && all_decided e (tr_State tr) os v
      | Err _ => false
      end
  end.

(** One such observation moves the incident by the automaton. *)
Lemma all_decided_step e s o os v :
  wf_evaluator e → state_ok e s → signal_operator (c_Operator (econd e)) = false →
  all_decided e s (o :: os) v = true →
  ∃ tr, Evaluate e s o (o_AcceptedAt o) = Ok tr ∧ state_ok e (tr_State tr) ∧ all_decided e (tr_State tr) os v = true ∧
        incident_of (tr_State tr) = (decision e s (o_AcceptedAt o) (incident_of s) v).1.
Proof.
  intros Hwf Hok Hop H. cbn in H. destruct (Evaluate _ _ _ _) as [tr|] eqn:He; [|done].
  apply andb_true_iff in H as [H Hrest]. apply andb_true_iff in H as [H Hg]. apply andb_true_iff in H as [Hk Hm].
  apply eqb_prop in Hm. bools. exists tr. split_and!; [done|by eapply Evaluate_state_ok|done|].
  destruct (Evaluate_outcome _ _ _ _ _ Hwf Hok He) as (g & h & m & Ht & Hgap & _ & Ho).
  rewrite Hk, Hop in Ho. destruct Ho as [_ Ho]. destruct Hgap as [->| ->].
  - rewrite bool_decide_true, Hm in Ho by done. by rewrite <- Ho.
  - exfalso. apply Hg. rewrite Ht. set_solver.
Qed.

Lemma run_cons_Ok e s o os tr :
  Evaluate e s o (o_AcceptedAt o) = Ok tr → (run e s (o :: os)).1 = (run e (tr_State tr) os).1.
Proof. intros H. cbn. rewrite H. by destruct (run e (tr_State tr) os). Qed.

(** A closed incident opens after exactly [Consecutive] consecutive matching
    samples: with fewer it stays closed, with more it stays open. *)
Lemma consecutive_matches_open e s os :
  wf_evaluator e → state_ok e s → signal_operator (c_Operator (econd e)) = false →
  Open s = false → all_decided e s os true = true → os ≠ [] →
  Open (run e s os).1 = (p_Consecutive (epolicy e) - Matches s <=? Z.of_nat (length os)).
Proof.
  intros Hwf Hok Hop Ho Hd Hne.
  assert (∀ os s, state_ok e s → all_decided e s os true = true →
    Open (run e s os).1 = Open s || (negb (length os =? 0)%nat && (p_Consecutive (epolicy e) - Matches s <=? Z.of_nat (length os)))) as Hrun.
  { clear s os Hok Ho Hd Hne. induction os as [|o os IH]; intros s Hok Hd; [by rewrite orb_false_r|].
    destruct (all_decided_step _ _ _ _ _ Hwf Hok Hop Hd) as (tr & He & Hok' & Hd' & Hi).
    rewrite (run_cons_Ok _ _ _ _ _ He), (IH _ Hok' Hd'). unfold incident_of, decision, automaton in Hi. cbn in Hi.
    injection Hi as -> -> _. destruct Hok. destruct (Open s); [done|]. cbn [orb length Nat.eqb negb andb].
    destruct os; cbn [length Nat.eqb negb andb]; rewrite ?orb_false_r;
      repeat match goal with |- context [?a <=? ?b] => destruct (Z.leb_spec a b) end; cbn; lia. }
  rewrite (Hrun _ _ Hok Hd), Ho. by destruct os.
Qed.

(** An open incident closes after exactly [RecoverAfter] consecutive samples
    that do not match. *)
Lemma consecutive_misses_close e s os :
  wf_evaluator e → state_ok e s → signal_operator (c_Operator (econd e)) = false →
  Open s = true → all_decided e s os false = true →
  Open (run e s os).1 = (Z.of_nat (length os) <? p_RecoverAfter (epolicy e) - Recoveries s).
Proof.
  intros Hwf Hok Hop Ho Hd. destruct (decide (os = [])) as [->|Hne].
  { cbn. destruct Hok. rewrite Ho. symmetry. apply Z.ltb_lt. lia. }
  assert (∀ os s, state_ok e s → all_decided e s os false = true →
    Open (run e s os).1 = Open s && (Z.of_nat (length os) <? p_RecoverAfter (epolicy e) - Recoveries s)) as Hrun.
  { clear s os Hok Ho Hd Hne. induction os as [|o os IH]; intros s Hok Hd.
    { destruct Hok. cbn. destruct (Open s); [|done]. symmetry. apply Z.ltb_lt. lia. }
    destruct (all_decided_step _ _ _ _ _ Hwf Hok Hop Hd) as (tr & He & Hok' & Hd' & Hi).
    rewrite (run_cons_Ok _ _ _ _ _ He), (IH _ Hok' Hd'). unfold incident_of, decision, automaton in Hi. cbn in Hi.
    destruct (Open s); [|by injection Hi as -> _ ->].
    destruct (Z.leb_spec (p_RecoverAfter (epolicy e)) (Recoveries s + 1)); injection Hi as -> _ ->; cbn [andb length];
      symmetry; [apply Z.ltb_ge; lia|].
    repeat match goal with |- context [?a <? ?b] => destruct (Z.ltb_spec a b) end; lia. }
  rewrite (Hrun _ _ Hok Hd), Ho. done.
Qed.

(** * Windows of numeric conditions, and event deduplication

    The evaluator keeps only the samples of its longest window and aggregates
    per window number; here both are related to the whole history and to the
    expression alone. *)

(** ** The expression over a whole history *)

Definition window_values (h : list Sample) (now : time) (w : duration) : list float64 :=
  sm_Value <$> window_samples now w h.

Fixpoint history_eval (x : ConditionExpr) (h : list Sample) (now : time) (v : float64) : bool :=
  match x with
  | Leaf l =>
      let c := leaf_cond l in
      CompareNumber (if Windowed c then Aggregate (Func c) (window_values h now (Window c)) else v) (Op c) (Literal c)
  | Compound AND l r => history_eval l h now v && history_eval r h now v
  | Compound OR l r => history_eval l h now v || history_eval r h now v
  end.

(** A window of length at most [m] at [now] sees the same samples of the
    history after the history was cut to [m] at an earlier instant. *)
Lemma window_cut t now m w h :
  t <= now → w <= m → Forall (fun x => sm_At x <= t) h →
  window_samples now w (window_samples t m h) = window_samples now w h.
Proof.
  intros Ht Hw. induction 1 as [|x h Hx Hh IH]; [done|]. unfold window_samples in *. rewrite !filter_cons.
  destruct (decide (in_window t m x = true)) as [Hin|Hout]; rewrite ?filter_cons, IH; [done|].
  rewrite decide_False; [done|]. intros Hn. apply Hout. unfold in_window, After, Add in *.
  apply andb_true_iff in Hn as [H1 H2]. bools. apply andb_true_iff. split; [apply Z.ltb_lt; lia|].
  apply negb_true_iff, Z.ltb_ge. lia.
Qed.

Lemma window_samples_app now w h h' :
  window_samples now w (h ++ h')%list = (window_samples now w h ++ window_samples now w h')%list.
Proof. apply list.filter_app. Qed.

(** What the loop over the windows leaves in the context. *)
Lemma aggregate_windows_spec ws h now ctx ctx' :
  NoDup (w_ID <$> ws) → aggregate_windows ws h now ctx = inl ctx' →
  ctx_Value ctx' = ctx_Value ctx ∧
  (∀ w, w ∈ ws → ctx_Aggregates ctx' !! w_ID w = Some (Aggregate (w_Func w) (window_values h now (w_Window w)))
                 ∧ ctx_Available ctx' !! w_ID w = Some true) ∧
  (∀ i, i ∉ (w_ID <$> ws) → ctx_Aggregates ctx' !! i = ctx_Aggregates ctx !! i ∧
                            ctx_Available ctx' !! i = ctx_Available ctx !! i).
Proof.
  revert ctx. induction ws as [|w ws IH]; intros ctx Hn H; cbn in H.
  { injection H as <-. split_and!; [done|set_solver|done]. }
  cbn in Hn. apply list.NoDup_cons in Hn as [Hw Hn]. destruct (_ =? _)%nat; [done|]. destruct (_ || _); [done|].
  destruct (IH _ Hn H) as (Hv & Hin & Hout). cbn in *. split_and!; [done| |].
  - intros w' [->|Hw']%elem_of_cons; [|by apply Hin].
    destruct (Hout (w_ID w) Hw) as [-> ->]. by rewrite !lookup_insert_eq.
  - intros i Hi. destruct (Hout i) as [-> ->]; [set_solver|].
    rewrite !lookup_insert_ne; [done|set_solver..].
Qed.

Lemma Eval_history x h now v ctx :
  ctx_Value ctx = v →
  (∀ w, w ∈ Windows x → ctx_Aggregates ctx !! w_ID w = Some (Aggregate (w_Func w) (window_values h now (w_Window w)))
                        ∧ ctx_Available ctx !! w_ID w = Some true) →
  Eval_ x ctx = history_eval x h now v.
Proof.
  intros Hv. induction x as [l|op l IHl r IHr]; intros Hw; cbn in *.
  - unfold leaf_eval. destruct (Windowed (leaf_cond l)); [|by rewrite Hv].
    destruct (Hw _ (list_elem_of_here _ _)) as [Ha Hb]. cbn in Ha, Hb. by rewrite Ha, Hb.
  - destruct op; rewrite IHl, IHr; try done; intros w Hi; apply Hw, elem_of_app; auto.
Qed.

(** Windows an accepted expression may have are no longer than the longest. *)
Lemma max_window_bound ws acc m : max_window ws acc = Ok m → acc <= m ∧ Forall (fun w => w_Window w <= m) ws.
Proof.
  revert acc. induction ws as [|w ws IH]; intros acc H; cbn in H; res_inv; [split; [lia|constructor]|].
  destruct (IH _ H) as [Hm Hf]. destruct (Z.ltb_spec acc (w_Window w)); (split; [lia|constructor; [lia|done]]).
Qed.

Lemma New_expression pt def revision e x :
  New pt def revision = Ok e → e_expression e = Some x →
  NoDup (w_ID <$> Windows x) ∧ 0 <= e_maxWindow e ∧ Forall (fun w => w_Window w <= e_maxWindow e) (Windows x).
Proof.
  unfold New. intros H Hx. apply bind_Ok in H as (d & _ & H). cbn zeta in H. res_inv. destruct a as [x' m]. res_inv.
  cbn in *. simplify_eq. destruct (c_Numeric (condition_of def) ≟ ""); res_inv.
  match goal with Hp : ParseExpression _ = Ok _, Hm : max_window _ _ = Ok _ |- _ =>
    apply ParseExpression_ids in Hp; apply max_window_bound in Hm as [? ?] end.
  split_and!; [|done|done]. match goal with Hp : w_ID <$> _ = _ |- _ => rewrite Hp end. apply NoDup_seqZ.
Qed.

Lemma window_nonpos now w h : w <= 0 → window_samples now w h = [].
Proof.
  intros Hw. unfold window_samples. induction h as [|a h IH]; [done|]. rewrite filter_cons, decide_False; [done|].
  unfold in_window, After, Add. intros Hn. bools. lia.
Qed.

Lemma window_now now w s : 0 < w → sm_At s = now → window_samples now w [s] = [s].
Proof.
  intros Hw Hs. unfold window_samples. rewrite filter_cons, decide_True; [done|].
  unfold in_window, After, Add. rewrite Hs. apply andb_true_iff. split; [apply Z.ltb_lt; lia|].
  apply negb_true_iff, Z.ltb_ge. lia.
Qed.

(** The aggregates depend on the samples only through the windows. *)
Lemma aggregate_windows_ext ws h h' now ctx :
  Forall (fun w => window_samples now (w_Window w) h = window_samples now (w_Window w) h') ws →
  aggregate_windows ws h now ctx = aggregate_windows ws h' now ctx.
Proof.
  intros H. revert ctx. induction H as [|w ws Hw Hws IH]; intros ctx; cbn; [done|]. rewrite Hw.
  do 2 (case_match; [done|]). apply IH.
Qed.

Definition sample_of (o : Observation) (now : time) (v : float64) : Sample :=
  {| sm_At := now; sm_Value := v; sm_Sequence := o_Sequence o |}.

Section History.
Context (e : Evaluator) (x : ConditionExpr) (s : State) (v : value) (o : Observation) (now t : time)
        (h : list Sample) (number : float64).
Hypothesis Hids : NoDup (w_ID <$> Windows x).
Hypothesis Hnonneg : 0 <= e_maxWindow e.
Hypothesis Hmax : Forall (fun w => w_Window w <= e_maxWindow e) (Windows x).
Hypothesis Hnumber : Number v = Some number.
Hypothesis Hsamples : Samples s = window_samples t (e_maxWindow e) h.
Hypothesis Hpast : t <= now.
Hypothesis Hhist : Forall (fun x => sm_At x <= t) h.

(** What the predicate keeps: the samples of the longest window, and the new one. *)
Definition kept : list Sample :=
  if 0 <? e_maxWindow e then (window_samples now (e_maxWindow e) (Samples s) ++ [sample_of o now number])%list
  else window_samples now (e_maxWindow e) (Samples s).

Lemma kept_history : kept = window_samples now (e_maxWindow e) (h ++ [sample_of o now number])%list.
Proof.
  unfold kept. rewrite window_samples_app, Hsamples, (window_cut t now (e_maxWindow e)) by (done || lia).
  destruct (Z.ltb_spec 0 (e_maxWindow e)); [by rewrite window_now|].
  by rewrite (window_nonpos _ _ [_]), app_nil_r by lia.
Qed.

Lemma kept_window w :
  w <= e_maxWindow e → window_samples now w kept = window_samples now w (h ++ [sample_of o now number])%list.
Proof.
  intros Hw. rewrite kept_history. apply window_cut; [done|done|]. apply Forall_app. split.
  - eapply list.Forall_impl; [exact Hhist|]. cbn. intros; lia.
  - by apply Forall_singleton.
Qed.

Lemma numeric_history :
  let r := predicate_numeric e x s v o now in
  (v_Known r = true → v_Matched r = history_eval x (h ++ [sample_of o now number])%list now number) ∧
  (Z.of_nat (length (window_samples now (e_maxWindow e) h)) < l_MaxSamples (elimits e) →
   Samples (v_State r) = window_samples now (e_maxWindow e) (h ++ [sample_of o now number])%list).
Proof.
  cbn zeta. rewrite <- kept_history. rewrite <- (window_cut t now (e_maxWindow e) _ h Hpast), <- Hsamples by done.
  unfold predicate_numeric. rewrite Hnumber. cbn zeta.
  change (Samples (s <| Samples := window_samples now (e_maxWindow e) (Samples s) |>))
    with (window_samples now (e_maxWindow e) (Samples s)).
  destruct (_ && _) eqn:Hfull; [bools; split; [by destruct (After _ _)|lia]|].
  set (s2 := if 0 <? e_maxWindow e then _ else _).
  assert (H2 : Samples s2 = kept) by (subst s2; unfold kept, sample_of; by destruct (0 <? e_maxWindow e)).
  clearbody s2. destruct (Before now (ClockWindowUntil s2)); [done|].
  destruct (Before now _); [done|]. change (Samples (upd _ _ _)) with (Samples s2). rewrite H2.
  rewrite (aggregate_windows_ext _ _ (h ++ [sample_of o now number])%list).
  2:{ eapply list.Forall_impl; [exact Hmax|]. cbn. intros w. apply kept_window. }
  destruct (aggregate_windows _ _ _ _) as [ctx|] eqn:Hagg; [|done]. cbn. split; [|done]. intros _.
  apply aggregate_windows_spec in Hagg as (Hv & Hin & _); [|done]. by apply Eval_history.
Qed.
End History.

(** C23: Windows are exact.  When the evaluator of a compiled numeric condition
    decides, its verdict is the condition over the whole history of samples,
    each window being the samples of the half-open interval (now - w, now],
    although only the samples of the longest window were kept; and what it keeps
    is again the cut of the extended history. *)
Theorem numeric_windows_exact pt def revision e x s v o now t h number :
  New pt def revision = Ok e → e_expression e = Some x → Number v = Some number →
  Samples s = window_samples t (e_maxWindow e) h → t <= now → Forall (fun y => sm_At y <= t) h →
  let r := predicate_numeric e x s v o now in
  let h' := (h ++ [sample_of o now number])%list in
  (v_Known r = true → v_Matched r = history_eval x h' now number) ∧
  (Z.of_nat (length (window_samples now (e_maxWindow e) h)) < l_MaxSamples (elimits e) →
   Samples (v_State r) = window_samples now (e_maxWindow e) h').
Proof.
  intros HN Hx Hn Hs Ht Hh. destruct (New_expression _ _ _ _ _ HN Hx) as (Hids & H0 & Hmax).
  by eapply numeric_history.
Qed.

(** ** Deduplication of event identities *)

(** The identities a sequence of values announces as new, with their instants. *)
Fixpoint new_events (e : Evaluator) (s : State) (ins : list (value * time)) : list (string * time) :=
  match ins with
  | [] => []
  | (v, now) :: ins =>
      let r := signal_new_event e s v now in
      let rest := new_events e (v_State r) ins in
      match event_identity v with
      | Some id => if v_Known r && v_Matched r then (id, now) :: rest else rest
      | None => rest
      end
  end.

Definition dedup_for (e : Evaluator) : duration := duration_or_zero (c_DedupFor (econd e)).

(** The identity announced at [t] is remembered until its expiry. *)
Definition remembered (e : Evaluator) (s : State) (id : string) (t now : time) : Prop :=
  now < t + dedup_for e → ∃ expiry, Seen s !! id = Some expiry ∧ t + dedup_for e <= expiry.

Lemma live_lookup now m (id : string) (x : time) : m !! id = Some x → now < x → live now m !! id = Some x.
Proof. intros Hm Hx. apply map_lookup_filter_Some. split; [done|]. cbn. unfold Before. apply Is_true_eq_left, Z.ltb_lt. lia. Qed.

Lemma remembered_step e s v id t t0 now :
  t0 <= now → remembered e s id t t0 → remembered e (v_State (signal_new_event e s v now)) id t now.
Proof.
  intros Ht0 Hr Hlt. destruct Hr as (x & Hx & Hle); [lia|]. unfold signal_new_event.
  destruct (event_identity v) as [id'|]; [|by exists x]. cbn zeta.
  pose proof (live_lookup now _ _ _ Hx ltac:(lia)) as Hlive.
  destruct (match Seen _ !! id' with Some _ => _ | None => _ end) eqn:Hseen; [by exists x|].
  destruct (_ <=? _); [by exists x|]. cbn. destruct (decide (id' = id)) as [->|Hne].
  - cbn in Hseen. rewrite Hlive in Hseen. unfold Before in Hseen. bools. lia.
  - exists x. by rewrite lookup_insert_ne.
Qed.

Lemma accepted_not_seen e s v id now :
  event_identity v = Some id → v_Known (signal_new_event e s v now) && v_Matched (signal_new_event e s v now) = true →
  (∀ x, Seen s !! id = Some x → x <= now) ∧ Seen (v_State (signal_new_event e s v now)) !! id = Some (now + dedup_for e).
Proof.
  intros Hid. unfold signal_new_event. rewrite Hid. cbn zeta.
  destruct (match Seen _ !! id with Some _ => _ | None => _ end) eqn:Hseen; [done|].
  destruct (_ <=? _); [done|]. cbn. intros _. split.
  - intros x Hx. destruct (Z.le_gt_cases x now); [done|].
    cbn in Hseen. rewrite (live_lookup now _ _ _ Hx) in Hseen by lia. unfold Before in Hseen. bools. lia.
  - by rewrite lookup_insert_eq.
Qed.

Lemma new_events_from e ins s id t t0 :
  Sorted Z.le (t0 :: (snd <$> ins)) → remembered e s id t t0 →
  Forall (fun p => p.1 = id → t + dedup_for e <= p.2) (new_events e s ins).
Proof.
  revert s t0. induction ins as [|[v now] ins IH]; intros s t0 Hs Hr; cbn; [constructor|].
  cbn in Hs. apply Sorted_inv in Hs as [Hs Hh]. apply HdRel_inv in Hh.
  pose proof (IH _ _ Hs (remembered_step e s v id t t0 now Hh Hr)) as Hrest.
  destruct (event_identity v) as [id'|] eqn:Hid; [|done]. destruct (_ && _) eqn:Ha; [|done].
  constructor; [|done]. cbn. intros ->. destruct (accepted_not_seen _ _ _ _ _ Hid Ha) as [Hold _].
  destruct (Z.le_gt_cases (t + dedup_for e) now); [done|]. destruct Hr as (x & Hx & Hle); [lia|].
  specialize (Hold x Hx). lia.
Qed.

(** An event identity is announced again only after the deduplication time:
    for values arriving in time order, any two announcements of one identity
    are at least [dedupFor] apart, from any state. *)
Lemma new_events_deduplicated e s ins i j id t t' :
  Sorted Z.le (snd <$> ins) → (i < j)%nat →
  new_events e s ins !! i = Some (id, t) → new_events e s ins !! j = Some (id, t') → t + dedup_for e <= t'.
Proof.
  revert s i j. induction ins as [|[v now] ins IH]; intros s i j Hs Hij Hi Hj; [done|]. cbn in Hs.
  pose proof (Sorted_inv Hs) as [Hs' _]. cbn in Hi, Hj.
  destruct (event_identity v) as [id'|] eqn:Hid; [|by eapply IH].
  destruct (_ && _) eqn:Ha; [|by eapply IH].
  destruct i as [|i], j as [|j]; cbn in Hi, Hj; try lia; [|by eapply (IH _ i j); [| lia| |]].
  injection Hi as -> ->. destruct (accepted_not_seen _ _ _ _ _ Hid Ha) as [_ Hnew].
  pose proof (new_events_from e ins _ id t t Hs ltac:(intros _; eauto with lia)) as Hall.
  rewrite list.Forall_forall in Hall. apply (Hall (id, t')); [by eapply list_elem_of_lookup_2|done].
Qed.
