(* ===== verification/EvaluatorExamples.v ===== *)
(** * Concrete watches

    Two compiled definitions, their evaluators and short runs: the theorems on
    condition evaluation applied where every hypothesis is computed. *)
From S2P Require Import Prelude GoText GoFloat GoTime GoJson Sha256 Watch Numeric Evaluator EvaluatorFacts EvaluatorSpec EvaluatorEvents.

Definition no_source : Source :=
  {| s_Logs := None; s_ObservedAtField := ""; s_Type := "push"; s_URL := ""; s_URLRef := None; s_Every := "";
     s_Timeout := ""; s_Headers := ∅; s_Fields := ∅; s_ItemsPath := ""; s_JQ := ""; s_Argv := []; s_Directory := "";
     s_Env := ∅ |}.

Definition watch_of (c : Condition) (trigger interval : string) (consecutive : Z) : Definition_ :=
  {| d_APIVersion := APIVersion; d_Kind := "Watch"; d_Metadata := {| md_ID := "cpu"; md_Name := "CPU" |};
     d_Spec := {| sp_Source := no_source; sp_Condition := c;
       sp_Policy := {| p_Trigger := trigger; p_Consecutive := consecutive; p_RecoverAfter := 1; p_OnUnknown := "hold";
                       p_Interval := interval; p_MaxGap := "" |};
       sp_GroupBy := []; sp_Match := ∅; sp_Message := "load"; sp_Destinations := [];
       sp_Limits := {| l_MaxEntities := 10; l_MaxSamples := 10; l_MaxBytes := 1024; l_MaxOutputs := 10; l_IdleTTL := "1h" |} |} |}.

Definition threshold : Condition :=
  {| c_Field := "load"; c_Operator := "gt"; c_Value := VFloat (of_int 90); c_Numeric := ""; c_MissingFor := ""; c_DedupFor := "" |}.
Definition average : Condition :=
  {| c_Field := "load"; c_Operator := ""; c_Value := VNil; c_Numeric := "avg(value) over 5m > 50 OR value > 95";
     c_MissingFor := ""; c_DedupFor := "" |}.
Definition arrivals : Condition :=
  {| c_Field := "id"; c_Operator := "new-event"; c_Value := VNil; c_Numeric := ""; c_MissingFor := ""; c_DedupFor := "10m" |}.

(** A template that writes its text unchanged. *)
Definition plain_template (text : string) : result template := Ok (fun _ => ([text], None)).

Definition nothing : Definition_ := watch_of threshold "" "" 0.
Definition built (d : Definition_) : Evaluator :=
  match New plain_template d "r1" with
  | Ok e => e
  | Err _ => {| e_definition := nothing; e_revision := ""; e_expression := None; e_maxWindow := 0; e_interval := 0;
                e_maxGap := 0; e_message := fun _ => ([], None) |}
  end.

Definition cpu : Definition_ := watch_of threshold "transition" "" 2.
Definition cpu_level : Definition_ := watch_of threshold "level" "1m" 1.
Definition cpu_average : Definition_ := watch_of average "transition" "" 1.
Definition jobs : Definition_ := watch_of arrivals "level" "" 1.

Lemma built_cpu : New plain_template cpu "r1" = Ok (built cpu).
Proof. vm_compute. reflexivity. Qed.
Lemma built_average : New plain_template cpu_average "r1" = Ok (built cpu_average).
Proof. vm_compute. reflexivity. Qed.

Definition observe (sequence : Z) (at_ : time) (health : string) (fs : fields) : Observation :=
  {| o_Entity := ""; o_Deadline := None; o_Sequence := sequence; o_InputID := ""; o_AcceptedAt := at_; o_ObservedAt := None;
     o_Fields := fs; o_Health := health; o_Detail := "" |}.
Definition load (sequence seconds value : Z) : Observation :=
  observe sequence (from_unix_nano (seconds * Second)) "ok" {[ "load" := VFloat (of_int value) ]}.
Definition failure (sequence seconds : Z) : Observation :=
  observe sequence (from_unix_nano (seconds * Second)) "unknown" ∅.

Definition history : list Observation :=
  [load 1 10 95; load 2 20 97; load 3 30 99; failure 4 40; failure 5 50; load 6 60 10; load 6 60 10; load 7 70 99].

Example cpu_run :
  types (run (built cpu) (empty_state "") history).2 = ["firing"; "source_error"; "source_recovered"; "recovered"].
Proof. vm_compute. reflexivity. Qed.

Definition after_one : State := (run (built cpu) (empty_state "") [load 1 10 95]).1.

(** ** The theorems at these inputs *)

Ltac int64 := vm_compute; split; discriminate.

Lemma cpu_wf : wf_evaluator (built cpu).
Proof. eapply (New_wf plain_template cpu "r1"); [int64|int64|exact built_cpu]. Qed.

Lemma run_bounded_state_witness : state_ok (built cpu) (run (built cpu) (empty_state "") history).1.
Proof. apply (run_bounded_state plain_template cpu "r1"); [int64|int64|exact built_cpu]. Defined.

Lemma run_event_identities_witness :
  NoDup (event_text <$> (run (built cpu) (empty_state "") history).2) ∧
  length (run (built cpu) (empty_state "") history).2 = 4%nat.
Proof.
  split; [|vm_compute; reflexivity].
  apply (run_event_identities plain_template cpu "r1" (built cpu) "" history); [int64|int64|exact built_cpu].
Defined.

Lemma run_incident_alternates_witness :
  replay "firing" "recovered" false (types (run (built cpu) (empty_state "") history).2) = Some false.
Proof.
  change (replay "firing" "recovered" (Open (empty_state "")) (types (run (built cpu) (empty_state "") history).2) = Some false).
  rewrite (run_incident_alternates (built cpu) (empty_state "") history); vm_compute; [reflexivity|discriminate].
Defined.

Lemma Evaluate_refines_incident_witness :
  match Evaluate (built cpu) (empty_state "") (load 1 10 95) (from_unix_nano (10 * Second)) with
  | Ok tr => ∃ g h m, types (tr_Events tr) = (g ++ h ++ m)%list ∧ (g = [] ∨ g = ["gap"]) ∧
      outcome (built cpu) (empty_state "") (from_unix_nano (10 * Second))
        (if g ≟ [] then incident_of (empty_state "") else reset (incident_of (empty_state ""))) tr h m
  | Err _ => False
  end.
Proof.
  destruct (Evaluate (built cpu) (empty_state "") (load 1 10 95) (from_unix_nano (10 * Second))) as [tr|m] eqn:E.
  - apply (Evaluate_refines_incident _ _ (load 1 10 95)); [exact cpu_wf|apply empty_state_ok, cpu_wf|exact E].
  - vm_compute in E. discriminate.
Defined.

Lemma Evaluate_evidence_witness :
  match Evaluate (built cpu) (empty_state "") (failure 1 10) (from_unix_nano (10 * Second)) with
  | Ok tr => Forall (fun ev => evidence_ok 1 (ev_Evidence ev)) (tr_Events tr) ∧ length (tr_Events tr) = 1%nat
  | Err _ => False
  end.
Proof.
  destruct (Evaluate (built cpu) (empty_state "") (failure 1 10) (from_unix_nano (10 * Second))) as [tr|m] eqn:E.
  - split; [apply (Evaluate_evidence _ _ (failure 1 10) _ _ cpu_wf (empty_state_ok _ _ cpu_wf) E)|].
    vm_compute in E. injection E as <-. reflexivity.
  - vm_compute in E. discriminate.
Defined.

Lemma consecutive_matches_open_witness :
  Open (run (built cpu) (empty_state "") [load 1 10 95; load 2 20 97]).1 = true.
Proof.
  rewrite (consecutive_matches_open (built cpu) (empty_state "") [load 1 10 95; load 2 20 97]);
    [vm_compute; reflexivity|exact cpu_wf|apply empty_state_ok, cpu_wf|vm_compute; reflexivity..|discriminate].
Defined.

Definition opened : State := (run (built cpu) (empty_state "") [load 1 10 95; load 2 20 97]).1.
Lemma opened_ok : state_ok (built cpu) opened.
Proof.
  apply (run_invariant (built cpu) (fun s _ => state_ok (built cpu) s) _ _ []); [|apply empty_state_ok, cpu_wf].
  intros. eapply Evaluate_state_ok; eauto using cpu_wf.
Qed.

Lemma consecutive_misses_close_witness : Open (run (built cpu) opened [load 3 30 10]).1 = false.
Proof.
  rewrite (consecutive_misses_close (built cpu) opened [load 3 30 10]);
    [vm_compute; reflexivity|exact cpu_wf|exact opened_ok|vm_compute; reflexivity..].
Defined.

Lemma run_level_cooldown_witness :
  spaced Minute (fired_at (run (built cpu_level) (empty_state "") [load 1 10 95; load 2 20 97; load 3 90 99]).2) = true.
Proof.
  apply (run_level_cooldown (built cpu_level) "" [load 1 10 95; load 2 20 97; load 3 90 99]);
    [vm_compute; reflexivity|repeat constructor; discriminate].
Defined.

Definition average_expr : ConditionExpr :=
  match e_expression (built cpu_average) with Some x => x | None => Leaf {| leaf_cond := {| Windowed := false; RunBounded := false;
    Op := ""; Literal := nan; Func := ""; Window := 0 |}; leaf_id := 0 |} end.

Definition first_at : time := from_unix_nano (10 * Second).
Definition second_at : time := from_unix_nano (20 * Second).
Definition one_sample : list Sample := [sample_of (load 1 10 30) first_at (of_int 30)].
Definition sampled : State := (empty_state "") <| Samples := one_sample |>.

Lemma numeric_windows_exact_witness :
  v_Known (predicate_numeric (built cpu_average) average_expr sampled (VFloat (of_int 80)) (load 2 20 80) second_at) = true ∧
  v_Matched (predicate_numeric (built cpu_average) average_expr sampled (VFloat (of_int 80)) (load 2 20 80) second_at)
  = history_eval average_expr (one_sample ++ [sample_of (load 2 20 80) second_at (of_int 80)])%list second_at (of_int 80).
Proof.
  split; [vm_compute; reflexivity|].
  pose proof (numeric_windows_exact plain_template cpu_average "r1" (built cpu_average) average_expr sampled
    (VFloat (of_int 80)) (load 2 20 80) second_at first_at one_sample (of_int 80) built_average) as H.
  destruct H as [H _]; [vm_compute; reflexivity..|vm_compute; discriminate|repeat constructor; vm_compute; discriminate|].
  apply H. vm_compute. reflexivity.
Defined.

Lemma new_events_deduplicated_witness :
  let ins := [(VString "a", 0); (VString "a", 5 * Minute); (VString "a", 12 * Minute)] in
  new_events (built jobs) (empty_state "") ins = [("a", 0); ("a", 12 * Minute)] ∧ 10 * Minute <= 12 * Minute.
Proof.
  cbn zeta. split; [vm_compute; reflexivity|].
  apply (new_events_deduplicated (built jobs) (empty_state "")
    [(VString "a", 0); (VString "a", 5 * Minute); (VString "a", 12 * Minute)] 0 1 "a" 0 (12 * Minute));
    [|lia|vm_compute; reflexivity..]. repeat constructor; vm_compute; discriminate.
Defined.
