(* ===== verification/LogWindow.v ===== *)
(** * Log windows: [internal/logs/window.go], [internal/logs/summary.go]

    A ring of per-second counters, the snapshot over the completed seconds of
    the window, and the assessment of a producer's summary.  The mutex makes each
    method one step. *)
From S2P Require Import Prelude GoText GoFloat.

(** ** Data *)

(** The constants of [Level]; a [Level] is an int. *)
Definition Unclassified : Z := 0.
Definition Trace : Z := 1.
Definition Debug : Z := 2.
Definition Info : Z := 3.
Definition Warning : Z := 4.
Definition Error : Z := 5.
Definition Fatal : Z := 6.

Record Classification := { Level : Z; Invalid : bool; Blank : bool }.

Record WindowConfig := { wc_Window : duration; wc_MinEvents : Z; wc_MinCoverage : float64 }.

Record bucket := { b_second : Z; b_counts : list Z; b_invalid : Z; b_channels : list Z; b_dropped : Z }.

Record Window := {
  w_config : WindowConfig; w_started : time; w_last : time; w_gapUntil : time; w_buckets : list bucket }.

Record Summary := {
  sm_Version : Z; sm_WindowStart : time; sm_WindowEnd : time; sm_WindowSeconds : Z;
  sm_Total : Z; sm_Classified : Z; sm_Unclassified : Z; sm_Warnings : Z; sm_Errors : Z; sm_Fatal : Z;
  sm_Invalid : Z; sm_Stdout : Z; sm_Stderr : Z; sm_Other : Z; sm_Dropped : Z; sm_Coverage : float64;
  sm_WarningRatio : option float64; sm_ErrorRatio : option float64;
  sm_Complete : bool; sm_Ready : bool; sm_Reason : string }.

(** The zero value of a bucket, for a second. *)
Definition new_bucket (second : Z) : bucket :=
  {| b_second := second; b_counts := repeat 0 7; b_invalid := 0; b_channels := repeat 0 3; b_dropped := 0 |}.

(** ** Operations *)

Definition NewWindow (c : WindowConfig) (at_ : time) : result Window :=
  fail_if ((wc_Window c <? Second) || (Hour <? wc_Window c) || negb (Z.rem (wc_Window c) Second =? 0)
           || (wc_MinEvents c <? 1) || IsNaN (wc_MinCoverage c) || flt (wc_MinCoverage c) (of_int 0)
           || flt (of_int 1) (wc_MinCoverage c))
    "log windows require 1–3600 whole seconds, positive minimum records, and coverage between 0 and 1" ;;
  Ok {| w_config := c; w_started := at_; w_last := at_; w_gapUntil := zero_time;
        w_buckets := repeat (new_bucket 0) (Z.to_nat (Z.quot (wc_Window c) Second + 1)) |}.

Definition Reset (w : Window) (at_ : time) : Window :=
  {| w_config := w_config w; w_started := at_; w_last := at_; w_gapUntil := zero_time;
     w_buckets := repeat (new_bucket 0) (length (w_buckets w)) |}.

(** [gap] (and [Gap], which holds the lock around it). *)
Definition Gap (w : Window) (at_ : time) : Window :=
  let until := Add (Truncate at_ Second) (wc_Window (w_config w) + Second) in
  {| w_config := w_config w; w_started := w_started w; w_last := w_last w;
     w_gapUntil := if After until (w_gapUntil w) then until else w_gapUntil w; w_buckets := w_buckets w |}.

Definition set_last (w : Window) (at_ : time) : Window :=
  {| w_config := w_config w; w_started := w_started w; w_last := at_; w_gapUntil := w_gapUntil w; w_buckets := w_buckets w |}.
Definition set_bucket (w : Window) (i : nat) (b : bucket) : Window :=
  {| w_config := w_config w; w_started := w_started w; w_last := w_last w; w_gapUntil := w_gapUntil w;
     w_buckets := <[i := b]> (w_buckets w) |}.

(** The ring index of a second, and the bucket there, restarted for another second. *)
Definition ring_index (w : Window) (second : Z) : nat :=
  let n := Z.of_nat (length (w_buckets w)) in
  Z.to_nat (Z.rem (Z.rem second n + n) n).
Definition bucket_at (w : Window) (second : Z) : bucket :=
  let b := nth (ring_index w second) (w_buckets w) (new_bucket 0) in
  if b_second b =? second then b else new_bucket second.

Definition incr (l : list Z) (i : nat) : list Z := alter (fun n => n + 1) i l.
Definition channel_index (channel : string) : nat :=
  if channel ≟ "stdout" then 0%nat else if channel ≟ "stderr" then 1%nat else 2%nat.

(** A level outside the constants counts as an invalid record. *)
Definition normal_class (c : Classification) : Classification :=
  if (Level c <? Unclassified) || (Fatal <? Level c)
  then {| Level := Unclassified; Invalid := true; Blank := false |} else c.

Definition count_record (b : bucket) (c : Classification) (channel : string) : bucket :=
  {| b_second := b_second b; b_counts := incr (b_counts b) (Z.to_nat (Level c));
     b_invalid := if Invalid c then b_invalid b + 1 else b_invalid b;
     b_channels := incr (b_channels b) (channel_index channel); b_dropped := b_dropped b |}.

Definition counter_limit (w : Window) : Z := Z.quot (2 ^ 53) (Z.of_nat (length (w_buckets w))).

Definition AddFrom (w : Window) (at_ : time) (c : Classification) (channel : string) : Window :=
  if Blank c then w
  else if Before at_ (Add (w_last w) (- wc_Window (w_config w))) then Gap w (w_last w)
  else
    let w := if After at_ (w_last w) then set_last w at_ else w in
    let second := Unix at_ in
    let b := bucket_at w second in
    let c := normal_class c in
    let w := set_bucket w (ring_index w second) b in
    if Z.quot (counter_limit w) 7 <=? nth (Z.to_nat (Level c)) (b_counts b) 0 then Gap w at_
    else set_bucket w (ring_index w second) (count_record b c channel).

Definition Drop (w : Window) (at_ : time) : Window :=
  let w := Gap w at_ in
  let second := Unix at_ in
  let b := bucket_at w second in
  set_bucket w (ring_index w second)
    {| b_second := b_second b; b_counts := b_counts b; b_invalid := b_invalid b; b_channels := b_channels b;
       b_dropped := if b_dropped b <? counter_limit w then b_dropped b + 1 else b_dropped b |}.

(** ** Snapshot *)

(** The buckets of the completed seconds of the window. *)
Definition in_snapshot (start fin : time) (b : bucket) : bool :=
  negb ((b_second b <? Unix start) || (Unix fin <=? b_second b)).

Definition sum_of (f : bucket → Z) (l : list bucket) : Z := foldr (fun b n => f b + n) 0 l.
Definition sum_Z (l : list Z) : Z := foldr Z.add 0 l.
Definition level_count (i : Z) (b : bucket) : Z := nth (Z.to_nat i) (b_counts b) 0.
Definition channel_count (i : nat) (b : bucket) : Z := nth i (b_channels b) 0.
Definition record_count (b : bucket) : Z := sum_Z (b_counts b).

Definition coverage (classified total : Z) : float64 :=
  if 0 <? total then fdiv (of_int classified) (of_int total) else S754_zero false.

Definition Snapshot (w : Window) (at_ : time) : Summary :=
  let win := wc_Window (w_config w) in
  let fin := Truncate at_ Second in
  let start := Add fin (- win) in
  let bs := List.filter (in_snapshot start fin) (w_buckets w) in
  let total := sum_of record_count bs in
  let unclassified := sum_of (level_count Unclassified) bs in
  let warnings := sum_of (level_count Warning) bs in
  let errors := sum_of (level_count Error) bs in
  let fatal := sum_of (level_count Fatal) bs in
  let invalid := sum_of b_invalid bs in
  let cov := coverage (total - unclassified) total in
  let warm := negb (Before fin (Add (w_started w) win)) in
  let sound := negb (Before fin (w_gapUntil w)) in
  let '(ready, reason) :=
    if negb sound then (false, "collection_gap")
    else if 0 <? invalid then (false, "invalid_records")
    else if negb warm then (false, "warming_up")
    else if total <? wc_MinEvents (w_config w) then (false, "insufficient_records")
    else if flt cov (wc_MinCoverage (w_config w)) then (false, "insufficient_coverage")
    else (true, "ready") in
  {| sm_Version := 1; sm_WindowStart := start; sm_WindowEnd := fin; sm_WindowSeconds := Z.quot win Second;
     sm_Total := total; sm_Classified := total - unclassified; sm_Unclassified := unclassified;
     sm_Warnings := warnings; sm_Errors := errors; sm_Fatal := fatal; sm_Invalid := invalid;
     sm_Stdout := sum_of (channel_count 0) bs; sm_Stderr := sum_of (channel_count 1) bs;
     sm_Other := sum_of (channel_count 2) bs; sm_Dropped := sum_of b_dropped bs; sm_Coverage := cov;
     sm_WarningRatio := if (ready : bool) then Some (fdiv (of_int warnings) (of_int total)) else None;
     sm_ErrorRatio := if (ready : bool) then Some (fdiv (of_int (errors + fatal)) (of_int total)) else None;
     sm_Complete := warm && sound && (invalid =? 0); sm_Ready := ready; sm_Reason := reason |}.

(** ** Assessment of a producer's summary *)

Definition counts_of (s : Summary) : list Z :=
  [sm_Total s; sm_Classified s; sm_Unclassified s; sm_Warnings s; sm_Errors s; sm_Fatal s; sm_Invalid s;
   sm_Stdout s; sm_Stderr s; sm_Other s; sm_Dropped s].

(** Readiness recomputed from the counts: complete, ready, reason. *)
Definition assess_readiness (s : Summary) (cov : float64) (c : WindowConfig) (started : time) : bool * bool * string :=
  if 0 <? sm_Dropped s then (false, false, "collection_gap")
  else if 0 <? sm_Invalid s then (false, false, "invalid_records")
  else if Before (sm_WindowStart s) started then (false, false, "warming_up")
  else if negb (sm_Complete s) then (sm_Complete s, false, "collection_gap")
  else if sm_Total s <? wc_MinEvents c then (sm_Complete s, false, "insufficient_records")
  else if flt cov (wc_MinCoverage c) then (sm_Complete s, false, "insufficient_coverage")
  else (sm_Complete s, true, "ready").

Definition Assess (s : Summary) (c : WindowConfig) (started now : time) : result Summary :=
  fail_if (negb (sm_Version s =? 1) || negb (sm_WindowSeconds s =? Z.quot (wc_Window c) Second)
           || negb (sm_WindowStart s =? Add (sm_WindowEnd s) (- wc_Window c))
           || negb (sm_WindowEnd s =? Truncate (sm_WindowEnd s) Second)
           || After (sm_WindowEnd s) (Add now Second) || negb (Before now (Add (sm_WindowEnd s) (3 * Second))))
    "invalid or stale log summary window" ;;
  fail_if (existsb (fun n => (n <? 0) || (2 ^ 53 - 1 <? n)) (counts_of s)) "invalid log summary count" ;;
  fail_if (negb (sm_Classified s + sm_Unclassified s =? sm_Total s)
           || (sm_Classified s <? sm_Warnings s + sm_Errors s + sm_Fatal s)
           || (sm_Unclassified s <? sm_Invalid s)) "inconsistent log summary counts" ;;
  let channels := sm_Stdout s + sm_Stderr s + sm_Other s in
  fail_if (negb (channels =? 0) && negb (channels =? sm_Total s)) "inconsistent channel counts" ;;
  let cov := coverage (sm_Classified s) (sm_Total s) in
  let '(complete, ready, reason) := assess_readiness s cov c started in
  Ok {| sm_Version := sm_Version s; sm_WindowStart := sm_WindowStart s; sm_WindowEnd := sm_WindowEnd s;
     sm_WindowSeconds := sm_WindowSeconds s; sm_Total := sm_Total s; sm_Classified := sm_Classified s;
     sm_Unclassified := sm_Unclassified s; sm_Warnings := sm_Warnings s; sm_Errors := sm_Errors s; sm_Fatal := sm_Fatal s;
     sm_Invalid := sm_Invalid s; sm_Stdout := sm_Stdout s; sm_Stderr := sm_Stderr s;
     sm_Other := if channels =? 0 then sm_Total s else sm_Other s; sm_Dropped := sm_Dropped s; sm_Coverage := cov;
     sm_WarningRatio := if (ready : bool) then Some (fdiv (of_int (sm_Warnings s)) (of_int (sm_Total s))) else None;
     sm_ErrorRatio := if (ready : bool) then Some (fdiv (of_int (sm_Errors s + sm_Fatal s)) (of_int (sm_Total s))) else None;
     sm_Complete := complete; sm_Ready := ready; sm_Reason := reason |}.
