(* ===== verification/LogWindowFacts.v ===== *)
(** * The log window counts exactly the records of its seconds

    The ring of counters refines a plain list of what was accepted: every
    snapshot taken at or after the newest record counts the accepted records of
    the completed seconds of its window. *)
From S2P Require Import Prelude GoText GoFloat LogWindow.

(** ** Abstract journal *)

Inductive entry :=
| Rec (second : Z) (c : Classification) (channel : string)
| Lost (second : Z).

Definition sec (e : entry) : Z := match e with Rec s _ _ => s | Lost s => s end.

Definition apply_entry (b : bucket) (e : entry) : bucket :=
  match e with
  | Rec _ c channel => count_record b c channel
  | Lost _ => {| b_second := b_second b; b_counts := b_counts b; b_invalid := b_invalid b; b_channels := b_channels b;
                 b_dropped := b_dropped b + 1 |}
  end.

(** The counters of one second of the journal. *)
Definition bucket_of (h : list entry) (second : Z) : bucket :=
  foldl apply_entry (new_bucket second) (List.filter (fun e => sec e =? second) h).

Lemma bucket_of_second h s : b_second (bucket_of h s) = s.
Proof.
  unfold bucket_of. generalize (List.filter (fun e => sec e =? s) h) as l.
  assert (∀ l b, b_second (foldl apply_entry b l) = b_second b) as H.
  { induction l as [|e l IH]; intros b; cbn; [done|]. rewrite IH. by destruct e. }
  intros l. by rewrite H.
Qed.

Lemma bucket_of_snoc h e s :
  bucket_of (h ++ [e])%list s = if sec e =? s then apply_entry (bucket_of h s) e else bucket_of h s.
Proof.
  unfold bucket_of. rewrite List.filter_app. cbn. destruct (sec e =? s); [by rewrite foldl_app|by rewrite app_nil_r].
Qed.

Lemma bucket_of_none h s : (∀ e, e ∈ h → sec e ≠ s) → bucket_of h s = new_bucket s.
Proof.
  intros H. unfold bucket_of. replace (List.filter (fun e => sec e =? s) h) with (@nil entry); [done|]. symmetry.
  induction h as [|e h IH]; [done|]. cbn. rewrite (proj2 (Z.eqb_neq _ _)); [apply IH; set_solver|apply H; set_solver].
Qed.

(** ** The ring represents the journal *)

(** Whole seconds of the window; one more bucket than that. *)
Definition ring_seconds (w : Window) : Z := Z.of_nat (length (w_buckets w)) - 1.

Record ring_ok (w : Window) (h : list entry) (hi : Z) : Prop := {
  ro_window : wc_Window (w_config w) = ring_seconds w * Second;
  ro_size : 1 <= ring_seconds w;
  ro_last : Unix (w_last w) <= hi;
  ro_entries : ∀ e, e ∈ h → sec e <= hi;
  ro_current : ∀ i b, w_buckets w !! i = Some b →
    if b_second b mod (ring_seconds w + 1) =? Z.of_nat i
    then hi - ring_seconds w <= b_second b → b = bucket_of h (b_second b)
    else b = new_bucket (b_second b);
  ro_present : ∀ e, e ∈ h → hi - ring_seconds w <= sec e →
    ∃ b, w_buckets w !! ring_index w (sec e) = Some b ∧ b_second b = sec e }.

Lemma ring_index_mod w s : 1 <= ring_seconds w →
  ring_index w s = Z.to_nat (s mod (ring_seconds w + 1)) ∧ (ring_index w s < length (w_buckets w))%nat.
Proof.
  unfold ring_index, ring_seconds. intros Hn. set (n := Z.of_nat (length (w_buckets w))) in *.
  assert (Hp : 0 < n) by lia.
  assert (Z.rem (Z.rem s n + n) n = s mod n) as ->.
  { pose proof (Z.rem_bound_abs s n ltac:(lia)).
    rewrite Z.rem_mod_nonneg by lia.
    rewrite (Z.quot_rem' s n) at 2. rewrite <- Z.add_mod_idemp_l by lia.
    replace (n * (s ÷ n) + Z.rem s n) with (Z.rem s n + (s ÷ n) * n) by lia.
    rewrite Z.mod_add by lia. rewrite Z.add_mod_idemp_l by lia.
    replace (Z.rem s n + n) with (Z.rem s n + 1 * n) by lia. by rewrite Z.mod_add by lia. }
  replace (n - 1 + 1) with n by lia. split; [done|].
  pose proof (Z.mod_pos_bound s n Hp). lia.
Qed.

Lemma mod_close a b n : 0 < n → Z.abs (a - b) < n → a mod n = b mod n → a = b.
Proof.
  intros Hn Hc Hm. pose proof (Z.div_mod a n ltac:(lia)). pose proof (Z.div_mod b n ltac:(lia)).
  assert (n * (a / n - b / n) = a - b) as Hd by lia. assert (a / n - b / n = 0) as Hz by nia.
  rewrite Hz in Hd. lia.
Qed.

Lemma bucket_at_journal w h hi s :
  ring_ok w h hi → hi - ring_seconds w <= s → bucket_at w s = bucket_of h s.
Proof.
  intros [Hw Hn Hl He Hc Hp] Hs. unfold bucket_at. destruct (ring_index_mod w s Hn) as [Hi Hlt].
  destruct (lookup_lt_is_Some_2 (w_buckets w) (ring_index w s) Hlt) as [b Hb].
  rewrite (nth_lookup_Some _ _ (new_bucket 0) b Hb). specialize (Hc _ _ Hb).
  destruct (Z.eqb_spec (b_second b) s) as [E|E].
  - rewrite E in Hc. rewrite Hi, Z2Nat.id, Z.eqb_refl in Hc by (apply Z.mod_pos_bound; lia). by apply Hc.
  - symmetry. apply bucket_of_none. intros e Hin Hes.
    destruct (Hp e Hin) as (b' & Hb' & Hs'); [lia|]. rewrite Hes in *. congruence.
Qed.

(** Writing the counters of a recent second. *)
Lemma set_bucket_ok w h hi s h' :
  ring_ok w h hi → hi - ring_seconds w <= s →
  (h' = h ∨ ∃ e, sec e = s ∧ h' = (h ++ [e])%list) →
  ring_ok (set_bucket w (ring_index w s) (bucket_of h' s)) h' (Z.max hi s).
Proof.
  intros [Hw Hn Hl He Hc Hp] Hs Hh. destruct (ring_index_mod w s Hn) as [Hi Hlt].
  set (w' := set_bucket _ _ _).
  assert (Hn' : ring_seconds w' = ring_seconds w) by (unfold ring_seconds; cbn; by rewrite length_insert).
  assert (Hidx : ∀ x, ring_index w' x = ring_index w x).
  { intros x. unfold ring_index. cbn. by rewrite length_insert. }
  assert (Hin : ∀ e, e ∈ h' → e ∈ h ∨ sec e = s) by (destruct Hh as [->|(e & Hes & ->)]; set_solver).
  assert (Hsame : ∀ x, x ≠ s → bucket_of h' x = bucket_of h x).
  { intros x Hx. destruct Hh as [->|(e & Hes & ->)]; [done|]. rewrite bucket_of_snoc.
    by destruct (Z.eqb_spec (sec e) x); [lia|]. }
  split; rewrite ?Hn'; try done; try (cbn; lia).
  - intros e [H|H]%Hin; [specialize (He e H); lia|lia].
  - intros i b Hb. cbn in Hb. destruct (decide (i = ring_index w s)) as [->|Hne].
    + rewrite list_lookup_insert_eq in Hb by done. injection Hb as <-. rewrite bucket_of_second.
      rewrite Hi, Z2Nat.id, Z.eqb_refl by (apply Z.mod_pos_bound; lia). done.
    + rewrite list_lookup_insert_ne in Hb by done. specialize (Hc i b Hb).
      destruct (Z.eqb_spec (b_second b mod (ring_seconds w + 1)) (Z.of_nat i)) as [E|E]; [|done].
      intros Hlo. rewrite Hsame; [apply Hc; lia|]. intros Hbs. apply Hne. rewrite Hi, <- Hbs, E. lia.
  - intros e Hine Hlo. rewrite Hidx. cbn. destruct (ring_index_mod w (sec e) Hn) as [Hie _].
    assert (Hsec : sec e <= Z.max hi s) by (destruct (Hin e Hine) as [H| ->]; [specialize (He e H)|]; lia).
    destruct (decide (ring_index w (sec e) = ring_index w s)) as [E|E].
    + rewrite E, list_lookup_insert_eq by done. eexists. split; [done|]. rewrite bucket_of_second.
      rewrite Hi, Hie in E. symmetry. apply (mod_close _ _ (ring_seconds w + 1)); [lia|lia|].
      pose proof (Z.mod_pos_bound (sec e) (ring_seconds w + 1)). pose proof (Z.mod_pos_bound s (ring_seconds w + 1)). lia.
    + rewrite list_lookup_insert_ne by done. destruct (Hin e Hine) as [H|H]; [apply Hp; [done|lia]|congruence].
Qed.

(** ** Operations and the journal they write *)

Inductive op :=
| OAdd (at_ : time) (c : Classification) (channel : string)
| ODrop (at_ : time)
| OGap (at_ : time)
| OReset (at_ : time).

Definition step (w : Window) (o : op) : Window :=
  match o with
  | OAdd at_ c channel => AddFrom w at_ c channel
  | ODrop at_ => Drop w at_
  | OGap at_ => Gap w at_
  | OReset at_ => Reset w at_
  end.

(** An added record is ignored when blank, or older than the window. *)
Definition ignored (w : Window) (at_ : time) (c : Classification) : bool :=
  Blank c || Before at_ (Add (w_last w) (- wc_Window (w_config w))).

(** A full counter refuses the record (and the window reports a gap). *)
Definition full (w : Window) (at_ : time) (c : Classification) : bool :=
  Z.quot (counter_limit w) 7 <=? level_count (Level (normal_class c)) (bucket_at w (Unix at_)).

Definition recorded (w : Window) (o : op) : list entry :=
  match o with
  | OAdd at_ c channel =>
      if ignored w at_ c || full w at_ c then [] else [Rec (Unix at_) (normal_class c) channel]
  | ODrop at_ => if b_dropped (bucket_at w (Unix at_)) <? counter_limit w then [Lost (Unix at_)] else []
  | OGap _ | OReset _ => []
  end.

Definition journal (w : Window) (h : list entry) (o : op) : list entry :=
  match o with OReset _ => [] | _ => (h ++ recorded w o)%list end.

(** The newest second any operation referred to. *)
Definition newest (w : Window) (hi : Z) (o : op) : Z :=
  match o with
  | OAdd at_ c _ => if ignored w at_ c then hi else Z.max hi (Unix at_)
  | ODrop at_ => Z.max hi (Unix at_)
  | OGap _ => hi
  | OReset at_ => Unix at_
  end.

(** An operation that writes a bucket refers to a second of the ring. *)
Definition timely (w : Window) (hi : Z) (o : op) : bool :=
  match o with
  | OAdd at_ c _ => ignored w at_ c || (hi - ring_seconds w <=? Unix at_)
  | ODrop at_ => hi - ring_seconds w <=? Unix at_
  | OGap _ | OReset _ => true
  end.

Lemma ring_ok_same w w' h hi hi' :
  w_buckets w' = w_buckets w → w_config w' = w_config w → Unix (w_last w') <= hi' → hi <= hi' →
  ring_ok w h hi → ring_ok w' h hi'.
Proof.
  intros Hb Hc Hl Hhi [Hw Hn _ He Hcur Hp].
  assert (ring_seconds w' = ring_seconds w) as Hr by (unfold ring_seconds; by rewrite Hb).
  split; rewrite ?Hr, ?Hb, ?Hc; try done.
  - intros e Hin. specialize (He e Hin). lia.
  - intros i b Hi. specialize (Hcur i b Hi). destruct (_ =? _); [|done]. intros. apply Hcur. lia.
  - intros e Hin Hlo. unfold ring_index. rewrite Hb. apply Hp; [done|lia].
Qed.

Lemma Gap_ok w h hi at_ : ring_ok w h hi → ring_ok (Gap w at_) h hi.
Proof. intros H. eapply ring_ok_same; [..|exact H]; try done. by destruct H. Qed.

Lemma fresh_ring_ok w at_ :
  wc_Window (w_config w) = ring_seconds w * Second → 1 <= ring_seconds w →
  w_buckets w = repeat (new_bucket 0) (length (w_buckets w)) → w_last w = at_ → ring_ok w [] (Unix at_).
Proof.
  intros Hw Hn Hb Hl. split; try done; try (rewrite Hl; lia); try set_solver.
  - intros i b Hi. rewrite Hb in Hi. assert (b = new_bucket 0) as ->.
    { apply list_elem_of_lookup_2 in Hi. apply list_elem_of_In, repeat_spec in Hi. done. }
    by destruct (_ =? _).
Qed.

Lemma bucket_at_buckets w w' s : w_buckets w' = w_buckets w → bucket_at w' s = bucket_at w s.
Proof. intros H. unfold bucket_at, ring_index. by rewrite H. Qed.

Lemma set_bucket_twice w i b b' : set_bucket (set_bucket w i b) i b' = set_bucket w i b'.
Proof. unfold set_bucket. cbn. f_equal. apply list_insert_insert_eq. Qed.

Lemma ring_index_set w i b s : ring_index (set_bucket w i b) s = ring_index w s.
Proof. unfold ring_index. cbn. by rewrite length_insert. Qed.

Lemma step_ring_ok w h hi o :
  ring_ok w h hi → timely w hi o = true → ring_ok (step w o) (journal w h o) (newest w hi o).
Proof.
  intros H Ht. destruct o as [at_ c ch|at_|at_|at_]; cbn [step journal newest recorded timely] in *.
  - unfold AddFrom, ignored in *. destruct (Blank c); cbn [orb] in *; [by rewrite app_nil_r|].
    destruct (Before at_ _); cbn [orb] in *; [rewrite app_nil_r; by apply Gap_ok|]. bools. cbn zeta.
    set (w1 := if After at_ (w_last w) then set_last w at_ else w).
    assert (Hb1 : w_buckets w1 = w_buckets w) by (subst w1; by destruct (After at_ (w_last w))).
    assert (H1 : ring_ok w1 h (Z.max hi (Unix at_))).
    { eapply ring_ok_same; [exact Hb1| | | |exact H]; try lia; subst w1; [by destruct (After _ _)|].
      destruct H. destruct (After at_ (w_last w)); cbn; lia. }
    assert (Hr : ring_seconds w1 = ring_seconds w) by (unfold ring_seconds; by rewrite Hb1).
    assert (Hat : bucket_at w1 (Unix at_) = bucket_of h (Unix at_)).
    { rewrite (bucket_at_buckets w w1 _ Hb1). by apply (bucket_at_journal w h hi). }
    assert (Hlo : Z.max hi (Unix at_) - ring_seconds w1 <= Unix at_) by (destruct H1; lia).
    rewrite Hat. replace (full w at_ c) with
      (Z.quot (counter_limit (set_bucket w1 (ring_index w1 (Unix at_)) (bucket_of h (Unix at_)))) 7 <=?
       nth (Z.to_nat (Level (normal_class c))) (b_counts (bucket_of h (Unix at_))) 0).
    2:{ unfold full, counter_limit, level_count. cbn. rewrite length_insert, Hb1, <- (bucket_at_buckets w w1 _ Hb1), Hat. done. }
    destruct (_ <=? _).
    + rewrite app_nil_r. apply Gap_ok. rewrite <- (Z.max_id (Z.max hi _)).
      pose proof (set_bucket_ok w1 h _ (Unix at_) h H1 Hlo (or_introl eq_refl)) as Hs.
      replace (Z.max (Z.max hi (Unix at_)) (Z.max hi (Unix at_))) with (Z.max (Z.max hi (Unix at_)) (Unix at_)) by lia. done.
    + rewrite ring_index_set, set_bucket_twice.
      pose proof (set_bucket_ok w1 h _ (Unix at_) (h ++ [Rec (Unix at_) (normal_class c) ch])%list H1 Hlo) as Hs.
      rewrite bucket_of_snoc in Hs. cbn [sec] in Hs. rewrite Z.eqb_refl in Hs. cbn [apply_entry] in Hs.
      replace (Z.max hi (Unix at_)) with (Z.max (Z.max hi (Unix at_)) (Unix at_)) by lia.
      apply Hs. right. by exists (Rec (Unix at_) (normal_class c) ch).
  - unfold Drop. cbn zeta. bools. apply (Gap_ok _ _ _ at_) in H.
    change (bucket_at w (Unix at_)) with (bucket_at (Gap w at_) (Unix at_)).
    change (counter_limit w) with (counter_limit (Gap w at_)).
    change (ring_seconds w) with (ring_seconds (Gap w at_)) in Ht. revert H Ht. generalize (Gap w at_). intros w1 H Ht.
    rewrite (bucket_at_journal w1 h hi) by done. destruct (_ <? _).
    + pose proof (set_bucket_ok w1 h hi (Unix at_) (h ++ [Lost (Unix at_)])%list H Ht) as Hs.
      rewrite bucket_of_snoc in Hs. cbn [sec] in Hs. rewrite Z.eqb_refl in Hs. cbn [apply_entry] in Hs.
      apply Hs. right. by exists (Lost (Unix at_)).
    + rewrite app_nil_r. pose proof (set_bucket_ok w1 h hi (Unix at_) h H Ht (or_introl eq_refl)) as Hs.
      by destruct (bucket_of h (Unix at_)).
  - rewrite app_nil_r. by apply Gap_ok.
  - apply fresh_ring_ok; destruct H; cbn; unfold ring_seconds in *; cbn; rewrite ?repeat_length; try done.
Qed.

(** Without dropped records every operation is timely: the window itself
    refuses what is older than its newest record. *)
Lemma add_timely w h at_ c ch : ring_ok w h (Unix (w_last w)) → timely w (Unix (w_last w)) (OAdd at_ c ch) = true.
Proof.
  intros [Hw Hn _ _ _ _]. cbn. unfold ignored. destruct (Blank c); [done|]. cbn [orb].
  unfold Before, Add. destruct (Z.ltb_spec at_ (w_last w + - wc_Window (w_config w))); [done|]. cbn [orb].
  apply Z.leb_le. rewrite Hw in *. unfold Unix.
  assert ((w_last w) / Second - ring_seconds w <= at_ / Second); [|lia].
  replace (w_last w / Second - ring_seconds w) with ((w_last w + - (ring_seconds w * Second)) / Second).
  - apply Z.div_le_mono; [apply Second_pos|done].
  - replace (w_last w + - (ring_seconds w * Second)) with (w_last w + (- ring_seconds w) * Second) by lia.
    pose proof Second_pos. rewrite Z.div_add by lia. lia.
Qed.

(** ** Counting *)

Definition sum_entries (g : entry → Z) (h : list entry) : Z := foldr (fun e n => g e + n) 0 h.

(** Journal entries hold normal classifications. *)
Definition entry_ok (e : entry) : Prop :=
  match e with Rec _ c _ => Unclassified <= Level c <= Fatal | Lost _ => True end.

Lemma normal_class_ok c : Unclassified <= Level (normal_class c) <= Fatal.
Proof.
  unfold normal_class, Unclassified, Fatal. destruct (_ || _) eqn:H; cbn; [lia|].
  apply orb_false_iff in H as [? ?]. bools. lia.
Qed.

(** A counter of the bucket and the weight of an entry in it. *)
Record counter (f : bucket → Z) (g : entry → Z) : Prop := {
  ct_zero : ∀ s, f (new_bucket s) = 0;
  ct_add : ∀ b e, length (b_counts b) = 7%nat → length (b_channels b) = 3%nat → entry_ok e →
    f (apply_entry b e) = f b + g e }.

Lemma sum_entries_app g h h' : sum_entries g (h ++ h')%list = sum_entries g h + sum_entries g h'.
Proof. unfold sum_entries. induction h as [|e h IH]; cbn; lia. Qed.

Lemma sum_entries_cons g e h : sum_entries g (e :: h) = g e + sum_entries g h.
Proof. done. Qed.

Lemma bucket_of_lengths h s : length (b_counts (bucket_of h s)) = 7%nat ∧ length (b_channels (bucket_of h s)) = 3%nat.
Proof.
  induction h as [|e h IH] using rev_ind; [done|]. rewrite bucket_of_snoc. destruct (sec e =? s); [|done].
  destruct e; [cbn; unfold incr; by rewrite !length_alter|done].
Qed.

Lemma counter_bucket_of f g h s :
  counter f g → Forall entry_ok h → f (bucket_of h s) = sum_entries g (List.filter (fun e => sec e =? s) h).
Proof.
  intros [H0 Ha]. induction h as [|e h IH] using rev_ind; intros Hok; [apply H0|].
  apply Forall_app in Hok as [Hh He]. apply list.Forall_cons in He as [He _].
  rewrite bucket_of_snoc, List.filter_app, sum_entries_app. cbn [List.filter].
  destruct (bucket_of_lengths h s) as [H7 H3].
  destruct (sec e =? s); rewrite ?(Ha _ e H7 H3 He), IH by done; unfold sum_entries; cbn; lia.
Qed.

(** Exchanging the sums: seconds without duplicates against entries. *)
Lemma sum_seconds g (h : list entry) (L : list Z) (range : Z → bool) :
  NoDup L → (∀ s, s ∈ L → range s = true) → (∀ e, e ∈ h → range (sec e) = true → sec e ∈ L) →
  foldr (fun s n => sum_entries g (List.filter (fun e => sec e =? s) h) + n) 0 L =
  sum_entries g (List.filter (fun e => range (sec e)) h).
Proof.
  intros HL Hr. induction h as [|e h IH]; intros Hin.
  { cbn. clear. induction L; cbn; lia. }
  cbn [List.filter].
  assert (IH' := IH (fun e' H => Hin e' (list_elem_of_further _ _ _ H))). clear IH.
  assert (E : ∀ L, NoDup L →
    foldr (fun s n => sum_entries g (if sec e =? s then e :: List.filter (fun e => sec e =? s) h else List.filter (fun e => sec e =? s) h) + n) 0 L
    = foldr (fun s n => sum_entries g (List.filter (fun e => sec e =? s) h) + n) 0 L + (if bool_decide (sec e ∈ L) then g e else 0)).
  { clear. induction L as [|s L IH]; intros HL; cbn [foldr]; [by rewrite bool_decide_false by set_solver|].
    apply list.NoDup_cons in HL as [Hs HL]. rewrite IH by done. destruct (Z.eqb_spec (sec e) s) as [->|Hne].
    - rewrite (bool_decide_true (s ∈ s :: L)), (bool_decide_false (s ∈ L)) by set_solver. rewrite sum_entries_cons. lia.
    - rewrite (bool_decide_ext (sec e ∈ s :: L) (sec e ∈ L)) by set_solver. lia. }
  rewrite E, IH' by done. destruct (range (sec e)) eqn:Hre.
  - rewrite bool_decide_true by (apply Hin; [set_solver|done]). rewrite sum_entries_cons. lia.
  - rewrite bool_decide_false; [lia|]. intros Hc%Hr. congruence.
Qed.

Lemma sum_of_filter f (p : bucket → bool) l :
  sum_of f (List.filter p l) = foldr (fun b n => (if p b then f b else 0) + n) 0 l.
Proof. unfold sum_of. induction l as [|b l IH]; cbn; [done|]. destruct (p b); cbn; lia. Qed.

(** The seconds of the ring that hold counters of the journal, in index order. *)
Definition valid_at (n : Z) (i : nat) (b : bucket) : bool := b_second b mod n =? Z.of_nat i.
Fixpoint valid_seconds (n : Z) (start : nat) (p : bucket → bool) (l : list bucket) : list Z :=
  match l with
  | [] => []
  | b :: l => if p b && valid_at n start b then b_second b :: valid_seconds n (S start) p l else valid_seconds n (S start) p l
  end.

Lemma valid_seconds_spec n p l start s :
  s ∈ valid_seconds n start p l ↔
  ∃ i b, l !! i = Some b ∧ p b = true ∧ valid_at n (start + i) b = true ∧ b_second b = s.
Proof.
  revert start. induction l as [|b l IH]; intros start; cbn; [set_solver|].
  assert (Hshift : (∃ i b', (b :: l) !! i = Some b' ∧ p b' = true ∧ valid_at n (start + i) b' = true ∧ b_second b' = s) ↔
    (p b && valid_at n start b = true ∧ b_second b = s) ∨ s ∈ valid_seconds n (S start) p l).
  { rewrite IH. split.
    - intros ([|i] & b' & Hl & Hp & Hv & Hs); cbn in Hl.
      + injection Hl as <-. rewrite Nat.add_0_r in Hv. left. by rewrite Hp, Hv.
      + right. exists i, b'. by replace (S start + i)%nat with (start + S i)%nat by lia.
    - intros [[Hp Hs]|(i & b' & Hl & Hp & Hv & Hs)].
      + apply andb_true_iff in Hp as [Hp Hv]. exists 0%nat, b. by rewrite Nat.add_0_r.
      + exists (S i), b'. by replace (start + S i)%nat with (S start + i)%nat by lia. }
  rewrite Hshift. destruct (p b && valid_at n start b); set_solver.
Qed.

Lemma valid_seconds_NoDup n p l start : NoDup (valid_seconds n start p l).
Proof.
  revert start. induction l as [|b l IH]; intros start; cbn; [apply NoDup_nil_2|].
  destruct (p b && valid_at n start b) eqn:Hb; [|done]. apply list.NoDup_cons. split; [|done].
  apply andb_true_iff in Hb as [_ Hv]. intros (i & b' & _ & _ & Hv' & Hs)%valid_seconds_spec.
  unfold valid_at in *. bools. rewrite Hs in Hv'. lia.
Qed.

(** The in-range buckets of a ring sum to the in-range entries of the journal. *)
Lemma ring_sum f g w h hi fin :
  counter f g → Forall entry_ok h → ring_ok w h hi → hi <= Unix fin →
  sum_of f (List.filter (in_snapshot (Add fin (- wc_Window (w_config w))) fin) (w_buckets w)) =
  sum_entries g (List.filter (fun e => (Unix fin - ring_seconds w <=? sec e) && (sec e <? Unix fin)) h).
Proof.
  intros Hct Hok [Hw Hn Hl He Hc Hp] Hfin. set (n := ring_seconds w + 1).
  assert (Hrange : ∀ b, in_snapshot (Add fin (- wc_Window (w_config w))) fin b
                        = (Unix fin - ring_seconds w <=? b_second b) && (b_second b <? Unix fin)).
  { intros b. unfold in_snapshot, Add. rewrite Hw.
    replace (Unix (fin + - (ring_seconds w * Second))) with (Unix fin - ring_seconds w).
    - rewrite negb_orb, <- Z.leb_antisym, <- Z.ltb_antisym. done.
    - unfold Unix. replace (fin + - (ring_seconds w * Second)) with (fin + (- ring_seconds w) * Second) by lia.
      pose proof Second_pos. rewrite Z.div_add by lia. lia. }
  set (range := fun s => (Unix fin - ring_seconds w <=? s) && (s <? Unix fin)).
  rewrite sum_of_filter.
  transitivity (foldr (fun s m => sum_entries g (List.filter (fun e => sec e =? s) h) + m) 0
                  (valid_seconds n 0 (fun b => range (b_second b)) (w_buckets w))).
  - assert (Hall : ∀ i b, w_buckets w !! i = Some b →
      (if in_snapshot (Add fin (- wc_Window (w_config w))) fin b then f b else 0) =
      (if range (b_second b) && valid_at n i b
       then sum_entries g (List.filter (fun e => sec e =? b_second b) h) else 0)).
    { intros i b Hb. rewrite Hrange. fold (range (b_second b)). specialize (Hc i b Hb). unfold valid_at.
      destruct (range (b_second b)) eqn:Hr; [|done]. cbn [andb]. unfold range in Hr. bools.
      fold n in Hc. destruct (_ =? _); rewrite Hc by lia; [|by rewrite (ct_zero _ _ Hct)].
      rewrite (counter_bucket_of f g) by done. by rewrite bucket_of_second. }
    clear -Hall. generalize (w_buckets w), Hall. clear Hall.
    enough (∀ l start, (∀ i b, l !! i = Some b →
      (if in_snapshot (Add fin (- wc_Window (w_config w))) fin b then f b else 0) =
      (if range (b_second b) && valid_at n (start + i) b
       then sum_entries g (List.filter (fun e => sec e =? b_second b) h) else 0)) →
      foldr (fun b m => (if in_snapshot (Add fin (- wc_Window (w_config w))) fin b then f b else 0) + m) 0 l =
      foldr (fun s m => sum_entries g (List.filter (fun e => sec e =? s) h) + m) 0
        (valid_seconds n start (fun b => range (b_second b)) l)) as H by (intros l Hall; exact (H l 0%nat Hall)).
    induction l as [|b l IH]; intros start Hall; [done|]. cbn [foldr valid_seconds].
    rewrite (Hall 0%nat b eq_refl), Nat.add_0_r, (IH (S start)).
    + destruct (range (b_second b) && valid_at n start b); done.
    + intros i b' Hb'. specialize (Hall (S i) b' Hb'). by replace (S start + i)%nat with (start + S i)%nat by lia.
  - apply (sum_seconds g h _ range); [apply valid_seconds_NoDup| |].
    + intros s (i & b & _ & Hr & _ & <-)%valid_seconds_spec. done.
    + intros e Hin Hr. pose proof Hr as Hr'. unfold range in Hr. bools.
      destruct (Hp e Hin) as (b & Hb & Hs); [lia|]. apply valid_seconds_spec.
      destruct (ring_index_mod w (sec e) Hn) as [Hi _].
      exists (ring_index w (sec e)), b. split_and!; [done|cbn; rewrite Hs; exact Hr'| |done].
      unfold valid_at. rewrite Hs, Nat.add_0_l, Hi. pose proof (Z.mod_pos_bound (sec e) n ltac:(lia)).
      apply Z.eqb_eq. fold n. lia.
Qed.

(** ** The counters of a summary *)

Definition weigh_record (e : entry) : Z := match e with Rec _ _ _ => 1 | Lost _ => 0 end.
Definition weigh_level (i : Z) (e : entry) : Z := match e with Rec _ c _ => if Level c =? i then 1 else 0 | Lost _ => 0 end.
Definition weigh_invalid (e : entry) : Z := match e with Rec _ c _ => if Invalid c then 1 else 0 | Lost _ => 0 end.
Definition weigh_channel (i : nat) (e : entry) : Z :=
  match e with Rec _ _ ch => if (channel_index ch =? i)%nat then 1 else 0 | Lost _ => 0 end.
Definition weigh_lost (e : entry) : Z := match e with Rec _ _ _ => 0 | Lost _ => 1 end.

Lemma nth_incr l i j : nth i (incr l j) 0 = nth i l 0 + if (j =? i)%nat && (j <? length l)%nat then 1 else 0.
Proof.
  unfold incr. revert i j. induction l as [|x l IH]; intros i j; cbn [length].
  { rewrite andb_false_r. destruct i, j; cbn; lia. }
  destruct j as [|j], i as [|i]; cbn [alter list_alter nth Nat.eqb]; try (cbn; lia).
  rewrite IH. done.
Qed.

Lemma sum_incr l j : (j < length l)%nat → sum_Z (incr l j) = sum_Z l + 1.
Proof.
  unfold incr, sum_Z. revert j. induction l as [|x l IH]; intros [|j] Hj; cbn in *; try lia. rewrite IH; lia.
Qed.

Lemma record_counter : counter record_count weigh_record.
Proof.
  split; [done|]. intros b [s c ch|s] H7 _ He; [|symmetry; apply Z.add_0_r].
  unfold record_count. cbn [apply_entry weigh_record count_record b_counts]. apply sum_incr.
  unfold entry_ok, Unclassified, Fatal in He. lia.
Qed.

Lemma level_counter i : Unclassified <= i <= Fatal → counter (level_count i) (weigh_level i).
Proof.
  unfold Unclassified, Fatal. intros Hi. split.
  - intros s. unfold level_count. cbn. destruct (Z.to_nat i) as [|[|[|[|[|[|[|k]]]]]]]; try done. by destruct k.
  - intros b [s c ch|s] H7 _ He; [|symmetry; apply Z.add_0_r]. unfold level_count. cbn [apply_entry weigh_level count_record b_counts]. rewrite nth_incr, H7. f_equal.
    unfold entry_ok, Unclassified, Fatal in He.
    rewrite (proj2 (Nat.ltb_lt _ _)) by lia. rewrite andb_true_r.
    destruct (Z.eqb_spec (Level c) i), (Nat.eqb_spec (Z.to_nat (Level c)) (Z.to_nat i)); lia.
Qed.

Lemma invalid_counter : counter b_invalid weigh_invalid.
Proof. split; [done|]. intros b [s c ch|s] _ _ _; cbn; [destruct (Invalid c)|]; lia. Qed.

Lemma channel_counter i : counter (channel_count i) (weigh_channel i).
Proof.
  split.
  - intros s. unfold channel_count. cbn. destruct i as [|[|[|i]]]; try done. by destruct i.
  - intros b [s c ch|s] _ H3 _; [|symmetry; apply Z.add_0_r]. unfold channel_count. cbn [apply_entry weigh_channel count_record b_channels]. rewrite nth_incr, H3. f_equal.
    unfold channel_index. destruct (ch ≟ "stdout"), (ch ≟ "stderr"); cbn; by rewrite andb_true_r.
Qed.

Lemma lost_counter : counter b_dropped weigh_lost.
Proof. split; [done|]. intros b [s c ch|s] _ _ _; cbn; lia. Qed.

(** ** Runs *)

Record log := { lg_window : Window; lg_journal : list entry; lg_newest : Z }.

Definition log_step (l : log) (o : op) : log :=
  {| lg_window := step (lg_window l) o; lg_journal := journal (lg_window l) (lg_journal l) o;
     lg_newest := newest (lg_window l) (lg_newest l) o |}.
Definition log_run (l : log) (ops : list op) : log := foldl log_step l ops.

Definition log_start (w : Window) (at_ : time) : log :=
  {| lg_window := w; lg_journal := []; lg_newest := Unix at_ |}.

Fixpoint all_timely (l : log) (ops : list op) : bool :=
  match ops with
  | [] => true
  | o :: ops => timely (lg_window l) (lg_newest l) o && all_timely (log_step l o) ops
  end.

Definition log_ok (l : log) : Prop :=
  ring_ok (lg_window l) (lg_journal l) (lg_newest l) ∧ Forall entry_ok (lg_journal l).

Lemma NewWindow_ok c at_ w : NewWindow c at_ = Ok w → log_ok (log_start w at_).
Proof.
  unfold NewWindow. intros H. res_inv. bools. split; [|constructor]. cbn. pose proof Second_pos.
  assert (Hq : wc_Window c ÷ Second >= 1).
  { pose proof (Z.quot_le_mono Second (wc_Window c) Second ltac:(lia) ltac:(lia)) as Hm.
    rewrite Z.quot_same in Hm; lia. }
  pose proof (Z.quot_rem' (wc_Window c) Second).
  apply fresh_ring_ok; unfold ring_seconds; cbn; rewrite ?repeat_length; try done; rewrite ?Z2Nat.id by lia; lia.
Qed.

Lemma log_step_ok l o : log_ok l → timely (lg_window l) (lg_newest l) o = true → log_ok (log_step l o).
Proof.
  intros [Hr He] Ht. split; cbn; [by apply step_ring_ok|].
  destruct o as [at_ c ch|at_|at_|at_]; cbn; [| |by rewrite app_nil_r|constructor]; apply Forall_app; (split; [done|]).
  - destruct (_ || _); repeat constructor; apply normal_class_ok.
  - destruct (_ <? _); by repeat constructor.
Qed.

Lemma log_run_ok l ops : log_ok l → all_timely l ops = true → log_ok (log_run l ops).
Proof.
  revert l. induction ops as [|o ops IH]; intros l Hl Ht; cbn in *; [done|].
  apply andb_true_iff in Ht as [Ho Ht]. apply IH; [by apply log_step_ok|done].
Qed.

(** The entries of the seconds a summary covers. *)
Definition covered (s : Summary) (h : list entry) : list entry :=
  List.filter (fun e => (Unix (sm_WindowEnd s) - sm_WindowSeconds s <=? sec e) && (sec e <? Unix (sm_WindowEnd s))) h.

Lemma Snapshot_seconds w at_ h hi : ring_ok w h hi → sm_WindowSeconds (Snapshot w at_) = ring_seconds w.
Proof.
  intros [Hw Hn _ _ _ _]. unfold Snapshot. cbn -[Z.quot]. destruct (if negb _ then _ else _); cbn -[Z.quot].
  rewrite Hw. pose proof Second_pos. by rewrite Z.quot_mul by lia.
Qed.

Lemma Unix_Truncate t : Unix (Truncate t Second) = Unix t.
Proof.
  unfold Unix, Truncate. pose proof Second_pos. destruct (Z.leb_spec Second 0); [lia|]. f_equal.
  pose proof (Z.div_mod t Second ltac:(lia)). replace (t - t mod Second) with (t / Second * Second) by lia.
  by rewrite Z.div_mul by lia.
Qed.

(** C11: A log summary is exact.  For any sequence of added, dropped, gap and
    reset operations that refer to seconds of the ring, a snapshot taken no
    earlier than the newest second counts exactly the accepted records of the
    completed seconds of its window: in total, per severity, per channel,
    invalid and dropped. *)
Theorem snapshot_exact c started w ops at_ :
  NewWindow c started = Ok w → all_timely (log_start w started) ops = true →
  let l := log_run (log_start w started) ops in
  lg_newest l <= Unix at_ →
  let s := Snapshot (lg_window l) at_ in
  let h := covered s (lg_journal l) in
  sm_Total s = sum_entries weigh_record h ∧ sm_Unclassified s = sum_entries (weigh_level Unclassified) h ∧
  sm_Warnings s = sum_entries (weigh_level Warning) h ∧ sm_Errors s = sum_entries (weigh_level Error) h ∧
  sm_Fatal s = sum_entries (weigh_level Fatal) h ∧ sm_Invalid s = sum_entries weigh_invalid h ∧
  sm_Stdout s = sum_entries (weigh_channel 0) h ∧ sm_Stderr s = sum_entries (weigh_channel 1) h ∧
  sm_Other s = sum_entries (weigh_channel 2) h ∧ sm_Dropped s = sum_entries weigh_lost h.
Proof.
  intros Hw Ht l Hn s h. destruct (log_run_ok _ _ (NewWindow_ok _ _ _ Hw) Ht) as [Hr He]. fold l in Hr, He.
  assert (Hsum : ∀ f g, counter f g →
    sum_of f (List.filter (in_snapshot (Add (Truncate at_ Second) (- wc_Window (w_config (lg_window l)))) (Truncate at_ Second))
                (w_buckets (lg_window l))) = sum_entries g h).
  { intros f g Hc. rewrite (ring_sum f g _ _ _ _ Hc He Hr) by (by rewrite Unix_Truncate). subst h s. unfold covered.
    rewrite (Snapshot_seconds _ _ _ _ Hr). unfold Snapshot. by destruct (if negb _ then _ else _). }
  assert (Hl : ∀ i, (0 <=? i) && (i <=? 6) = true → counter (level_count i) (weigh_level i)).
  { intros i Hi. bools. by apply level_counter. }
  rewrite <- (Hsum _ _ record_counter), <- (Hsum _ _ (Hl Unclassified eq_refl)), <- (Hsum _ _ (Hl Warning eq_refl)),
    <- (Hsum _ _ (Hl Error eq_refl)), <- (Hsum _ _ (Hl Fatal eq_refl)), <- (Hsum _ _ invalid_counter),
    <- (Hsum _ _ (channel_counter 0)), <- (Hsum _ _ (channel_counter 1)), <- (Hsum _ _ (channel_counter 2)),
    <- (Hsum _ _ lost_counter).
  subst s. unfold Snapshot. destruct (if negb _ then _ else _). by cbn.
Qed.

(** ** Losses stay visible *)

(** The instant at which an operation makes the window report a loss, if it does. *)
Definition loss (w : Window) (o : op) : option time :=
  match o with
  | OGap at_ | ODrop at_ => Some at_
  | OReset _ => None
  | OAdd at_ c _ =>
      if Blank c then None
      else if ignored w at_ c then Some (w_last w)
      else if full w at_ c then Some at_ else None
  end.

Definition is_reset (o : op) : bool := match o with OReset _ => true | _ => false end.

(** The first instant at which a loss at [t] no longer counts. *)
Definition gap_end (w : Window) (t : time) : time := Add (Truncate t Second) (wc_Window (w_config w) + Second).

Lemma Gap_until w t : w_gapUntil w <= w_gapUntil (Gap w t) ∧ gap_end w t <= w_gapUntil (Gap w t).
Proof. unfold Gap, gap_end, After. cbn. destruct (Z.ltb_spec (w_gapUntil w) (Add (Truncate t Second) (wc_Window (w_config w) + Second))); lia. Qed.

Lemma step_until w o :
  is_reset o = false →
  w_gapUntil w <= w_gapUntil (step w o) ∧ w_config (step w o) = w_config w ∧
  ∀ t, loss w o = Some t → gap_end w t <= w_gapUntil (step w o).
Proof.
  destruct o as [at_ c ch|at_|at_|at_]; intros Hr; try done; cbn [step loss]; try (destruct (Gap_until w at_); naive_solver).
  unfold AddFrom, ignored. destruct (Blank c); cbn [orb]; [naive_solver lia|].
  destruct (Before at_ _); cbn [orb]; [destruct (Gap_until w (w_last w)); naive_solver|]. cbn zeta.
  set (w1 := if After at_ (w_last w) then set_last w at_ else w).
  assert (Hw1 : w_buckets w1 = w_buckets w ∧ w_gapUntil w1 = w_gapUntil w ∧ w_config w1 = w_config w)
    by (subst w1; by destruct (After at_ (w_last w))). destruct Hw1 as (Hb & Hg & Hc).
  replace (full w at_ c) with (Z.quot (counter_limit (set_bucket w1 (ring_index w1 (Unix at_)) (bucket_at w1 (Unix at_)))) 7 <=?
       nth (Z.to_nat (Level (normal_class c))) (b_counts (bucket_at w1 (Unix at_))) 0).
  2:{ unfold full, counter_limit, level_count. cbn. by rewrite length_insert, Hb, (bucket_at_buckets w w1 _ Hb). }
  destruct (_ <=? _).
  - destruct (Gap_until (set_bucket w1 (ring_index w1 (Unix at_)) (bucket_at w1 (Unix at_))) at_) as [H1 H2].
    unfold gap_end in *. cbn [w_gapUntil w_config set_bucket] in H1, H2. rewrite Hg in H1. rewrite Hc in H2.
    split_and!; [done|done|]. by intros t [= <-].
  - cbn [w_gapUntil w_config set_bucket]. rewrite Hg, Hc. split_and!; [lia|done|done].
Qed.

Lemma steps_until w ops :
  forallb (fun o => negb (is_reset o)) ops = true →
  w_gapUntil w <= w_gapUntil (foldl step w ops) ∧ w_config (foldl step w ops) = w_config w.
Proof.
  revert w. induction ops as [|o ops IH]; intros w H; cbn in *; [split; [lia|done]|].
  apply andb_true_iff in H as [Ho H]. bools. destruct (step_until w o Ho) as (H1 & H2 & _).
  destruct (IH (step w o) H) as [H3 H4]. split; [lia|congruence].
Qed.

(** C27: A loss is never hidden: after a gap, a dropped record, a record older
    than the window or a full counter, every snapshot whose window still holds
    the second of the loss is incomplete and not ready, whatever is added later,
    until the window is reset. *)
Theorem loss_visible w o t ops at_ :
  loss w o = Some t → forallb (fun o => negb (is_reset o)) ops = true →
  Truncate at_ Second <= Truncate t Second + wc_Window (w_config w) →
  let s := Snapshot (foldl step (step w o) ops) at_ in
  sm_Ready s = false ∧ sm_Complete s = false ∧ sm_Reason s = "collection_gap".
Proof.
  intros Hl Hops Hat. assert (Hr : is_reset o = false) by (by destruct o).
  destruct (step_until w o Hr) as (_ & Hc & Hg). specialize (Hg t Hl).
  destruct (steps_until (step w o) ops Hops) as [Hm _].
  assert (Hb : Before (Truncate at_ Second) (w_gapUntil (foldl step (step w o) ops)) = true).
  { unfold Before, gap_end, Add in *. pose proof Second_pos. apply Z.ltb_lt. lia. }
  unfold Snapshot. cbn zeta. rewrite Hb. cbn. by rewrite andb_false_r.
Qed.
