(* ===== verification/LogSummaryFacts.v ===== *)
(** * Producer and consumer agree on a log summary

    [Window.Snapshot] (the producer) and [Summary.Assess] (the consumer, which
    trusts only the counts) give the same verdict. *)
From S2P Require Import Prelude GoText GoFloat LogWindow LogWindowFacts.

(** ** Well-formed counters *)

Definition second_start (s : Z) : time := from_unix_nano (s * Second).

Record bucket_ok (w : Window) (b : bucket) : Prop := {
  bo_counts : length (b_counts b) = 7%nat;
  bo_channels : length (b_channels b) = 3%nat;
  bo_level : Forall (fun n => 0 <= n <= Z.quot (counter_limit w) 7) (b_counts b);
  bo_channel : Forall (fun n => 0 <= n) (b_channels b);
  bo_total : sum_Z (b_channels b) = sum_Z (b_counts b);
  bo_invalid : 0 <= b_invalid b <= level_count Unclassified b;
  bo_dropped : 0 <= b_dropped b;
  bo_gap : 0 < b_dropped b → second_start (b_second b) + wc_Window (w_config w) + Second <= w_gapUntil w }.

Record window_ok (w : Window) : Prop := {
  wo_config : wc_Window (w_config w) = ring_seconds w * Second;
  wo_size : 1 <= ring_seconds w <= 3600;
  wo_buckets : Forall (bucket_ok w) (w_buckets w) }.

(** The classifications a parser produces: an invalid record has no severity. *)
Definition op_ok (o : op) : bool :=
  match o with OAdd _ c _ => negb (Invalid c) || (Level c =? Unclassified) | _ => true end.

Lemma limit_pos w : 1 <= ring_seconds w <= 3600 → 0 < Z.quot (counter_limit w) 7.
Proof.
  unfold ring_seconds, counter_limit. intros Hn.
  assert (Z.quot (2 ^ 53) 3601 <= Z.quot (2 ^ 53) (Z.of_nat (length (w_buckets w)))) as H
    by (apply Z.quot_le_compat_l; lia).
  assert (7 <= Z.quot (2 ^ 53) 3601) by (vm_compute; discriminate).
  pose proof (Z.quot_le_mono 7 (Z.quot (2 ^ 53) (Z.of_nat (length (w_buckets w)))) 7 ltac:(lia) ltac:(lia)) as Hq.
  change (7 ÷ 7) with 1 in Hq. lia.
Qed.

Lemma new_bucket_ok w s : 1 <= ring_seconds w <= 3600 → bucket_ok w (new_bucket s).
Proof. intros Hn%limit_pos. split; cbn; try done; try lia; repeat constructor; lia. Qed.

Lemma bucket_at_ok w s : window_ok w → bucket_ok w (bucket_at w s).
Proof.
  intros [Hc Hn Hb]. unfold bucket_at. destruct (_ =? _); [|by apply new_bucket_ok].
  destruct (ring_index_mod w s ltac:(lia)) as [_ Hlt].
  destruct (lookup_lt_is_Some_2 (w_buckets w) (ring_index w s) Hlt) as [b Hl].
  rewrite (nth_lookup_Some _ _ _ b Hl). by eapply Forall_lookup_1.
Qed.

Lemma bucket_ok_until w w' b :
  w_config w' = w_config w → length (w_buckets w') = length (w_buckets w) → w_gapUntil w <= w_gapUntil w' →
  bucket_ok w b → bucket_ok w' b.
Proof.
  intros Hc Hl Hg []. split; try done; unfold counter_limit; rewrite ?Hl, ?Hc; try done. intros. specialize (bo_gap0 H). lia.
Qed.

Lemma window_ok_until w w' :
  w_config w' = w_config w → w_buckets w' = w_buckets w → w_gapUntil w <= w_gapUntil w' → window_ok w → window_ok w'.
Proof.
  intros Hc Hb Hg [? ? ?]. split; unfold ring_seconds; rewrite ?Hc, ?Hb; try done.
  eapply list.Forall_impl; [eassumption|]. intros b. apply bucket_ok_until; by rewrite ?Hb.
Qed.

Lemma set_bucket_window_ok w i b : window_ok w → bucket_ok w b → window_ok (set_bucket w i b).
Proof.
  intros [? ? ?] Hb. split; unfold ring_seconds; cbn; rewrite ?length_insert; try done.
  assert (Hall : ∀ b', bucket_ok w b' → bucket_ok (set_bucket w i b) b').
  { intros b'. apply bucket_ok_until; cbn; rewrite ?length_insert; try done; lia. }
  apply Forall_insert; [|by apply Hall]. eapply list.Forall_impl; [eassumption|]. exact Hall.
Qed.

Lemma Forall_incr (P Q : Z → Prop) l i :
  Forall P l → (∀ n, P n → Q n) → (∀ n, l !! i = Some n → Q (n + 1)) → Forall Q (incr l i).
Proof.
  intros HP HPQ Hi. apply Forall_lookup. intros j n Hj. unfold incr in Hj.
  destruct (decide (j = i)) as [->|Hne].
  - rewrite list_lookup_alter_eq in Hj. destruct (l !! i) as [m|] eqn:E; [|done]. injection Hj as <-. by apply Hi.
  - rewrite list_lookup_alter_ne in Hj by done. apply HPQ. by eapply (Forall_lookup_1 P).
Qed.

Lemma count_record_ok w b c ch :
  bucket_ok w b → Unclassified <= Level c <= Fatal → (Invalid c = true → Level c = Unclassified) →
  level_count (Level c) b < Z.quot (counter_limit w) 7 → bucket_ok w (count_record b c ch).
Proof.
  unfold Unclassified, Fatal. intros [H7 H3 Hl Hch Ht Hi Hd Hg] Hlv Hinv Hroom.
  assert (Hj : (Z.to_nat (Level c) < length (b_counts b))%nat) by lia.
  assert (Hk : (channel_index ch < length (b_channels b))%nat) by (unfold channel_index; repeat case_match; lia).
  split; cbn; unfold incr in *; rewrite ?length_alter; try done; fold (incr (b_counts b) (Z.to_nat (Level c)));
    fold (incr (b_channels b) (channel_index ch)).
  - eapply Forall_incr; [exact Hl|done|]. intros n Hn. unfold level_count in Hroom.
    rewrite (nth_lookup_Some _ _ _ n Hn) in Hroom. pose proof (Forall_lookup_1 _ _ _ _ Hl Hn). cbn in *. lia.
  - eapply Forall_incr; [exact Hch|done|]. intros n Hn. pose proof (Forall_lookup_1 _ _ _ _ Hch Hn). cbn in *. lia.
  - rewrite !sum_incr by done. lia.
  - unfold level_count. cbn [b_counts]. rewrite nth_incr. unfold level_count in Hi. change (Z.to_nat Unclassified) with 0%nat in *.
    destruct (Invalid c).
    { rewrite Hinv by done. change (Z.to_nat 0) with 0%nat. change (Z.to_nat Unclassified) with 0%nat.
      rewrite Nat.eqb_refl, (proj2 (Nat.ltb_lt 0 (length (b_counts b)))) by lia. cbn [andb]. lia. }
    destruct (_ && _); lia.
Qed.

Lemma normal_class_valid c :
  negb (Invalid c) || (Level c =? Unclassified) = true → Invalid (normal_class c) = true → Level (normal_class c) = Unclassified.
Proof.
  unfold normal_class. destruct ((Level c <? Unclassified) || (Fatal <? Level c)); [done|]. intros H Hi. rewrite Hi in H. cbn in H. by bools.
Qed.

Lemma Gap_window_ok w t : window_ok w → window_ok (Gap w t).
Proof. apply window_ok_until; try done. apply Gap_until. Qed.

Lemma bucket_at_second w s : b_second (bucket_at w s) = s.
Proof. unfold bucket_at. by destruct (Z.eqb_spec (b_second (nth (ring_index w s) (w_buckets w) (new_bucket 0))) s). Qed.

Lemma second_start_Unix t : second_start (Unix t) = Truncate t Second.
Proof.
  unfold second_start, Unix, from_unix_nano, Truncate. pose proof Second_pos.
  destruct (Z.leb_spec Second 0); [lia|]. pose proof (Z.div_mod t Second ltac:(lia)). lia.
Qed.

Lemma Truncate_idem t : Truncate (Truncate t Second) Second = Truncate t Second.
Proof. by rewrite <- (second_start_Unix (Truncate t Second)), Unix_Truncate, second_start_Unix. Qed.

Lemma step_window_ok w o : window_ok w → op_ok o = true → window_ok (step w o).
Proof.
  intros Hw Ho. destruct o as [at_ c ch|at_|at_|at_]; cbn [step] in *.
  - unfold AddFrom. destruct (Blank c); [done|]. destruct (Before _ _); [by apply Gap_window_ok|]. cbn zeta.
    set (w1 := if After at_ (w_last w) then set_last w at_ else w).
    assert (H1 : window_ok w1) by (subst w1; destruct (After _ _); [|done]; eapply window_ok_until; [..|exact Hw]; try done; cbn; lia).
    clearbody w1. pose proof (bucket_at_ok w1 (Unix at_) H1) as Hb.
    set (w2 := set_bucket _ _ _). assert (H2 : window_ok w2) by by apply set_bucket_window_ok.
    destruct (Z.leb_spec (Z.quot (counter_limit w2) 7) (nth (Z.to_nat (Level (normal_class c))) (b_counts (bucket_at w1 (Unix at_))) 0));
      [by apply Gap_window_ok|].
    subst w2. rewrite ring_index_set, set_bucket_twice. apply set_bucket_window_ok; [done|].
    apply count_record_ok; [done|apply normal_class_ok|by apply normal_class_valid|].
    unfold level_count, counter_limit in *. cbn in *. by rewrite length_insert in *.
  - unfold Drop. cbn zeta. pose proof (Gap_window_ok w at_ Hw) as H1. pose proof (bucket_at_ok _ (Unix at_) H1) as Hb.
    apply set_bucket_window_ok; [done|]. destruct Hb. split; cbn -[Gap] in *; try done; [destruct (_ <? _); lia|].
    intros _. rewrite bucket_at_second, second_start_Unix. destruct (Gap_until w at_) as [_ Hg].
    unfold gap_end, Add in Hg. cbn [w_config Gap] in *. lia.
  - by apply Gap_window_ok.
  - destruct Hw as [Hc Hn Hb]. split; unfold ring_seconds in *; cbn; rewrite ?repeat_length; try done.
    apply list.Forall_forall. intros b Hin%list_elem_of_In%repeat_spec. subst b.
    apply new_bucket_ok. unfold ring_seconds. cbn. by rewrite repeat_length.
Qed.

Lemma NewWindow_window_ok c at_ w : NewWindow c at_ = Ok w → window_ok w ∧ w_config w = c ∧ w_started w = at_.
Proof.
  intros H. destruct (NewWindow_ok _ _ _ H) as [[Hc Hn _ _ _ _] _]. cbn in Hc, Hn. unfold NewWindow in H. res_inv. bools.
  cbn in *. split_and!; try done. unfold ring_seconds in *. cbn in *. rewrite repeat_length in *.
  assert (Hmax : wc_Window c ÷ Second <= 3600).
  { pose proof Second_pos. change 3600 with (Hour ÷ Second). apply Z.quot_le_mono; lia. }
  split; unfold ring_seconds; cbn; rewrite ?repeat_length; try done; try lia.
  apply list.Forall_forall. intros b Hin%list_elem_of_In%repeat_spec. subst b.
  apply new_bucket_ok. unfold ring_seconds. cbn. rewrite repeat_length. lia.
Qed.

Lemma steps_window_ok w ops : window_ok w → forallb op_ok ops = true → window_ok (foldl step w ops).
Proof.
  revert w. induction ops as [|o ops IH]; intros w Hw Ho; cbn in *; [done|].
  apply andb_true_iff in Ho as [? ?]. apply IH; [by apply step_window_ok|done].
Qed.

(** ** Sums over the buckets of a snapshot *)

Lemma sum_of_le f g l : Forall (fun b => f b <= g b) l → sum_of f l <= sum_of g l.
Proof. unfold sum_of. induction 1; cbn; lia. Qed.

Lemma sum_of_add f g l : sum_of (fun b => f b + g b) l = sum_of f l + sum_of g l.
Proof. unfold sum_of. induction l; cbn; lia. Qed.

Lemma sum_of_const k l : sum_of (fun _ => k) l = Z.of_nat (length l) * k.
Proof. unfold sum_of. induction l; cbn [foldr length]; lia. Qed.

Lemma sum_of_zero f l : Forall (fun b => 0 <= f b) l → 0 <= sum_of f l.
Proof. intros. rewrite <- (Z.mul_0_r (Z.of_nat (length l))), <- sum_of_const. by apply sum_of_le. Qed.

Lemma sum_of_pos f l : Forall (fun b => 0 <= f b) l → 0 < sum_of f l → ∃ b, b ∈ l ∧ 0 < f b.
Proof.
  unfold sum_of. induction 1 as [|b l Hb Hl IH]; cbn; [lia|]. intros Hs.
  destruct (Z.lt_ge_cases 0 (f b)); [exists b; split; [left|done]|]. destruct IH as (b' & ? & ?); [lia|].
  exists b'. split; [by right|done].
Qed.

(** One bucket's counters, spelled out. *)
Lemma bucket_levels w b : bucket_ok w b →
  record_count b = level_count 0 b + level_count 1 b + level_count 2 b + level_count 3 b
                   + level_count 4 b + level_count 5 b + level_count 6 b ∧
  record_count b = channel_count 0 b + channel_count 1 b + channel_count 2 b ∧
  (∀ i, 0 <= level_count i b) ∧ (∀ i, 0 <= channel_count i b) ∧ record_count b <= 7 * Z.quot (counter_limit w) 7.
Proof.
  intros [H7 H3 Hl Hch Ht _ _ _]. unfold record_count. split_and!.
  - unfold level_count. change (Z.to_nat 0) with 0%nat. change (Z.to_nat 1) with 1%nat. change (Z.to_nat 2) with 2%nat.
    change (Z.to_nat 3) with 3%nat. change (Z.to_nat 4) with 4%nat. change (Z.to_nat 5) with 5%nat. change (Z.to_nat 6) with 6%nat.
    destruct (b_counts b) as [|? [|? [|? [|? [|? [|? [|? [|]]]]]]]]; try done. unfold sum_Z. cbn [foldr nth]. lia.
  - rewrite <- Ht. unfold channel_count. destruct (b_channels b) as [|? [|? [|? [|]]]]; try done.
    unfold sum_Z. cbn [foldr nth]. lia.
  - intros i. unfold level_count. destruct (b_counts b !! Z.to_nat i) as [n|] eqn:E.
    + rewrite (nth_lookup_Some _ _ _ n E). pose proof (Forall_lookup_1 _ _ _ _ Hl E). cbn in *. lia.
    + rewrite nth_overflow; [lia|]. by apply lookup_ge_None_1.
  - intros i. unfold channel_count. destruct (b_channels b !! i) as [n|] eqn:E.
    + rewrite (nth_lookup_Some _ _ _ n E). pose proof (Forall_lookup_1 _ _ _ _ Hch E). cbn in *. lia.
    + rewrite nth_overflow; [lia|]. by apply lookup_ge_None_1.
  - destruct (b_counts b) as [|? [|? [|? [|? [|? [|? [|? [|]]]]]]]]; try done.
    rewrite !list.Forall_cons in Hl. unfold sum_Z. cbn [foldr]. lia.
Qed.

Lemma step_config w o : w_config (step w o) = w_config w.
Proof. destruct o; try done; destruct (step_until w (OAdd at_ c channel) eq_refl) as (_ & H & _); exact H. Qed.

Lemma steps_config w ops : w_config (foldl step w ops) = w_config w.
Proof. revert w. induction ops as [|o ops IH]; intros w; cbn; [done|]. by rewrite IH, step_config. Qed.

(** The facts [Assess] checks, of the buckets [bs] of a snapshot. *)
Lemma snapshot_counts w bs :
  window_ok w → Forall (bucket_ok w) bs → (length bs <= length (w_buckets w))%nat →
  let n f := sum_of f bs in
  0 <= n record_count < 2 ^ 53 ∧
  n (level_count Unclassified) + n (level_count Warning) + n (level_count Error) + n (level_count Fatal) <= n record_count ∧
  n b_invalid <= n (level_count Unclassified) ∧
  n (channel_count 0) + n (channel_count 1) + n (channel_count 2) = n record_count ∧
  (∀ i, 0 <= n (level_count i)) ∧ (∀ i, 0 <= n (channel_count i)) ∧ 0 <= n b_invalid ∧ 0 <= n b_dropped.
Proof.
  intros [_ Hn _] Hbs Hlen. cbn zeta.
  assert (Hf : ∀ P : bucket → Prop, (∀ b, bucket_ok w b → P b) → Forall P bs).
  { intros P HP. by eapply list.Forall_impl. }
  assert (Hrec : sum_of record_count bs <= Z.of_nat (length bs) * (7 * Z.quot (counter_limit w) 7)).
  { rewrite <- sum_of_const. apply sum_of_le, Hf. intros b Hb. by apply (bucket_levels w). }
  split_and!.
  - apply sum_of_zero, Hf. intros b Hb. destruct (bucket_levels w b Hb) as (-> & _ & H0 & _).
    pose proof (H0 0); pose proof (H0 1); pose proof (H0 2); pose proof (H0 3); pose proof (H0 4); pose proof (H0 5);
      pose proof (H0 6); lia.
  - set (k := Z.of_nat (length (w_buckets w))) in *. set (q := Z.quot (counter_limit w) 7) in *.
    assert (Hq : 0 < q) by (apply limit_pos; lia).
    assert (Hq7 : 7 * q <= counter_limit w).
    { subst q. assert (Hc : 0 <= counter_limit w).
      { unfold counter_limit. unfold ring_seconds in Hn. apply Z.quot_pos; [done|lia]. }
      pose proof (Z.quot_rem' (counter_limit w) 7). pose proof (Z.rem_nonneg (counter_limit w) 7 ltac:(lia) Hc). lia. }
    assert (Hk : k * counter_limit w <= 2 ^ 53).
    { unfold counter_limit. fold k. unfold ring_seconds in Hn. fold k in Hn.
      pose proof (Z.quot_rem' (2 ^ 53) k). pose proof (Z.rem_nonneg (2 ^ 53) k ltac:(lia) ltac:(lia)). lia. }
    assert (Z.of_nat (length bs) * (7 * q) <= k * (7 * q)) by (apply Z.mul_le_mono_nonneg_r; lia).
    assert (k * (7 * q) <= k * counter_limit w) by (apply Z.mul_le_mono_nonneg_l; lia).
    assert (Hne : k * (7 * q) ≠ 2 ^ 53).
    { intros E. assert ((k * q * 7) mod 7 = 0) as H7 by (apply Z.mod_mul; lia).
      replace (k * q * 7) with (2 ^ 53) in H7 by lia. by vm_compute in H7. }
    lia.
  - rewrite <- !sum_of_add. apply sum_of_le, Hf. intros b Hb. destruct (bucket_levels w b Hb) as (-> & _ & H0 & _).
    unfold Unclassified, Warning, Error, Fatal. pose proof (H0 1); pose proof (H0 2); pose proof (H0 3). lia.
  - apply sum_of_le, Hf. intros b []. lia.
  - rewrite <- !sum_of_add. apply Z.le_antisymm; apply sum_of_le, Hf; intros b Hb;
      destruct (bucket_levels w b Hb) as (_ & -> & _); lia.
  - intros i. apply sum_of_zero, Hf. intros b Hb. by apply (bucket_levels w b Hb).
  - intros i. apply sum_of_zero, Hf. intros b Hb. by apply (bucket_levels w b Hb).
  - apply sum_of_zero, Hf. intros b []. lia.
  - apply sum_of_zero, Hf. by intros b [].
Qed.

(** A dropped record of the window keeps the window's gap open. *)
Lemma dropped_gap w at_ :
  window_ok w → 0 < sm_Dropped (Snapshot w at_) → Before (Truncate at_ Second) (w_gapUntil w) = true.
Proof.
  intros Hw Hd. destruct Hw as [Hc Hn Hb].
  assert (Hd' : 0 < sum_of b_dropped (List.filter (in_snapshot (Add (Truncate at_ Second) (- wc_Window (w_config w)))
            (Truncate at_ Second)) (w_buckets w))).
  { unfold Snapshot in Hd. by destruct (if negb _ then _ else _) in Hd. }
  apply sum_of_pos in Hd' as (b & Hin & Hdb).
  2:{ apply list.Forall_forall. intros b Hin. apply list_elem_of_In, filter_In in Hin as [Hin _].
      rewrite list.Forall_forall in Hb. apply list_elem_of_In in Hin. by destruct (Hb b Hin). }
  apply list_elem_of_In, filter_In in Hin as [Hin Hr]. apply list_elem_of_In in Hin.
  rewrite list.Forall_forall in Hb. destruct (Hb b Hin) as [_ _ _ _ _ _ _ Hg]. specialize (Hg Hdb).
  unfold in_snapshot, Add in Hr. bools. rewrite Hc in *.
  rewrite Unix_Truncate in *. unfold Before. apply Z.ltb_lt.
  rewrite <- second_start_Unix. unfold second_start, from_unix_nano in *.
  assert (Unix at_ - ring_seconds w <= b_second b).
  { replace (Unix at_ - ring_seconds w) with (Unix (Truncate at_ Second + - (ring_seconds w * Second))); [done|].
    rewrite <- (Unix_Truncate at_). unfold Unix.
    replace (Truncate at_ Second + - (ring_seconds w * Second)) with (Truncate at_ Second + (- ring_seconds w) * Second) by lia.
    pose proof Second_pos. rewrite Z.div_add by lia. lia. }
  pose proof Second_pos. nia.
Qed.

Lemma existsb_Forall {A : Type} (p : A → bool) l : Forall (fun x => p x = false) l → existsb p l = false.
Proof. induction 1 as [|x l Hx Hl IH]; cbn; [done|]. by rewrite Hx. Qed.

(** The guards of [Assess] hold of a snapshot in time. *)
Lemma snapshot_guards w at_ begun now :
  window_ok w → let s := Snapshot w at_ in
  sm_Dropped s < 2 ^ 53 → sm_WindowEnd s <= now + Second → now < sm_WindowEnd s + 3 * Second →
  ∃ s', Assess s (w_config w) begun now = Ok s' ∧
    sm_Coverage s' = sm_Coverage s ∧ sm_Other s' = sm_Other s ∧
    (sm_Complete s', sm_Ready s', sm_Reason s') = assess_readiness s (sm_Coverage s) (w_config w) begun ∧
    sm_WarningRatio s' = (if sm_Ready s' then Some (fdiv (of_int (sm_Warnings s)) (of_int (sm_Total s))) else None) ∧
    sm_ErrorRatio s' = (if sm_Ready s' then Some (fdiv (of_int (sm_Errors s + sm_Fatal s)) (of_int (sm_Total s))) else None).
Proof.
  intros Hw. cbn zeta. unfold Snapshot. cbn zeta.
  set (bs := List.filter _ _). set (verdict := if negb (negb (Before _ (w_gapUntil w))) then _ else _).
  assert (Hbs : Forall (bucket_ok w) bs).
  { apply list.Forall_forall. intros b Hin. apply list_elem_of_In, filter_In in Hin as [Hin _].
    destruct Hw as [_ _ Hb]. rewrite list.Forall_forall in Hb. apply Hb. by apply list_elem_of_In. }
  destruct (snapshot_counts w bs Hw Hbs) as (Ht & Hl & Hi & Hch & H0 & Hc0 & Hi0 & Hd0); [apply filter_length_le|].
  destruct verdict as [ready reason]. cbn [sm_Dropped sm_WindowEnd].
  intros Hd Hend Hnow. unfold Assess, fail_if.
  cbn [sm_Version sm_WindowSeconds sm_WindowStart sm_WindowEnd sm_Classified sm_Unclassified sm_Total sm_Warnings sm_Errors
       sm_Fatal sm_Invalid sm_Stdout sm_Stderr sm_Other sm_Dropped].
  rewrite !Z.eqb_refl.
  replace (Truncate at_ Second =? Truncate (Truncate at_ Second) Second) with true
    by (symmetry; apply Z.eqb_eq; by rewrite Truncate_idem).
  unfold After, Before, Add in *. rewrite (proj2 (Z.ltb_ge (now + Second) (Truncate at_ Second))) by lia.
  rewrite (proj2 (Z.ltb_lt now (Truncate at_ Second + 3 * Second))) by lia. cbn [negb orb mbind result_bind].
  rewrite existsb_Forall.
  2:{ pose proof (H0 Unclassified). pose proof (H0 Warning). pose proof (H0 Error). pose proof (H0 Fatal).
      pose proof (Hc0 0%nat). pose proof (Hc0 1%nat). pose proof (Hc0 2%nat). unfold counts_of. cbn.
      repeat constructor; apply orb_false_iff; (split; apply Z.ltb_ge; lia). }
  cbn [mbind result_bind].
  rewrite (proj2 (Z.eqb_eq (sum_of record_count bs - sum_of (level_count Unclassified) bs + sum_of (level_count Unclassified) bs)
             (sum_of record_count bs))) by lia.
  rewrite (proj2 (Z.ltb_ge (sum_of record_count bs - sum_of (level_count Unclassified) bs) _)) by lia.
  rewrite (proj2 (Z.ltb_ge (sum_of (level_count Unclassified) bs) (sum_of b_invalid bs))) by lia.
  rewrite Hch, Z.eqb_refl, andb_false_r. cbn [negb orb mbind result_bind].
  destruct (assess_readiness _ _ _ _) as [[complete ready'] reason'] eqn:Er. eexists. split; [done|].
  cbn [sm_Coverage sm_Other sm_Complete sm_Ready sm_Reason sm_WarningRatio sm_ErrorRatio]. split_and!; try done.
  destruct (Z.eqb_spec (sum_of record_count bs) 0); [|done].
  pose proof (Hc0 0%nat). pose proof (Hc0 1%nat). pose proof (Hc0 2%nat). lia.
Qed.

Lemma Snapshot_start w at_ : sm_WindowStart (Snapshot w at_) = Add (Truncate at_ Second) (- wc_Window (w_config w)).
Proof. unfold Snapshot. cbn zeta. by destruct (if negb _ then _ else _). Qed.

Lemma Snapshot_Invalid w at_ :
  sm_Invalid (Snapshot w at_) =
  sum_of b_invalid (List.filter (in_snapshot (Add (Truncate at_ Second) (- wc_Window (w_config w))) (Truncate at_ Second)) (w_buckets w)).
Proof. unfold Snapshot. cbn zeta. by destruct (if negb _ then _ else _). Qed.

Lemma Before_shift t u d : Before (Add t (- d)) u = Before t (Add u d).
Proof. unfold Before, Add. destruct (Z.ltb_spec (t + - d) u), (Z.ltb_spec t (u + d)); try done; exfalso; lia. Qed.

(** Completeness and readiness recomputed from a snapshot: those of the producer,
    unless the window began before the consumer did. *)
Lemma assess_readiness_snapshot w at_ begun :
  window_ok w → let s := Snapshot w at_ in
  ∃ reason, assess_readiness s (sm_Coverage s) (w_config w) begun =
    (sm_Complete s && negb (Before (sm_WindowStart s) begun), sm_Ready s && negb (Before (sm_WindowStart s) begun), reason).
Proof.
  intros Hw s. pose proof (dropped_gap w at_ Hw) as Hdg. fold s in Hdg. unfold assess_readiness.
  set (late := Before (sm_WindowStart s) begun). destruct (Z.ltb_spec 0 (sm_Dropped s)) as [Hdr|Hdr].
  - specialize (Hdg Hdr). eexists. subst s. unfold Snapshot. cbn zeta. rewrite Hdg. cbn. by rewrite andb_false_r.
  - assert (Hi : 0 <= sm_Invalid s).
    { subst s. rewrite Snapshot_Invalid. apply sum_of_zero, list.Forall_forall. intros b Hin. apply list_elem_of_In, filter_In in Hin as [Hin _].
      destruct Hw as [_ _ Hb]. rewrite list.Forall_forall in Hb. apply list_elem_of_In in Hin. destruct (Hb b Hin). lia. }
    clearbody late. subst s. rewrite Snapshot_Invalid in Hi. revert Hi. clear. unfold Snapshot. cbn zeta.
    set (inv := sum_of b_invalid _). set (tot := sum_of record_count _). set (cov := coverage _ _). intros Hi.
    destruct (Z.ltb_spec 0 inv) as [Hp|Hp]; [assert (inv =? 0 = false) as Hz by (apply Z.eqb_neq; lia)|assert (inv =? 0 = true) as Hz by (apply Z.eqb_eq; lia)];
      destruct late, (Before (Truncate at_ Second) (w_gapUntil w)), (Before (Truncate at_ Second) (Add (w_started w) (wc_Window (w_config w))));
      cbn [negb andb]; destruct (tot <? wc_MinEvents (w_config w)) eqn:E1, (flt cov (wc_MinCoverage (w_config w))) eqn:E2;
      cbn [sm_Invalid sm_Complete sm_Ready sm_Reason sm_Total sm_Coverage]; rewrite ?Hz, ?(proj2 (Z.ltb_lt 0 inv) Hp), ?(proj2 (Z.ltb_ge 0 inv) Hp);
      cbn [negb andb]; rewrite ?E1, ?E2; by eexists.
Qed.

(** C28: The consumer's assessment of a produced summary agrees with the
    producer.  For every sequence of window operations (an invalid record is
    unclassified, as the classifier has it), a snapshot whose window ended at most
    a second ahead of the consumer's clock and less than three seconds ago, and
    whose drop count is below 2^53, passes all of [Assess]'s checks.  Whatever
    instant [begun] the consumer recorded as the start of its session, [Assess]
    recomputes the producer's coverage from the counts alone, and also its
    completeness, readiness and ratios when the window does not begin before
    [begun]; when it does, the summary is neither complete nor ready and has no
    ratios. *)
Theorem Assess_agrees_with_Snapshot c started w ops at_ begun now :
  NewWindow c started = Ok w → forallb op_ok ops = true →
  let s := Snapshot (foldl step w ops) at_ in
  sm_Dropped s < 2 ^ 53 → sm_WindowEnd s <= now + Second → now < sm_WindowEnd s + 3 * Second →
  let covered := negb (Before (sm_WindowStart s) begun) in
  ∃ s', Assess s c begun now = Ok s' ∧ sm_Ready s' = sm_Ready s && covered ∧ sm_Complete s' = sm_Complete s && covered ∧
    sm_Coverage s' = sm_Coverage s ∧ sm_Other s' = sm_Other s ∧
    sm_WarningRatio s' = (if covered then sm_WarningRatio s else None) ∧ sm_ErrorRatio s' = (if covered then sm_ErrorRatio s else None).
Proof.
  intros Hnew Hops s Hd Hend Hnow covered. destruct (NewWindow_window_ok _ _ _ Hnew) as (Hw & Hc & _).
  assert (Hw' : window_ok (foldl step w ops)) by by apply steps_window_ok.
  assert (Hc' : w_config (foldl step w ops) = c) by by rewrite steps_config.
  destruct (snapshot_guards _ at_ begun now Hw' Hd Hend Hnow) as (s' & Ha & Hcov & Hoth & Hr & Hwr & Her).
  destruct (assess_readiness_snapshot _ at_ begun Hw') as [reason Hrs]. rewrite Hrs in Hr. rewrite Hc' in Ha. fold s in Ha, Hcov, Hoth, Hr, Hwr, Her.
  fold covered in Hr. injection Hr as Hcomp Hready _. exists s'. rewrite Hwr, Her, Hready. split_and!; try done; destruct covered;
    rewrite ?andb_true_r, ?andb_false_r; try done; subst s; unfold Snapshot; cbn zeta; by destruct (if negb _ then _ else _).
Qed.
