(* ===== verification/LogFrame.v ===== *)
(** * Record framing: [internal/logs/frame.go], [internal/logs/multiline.go], and its facts

    The framer splits an output stream into records whatever the boundaries of
    the writes are.  The callback [emit] is the list of the records it was given,
    in order.  User regular expressions are parameters: compiled, they are
    predicates on lines.  A multiline timer is its epoch; [timer_fired] is what
    its callback does, under the framer's lock, at any later time. *)

From S2P Require Import Prelude GoText GoTime.

Definition MaxRecordBytes : Z := Z.shiftl 64 10.

Record FrameConfig := {
  fc_Mode : string; fc_Start : string; fc_Continue : string; fc_MaxLines : Z; fc_FlushAfter : string }.

Record multiline := mkMultiline {
  m_start : string → bool; m_continuation : string → bool; m_maxLines : Z; m_lines : Z; m_deadline : duration;
  m_buf : string; m_invalid : bool; m_end : Z; m_timer : option Z; m_epoch : Z }.

Record Framer := mkFramer {
  f_buf : string; f_oversize : bool; f_emitted : list (string * bool); f_read : Z; f_complete : Z; f_closed : bool;
  f_carriageReturn : bool; f_multi : option multiline }.

#[global] Instance eta_Framer : Eta Framer := fun f =>
  mkFramer (f_buf f) (f_oversize f) (f_emitted f) (f_read f) (f_complete f) (f_closed f) (f_carriageReturn f) (f_multi f).
#[global] Instance upd_f_buf : FieldUpdate f_buf. Proof. field_update. Defined.
#[global] Instance upd_f_oversize : FieldUpdate f_oversize. Proof. field_update. Defined.
#[global] Instance upd_f_emitted : FieldUpdate f_emitted. Proof. field_update. Defined.
#[global] Instance upd_f_read : FieldUpdate f_read. Proof. field_update. Defined.
#[global] Instance upd_f_complete : FieldUpdate f_complete. Proof. field_update. Defined.
#[global] Instance upd_f_closed : FieldUpdate f_closed. Proof. field_update. Defined.
#[global] Instance upd_f_carriageReturn : FieldUpdate f_carriageReturn. Proof. field_update. Defined.
#[global] Instance upd_f_multi : FieldUpdate f_multi. Proof. field_update. Defined.

#[global] Instance eta_multiline : Eta multiline := fun m =>
  mkMultiline (m_start m) (m_continuation m) (m_maxLines m) (m_lines m) (m_deadline m) (m_buf m) (m_invalid m) (m_end m)
    (m_timer m) (m_epoch m).
#[global] Instance upd_m_lines : FieldUpdate m_lines. Proof. field_update. Defined.
#[global] Instance upd_m_buf : FieldUpdate m_buf. Proof. field_update. Defined.
#[global] Instance upd_m_invalid : FieldUpdate m_invalid. Proof. field_update. Defined.
#[global] Instance upd_m_end : FieldUpdate m_end. Proof. field_update. Defined.
#[global] Instance upd_m_timer : FieldUpdate m_timer. Proof. field_update. Defined.
#[global] Instance upd_m_epoch : FieldUpdate m_epoch. Proof. field_update. Defined.

Definition NewFramer : Framer := mkFramer "" false [] 0 0 false false None.

Section Compiled.
(** [regexp.Compile] of a user's pattern, then [Match]. *)
Context (compile : string → option (string → bool)).

Definition NewConfiguredFramer (c : FrameConfig) : result Framer :=
  let mode := if fc_Mode c ≟ "" then "line" else fc_Mode c in
  if negb (mode ≟ "multiline") then
    fail_if ((negb (mode ≟ "line") && negb (mode ≟ "carriage-return")) || negb (fc_Start c ≟ "") || negb (fc_Continue c ≟ "")
             || negb (fc_MaxLines c =? 0) || negb (fc_FlushAfter c ≟ "")) "invalid log framing configuration" ;;
    Ok (NewFramer <| f_carriageReturn := (mode ≟ "carriage-return") |>)
  else
    let maxLines := if fc_MaxLines c =? 0 then 100 else fc_MaxLines c in
    let flushAfter := if fc_FlushAfter c ≟ "" then "1s" else fc_FlushAfter c in
    d ← match ParseDuration flushAfter with
        | Ok d => fail_if ((d <? 100 * Millisecond) || (5 * Second <? d) || (maxLines <? 2) || (1000 <? maxLines))
                    "multiline requires 2–1000 lines and flushAfter between 100ms and 5s" ;; Ok d
        | Err _ => Err "multiline requires 2–1000 lines and flushAfter between 100ms and 5s"
        end;
    fail_if ((len (fc_Start c) =? 0) || (1024 <? len (fc_Start c)) || (len (fc_Continue c) =? 0) || (1024 <? len (fc_Continue c)))
      "multiline requires bounded start and continuation patterns" ;;
    start ← match compile (fc_Start c) with Some r => Ok r | None => Err "invalid multiline start pattern" end;
    continuation ← match compile (fc_Continue c) with Some r => Ok r | None => Err "invalid multiline continuation pattern" end;
    Ok (NewFramer <| f_multi := Some {| m_start := start; m_continuation := continuation; m_maxLines := maxLines;
          m_lines := 0; m_deadline := d; m_buf := ""; m_invalid := false; m_end := 0; m_timer := None; m_epoch := 0 |} |>).
End Compiled.

Definition deliver (f : Framer) (data : string) (invalid : bool) (fin : Z) : Framer :=
  f <| f_complete := fin |> <| f_emitted := (f_emitted f ++ [(data, invalid)])%list |>.

Definition flush (f : Framer) : Framer :=
  match f_multi f with
  | None => f
  | Some m =>
      if m_lines m =? 0 then f
      else (deliver f (m_buf m) (m_invalid m) (m_end m))
             <| f_multi := Some (m <| m_timer := None |> <| m_epoch := m_epoch m + 1 |> <| m_buf := "" |> <| m_lines := 0 |>
                                   <| m_invalid := false |>) |>
  end.

Definition newline : string := one (bz 10).

(** One line of the stream; [data] is empty for an oversized line. *)
Definition line (f : Framer) (data : string) (invalid : bool) : Framer :=
  match f_multi f with
  | None => deliver f data invalid (f_read f)
  | Some m =>
      if invalid then
        if 0 <? m_lines m then f <| f_multi := Some (m <| m_invalid := true |> <| m_end := f_read f |>) |>
        else deliver f "" true (f_read f)
      else if m_start m data then
        let f := flush f in
        match f_multi f with
        | None => f
        | Some m =>
            f <| f_multi := Some (m <| m_lines := 1 |> <| m_end := f_read f |> <| m_buf := data |>
                                    <| m_epoch := m_epoch m + 1 |> <| m_timer := Some (m_epoch m + 1) |>) |>
        end
      else if (0 <? m_lines m) && m_continuation m data then
        let m := m <| m_lines := m_lines m + 1 |> <| m_end := f_read f |> in
        let m := if (m_maxLines m <? m_lines m) || (MaxRecordBytes <? len (m_buf m) + 1 + len data)
                 then m <| m_invalid := true |> else m in
        let m := if negb (m_invalid m) then m <| m_buf := m_buf m ++ newline ++ data |> else m in
        f <| f_multi := Some m |>
      else deliver (flush f) data false (f_read f)
  end.

(** The callback of a timer armed for an epoch. *)
Definition timer_fired (f : Framer) (epoch : Z) : Framer :=
  match f_multi f with
  | Some m => if negb (f_closed f) && (m_epoch m =? epoch) then flush f else f
  | None => f
  end.

(** [bytes.IndexByte] of the first delimiter, or -1 as [None]. *)
Fixpoint first_delim (cr : bool) (p : string) : option nat :=
  match p with
  | "" => None
  | String c p => if (zb c =? 10) || (cr && (zb c =? 13)) then Some 0%nat else S <$> first_delim cr p
  end.

(** Appending a part to the line, unless it becomes oversized. *)
Definition append_part (f : Framer) (part : string) : Framer :=
  if f_oversize f then f
  else if MaxRecordBytes <? len (f_buf f) + len part then f <| f_oversize := true |> <| f_buf := "" |>
  else f <| f_buf := f_buf f ++ part |>.

(** The loop of [Write]: every round consumes at least one byte, so the length
    of the input is enough fuel. *)
Fixpoint write_loop (fuel : nat) (f : Framer) (p : string) : Framer :=
  match fuel with
  | O => f
  | S fuel =>
      match p with
      | "" => f
      | _ =>
          match first_delim (f_carriageReturn f) p with
          | None => (append_part f p) <| f_read := f_read f + len p |>
          | Some i =>
              let f := append_part f (str_take i p) in
              let f := f <| f_read := f_read f + Z.of_nat (i + 1) |> in
              let f := line f (f_buf f) (f_oversize f) in
              let f := f <| f_buf := "" |> <| f_oversize := false |> in
              write_loop fuel f (str_drop (i + 1) p)
          end
      end
  end.

Definition Write (f : Framer) (p : string) : result Framer :=
  if f_closed f then Err "io: read/write on closed pipe"
  else Ok (write_loop (String.length p) f p).

Definition Completed (f : Framer) : Z := f_complete f.

Definition Close (f : Framer) : Framer :=
  if f_closed f then f
  else
    let f := if (0 <? len (f_buf f)) || f_oversize f then line f (f_buf f) (f_oversize f) else f in
    (flush f) <| f_buf := "" |> <| f_oversize := false |> <| f_closed := true |>.

Definition Discard (f : Framer) : Framer :=
  let f := f <| f_closed := true |> <| f_buf := "" |> in
  match f_multi f with
  | Some m => f <| f_multi := Some (m <| m_timer := None |> <| m_buf := "" |>) |>
  | None => f
  end.

(** * Framing does not depend on write boundaries and stays bounded *)

(** ** The framer as a machine that reads one byte at a time *)

Definition is_delim (cr : bool) (c : ascii) : bool := (zb c =? 10) || (cr && (zb c =? 13)).

Definition end_line (f : Framer) : Framer := (line f (f_buf f) (f_oversize f)) <| f_buf := "" |> <| f_oversize := false |>.

Definition byte_step (f : Framer) (c : ascii) : Framer :=
  if is_delim (f_carriageReturn f) c then end_line (f <| f_read := f_read f + 1 |>)
  else (append_part f (one c)) <| f_read := f_read f + 1 |>.

Fixpoint feed (f : Framer) (p : string) : Framer :=
  match p with "" => f | String c p => feed (byte_step f c) p end.

Lemma feed_app f p q : feed f (p ++ q) = feed (feed f p) q.
Proof. revert f. induction p as [|c p IH]; intros f; cbn; auto. Qed.

(** ** Bounds *)

Record framer_ok (f : Framer) : Prop := {
  fo_buf : len (f_buf f) <= MaxRecordBytes;
  fo_multi : ∀ m, f_multi f = Some m → len (m_buf m) <= MaxRecordBytes ∧ 0 <= m_lines m;
  fo_emitted : Forall (fun r => len (fst r) <= MaxRecordBytes) (f_emitted f) }.

Lemma len_empty : len "" = 0.
Proof. done. Qed.
Lemma len_nonneg s : 0 <= len s.
Proof. apply Nat2Z.is_nonneg. Qed.
Lemma max_pos : 0 <= MaxRecordBytes.
Proof. by vm_compute. Qed.

Lemma deliver_ok f data invalid fin : len data <= MaxRecordBytes → framer_ok f → framer_ok (deliver f data invalid fin).
Proof.
  intros Hd [? ? ?]. split; cbn; try done. apply Forall_app. split; [done|]. by repeat constructor.
Qed.

Lemma flush_ok f : framer_ok f → framer_ok (flush f).
Proof.
  intros H. unfold flush. destruct (f_multi f) as [m|] eqn:Hm; [|done]. destruct (_ =? _); [done|].
  destruct (fo_multi f H m Hm) as [Hb _]. pose proof (deliver_ok f (m_buf m) (m_invalid m) (m_end m) Hb H) as [? ? ?].
  split; try done. cbn. intros m' [= <-]. cbn. split; [apply max_pos|lia].
Qed.

Lemma set_multi_ok f m : framer_ok f → len (m_buf m) <= MaxRecordBytes → 0 <= m_lines m →
  framer_ok (f <| f_multi := Some m |>).
Proof. intros [? ? ?] Hb Hl. split; try done. cbn. by intros m' [= <-]. Qed.

Lemma line_ok f data invalid : framer_ok f → len data <= MaxRecordBytes → framer_ok (line f data invalid).
Proof.
  intros H Hd. unfold line. destruct (f_multi f) as [m|] eqn:Hm; [|by apply deliver_ok].
  destruct (fo_multi f H m Hm) as [Hb Hl].
  destruct invalid; [destruct (_ <? _); [by apply set_multi_ok|apply deliver_ok; [apply max_pos|done]]|].
  destruct (m_start m data).
  { pose proof (flush_ok f H) as Hf. cbn zeta. destruct (f_multi (flush f)) as [m'|]; [|done]. by apply set_multi_ok. }
  destruct (_ && _); [|apply deliver_ok; [done|by apply flush_ok]]. cbn zeta.
  set (m1 := m <| m_lines := m_lines m + 1 |> <| m_end := f_read f |>).
  apply set_multi_ok; [done| |].
  - destruct ((m_maxLines m1 <? m_lines m1) || (MaxRecordBytes <? len (m_buf m1) + 1 + len data)) eqn:E; [done|].
    destruct (negb (m_invalid m1)); [|done]. cbn [m_buf upd upd_m_buf]. bools. rewrite !len_app.
    change (len newline) with 1. change (m_buf m1) with (m_buf m) in *. lia.
  - destruct (_ || _); destruct (negb _); cbn; lia.
Qed.

Lemma append_part_ok f p : framer_ok f → framer_ok (append_part f p).
Proof.
  intros [? ? ?]. unfold append_part. destruct (f_oversize f); [done|].
  destruct (Z.ltb_spec MaxRecordBytes (len (f_buf f) + len p)); split; try done; cbn -[len MaxRecordBytes].
  rewrite len_app. lia.
Qed.

Lemma end_line_ok f : framer_ok f → framer_ok (end_line f).
Proof.
  intros H. destruct (line_ok f (f_buf f) (f_oversize f) H (fo_buf f H)). by split.
Qed.

Lemma byte_step_ok f c : framer_ok f → framer_ok (byte_step f c).
Proof.
  intros H. unfold byte_step. destruct (is_delim _ _).
  - apply end_line_ok. by destruct H.
  - destruct (append_part_ok f (one c) H). by split.
Qed.

Lemma feed_ok f p : framer_ok f → framer_ok (feed f p).
Proof. revert f. induction p as [|c p IH]; intros f H; cbn; [done|]. by apply IH, byte_step_ok. Qed.

(** ** The loop of [Write] reads byte by byte *)

Lemma append_part_app f a b : append_part f (a ++ b) = append_part (append_part f a) b.
Proof.
  unfold append_part. destruct (f_oversize f) eqn:Ho; [by rewrite Ho|].
  pose proof (len_nonneg a). pose proof (len_nonneg b). rewrite len_app.
  destruct (Z.ltb_spec MaxRecordBytes (len (f_buf f) + len a)).
  - rewrite (proj2 (Z.ltb_lt _ _)) by lia. done.
  - cbn [f_oversize upd upd_f_buf f_buf]. rewrite Ho, len_app.
    replace (len (f_buf f) + len a + len b) with (len (f_buf f) + (len a + len b)) by lia.
    destruct (_ <? _); [done|]. cbn. by rewrite str_app_assoc.
Qed.

Lemma append_part_empty f : framer_ok f → append_part f "" = f.
Proof.
  intros [Hb _ _]. unfold append_part. destruct (f_oversize f); [done|]. rewrite len_empty.
  destruct (Z.ltb_spec MaxRecordBytes (len (f_buf f) + 0)); [lia|]. destruct f. cbn. by rewrite str_app_nil_r.
Qed.

Lemma append_part_read f p n : append_part (f <| f_read := n |>) p = (append_part f p) <| f_read := n |>.
Proof. unfold append_part. cbn. destruct (f_oversize f); [done|]. by destruct (_ <? _). Qed.

Lemma append_part_fields f p :
  f_carriageReturn (append_part f p) = f_carriageReturn f ∧ f_read (append_part f p) = f_read f.
Proof. unfold append_part. destruct (f_oversize f); [done|]. by destruct (_ <? _). Qed.

Lemma deliver_cr f d i n : f_carriageReturn (deliver f d i n) = f_carriageReturn f.
Proof. done. Qed.
Lemma flush_cr f : f_carriageReturn (flush f) = f_carriageReturn f.
Proof. unfold flush. destruct (f_multi f); [|done]. by destruct (_ =? _). Qed.
Lemma line_cr f d i : f_carriageReturn (line f d i) = f_carriageReturn f.
Proof.
  unfold line. pose proof (flush_cr f). destruct (f_multi f) as [m|]; [|done].
  destruct i; [by destruct (_ <? _)|]. destruct (m_start m d); [cbn zeta; by destruct (f_multi (flush f))|].
  by destruct (_ && _).
Qed.

Lemma feed_nodelim f p :
  framer_ok f → first_delim (f_carriageReturn f) p = None → feed f p = (append_part f p) <| f_read := f_read f + len p |>.
Proof.
  revert f. induction p as [|c p IH]; intros f Hf Hd; cbn [feed].
  { rewrite append_part_empty by done. rewrite len_empty, Z.add_0_r. by destruct f. }
  cbn in Hd. unfold byte_step, is_delim. destruct (_ || _) eqn:Hc; [done|].
  destruct (first_delim (f_carriageReturn f) p) eqn:Hp; [done|].
  destruct (append_part_fields f (one c)) as [Hcr Hrd].
  rewrite IH; [|destruct (append_part_ok f (one c) Hf); by split|cbn; by rewrite Hcr].
  rewrite append_part_read, <- append_part_app. cbn [f_read upd upd_f_read].
  change (one c ++ p) with (String c p). replace (len (String c p)) with (1 + len p) by apply (eq_sym (len_app (one c) p)).
  rewrite Z.add_assoc. by destruct (append_part f (String c p)).
Qed.

Lemma first_delim_split cr p i :
  first_delim cr p = Some i →
  ∃ c, p = str_take i p ++ String c (str_drop (i + 1) p) ∧ is_delim cr c = true ∧
       first_delim cr (str_take i p) = None ∧ len (str_take i p) = Z.of_nat i ∧
       (String.length (str_drop (i + 1) p) < String.length p)%nat.
Proof.
  revert i. induction p as [|c p IH]; intros i H; cbn in H; [done|].
  destruct (_ || _) eqn:Hc.
  - injection H as <-. exists c. split_and!; try done. cbn. lia.
  - destruct (first_delim cr p) as [j|] eqn:Hp; [|done]. injection H as <-.
    destruct (IH j eq_refl) as (c' & Hs & Hd & Hn & Hl & Hlen). exists c'. cbn [str_take str_drop Nat.add append].
    split_and!; [by rewrite <- Hs|done| | |cbn; lia].
    + cbn. rewrite Hc, Hn. done.
    + change (String c (str_take j p)) with (one c ++ str_take j p). rewrite len_app, Hl.
      change (len (one c)) with 1. lia.
Qed.

Lemma write_loop_feed fuel f p :
  (String.length p <= fuel)%nat → framer_ok f → write_loop fuel f p = feed f p.
Proof.
  revert f p. induction fuel as [|fuel IH]; intros f p Hl Hf; [by destruct p; [|cbn in Hl; lia]|].
  destruct p as [|c0 p0]; [done|]. remember (String c0 p0) as p eqn:Ep.
  cbn [write_loop]. replace (match p with "" => f | _ => _ end) with
    (match first_delim (f_carriageReturn f) p with
     | None => (append_part f p) <| f_read := f_read f + len p |>
     | Some i => let f := append_part f (str_take i p) in
              let f := f <| f_read := f_read f + Z.of_nat (i + 1) |> in
              let f := line f (f_buf f) (f_oversize f) in
              let f := f <| f_buf := "" |> <| f_oversize := false |> in
              write_loop fuel f (str_drop (i + 1) p) end) by (by rewrite Ep).
  destruct (first_delim (f_carriageReturn f) p) as [i|] eqn:Hd; [|by rewrite feed_nodelim].
  destruct (first_delim_split _ _ _ Hd) as (c & Hs & Hc & Hn & Hlen & Hlt). cbn zeta.
  set (g := append_part f (str_take i p)).
  destruct (append_part_fields f (str_take i p)) as [Hcr Hrd]. fold g in Hcr, Hrd.
  assert (Hg : framer_ok g) by by apply append_part_ok.
  rewrite IH; [|lia|].
  - rewrite Hs at 2. rewrite feed_app, (feed_nodelim f (str_take i p)) by done. cbn [feed]. f_equal. fold g.
    unfold byte_step. cbn [f_carriageReturn upd upd_f_read f_read]. rewrite Hcr, Hc, Hlen, Hrd.
    unfold end_line. cbn [f_read upd upd_f_read f_buf f_oversize].
    replace (f_read f + Z.of_nat (i + 1)) with (f_read f + Z.of_nat i + 1) by lia. done.
  - apply (end_line_ok (g <| f_read := f_read g + Z.of_nat (i + 1) |>)). by destruct Hg.
Qed.

(** ** Write boundaries *)

Lemma flush_closed f : f_closed (flush f) = f_closed f.
Proof. unfold flush. destruct (f_multi f); [|done]. by destruct (_ =? _). Qed.
Lemma line_closed f d i : f_closed (line f d i) = f_closed f.
Proof.
  unfold line. pose proof (flush_closed f). destruct (f_multi f) as [m|]; [|done].
  destruct i; [by destruct (_ <? _)|]. destruct (m_start m d); [cbn zeta; by destruct (f_multi (flush f))|].
  by destruct (_ && _).
Qed.
Lemma feed_closed f p : f_closed (feed f p) = f_closed f.
Proof.
  revert f. induction p as [|c p IH]; intros f; cbn; [done|]. rewrite IH. unfold byte_step, end_line.
  destruct (is_delim _ _); cbn; [by rewrite line_closed|]. unfold append_part. destruct (f_oversize f); [done|]. by destruct (_ <? _).
Qed.

Lemma Write_feed f p : framer_ok f → f_closed f = false → Write f p = Ok (feed f p).
Proof. intros Hf Hc. unfold Write. by rewrite Hc, write_loop_feed. Qed.

(** Writing chunk by chunk. *)
Fixpoint write_all_chunks (f : Framer) (chunks : list string) : result Framer :=
  match chunks with
  | [] => Ok f
  | p :: chunks => f ← Write f p; write_all_chunks f chunks
  end.

Lemma chunks_feed f chunks :
  framer_ok f → f_closed f = false → write_all_chunks f chunks = Ok (feed f (str_app_list chunks)).
Proof.
  revert f. induction chunks as [|p chunks IH]; intros f Hf Hc; cbn [write_all_chunks str_app_list]; [done|].
  rewrite Write_feed by done. cbn [mbind result_bind]. rewrite feed_app.
  apply IH; [by apply feed_ok|by rewrite feed_closed].
Qed.

(** C29: Framing does not depend on how the output is cut into writes: writing
    any chunks one after another leaves the framer in exactly the state, with
    exactly the records emitted, of one write of their concatenation.  Every
    write of an open framer succeeds. *)
Theorem Write_boundaries f chunks :
  framer_ok f → f_closed f = false →
  write_all_chunks f chunks = Write f (str_app_list chunks) ∧ is_ok (Write f (str_app_list chunks)) = true.
Proof. intros Hf Hc. by rewrite Write_feed, chunks_feed. Qed.

(** ** Lines *)

(** A complete line as a record. *)
Definition record_of (text : string) : string * bool :=
  if MaxRecordBytes <? len text then ("", true) else (text, false).

(** The records of a text of which [r] was already read. *)
Fixpoint records_from (cr : bool) (r p : string) : list (string * bool) :=
  match p with
  | "" => if r ≟ "" then [] else [record_of r]
  | String c p => if is_delim cr c then record_of r :: records_from cr "" p else records_from cr (r ++ one c) p
  end.

(** The framer holds the text of the current line. *)
Definition holds (f : Framer) (r : string) : Prop :=
  f_multi f = None ∧ f_closed f = false ∧
  (f_buf f, f_oversize f) = record_of r.

Lemma holds_append f r c : holds f r → holds ((append_part f (one c)) <| f_read := f_read f + 1 |>) (r ++ one c).
Proof.
  intros (Hm & Hc & Hr). unfold holds, append_part, record_of in *. rewrite len_app. change (len (one c)) with 1 in *.
  destruct (Z.ltb_spec MaxRecordBytes (len r)); injection Hr as Hb Ho; rewrite Ho.
  - rewrite (proj2 (Z.ltb_lt _ _)) by lia. cbn. rewrite Hb, Ho. done.
  - rewrite Hb. destruct (_ <? _); cbn; [done|]. by rewrite ?Hb, ?Ho.
Qed.

Lemma holds_end f r : holds f r →
  holds (end_line (f <| f_read := f_read f + 1 |>)) "" ∧
  f_emitted (end_line (f <| f_read := f_read f + 1 |>)) = (f_emitted f ++ [record_of r])%list ∧
  f_carriageReturn (end_line (f <| f_read := f_read f + 1 |>)) = f_carriageReturn f.
Proof.
  intros (Hm & Hc & Hr). unfold end_line, line. cbn. rewrite Hm. cbn. split_and!; [by split_and!| |done].
  by rewrite <- Hr.
Qed.

Lemma Close_emitted f r : holds f r → f_emitted (Close f) = (f_emitted f ++ records_from (f_carriageReturn f) r "")%list.
Proof.
  intros (Hm & Hc & Hr). unfold Close. rewrite Hc. unfold flush. cbn [records_from].
  assert (He : (0 <? len (f_buf f)) || f_oversize f = negb (r ≟ "")).
  { unfold record_of in Hr. destruct (Z.ltb_spec MaxRecordBytes (len r)); injection Hr as -> ->.
    - rewrite orb_true_r. symmetry. apply negb_true_iff, bool_decide_eq_false. intros ->. pose proof max_pos. rewrite len_empty in *. lia.
    - rewrite orb_false_r. by destruct r. }
  rewrite He. destruct (r ≟ ""); cbn [negb].
  - rewrite Hm. cbn. by rewrite app_nil_r.
  - unfold line. rewrite Hm. cbn [f_multi deliver upd upd_f_complete upd_f_emitted]. rewrite Hm. cbn. by rewrite <- Hr.
Qed.

Lemma feed_records f r p :
  holds f r → f_emitted (Close (feed f p)) = (f_emitted f ++ records_from (f_carriageReturn f) r p)%list.
Proof.
  revert f r. induction p as [|c p IH]; intros f r H; cbn [feed]; [by apply Close_emitted|].
  unfold byte_step. cbn [records_from]. destruct (is_delim _ c).
  - destruct (holds_end f r H) as (H' & He & Hcr). rewrite (IH _ "" H'), He, Hcr. by rewrite <- app_assoc.
  - rewrite (IH _ _ (holds_append f r c H)). cbn. unfold append_part. destruct (f_oversize f); [done|]. by destruct (_ <? _).
Qed.

(** In line (and carriage-return) mode the framer emits exactly the lines of
    the stream: whatever the writes, after closing, the emitted records are the
    delimited lines in order, and the unterminated last one if it is not empty,
    a line over 64 KiB being one invalid record without text. *)
Lemma line_mode_records compile c f0 chunks f :
  fc_Mode c ≠ "multiline" → NewConfiguredFramer compile c = Ok f0 → write_all_chunks f0 chunks = Ok f →
  f_emitted (Close f) = records_from (fc_Mode c ≟ "carriage-return") "" (str_app_list chunks).
Proof.
  intros Hmode H0 Hw. unfold NewConfiguredFramer in H0. cbn zeta in H0.
  assert (Hline : (if fc_Mode c ≟ "" then "line" else fc_Mode c) ≠ "multiline") by (by destruct (fc_Mode c ≟ "")).
  rewrite (bool_decide_false _ Hline) in H0. cbn [negb] in H0. apply fail_if_bind in H0 as [_ [= <-]].
  match type of Hw with write_all_chunks ?g _ = _ => set (f0 := g) in * end.
  assert (Hok : framer_ok f0) by (split; cbn; [apply max_pos|done|constructor]).
  rewrite chunks_feed in Hw by done. injection Hw as <-. rewrite (feed_records f0 "") by done.
  cbn. f_equal. by destruct (fc_Mode c ≟ "") eqn:E; bools; [rewrite E|].
Qed.

(** ** Any use of a framer stays bounded *)

Inductive frame_op := FWrite (p : string) | FTimer (epoch : Z) | FClose | FDiscard.

Definition frame_step (f : Framer) (o : frame_op) : Framer :=
  match o with
  | FWrite p => match Write f p with Ok f' => f' | Err _ => f end
  | FTimer epoch => timer_fired f epoch
  | FClose => Close f
  | FDiscard => Discard f
  end.

Lemma frame_step_ok f o : framer_ok f → framer_ok (frame_step f o).
Proof.
  intros H. destruct o as [p|epoch| |]; cbn.
  - unfold Write. destruct (f_closed f); [done|]. rewrite write_loop_feed by done. by apply feed_ok.
  - unfold timer_fired. destruct (f_multi f); [|done]. destruct (_ && _); [by apply flush_ok|done].
  - unfold Close. destruct (f_closed f); [done|]. cbn zeta.
    set (g := if (0 <? len (f_buf f)) || f_oversize f then _ else f).
    assert (Hg : framer_ok g) by (subst g; destruct (_ || _); [apply line_ok; [done|apply H]|done]).
    apply flush_ok in Hg as [? ? ?]. by split.
  - unfold Discard. cbn zeta. cbn [f_multi upd upd_f_closed upd_f_buf]. destruct (f_multi f) as [m|] eqn:Hm.
    + apply set_multi_ok; [destruct H; by split|apply max_pos|]. cbn. by destruct (fo_multi f H m Hm).
    + destruct H. by split.
Qed.

Lemma NewConfiguredFramer_ok compile c f : NewConfiguredFramer compile c = Ok f → framer_ok f.
Proof.
  unfold NewConfiguredFramer. cbn zeta. destruct (negb _); intros H; res_inv.
  - split; cbn; [apply max_pos|done|constructor].
  - split; cbn; [apply max_pos| |constructor]. intros m [= <-]. cbn. split; [apply max_pos|lia].
Qed.

(** Whatever is written, timed out, closed or discarded, in any order, the
    line buffer, the multiline buffer and every emitted record stay within
    64 KiB. *)
Lemma framer_bounded compile c f0 ops :
  NewConfiguredFramer compile c = Ok f0 →
  let f := foldl frame_step f0 ops in
  len (f_buf f) <= 65536 ∧ (∀ m, f_multi f = Some m → len (m_buf m) <= 65536) ∧
  Forall (fun r => len (fst r) <= 65536) (f_emitted f).
Proof.
  intros H0. cbn zeta. assert (Hok : framer_ok (foldl frame_step f0 ops)).
  { apply NewConfiguredFramer_ok in H0. revert f0 H0. induction ops as [|o ops IH]; intros f0 H0; cbn; [done|].
    by apply IH, frame_step_ok. }
  destruct Hok as [Hb Hm He]. split_and!; [exact Hb| |exact He]. intros m Hf. by apply Hm.
Qed.
