(* ===== verification/LogClassify.v ===== *)
(** * Log classification: [internal/logs/classify.go]

    The parser's configuration ([NewParser], [severity]), then [Classify]. *)

From S2P Require Import Prelude GoText GoFloat GoJson GoRegexp LogWindow.

Record ParserConfig := {
  pc_Format : string; pc_LevelField : string; pc_Patterns : gmap string string; pc_LevelMap : gmap string string }.

Record pattern := { pt_level : Z; pt_re : string → bool }.
Record Parser := { pr_config : ParserConfig; pr_patterns : list pattern }.

Definition severity (s : string) : Z :=
  let l := ToLower (TrimSpace s) in
  if l ≟ "trace" then Trace
  else if l ≟ "debug" then Debug
  else if l ≟ "info" then Info
  else if (l ≟ "warn") || (l ≟ "warning") then Warning
  else if (l ≟ "error") || (l ≟ "err") then Error
  else if (l ≟ "fatal") || (l ≟ "critical") || (l ≟ "panic") then Fatal
  else Unclassified.

(** Severity names from the highest severity down. *)
Definition severity_names : list string :=
  ["fatal"; "critical"; "panic"; "error"; "err"; "warning"; "warn"; "info"; "debug"; "trace"].

Section Compiled.
Context (compile : string → option (string → bool)).

Fixpoint compile_patterns (names : list string) (patterns : gmap string string) : result (list pattern) :=
  match names with
  | [] => Ok []
  | name :: names =>
      match patterns !! name with
      | None => compile_patterns names patterns
      | Some expression =>
          fail_if ((len expression =? 0) || (1024 <? len expression)) "log pattern must contain 1–1024 bytes" ;;
          r ← match compile expression with Some r => Ok r | None => Err "invalid log pattern" end;
          rest ← compile_patterns names patterns;
          Ok ({| pt_level := severity name; pt_re := r |} :: rest)
      end
  end.

Definition NewParser (c : ParserConfig) : result Parser :=
  let c := {| pc_Format := if pc_Format c ≟ "" then "auto" else pc_Format c;
              pc_LevelField := if pc_LevelField c ≟ "" then "level" else pc_LevelField c;
              pc_Patterns := pc_Patterns c; pc_LevelMap := pc_LevelMap c |} in
  fail_if (negb (pc_Format c ≟ "auto") && negb (pc_Format c ≟ "text") && negb (pc_Format c ≟ "jsonl"))
    "log format must be auto, text, or jsonl" ;;
  fail_if ((256 <? len (pc_LevelField c)) || (16 <? Z.of_nat (size (pc_Patterns c))) || (32 <? Z.of_nat (size (pc_LevelMap c))))
    "log parser exceeds configuration limits" ;;
  fail_if (existsb (fun kv : string * string => (len (fst kv) =? 0) || (64 <? len (fst kv)) || (severity (snd kv) =? Unclassified))
             (map_to_list (pc_LevelMap c))) "levelMap requires bounded labels mapped to known severities" ;;
  fail_if (existsb (fun kv : string * string => severity (fst kv) =? Unclassified) (map_to_list (pc_Patterns c)))
    "unknown severity in log pattern" ;;
  ps ← compile_patterns severity_names (pc_Patterns c);
  fail_if (existsb (fun kv : string * string => negb (fst kv ≟ ToLower (fst kv))) (map_to_list (pc_Patterns c)))
    "log pattern severity keys must be lowercase" ;;
  Ok {| pr_config := c; pr_patterns := ps |}.
End Compiled.

(** * Classification of log records: [internal/logs/classify.go]

    [Classify] reads one framed record: it strips terminal escapes and space,
    takes the severity from the level field of a JSON object, from the
    configured patterns, from a textual header or from a logfmt level key, in
    this order.  The patterns of the configuration are compiled by package
    [regexp], of which [NewParser] keeps the predicate; the package's own
    expressions are written out here. *)

(** ** The expressions of the package *)

Definition escape_char : ascii := bz 27.
Definition bell_char : ascii := bz 7.

Definition ansi : re :=
  Cat (Cls (is_char escape_char))
    (Alt (cats [lit "["; Star (Cls (between 48 63)); Star (Cls (between 32 47)); Cls (between 64 126)])
         (cats [lit "]"; Star (Cls (none_of (either (is_char bell_char) (is_char escape_char))));
                Alt (Cls (is_char bell_char)) (cats [Cls (is_char escape_char); lit "\"])])).

Definition two_digits : re := Rep 2 (Cls digit_class).
Definition date_sep : re := Cls (any_of "-/").
Definition date_stamp : re :=
  cats [Opt (Cls (is_char "[")); Rep 4 (Cls digit_class); date_sep; two_digits; date_sep; two_digits;
        Cls (either (is_letter "T") (is_char " "));
        Plus (Cls (either digit_class (either (any_of ":.+-") (is_letter "Z"))));
        Opt (Cls (is_char "]"))].
Definition clock_stamp : re :=
  cats [two_digits; lit ":"; two_digits; lit ":"; two_digits; Opt (Cat (Cls (any_of ".,")) (Plus (Cls digit_class)))].
Definition timestampPrefix : re := Opt (Cat (Alt date_stamp clock_stamp) (Plus (Cls space_class))).

Definition warn_word : re := Cat (ilit "warn") (Opt (ilit "ing")).
Definition level_word : re :=
  Group (alts (ilit "trace") [ilit "debug"; ilit "info"; warn_word; ilit "error"; ilit "err"; ilit "fatal"; ilit "critical"; ilit "panic"]).

Definition header : re :=
  cats [timestampPrefix; Opt (Cls (is_char "[")); level_word; Opt (Cls (is_char "]"));
        alts (Cls space_class) [lit ":"; AtEnd]].

Definition quote_char : ascii := bz 34.
#[global] Arguments quote_char : simpl never.
Definition quoted_value : re :=
  cats [Cls (is_char quote_char);
        Star (Alt (Cat (Cls (is_char "\")) (Cls dot_class)) (Cls (none_of (either (is_char quote_char) (is_char "\")))));
        Cls (is_char quote_char)].
Definition single_value : re := cats [lit "'"; Star (Cls (none_of (is_char "'"))); lit "'"].
Definition bare_class : rune → bool := none_of (either space_class (either (is_char quote_char) (is_char "'"))).
Definition key_class : rune → bool := either word_class (any_of ".-").
Definition field : re :=
  cats [Plus (Cls key_class); lit "="; alts quoted_value [single_value; Plus (Cls bare_class)]; Plus (Cls space_class)].
Definition optional_quote : re := Opt (Alt (Cls (is_char quote_char)) (lit "'")).
Definition levelKey : re :=
  cats [timestampPrefix; Star field; ilit "level="; optional_quote; level_word; optional_quote; Alt (Cls space_class) AtEnd].

(** ** Classification *)

(** The level field of a decoded record: a path through nested objects. *)
Fixpoint level_field (path : list string) (v : value) : value :=
  match path with
  | [] => v
  | key :: path =>
      match v with
      | VObject l => level_field path (default VNil (obj_get key l))
      | _ => VNil
      end
  end.

Definition label_of (v : value) : string :=
  match v with VString s => s | VFloat f => Sprint f | _ => "" end.

Definition is_object (v : value) : bool := match v with VObject _ => true | _ => false end.

Definition classified (level : Z) : Classification := {| Level := level; Invalid := false; Blank := false |}.
Definition invalid_record : Classification := {| Level := Unclassified; Invalid := true; Blank := false |}.

(** The JSON branch; [None] falls through to the text rules. *)
Definition classify_json (c : ParserConfig) (line : string) : option Classification :=
  let jsonl := pc_Format c ≟ "jsonl" in
  match Unmarshal line with
  | Some v =>
      if negb (is_object v) && jsonl then Some invalid_record else
      let label := label_of (level_field (Split (pc_LevelField c) ".") v) in
      let label := default label (pc_LevelMap c !! label) in
      if negb (label ≟ "") && negb (severity label =? Unclassified) then Some (classified (severity label))
      else if jsonl then Some (classified Unclassified) else None
  | None => if jsonl then Some invalid_record else None
  end.

Definition captured_level (r : re) (line : list rune) : option Z :=
  match match_prefix r line with
  | Some (_, c) => Some (severity (text_of (default [] c)))
  | None => None
  end.

(** The text rules: configured patterns in order, the header, the level key. *)
Definition classify_text (patterns : list pattern) (line : string) : Classification :=
  match list_find (fun rule => pt_re rule line = true) patterns with
  | Some (_, rule) => classified (pt_level rule)
  | None =>
      match captured_level header (runes line) with
      | Some level => classified level
      | None => classified (default Unclassified (captured_level levelKey (runes line)))
      end
  end.

Definition clean_line (raw : string) : string := TrimSpace (text_of (ReplaceAllEmpty ansi (runes raw))).

Definition Classify (p : Parser) (raw : string) : Classification :=
  if negb (ValidString raw) then invalid_record else
  let line := clean_line raw in
  let format := pc_Format (pr_config p) in
  match line with
  | "" => {| Level := Unclassified; Invalid := false; Blank := true |}
  | String c _ =>
      let json := if (format ≟ "jsonl") || ((format ≟ "auto") && (c ≟ "{"%char)) then classify_json (pr_config p) line else None in
      match json with
      | Some result => result
      | None => classify_text (pr_patterns p) line
      end
  end.

(** ** The cases of the package's tests *)

Definition auto_config (format field : string) : ParserConfig :=
  {| pc_Format := format; pc_LevelField := field; pc_Patterns := ∅; pc_LevelMap := {[ "30" := "info" ]} |}.
Definition classify_with (c : ParserConfig) (line : string) : Z * bool * bool :=
  match NewParser (fun _ => None) c with
  | Ok p => let r := Classify p line in (Level r, Invalid r, Blank r)
  | Err _ => (-1, true, true)
  end.
Definition esc (s : string) : string := String escape_char s.

Example Classify_cases :
  map (fun l => fst (fst (classify_with (auto_config "" "") l)))
    ["[WARN] slow query"; "2026-10-11T12:00:00Z ERROR failed"; "2026/10/11 12:00:00 INFO started"; "12:00:00.123 WARNING: retrying";
     esc "[31mERROR broken" ++ esc "[0m" ++ one (bz 13); dq "time=now level=warn msg='slow'"; dq "{'level':'fatal','message':'bye'}";
     dq "{'message':'ordinary output'}"; "{non-json output}"; "0 errors found"; "ERRORS: zero"; dq "msg='example level=error text'";
     "this prose mentions level=error but is not a log header"; dq "message='example level=error text' level=info";
     dq "2026-10-11T12:00:00Z level=error msg='failed'"; "normal stderr output"; dq "{'level':30}"; "level=info level=error done"]
  = [Warning; Error; Info; Warning; Error; Warning; Fatal; 0; 0; 0; 0; 0; 0; Info; Error; 0; Info; Error].
Proof. vm_compute. reflexivity. Qed.

Example Classify_format_cases :
  classify_with (auto_config "" "") (one (bz 255)) = (0, true, false) ∧
  classify_with (auto_config "" "") (" " ++ one (bz 13) ++ one (bz 10)) = (0, false, true) ∧
  classify_with (auto_config "jsonl" "log.severity") (dq "{'log':{'severity':'warn'}}") = (Warning, false, false) ∧
  classify_with (auto_config "jsonl" "") "not JSON" = (0, true, false) ∧
  classify_with (auto_config "jsonl" "") "[]" = (0, true, false).
Proof. vm_compute. repeat split. Qed.
