(* ===== verification/LogClassifyFacts.v ===== *)
(** * The severity of a text record

    The header and level-key expressions backtrack; both are shown equal to
    scanners that read the line once, from which it follows that a quoted value
    neither supplies nor hides a severity, and that the highest configured rule
    wins. *)
From S2P Require Import Prelude GoText GoFloat GoJson GoRegexp LogWindow LogClassify.
#[local] Open Scope list_scope.

(** Decides a question about one rune by looking at all single bytes. *)
Ltac rune_cases :=
  let x := fresh "x" in
  intros x; try (destruct x as [|[[] [] [] [] [] [] [] []] [|]]; vm_compute; intuition congruence).

(** ** Time stamps *)

Fixpoint steps (f : rune → bool) (n : nat) (s : list rune) : option (list rune) :=
  match n with O => Some s | S n => step1 f s ≫= steps f n end.

Definition sep_class : rune → bool := any_of "-/".
Definition date_time_class : rune → bool := either (is_letter "T") (is_char " ").
Definition stamp_class : rune → bool := either digit_class (either (any_of ":.+-") (is_letter "Z")).

Definition date_step (s : list rune) : option (list rune) :=
  s ← Some (skip1 (is_char "[") s); s ← steps digit_class 4 s; s ← step1 sep_class s; s ← steps digit_class 2 s;
  s ← step1 sep_class s; s ← steps digit_class 2 s; s ← step1 date_time_class s; s ← step_plus stamp_class s;
  Some (skip1 (is_char "]") s).

Definition fraction_step (s : list rune) : option (list rune) := s ← step1 (any_of ".,") s; step_plus digit_class s.
Definition clock_step (s : list rune) : option (list rune) :=
  s ← steps digit_class 2 s; s ← step1 (is_char ":") s; s ← steps digit_class 2 s; s ← step1 (is_char ":") s;
  s ← steps digit_class 2 s; Some (default s (fraction_step s)).

Definition stamp_step (s : list rune) : option (list rune) :=
  match date_step s with Some s' => Some s' | None => clock_step s end ≫= step_plus space_class.
Definition skip_stamp (s : list rune) : list rune := default s (stamp_step s).

Lemma step1_disjoint (f g : rune → bool) s : (∀ x, f x = true → g x = false) → starts f s = true → step1 g s = None.
Proof. intros H. destruct s as [|x s]; cbn; [done|]. intros Hx. by rewrite H. Qed.

Lemma det_steps f n : det nowhere (Rep n (Cls f)) (steps f n).
Proof.
  induction n as [|n IH]; [apply det_eps|]. by apply (det_cat nowhere); [apply det_cls|apply IH|].
Qed.

Lemma det_cat_eps Q a step : det Q a step → det Q (Cat a Eps) step.
Proof. intros H R s c k Hk. cbn. by apply H. Qed.

Lemma det_char c : det nowhere (lit (one c)) (step1 (is_char c)).
Proof. apply det_cat_eps, det_cls. Qed.

Lemma det_maybe Q a step :
  det Q a step → det (fun s => Q s || if step s then true else false) (Opt a) (fun s => Some (default s (step s))).
Proof.
  intros H R s c k Hk. cbn. rewrite H by (intros t d Ht; apply Hk; by rewrite Ht).
  destruct (step s) as [s'|] eqn:E; cbn; [|done]. destruct (k s' c); [done|]. apply Hk. by rewrite E, orb_true_r.
Qed.

(** What no alternative can start with, the scanner refuses. *)
Lemma steps_disjoint (f g : rune → bool) n s : (∀ x, f x = true → g x = false) → starts f s = true → steps g (S n) s = None.
Proof. intros H Hs. cbn. by rewrite (step1_disjoint f). Qed.
Lemma step_plus_disjoint (f g : rune → bool) s : (∀ x, f x = true → g x = false) → starts f s = true → step_plus g s = None.
Proof. intros H Hs. unfold step_plus. by rewrite (step1_disjoint f). Qed.

Lemma starts_impl (f g : rune → bool) s : (∀ x, f x = true → g x = true) → starts f s = true → starts g s = true.
Proof. intros H. destruct s; cbn; [done|]. apply H. Qed.

Lemma skip1_other (f g : rune → bool) s : (∀ x, f x = true → g x = false) → starts f s = true → skip1 g s = s.
Proof. intros H. destruct s as [|x s]; cbn; [done|]. intros Hx. by rewrite H. Qed.

Definition after_date (s : list rune) : bool := starts stamp_class s || starts (is_char "]") s.

Lemma det_date : det after_date date_stamp date_step.
Proof.
  unfold date_stamp, date_step, cats, foldr.
  eapply (det_cat (starts (is_char "["))); [apply det_opt| |].
  2:{ intros s s' Hs. unfold mbind, option_bind. rewrite (steps_disjoint (is_char "[")); [done| |done]. rune_cases. }
  do 6 (eapply (det_cat nowhere); [first [apply det_steps|apply det_cls]| |done]).
  eapply (det_cat (starts stamp_class)); [apply det_plus| |].
  - apply det_cat_eps. eapply det_weaken; [|apply det_opt]. intros s Hs. unfold after_date. by rewrite Hs, orb_true_r.
  - intros s s' Hs [= <-]. rewrite (skip1_other stamp_class); [by unfold after_date; rewrite Hs| |done]. rune_cases.
Qed.

Definition after_clock (s : list rune) : bool := starts digit_class s || starts (any_of ".,") s.

Lemma det_clock : det after_clock clock_stamp clock_step.
Proof.
  unfold clock_stamp, clock_step, cats, foldr.
  do 5 (eapply (det_cat nowhere); [first [apply det_steps|apply det_char]| |done]).
  apply det_cat_eps. eapply det_weaken; [|apply det_maybe; eapply (det_cat nowhere); [apply det_cls|apply det_plus|done]].
  intros [|x s]; cbn; [done|]. unfold after_clock. cbn.
  by destruct (digit_class x), (any_of ".," x).
Qed.

Lemma digit_not_open x : digit_class x = true → is_char "[" x = false.
Proof. revert x. rune_cases. Qed.
Lemma digit_not_colon x : digit_class x = true → is_char ":" x = false.
Proof. revert x. rune_cases. Qed.

Lemma date_not_clock s : is_Some (date_step s) → clock_step s = None.
Proof.
  intros [s' H]. unfold date_step, clock_step in *. destruct s as [|x s]; [done|]. cbn in H |- *.
  destruct (digit_class x) eqn:Ex; [|done]. cbn.
  rewrite (digit_not_open x Ex) in H. cbn in H. rewrite Ex in H. cbn in H.
  destruct s as [|y s]; [done|]. cbn in H |- *. destruct (digit_class y); [|done]. cbn in H |- *.
  destruct s as [|z s]; [done|]. cbn in H |- *. destruct (digit_class z) eqn:Ez; [|done].
  by rewrite digit_not_colon.
Qed.

Lemma stamp_rest_not_space x :
  (starts stamp_class [x] || starts (is_char "]") [x]) || (starts digit_class [x] || starts (any_of ".,") [x]) = true → space_class x = false.
Proof. revert x. rune_cases. Qed.

Lemma det_stamp : det (starts space_class) (Cat (Alt date_stamp clock_stamp) (Plus (Cls space_class))) stamp_step.
Proof.
  eapply det_cat; [apply det_alt; [apply det_date|apply det_clock|apply date_not_clock]|apply det_plus|].
  intros [|x s] s' Hs; cbn in *; [done|]. unfold step_plus; cbn.
  by rewrite (stamp_rest_not_space x Hs).
Qed.

(** An optional time stamp is taken whenever it is there, for an expression that
    starts neither with a space nor with a time stamp. *)
Lemma mt_timestamp {R : Type} s c (k : list rune → capture → option R) :
  (∀ t d, starts space_class t = true → k t d = None) → (∀ d, is_Some (stamp_step s) → k s d = None) →
  mt timestampPrefix s c k = k (skip_stamp s) c.
Proof.
  intros Hsp Hst. unfold timestampPrefix, Opt, skip_stamp. rewrite mt_alt, det_stamp by done.
  destruct (stamp_step s) as [s'|] eqn:E; cbn; [|done]. destruct (k s' c); [done|]. apply Hst. eauto.
Qed.

(** ** Severity words *)

Definition letter_class : rune → bool := either (between 65 90) (between 97 122).
Fixpoint lowered (l : list rune) : string :=
  match l with
  | String c "" :: l => String (fold_case c) (lowered l)
  | _ => ""
  end.
Definition level_words : list string := ["trace"; "debug"; "info"; "warning"; "warn"; "error"; "err"; "fatal"; "critical"; "panic"].
Definition known (w : list rune) : bool := existsb (fun k => lowered w ≟ k) level_words.

Fixpoint strip_fold (w : string) (s : list rune) : option (list rune) :=
  match w with "" => Some s | String c w => s ← step1 (is_letter c) s; strip_fold w s end.

Lemma det_ilit w : det nowhere (ilit w) (strip_fold w).
Proof. induction w as [|c w IH]; [apply det_eps|]. by apply (det_cat nowhere); [apply det_cls|apply IH|]. Qed.

Definition lower_letter (c : ascii) : bool := in_range 97 122 c.

Lemma lower_letter_fold c : lower_letter c = true → fold_case c = c.
Proof. destruct c as [[] [] [] [] [] [] [] []]; vm_compute; done. Qed.

Lemma letter_rune x : letter_class x = true → ∃ d, x = String d "" ∧ ∀ c, lower_letter c = true → is_letter c x = (fold_case d ≟ c).
Proof.
  destruct x as [|d [|]]; try done. intros _. exists d. split; [done|]. intros c Hc. unfold is_letter, byte_class. by rewrite (lower_letter_fold c Hc).
Qed.

Lemma is_letter_letter c x : lower_letter c = true → is_letter c x = true → letter_class x = true.
Proof.
  intros Hc. destruct x as [|d [|]]; try done. unfold is_letter, byte_class. rewrite (lower_letter_fold c Hc). intros Hd.
  apply bool_decide_eq_true in Hd. subst c. revert Hc. destruct d as [[] [] [] [] [] [] [] []]; vm_compute; done.
Qed.

(** A word followed by no letter is the whole run of letters. *)
Lemma strip_fold_word w s :
  str_forallb lower_letter w = true →
  match strip_fold w s with Some r => if starts letter_class r then None else Some r | None => None end =
  if lowered (taken letter_class s) ≟ w then Some (skip letter_class s) else None.
Proof.
  revert s. induction w as [|c w IH]; intros s Hw; cbn [strip_fold].
  - destruct s as [|x s]; cbn; [done|]. destruct (letter_class x) eqn:E; cbn; [|done].
    by destruct (letter_rune x E) as (d & -> & _).
  - cbn in Hw. apply andb_true_iff in Hw as [Hc Hw]. destruct s as [|x s]; cbn; [done|].
    destruct (letter_class x) eqn:E; cbn.
    + destruct (letter_rune x E) as (d & -> & Hd). rewrite Hd by done. cbn. case_bool_decide as E1; cbn.
      * rewrite IH by done. subst. case_bool_decide as E2; case_bool_decide as E3; congruence.
      * case_bool_decide; [congruence|done].
    + destruct (is_letter c x) eqn:E1; [|done]. apply is_letter_letter in E1; congruence.
Qed.

Section Words.
Context {R : Type} (k : list rune → capture → option R).
Hypothesis Hk : ∀ t d, starts letter_class t = true → k t d = None.

Lemma mt_word w s c :
  str_forallb lower_letter w = true →
  mt (ilit w) s c k = if lowered (taken letter_class s) ≟ w then k (skip letter_class s) c else None.
Proof.
  intros Hw. rewrite det_ilit by done. pose proof (strip_fold_word w s Hw) as E.
  destruct (strip_fold w s) as [r|].
  - destruct (starts letter_class r) eqn:Er.
    + rewrite (Hk r c Er). by case_bool_decide.
    + case_bool_decide; [by simplify_eq|done].
  - by case_bool_decide.
Qed.

(** [WARN(?:ING)?] is either of two words. *)
Lemma mt_warn s c :
  mt warn_word s c k = match mt (ilit "warning") s c k with Some x => Some x | None => mt (ilit "warn") s c k end.
Proof.
  unfold warn_word, Opt. rewrite mt_cat, !det_ilit by done.
  assert (strip_fold "warning" s = strip_fold "warn" s ≫= strip_fold "ing") as ->.
  { cbn. repeat (destruct (step1 _ _) as [?s|]; cbn; [|done]). done. }
  destruct (strip_fold "warn" s) as [r|]; cbn [mbind option_bind]; [|done]. by rewrite mt_alt, mt_eps, det_ilit.
Qed.
End Words.

(** The captured word is the run of letters. *)
Lemma take_taken f s : take (length s - length (skip f s)) s = taken f s.
Proof.
  pose proof (f_equal length (taken_skip f s)) as E. rewrite length_app in E.
  replace (length s - length (skip f s))%nat with (length (taken f s)) by lia.
  rewrite <- (taken_skip f s) at 2. apply take_app_length.
Qed.

Lemma mt_level_word {R : Type} s c (k : list rune → capture → option R) :
  (∀ t d, starts letter_class t = true → k t d = None) →
  mt level_word s c k = if known (taken letter_class s) then k (skip letter_class s) (Some (taken letter_class s)) else None.
Proof.
  intros Hk. unfold level_word. rewrite mt_group. cbn [alts]. rewrite !mt_alt.
  rewrite mt_warn by (intros; by apply Hk). rewrite !mt_word by (done || (intros; by apply Hk)).
  rewrite take_taken. unfold known, level_words, existsb. 
  set (x := k _ _). set (l := lowered _).
  destruct x; [by repeat (case_bool_decide; [done|])|].
  repeat match goal with |- context [if ?b then None else None] => replace (if b then None else None) with (@None R) by (by destruct b) end.
  done.
Qed.

(** ** The header *)

Definition open_class := is_char "[".
Definition close_class := is_char "]".
Definition ends_header (s : list rune) : bool := match s with [] => true | x :: _ => space_class x || is_char ":" x end.

(** The severity word at the start of a line without time stamp. *)
Definition plain_header (s : list rune) : option (list rune) :=
  let s := skip1 open_class s in
  if known (taken letter_class s) && ends_header (skip1 close_class (skip letter_class s)) then Some (taken letter_class s) else None.
Definition header_word (line : list rune) : option (list rune) := plain_header (skip_stamp line).

Definition captured (r : re) (line : list rune) : option (list rune) := default [] ∘ snd <$> match_prefix r line.

Lemma mt_ends {R : Type} s c (k : list rune → capture → option R) :
  (∀ t d, is_Some (k t d)) →
  mt (alts (Cls space_class) [lit ":"; AtEnd]) s c k = if ends_header s then k (drop 1 s) c else None.
Proof.
  intros Hk. destruct s as [|x s]; cbn; [done|]. unfold drop. destruct (Hk s c) as [r E].
  destruct (space_class x), (is_char ":" x); cbn; rewrite ?E; done.
Qed.

Lemma close_not_end x : close_class x = true → space_class x || is_char ":" x = false.
Proof. revert x. rune_cases. Qed.
Lemma letter_not_end x : letter_class x = true → close_class x = false ∧ space_class x || is_char ":" x = false.
Proof. revert x. rune_cases. Qed.
Lemma open_not_letter x : open_class x = true → letter_class x = false.
Proof. revert x. rune_cases. Qed.
Lemma space_not_header x : space_class x = true → open_class x = false ∧ letter_class x = false.
Proof. revert x. rune_cases. Qed.
Lemma digit_not_header x : digit_class x = true → open_class x = false ∧ letter_class x = false.
Proof. revert x. rune_cases. Qed.

Section Found.
Context {R : Type} (k : list rune → capture → option R).
Hypothesis Hk : ∀ t d, is_Some (k t d).

Lemma mt_header_end s c :
  mt (cats [Opt (Cls (is_char "]")); alts (Cls space_class) [lit ":"; AtEnd]]) s c k =
  if ends_header (skip1 close_class s) then k (drop 1 (skip1 close_class s)) c else None.
Proof.
  unfold cats, foldr. rewrite mt_cat, det_opt.
  - rewrite mt_cat. by apply mt_ends.
  - intros [|x t] d Ht; [done|]. rewrite mt_cat, mt_ends by done. cbn in Ht. unfold ends_header. by rewrite close_not_end.
Qed.

Lemma mt_plain_header s c :
  mt (cats [Opt (Cls (is_char "[")); level_word; Opt (Cls (is_char "]")); alts (Cls space_class) [lit ":"; AtEnd]]) s c k =
  plain_header s ≫= fun w => k (drop 1 (skip1 close_class (skip letter_class (skip1 open_class s)))) (Some w).
Proof.
  assert (∀ t d, mt (cats [level_word; Opt (Cls (is_char "]")); alts (Cls space_class) [lit ":"; AtEnd]]) t d k =
    if known (taken letter_class t) && ends_header (skip1 close_class (skip letter_class t))
    then k (drop 1 (skip1 close_class (skip letter_class t))) (Some (taken letter_class t)) else None) as Hw.
  { intros t d. change (cats (level_word :: ?l)) with (Cat level_word (cats l)). rewrite mt_cat, mt_level_word.
    - destruct (known _); [|done]. apply mt_header_end.
    - intros [|x u] e Hx; [done|]. rewrite mt_header_end. cbn in Hx. destruct (letter_not_end x Hx) as [Hc He].
      unfold skip1. rewrite Hc. unfold ends_header. by rewrite He. }
  change (cats (?a :: ?l)) with (Cat a (cats l)). rewrite mt_cat, det_opt.
  - rewrite Hw. unfold plain_header. by destruct (_ && _).
  - intros [|x t] d Hx; [done|]. rewrite Hw. cbn in Hx |- *. by rewrite open_not_letter.
Qed.
End Found.

(** Neither a space nor a time stamp starts a plain header. *)
Lemma plain_header_space t : starts space_class t = true → plain_header t = None.
Proof.
  destruct t as [|x t]; [done|]. intros Hx. cbn in Hx. destruct (space_not_header x Hx) as [Ho Hl].
  unfold plain_header. cbn. rewrite Ho. cbn. by rewrite Hl.
Qed.

Lemma stamp_starts s : is_Some (stamp_step s) → starts digit_class (skip1 open_class s) = true.
Proof.
  unfold stamp_step, date_step, clock_step. intros [s' H].
  destruct s as [|x s]; [done|]. cbn in H |- *. destruct (open_class x) eqn:Eo; unfold open_class in Eo; rewrite ?Eo in H; cbn in H |- *.
  - destruct s as [|y s]; cbn in H |- *; [by destruct (digit_class x)|]. destruct (digit_class y); [done|].
    replace (digit_class x) with false in H; [done|]. destruct (digit_class x) eqn:E; [|done]. by rewrite (digit_not_open x E) in Eo.
  - by destruct (digit_class x).
Qed.

Lemma plain_header_stamp s : is_Some (stamp_step s) → plain_header s = None.
Proof.
  intros H%stamp_starts. unfold plain_header. destruct (skip1 open_class s) as [|x t]; [done|]. cbn in H |- *.
  destruct (digit_not_header x H) as [_ Hl]. by rewrite Hl.
Qed.

Lemma header_captured line : captured header line = header_word line.
Proof.
  unfold captured, match_prefix, header. change (cats (?a :: ?l)) with (Cat a (cats l)). rewrite mt_cat, mt_timestamp.
  - rewrite mt_plain_header by eauto. unfold header_word. by destruct (plain_header _).
  - intros t d Ht. rewrite mt_plain_header by eauto. by rewrite plain_header_space.
  - intros d Hs. rewrite mt_plain_header by eauto. by rewrite plain_header_stamp.
Qed.

(** ** Logfmt fields *)

Definition quote_class : rune → bool := either (is_char quote_char) (is_char "'").
Definition inner_class : rune → bool := none_of (either (is_char quote_char) (is_char "\")).

(** One rune of a quoted value, or a backslash and the rune it escapes. *)
Definition inner_step (s : list rune) : option (list rune) :=
  match s' ← step1 (is_char "\") s; step1 dot_class s' with Some s' => Some s' | None => step1 inner_class s end.
Definition quoted_step (s : list rune) : option (list rune) :=
  s ← step1 (is_char quote_char) s; s ← Some (iterate inner_step (length s) s); step1 (is_char quote_char) s.
Definition single_step (s : list rune) : option (list rune) :=
  s ← step1 (is_char "'") s; s ← Some (skip (none_of (is_char "'")) s); step1 (is_char "'") s.
Definition value_step (s : list rune) : option (list rune) :=
  match quoted_step s with
  | Some s' => Some s'
  | None => match single_step s with Some s' => Some s' | None => step_plus bare_class s end
  end.
Definition field_step (s : list rune) : option (list rune) :=
  s ← step_plus key_class s; s ← step1 (is_char "=") s; s ← value_step s; step_plus space_class s.

Lemma backslash_not_inner x : is_char "\" x = true → inner_class x = false.
Proof. revert x. rune_cases. Qed.
Lemma quote_not_inner x : is_char quote_char x = true → inner_class x = false ∧ is_char "\" x = false.
Proof. revert x. rune_cases. Qed.
Lemma inner_not_quote x : is_char "\" x = true ∨ inner_class x = true → is_char quote_char x = false.
Proof. revert x. rune_cases. Qed.
Lemma value_starts x :
  (is_char quote_char x = true → is_char "'" x = false ∧ bare_class x = false) ∧ (is_char "'" x = true → bare_class x = false).
Proof. revert x. rune_cases. Qed.
Lemma key_not_equals x : key_class x = true → is_char "=" x = false.
Proof. revert x. rune_cases. Qed.
Lemma space_not_key x : space_class x = true → key_class x = false.
Proof. revert x. rune_cases. Qed.

Lemma inner_step_shrinks : shrinks inner_step.
Proof.
  intros s s'. unfold inner_step. destruct (step1 _ s) as [t|] eqn:E; cbn; [|apply step1_shrinks].
  destruct (step1 dot_class t) eqn:E2; [|apply step1_shrinks].
  intros [= ->]. apply step1_shrinks in E, E2. lia.
Qed.

Lemma inner_step_starts s : is_Some (inner_step s) → starts (is_char quote_char) s = false.
Proof.
  unfold inner_step. destruct s as [|x s]; cbn; [intros [? [=]]|]. intros [s' H].
  destruct (is_char "\" x) eqn:E1; [apply inner_not_quote; auto|]. cbn in H.
  destruct (inner_class x) eqn:E2; [apply inner_not_quote; auto|done].
Qed.

Lemma det_inner : det nowhere (Alt (Cat (Cls (is_char "\")) (Cls dot_class)) (Cls inner_class)) inner_step.
Proof.
  eapply det_weaken; [|apply det_alt; [eapply (det_cat nowhere); [apply det_cls|apply det_cls|done]|apply det_cls|]]; [done|].
  intros [|x s]; cbn; [intros [? [=]]|]. intros [s' H]. destruct (is_char "\" x) eqn:E; [|done]. by rewrite backslash_not_inner.
Qed.

Lemma det_quoted : det nowhere quoted_value quoted_step.
Proof.
  unfold quoted_value, quoted_step, cats, foldr.
  eapply (det_cat nowhere); [apply det_cls| |done].
  eapply det_cat; [apply det_star; [apply det_inner|apply inner_step_shrinks]|apply det_cat_eps, det_cls|].
  intros s s' Hs Hq. cbv beta in Hs. destruct (inner_step s) eqn:E in Hs; [|done].
  pose proof (inner_step_starts s) as Hn. destruct s as [|x s]; [done|]. cbn in Hq, Hn. by rewrite Hn in Hq by eauto.
Qed.

Lemma det_single : det nowhere single_value single_step.
Proof.
  unfold single_value, single_step, cats, foldr.
  eapply (det_cat nowhere); [apply det_char| |done].
  eapply det_cat; [apply det_skip|apply det_cat_eps, det_char|].
  intros [|x s] s' Hs Hq; cbn in Hs, Hq; [done|]. unfold none_of in Hs. by destruct (is_char "'" x).
Qed.

Lemma quoted_step_starts s : is_Some (quoted_step s) → starts (is_char quote_char) s = true.
Proof. unfold quoted_step, starts. destruct s as [|x s]; intros [s' H]; [done|]. destruct (is_char quote_char x) eqn:E; [done|]. cbn in H. by rewrite E in H. Qed.
Lemma single_step_starts s : is_Some (single_step s) → starts (is_char "'") s = true.
Proof. unfold single_step, starts. destruct s as [|x s]; intros [s' H]; [done|]. destruct (is_char "'" x) eqn:E; [done|]. cbn in H. by rewrite E in H. Qed.

Lemma det_value : det (starts bare_class) (alts quoted_value [single_value; Plus (Cls bare_class)]) value_step.
Proof.
  cbn [alts]. eapply det_weaken; [|apply det_alt; [apply det_quoted|apply det_alt; [apply det_single|apply det_plus|]|]].
  - done.
  - intros s H%single_step_starts. destruct s as [|x s]; [done|]. cbn in H. unfold step_plus. cbn.
    by rewrite (proj2 (value_starts x)).
  - intros s H%quoted_step_starts. destruct s as [|x s]; [done|]. cbn in H. unfold single_step, step_plus. cbn.
    destruct (proj1 (value_starts x) H) as [-> ->]. done.
Qed.

Lemma space_not_bare x : bare_class x = true → space_class x = false.
Proof. revert x. rune_cases. Qed.

Lemma det_field : det (starts space_class) field field_step.
Proof.
  unfold field, field_step, cats, foldr.
  eapply det_cat; [apply det_plus| |].
  { eapply (det_cat nowhere); [apply det_char| |done].
    eapply det_cat; [apply det_value|apply det_cat_eps, det_plus|].
    intros [|x s] s' Hs; cbn in *; [done|]. unfold step_plus. cbn. by rewrite space_not_bare. }
  intros [|x s] s' Hs; cbn in *; [done|]. by rewrite key_not_equals.
Qed.

Lemma step_plus_shrinks f : shrinks (step_plus f).
Proof.
  intros s s'. unfold step_plus. destruct (step1 f s) as [t|] eqn:E; cbn; [|done]. intros [= <-].
  apply step1_shrinks in E. pose proof (skip_length f t). lia.
Qed.

Lemma iterate_length step n s : shrinks step → (length (iterate step n s) <= length s)%nat.
Proof.
  intros Hs. revert s. induction n as [|n IH]; intros s; cbn; [done|]. destruct (step s) eqn:E; [|done].
  apply Hs in E. specialize (IH l). lia.
Qed.

Lemma value_step_shrinks : shrinks value_step.
Proof.
  intros s s'. unfold value_step, quoted_step, single_step.
  destruct (step1 (is_char quote_char) s) as [t|] eqn:E; cbn.
  - destruct (step1 _ (iterate _ _ _)) as [u|] eqn:E2.
    + intros [= ->]. apply step1_shrinks in E, E2. pose proof (iterate_length inner_step (length t) t inner_step_shrinks). lia.
    + destruct (step1 (is_char "'") s) as [v|] eqn:E3; cbn; [|apply step_plus_shrinks].
      destruct (step1 _ (skip _ v)) eqn:E4; [|apply step_plus_shrinks]. intros [= ->].
      apply step1_shrinks in E3, E4. pose proof (skip_length (none_of (is_char "'")) v). lia.
  - destruct (step1 (is_char "'") s) as [v|] eqn:E3; cbn; [|apply step_plus_shrinks].
    destruct (step1 _ (skip _ v)) eqn:E4; [|apply step_plus_shrinks]. intros [= ->].
    apply step1_shrinks in E3, E4. pose proof (skip_length (none_of (is_char "'")) v). lia.
Qed.

Lemma field_step_shrinks : shrinks field_step.
Proof.
  intros s s' H. unfold field_step in H.
  destruct (step_plus key_class s) as [s1|] eqn:E1; [|done]. cbn in H.
  destruct (step1 (is_char "=") s1) as [s2|] eqn:E2; [|done]. cbn in H.
  destruct (value_step s2) as [s3|] eqn:E3; [|done]. cbn in H.
  apply step_plus_shrinks in E1, H. apply step1_shrinks in E2. apply value_step_shrinks in E3. lia.
Qed.

(** ** The level key *)

Definition ends_value (s : list rune) : bool := match s with [] => true | x :: _ => space_class x end.

(** The severity of a line that starts with its level key. *)
Definition level_here (s : list rune) : option (list rune) :=
  s ← strip_fold "level=" s;
  let s := skip1 quote_class s in
  if known (taken letter_class s) && ends_value (skip1 quote_class (skip letter_class s)) then Some (taken letter_class s) else None.

(** The last level key of the leading fields that has a known severity. *)
Fixpoint logfmt_scan (fuel : nat) (s : list rune) : option (list rune) :=
  match fuel with
  | O => level_here s
  | S fuel =>
      match s' ← field_step s; logfmt_scan fuel s' with
      | Some w => Some w
      | None => level_here s
      end
  end.
Definition logfmt_word (line : list rune) : option (list rune) := logfmt_scan (length (skip_stamp line)) (skip_stamp line).

Lemma quote_not_letter x : quote_class x = true → letter_class x = false ∧ space_class x = false.
Proof. revert x. rune_cases. Qed.
Lemma letter_not_quote x : letter_class x = true → quote_class x = false ∧ space_class x = false.
Proof. revert x. rune_cases. Qed.
Lemma quote_chars x :
  quote_class x = is_char quote_char x || is_char "'" x ∧ (is_char quote_char x = true → is_char "'" x = false).
Proof. revert x. rune_cases. Qed.

Lemma det_optional_quote : det (starts quote_class) optional_quote (fun s => Some (skip1 quote_class s)).
Proof.
  eapply det_weaken; [|eapply det_step; [|apply det_maybe, det_alt; [apply det_cls|apply det_char|]]].
  - intros [|x s]; cbn; [done|]. destruct (quote_chars x) as [-> _]. destruct (is_char quote_char x), (is_char "'" x); cbn; done.
  - intros [|x s]; cbn; [done|]. destruct (quote_chars x) as [-> _]. destruct (is_char quote_char x), (is_char "'" x); cbn; done.
  - intros [|x s]; cbn; [done|]. intros [s' H]. destruct (is_char quote_char x) eqn:E; [|done].
    by rewrite (proj2 (quote_chars x) E).
Qed.

Section Level.
Context {R : Type} (k : list rune → capture → option R).
Hypothesis Hk : ∀ t d, is_Some (k t d).

Lemma mt_value_end s c :
  mt (cats [optional_quote; Alt (Cls space_class) AtEnd]) s c k =
  if ends_value (skip1 quote_class s) then k (drop 1 (skip1 quote_class s)) c else None.
Proof.
  assert (∀ t d, mt (cats [Alt (Cls space_class) AtEnd]) t d k = if ends_value t then k (drop 1 t) d else None) as He.
  { intros [|x t] d; cbn; rewrite ?drop_0; [done|]. destruct (space_class x); [|done]. by destruct (Hk t d) as [r ->]. }
  change (cats (?a :: ?l)) with (Cat a (cats l)). rewrite mt_cat, det_optional_quote; [apply He|].
  intros [|x t] d Hx; [done|]. rewrite He. cbn in Hx. unfold ends_value. by destruct (quote_not_letter x Hx) as [_ ->].
Qed.

Lemma mt_level_here s c :
  mt (cats [ilit "level="; optional_quote; level_word; optional_quote; Alt (Cls space_class) AtEnd]) s c k =
  level_here s ≫= fun w => k (drop 1 (skip1 quote_class (skip letter_class (skip1 quote_class (default [] (strip_fold "level=" s)))))) (Some w).
Proof.
  assert (∀ t d, mt (cats [level_word; optional_quote; Alt (Cls space_class) AtEnd]) t d k =
    if known (taken letter_class t) && ends_value (skip1 quote_class (skip letter_class t))
    then k (drop 1 (skip1 quote_class (skip letter_class t))) (Some (taken letter_class t)) else None) as Hw.
  { intros t d. change (cats (level_word :: ?l)) with (Cat level_word (cats l)). rewrite mt_cat, mt_level_word.
    - destruct (known _); [|done]. apply mt_value_end.
    - intros [|x u] e Hx; [done|]. rewrite mt_value_end. cbn in Hx. destruct (letter_not_quote x Hx) as [Hc He].
      unfold skip1. rewrite Hc. unfold ends_value. by rewrite He. }
  change (cats (ilit "level=" :: optional_quote :: ?l)) with (Cat (ilit "level=") (Cat optional_quote (cats l))).
  rewrite mt_cat, det_ilit by done. unfold level_here.
  destruct (strip_fold "level=" s) as [s'|]; cbn [mbind option_bind default]; [|done].
  rewrite mt_cat, det_optional_quote.
  - rewrite Hw. by destruct (_ && _).
  - intros [|x t] d Hx; [done|]. rewrite Hw. cbn in Hx |- *. by destruct (quote_not_letter x Hx) as [-> _].
Qed.
End Level.

(** The repetition of fields, for a continuation that starts with no space. *)
Fixpoint fields_scan {R : Type} (k : list rune → option R) (fuel : nat) (s : list rune) : option R :=
  match fuel with
  | O => k s
  | S fuel => match s' ← field_step s; fields_scan k fuel s' with Some x => Some x | None => k s end
  end.

Lemma field_space t : starts space_class t = true → field_step t = None.
Proof. destruct t as [|x t]; [done|]. cbn. intros Hx. unfold field_step, step_plus. cbn. by rewrite space_not_key. Qed.

Lemma fields_scan_space {R : Type} (k : list rune → option R) n t : starts space_class t = true → k t = None → fields_scan k n t = None.
Proof. intros Ht Hk. destruct n; cbn; [done|]. by rewrite field_space. Qed.

Lemma star_fields {R : Type} (k : list rune → capture → option R) n s c :
  (∀ t d, starts space_class t = true → k t d = None) → star (mt field) n s c k = fields_scan (fun t => k t c) n s.
Proof.
  intros Hk. revert s c. induction n as [|n IH]; intros s c; cbn [star fields_scan]; [done|].
  rewrite det_field.
  - destruct (field_step s) as [s'|] eqn:E; cbn [mbind option_bind]; [|done].
    unfold shorter. rewrite bool_decide_true by (by apply field_step_shrinks). by rewrite IH.
  - intros t d Ht. destruct (shorter t s); [|done]. rewrite IH. apply fields_scan_space; auto.
Qed.

(** Neither a space nor a time stamp starts a level key or a field. *)
Lemma level_here_starts s : is_Some (level_here s) → starts letter_class s = true.
Proof.
  unfold level_here. destruct s as [|x s]; [intros [? [=]]|]. cbn. intros [w H]. destruct (is_letter "l" x) eqn:E; [|done].
  by apply (is_letter_letter "l").
Qed.

Lemma level_here_None s : starts letter_class s = false → level_here s = None.
Proof. intros H. destruct (level_here s) eqn:E; [|done]. rewrite level_here_starts in H; eauto. done. Qed.

(** No key with its equals sign starts here. *)
Definition blocked (s : list rune) : Prop := step1 (is_char "=") (skip key_class s) = None.
Definition no_equals (f : rune → bool) : Prop := ∀ x, f x = true → is_char "=" x = false.

Lemma blocked_cons x s : is_char "=" x = false → blocked s → blocked (x :: s).
Proof. unfold blocked. cbn. intros Hx Hs. destruct (key_class x); [done|]. cbn. by rewrite Hx. Qed.
Lemma blocked_step1 f s t : no_equals f → step1 f s = Some t → blocked t → blocked s.
Proof. intros Hf. destruct s as [|x s]; cbn; [done|]. destruct (f x) eqn:E; [|done]. intros [= ->]. apply blocked_cons. auto. Qed.
Lemma blocked_skip f s : no_equals f → blocked (skip f s) → blocked s.
Proof. intros Hf. induction s as [|x s IH]; cbn; [done|]. destruct (f x) eqn:E; [|done]. intros H. apply blocked_cons; auto. Qed.
Lemma blocked_skip1 f s : no_equals f → blocked (skip1 f s) → blocked s.
Proof. intros Hf. destruct s as [|x s]; cbn; [done|]. destruct (f x) eqn:E; [|done]. intros H. apply blocked_cons; auto. Qed.
Lemma blocked_plus f s t : no_equals f → step_plus f s = Some t → blocked t → blocked s.
Proof.
  intros Hf. unfold step_plus. destruct (step1 f s) as [u|] eqn:E; cbn; [|done]. intros [= <-] H.
  eapply blocked_step1, blocked_skip; eauto.
Qed.
Lemma blocked_steps f n s t : no_equals f → steps f n s = Some t → blocked t → blocked s.
Proof.
  intros Hf. revert s. induction n as [|n IH]; intros s; cbn; [by intros [= ->]|].
  destruct (step1 f s) as [u|] eqn:E; cbn; [|done]. intros H Ht. eapply blocked_step1; eauto.
Qed.
Lemma blocked_space s t : step_plus space_class s = Some t → blocked s.
Proof.
  unfold step_plus. destruct s as [|x s]; cbn; [done|]. destruct (space_class x) eqn:E; [|done]. intros _.
  unfold blocked. cbn. rewrite space_not_key by done. cbn. replace (is_char "=" x) with false; [done|].
  assert (∀ y, space_class y = true → is_char "=" y = false) as Hy by rune_cases. by rewrite Hy.
Qed.

Lemma no_equals_digit : no_equals digit_class.
Proof. unfold no_equals. rune_cases. Qed.
Lemma no_equals_stamp : no_equals stamp_class.
Proof. unfold no_equals. rune_cases. Qed.
Lemma no_equals_sep : no_equals sep_class.
Proof. unfold no_equals. rune_cases. Qed.
Lemma no_equals_date_time : no_equals date_time_class.
Proof. unfold no_equals. rune_cases. Qed.
Lemma no_equals_char c : c ≠ "="%char → no_equals (is_char c).
Proof.
  intros Hc [|d [|e x]]; unfold is_char, byte_class; [done| |done]. intros H%bool_decide_eq_true. subst d.
  by apply bool_decide_eq_false.
Qed.
Lemma no_equals_point : no_equals (any_of ".,").
Proof. unfold no_equals. rune_cases. Qed.
#[local] Hint Resolve no_equals_digit no_equals_stamp no_equals_sep no_equals_date_time no_equals_point : core.

(** Undoes a chain of scanner steps. *)
Ltac unchain H :=
  repeat match type of H with
  | (_ ≫= _) = Some _ => let s := fresh "s" in let E := fresh "E" in apply bind_Some in H as (s & E & H)
  end.

Lemma blocked_date s s' : date_step s = Some s' → blocked s' → blocked s.
Proof.
  intros H Hs. unfold date_step in H. unchain H. simplify_eq.
  apply blocked_skip1 in Hs; [|by apply no_equals_char]. apply (blocked_skip1 (is_char "[")); [by apply no_equals_char|].
  repeat first [eassumption | eapply blocked_plus; [|eassumption|] | eapply blocked_step1; [|eassumption|] | eapply blocked_steps; [|eassumption|] | solve [eauto]].
Qed.

Lemma blocked_fraction s : blocked (default s (fraction_step s)) → blocked s.
Proof.
  unfold fraction_step. destruct (_ ≫= _) as [t|] eqn:E; cbn; [|done]. intros Ht. unchain E.
  eapply blocked_step1; [|eassumption|]; [auto|]. eapply blocked_plus; [|eassumption|]; auto.
Qed.

Lemma blocked_clock s s' : clock_step s = Some s' → blocked s' → blocked s.
Proof.
  intros H Hs. unfold clock_step in H. unchain H. simplify_eq. apply blocked_fraction in Hs.
  pose proof (no_equals_char ":" ltac:(done)).
  repeat first [eassumption | eapply blocked_step1; [|eassumption|] | eapply blocked_steps; [|eassumption|] | solve [eauto]].
Qed.

Lemma stamp_blocked s : is_Some (stamp_step s) → blocked s.
Proof.
  intros [s' H]. unfold stamp_step in H. unchain H. apply blocked_space in H.
  destruct (date_step s) eqn:E1; simplify_eq; eauto using blocked_date, blocked_clock.
Qed.

Lemma blocked_field s : blocked s → field_step s = None.
Proof.
  intros Hb. unfold field_step, step_plus. destruct s as [|x s]; cbn; [done|]. unfold blocked in Hb. cbn in Hb.
  destruct (key_class x); [|done]. cbn. by rewrite Hb.
Qed.

Lemma stamp_not_level s : is_Some (stamp_step s) → level_here s = None.
Proof.
  intros H%stamp_starts. apply level_here_None. destruct s as [|x s]; [done|]. cbn in H |- *.
  destruct (open_class x) eqn:E; [by apply open_not_letter|]. cbn in H. by destruct (digit_not_header x H).
Qed.

Lemma space_not_level s : starts space_class s = true → level_here s = None.
Proof. intros H. apply level_here_None. destruct s as [|x s]; [done|]. cbn in *. by destruct (space_not_header x H). Qed.

Lemma fields_scan_map {R S : Type} (g : R → S) (k : list rune → option R) (k' : list rune → option S) n s :
  (∀ t, k' t = g <$> k t) → fields_scan k' n s = g <$> fields_scan k n s.
Proof.
  intros Hk. revert s. induction n as [|n IH]; intros s; cbn; [done|]. destruct (field_step s) as [t|]; cbn; [|done].
  rewrite IH. destruct (fields_scan k n t); cbn; [done|]. apply Hk.
Qed.

Lemma logfmt_fields n s : logfmt_scan n s = fields_scan level_here n s.
Proof.
  revert s. induction n as [|n IH]; intros s; cbn; [done|]. destruct (field_step s); cbn; [|done]. by rewrite IH.
Qed.

Lemma levelKey_captured line : captured levelKey line = logfmt_word line.
Proof.
  unfold captured, match_prefix, levelKey.
  change (cats (timestampPrefix :: Star field :: ?l)) with (Cat timestampPrefix (Cat (Star field) (cats l))).
  set (rest := cats [ilit "level="; optional_quote; level_word; optional_quote; Alt (Cls space_class) AtEnd]).
  assert (∀ t d, snd <$> mt rest t d (fun s' c => Some (s', c)) = Some <$> level_here t) as Hrest.
  { intros t d. unfold rest. rewrite mt_level_here by eauto. by destruct (level_here t). }
  assert (∀ t d, level_here t = None → mt rest t d (fun s' c => Some (s', c)) = None) as Hnone.
  { intros t d Ht. specialize (Hrest t d). rewrite Ht in Hrest. by destruct (mt rest t d _). }
  rewrite mt_cat, mt_timestamp.
  - unfold logfmt_word. rewrite logfmt_fields. rewrite mt_cat. cbn [mt].
    rewrite star_fields by (intros; by apply Hnone, space_not_level).
    set (k := fun t => mt rest t None _). set (s := skip_stamp line).
    change (default [] ∘ snd <$> fields_scan k (length s) s) with ((λ x : list rune * capture, default [] (snd x)) <$> fields_scan k (length s) s).
    symmetry. apply fields_scan_map. intros t. specialize (Hrest t None). fold (k t) in Hrest.
    destruct (k t) as [[u c]|], (level_here t); cbn in *; by simplify_eq/=.
  - intros t d Ht. rewrite mt_cat. cbn [mt]. rewrite star_fields by (intros; by apply Hnone, space_not_level).
    apply fields_scan_space; [done|]. by apply Hnone, space_not_level.
  - intros d Hs. rewrite mt_cat. cbn [mt]. rewrite star_fields by (intros; by apply Hnone, space_not_level).
    assert (level_here line = None) as Hl by (by apply stamp_not_level).
    destruct (length line); cbn [fields_scan]; rewrite ?blocked_field by (by apply stamp_blocked); cbn [mbind option_bind]; by apply Hnone.
Qed.

(** ** What the text rules find *)

Definition word_level (w : list rune) : Z := severity (text_of w).

Lemma captured_level_word r line : captured_level r line = word_level <$> captured r line.
Proof. unfold captured_level, captured, word_level. by destruct (match_prefix r line) as [[u c]|]. Qed.

(** C18: The backtracking header and level-key expressions find exactly what one pass
    over the line finds: after an optional time stamp, a whole severity word in
    optional brackets, or else the last level key among the leading complete
    fields whose value is a severity word.  Configured patterns come first, in order. *)
Theorem classify_text_scanned patterns line :
  classify_text patterns line =
  match list_find (fun rule => pt_re rule line = true) patterns with
  | Some (_, rule) => classified (pt_level rule)
  | None =>
      classified (default Unclassified (word_level <$>
        match header_word (runes line) with Some w => Some w | None => logfmt_word (runes line) end))
  end.
Proof.
  unfold classify_text. rewrite !captured_level_word, header_captured, levelKey_captured.
  destruct (list_find _ _) as [[i rule]|]; [done|]. by destruct (header_word (runes line)).
Qed.

(** Text between double quotes: no bare quote, every backslash escapes a rune. *)
Fixpoint well_quoted (l : list rune) : bool :=
  match l with
  | [] => true
  | x :: l =>
      if is_char "\" x then match l with y :: l => dot_class y && well_quoted l | [] => false end
      else inner_class x && well_quoted l
  end.

Lemma inner_quote t : inner_step (one quote_char :: t) = None.
Proof. done. Qed.

Lemma iterate_quoted n body t :
  (length body <= n)%nat → well_quoted body = true → iterate inner_step n (body ++ one quote_char :: t) = one quote_char :: t.
Proof.
  revert body. induction n as [n IH] using lt_wf_ind. intros body Hn Hb.
  destruct body as [|x body]; [by destruct n|]. destruct n as [|n]; [cbn in Hn; lia|].
  cbn [iterate app]. unfold inner_step at 1. cbn [step1]. cbn in Hb.
  destruct (is_char "\" x) eqn:E.
  - destruct body as [|y body]; [done|]. apply andb_true_iff in Hb as [Hy Hb].
    cbn [mbind option_bind app step1]. rewrite Hy. apply IH; cbn in *; [lia..|done].
  - apply andb_true_iff in Hb as [Hx Hb]. cbn [mbind option_bind]. rewrite Hx. apply IH; cbn in *; [lia..|done].
Qed.

Lemma skip_all f l t : Forall (fun x => f x = true) l → starts f t = false → skip f (l ++ t) = t.
Proof.
  intros Hl Ht. induction Hl as [|x l Hx Hl IH]; cbn; [|by rewrite Hx].
  destruct t as [|x t]; cbn in *; [done|]. by rewrite Ht.
Qed.

(** A key of a field with a double-quoted value. *)
Definition quoted_field (key body : list rune) : list rune := key ++ ["="] ++ [one quote_char] ++ body ++ [one quote_char].
Definition level_key (key : list rune) : bool := match strip_fold "level" key with Some [] => true | _ => false end.

Definition key_or_equals : rune → bool := either key_class (is_char "=").

Lemma key_not_header x : key_or_equals x = true → open_class x = false ∧ close_class x = false ∧ space_class x || is_char ":" x = false.
Proof. revert x. rune_cases. Qed.

Lemma skip_letters_key l t :
  Forall (fun x => key_class x = true) l → ∃ y r, skip letter_class (l ++ "=" :: t) = y :: r ∧ key_or_equals y = true.
Proof.
  induction 1 as [|x l Hx Hl IH]; cbn; [by exists "=", t|]. destruct (letter_class x); [done|].
  exists x, (l ++ "=" :: t). split; [done|]. unfold key_or_equals, either. by rewrite Hx.
Qed.

Lemma strip_fold_key w l t :
  str_forallb lower_letter w = true → Forall (fun x => key_class x = true) l →
  is_Some (strip_fold (w ++ "=") (l ++ "=" :: t)) → strip_fold w l = Some [].
Proof.
  revert l. induction w as [|c w IH]; intros l Hw Hl H.
  - destruct l as [|x l]; [done|]. apply list.Forall_cons in Hl as [Hx _]. cbn in H. exfalso.
    assert (∀ y, key_class y = true → is_letter "=" y = false) as Hy by rune_cases. rewrite Hy in H by done. by destruct H.
  - cbn in Hw. apply andb_true_iff in Hw as [Hc Hw]. destruct l as [|x l]; cbn in H.
    + destruct (is_letter c "=") eqn:E; [|by destruct H]. apply is_letter_letter in E; [|done]. done.
    + apply list.Forall_cons in Hl as [_ Hl]. cbn. destruct (is_letter c x); [|by destruct H]. cbn in *. auto.
Qed.

Section Quoted.
Context (key body tail : list rune).
Hypothesis Hkey : key ≠ [].
Hypothesis Hclass : Forall (fun x => key_class x = true) key.
Hypothesis Hbody : well_quoted body = true.
Let quoted_text := quoted_field key body ++ tail.

Lemma quoted_line : quoted_text = key ++ "=" :: one quote_char :: body ++ one quote_char :: tail.
Proof. unfold quoted_text, quoted_field. rewrite <- !(assoc_L (++)). done. Qed.

Lemma quoted_field_step : field_step quoted_text = step_plus space_class tail.
Proof.
  rewrite quoted_line. unfold field_step.
  assert (step_plus key_class (key ++ "=" :: one quote_char :: body ++ one quote_char :: tail) =
          Some ("=" :: one quote_char :: body ++ one quote_char :: tail)) as ->.
  { destruct key as [|x l]; [done|]. apply list.Forall_cons in Hclass as [Hx Hl]. unfold step_plus. cbn. rewrite Hx. cbn.
    by rewrite skip_all. }
  cbn [mbind option_bind]. unfold value_step, quoted_step.
  cbn [step1]. change (is_char "=" "=") with true. cbn [mbind option_bind step1]. change (is_char quote_char (one quote_char)) with true.
  cbn [mbind option_bind]. rewrite iterate_quoted; [|rewrite length_app; lia|done]. done.
Qed.

Lemma quoted_no_stamp : stamp_step quoted_text = None.
Proof.
  destruct (stamp_step quoted_text) eqn:E; [|done]. assert (blocked quoted_text) as Hb by (apply stamp_blocked; eauto).
  rewrite quoted_line in Hb. unfold blocked in Hb. by rewrite skip_all in Hb.
Qed.

Lemma quoted_no_header : header_word quoted_text = None.
Proof.
  unfold header_word, skip_stamp. rewrite quoted_no_stamp. cbn. unfold plain_header.
  rewrite quoted_line. destruct key as [|x l] eqn:Ek; [done|].
  assert (open_class x = false) as Ho by (apply list.Forall_cons in Hclass as [Hx _]; apply key_not_header; unfold key_or_equals, either; by rewrite Hx).
  cbn [app skip1]. rewrite Ho. change (x :: l ++ ?r) with ((x :: l) ++ r).
  destruct (skip_letters_key (x :: l) (one quote_char :: body ++ one quote_char :: tail) Hclass) as (y & r & -> & Hy).
  unfold skip1. destruct (key_not_header y Hy) as (_ & -> & He). unfold ends_header. rewrite He. by rewrite andb_false_r.
Qed.
End Quoted.

(** More fuel than the length of the text changes nothing. *)
Lemma fields_scan_fuel {R : Type} (k : list rune → option R) n s : (length s <= n)%nat → fields_scan k n s = fields_scan k (length s) s.
Proof.
  revert s. induction n as [n IH] using lt_wf_ind. intros s Hn.
  destruct n as [|n]; [destruct s; [done|cbn in Hn; lia]|]. destruct s as [|x s]; [by cbn|].
  cbn [fields_scan length]. destruct (field_step (x :: s)) as [t|] eqn:E; cbn [mbind option_bind]; [|done].
  apply field_step_shrinks in E. cbn in E, Hn. rewrite (IH n) by lia. by rewrite (IH (length s)) by lia.
Qed.

Lemma level_here_quoted key body tail :
  Forall (fun x => key_class x = true) key → level_key key = false → level_here (quoted_field key body ++ tail) = None.
Proof.
  intros Hclass Hlevel. rewrite quoted_line. unfold level_here.
  destruct (strip_fold "level=" _) eqn:E; [|done]. exfalso.
  pose proof (strip_fold_key "level" key (one quote_char :: body ++ one quote_char :: tail) eq_refl Hclass) as Hs.
  change ("level" ++ "=")%string with "level=" in Hs. rewrite E in Hs. specialize (Hs ltac:(eauto)).
  unfold level_key in Hlevel. by rewrite Hs in Hlevel.
Qed.

Lemma step_plus_spaces spaces rest :
  spaces ≠ [] → Forall (fun x => space_class x = true) spaces → starts space_class rest = false →
  step_plus space_class (spaces ++ rest) = Some rest.
Proof.
  intros Hne Hs Hr. destruct spaces as [|x l]; [done|]. apply list.Forall_cons in Hs as [Hx Hl].
  unfold step_plus. cbn. rewrite Hx. cbn. by rewrite skip_all.
Qed.

Lemma quoted_scan key body spaces rest :
  key ≠ [] → Forall (fun x => key_class x = true) key → level_key key = false → well_quoted body = true →
  Forall (fun x => space_class x = true) spaces → starts space_class rest = false → (spaces = [] → rest = []) →
  let line := quoted_field key body ++ spaces ++ rest in
  logfmt_scan (length line) line = logfmt_scan (length rest) rest.
Proof.
  intros Hkey Hclass Hlevel Hbody Hspaces Hrest Hempty line. rewrite !logfmt_fields.
  assert (level_here line = None) as Hl by (by apply level_here_quoted).
  assert (field_step line = step_plus space_class (spaces ++ rest)) as Hf by (by apply quoted_field_step).
  assert (length line = (S (length key) + S (S (length body)) + (length spaces + length rest))%nat) as Hn.
  { unfold line, quoted_field. rewrite !length_app. cbn. lia. }
  clearbody line. destruct (length line) as [|n]; [lia|].
  cbn [fields_scan]. rewrite Hf, Hl. destruct (decide (spaces = [])) as [->|Hne].
  - rewrite Hempty by done. done.
  - rewrite step_plus_spaces by done. cbn [mbind option_bind].
    rewrite (fields_scan_fuel level_here n rest) by lia. by destruct (fields_scan level_here _ rest).
Qed.


(** ** Configured rules *)

Definition higher (a b : pattern) : Prop := pt_level b <= pt_level a.
Definition higher_name (a b : string) : Prop := severity b <= severity a.

(** Every rule comes from a configured pattern, and every configured pattern of a
    listed severity gives a rule. *)
Lemma compile_patterns_elem compile names patterns ps rule :
  compile_patterns compile names patterns = Ok ps →
  rule ∈ ps ↔ ∃ name expression, name ∈ names ∧ patterns !! name = Some expression ∧
                compile expression = Some (pt_re rule) ∧ pt_level rule = severity name.
Proof.
  revert ps. induction names as [|n names IH]; intros ps H; cbn [compile_patterns] in H.
  { simplify_eq. split; [by intros ?%elem_of_nil|]. intros (? & ? & ?%elem_of_nil & _). done. }
  destruct (patterns !! n) as [e|] eqn:En.
  - apply bind_Ok in H as (? & _ & H). apply bind_Ok in H as (r & Hr & H). apply bind_Ok in H as (rest & Hrest & H). simplify_eq.
    destruct (compile e) as [r'|] eqn:Er; [|done]. simplify_eq. rewrite elem_of_cons, (IH _ Hrest). split.
    + intros [->|(nm & ex & H1 & H2)]; [exists n, e; cbn; set_solver|exists nm, ex; set_solver].
    + intros (nm & ex & Hn & H1 & H2 & H3). apply elem_of_cons in Hn as [->|Hn]; [left|right; eauto 10].
      simplify_eq. destruct rule; cbn in *; congruence.
  - rewrite (IH _ H). split; intros (nm & ex & Hn & H1 & H2).
    + exists nm, ex. set_solver.
    + apply elem_of_cons in Hn as [->|Hn]; [congruence|eauto].
Qed.

(** Rules are kept from the highest severity down. *)
Lemma compile_patterns_sorted compile names patterns ps :
  compile_patterns compile names patterns = Ok ps → StronglySorted higher_name names → StronglySorted higher ps.
Proof.
  intros H Hs. revert ps H. induction Hs as [|n names Hs IH Hn]; intros ps H; cbn [compile_patterns] in H; [by simplify_eq; constructor|].
  destruct (patterns !! n) as [e|] eqn:En; [|auto].
  apply bind_Ok in H as (? & _ & H). apply bind_Ok in H as (r & Hr & H). apply bind_Ok in H as (rest & Hrest & H). simplify_eq.
  constructor; [auto|]. apply list.Forall_forall. intros rule Hin.
  apply (compile_patterns_elem _ _ _ _ _ Hrest) in Hin as (nm & ex & Hnm & _ & _ & Hl).
  unfold higher. cbn. rewrite Hl. by apply (proj1 (list.Forall_forall _ _) Hn).
Qed.

Lemma severity_names_sorted : StronglySorted higher_name severity_names.
Proof. unfold severity_names, higher_name. repeat constructor; by vm_compute. Qed.

Lemma NewParser_patterns compile c p :
  NewParser compile c = Ok p → compile_patterns compile severity_names (pc_Patterns c) = Ok (pr_patterns p).
Proof.
  unfold NewParser. intros H. cbn [pc_Patterns] in H.
  do 4 (apply bind_Ok in H as (? & _ & H)). apply bind_Ok in H as (ps & Hps & H). apply bind_Ok in H as (? & _ & H). by simplify_eq.
Qed.

Lemma sorted_find {A : Type} (R : A → A → Prop) (P : A → Prop) `{!∀ x, Decision (P x)} l x i y :
  StronglySorted R l → (∀ z, R z z) → list_find P l = Some (i, y) → x ∈ l → P x → R y x.
Proof.
  intros Hs Hr. revert i. induction Hs as [|z l Hs IH Hz]; intros i Hf Hx HP; [done|].
  cbn in Hf. case_decide as HPz.
  - simplify_eq. apply elem_of_cons in Hx as [->|Hx]; [done|]. by apply (proj1 (list.Forall_forall _ _) Hz).
  - apply elem_of_cons in Hx as [->|Hx]; [done|]. destruct (list_find P l) as [[j w]|]; [|done]. cbn in Hf. simplify_eq. eauto.
Qed.

(** Of the configured patterns that match a line the one of the highest severity
    decides: the level reported is the severity of a matching pattern, and no
    matching pattern has a higher one. *)
Lemma highest_rule_wins compile c p line name expression matches :
  NewParser compile c = Ok p → name ∈ severity_names → pc_Patterns c !! name = Some expression →
  compile expression = Some matches → matches line = true →
  severity name <= Level (classify_text (pr_patterns p) line) ∧
  ∃ name' expression' matches',
    pc_Patterns c !! name' = Some expression' ∧ compile expression' = Some matches' ∧ matches' line = true ∧
    classify_text (pr_patterns p) line = classified (severity name').
Proof.
  intros Hp%NewParser_patterns Hn He Hm Hl.
  set (rule := {| pt_level := severity name; pt_re := matches |}).
  assert (rule ∈ pr_patterns p) as Hrule by (apply (compile_patterns_elem _ _ _ _ _ Hp); cbn; eauto 10).
  unfold classify_text. destruct (list_find _ _) as [[i y]|] eqn:E.
  - split.
    + apply (sorted_find higher _ _ rule) in E; [done| |by unfold higher|done|done].
      eapply compile_patterns_sorted; [done|apply severity_names_sorted].
    + apply list_find_Some in E as (Hy & Hmy & _). apply list_elem_of_lookup_2 in Hy.
      apply (compile_patterns_elem _ _ _ _ _ Hp) in Hy as (nm & ex & _ & H1 & H2 & ->). eauto 10.
  - exfalso. apply list_find_None in E. apply (proj1 (list.Forall_forall _ _) E rule); done.
Qed.

(** A pattern under a severity with surrounding space passes every check and
    gives no rule. *)
Definition spaced_config : ParserConfig :=
  {| pc_Format := ""; pc_LevelField := ""; pc_Patterns := {[ " error" := "disk" ]}; pc_LevelMap := ∅ |}.

(** A pattern configured under a severity name with surrounding space is accepted
    and never applied: the checks trim the name, the search for rules does not. *)
Lemma spaced_rule_ignored compile :
  ∃ p, NewParser compile spaced_config = Ok p ∧ pr_patterns p = [] ∧ severity " error" = Error.
Proof. eexists. split; [vm_compute; reflexivity|]. by vm_compute. Qed.
