(* ===== verification/LogCollector.v ===== *)
(** * The log collector: [internal/logs/collector.go], [internal/logs/stats.go]

    Writers complete records under the collector's lock and put them into a
    bounded queue; one goroutine takes them out, classifies them without the
    lock, and counts them under it.  A snapshot is a barrier that travels through
    the same queue.  Every atomic section is one step, and a run is any
    interleaving of the steps.  Counters are counted without a width; the epoch
    is a uint64. *)
From S2P Require Import Prelude GoText GoFloat GoJson GoRegexp LogWindow LogWindowFacts LogFrame LogClassify.
#[local] Open Scope list_scope.
#[local] Open Scope Z_scope.

(** ** State *)

Record Statistics := { st_Records : Z; st_Warnings : Z; st_Errors : Z; st_Unclassified : Z; st_Invalid : Z; st_Dropped : Z }.
Definition no_statistics : Statistics :=
  {| st_Records := 0; st_Warnings := 0; st_Errors := 0; st_Unclassified := 0; st_Invalid := 0; st_Dropped := 0 |}.

Record record := { r_data : string; r_invalid : bool; r_at : time; r_channel : string; r_epoch : Z }.

(** An element of the queue: a record, or the barrier of a snapshot with the
    caller's result channel. *)
Inductive item :=
| Rec (r : record)
| Barrier (at_ : time) (result : Z).

Record Collector := mkCollector {
  cl_window : Window; cl_parser : Parser; cl_framing : FrameConfig;
  cl_queue : list item; cl_current : option item;
  cl_epoch : Z; cl_queuedBytes : Z; cl_statistics : Statistics; cl_closed : bool;
  cl_results : list (Z * Summary) }.

#[global] Instance eta_Collector : Eta Collector := fun c =>
  mkCollector (cl_window c) (cl_parser c) (cl_framing c) (cl_queue c) (cl_current c) (cl_epoch c) (cl_queuedBytes c) (cl_statistics c)
    (cl_closed c) (cl_results c).
#[global] Instance upd_cl_window : FieldUpdate cl_window. Proof. field_update. Defined.
#[global] Instance upd_cl_queue : FieldUpdate cl_queue. Proof. field_update. Defined.
#[global] Instance upd_cl_current : FieldUpdate cl_current. Proof. field_update. Defined.
#[global] Instance upd_cl_epoch : FieldUpdate cl_epoch. Proof. field_update. Defined.
#[global] Instance upd_cl_queuedBytes : FieldUpdate cl_queuedBytes. Proof. field_update. Defined.
#[global] Instance upd_cl_statistics : FieldUpdate cl_statistics. Proof. field_update. Defined.
#[global] Instance upd_cl_closed : FieldUpdate cl_closed. Proof. field_update. Defined.
#[global] Instance upd_cl_results : FieldUpdate cl_results. Proof. field_update. Defined.

Definition queue_limit : Z := 4096.
Definition byte_limit : Z := Z.shiftl 4 20.
Definition line_framing : FrameConfig := {| fc_Mode := ""; fc_Start := ""; fc_Continue := ""; fc_MaxLines := 0; fc_FlushAfter := "" |}.

(** ** Operations *)

Definition NewCollector (compile : string → option (string → bool)) (parser : ParserConfig) (window : WindowConfig)
    (frames : list FrameConfig) (now : time) : result Collector :=
  let framing := default line_framing (head frames) in
  NewConfiguredFramer compile framing ;;
  p ← NewParser compile parser;
  w ← NewWindow window now;
  Ok (mkCollector w p framing [] None 0 0 no_statistics false []).

(** A record the framer of [Stream] completes: counted as dropped when the queue
    is full or holds too many bytes. *)
Definition has_room (c : Collector) (data : string) : bool :=
  negb (byte_limit <? cl_queuedBytes c + len data) && (Z.of_nat (length (cl_queue c)) <? queue_limit).

Definition count_dropped (s : Statistics) : Statistics :=
  {| st_Records := st_Records s; st_Warnings := st_Warnings s; st_Errors := st_Errors s; st_Unclassified := st_Unclassified s;
     st_Invalid := st_Invalid s; st_Dropped := st_Dropped s + 1 |}.

Definition completed (c : Collector) (at_ : time) (channel data : string) (invalid : bool) : record :=
  {| r_data := data; r_invalid := invalid; r_at := at_; r_channel := channel; r_epoch := cl_epoch c |}.

Definition Stream_record (c : Collector) (at_ : time) (channel data : string) (invalid : bool) : Collector :=
  if has_room c data
  then c <| cl_queue := cl_queue c ++ [Rec (completed c at_ channel data invalid)] |> <| cl_queuedBytes := cl_queuedBytes c + len data |>
  else c <| cl_statistics := count_dropped (cl_statistics c) |> <| cl_window := Drop (cl_window c) at_ |>.

(** The goroutine receives the head of the queue. *)
Definition receive (c : Collector) : option Collector :=
  match cl_current c, cl_queue c with
  | None, x :: q => Some (c <| cl_queue := q |> <| cl_current := Some x |>)
  | _, _ => None
  end.

Definition classify_record (p : Parser) (r : record) : Classification :=
  if r_invalid r then {| Level := Unclassified; Invalid := true; Blank := false |} else Classify p (r_data r).

Definition bit (b : bool) : Z := if b then 1 else 0.
Definition count_classified (s : Statistics) (k : Classification) : Statistics :=
  if Blank k then s else
  {| st_Records := st_Records s + 1;
     st_Warnings := st_Warnings s + bit (Level k =? Warning);
     st_Errors := st_Errors s + bit ((Level k =? Error) || (Level k =? Fatal));
     st_Unclassified := st_Unclassified s + bit (Level k =? Unclassified);
     st_Invalid := st_Invalid s + bit (Invalid k);
     st_Dropped := st_Dropped s |}.

(** The goroutine finishes what it received: a barrier is answered, a record of
    the current epoch is counted. *)
Definition process (c : Collector) : option Collector :=
  match cl_current c with
  | None => None
  | Some (Barrier at_ result) =>
      Some (c <| cl_current := None |> <| cl_results := cl_results c ++ [(result, Snapshot (cl_window c) at_)] |>)
  | Some (Rec r) =>
      let k := classify_record (cl_parser c) r in
      let c := c <| cl_current := None |> <| cl_queuedBytes := cl_queuedBytes c - len (r_data r) |> in
      if r_epoch r =? cl_epoch c
      then Some (c <| cl_window := AddFrom (cl_window c) (r_at r) k (r_channel r) |> <| cl_statistics := count_classified (cl_statistics c) k |>)
      else Some c
  end.

(** The goroutine has drained a closed queue. *)
Definition drained (c : Collector) : bool :=
  cl_closed c && bool_decide (cl_queue c = []) && bool_decide (cl_current c = None).

(** [Snapshot] up to its wait: the window of a finished collector is read, else
    the barrier is queued at the time it reads, else the window is marked. *)
Definition Collector_Snapshot (c : Collector) (at_ : time) (result : Z) : Collector :=
  if drained c then c <| cl_results := cl_results c ++ [(result, Snapshot (cl_window c) at_)] |>
  else if Z.of_nat (length (cl_queue c)) <? queue_limit then c <| cl_queue := cl_queue c ++ [Barrier at_ result] |>
  else c <| cl_window := Gap (cl_window c) at_ |>.

(** The window is read without a barrier: after the mark of a full queue, or of a
    wait that timed out. *)
Definition Snapshot_read (c : Collector) (at_ : time) (result : Z) : Collector :=
  c <| cl_results := cl_results c ++ [(result, Snapshot (cl_window c) at_)] |>.

Definition Collector_Gap (c : Collector) (at_ : time) : Collector := c <| cl_window := Gap (cl_window c) at_ |>.

Definition Collector_Reset (c : Collector) (at_ : time) : Collector :=
  c <| cl_epoch := (cl_epoch c + 1) mod 2 ^ 64 |> <| cl_statistics := no_statistics |> <| cl_window := Reset (cl_window c) at_ |>.

Definition Collector_Close (c : Collector) : Collector := c <| cl_closed := true |>.

(** ** Runs *)

Inductive event :=
| Complete (at_ : time) (channel data : string) (invalid : bool)
| Receive
| Process
| TakeSnapshot (at_ : time) (result : Z)
| ReadWindow (at_ : time) (result : Z)
| MarkGap (at_ : time)
| Restart (at_ : time)
| CloseQueue.

#[global] Instance record_eq_dec : EqDecision record.
Proof. solve_decision. Defined.
#[global] Instance item_eq_dec : EqDecision item.
Proof. solve_decision. Defined.
#[global] Instance event_eq_dec : EqDecision event.
Proof. solve_decision. Defined.

(** Writers have stopped before the queue is closed. *)
Definition collector_step (c : Collector) (e : event) : option Collector :=
  match e with
  | Complete at_ channel data invalid => if cl_closed c then None else Some (Stream_record c at_ channel data invalid)
  | Receive => receive c
  | Process => process c
  | TakeSnapshot at_ result => if cl_closed c && negb (drained c) then None else Some (Collector_Snapshot c at_ result)
  | ReadWindow at_ result => Some (Snapshot_read c at_ result)
  | MarkGap at_ => Some (Collector_Gap c at_)
  | Restart at_ => Some (Collector_Reset c at_)
  | CloseQueue => Some (Collector_Close c)
  end.

(** What was completed since the last restart: the records that found room, in
    order, and the number of those that did not. *)
Definition ledger : Type := list record * Z.
Definition ledger_step (c : Collector) (l : ledger) (e : event) : ledger :=
  match e with
  | Complete at_ channel data invalid =>
      if has_room c data then (fst l ++ [completed c at_ channel data invalid], snd l) else (fst l, snd l + 1)
  | Restart _ => ([], 0)
  | _ => l
  end.

Fixpoint collector_run (c : Collector) (l : ledger) (evs : list event) : option (Collector * ledger) :=
  match evs with
  | [] => Some (c, l)
  | e :: evs => c' ← collector_step c e; collector_run c' (ledger_step c l e) evs
  end.

Definition is_restart (e : event) : bool := match e with Restart _ => true | _ => false end.
Definition restarts (evs : list event) : Z := Z.of_nat (length (List.filter is_restart evs)).

(** ** Invariants *)

Definition items (c : Collector) : list item := match cl_current c with Some x => [x] | None => [] end ++ cl_queue c.
Definition item_bytes (x : item) : Z := match x with Rec r => len (r_data r) | Barrier _ _ => 0 end.
Fixpoint items_bytes (l : list item) : Z := match l with [] => 0 | x :: l => item_bytes x + items_bytes l end.

(** The records of an epoch still to be counted, oldest first. *)
Fixpoint records_of (epoch : Z) (l : list item) : list record :=
  match l with
  | [] => []
  | Rec r :: l => if r_epoch r =? epoch then r :: records_of epoch l else records_of epoch l
  | Barrier _ _ :: l => records_of epoch l
  end.

Definition tally (p : Parser) (records : list record) (dropped : Z) : Statistics :=
  foldl (fun s r => count_classified s (classify_record p r))
    {| st_Records := 0; st_Warnings := 0; st_Errors := 0; st_Unclassified := 0; st_Invalid := 0; st_Dropped := dropped |} records.

(** *** Bounds *)

Record bounded (c : Collector) : Prop := {
  bounded_bytes : cl_queuedBytes c = items_bytes (items c);
  bounded_limit : cl_queuedBytes c <= byte_limit;
  bounded_queue : Z.of_nat (length (cl_queue c)) <= queue_limit }.

Lemma items_bytes_app l k : items_bytes (l ++ k) = items_bytes l + items_bytes k.
Proof. induction l as [|x l IH]; cbn; [done|]. rewrite IH. lia. Qed.

Lemma item_bytes_nonneg x : 0 <= item_bytes x.
Proof. destruct x; cbn; [unfold len; lia|done]. Qed.

Lemma bounded_step c e c' : bounded c → collector_step c e = Some c' → bounded c'.
Proof.
  intros [Hb Hl Hq] H. unfold items in Hb. destruct e; cbn [collector_step] in H.
  - destruct (cl_closed c); [done|]. injection H as <-. unfold Stream_record. destruct (has_room c data) eqn:E.
    + unfold has_room in E. bools. split; cbn; [|lia|rewrite length_app; cbn; lia].
      unfold items. cbn. rewrite app_assoc, items_bytes_app. cbn. lia.
    + by split.
  - unfold receive in H. destruct (cl_current c) eqn:Ec, (cl_queue c) as [|x q] eqn:Eq; try done. injection H as <-.
    split; cbn in *; lia.
  - unfold process in H. destruct (cl_current c) as [[r|at_ res]|] eqn:Ec; [| |done].
    + pose proof (item_bytes_nonneg (Rec r)). cbn in *. destruct (_ =? _); injection H as <-; split; cbn; unfold items; cbn; lia.
    + injection H as <-. split; cbn in *; done.
  - destruct (_ && _); [done|]. injection H as <-. unfold Collector_Snapshot. destruct (drained c); [by split|].
    destruct (Z.ltb_spec (Z.of_nat (length (cl_queue c))) queue_limit); [|by split].
    split; cbn; [|lia|rewrite length_app; cbn; lia]. unfold items. cbn. rewrite app_assoc, items_bytes_app. cbn. lia.
  - injection H as <-. by split.
  - injection H as <-. by split.
  - injection H as <-. by split.
  - injection H as <-. by split.
Qed.

Lemma collector_run_invariant (I : Collector → Prop) c l evs c' l' :
  (∀ c e c', I c → collector_step c e = Some c' → I c') → I c → collector_run c l evs = Some (c', l') → I c'.
Proof.
  intros Hstep. revert c l. induction evs as [|e evs IH]; intros c l Hc H; cbn in H; [by simplify_eq|].
  destruct (collector_step c e) as [c1|] eqn:E; [|done]. cbn in H. eauto.
Qed.

Lemma NewCollector_bounded compile parser window frames now c : NewCollector compile parser window frames now = Ok c → bounded c.
Proof.
  unfold NewCollector. intros H. do 3 (apply bind_Ok in H as (? & _ & H)). simplify_eq. split; cbn; unfold byte_limit, queue_limit; done.
Qed.

(** *** The ledger *)

Lemma count_classified_dropped s k : count_classified (count_dropped s) k = count_dropped (count_classified s k).
Proof. unfold count_classified. by destruct (Blank k). Qed.

Lemma foldl_dropped p l s :
  foldl (fun s r => count_classified s (classify_record p r)) (count_dropped s) l =
  count_dropped (foldl (fun s r => count_classified s (classify_record p r)) s l).
Proof. revert s. induction l as [|r l IH]; intros s; cbn; [done|]. by rewrite count_classified_dropped, IH. Qed.

Lemma tally_dropped p l d : tally p l (d + 1) = count_dropped (tally p l d).
Proof. unfold tally. by rewrite <- foldl_dropped. Qed.

Lemma tally_snoc p l r d : tally p (l ++ [r]) d = count_classified (tally p l d) (classify_record p r).
Proof. unfold tally. by rewrite foldl_app. Qed.

Lemma records_of_app n l k : records_of n (l ++ k) = records_of n l ++ records_of n k.
Proof. induction l as [|[r|] l IH]; cbn; [done| |done]. rewrite IH. by destruct (_ =? _). Qed.

(** What the operations on a window since its last reset added and dropped. *)
Definition history : Type := list (time * Classification * string) * Z.
Definition history_step (h : history) (o : op) : history :=
  match o with
  | OAdd at_ k channel => (fst h ++ [(at_, k, channel)], snd h)
  | ODrop _ => (fst h, snd h + 1)
  | OGap _ => h
  | OReset _ => ([], 0)
  end.
Definition history_of (ops : list op) : history := foldl history_step ([], 0) ops.
Definition added (p : Parser) (r : record) : time * Classification * string := (r_at r, classify_record p r, r_channel r).

(** The statistics and the window count the records [counted], in order, and the
    number [dropped]. *)
Definition tallied (w : Window) (counted : list record) (dropped : Z) (c : Collector) : Prop :=
  cl_statistics c = tally (cl_parser c) counted dropped ∧
  ∃ ops, cl_window c = foldl step w ops ∧ history_of ops = (added (cl_parser c) <$> counted, dropped).

Lemma tallied_op w counted dropped c counted' dropped' o c' :
  tallied w counted dropped c → cl_parser c' = cl_parser c → cl_statistics c' = tally (cl_parser c) counted' dropped' →
  cl_window c' = step (cl_window c) o →
  history_step (added (cl_parser c) <$> counted, dropped) o = (added (cl_parser c) <$> counted', dropped') → tallied w counted' dropped' c'.
Proof.
  intros (_ & ops & Hw & Hh) Hp Hs Hw' Ho. split; [by rewrite Hp|]. exists (ops ++ [o]). unfold history_of in *.
  by rewrite !foldl_app, Hh, <- Hw, Hp.
Qed.
Lemma tallied_same w counted dropped c c' :
  tallied w counted dropped c → cl_parser c' = cl_parser c → cl_statistics c' = cl_statistics c → cl_window c' = cl_window c → tallied w counted dropped c'.
Proof. intros [Hs Hw] E1 E2 E3. split; by rewrite E1, ?E2, ?E3. Qed.
Lemma tallied_drop w counted dropped c at_ :
  tallied w counted dropped c →
  tallied w counted (dropped + 1) (c <| cl_statistics := count_dropped (cl_statistics c) |> <| cl_window := Drop (cl_window c) at_ |>).
Proof. intros Ht. eapply (tallied_op _ _ _ _ _ _ (ODrop at_)); [exact Ht|done| |done|done]. destruct Ht as [Hs _]. cbn. by rewrite Hs, tally_dropped. Qed.
Lemma tallied_add w counted dropped c r c' :
  tallied w counted dropped c → cl_parser c' = cl_parser c → cl_statistics c' = count_classified (cl_statistics c) (classify_record (cl_parser c) r) →
  cl_window c' = AddFrom (cl_window c) (r_at r) (classify_record (cl_parser c) r) (r_channel r) → tallied w (counted ++ [r]) dropped c'.
Proof.
  intros Ht Hp Hs Hw. eapply (tallied_op _ _ _ _ _ _ (OAdd _ _ _)); [exact Ht|done| |exact Hw|].
  - destruct Ht as [Ht _]. by rewrite tally_snoc, Hs, Ht.
  - cbn. by rewrite fmap_app.
Qed.
Lemma tallied_gap w counted dropped c at_ : tallied w counted dropped c → tallied w counted dropped (c <| cl_window := Gap (cl_window c) at_ |>).
Proof. intros Ht. eapply (tallied_op _ _ _ _ _ _ (OGap at_)); [exact Ht|done|apply Ht|done|done]. Qed.
Lemma tallied_reset w counted dropped c at_ : tallied w counted dropped c → tallied w [] 0 (Collector_Reset c at_).
Proof. intros Ht. by eapply (tallied_op _ _ _ _ _ _ (OReset at_)). Qed.

(** [n] restarts so far, the first window being [w]. *)
Record accounted (w : Window) (n : Z) (c : Collector) (l : ledger) : Prop := {
  acc_epoch : cl_epoch c = n;
  acc_old : Forall (fun x => match x with Rec r => r_epoch r <= n | Barrier _ _ => True end) (items c);
  acc_counted : ∃ counted, fst l = counted ++ records_of n (items c) ∧ tallied w counted (snd l) c }.

Lemma records_of_new n l :
  Forall (fun x => match x with Rec r => r_epoch r <= n | Barrier _ _ => True end) l → records_of (n + 1) l = [].
Proof.
  induction 1 as [|[r|] l Hx Hl IH]; cbn; [done| |done]. destruct (Z.eqb_spec (r_epoch r) (n + 1)); [lia|done].
Qed.

Lemma accounted_step w n c l e c' :
  accounted w n c l → 0 <= n → (is_restart e = true → n + 1 < 2 ^ 64) → collector_step c e = Some c' →
  accounted w (if is_restart e then n + 1 else n) c' (ledger_step c l e).
Proof.
  intros [He Ho (counted & Hl & Hs)] Hn Hmax H. destruct e; cbn [collector_step is_restart ledger_step] in *.
  - destruct (cl_closed c); [done|]. injection H as <-. unfold Stream_record. destruct (has_room c data) eqn:E.
    + split; cbn; [done| |].
      * unfold items in *. cbn. rewrite app_assoc. apply Forall_app. split; [done|]. constructor; [cbn; lia|done].
      * exists counted. split; [|done]. unfold items in *. cbn. rewrite app_assoc, records_of_app, Hl, <- app_assoc. do 2 f_equal.
        cbn. by rewrite He, Z.eqb_refl.
    + split; cbn; [done..|]. exists counted. split; [done|]. by apply tallied_drop.
  - unfold receive in H. destruct (cl_current c) eqn:Ec, (cl_queue c) as [|x q] eqn:Eq; try done. injection H as <-.
    unfold items in *. rewrite Ec, Eq in *. split; cbn; eauto.
  - unfold process in H. unfold items in *. destruct (cl_current c) as [[r|at_ res]|] eqn:Ec; [| |done].
    + cbn [app] in *. apply list.Forall_cons in Ho as [Hr Ho]. cbn in H, Hl.
      destruct (Z.eqb_spec (r_epoch r) (cl_epoch c)) as [E|E]; injection H as <-.
      * split; unfold items; cbn; [done..|]. exists (counted ++ [r]). split; [|by eapply tallied_add].
        rewrite <- app_assoc, Hl. cbn. rewrite E, He, Z.eqb_refl. done.
      * split; unfold items; cbn; [done..|]. exists counted. split; [|done]. rewrite Hl.
        destruct (Z.eqb_spec (r_epoch r) n); [congruence|done].
    + cbn [app] in *. apply list.Forall_cons in Ho as [_ Ho]. injection H as <-. split; unfold items; cbn; eauto.
  - destruct (_ && _); [done|]. injection H as <-. unfold Collector_Snapshot. destruct (drained c); [by split; eauto|].
    destruct (_ <? _); [|split; [done|done|]; exists counted; split; [done|by apply tallied_gap]]. unfold items in *. split; unfold items; cbn; [done| |].
    + rewrite app_assoc. apply Forall_app. split; [done|]. by repeat constructor.
    + exists counted. rewrite app_assoc, records_of_app. cbn. by rewrite app_nil_r.
  - injection H as <-. split; eauto.
  - injection H as <-. split; [done|done|]. exists counted. split; [done|by apply tallied_gap].
  - injection H as <-. split; cbn.
    + rewrite He. apply Z.mod_small. lia.
    + eapply list.Forall_impl; [exact Ho|]. intros [r|]; [lia|done].
    + exists []. split; [|by eapply tallied_reset]. cbn. symmetry. by apply records_of_new.
  - injection H as <-. split; eauto.
Qed.

Lemma restarts_cons e evs : restarts (e :: evs) = (if is_restart e then 1 else 0) + restarts evs.
Proof. unfold restarts. cbn. destruct (is_restart e); cbn [length]; lia. Qed.
Lemma restarts_nonneg evs : 0 <= restarts evs.
Proof. unfold restarts. lia. Qed.

Lemma accounted_run w n c l evs c' l' :
  accounted w n c l → 0 <= n → n + restarts evs < 2 ^ 64 → collector_run c l evs = Some (c', l') → accounted w (n + restarts evs) c' l'.
Proof.
  revert n c l. induction evs as [|e evs IH]; intros n c l Ha Hn Hmax H; cbn [collector_run] in H.
  { simplify_eq. unfold restarts. cbn. by rewrite Z.add_0_r. }
  destruct (collector_step c e) as [c1|] eqn:E; [|done]. cbn in H. rewrite restarts_cons in *. pose proof (restarts_nonneg evs).
  eapply accounted_step in E; [|done|done|intros Hr; rewrite Hr in Hmax; lia].
  destruct (is_restart e); rewrite ?Z.add_0_l, ?Z.add_assoc in *; eapply IH; eauto; lia.
Qed.

Lemma NewCollector_accounted compile parser window frames now c : NewCollector compile parser window frames now = Ok c → accounted (cl_window c) 0 c ([], 0).
Proof.
  unfold NewCollector. intros H. do 3 (apply bind_Ok in H as (? & _ & H)). simplify_eq. split; [done|constructor|]. exists []. split; [done|]. split; [done|]. by exists [].
Qed.

(** *** Barriers *)

Definition other_result (id : Z) (x : item) : Prop := match x with Barrier _ i => i ≠ id | Rec _ => True end.
Definition other_request (id : Z) (e : event) : Prop := match e with TakeSnapshot _ i => i ≠ id | _ => True end.

(** The barrier [id] is queued behind the rest of the records [before]. *)
Definition behind (w : Window) (at_ : time) (id n : Z) (before : list record) (c : Collector) (l : ledger) : Prop :=
  cl_epoch c = n ∧
  (∃ pre post counted, items c = pre ++ Barrier at_ id :: post ∧ Forall (other_result id) pre ∧ Forall (other_result id) post ∧
     before = counted ++ records_of n pre ∧ tallied w counted (snd l) c).

Lemma behind_append w at_ id n before c l x c' :
  behind w at_ id n before c l → items c' = items c ++ [x] → cl_epoch c' = cl_epoch c → cl_statistics c' = cl_statistics c →
  cl_parser c' = cl_parser c → cl_window c' = cl_window c → other_result id x → behind w at_ id n before c' l.
Proof.
  intros (He & pre & post & counted & Hi & Hp & Hq & Hb & Hs) E2 E1 E3 E4 E5 Hx. split; [congruence|].
  exists pre, (post ++ [x]), counted. rewrite E2, Hi, <- app_assoc. split_and!; try done; [apply Forall_app; auto|by eapply tallied_same].
Qed.

Lemma behind_same w at_ id n before c l c' :
  behind w at_ id n before c l → cl_epoch c' = cl_epoch c → items c' = items c → (∀ counted, tallied w counted (snd l) c → tallied w counted (snd l) c') →
  behind w at_ id n before c' l.
Proof.
  intros (He & pre & post & counted & Hi & Hp & Hq & Hb & Hs) E1 E2 Ht. split; [congruence|]. exists pre, post, counted. rewrite E2. split_and!; auto.
Qed.

(** Anything but the end of the barrier itself keeps it behind the same records. *)
Lemma behind_step w at_ id n before c l e c' :
  behind w at_ id n before c l → collector_step c e = Some c' → is_restart e = false → other_request id e →
  (e = Process → cl_current c ≠ Some (Barrier at_ id)) → behind w at_ id n before c' (ledger_step c l e).
Proof.
  intros Hbeh H Hr Ho Hcur. destruct e; cbn [collector_step is_restart ledger_step] in *; try done.
  - destruct (cl_closed c); [done|]. injection H as <-. unfold Stream_record. destruct (has_room c data) eqn:E.
    + eapply behind_append; [exact Hbeh|unfold items; cbn; by rewrite app_assoc|done..].
    + destruct Hbeh as (He & pre & post & counted & Hi & Hp & Hq & Hb & Hs). split; [done|].
      exists pre, post, counted. split_and!; try done. by apply tallied_drop.
  - unfold receive in H. destruct (cl_current c) eqn:Ec, (cl_queue c) as [|x q] eqn:Eq; try done. injection H as <-.
    eapply behind_same; [exact Hbeh|done| |done]. unfold items. cbn. by rewrite Ec, Eq.
  - destruct Hbeh as (He & pre & post & counted & Hi & Hp & Hq & Hb & Hs). unfold process in H.
    destruct (cl_current c) as [x|] eqn:Ec; [|done]. unfold items in Hi. rewrite Ec in Hi. cbn in Hi.
    destruct pre as [|y pre]; cbn in Hi; injection Hi as -> Hi; [by destruct (Hcur eq_refl)|].
    apply list.Forall_cons in Hp as [Hx Hp]. destruct y as [r|at_' id'].
    + cbn in H, Hb. rewrite He in H. destruct (Z.eqb_spec (r_epoch r) n) as [E|E]; injection H as <-; split; [done| |done|].
      * exists pre, post, (counted ++ [r]). unfold items. cbn. rewrite <- app_assoc. split_and!; try done. by eapply tallied_add.
      * exists pre, post, counted. done.
    + injection H as <-. split; [done|]. exists pre, post, counted. done.
  - destruct (_ && _); [done|]. injection H as <-. unfold Collector_Snapshot. destruct (drained c); [by eapply behind_same|].
    destruct (_ <? _); [|eapply behind_same; [exact Hbeh|done|done|intros ?; apply tallied_gap]].
    eapply behind_append; [exact Hbeh|unfold items; cbn; by rewrite app_assoc|done..].
  - injection H as <-. by eapply behind_same.
  - injection H as <-. eapply behind_same; [exact Hbeh|done|done|]. intros ?. apply tallied_gap.
  - injection H as <-. by eapply behind_same.
Qed.

Definition gone (id : Z) (c : Collector) : Prop := Forall (other_result id) (items c).

Lemma gone_step id c e c' : gone id c → collector_step c e = Some c' → other_request id e → gone id c'.
Proof.
  unfold gone, items. intros Hg H Ho. destruct e; cbn [collector_step other_request] in *.
  - destruct (cl_closed c); [done|]. injection H as <-. unfold Stream_record. destruct (has_room c data); cbn; [|done].
    rewrite app_assoc. apply Forall_app; split; [done|]. by repeat constructor.
  - unfold receive in H. destruct (cl_current c) eqn:Ec, (cl_queue c) as [|x q] eqn:Eq; try done. by injection H as <-.
  - unfold process in H. destruct (cl_current c) as [x|]; [|done]. apply list.Forall_cons in Hg as [_ Hg].
    destruct x; [|by injection H as <-]. cbn in H. by destruct (_ =? _); injection H as <-.
  - destruct (_ && _); [done|]. injection H as <-. unfold Collector_Snapshot. destruct (drained c); [done|].
    destruct (_ <? _); cbn; [|done]. rewrite app_assoc. apply Forall_app; split; [done|]. by repeat constructor.
  - by injection H as <-.
  - by injection H as <-.
  - by injection H as <-.
  - by injection H as <-.
Qed.

Lemma behind_or_gone w at_ id n before c l e c' :
  behind w at_ id n before c l ∨ gone id c → collector_step c e = Some c' → is_restart e = false → other_request id e →
  behind w at_ id n before c' (ledger_step c l e) ∨ gone id c'.
Proof.
  intros [Hb|Hg] H Hr Ho; [|right; by eapply gone_step].
  destruct (decide (e = Process ∧ cl_current c = Some (Barrier at_ id))) as [[-> Hc]|Hn]; [|left; eapply behind_step; naive_solver].
  right. destruct Hb as (He & pre & post & counted & Hi & Hp & Hq & _). cbn in H. unfold process in H. rewrite Hc in H.
  injection H as <-. unfold gone, items in *. cbn. rewrite Hc in Hi. destruct pre as [|y pre]; cbn in Hi; injection Hi.
  - by intros ->.
  - intros _ <-. apply list.Forall_cons in Hp as [Hp _]. done.
Qed.

Lemma behind_run w at_ id n before c l evs c' l' :
  behind w at_ id n before c l ∨ gone id c → collector_run c l evs = Some (c', l') → restarts evs = 0 → Forall (other_request id) evs →
  behind w at_ id n before c' l' ∨ gone id c'.
Proof.
  revert c l. induction evs as [|e evs IH]; intros c l Hb H Hr Ho; cbn in H; [by simplify_eq|].
  destruct (collector_step c e) as [c1|] eqn:E; [|done]. cbn in H. rewrite restarts_cons in Hr. pose proof (restarts_nonneg evs).
  apply list.Forall_cons in Ho as [Ho1 Ho]. destruct (is_restart e) eqn:Er; [lia|].
  eapply IH; [eapply behind_or_gone; eauto|exact H|lia|done].
Qed.

(** *** Correctness *)

(** C8: Whatever the interleaving of writers, the analysing goroutine, snapshots,
    resets and gaps, the statistics are those of a reference count: the records
    completed since the last reset that found room, in order, split into those
    already counted and those still in the queue, the dropped ones counted as
    dropped; nothing completed before the reset is counted after it.  The queue
    never holds more than 4096 entries, and the bytes counted against the 4 MiB
    limit are exactly those of the records queued and being classified. *)
Theorem collector_exact compile parser window frames now c0 evs c completed dropped :
  NewCollector compile parser window frames now = Ok c0 → restarts evs < 2 ^ 64 →
  collector_run c0 ([], 0) evs = Some (c, (completed, dropped)) →
  (∃ counted, completed = counted ++ records_of (cl_epoch c) (items c) ∧ cl_statistics c = tally (cl_parser c) counted dropped) ∧
  cl_queuedBytes c = items_bytes (items c) ∧ cl_queuedBytes c <= byte_limit ∧ Z.of_nat (length (cl_queue c)) <= queue_limit.
Proof.
  intros H0 Hmax H. split.
  - apply (accounted_run (cl_window c0) 0) in H; [|by eapply NewCollector_accounted|lia|lia]. destruct H as [He _ (counted & Hc & Hs & _)]. rewrite He. by exists counted.
  - eapply (collector_run_invariant bounded) in H; [by destruct H|exact bounded_step|by eapply NewCollector_bounded].
Qed.

(** C39: A snapshot sees exactly what was completed before it was requested.  When
    the goroutine reaches the barrier, however late, the statistics and the window
    have counted every record that found room before the request (since the last
    reset) and none completed after it: the window is the first one after a
    sequence of operations whose additions since the last reset are those records
    in order of completion, each with its own time, severity and channel, and
    whose drops are as many as were lost.  The summary published for the request is
    the snapshot of that window at the time of the request. *)
Theorem snapshot_barrier compile parser window frames now c0 evs1 c1 completed dropped at_ id evs2 c2 l2 :
  NewCollector compile parser window frames now = Ok c0 → restarts evs1 < 2 ^ 64 →
  collector_run c0 ([], 0) evs1 = Some (c1, (completed, dropped)) →
  drained c1 = false → Z.of_nat (length (cl_queue c1)) < queue_limit → Forall (other_result id) (items c1) →
  collector_run c1 (completed, dropped) (TakeSnapshot at_ id :: evs2) = Some (c2, l2) →
  restarts evs2 = 0 → Forall (other_request id) evs2 → cl_current c2 = Some (Barrier at_ id) →
  cl_statistics c2 = tally (cl_parser c2) completed (snd l2) ∧
  ∃ ops c3, history_of ops = (added (cl_parser c2) <$> completed, snd l2) ∧ collector_step c2 Process = Some c3 ∧
    cl_results c3 = cl_results c2 ++ [(id, Snapshot (foldl step (cl_window c0) ops) at_)].
Proof.
  intros H0 Hmax H1 Hf Hq Hid H2 Hr Ho Hc.
  apply (accounted_run (cl_window c0) 0) in H1; [|by eapply NewCollector_accounted|lia|lia].
  destruct H1 as [He _ (counted & Hl & Hs)]. cbn [fst snd] in *.
  cbn [collector_run collector_step] in H2. destruct (_ && _); [done|]. cbn [mbind option_bind ledger_step] in H2.
  unfold Collector_Snapshot in H2. rewrite Hf in H2. destruct (Z.ltb_spec (Z.of_nat (length (cl_queue c1))) queue_limit); [|lia].
  eapply (behind_run (cl_window c0) at_ id (0 + restarts evs1) completed) in H2; [|left|done|done].
  - destruct H2 as [(_ & pre & post & counted' & Hi & Hp & _ & Hb & Hs' & ops & Hw & Hh)|Hg].
    + unfold items in Hi. rewrite Hc in Hi. destruct pre as [|y pre]; cbn in Hi; injection Hi.
      * intros _. cbn in Hb. rewrite app_nil_r in Hb. subst. split; [done|]. exists ops. cbn. unfold process. rewrite Hc, Hw. eauto.
      * intros _ <-. by apply list.Forall_cons in Hp as [Hp _].
    + unfold gone, items in Hg. rewrite Hc in Hg. by apply list.Forall_cons in Hg as [Hg _].
  - split; [done|]. exists (items c1), [], counted. unfold items in *. cbn. rewrite app_assoc. done.
Qed.
