(* ===== verification/LogExamples.v ===== *)
(** * Concrete log streams

    A three-second window and a framer, with the theorems on windows, summaries
    and framing applied where every hypothesis is computed; then records
    classified and a collector at work. *)

From S2P Require Import Prelude GoText GoFloat GoJson GoRegexp LogWindow LogWindowFacts LogSummaryFacts LogFrame LogClassify LogClassifyFacts LogCollector.

Definition small_window : WindowConfig := {| wc_Window := 3 * Second; wc_MinEvents := 2; wc_MinCoverage := S754_zero false |}.
Definition moment (seconds : Z) : time := from_unix_nano (seconds * Second).
Definition at_level (level : Z) : Classification := {| Level := level; Invalid := false; Blank := false |}.

Definition empty_window : LogWindow.Window :=
  match NewWindow small_window (moment 100) with
  | Ok w => w
  | Err _ => {| w_config := small_window; w_started := 0; w_last := 0; w_gapUntil := 0; w_buckets := [] |}
  end.
Lemma empty_window_new : NewWindow small_window (moment 100) = Ok empty_window.
Proof. vm_compute. reflexivity. Qed.

Definition traffic : list op :=
  [OAdd (moment 101) (at_level Info) "stdout"; OAdd (moment 102) (at_level Error) "stderr"; OAdd (moment 101) (at_level Warning) "stdout";
   OAdd (moment 103) (at_level Info) "stdout"; OAdd (moment 104) (at_level Fatal) "other"].

Example traffic_summary :
  let s := Snapshot (foldl step empty_window traffic) (moment 104) in
  (sm_Total s, sm_Warnings s, sm_Errors s, sm_Stdout s, sm_Ready s) = (4, 1, 1, 3, true).
Proof. vm_compute. reflexivity. Qed.

Lemma snapshot_exact_witness :
  let l := log_run (log_start empty_window (moment 100)) traffic in
  let s := Snapshot (lg_window l) (moment 104) in
  sm_Total s = 4 ∧ sm_Total s = sum_entries weigh_record (covered s (lg_journal l)).
Proof.
  intros l s. split; [vm_compute; reflexivity|].
  apply (snapshot_exact small_window (moment 100) empty_window traffic (moment 104) empty_window_new).
  - vm_compute. reflexivity.
  - vm_compute. discriminate.
Defined.

Lemma loss_visible_witness :
  let s := Snapshot (foldl step (step empty_window (ODrop (moment 102))) traffic) (moment 105) in
  sm_Ready s = false ∧ sm_Complete s = false ∧ sm_Reason s = "collection_gap".
Proof.
  apply (loss_visible empty_window (ODrop (moment 102)) (moment 102) traffic (moment 105)).
  - vm_compute. reflexivity.
  - vm_compute. reflexivity.
  - vm_compute. discriminate.
Defined.

(** A session begun at second 101 trusts the window that starts there; one begun
    later does not yet. *)
Lemma Assess_agrees_with_Snapshot_witness :
  let s := Snapshot (foldl step empty_window traffic) (moment 104) in
  sm_Ready s = true ∧ (∃ s', Assess s small_window (moment 101) (moment 104) = Ok s' ∧ sm_Ready s' = true ∧ sm_ErrorRatio s' = sm_ErrorRatio s) ∧
  ∃ s', Assess s small_window (moment 102) (moment 104) = Ok s' ∧ sm_Ready s' = false.
Proof.
  intros s. split; [vm_compute; reflexivity|].
  assert (H : ∀ begun, _) by (intros begun; refine (Assess_agrees_with_Snapshot small_window (moment 100) empty_window traffic (moment 104) begun (moment 104) empty_window_new _ _ _ _);
    [vm_compute; reflexivity|vm_compute; reflexivity|vm_compute; discriminate|vm_compute; reflexivity]).
  split.
  - destruct (H (moment 101)) as (s' & Ha & Hr & _ & _ & _ & _ & He). exists s'. split; [exact Ha|]. split; [rewrite Hr; vm_compute; reflexivity|rewrite He; vm_compute; reflexivity].
  - destruct (H (moment 102)) as (s' & Ha & Hr & _). exists s'. split; [exact Ha|]. rewrite Hr. vm_compute. reflexivity.
Defined.

(** ** Framing *)

Definition line_mode : FrameConfig := {| fc_Mode := "line"; fc_Start := ""; fc_Continue := ""; fc_MaxLines := 0; fc_FlushAfter := "" |}.
(** Patterns that match a prefix. *)
Definition prefix_pattern (p : string) : option (string → bool) := Some (fun s => HasPrefix s p).

Definition line_framer : Framer := NewFramer <| f_carriageReturn := false |>.
Lemma line_framer_new : NewConfiguredFramer prefix_pattern line_mode = Ok line_framer.
Proof. reflexivity. Qed.

Definition pieces : list string := ["star"; "t" ++ newline ++ "se"; "cond" ++ newline; newline; "tail"].

Definition written : Framer := match write_all_chunks line_framer pieces with Ok f => f | Err _ => line_framer end.

Lemma line_mode_records_witness :
  f_emitted (Close written) = [("start", false); ("second", false); ("", false); ("tail", false)].
Proof.
  rewrite (line_mode_records prefix_pattern line_mode line_framer pieces written); [vm_compute; reflexivity|discriminate|reflexivity|].
  vm_compute. reflexivity.
Defined.

Lemma Write_boundaries_witness : write_all_chunks line_framer pieces = Write line_framer (str_app_list pieces).
Proof.
  apply (Write_boundaries line_framer pieces); [|reflexivity].
  exact (NewConfiguredFramer_ok _ _ _ line_framer_new).
Defined.

Lemma framer_bounded_witness :
  len (f_buf (foldl frame_step line_framer [FWrite "partial"; FTimer 0; FWrite newline; FClose])) <= 65536.
Proof.
  apply (framer_bounded prefix_pattern line_mode line_framer [FWrite "partial"; FTimer 0; FWrite newline; FClose] line_framer_new).
Defined.

(** * Concrete records through the classifier and the collector *)

#[local] Open Scope list_scope.
#[local] Open Scope Z_scope.

(** ** Classification *)


(** Overlapping rules. *)
Definition rules_config : ParserConfig :=
  {| pc_Format := "text"; pc_LevelField := ""; pc_Patterns := {[ "error" := "failed"; "warning" := "failed: retry" ]}; pc_LevelMap := ∅ |}.
Definition rules_parser : Parser :=
  match NewParser prefix_pattern rules_config with Ok p => p | Err _ => {| pr_config := rules_config; pr_patterns := [] |} end.

Lemma highest_rule_wins_witness : Error <= Level (classify_text (pr_patterns rules_parser) "failed: retry").
Proof.
  refine (proj1 (highest_rule_wins prefix_pattern rules_config rules_parser "failed: retry" "error" "failed" _ _ _ _ _ _)).
  - vm_compute. reflexivity.
  - unfold severity_names. set_solver.
  - vm_compute. reflexivity.
  - vm_compute. reflexivity.
  - vm_compute. reflexivity.
Defined.

(** ** The collector *)

Definition minute_window : WindowConfig := {| wc_Window := 60 * Second; wc_MinEvents := 1; wc_MinCoverage := of_int 0 |}.
Definition first_window : Window :=
  {| w_config := minute_window; w_started := 0; w_last := 0; w_gapUntil := 0; w_buckets := [] |}.
Definition fresh_collector : Collector :=
  match NewCollector prefix_pattern rules_config minute_window [] (100 * Second) with
  | Ok c => c
  | Err _ => mkCollector first_window rules_parser line_framing [] None 0 0 no_statistics false []
  end.
Lemma fresh_collector_ok : NewCollector prefix_pattern rules_config minute_window [] (100 * Second) = Ok fresh_collector.
Proof. reflexivity. Qed.

(** A record of the session before a reset, two records, a snapshot, and a record
    completed while the snapshot waits. *)
Definition before_snapshot : list event :=
  [Complete (101 * Second) "stdout" "failed: old" false; Restart (102 * Second); Receive;
   Complete (103 * Second) "stdout" "failed: retry" false; Complete (103 * Second) "stderr" "plain" false].
Definition snapshot_time : time := 104 * Second.
Definition after_request : list event :=
  [Process; Receive; Complete (105 * Second) "stdout" "failed: later" false; Process; Receive; Process; Receive].

Definition outcome (evs : list event) : Collector * ledger := default (fresh_collector, ([], 0)) (collector_run fresh_collector ([], 0) evs).
Definition requested : Collector * ledger := outcome before_snapshot.
Definition answered : Collector * ledger := outcome (before_snapshot ++ TakeSnapshot snapshot_time 7 :: after_request).

Lemma collector_exact_witness :
  (∃ counted, fst (snd answered) = counted ++ records_of (cl_epoch (fst answered)) (items (fst answered)) ∧
    cl_statistics (fst answered) = tally (cl_parser (fst answered)) counted (snd (snd answered))) ∧
  length (fst (snd answered)) = 3%nat.
Proof.
  split; [|by vm_compute].
  apply (collector_exact prefix_pattern rules_config minute_window [] (100 * Second) fresh_collector
    (before_snapshot ++ TakeSnapshot snapshot_time 7 :: after_request)).
  - exact fresh_collector_ok.
  - vm_compute. reflexivity.
  - vm_compute. reflexivity.
Defined.

Lemma snapshot_barrier_witness :
  st_Records (cl_statistics (fst answered)) = 2 ∧ st_Errors (cl_statistics (fst answered)) = 1 ∧
  length (fst (snd requested)) = 2%nat ∧ length (fst (snd answered)) = 3%nat ∧
  ∃ ops c3, history_of ops = (added (cl_parser (fst answered)) <$> fst (snd requested), snd (snd answered)) ∧
    collector_step (fst answered) Process = Some c3 ∧
    cl_results c3 = cl_results (fst answered) ++ [(7, Snapshot (foldl LogWindowFacts.step (cl_window fresh_collector) ops) snapshot_time)].
Proof.
  do 4 (split; [vm_compute; reflexivity|]).
  refine (proj2 (snapshot_barrier prefix_pattern rules_config minute_window [] (100 * Second) fresh_collector before_snapshot
    (fst requested) (fst (snd requested)) (snd (snd requested)) snapshot_time 7 after_request (fst answered) (snd answered)
    fresh_collector_ok _ _ _ _ _ _ _ _ _)).
  - vm_compute. reflexivity.
  - vm_compute. reflexivity.
  - vm_compute. reflexivity.
  - vm_compute. reflexivity.
  - vm_compute. repeat constructor.
  - vm_compute. reflexivity.
  - vm_compute. reflexivity.
  - vm_compute. repeat constructor; lia.
  - vm_compute. reflexivity.
Defined.
