(* ===== verification/Plan.v ===== *)
(** * Compilation of definitions: [internal/plan/compile.go], [internal/plan/logs.go]

    Defaults, validation and normalisation of watches and destinations.  What
    the compiler asks of other packages is a parameter: whether a message
    template parses, a jq program compiles, a user's regular expression
    compiles, and what [url.Parse] says of a URL. *)
From S2P Require Import Prelude GoText GoFloat GoTime GoJson Sha256 Watch Numeric Evaluator LogWindow LogFrame LogClassify.

(** ** Names *)

Definition is_alpha (c : ascii) : bool := in_range 65 90 c || in_range 97 122 c.
Definition is_alnum (c : ascii) : bool := is_alpha c || is_digit c.

(** [^[a-zA-Z0-9][a-zA-Z0-9._-]{0,127}$] *)
Definition identifier (s : string) : bool :=
  match s with
  | "" => false
  | String c r => is_alnum c && (len r <=? 127) && str_forallb (fun c => is_alnum c || bool_decide (c ∈ ["."%char; "_"%char; "-"%char])) r
  end.

(** [^[A-Za-z_][A-Za-z0-9_]*$] *)
Definition envName (s : string) : bool :=
  match s with
  | "" => false
  | String c r => (is_alpha c || (c ≟ "_"%char)) && str_forallb (fun c => is_alnum c || (c ≟ "_"%char)) r
  end.

(** [^[A-Za-z_][A-Za-z0-9_.-]{0,127}$] *)
Definition fieldName (s : string) : bool :=
  match s with
  | "" => false
  | String c r => (is_alpha c || (c ≟ "_"%char)) && (len r <=? 127)
                  && str_forallb (fun c => is_alnum c || bool_decide (c ∈ ["_"%char; "."%char; "-"%char])) r
  end.

Record URL := { u_Scheme : string; u_Host : string; u_Hostname : string; u_User : bool; u_Fragment : string }.

Record Compiled := { cp_Definition : Definition_; cp_Revision : string; cp_Fingerprint : string; cp_Permissions : list string }.
Record CompiledDestination := { cd_Definition : Destination; cd_Revision : string }.

Definition Day : duration := 24 * Hour.

(** ** Shared checks *)

Definition header (version kind : string) (m : Metadata) (want : string) : result unit :=
  fail_if (negb (version ≟ APIVersion) || negb (kind ≟ want)) "expected another resource" ;;
  fail_if (negb (identifier (md_ID m))) "metadata.id must be a stable 1..128 character identifier" ;;
  fail_if (256 <? len (md_Name m)) "metadata.name exceeds 256 bytes".

Definition duration_in (value : string) (lo hi : duration) : result duration :=
  match ParseDuration value with
  | Ok d => fail_if ((d <? lo) || (hi <? d)) "duration out of range" ;; Ok d
  | Err _ => Err "duration out of range"
  end.

Definition validRef (ref : option SecretRef) : bool :=
  match ref with Some r => envName (Env r) | None => false end.

Definition ContainsByte (z : Z) (s : string) : bool := str_existsb (fun c => zb c =? z) s.

Definition refs (m : gmap string SecretRef) : result unit :=
  fail_if (existsb (fun kv : string * SecretRef =>
             (fst kv ≟ "") || ContainsByte 13 (fst kv) || ContainsByte 10 (fst kv) || negb (validRef (Some (snd kv)))) (map_to_list m))
    "invalid secret reference".

Definition scalar (v : value) : bool := match v with VArray _ | VObject _ => false | _ => true end.

(** [filepath.IsAbs] on Unix *)
Definition IsAbs (path : string) : bool := HasPrefix path "/".

Definition set_if_empty (s default_ : string) : string := if s ≟ "" then default_ else s.
Definition set_if_zero (n default_ : Z) : Z := if n =? 0 then default_ else n.

(** One of [normalizeDurations]'s strings. *)
Definition normal_duration (s : string) : string :=
  if s ≟ "" then s else Duration_String (duration_or_zero s).

Definition ValidEventType (s : string) : bool :=
  bool_decide (s ∈ ["firing"; "recovered"; "changed"; "new-event"; "source_error"; "source_recovered"; "gap"; "state_reset";
                    "paused"; "resumed"; "deleted"; "expired"]).

Definition ExecutionPermissions (sourceType : string) : list string :=
  if sourceType ≟ "http" then ["http-read"]
  else if sourceType ≟ "command" then ["local-command (trusted configuration; not sandboxed)"]
  else if sourceType ≟ "push" then ["authenticated-ingest"]
  else if sourceType ≟ "logs" then ["authenticated-log-input"]
  else [].

Definition nonempty {A : Type} (l : list A) : bool := negb (length l =? 0)%nat.
Definition nonempty_map {A : Type} (m : gmap string A) : bool := negb (size m =? 0)%nat.
Definition present {A : Type} (o : option A) : bool := match o with Some _ => true | None => false end.

(** [validateNumeric]: the atoms of the expression, split at the delimiters. *)
Fixpoint split_atoms (fuel : nat) (rest : string) : list string :=
  match fuel with
  | O => [rest]
  | S fuel =>
      match next_delim rest with
      | None => [rest]
      | Some (i, _, n) => str_take i rest :: split_atoms fuel (str_drop (i + n) rest)
      end
  end.

Definition valid_atom (atom : string) : result unit :=
  c ← ParseCondition (TrimSpace atom);
  fail_if (IsInf (Literal c) || IsNaN (Literal c)) "numeric literal must be finite" ;;
  fail_if (RunBounded c || (Windowed c && ((Numeric.Window c <=? 0) || (30 * Day <? Numeric.Window c))))
    "numeric window must be positive and at most 30 days".

Fixpoint each {A : Type} (f : A → result unit) (l : list A) : result unit :=
  match l with [] => Ok tt | x :: l => f x ;; each f l end.

Definition validateNumeric (expr : string) : result unit :=
  ParseExpression expr ;; each valid_atom (split_atoms (String.length expr) expr).

(** ** Sources *)

Definition valid_args (argv : list string) : bool :=
  forallb (fun arg => negb (ContainsByte 0 arg) && (len arg <=? 8192)) argv.

Definition valid_env_names (env : gmap string SecretRef) : bool := forallb (fun kv : string * SecretRef => envName (fst kv)) (map_to_list env).

(** [argv] is explicit and bounded. *)
Definition explicit_argv (argv : list string) : bool :=
  match argv with [] => false | a :: _ => negb (a ≟ "") && (Z.of_nat (length argv) <=? 100) end.

Definition compileLogInput (i : LogInput) : result LogInput :=
  if li_Type i ≟ "external" then
    fail_if (negb (li_Path i ≟ "") || negb (li_Start i ≟ "") || nonempty (li_Argv i) || negb (li_Directory i ≟ "")
             || nonempty_map (li_Env i) || negb (li_ReconnectEvery i ≟ ""))
      "external logs do not accept file or command settings" ;;
    Ok i
  else if li_Type i ≟ "file" then
    fail_if (negb (IsAbs (li_Path i)) || ContainsByte 0 (li_Path i) || nonempty (li_Argv i) || negb (li_Directory i ≟ "")
             || nonempty_map (li_Env i) || negb (li_ReconnectEvery i ≟ ""))
      "file logs require an absolute path without command settings" ;;
    let start := set_if_empty (li_Start i) "end" in
    fail_if (negb (start ≟ "end")) "file logs support only live collection from end" ;;
    Ok {| li_Type := li_Type i; li_Path := li_Path i; li_Start := start; li_Argv := li_Argv i; li_Directory := li_Directory i;
          li_Env := li_Env i; li_ReconnectEvery := li_ReconnectEvery i |}
  else if li_Type i ≟ "command" then
    fail_if (negb (li_Path i ≟ "") || negb (li_Start i ≟ "") || negb (explicit_argv (li_Argv i)) || negb (IsAbs (li_Directory i)))
      "log reader requires explicit argv and absolute directory without file settings" ;;
    fail_if (negb (valid_args (li_Argv i))) "invalid log reader argument" ;;
    refs (li_Env i) ;;
    fail_if (negb (valid_env_names (li_Env i))) "invalid log reader environment name" ;;
    d ← duration_in (set_if_empty (li_ReconnectEvery i) "5s") (5 * Second) (5 * Minute);
    Ok {| li_Type := li_Type i; li_Path := li_Path i; li_Start := li_Start i; li_Argv := li_Argv i; li_Directory := li_Directory i;
          li_Env := li_Env i; li_ReconnectEvery := Duration_String d |}
  else Err "unsupported log input type".

Section Compile.
Context (parse_template : string → result template) (compile_jq : string → result unit)
        (compile_regexp : string → option (string → bool)) (url_parse : string → option URL).

Definition validURL (raw : string) : bool :=
  match url_parse raw with
  | None => false
  | Some u => ((u_Scheme u ≟ "http") || (u_Scheme u ≟ "https")) && negb (u_Hostname u ≟ "") && negb (u_User u)
              && (u_Fragment u ≟ "") && negb (Contains raw "${")
  end.

Definition compile_multiline (m : LogMultiline) : LogMultiline :=
  {| ml_Start := ml_Start m; ml_Continue := ml_Continue m; ml_MaxLines := set_if_zero (ml_MaxLines m) 100;
     ml_FlushAfter := set_if_empty (ml_FlushAfter m) "1s" |}.

Definition frame_config (framing : string) (m : option LogMultiline) : FrameConfig :=
  match m with
  | Some m => {| fc_Mode := framing; fc_Start := ml_Start m; fc_Continue := ml_Continue m; fc_MaxLines := ml_MaxLines m;
                 fc_FlushAfter := ml_FlushAfter m |}
  | None => {| fc_Mode := framing; fc_Start := ""; fc_Continue := ""; fc_MaxLines := 0; fc_FlushAfter := "" |}
  end.

(** [compileLogs] on [source.logs]. *)
Definition compile_log_source (c : LogSource) : result LogSource :=
  let i := ls_Input c in
  input ← compileLogInput {| li_Type := set_if_empty (li_Type i) "external"; li_Path := li_Path i; li_Start := li_Start i;
            li_Argv := li_Argv i; li_Directory := li_Directory i; li_Env := li_Env i; li_ReconnectEvery := li_ReconnectEvery i |};
  let format := set_if_empty (ls_Format c) "auto" in
  let levelField := set_if_empty (ls_LevelField c) "level" in
  let profile := set_if_empty (ls_TextProfile c) "common" in
  let framing := set_if_empty (ls_Framing c) "line" in
  let window := set_if_empty (ls_Window c) "60s" in
  retention ← duration_in (set_if_empty (ls_Retention c) "1h") Minute (7 * Day);
  let emitEvery := set_if_empty (ls_EmitEvery c) "1s" in
  let minEvents := set_if_zero (ls_MinEvents c) 100 in
  fail_if (negb (profile ≟ "common") || negb (emitEvery ≟ "1s")) "logs requires common text profile and emitEvery: 1s" ;;
  let multi := compile_multiline <$> ls_Multiline c in
  fail_if ((format ≟ "jsonl") && (framing ≟ "multiline")) "JSONL uses one object per line" ;;
  NewConfiguredFramer compile_regexp (frame_config framing multi) ;;
  NewParser compile_regexp {| pc_Format := format; pc_LevelField := levelField; pc_Patterns := ls_Patterns c; pc_LevelMap := ls_LevelMap c |} ;;
  w ← match ParseDuration window with Ok w => Ok w | Err _ => Err "invalid log window" end;
  NewWindow {| wc_Window := w; wc_MinEvents := minEvents; wc_MinCoverage := ls_MinCoverage c |} zero_time ;;
  Ok {| ls_Input := input; ls_Format := format; ls_LevelField := levelField; ls_Patterns := ls_Patterns c;
        ls_LevelMap := ls_LevelMap c; ls_TextProfile := profile; ls_Framing := framing; ls_Multiline := multi;
        ls_Window := Duration_String w; ls_Retention := Duration_String retention; ls_EmitEvery := emitEvery;
        ls_MinEvents := minEvents; ls_MinCoverage := ls_MinCoverage c |}.

Definition with_logs (s : Source) (l : LogSource) : Source :=
  {| s_Logs := Some l; s_ObservedAtField := s_ObservedAtField s; s_Type := s_Type s; s_URL := s_URL s; s_URLRef := s_URLRef s;
     s_Every := s_Every s; s_Timeout := s_Timeout s; s_Headers := s_Headers s; s_Fields := s_Fields s; s_ItemsPath := s_ItemsPath s;
     s_JQ := s_JQ s; s_Argv := s_Argv s; s_Directory := s_Directory s; s_Env := s_Env s |}.

Definition compileLogs (s : Source) : result Source :=
  match s_Logs s with
  | None => Err "logs requires source.logs and does not accept polling or projection fields"
  | Some c =>
      fail_if (negb (s_URL s ≟ "") || present (s_URLRef s) || nonempty (s_Argv s) || negb (s_Directory s ≟ "")
               || nonempty_map (s_Env s) || nonempty_map (s_Headers s) || negb (s_JQ s ≟ "") || nonempty_map (s_Fields s)
               || negb (s_Every s ≟ "") || negb (s_Timeout s ≟ "") || negb (s_ObservedAtField s ≟ ""))
        "logs requires source.logs and does not accept polling or projection fields" ;;
      with_logs s <$> compile_log_source c
  end.

Definition check_http (s : Source) : result unit :=
  fail_if (Bool.eqb (s_URL s ≟ "") (negb (present (s_URLRef s)))) "HTTP source requires exactly one of url or urlRef" ;;
  fail_if (negb (s_URL s ≟ "") && negb (validURL (s_URL s))) "invalid HTTP URL (use secret references for credentials)" ;;
  fail_if (present (s_URLRef s) && negb (validRef (s_URLRef s))) "invalid URL secret reference" ;;
  fail_if (nonempty (s_Argv s) || negb (s_Directory s ≟ "") || nonempty_map (s_Env s)) "command fields are invalid for HTTP source".

Definition check_command (s : Source) : result unit :=
  fail_if (negb (explicit_argv (s_Argv s)) || (s_Directory s ≟ "") || negb (IsAbs (s_Directory s)))
    "command requires explicit argv and absolute directory" ;;
  fail_if (negb (valid_args (s_Argv s))) "invalid command argument" ;;
  fail_if (negb (s_URL s ≟ "") || present (s_URLRef s) || nonempty_map (s_Headers s)) "HTTP fields are invalid for command source" ;;
  refs (s_Env s) ;;
  fail_if (negb (valid_env_names (s_Env s))) "invalid environment name".

Definition check_push (s : Source) : result unit :=
  fail_if (negb (s_URL s ≟ "") || present (s_URLRef s) || nonempty (s_Argv s) || negb (s_Directory s ≟ "") || negb (s_Every s ≟ "")
           || negb (s_Timeout s ≟ "") || nonempty_map (s_Env s) || nonempty_map (s_Headers s))
    "push does not accept polling or command fields".

(** Logs evaluate one ungrouped stream. *)
Definition check_logs_spec (sp : Spec) : result unit :=
  let c := sp_Condition sp in
  fail_if (nonempty (sp_GroupBy sp) || nonempty_map (sp_Match sp) || negb (c_Numeric c ≟ "") || negb (c_MissingFor c ≟ "")
           || (c_Operator c ≟ "changed") || (c_Operator c ≟ "new-event"))
    "logs evaluates scalar summary fields for one stream without grouping or filtering".

(** The switch on the source type. *)
Definition compile_source_type (sp : Spec) : result Source :=
  let s := sp_Source sp in
  fail_if (present (s_Logs s) && negb (s_Type s ≟ "logs")) "source.logs belongs to log sources" ;;
  if s_Type s ≟ "logs" then s' ← compileLogs s; check_logs_spec sp ;; Ok s'
  else if s_Type s ≟ "http" then check_http s ;; Ok s
  else if s_Type s ≟ "command" then check_command s ;; Ok s
  else if s_Type s ≟ "push" then check_push s ;; Ok s
  else Err "unsupported source type".

Definition with_polling (s : Source) (every timeout : string) : Source :=
  {| s_Logs := s_Logs s; s_ObservedAtField := s_ObservedAtField s; s_Type := s_Type s; s_URL := s_URL s; s_URLRef := s_URLRef s;
     s_Every := every; s_Timeout := timeout; s_Headers := s_Headers s; s_Fields := s_Fields s; s_ItemsPath := s_ItemsPath s;
     s_JQ := s_JQ s; s_Argv := s_Argv s; s_Directory := s_Directory s; s_Env := s_Env s |}.

Definition polls (s : Source) : bool := negb (s_Type s ≟ "push") && negb (s_Type s ≟ "logs").

(** Polling defaults and bounds. *)
Definition compile_polling (s : Source) : result Source :=
  if polls s then
    let every := set_if_empty (s_Every s) "5s" in
    let timeout := set_if_empty (s_Timeout s) "2s" in
    duration_in every Second (24 * Hour) ;;
    duration_in timeout Millisecond (5 * Minute) ;;
    Ok (with_polling s every timeout)
  else Ok s.

(** Headers, selected fields and projection. *)
Definition check_projection (s : Source) : result unit :=
  refs (s_Headers s) ;;
  fail_if (negb (s_ObservedAtField s ≟ "") && negb (fieldName (s_ObservedAtField s))) "observedAtField must name a selected field" ;;
  fail_if (100 <? Z.of_nat (size (s_Fields s))) "too many selected fields" ;;
  fail_if (negb (forallb (fun kv : string * string => fieldName (fst kv) && fieldName (snd kv)) (map_to_list (s_Fields s))))
    "selected fields require simple dotted paths" ;;
  fail_if (negb (s_ItemsPath s ≟ "") && (negb (fieldName (s_ItemsPath s)) || negb (s_JQ s ≟ "")))
    "itemsPath requires a simple dotted path and cannot be combined with jq" ;;
  if s_JQ s ≟ "" then Ok tt
  else fail_if (8192 <? len (s_JQ s)) "jq exceeds 8192 bytes" ;; compile_jq (s_JQ s).

(** ** Conditions *)

Definition with_field (c : Condition) (field : string) : Condition :=
  {| c_Field := field; c_Operator := c_Operator c; c_Value := c_Value c; c_Numeric := c_Numeric c; c_MissingFor := c_MissingFor c;
     c_DedupFor := c_DedupFor c |}.

(** The operator of a field condition and its value. *)
Definition check_operator (c : Condition) : result unit :=
  let op := c_Operator c in
  if (op ≟ "eq") || (op ≟ "ne") then fail_if (negb (scalar (c_Value c))) "comparison value must be a scalar"
  else if (op ≟ "gt") || (op ≟ "gte") || (op ≟ "lt") || (op ≟ "lte")
  then fail_if (match c_Value c with VFloat _ => false | _ => true end) "ordered comparison requires a numeric value"
  else if op ≟ "changed" then
    fail_if (negb (c_Value c ≟ VNil) || negb (c_DedupFor c ≟ "")) "changed takes no value or dedup horizon"
  else if op ≟ "new-event" then
    fail_if (negb (c_Value c ≟ VNil)) "new-event takes no comparison value" ;;
    duration_in (c_DedupFor c) Second (7 * Day) ;; Ok tt
  else Err "unsupported condition operator".

Definition compile_condition (c : Condition) : result Condition :=
  fail_if (negb (c_DedupFor c ≟ "") && negb (c_Operator c ≟ "new-event")) "dedupFor belongs to new-event conditions" ;;
  c ← (if negb (c_Numeric c ≟ "") then
         fail_if (negb (c_Operator c ≟ "") || negb (c_Value c ≟ VNil) || negb (c_MissingFor c ≟ "") || negb (c_DedupFor c ≟ ""))
           "numeric conditions cannot mix typed operators" ;;
         fail_if (Contains (c_Numeric c) "run") "run-lifetime aggregation is unsupported" ;;
         fail_if (4096 <? len (c_Numeric c)) "numeric expression too large" ;;
         validateNumeric (c_Numeric c) ;;
         Ok (with_field c (set_if_empty (c_Field c) "value"))
       else if negb (c_MissingFor c ≟ "") then
         fail_if (negb (c_Field c ≟ "") || negb (c_Operator c ≟ "") || negb (c_Value c ≟ VNil) || negb (c_DedupFor c ≟ ""))
           "missing-data condition cannot mix field conditions" ;;
         duration_in (c_MissingFor c) Second (30 * Day) ;;
         Ok c
       else
         fail_if (negb (fieldName (c_Field c))) "condition.field is required" ;;
         check_operator c ;;
         Ok c);
  fail_if (negb (c_Field c ≟ "") && negb (fieldName (c_Field c))) "invalid condition field" ;;
  Ok c.

(** ** Policy *)

Definition policy_defaults (p : Policy) : Policy :=
  {| p_Trigger := set_if_empty (p_Trigger p) "transition"; p_Consecutive := set_if_zero (p_Consecutive p) 1;
     p_RecoverAfter := set_if_zero (p_RecoverAfter p) 1; p_OnUnknown := set_if_empty (p_OnUnknown p) "hold-incident";
     p_Interval := p_Interval p; p_MaxGap := p_MaxGap p |}.

Definition with_gap (p : Policy) (gap : string) : Policy :=
  {| p_Trigger := p_Trigger p; p_Consecutive := p_Consecutive p; p_RecoverAfter := p_RecoverAfter p; p_OnUnknown := p_OnUnknown p;
     p_Interval := p_Interval p; p_MaxGap := gap |}.

(** The gap defaults to two polling periods. *)
Definition gap_policy (every : string) (p : Policy) : Policy :=
  if (p_MaxGap p ≟ "") && negb (every ≟ "") then with_gap p (Duration_String (duration_or_zero every * 2)) else p.

Definition compile_policy (every : string) (c : Condition) (p : Policy) : result Policy :=
  let p := policy_defaults p in
  fail_if (negb (p_Trigger p ≟ "transition") && negb (p_Trigger p ≟ "level")) "trigger must be transition or level" ;;
  fail_if ((p_Consecutive p <? 1) || (10000 <? p_Consecutive p) || (p_RecoverAfter p <? 1) || (10000 <? p_RecoverAfter p)
           || negb (p_OnUnknown p ≟ "hold-incident")) "invalid count or unknown policy" ;;
  (if p_Trigger p ≟ "level" then duration_in (p_Interval p) 0 (30 * Day) ;; Ok tt
   else fail_if (negb (p_Interval p ≟ "")) "interval belongs to level policy") ;;
  let p := gap_policy every p in
  (if p_MaxGap p ≟ "" then Ok tt else duration_in (p_MaxGap p) Second (30 * Day) ;; Ok tt) ;;
  fail_if (negb (c_MissingFor c ≟ "") && (negb (p_Trigger p ≟ "transition") || negb (p_Consecutive p =? 1) || negb (p_RecoverAfter p =? 1)))
    "missingFor requires transition policy with consecutive=1 and recoverAfter=1" ;;
  fail_if (signal_operator (c_Operator c) && (negb (p_Trigger p ≟ "level") || negb (p_Consecutive p =? 1)))
    "change/event conditions require level policy with consecutive=1" ;;
  Ok p.

(** ** Grouping, matching, message, limits *)

(** Adjacent duplicates of a sorted list. *)
Fixpoint adjacent_dup (l : list string) : bool :=
  match l with
  | a :: (b :: _) as r => (a ≟ b) || adjacent_dup r
  | _ => false
  end.

Definition compile_group (l : list string) : result (list string) :=
  fail_if (16 <? Z.of_nat (length l)) "too many grouping fields" ;;
  let l := sort_strings l in
  fail_if (negb (forallb fieldName l) || adjacent_dup l) "invalid/duplicate grouping field" ;;
  Ok l.

Definition check_match (m : fields) : result unit :=
  fail_if (negb (forallb (fun kv : string * value => fieldName (fst kv) && scalar (snd kv)) (map_to_list m)))
    "match must contain typed scalar fields".

Definition check_message (message : string) : result unit :=
  fail_if (8192 <? len message) "message too long" ;;
  parse_template message ;; Ok tt.

Definition limit_defaults (l : Limits) : Limits :=
  {| l_MaxEntities := set_if_zero (l_MaxEntities l) 1000; l_MaxSamples := set_if_zero (l_MaxSamples l) 10000;
     l_MaxBytes := set_if_zero (l_MaxBytes l) (Z.shiftl 1 20); l_MaxOutputs := set_if_zero (l_MaxOutputs l) 100;
     l_IdleTTL := set_if_empty (l_IdleTTL l) "24h" |}.

Definition compile_limits (l : Limits) : result Limits :=
  let l := limit_defaults l in
  fail_if ((l_MaxEntities l <? 1) || (10000 <? l_MaxEntities l) || (l_MaxSamples l <? 1) || (100000 <? l_MaxSamples l)
           || (l_MaxBytes l <? 1) || (Z.shiftl 1 20 <? l_MaxBytes l) || (l_MaxOutputs l <? 1) || (100 <? l_MaxOutputs l))
    "watch resource limits exceed supported bounds" ;;
  duration_in (l_IdleTTL l) Second (30 * Day) ;;
  Ok l.

(** ** Destinations of a watch *)

Definition default_events : list string := ["firing"; "recovered"; "changed"; "new-event"; "source_error"; "source_recovered"].

(** The elements are valid and, read left to right, not seen before. *)
Fixpoint all_new (seen l : list string) (valid : string → bool) : bool :=
  match l with
  | [] => true
  | x :: l => valid x && negb (bool_decide (x ∈ seen)) && all_new (x :: seen) l valid
  end.

Definition compile_target (t : Target) : result Target :=
  let events := if (length (t_Events t) =? 0)%nat then default_events else t_Events t in
  fail_if (negb (all_new [] events ValidEventType)) "unsupported/duplicate event type" ;;
  Ok {| t_Ref := t_Ref t; t_Events := sort_strings events |}.

Fixpoint compile_each (seen : list string) (l : list Target) : result (list Target) :=
  match l with
  | [] => Ok []
  | t :: l =>
      fail_if (negb (identifier (t_Ref t)) || bool_decide (t_Ref t ∈ seen)) "invalid/duplicate destination reference" ;;
      t' ← compile_target t;
      l' ← compile_each (t_Ref t :: seen) l;
      Ok (t' :: l')
  end.

Definition ref_le (a b : Target) : Prop := str_le (t_Ref a) (t_Ref b).
#[export] Instance ref_le_dec : RelDecision ref_le.
Proof. intros a b. apply str_le_dec. Defined.

(** Sorted by reference; references are distinct, so the order is unique. *)
Definition compile_targets (l : list Target) : result (list Target) :=
  fail_if (32 <? Z.of_nat (length l)) "too many destinations" ;;
  merge_sort ref_le <$> compile_each [] l.

(** ** The whole definition *)

Definition normalize_source (s : Source) : Source := with_polling s (normal_duration (s_Every s)) (normal_duration (s_Timeout s)).
Definition normalize_condition (c : Condition) : Condition :=
  {| c_Field := c_Field c; c_Operator := c_Operator c; c_Value := c_Value c; c_Numeric := c_Numeric c;
     c_MissingFor := normal_duration (c_MissingFor c); c_DedupFor := normal_duration (c_DedupFor c) |}.
Definition normalize_policy (p : Policy) : Policy :=
  {| p_Trigger := p_Trigger p; p_Consecutive := p_Consecutive p; p_RecoverAfter := p_RecoverAfter p; p_OnUnknown := p_OnUnknown p;
     p_Interval := normal_duration (p_Interval p); p_MaxGap := normal_duration (p_MaxGap p) |}.
Definition normalize_limits (l : Limits) : Limits :=
  {| l_MaxEntities := l_MaxEntities l; l_MaxSamples := l_MaxSamples l; l_MaxBytes := l_MaxBytes l; l_MaxOutputs := l_MaxOutputs l;
     l_IdleTTL := normal_duration (l_IdleTTL l) |}.

Definition compile_spec (sp : Spec) : result Spec :=
  s ← compile_source_type sp;
  s ← compile_polling s;
  check_projection s ;;
  c ← compile_condition (sp_Condition sp);
  p ← compile_policy (s_Every s) c (sp_Policy sp);
  g ← compile_group (sp_GroupBy sp);
  check_match (sp_Match sp) ;;
  check_message (sp_Message sp) ;;
  l ← compile_limits (sp_Limits sp);
  ts ← compile_targets (sp_Destinations sp);
  Ok {| sp_Source := normalize_source s; sp_Condition := normalize_condition c; sp_Policy := normalize_policy p; sp_GroupBy := g;
        sp_Match := sp_Match sp; sp_Message := sp_Message sp; sp_Destinations := ts; sp_Limits := normalize_limits l |}.

(** The text of the anonymous struct {Source, Condition, Policy, GroupBy, Match, Limits}. *)
Definition fingerprint_json (sp : Spec) : option string :=
  src ← source_json (sp_Source sp);
  cond ← condition_json (sp_Condition sp);
  mt ← MarshalFields (sp_Match sp);
  Some (object_text (always "Source" src ++ always "Condition" cond ++ always "Policy" (policy_json (sp_Policy sp))
    ++ always "GroupBy" (if nonempty (sp_GroupBy sp) then list_text (sp_GroupBy sp) else "null")
    ++ always "Match" (if nonempty_map (sp_Match sp) then mt else "null") ++ always "Limits" (limits_json (sp_Limits sp)))%list).

Definition permissions_of (s : Source) : list string :=
  match s_Logs s with
  | Some l =>
      if negb (s_Type s ≟ "logs") then ExecutionPermissions (s_Type s)
      else if li_Type (ls_Input l) ≟ "file" then ["local-file-read (trusted configuration): " ++ li_Path (ls_Input l)]
      else if li_Type (ls_Input l) ≟ "command" then ["local-log-reader (trusted configuration; not sandboxed)"]
      else ExecutionPermissions (s_Type s)
  | None => ExecutionPermissions (s_Type s)
  end.

Definition copied (d : Definition_) : result Definition_ :=
  match copy_definition d with Some d => Ok d | None => Err "json: unsupported value" end.

Definition Compile (d : Definition_) : result Compiled :=
  header (d_APIVersion d) (d_Kind d) (d_Metadata d) "Watch" ;;
  d ← copied d;
  sp ← compile_spec (d_Spec d);
  let d := {| d_APIVersion := d_APIVersion d; d_Kind := d_Kind d; d_Metadata := d_Metadata d; d_Spec := sp |} in
  rev ← revision_of (definition_json d);
  fingerprint ← revision_of (fingerprint_json sp);
  Ok {| cp_Definition := d; cp_Revision := rev; cp_Fingerprint := fingerprint; cp_Permissions := permissions_of (sp_Source sp) |}.
End Compile.

(** ** Destinations *)

Definition copy_destination (d : Destination) : Destination :=
  let s := dst_Spec d in
  {| dst_APIVersion := sanitize (dst_APIVersion d); dst_Kind := sanitize (dst_Kind d); dst_Metadata := copy_metadata (dst_Metadata d);
     dst_Spec := {| ds_Type := sanitize (ds_Type s); ds_URLRef := copy_ref <$> ds_URLRef s; ds_Headers := copy_refs (ds_Headers s);
                    ds_MaxAttempts := ds_MaxAttempts s; ds_MaxAge := sanitize (ds_MaxAge s);
                    ds_InitialBackoff := sanitize (ds_InitialBackoff s) |} |}.

Definition check_destination_type (s : DestinationSpec) : result unit :=
  if (ds_Type s ≟ "console") || (ds_Type s ≟ "desktop") then
    fail_if (present (ds_URLRef s) || nonempty_map (ds_Headers s)) "local destinations take no HTTP settings"
  else if (ds_Type s ≟ "webhook") || (ds_Type s ≟ "slack") || (ds_Type s ≟ "discord") then
    fail_if (negb (validRef (ds_URLRef s))) "HTTP destinations require urlRef.env"
  else Err "unsupported destination type".

Definition CompileDestination (d : Destination) : result CompiledDestination :=
  let d := copy_destination d in
  header (dst_APIVersion d) (dst_Kind d) (dst_Metadata d) "Destination" ;;
  let s := dst_Spec d in
  check_destination_type s ;;
  refs (ds_Headers s) ;;
  let attempts := set_if_zero (ds_MaxAttempts s) 8 in
  let age := set_if_empty (ds_MaxAge s) "24h" in
  let backoff := set_if_empty (ds_InitialBackoff s) "1s" in
  fail_if ((attempts <? 1) || (100 <? attempts)) "invalid retry attempts" ;;
  duration_in age Second (7 * Day) ;;
  duration_in backoff Millisecond Hour ;;
  let d := {| dst_APIVersion := dst_APIVersion d; dst_Kind := dst_Kind d; dst_Metadata := dst_Metadata d;
              dst_Spec := {| ds_Type := ds_Type s; ds_URLRef := ds_URLRef s; ds_Headers := ds_Headers s; ds_MaxAttempts := attempts;
                             ds_MaxAge := normal_duration age; ds_InitialBackoff := normal_duration backoff |} |} in
  Ok {| cd_Definition := d; cd_Revision := Revision (destination_json d) |}.
