(* ===== verification/PlanFacts.v ===== *)
(** * Compiled definitions are normal forms

    What [Compile] accepts it reproduces: compiling a compiled definition
    changes nothing, so revisions and fingerprints are stable identities. *)
From S2P Require Import Prelude GoText GoFloat GoTime GoJson Sha256 Watch Numeric Evaluator LogWindow LogFrame LogClassify Plan.

(** ** Text the JSON copy keeps *)

(** Concatenations of well-formed runes. *)
Definition runes (s : string) : Prop := ∃ l, Forall wf_rune l ∧ s = str_app_list l.

Lemma runes_sanitize s : runes s → sanitize s = s.
Proof.
  intros (l & Hl & ->). unfold sanitize. rewrite decode_app_list by done. rewrite map_map. cbn. by rewrite map_id.
Qed.

Lemma runes_app a b : runes a → runes b → runes (a ++ b).
Proof.
  intros (l & Hl & ->) (k & Hk & ->). exists (l ++ k)%list. rewrite str_app_list_app. split; [|done]. by apply Forall_app.
Qed.

Lemma wf_rune_ascii c : zb c < 0x80 → wf_rune (one c).
Proof.
  intros H. exists (one c), "". unfold decode1, one. apply Z.ltb_lt in H. by rewrite H.
Qed.

Lemma runes_ascii s : str_forallb (fun c => zb c <? 0x80) s = true → runes s.
Proof.
  induction s as [|c s IH]; cbn; intros H; [by exists []|]. bools.
  destruct (IH ltac:(done)) as (l & Hl & ->). exists (one c :: l). split; [|done]. constructor; [by apply wf_rune_ascii|done].
Qed.

Lemma str_forallb_mono (f g : ascii → bool) s : (∀ c, f c = true → g c = true) → str_forallb f s = true → str_forallb g s = true.
Proof. intros Hfg. induction s as [|c s IH]; cbn; [done|]. intros H. bools. rewrite Hfg, IH; done. Qed.

Lemma runes_digits s : str_forallb is_digit s = true → runes s.
Proof.
  intros H. eapply runes_ascii, str_forallb_mono, H. intros c Hc. unfold is_digit, in_range in Hc. bools. apply Z.ltb_lt. lia.
Qed.

Lemma runes_format v acc : 0 <= v → runes acc → runes (fmtInt v acc).
Proof. intros Hv Ha. apply runes_app; [|done]. by apply runes_digits, format_nat_spec. Qed.

Lemma runes_frac prec v acc : runes acc → runes (fmtFrac prec false v acc).
Proof.
  intros Ha. destruct (fmtFrac_spec prec v acc) as [[_ ->]|(p & -> & _ & Hd & _)]; [done|].
  change (String "." (p ++ acc)) with ("." ++ (p ++ acc)).
  apply runes_app; [by apply runes_ascii|]. apply runes_app; [by apply runes_digits|done].
Qed.

Lemma runes_abs u : 0 <= u → runes (duration_abs_string u).
Proof.
  intros Hu. assert (∀ k, 0 < k → 0 <= u / k) as Hk by (intros; by apply Z.div_pos).
  assert (∀ x, 0 <= x mod 60) as Hm by (intros; apply Z.mod_pos_bound; lia).
  assert (Hs : 0 <= u / 10 ^ 9) by (apply Hk; lia).
  assert (0 <= u / 10 ^ 9 / 60 / 60) by (apply Z.div_pos; [apply Z.div_pos|]; lia).
  unfold duration_abs_string. repeat case_match; try (by apply runes_ascii);
    repeat first [ apply runes_format; [first [done | apply Hm | apply Hk; lia]|] | apply runes_frac | apply runes_app; [by apply runes_ascii|] ];
    try (by apply runes_ascii).
  exists [micro_sign; "s"]. split; [|done].
  constructor; [by exists micro_sign, ""|]. constructor; [by exists "s", ""|constructor].
Qed.

Lemma Duration_String_copied d : sanitize (Duration_String d) = Duration_String d.
Proof.
  apply runes_sanitize. unfold Duration_String. destruct (Z.ltb_spec d 0).
  - change (String "-" ?s) with ("-" ++ s). apply runes_app; [by apply runes_ascii|apply runes_abs; lia].
  - by apply runes_abs.
Qed.

Lemma Duration_String_nonempty d : Duration_String d ≠ "".
Proof.
  unfold Duration_String. destruct (Z.ltb_spec d 0); [done|]. destruct (abs_string_head d) as (c & r & -> & _); done.
Qed.

Lemma identifier_copied s : identifier s = true → sanitize s = s.
Proof.
  intros H. apply runes_sanitize, runes_ascii. destruct s as [|c s]; [done|]. cbn in H |- *. bools.
  assert (Ha : ∀ c, is_alnum c = true → zb c < 128).
  { intros x Hx. unfold is_alnum, is_alpha, is_digit, in_range in Hx. repeat (apply orb_true_iff in Hx as [Hx|Hx]); bools; lia. }
  rewrite (proj2 (Z.ltb_lt _ _) (Ha c H)). eapply str_forallb_mono; [|eassumption]. intros x Hx. cbn in Hx.
  apply Z.ltb_lt. apply orb_true_iff in Hx as [Hx|Hx]; [by apply Ha|]. bools. set_unfold in Hx.
  by destruct Hx as [-> | [-> | [->|[]]]].
Qed.

(** ** Normalised durations *)

Lemma duration_or_zero_range s : is_int64 (duration_or_zero s).
Proof.
  unfold duration_or_zero. destruct (ParseDuration s) eqn:E; [by eapply ParseDuration_range|]. unfold is_int64, min_int64, max_int64. lia.
Qed.

Lemma duration_or_zero_String d : is_int64 d → duration_or_zero (Duration_String d) = d.
Proof. intros H. unfold duration_or_zero. by rewrite ParseDuration_String. Qed.

Lemma normal_duration_empty s : normal_duration s = "" ↔ s = "".
Proof.
  unfold normal_duration. case_bool_decide; [naive_solver|]. pose proof (Duration_String_nonempty (duration_or_zero s)). naive_solver.
Qed.

Lemma normal_duration_value s : duration_or_zero (normal_duration s) = duration_or_zero s.
Proof. unfold normal_duration. case_bool_decide; [done|]. apply duration_or_zero_String, duration_or_zero_range. Qed.

Lemma normal_duration_String d : is_int64 d → normal_duration (Duration_String d) = Duration_String d.
Proof.
  intros H. unfold normal_duration. rewrite bool_decide_eq_false_2 by apply Duration_String_nonempty. by rewrite duration_or_zero_String.
Qed.

Lemma normal_duration_idem s : normal_duration (normal_duration s) = normal_duration s.
Proof.
  unfold normal_duration at 2 3. case_bool_decide as E; [by subst|]. apply normal_duration_String, duration_or_zero_range.
Qed.

Lemma normal_duration_copied s : sanitize (normal_duration s) = normal_duration s.
Proof. unfold normal_duration. case_bool_decide; [by subst|]. apply Duration_String_copied. Qed.

Lemma duration_in_Ok s lo hi d : duration_in s lo hi = Ok d ↔ ParseDuration s = Ok d ∧ lo <= d <= hi.
Proof.
  unfold duration_in. destruct (ParseDuration s) as [x|]; [|naive_solver]. rewrite fail_if_bind, orb_false_iff, Z.ltb_ge, Z.ltb_ge. naive_solver.
Qed.

Lemma duration_in_normal s lo hi d : duration_in s lo hi = Ok d → duration_in (normal_duration s) lo hi = Ok d.
Proof.
  rewrite !duration_in_Ok. intros [H ?]. split; [|done]. unfold normal_duration. case_bool_decide; [by subst|].
  unfold duration_or_zero. rewrite H. by eapply ParseDuration_String, ParseDuration_range.
Qed.

Lemma duration_in_String s lo hi d : duration_in s lo hi = Ok d → duration_in (Duration_String d) lo hi = Ok d.
Proof. rewrite !duration_in_Ok. intros [H ?]. split; [|done]. by eapply ParseDuration_String, ParseDuration_range. Qed.

Lemma duration_in_nonempty s lo hi d : duration_in s lo hi = Ok d → s ≠ "".
Proof. rewrite duration_in_Ok. by intros [H _] ->. Qed.

Lemma set_if_empty_nonempty s x : s ≠ "" → set_if_empty s x = s.
Proof. intros H. unfold set_if_empty. by rewrite bool_decide_eq_false_2. Qed.

Lemma set_if_empty_idem s x : set_if_empty (set_if_empty s x) x = set_if_empty s x.
Proof. unfold set_if_empty. destruct (s ≟ "") eqn:E; [|by rewrite E]. by destruct (x ≟ ""). Qed.

Lemma set_if_zero_idem n x : set_if_zero (set_if_zero n x) x = set_if_zero n x.
Proof. unfold set_if_zero. destruct (n =? 0) eqn:E; [|by rewrite E]. by destruct (x =? 0). Qed.

Lemma set_if_empty_copied s x : sanitize s = s → sanitize x = x → sanitize (set_if_empty s x) = set_if_empty s x.
Proof. unfold set_if_empty. by case_bool_decide. Qed.

Lemma normal_duration_present s : (normal_duration s ≟ "") = (s ≟ "").
Proof. apply bool_decide_ext, normal_duration_empty. Qed.

#[export] Hint Rewrite normal_duration_idem normal_duration_value normal_duration_present set_if_empty_idem set_if_zero_idem : normal.

(** ** Stages *)

(** A guard that held the first time holds again. *)
Lemma fail_if_pass {A : Type} b msg (k : result A) : b = false → (fail_if b msg ;; k) = k.
Proof. by intros ->. Qed.

Lemma bind_pass {A B : Type} (m : result A) (f : A → result B) a : m = Ok a → (m ≫= f) = f a.
Proof. by intros ->. Qed.

(** Replay the checks of a stage whose outcome is recorded in the context. *)
Ltac replay :=
  repeat match goal with
  | H : ?b = false |- context [fail_if ?b _ ;; _] => rewrite (fail_if_pass b _ _ H)
  | H : ?m = Ok ?a |- context [?m ≫= ?f] => rewrite (bind_pass m f a H)
  | |- context [Ok ?a ≫= ?f] => change (Ok a ≫= f) with (f a); cbv beta
  end.

Lemma compileLogInput_normal i i' : compileLogInput i = Ok i' → compileLogInput i' = Ok i' ∧ li_Type i' = li_Type i.
Proof.
  unfold compileLogInput. destruct (li_Type i ≟ "external") eqn:E1; [|destruct (li_Type i ≟ "file") eqn:E2; [|destruct (li_Type i ≟ "command") eqn:E3]];
    intros H; res_inv; cbn [li_Type li_Path li_Start li_Argv li_Directory li_Env li_ReconnectEvery].
  - rewrite E1. by replay.
  - rewrite E1, E2, set_if_empty_idem. by replay.
  - rewrite E1, E2, E3. replay. rewrite set_if_empty_nonempty by apply Duration_String_nonempty.
    by rewrite (duration_in_String _ _ _ _ Ha0).
Qed.

Section Stages.
Context (parse_template : string → result template) (compile_jq : string → result unit)
        (compile_regexp : string → option (string → bool)) (url_parse : string → option URL).
Local Abbreviation log_source := (compile_log_source compile_regexp).
Local Abbreviation logs := (compileLogs compile_regexp).
Local Abbreviation source_type := (compile_source_type compile_regexp url_parse).

Lemma compile_multiline_idem m : compile_multiline (compile_multiline m) = compile_multiline m.
Proof. unfold compile_multiline. cbn. by rewrite set_if_zero_idem, set_if_empty_idem. Qed.

Lemma compile_log_source_normal c c' : log_source c = Ok c' → log_source c' = Ok c'.
Proof.
  unfold compile_log_source. cbv zeta. intros H.
  apply bind_Ok in H as (input & Hi & H). apply bind_Ok in H as (r & Hr & H).
  apply fail_if_bind in H as [H1 H]. apply fail_if_bind in H as [H2 H].
  apply bind_Ok in H as (fr & Hf & H). apply bind_Ok in H as (ps & Hp & H).
  apply bind_Ok in H as (w & Hw & H). apply bind_Ok in H as (win & Hwin & [= <-]).
  cbn [ls_Input ls_Format ls_LevelField ls_Patterns ls_LevelMap ls_TextProfile ls_Framing ls_Multiline ls_Window ls_Retention
       ls_EmitEvery ls_MinEvents ls_MinCoverage].
  destruct (compileLogInput_normal _ _ Hi) as [Hi' Ht]. cbn in Ht.
  assert (set_if_empty (li_Type input) "external" = li_Type input) as -> by (rewrite Ht; apply set_if_empty_idem).
  assert ({| li_Type := li_Type input; li_Path := li_Path input; li_Start := li_Start input; li_Argv := li_Argv input;
             li_Directory := li_Directory input; li_Env := li_Env input; li_ReconnectEvery := li_ReconnectEvery input |} = input)
    as -> by by destruct input.
  rewrite Hi'. cbn [mbind result_bind]. rewrite !set_if_empty_idem, set_if_zero_idem.
  rewrite !(set_if_empty_nonempty (Duration_String _)) by apply Duration_String_nonempty.
  rewrite (duration_in_String _ _ _ _ Hr).
  assert (compile_multiline <$> (compile_multiline <$> ls_Multiline c) = compile_multiline <$> ls_Multiline c) as ->.
  { destruct (ls_Multiline c); [|done]. cbn. by rewrite compile_multiline_idem. }
  assert (is_int64 w) as Hw64.
  { destruct (ParseDuration _) eqn:E; [|done]. injection Hw as ->. by eapply ParseDuration_range. }
  rewrite (ParseDuration_String w Hw64). cbn [mbind result_bind]. by replay.
Qed.

Lemma compileLogs_normal s s' : logs s = Ok s' → logs s' = Ok s' ∧ ∃ l, s' = with_logs s l.
Proof.
  unfold compileLogs. destruct (s_Logs s) as [c|] eqn:E; [|done]. intros H. res_inv. subst s'.
  cbn [s_Logs with_logs s_URL s_URLRef s_Argv s_Directory s_Env s_Headers s_JQ s_Fields s_Every s_Timeout s_ObservedAtField].
  replay. rewrite (compile_log_source_normal _ _ Ha). split; [done|]. by eexists.
Qed.

Lemma with_polling_same s : with_polling s (s_Every s) (s_Timeout s) = s.
Proof. by destruct s. Qed.

Lemma source_type_kind sp s : source_type sp = Ok s → s_Type s = s_Type (sp_Source sp).
Proof.
  unfold compile_source_type. cbv zeta. intros [_ H]%fail_if_bind. repeat (case_bool_decide; [res_inv; try done|]); try done.
  destruct (compileLogs_normal _ _ Ha) as [_ [l ->]]. done.
Qed.

(** The second pass sees the normalised polling durations and the compiled
    condition; sources that do not poll have none. *)
Lemma compile_source_type_normal sp sp' s e t :
  source_type sp = Ok s → sp_Source sp' = with_polling s e t → (polls s = false → e = s_Every s ∧ t = s_Timeout s) →
  (check_logs_spec sp = Ok tt → check_logs_spec sp' = Ok tt) → source_type sp' = Ok (sp_Source sp').
Proof.
  intros H Hs Hp Hl. pose proof (source_type_kind _ _ H) as Hk. revert H. unfold compile_source_type. cbv zeta.
  rewrite Hs. intros [H0 H]%fail_if_bind. cbn [s_Logs s_Type with_polling]. unfold polls in Hp. rewrite Hk in *.
  case_bool_decide as E1; [|case_bool_decide as E2; [|case_bool_decide as E3; [|case_bool_decide as E4; [|done]]]].
  - destruct Hp as [-> ->]; [by rewrite E1|]. rewrite with_polling_same. rewrite andb_false_r. cbn [fail_if mbind result_bind].
    res_inv. destruct a0. destruct (compileLogs_normal _ _ Ha) as [-> _]. cbn. by rewrite Hl.
  - res_inv. rewrite (fail_if_pass _ _ _ H0). by rewrite (bind_pass (check_http url_parse (with_polling _ e t)) _ _ Ha).
  - res_inv. rewrite (fail_if_pass _ _ _ H0). by rewrite (bind_pass (check_command (with_polling _ e t)) _ _ Ha).
  - destruct Hp as [-> ->]; [by rewrite ?E4|]. rewrite with_polling_same.
    res_inv. rewrite (fail_if_pass _ _ _ H0). by rewrite (bind_pass _ _ _ Ha).
Qed.
End Stages.

Lemma polls_with_polling s e t : polls (with_polling s e t) = polls s.
Proof. done. Qed.

Lemma normalize_source_idem s : normalize_source (normalize_source s) = normalize_source s.
Proof. unfold normalize_source. cbn. by rewrite !normal_duration_idem. Qed.

Lemma compile_polling_normal s s' : compile_polling s = Ok s' → compile_polling (normalize_source s') = Ok (normalize_source s').
Proof.
  unfold compile_polling. destruct (polls s) eqn:E; intros H; res_inv.
  - unfold normalize_source. rewrite !polls_with_polling, E.
    cbn [s_Every s_Timeout with_polling].
    rewrite !(set_if_empty_nonempty (normal_duration _)) by (rewrite normal_duration_empty; by eapply duration_in_nonempty).
    by rewrite (duration_in_normal _ _ _ _ Ha), (duration_in_normal _ _ _ _ Ha0).
  - unfold normalize_source. by rewrite polls_with_polling, E.
Qed.

Lemma check_operator_normal c c' :
  check_operator c = Ok tt → c' = normalize_condition c → check_operator c' = Ok tt.
Proof.
  unfold check_operator. intros H ->. cbn [normalize_condition c_Operator c_Value c_DedupFor c_Numeric].
  repeat (case_match; try done).
  - by rewrite normal_duration_present.
  - res_inv. replay. by rewrite (duration_in_normal _ _ _ _ Ha).
Qed.

Lemma compile_condition_normal c c' :
  compile_condition c = Ok c' → compile_condition (normalize_condition c') = Ok (normalize_condition c') ∧
  c_Numeric c' = c_Numeric c ∧ c_MissingFor c' = c_MissingFor c ∧ c_Operator c' = c_Operator c.
Proof.
  unfold compile_condition. intros H. apply fail_if_bind in H as [H0 H]. apply bind_Ok in H as (c1 & H1 & H).
  apply fail_if_bind in H as [H2 [= <-]].
  cbn [normalize_condition c_Field c_Operator c_Value c_Numeric c_MissingFor c_DedupFor]. rewrite !normal_duration_present.
  destruct (c_Numeric c ≟ "") eqn:En; cbn [negb] in H1 |- *; [destruct (c_MissingFor c ≟ "") eqn:Em; cbn [negb] in H1 |- *|]; res_inv.
  - rewrite En, Em. cbn [negb]. destruct a. rewrite (check_operator_normal _ _ Ha eq_refl). replay. cbn [normalize_condition c_Field]. by replay.
  - rewrite En, Em. cbn [negb]. rewrite (duration_in_normal _ _ _ _ Ha). replay. cbn [normalize_condition c_Field]. by replay.
  - cbn [with_field c_Field c_Operator c_Value c_Numeric c_MissingFor c_DedupFor] in *. rewrite En. cbn [negb].
    rewrite set_if_empty_idem. replay. cbn [normalize_condition c_Field]. by replay.
Qed.

Lemma policy_defaults_normal p : policy_defaults (normalize_policy (policy_defaults p)) = normalize_policy (policy_defaults p).
Proof. unfold policy_defaults, normalize_policy. cbn. by rewrite !set_if_empty_idem, !set_if_zero_idem. Qed.

Lemma gap_policy_normal every p :
  gap_policy (normal_duration every) (normalize_policy (gap_policy every p)) = normalize_policy (gap_policy every p).
Proof.
  unfold gap_policy at 1. rewrite normal_duration_present. destruct (every ≟ "") eqn:E; [by rewrite andb_false_r|].
  assert (p_MaxGap (normalize_policy (gap_policy every p)) ≟ "" = false) as ->; [|done].
  cbn. rewrite normal_duration_present. unfold gap_policy. rewrite E, andb_true_r. destruct (p_MaxGap p ≟ "") eqn:Eg; [|done].
  cbn. apply bool_decide_eq_false, Duration_String_nonempty.
Qed.

Lemma gap_policy_fields every p :
  p_Trigger (gap_policy every p) = p_Trigger p ∧ p_Consecutive (gap_policy every p) = p_Consecutive p ∧
  p_RecoverAfter (gap_policy every p) = p_RecoverAfter p ∧ p_OnUnknown (gap_policy every p) = p_OnUnknown p ∧
  p_Interval (gap_policy every p) = p_Interval p.
Proof. unfold gap_policy. by case_match. Qed.

Lemma policy_defaults_gap every p :
  policy_defaults (normalize_policy (gap_policy every (policy_defaults p))) = normalize_policy (gap_policy every (policy_defaults p)).
Proof.
  unfold gap_policy. case_match; [|apply policy_defaults_normal].
  unfold policy_defaults, normalize_policy, with_gap. cbn. by rewrite !set_if_empty_idem, !set_if_zero_idem.
Qed.

Lemma compile_policy_normal every c p p' :
  compile_policy every c p = Ok p' →
  compile_policy (normal_duration every) (normalize_condition c) (normalize_policy p') = Ok (normalize_policy p').
Proof.
  unfold compile_policy. cbv zeta. intros H.
  apply fail_if_bind in H as [H1 H]. apply fail_if_bind in H as [H2 H]. apply bind_Ok in H as ([] & H3 & H).
  apply bind_Ok in H as ([] & H4 & H). apply fail_if_bind in H as [H5 H]. apply fail_if_bind in H as [H6 [= <-]].
  rewrite policy_defaults_gap. pose proof (gap_policy_normal every (policy_defaults p)) as Hg.
  destruct (gap_policy_fields every (policy_defaults p)) as (F1 & F2 & F3 & F4 & F5).
  set (q := gap_policy every (policy_defaults p)) in *. rewrite Hg.
  cbn [normalize_policy normalize_condition p_Trigger p_Consecutive p_RecoverAfter p_OnUnknown p_Interval p_MaxGap c_MissingFor c_Operator].
  rewrite <- F1, <- F2, <- F3, <- F4, <- F5 in *. replay. rewrite !normal_duration_present.
  destruct (p_Trigger q ≟ "level").
  - res_inv. rewrite (duration_in_normal _ _ _ _ Ha). replay.
    destruct (p_MaxGap q ≟ ""); [|res_inv; rewrite (duration_in_normal _ _ _ _ Ha0)]; by replay.
  - replay. res_inv. replay. destruct (p_MaxGap q ≟ ""); [|res_inv; rewrite (duration_in_normal _ _ _ _ Ha)]; by replay.
Qed.

Lemma compile_group_normal l l' : compile_group l = Ok l' → compile_group l' = Ok l' ∧ l' ≡ₚ l.
Proof.
  unfold compile_group. cbv zeta. intros H. apply fail_if_bind in H as [H1 H]. apply fail_if_bind in H as [H2 [= <-]].
  rewrite (sort_strings_id (sort_strings l)) by apply sort_strings_sorted. rewrite sort_strings_perm at 1. split; [|apply sort_strings_perm].
  by replay.
Qed.

Lemma compile_limits_normal l l' : compile_limits l = Ok l' → compile_limits (normalize_limits l') = Ok (normalize_limits l').
Proof.
  unfold compile_limits. cbv zeta. intros H. apply fail_if_bind in H as [H1 H]. apply bind_Ok in H as (d & Hd & [= <-]).
  assert (limit_defaults (normalize_limits (limit_defaults l)) = normalize_limits (limit_defaults l)) as ->.
  { unfold limit_defaults at 1. cbn. rewrite !set_if_zero_idem.
    rewrite set_if_empty_nonempty; [done|]. rewrite normal_duration_empty. by eapply duration_in_nonempty. }
  cbn [normalize_limits l_MaxEntities l_MaxSamples l_MaxBytes l_MaxOutputs l_IdleTTL].
  rewrite (duration_in_normal _ _ _ _ Hd). by replay.
Qed.

Lemma all_new_spec seen l valid :
  all_new seen l valid = true ↔ Forall (fun x => valid x = true ∧ x ∉ seen) l ∧ NoDup l.
Proof.
  revert seen. induction l as [|x l IH]; intros seen; cbn; [split; [split; constructor|done]|].
  rewrite !andb_true_iff, negb_true_iff, bool_decide_eq_false, IH, !list.Forall_cons, list.NoDup_cons, !list.Forall_forall.
  setoid_rewrite not_elem_of_cons. split; [|naive_solver].
  intros [[Hv Hs] [Hf Hn]]. split_and!; try done; [naive_solver|]. intros Hx. by destruct (Hf x Hx) as (_ & ? & _).
Qed.

Lemma compile_target_normal t t' :
  compile_target t = Ok t' → compile_target t' = Ok t' ∧ t_Ref t' = t_Ref t ∧ t_Events t' ≠ [] ∧ NoDup (t_Events t') ∧
  Forall (fun x => ValidEventType x = true) (t_Events t').
Proof.
  unfold compile_target. cbv zeta. set (es := if (length (t_Events t) =? 0)%nat then default_events else t_Events t).
  intros H. apply fail_if_bind in H as [H1 [= <-]]. cbn [t_Ref t_Events].
  assert (Hne : sort_strings es ≠ []).
  { intros Hn. pose proof (sort_strings_perm es) as P. rewrite Hn in P. apply Permutation_nil in P. subst es.
    destruct (t_Events t); done. }
  assert (length (sort_strings es) =? 0 = false)%nat as -> by (destruct (sort_strings es); done).
  apply negb_false_iff, all_new_spec in H1 as [Hf Hn].
  assert (all_new [] (sort_strings es) ValidEventType = true) as ->.
  { apply all_new_spec. by rewrite sort_strings_perm. }
  rewrite (sort_strings_id (sort_strings es)) by apply sort_strings_sorted. split_and!; try done; rewrite sort_strings_perm; [done|].
  eapply list.Forall_impl; [done|]. cbn. naive_solver.
Qed.

Lemma compile_each_spec seen l l' :
  compile_each seen l = Ok l' ↔
  Forall2 (fun t t' => identifier (t_Ref t) = true ∧ compile_target t = Ok t') l l' ∧
  NoDup (t_Ref <$> l) ∧ Forall (fun t => t_Ref t ∉ seen) l.
Proof.
  revert seen l'. induction l as [|t l IH]; intros seen l'; cbn [compile_each].
  - split; [intros [= <-]; split_and!; constructor|]. by intros (->%Forall2_nil_inv_l & _).
  - rewrite fail_if_bind, orb_false_iff, negb_false_iff, bool_decide_eq_false, fmap_cons, list.NoDup_cons, list.Forall_cons. split.
    + intros ((Hid & Hs) & H). apply bind_Ok in H as (t' & Ht & H). apply bind_Ok in H as (l1 & (Hf & Hn & Hl)%IH & [= <-]).
      rewrite list.Forall_forall in Hl. split_and!; try done; [by constructor| |].
      * rewrite list_elem_of_fmap. intros (u & Hu & Hin). apply (Hl u Hin). rewrite Hu. left.
      * apply list.Forall_forall. intros u Hu Hin. apply (Hl u Hu). by right.
    + intros (Hf & (Hni & Hn) & Hs & Hl). inversion Hf as [|? t' ? l1 [Hid Ht] Hf']; subst. split; [done|].
      rewrite Ht. cbn [mbind result_bind]. rewrite (proj2 (IH (t_Ref t :: seen) l1)); [done|]. split_and!; try done.
      rewrite list.Forall_forall in Hl |- *. intros u Hu [Heq|Hin]%elem_of_cons; [|by apply (Hl u)].
      apply Hni. rewrite <- Heq. by apply list_elem_of_fmap_2.
Qed.

#[local] Instance ref_le_trans : Transitive ref_le.
Proof. intros a b c. unfold ref_le. apply (transitivity (R := str_le)). Qed.
#[local] Instance ref_le_total : Total ref_le.
Proof. intros a b. apply (total str_le). Qed.

(** Targets with distinct references have one order. *)
Lemma sort_targets_perm l k : NoDup (t_Ref <$> l) → k ≡ₚ l → merge_sort ref_le k = merge_sort ref_le l.
Proof.
  intros Hn Hp. apply (StronglySorted_unique_strong ref_le); try (apply StronglySorted_merge_sort; apply _); [|by rewrite !merge_sort_Permutation].
  intros a b Ha Hb Hab Hba. rewrite merge_sort_Permutation, Hp in Ha. rewrite merge_sort_Permutation in Hb.
  assert (t_Ref a = t_Ref b) as Hr by (by apply (anti_symm str_le)).
  apply list_elem_of_lookup in Ha as [i Hi], Hb as [j Hj].
  assert (i = j) as ->; [|congruence].
  eapply NoDup_lookup; [exact Hn| |]; rewrite list_lookup_fmap; [by rewrite Hi|]. rewrite Hj. cbn. by rewrite Hr.
Qed.

Lemma targets_refs l k :
  Forall2 (fun t t' => identifier (t_Ref t) = true ∧ compile_target t = Ok t') l k → t_Ref <$> k = t_Ref <$> l.
Proof. induction 1 as [|t t' l l1 [_ Ht] _ IH]; [done|]. cbn. apply compile_target_normal in Ht as (_ & -> & _). by rewrite IH. Qed.

Lemma compile_targets_normal l l' :
  compile_targets l = Ok l' → compile_targets l' = Ok l' ∧ Z.of_nat (length l') <= 32 ∧ NoDup (t_Ref <$> l') ∧
  Forall (fun t => identifier (t_Ref t) = true ∧ compile_target t = Ok t) l'.
Proof.
  unfold compile_targets. intros H. apply fail_if_bind in H as [H1 H]. apply fmap_Ok in H as (l1 & (Hf & Hn & _)%compile_each_spec & ->).
  pose proof (targets_refs _ _ Hf) as Hrefs.
  assert (Hl1 : Forall (fun t => identifier (t_Ref t) = true ∧ compile_target t = Ok t) l1).
  { clear -Hf. induction Hf as [|t t' l l1 [Hid Ht] _ IH]; [constructor|]. constructor; [|done].
    apply compile_target_normal in Ht as (? & -> & _). done. }
  rewrite <- Hrefs in Hn. pose proof (list.Forall2_length _ _ _ Hf) as Hlen.
  assert (Forall (fun t => identifier (t_Ref t) = true ∧ compile_target t = Ok t) (merge_sort ref_le l1)) as Hs
    by by rewrite merge_sort_Permutation.
  assert (NoDup (t_Ref <$> merge_sort ref_le l1)) as Hns by by rewrite merge_sort_Permutation.
  assert (Hz : Z.of_nat (length (merge_sort ref_le l1)) <= 32) by (bools; rewrite merge_sort_Permutation; lia).
  split_and!; try done. rewrite (proj2 (Z.ltb_ge _ _) Hz). cbn [fail_if mbind result_bind].
  rewrite (proj2 (compile_each_spec [] (merge_sort ref_le l1) (merge_sort ref_le l1))).
  - cbn. f_equal. apply sort_targets_perm; [done|apply merge_sort_Permutation].
  - split_and!; [|done|apply list.Forall_forall; intros ? _; apply not_elem_of_nil]. by apply Forall_Forall2_diag.
Qed.

Lemma Forall2_perm {A B : Type} (P : A → B → Prop) l l' k :
  l ≡ₚ l' → Forall2 P l k → ∃ k', k ≡ₚ k' ∧ Forall2 P l' k'.
Proof.
  intros Hp. revert k. induction Hp as [|x l l' _ IH|x y l|l1 l2 l3 _ IH1 _ IH2]; intros k H.
  - by exists k.
  - inversion H as [|? z ? k0 Hx Hk]; subst. destruct (IH k0 Hk) as (k' & ? & ?). exists (z :: k'). split; [by constructor|by constructor].
  - inversion H as [|? z ? k0 Hx Hk]; subst. inversion Hk as [|? z' ? k1 Hy Hk1]; subst. exists (z' :: z :: k1).
    split; [constructor|by repeat constructor].
  - destruct (IH1 k H) as (k1 & P1 & H1). destruct (IH2 k1 H1) as (k2 & P2 & H2). exists k2. split; [by etransitivity|done].
Qed.

(** The order of grouping fields and destinations does not matter. *)
Lemma compile_group_perm l l' r : l' ≡ₚ l → compile_group l = Ok r → compile_group l' = Ok r.
Proof.
  intros Hp. unfold compile_group. cbv zeta.
  assert (sort_strings l' = sort_strings l) as ->; [|by rewrite Hp].
  apply (StronglySorted_unique str_le); [apply sort_strings_sorted|apply sort_strings_sorted|by rewrite !sort_strings_perm].
Qed.

Lemma compile_targets_perm l l' r : l' ≡ₚ l → compile_targets l = Ok r → compile_targets l' = Ok r.
Proof.
  intros Hp. unfold compile_targets. intros H. apply fail_if_bind in H as [H1 H]. rewrite fail_if_pass by by rewrite Hp.
  apply fmap_Ok in H as (k & (Hf & Hn & _)%compile_each_spec & ->).
  destruct (Forall2_perm _ _ l' _ (Permutation_sym Hp) Hf) as (k' & Hk & Hf').
  rewrite (proj2 (compile_each_spec [] l' k')).
  - cbn. f_equal. apply sort_targets_perm; [by rewrite (targets_refs _ _ Hf)|done].
  - split_and!; [done|by rewrite Hp|]. apply list.Forall_forall. intros ? _. apply not_elem_of_nil.
Qed.
