(* ===== verification/PlanSpec.v ===== *)
(** * [Compile] is idempotent

    The stages composed: the compiled specification passes every stage
    unchanged, and it survives the JSON copy unchanged. *)

From S2P Require Import Prelude GoText GoFloat GoTime GoJson Sha256 Watch Numeric Evaluator EvaluatorFacts LogWindow LogFrame LogClassify Plan PlanFacts.

(** ** Fixed points of the JSON copy *)

(** A record whose copy is itself: every field is its own copy. *)
Ltac copied_fields :=
  cbn; repeat match goal with H : ?a = _ |- context [?a] => progress rewrite H end; reflexivity.

Lemma copy_source_fields s : copy_source s = Some s → sanitize (s_Every s) = s_Every s ∧ sanitize (s_Timeout s) = s_Timeout s.
Proof. unfold copy_source. intros H. apply bind_Some in H as (logs & _ & H). destruct s. cbn in *. injection H. done. Qed.

Lemma copy_with_polling s e t :
  copy_source s = Some s → sanitize e = e → sanitize t = t → copy_source (with_polling s e t) = Some (with_polling s e t).
Proof.
  unfold copy_source. intros H He Ht. apply bind_Some in H as (logs & Hl & H). cbn [with_polling s_Logs]. rewrite Hl. cbn.
  rewrite He, Ht. unfold with_polling. destruct s. cbn in *. injection H. intros. copied_fields.
Qed.

Lemma copy_with_logs s l :
  copy_source s = Some s → copy_logs l = Some l → copy_source (with_logs s l) = Some (with_logs s l).
Proof.
  unfold copy_source. intros H Hc. apply bind_Some in H as (logs & Hl & H). cbn [with_logs s_Logs]. rewrite Hc. cbn.
  unfold with_logs. destruct s. cbn in *. injection H. intros. copied_fields.
Qed.

Lemma copy_compiled_input i i' : copy_input i = i → compileLogInput i = Ok i' → copy_input i' = i'.
Proof.
  unfold compileLogInput, copy_input. intros Hc. case_match; [intros; by res_inv|]. case_match; [|case_match; [|done]]; intros; res_inv; cbn.
  - rewrite set_if_empty_copied; [|by destruct i; injection Hc|done]. destruct i. cbn in *. injection Hc. intros. copied_fields.
  - rewrite Duration_String_copied. destruct i. cbn in *. injection Hc. intros. copied_fields.
Qed.

Lemma copy_compiled_multiline m : copy_multiline m = m → copy_multiline (compile_multiline m) = compile_multiline m.
Proof.
  unfold copy_multiline, compile_multiline. intros H. destruct m. cbn in *. injection H. intros.
  rewrite set_if_empty_copied by done. copied_fields.
Qed.

Lemma copy_compiled_logs re c c' : copy_logs c = Some c → compile_log_source re c = Ok c' → copy_logs c' = Some c'.
Proof.
  unfold compile_log_source, copy_logs. cbv zeta. intros Hc. apply bind_Some in Hc as (cov & Hcov & Hc). intros H.
  apply bind_Ok in H as (input & Hi & H). apply bind_Ok in H as (r & Hr & H).
  apply fail_if_bind in H as [_ H]. apply fail_if_bind in H as [_ H].
  apply bind_Ok in H as (fr & _ & H). apply bind_Ok in H as (ps & _ & H).
  apply bind_Ok in H as (w & _ & H). apply bind_Ok in H as (win & _ & [= <-]). cbn. rewrite Hcov. cbn.
  rewrite !Duration_String_copied. destruct c as [i ? ? ? ? ? ? m]. cbn in *. injection Hc. intros.
  rewrite !set_if_empty_copied by done.
  rewrite (fun Hi0 => copy_compiled_input _ input Hi0 Hi).
  2:{ match goal with H : copy_input i = i |- _ => unfold copy_input in H; destruct i; cbn in *; injection H; intros end.
      unfold copy_input. cbn. rewrite set_if_empty_copied by done. copied_fields. }
  assert (copy_multiline <$> (compile_multiline <$> m) = compile_multiline <$> m) as ->; [|copied_fields].
  destruct m as [m|]; [|done]. cbn in *. rewrite copy_compiled_multiline; [done|]. by injection H3.
Qed.

Lemma copy_compiled_condition c c' :
  copy_condition c = Some c → compile_condition c = Ok c' → copy_condition (normalize_condition c') = Some (normalize_condition c').
Proof.
  unfold compile_condition, copy_condition. intros Hc H. apply bind_Some in Hc as (v & Hv & Hc).
  apply fail_if_bind in H as [_ H]. apply bind_Ok in H as (c1 & H1 & H). apply fail_if_bind in H as [_ [= <-]].
  assert (Hf : c_Value c1 = c_Value c ∧ sanitize (c_Field c1) = c_Field c1 ∧ c_Operator c1 = c_Operator c ∧ c_Numeric c1 = c_Numeric c).
  { assert (sanitize (c_Field c) = c_Field c) by (destruct c; cbn in *; by injection Hc).
    repeat case_match; res_inv; cbn; split_and!; try done; by apply set_if_empty_copied. }
  destruct Hf as (Ev & Ef & Eo & En). unfold normalize_condition. cbn. rewrite Ev, Hv. cbn.
  rewrite Ef, Eo, En, !normal_duration_copied.
  destruct c. cbn in *. injection Hc. intros. copied_fields.
Qed.

Lemma copy_compiled_policy e c p p' :
  copy_policy p = p → compile_policy e c p = Ok p' → copy_policy (normalize_policy p') = normalize_policy p'.
Proof.
  unfold compile_policy. cbv zeta. intros Hc H.
  apply fail_if_bind in H as [_ H]. apply fail_if_bind in H as [_ H]. apply bind_Ok in H as (_ & _ & H).
  apply bind_Ok in H as (_ & _ & H). apply fail_if_bind in H as [_ H]. apply fail_if_bind in H as [_ [= <-]].
  destruct (gap_policy_fields e (policy_defaults p)) as (F1 & F2 & F3 & F4 & F5).
  unfold copy_policy, normalize_policy. cbn. rewrite F1, F4, !normal_duration_copied. unfold copy_policy in Hc.
  destruct p. cbn in *. injection Hc. intros. by rewrite !set_if_empty_copied.
Qed.

Lemma copy_compiled_targets l l' :
  copy_target <$> l = l → compile_targets l = Ok l' → copy_target <$> l' = l'.
Proof.
  intros _ (_ & _ & _ & Hf)%compile_targets_normal. rewrite <- (list_fmap_id l') at 2. apply list_fmap_ext. intros i t Hi. cbn.
  rewrite list.Forall_forall in Hf. destruct (Hf t) as [Hid Ht]; [by eapply list_elem_of_lookup_2|].
  unfold copy_target. rewrite (identifier_copied _ Hid).
  assert (sanitize <$> t_Events t = t_Events t) as ->; [|by destruct t].
  apply compile_target_normal in Ht as (_ & _ & _ & _ & Hv). rewrite <- (list_fmap_id (t_Events t)) at 2.
  apply list_fmap_ext. intros j x Hj. cbn. rewrite list.Forall_forall in Hv.
  pose proof (Hv x ltac:(by eapply list_elem_of_lookup_2)) as Hx. unfold ValidEventType in Hx. bools. set_unfold in Hx.
  by repeat (destruct Hx as [->|Hx]; [reflexivity|]).
Qed.

Lemma copy_sorted l : sanitize <$> l = l → sanitize <$> sort_strings l = sort_strings l.
Proof.
  intros H. rewrite <- (list_fmap_id (sort_strings l)) at 2. apply list_fmap_ext. intros i x Hi. cbn.
  apply list_elem_of_lookup_2 in Hi. rewrite sort_strings_perm in Hi. apply list_elem_of_lookup in Hi as [j Hj].
  assert (Hs : (sanitize <$> l) !! j = Some x) by by rewrite H. rewrite list_lookup_fmap, Hj in Hs. by injection Hs.
Qed.

(** ** The specification *)

Section Spec.
Context (parse_template : string → result template) (compile_jq : string → result unit)
        (compile_regexp : string → option (string → bool)) (url_parse : string → option URL).
Local Abbreviation compile := (compile_spec parse_template compile_jq compile_regexp url_parse).

(** Sources that do not poll have no polling durations. *)
Lemma not_polling sp s :
  compile_source_type compile_regexp url_parse sp = Ok s → polls s = false → s_Every s = "" ∧ s_Timeout s = "".
Proof.
  intros H Hp. pose proof (source_type_kind _ _ _ _ H) as Hk. revert H. unfold compile_source_type. cbv zeta.
  intros [_ H]%fail_if_bind. unfold polls in Hp. rewrite Hk in Hp.
  destruct (s_Type (sp_Source sp) ≟ "logs") eqn:E1; [|destruct (s_Type (sp_Source sp) ≟ "http") eqn:E2;
    [|destruct (s_Type (sp_Source sp) ≟ "command") eqn:E3; [|destruct (s_Type (sp_Source sp) ≟ "push") eqn:E4; [|done]]]]; res_inv.
  - destruct (compileLogs_normal _ _ _ Ha) as [Hl [l ->]]. unfold compileLogs in Hl. cbn in Hl. res_inv. by bools.
  - bools. by rewrite E2 in Hp.
  - bools. by rewrite E3 in Hp.
  - unfold check_push in Ha. res_inv. by bools.
Qed.

Lemma check_logs_spec_normal sp sp' c :
  sp_Condition sp' = normalize_condition c → c_Numeric c = c_Numeric (sp_Condition sp) → c_MissingFor c = c_MissingFor (sp_Condition sp) →
  c_Operator c = c_Operator (sp_Condition sp) → sp_GroupBy sp' ≡ₚ sp_GroupBy sp → sp_Match sp' = sp_Match sp →
  check_logs_spec sp = Ok tt → check_logs_spec sp' = Ok tt.
Proof.
  unfold check_logs_spec. intros Hc Hn Hm Ho Hg Hma. rewrite Hc. cbn [normalize_condition c_Numeric c_MissingFor c_Operator].
  rewrite normal_duration_present, Hn, Hm, Ho, Hma. unfold nonempty. by rewrite Hg.
Qed.

Lemma compile_spec_normal sp sp' : compile sp = Ok sp' → compile sp' = Ok sp'.
Proof.
  unfold compile_spec. intros H. apply bind_Ok in H as (s1 & H1 & H). apply bind_Ok in H as (s & H2 & H).
  apply bind_Ok in H as ([] & H3 & H). apply bind_Ok in H as (c & H4 & H). apply bind_Ok in H as (p & H5 & H).
  apply bind_Ok in H as (g & H6 & H). apply bind_Ok in H as ([] & H7 & H). apply bind_Ok in H as ([] & H8 & H).
  apply bind_Ok in H as (l & H9 & H). apply bind_Ok in H as (ts & H10 & H). injection H as <-.
  destruct (compile_condition_normal _ _ H4) as (Hc & Hn & Hm & Ho). destruct (compile_group_normal _ _ H6) as [Hg Hgp].
  destruct (compile_targets_normal _ _ H10) as [Ht _]. pose proof (compile_limits_normal _ _ H9) as Hl.
  pose proof (compile_policy_normal _ _ _ _ H5) as Hp.
  set (sp' := {| sp_Source := _ |}) at 1.
  assert (Hsrc : compile_source_type compile_regexp url_parse sp' = Ok (normalize_source s)).
  { apply (compile_source_type_normal _ _ _ sp' _ (normal_duration (s_Every s)) (normal_duration (s_Timeout s)) H1).
    - cbn. unfold normalize_source. revert H2. unfold compile_polling. case_match; intros; res_inv; done.
    - intros Hnp. destruct (not_polling _ _ H1 Hnp) as [-> ->]. revert H2. unfold compile_polling. rewrite Hnp. intros [= <-].
      by destruct (not_polling _ _ H1 Hnp) as [-> ->].
    - by apply (check_logs_spec_normal _ _ c). }
  rewrite (bind_pass _ _ _ Hsrc). rewrite (bind_pass _ _ _ (compile_polling_normal _ _ H2)).
  rewrite (bind_pass (check_projection compile_jq (normalize_source s)) _ _ H3).
  subst sp'. cbn [sp_Condition sp_Policy sp_GroupBy sp_Match sp_Message sp_Limits sp_Destinations].
  rewrite (bind_pass _ _ _ Hc). rewrite (bind_pass (compile_policy (s_Every (normalize_source s)) _ _) _ _ Hp).
  rewrite (bind_pass _ _ _ Hg), (bind_pass _ _ _ H7), (bind_pass _ _ _ H8), (bind_pass _ _ _ Hl), (bind_pass _ _ _ Ht).
  rewrite normalize_source_idem. unfold normalize_condition, normalize_policy, normalize_limits. cbn. by rewrite !normal_duration_idem.
Qed.

Lemma copy_compiled_source s' sp :
  copy_source (sp_Source sp) = Some (sp_Source sp) → compile_source_type compile_regexp url_parse sp = Ok s' → copy_source s' = Some s'.
Proof.
  intros Hc. unfold compile_source_type. cbv zeta. intros [_ H]%fail_if_bind. repeat case_match; res_inv; try done.
  unfold compileLogs in Ha. destruct (s_Logs (sp_Source sp)) as [c|] eqn:E; [|done]. res_inv. subst. apply copy_with_logs; [done|].
  eapply copy_compiled_logs; [|done]. unfold copy_source in Hc. rewrite E in Hc. destruct (copy_logs c) as [c'|]; [|done]. cbn in Hc.
  destruct (sp_Source sp). cbn in *. subst. injection Hc as Hc _. by rewrite Hc.
Qed.

Lemma copy_compiled_spec sp sp' : copy_spec sp = Some sp → compile sp = Ok sp' → copy_spec sp' = Some sp'.
Proof.
  unfold compile_spec. intros Hcopy H. apply bind_Ok in H as (s1 & H1 & H). apply bind_Ok in H as (s & H2 & H).
  apply bind_Ok in H as ([] & H3 & H). apply bind_Ok in H as (c & H4 & H). apply bind_Ok in H as (p & H5 & H).
  apply bind_Ok in H as (g & H6 & H). apply bind_Ok in H as ([] & H7 & H). apply bind_Ok in H as ([] & H8 & H).
  apply bind_Ok in H as (l & H9 & H). apply bind_Ok in H as (ts & H10 & H). injection H as <-.
  unfold copy_spec in Hcopy. apply bind_Some in Hcopy as (src & Hsrc & Hcopy). apply bind_Some in Hcopy as (co & Hco & Hcopy).
  apply bind_Some in Hcopy as (mt & Hmt & Hcopy). destruct sp as [src0 co0 p0 g0 mt0 msg0 ds0 l0].
  cbn in Hcopy, Hsrc, Hco, Hmt, H4, H5, H6, H9, H10. injection Hcopy. clear Hcopy. intros El Ed Em Emt Eg Ep Eco Esrc. subst src co mt.
  assert (Hs : copy_source (normalize_source s) = Some (normalize_source s)).
  { apply copy_with_polling; try apply normal_duration_copied. pose proof (fun Hc => copy_compiled_source s1 _ Hc H1) as Hs1.
    specialize (Hs1 Hsrc).
    revert H2. unfold compile_polling. case_match; intros; res_inv; [|done].
    destruct (copy_source_fields _ Hs1). apply copy_with_polling; [done| |]; by apply set_if_empty_copied. }
  unfold copy_spec. cbn [sp_Source sp_Condition sp_Policy sp_GroupBy sp_Match sp_Message sp_Destinations sp_Limits].
  rewrite Hs. cbn [mbind option_bind]. rewrite (copy_compiled_condition _ _ Hco H4). cbn [mbind option_bind]. rewrite Hmt. cbn [mbind option_bind].
  rewrite (copy_compiled_policy _ _ _ _ Ep H5), (copy_compiled_targets _ _ Ed H10), Em.
  assert (copy_limits (normalize_limits l) = normalize_limits l) as -> by (unfold copy_limits, normalize_limits; cbn; by rewrite normal_duration_copied).
  assert (sanitize <$> g = g) as ->; [|done].
  unfold compile_group in H6. cbv zeta in H6. apply fail_if_bind in H6 as [_ H6]. apply fail_if_bind in H6 as [_ [= <-]]. by apply copy_sorted.
Qed.
End Spec.

(** * What a compiled definition guarantees

    Compilation is idempotent and insensitive to the order of sets; a compiled
    definition is within the documented bounds and the evaluator accepts it. *)

(** ** Windows of accepted numeric conditions *)

Lemma groups_conds n ts id gs l :
  (length ts <= n)%nat → groups ts id = Ok gs → l ∈ concat gs → ∃ v, TAtom v ∈ ts ∧ ParseCondition v = Ok (leaf_cond l).
Proof.
  revert ts id gs. induction n as [|n IH]; intros ts id gs Hn H Hl; [destruct ts; cbn in *; [done|lia]|].
  destruct ts as [|[v|] ts]; cbn in H; try done. apply bind_Ok in H as (c & Hc & H).
  assert (Hv : ParseCondition v = Ok c) by (destruct (ParseCondition v); congruence). cbn in Hn.
  set (leaf := {| leaf_cond := c |}) in H.
  assert (Hhead : l = leaf → ∃ v0, TAtom v0 ∈ TAtom v :: ts ∧ ParseCondition v0 = Ok (leaf_cond l)).
  { intros ->. exists v. split; [left|done]. }
  destruct ts as [|[v'|op] ts]; cbn in Hn.
  - injection H as <-. apply list_elem_of_singleton in Hl. auto.
  - injection H as <-. apply list_elem_of_singleton in Hl. auto.
  - assert (Htail : ∀ g, groups ts (if Windowed c then id + 1 else id) = Ok g → l ∈ concat g →
              ∃ v0, TAtom v0 ∈ TAtom v :: TOp op :: ts ∧ ParseCondition v0 = Ok (leaf_cond l)).
    { intros g Hg Hin. destruct (IH ts _ g ltac:(lia) Hg Hin) as (v0 & ? & ?). exists v0. split; [by do 2 right|done]. }
    destruct op; apply bind_Ok in H as (g & Hg & H).
    + destruct g as [|g gs']; injection H as <-; cbn in Hl.
      * apply list_elem_of_singleton in Hl. auto.
      * apply elem_of_cons in Hl as [?|Hl]; [auto|]. eapply Htail; [done|]. done.
    + injection H as <-. cbn in Hl. apply elem_of_cons in Hl as [?|Hl]; [auto|]. by eapply Htail.
Qed.

Lemma tokenize_atoms fuel s ts v :
  tokenize_loop fuel s = Ok ts → TAtom v ∈ ts → ∃ a, a ∈ split_atoms fuel s ∧ v = TrimSpace a.
Proof.
  revert s ts. induction fuel as [|fuel IH]; intros s ts; cbn [tokenize_loop split_atoms]; [by intros [= <-] ?%not_elem_of_nil|].
  case_bool_decide; [by intros [= <-] ?%not_elem_of_nil|]. destruct (next_delim s) as [[[i op] n]|].
  - intros [_ H']%fail_if_bind. apply bind_Ok in H' as (ts' & Hts & [= <-]).
    intros [[= ->]|[?|Hin]%elem_of_cons]%elem_of_cons; [|done|].
    + exists (str_take i s). split; [left|done].
    + destruct (IH _ _ Hts Hin) as (a & Ha & ->). exists a. split; [by right|done].
  - intros [_ [= <-]]%fail_if_bind. intros [= ->]%list_elem_of_singleton. exists s. split; [left|done].
Qed.

Lemma each_Ok {A : Type} (f : A → result unit) l u : each f l = Ok u → ∀ x, x ∈ l → ∃ v, f x = Ok v.
Proof.
  induction l as [|y l IH]; cbn; [by intros _ x ?%not_elem_of_nil|]. intros H. apply bind_Ok in H as (v & Hv & H).
  intros x [->|Hx]%elem_of_cons; [by exists v|]. by apply IH.
Qed.

(** Every window of an accepted condition is finite and at most 30 days; its
    literals are numbers. *)
Lemma validateNumeric_leaves expr u :
  validateNumeric expr = Ok u → ∃ e, ParseExpression expr = Ok e ∧
  ∀ l, l ∈ leaves e → RunBounded (leaf_cond l) = false ∧ IsNaN (Literal (leaf_cond l)) = false ∧ IsInf (Literal (leaf_cond l)) = false ∧
    (Windowed (leaf_cond l) = true → 0 < Numeric.Window (leaf_cond l) <= 30 * Day).
Proof.
  unfold validateNumeric. intros H. apply bind_Ok in H as (e & He & H). exists e. split; [done|].
  intros l Hl. unfold ParseExpression in He. apply bind_Ok in He as (ts & Hts & He). apply bind_Ok in He as ([[e' r] i] & Hp & [= ->]).
  pose proof (parseExpr_groups ts (tokenize_alternating _ _ Hts)) as Hg. rewrite Hp in Hg.
  destruct (groups ts 0) as [gs|] eqn:Eg; [|done]. destruct Hg as (_ & Hc & _). rewrite Hc in Hl.
  destruct (groups_conds _ _ _ _ _ (le_n _) Eg Hl) as (v & Hv & Hpc).
  unfold tokenize in Hts. apply bind_Ok in Hts as (ts' & Hloop & Hts).
  assert (ts' = ts) as -> by (destruct (list.last ts') as [[]|]; congruence).
  destruct (tokenize_atoms _ _ _ _ Hloop Hv) as (a & Ha & ->). destruct (each_Ok _ _ _ H a Ha) as [w Hw].
  unfold valid_atom in Hw. rewrite Hpc in Hw. cbn [mbind result_bind] in Hw. res_inv. bools. split_and!; try done.
  intros Hwin. rewrite Hwin in *. cbn in *. bools. lia.
Qed.

Lemma Windows_of_leaves e w : w ∈ Windows e → ∃ l, l ∈ leaves e ∧ w_Window w = Numeric.Window (leaf_cond l) ∧ w_RunBounded w = RunBounded (leaf_cond l) ∧ Windowed (leaf_cond l) = true.
Proof.
  induction e as [l|op l IHl r IHr]; cbn.
  - destruct (Windowed (leaf_cond l)) eqn:E; cbn; [|by intros ?%not_elem_of_nil].
    intros ->%list_elem_of_singleton. exists l. split; [left|done].
  - intros [H|H]%elem_of_app; [destruct (IHl H) as (x & ? & ?)|destruct (IHr H) as (x & ? & ?)]; exists x; split; try done; apply elem_of_app; auto.
Qed.

Lemma max_window_Ok ws acc : (∀ w, w ∈ ws → w_RunBounded w = false) → ∃ m, max_window ws acc = Ok m.
Proof.
  revert acc. induction ws as [|w ws IH]; intros acc H; cbn; [by exists acc|]. rewrite (H w) by left. cbn. apply IH. intros. apply H. by right.
Qed.

(** ** Bounds *)

(** The documented limits of a compiled watch. *)
Record in_bounds (sp : Spec) : Prop := {
  ib_consecutive : 1 <= p_Consecutive (sp_Policy sp) <= 10000;
  ib_recover : 1 <= p_RecoverAfter (sp_Policy sp) <= 10000;
  ib_gap : p_MaxGap (sp_Policy sp) = "" ∨ Second <= duration_or_zero (p_MaxGap (sp_Policy sp)) <= 30 * Day;
  ib_entities : 1 <= l_MaxEntities (sp_Limits sp) <= 10000;
  ib_samples : 1 <= l_MaxSamples (sp_Limits sp) <= 100000;
  ib_bytes : 1 <= l_MaxBytes (sp_Limits sp) <= 2 ^ 20;
  ib_outputs : 1 <= l_MaxOutputs (sp_Limits sp) <= 100;
  ib_idle : Second <= duration_or_zero (l_IdleTTL (sp_Limits sp)) <= 30 * Day;
  ib_polling : polls (sp_Source sp) = true →
    Second <= duration_or_zero (s_Every (sp_Source sp)) <= 24 * Hour ∧ Millisecond <= duration_or_zero (s_Timeout (sp_Source sp)) <= 5 * Minute;
  ib_group : (length (sp_GroupBy sp) <= 16)%nat ∧ NoDup (sp_GroupBy sp);
  ib_targets : (length (sp_Destinations sp) <= 32)%nat ∧ NoDup (t_Ref <$> sp_Destinations sp);
  ib_events : Forall (fun t => t_Events t ≠ [] ∧ NoDup (t_Events t) ∧ Forall (fun e => ValidEventType e = true) (t_Events t)) (sp_Destinations sp);
  ib_message : len (sp_Message sp) <= 8192 }.

Lemma duration_in_value s lo hi d : duration_in s lo hi = Ok d → lo <= duration_or_zero s <= hi.
Proof. rewrite duration_in_Ok. unfold duration_or_zero. by intros [-> ?]. Qed.

Lemma compile_policy_bounds e c p p' :
  compile_policy e c p = Ok p' →
  1 <= p_Consecutive p' <= 10000 ∧ 1 <= p_RecoverAfter p' <= 10000 ∧
  (p_MaxGap p' = "" ∨ Second <= duration_or_zero (p_MaxGap p') <= 30 * Day) ∧
  (signal_operator (c_Operator c) = true → p_Trigger p' = "level" ∧ p_Consecutive p' = 1).
Proof.
  unfold compile_policy. cbv zeta. intros H.
  apply fail_if_bind in H as [_ H]. apply fail_if_bind in H as [H2 H]. apply bind_Ok in H as (_ & _ & H).
  apply bind_Ok in H as ([] & H4 & H). apply fail_if_bind in H as [_ H]. apply fail_if_bind in H as [H6 [= <-]].
  destruct (gap_policy_fields e (policy_defaults p)) as (F1 & F2 & F3 & F4 & F5). rewrite F1, F2, F3 in *. bools.
  split_and!; try lia.
  - destruct (_ ≟ "") eqn:E; [left; by bools|right]. res_inv. by eapply duration_in_value.
  - intros Hs. rewrite Hs in H6. cbn in H6. by bools.
Qed.

Lemma adjacent_dup_NoDup l : StronglySorted str_le l → adjacent_dup l = false → NoDup l.
Proof.
  induction 1 as [|x l Hs IH Hx]; intros Hd; [constructor|]. constructor.
  - destruct l as [|y l]; [apply not_elem_of_nil|]. cbn in Hd. bools. intros [?|Hin]%elem_of_cons; [done|].
    apply list.Forall_cons in Hx as [Hxy _]. inversion Hs as [|? ? _ Hy]; subst. rewrite list.Forall_forall in Hy.
    apply H. apply (anti_symm str_le); [done|]. by apply Hy.
  - apply IH. destruct l; [done|]. cbn in Hd. by bools.
Qed.

(** The same watch with its grouping fields and destinations written in another order. *)
Definition reordered (d : Definition_) (g : list string) (ts : list Target) : Definition_ :=
  let sp := d_Spec d in
  {| d_APIVersion := d_APIVersion d; d_Kind := d_Kind d; d_Metadata := d_Metadata d;
     d_Spec := {| sp_Source := sp_Source sp; sp_Condition := sp_Condition sp; sp_Policy := sp_Policy sp; sp_GroupBy := g;
                  sp_Match := sp_Match sp; sp_Message := sp_Message sp; sp_Destinations := ts; sp_Limits := sp_Limits sp |} |}.

Lemma copy_reordered d d1 g ts :
  copy_definition d = Some d1 → copy_definition (reordered d g ts) = Some (reordered d1 (sanitize <$> g) (copy_target <$> ts)).
Proof.
  unfold copy_definition, copy_spec. cbn. destruct (copy_source _); [|done]. cbn. destruct (copy_condition _); [|done]. cbn.
  destruct (copy_fields _); [|done]. cbn. by intros [= <-].
Qed.

Section Compiled.
Context (parse_template : string → result template) (compile_jq : string → result unit)
        (compile_regexp : string → option (string → bool)) (url_parse : string → option URL).
Local Abbreviation spec := (compile_spec parse_template compile_jq compile_regexp url_parse).
Local Abbreviation compile := (Compile parse_template compile_jq compile_regexp url_parse).

Lemma compile_spec_bounds sp sp' : spec sp = Ok sp' → in_bounds sp'.
Proof.
  unfold compile_spec. intros H. apply bind_Ok in H as (s1 & H1 & H). apply bind_Ok in H as (s & H2 & H).
  apply bind_Ok in H as ([] & H3 & H). apply bind_Ok in H as (c & H4 & H). apply bind_Ok in H as (p & H5 & H).
  apply bind_Ok in H as (g & H6 & H). apply bind_Ok in H as ([] & H7 & H). apply bind_Ok in H as ([] & H8 & H).
  apply bind_Ok in H as (l & H9 & H). apply bind_Ok in H as (ts & H10 & H). injection H as <-.
  destruct (compile_policy_bounds _ _ _ _ H5) as (P1 & P2 & P3 & _). destruct (compile_targets_normal _ _ H10) as (_ & T1 & T2 & T3).
  unfold compile_limits in H9. cbv zeta in H9. apply fail_if_bind in H9 as [L1 H9]. apply bind_Ok in H9 as (d & L2 & [= <-]).
  unfold compile_group in H6. cbv zeta in H6. apply fail_if_bind in H6 as [G1 H6]. apply fail_if_bind in H6 as [G2 [= <-]].
  unfold check_message in H8. apply fail_if_bind in H8 as [M1 _].
  change (Z.shiftl 1 20) with (2 ^ 20) in L1. bools.
  constructor; cbn -[Z.pow]; rewrite ?normal_duration_value, ?normal_duration_empty; try done; try lia.
  - by eapply duration_in_value.
  - revert H2. unfold compile_polling. destruct (polls s1) eqn:E; intros; res_inv; [|].
    + cbn. split; eapply duration_in_value; eassumption.
    + cbn in *. unfold normalize_source in *. rewrite polls_with_polling in *. congruence.
  - rewrite sort_strings_perm. split; [lia|]. rewrite <- sort_strings_perm. apply adjacent_dup_NoDup; [apply sort_strings_sorted|done].
  - split; [lia|done].
  - eapply list.Forall_impl; [exact T3|]. cbn. intros t [_ Ht]. by apply compile_target_normal in Ht as (_ & _ & ? & ? & ?).
Qed.

Lemma Compile_inv d c :
  compile d = Ok c → ∃ d1,
  header (d_APIVersion d) (d_Kind d) (d_Metadata d) "Watch" = Ok tt ∧ copy_definition d = Some d1 ∧
  spec (d_Spec d1) = Ok (d_Spec (cp_Definition c)) ∧
  cp_Definition c = {| d_APIVersion := d_APIVersion d1; d_Kind := d_Kind d1; d_Metadata := d_Metadata d1; d_Spec := d_Spec (cp_Definition c) |} ∧
  revision_of (definition_json (cp_Definition c)) = Ok (cp_Revision c) ∧
  revision_of (fingerprint_json (d_Spec (cp_Definition c))) = Ok (cp_Fingerprint c) ∧
  cp_Permissions c = permissions_of (sp_Source (d_Spec (cp_Definition c))).
Proof.
  unfold Compile. intros H. apply bind_Ok in H as ([] & H1 & H). apply bind_Ok in H as (d1 & H2 & H).
  apply bind_Ok in H as (sp & H3 & H). apply bind_Ok in H as (rev & H4 & H). apply bind_Ok in H as (fp & H5 & H). injection H as <-.
  exists d1. cbn. unfold copied in H2. destruct (copy_definition d); [|done]. injection H2 as ->. done.
Qed.

Lemma Compile_intro d d1 c :
  header (d_APIVersion d) (d_Kind d) (d_Metadata d) "Watch" = Ok tt → copy_definition d = Some d1 →
  spec (d_Spec d1) = Ok (d_Spec (cp_Definition c)) →
  cp_Definition c = {| d_APIVersion := d_APIVersion d1; d_Kind := d_Kind d1; d_Metadata := d_Metadata d1; d_Spec := d_Spec (cp_Definition c) |} →
  revision_of (definition_json (cp_Definition c)) = Ok (cp_Revision c) →
  revision_of (fingerprint_json (d_Spec (cp_Definition c))) = Ok (cp_Fingerprint c) →
  cp_Permissions c = permissions_of (sp_Source (d_Spec (cp_Definition c))) → compile d = Ok c.
Proof.
  intros H1 H2 H3 H4 H5 H6 H7. unfold Compile, copied. rewrite H1, H2. cbn [mbind result_bind]. rewrite H3. cbn [mbind result_bind].
  rewrite <- H4. rewrite H5. cbn [mbind result_bind]. rewrite H6. cbn [mbind result_bind]. rewrite <- H7. by destruct c.
Qed.

(** The copy keeps the header of an accepted definition. *)
Lemma header_copied d d1 :
  header (d_APIVersion d) (d_Kind d) (d_Metadata d) "Watch" = Ok tt → copy_definition d = Some d1 → ValidString (md_Name (d_Metadata d)) = true →
  d_APIVersion d1 = d_APIVersion d ∧ d_Kind d1 = d_Kind d ∧ d_Metadata d1 = d_Metadata d.
Proof.
  unfold header, copy_definition. intros H Hc Hn. apply bind_Some in Hc as (sp & _ & [= <-]). cbn. res_inv. bools.
  unfold copy_metadata. rewrite (identifier_copied (md_ID _)), (sanitize_valid (md_Name _)) by done.
  split_and!; [by rewrite H0|by rewrite H2|by destruct (d_Metadata d)].
Qed.

Lemma Compile_copied d c : compile d = Ok c → copy_definition (cp_Definition c) = Some (cp_Definition c).
Proof.
  intros (d1 & H1 & H2 & H3 & H4 & _)%Compile_inv. pose proof (copy_definition_idem _ _ H2) as Hd1.
  unfold copy_definition in Hd1. apply bind_Some in Hd1 as (sp & Hsp & Hd1).
  assert (Hs : copy_spec (d_Spec d1) = Some (d_Spec d1)) by (rewrite Hsp; f_equal; by destruct d1; injection Hd1).
  rewrite H4. clear H4. unfold copy_definition. cbn [d_Spec]. rewrite (copy_compiled_spec _ _ _ _ _ _ Hs H3). cbn.
  destruct d1. cbn in *. injection Hd1. intros. copied_fields.
Qed.

(** A compiled definition is its own compilation. *)
Lemma Compile_fixed d c :
  ValidString (md_Name (d_Metadata d)) = true → compile d = Ok c → compile (cp_Definition c) = Ok c.
Proof.
  intros Hn H. pose proof (Compile_copied _ _ H) as Hcopy. apply Compile_inv in H as (d1 & H1 & H2 & H3 & H4 & H5 & H6 & H7).
  destruct (header_copied _ _ H1 H2 Hn) as (Ea & Ek & Em).
  apply (Compile_intro _ (cp_Definition c)); try done.
  - rewrite H4. cbn. by rewrite Ea, Ek, Em.
  - by eapply compile_spec_normal.
  - by destruct (cp_Definition c).
Qed.

(** C25: compiling a compiled watch definition returns the same definition,
    revision, fingerprint and permissions, for every definition with a
    well-formed name that compiles at all. *)
Theorem Compile_idempotent d c :
  ValidString (md_Name (d_Metadata d)) = true → compile d = Ok c → compile (cp_Definition c) = Ok c.
Proof. apply Compile_fixed. Qed.

(** a compiled watch is within every documented bound: counts, gaps,
    limits, polling periods, at most 16 distinct grouping fields, at most 32
    distinct destinations with distinct known event types. *)
Lemma Compile_bounds d c : compile d = Ok c → in_bounds (d_Spec (cp_Definition c)).
Proof. intros (d1 & _ & _ & H3 & _)%Compile_inv. by eapply compile_spec_bounds. Qed.

Lemma check_operator_signal c u : check_operator c = Ok u → signal_operator (c_Operator c) = true → c_Value c = VNil.
Proof.
  unfold check_operator, signal_operator. intros H Hs. apply orb_true_iff in Hs as [Hs|Hs]; bools; rewrite Hs in H.
  - change (fail_if (negb (c_Value c ≟ VNil) || negb (c_DedupFor c ≟ "")) "changed takes no value or dedup horizon" = Ok u) in H.
    res_inv. by bools.
  - change ((fail_if (negb (c_Value c ≟ VNil)) "new-event takes no comparison value" ;;
             duration_in (c_DedupFor c) Second (7 * Day) ;; Ok tt) = Ok u) in H.
    res_inv. by bools.
Qed.

Lemma compile_condition_facts c c' :
  compile_condition c = Ok c' →
  (signal_operator (c_Operator c) = true → c_Value c = VNil ∧ c_Numeric c = "" ∧ c_MissingFor c = "") ∧
  (c_Numeric c ≠ "" → ∃ u, validateNumeric (c_Numeric c) = Ok u).
Proof.
  unfold compile_condition. intros H. apply fail_if_bind in H as [_ H]. apply bind_Ok in H as (c1 & H & _).
  destruct (c_Numeric c ≟ "") eqn:En; cbn [negb] in H; [destruct (c_MissingFor c ≟ "") eqn:Em; cbn [negb] in H|].
  - split; [|by bools]. intros Hs. split_and!; [|by bools|by bools]. res_inv.
    by eapply check_operator_signal.
  - split; [|by bools]. intros Hs. res_inv. bools. exfalso. revert Hs. by match goal with Ho : c_Operator _ = _ |- _ => rewrite Ho end.
  - split.
    + intros Hs. res_inv. bools. exfalso. revert Hs. by match goal with Ho : c_Operator _ = _ |- _ => rewrite Ho end.
    + intros _. res_inv. by eexists.
Qed.

(** C26: the evaluator accepts every compiled watch: [condition.New] succeeds on
    it, keeps the definition unchanged and is well formed. *)
Theorem Compile_evaluable d c revision :
  compile d = Ok c → ∃ e, New parse_template (cp_Definition c) revision = Ok e ∧ e_definition e = cp_Definition c ∧ wf_evaluator e.
Proof.
  intros H. pose proof (Compile_copied _ _ H) as Hcopy. apply Compile_inv in H as (d1 & _ & _ & H3 & _).
  pose proof (compile_spec_bounds _ _ H3) as Hb. apply compile_spec_normal in H3. set (def := cp_Definition c) in *.
  unfold compile_spec in H3. apply bind_Ok in H3 as (s1 & _ & H). apply bind_Ok in H as (s & _ & H).
  apply bind_Ok in H as ([] & _ & H). apply bind_Ok in H as (co & H4 & H). apply bind_Ok in H as (p & H5 & H).
  apply bind_Ok in H as (g & _ & H). apply bind_Ok in H as ([] & _ & H). apply bind_Ok in H as ([] & H8 & H).
  apply bind_Ok in H as (l & _ & H). apply bind_Ok in H as (ts & _ & H). injection H as Hdef.
  destruct (compile_condition_facts _ _ H4) as [Hsig Hnum]. destruct (compile_condition_normal _ _ H4) as (_ & _ & _ & Ho).
  destruct (compile_policy_bounds _ _ _ _ H5) as (_ & _ & _ & Hlev). rewrite Ho in Hlev.
  assert (Hpol : p_Trigger (sp_Policy (d_Spec def)) = p_Trigger p ∧ p_Consecutive (sp_Policy (d_Spec def)) = p_Consecutive p)
    by (rewrite <- Hdef; done). destruct Hpol as [Ept Epc]. rewrite <- Ept, <- Epc in Hlev. clear Hdef Ept Epc.
  destruct Hb. assert (Hex : ∃ x m, (if c_Numeric (sp_Condition (d_Spec def)) ≟ "" then Ok (None, 0) else
      x ← ParseExpression (c_Numeric (sp_Condition (d_Spec def))); m ← max_window (Windows x) 0; Ok (Some x, m)) = Ok (x, m)).
  { destruct (c_Numeric _ ≟ "") eqn:En; [by eexists _, _|]. bools. destruct (Hnum En) as [u Hu].
    destruct (validateNumeric_leaves _ _ Hu) as (x & -> & Hx). cbn [mbind result_bind].
    destruct (max_window_Ok (Windows x) 0) as [m ->]; [|by eexists _, _].
    intros w Hw. destruct (Windows_of_leaves _ _ Hw) as (lf & Hlf & _ & -> & _). by apply Hx. }
  destruct Hex as (x & m & Hex). unfold check_message in H8. apply fail_if_bind in H8 as [_ H8]. apply bind_Ok in H8 as (msg & Hmsg & _).
  unfold New. rewrite Hcopy. cbn [mbind result_bind]. unfold condition_of, policy_of, limits_of. rewrite fail_if_pass.
  2:{ destruct (signal_operator _) eqn:Es; [|done]. destruct (Hsig eq_refl) as (-> & -> & ->). destruct (Hlev eq_refl) as (-> & ->). done. }
  rewrite fail_if_pass by (rewrite !orb_false_iff, !Z.ltb_ge; lia). rewrite Hex. cbn [mbind result_bind]. rewrite Hmsg.
  eexists. split_and!; [done|done|]. constructor; unfold epolicy, elimits, policy_of, limits_of; cbn; fold def; unfold max_int64; lia.
Qed.

Lemma compile_spec_reordered d g ts sp :
  g ≡ₚ sp_GroupBy (d_Spec d) → ts ≡ₚ sp_Destinations (d_Spec d) → spec (d_Spec d) = Ok sp → spec (d_Spec (reordered d g ts)) = Ok sp.
Proof.
  intros Hg Ht. unfold compile_spec. intros H. apply bind_Ok in H as (s1 & H1 & H). apply bind_Ok in H as (s & H2 & H).
  apply bind_Ok in H as ([] & H3 & H). apply bind_Ok in H as (c & H4 & H). apply bind_Ok in H as (p & H5 & H).
  apply bind_Ok in H as (g' & H6 & H). apply bind_Ok in H as ([] & H7 & H). apply bind_Ok in H as ([] & H8 & H).
  apply bind_Ok in H as (l & H9 & H). apply bind_Ok in H as (ts' & H10 & H). injection H as <-.
  assert (Hsrc : compile_source_type compile_regexp url_parse (d_Spec (reordered d g ts)) = Ok s1).
  { rewrite <- H1. unfold compile_source_type, check_logs_spec. cbv zeta. cbn [d_Spec reordered sp_Source sp_Condition sp_GroupBy sp_Match].
    assert (nonempty g = nonempty (sp_GroupBy (d_Spec d))) as -> by (unfold nonempty; by rewrite Hg). done. }
  rewrite Hsrc. cbn [mbind result_bind]. rewrite H2. cbn [mbind result_bind]. rewrite H3. cbn [mbind result_bind].
  cbn [d_Spec reordered sp_Condition sp_Policy sp_GroupBy sp_Match sp_Message sp_Limits sp_Destinations].
  rewrite H4. cbn [mbind result_bind]. rewrite H5. cbn [mbind result_bind]. rewrite (compile_group_perm _ _ _ Hg H6). cbn [mbind result_bind].
  rewrite H7. cbn [mbind result_bind]. rewrite H8. cbn [mbind result_bind]. rewrite H9. cbn [mbind result_bind].
  by rewrite (compile_targets_perm _ _ _ Ht H10).
Qed.

(** grouping fields and destinations are sets: writing them in another
    order compiles to the same definition, revision and fingerprint. *)
Lemma Compile_order_irrelevant d c g ts :
  g ≡ₚ sp_GroupBy (d_Spec d) → ts ≡ₚ sp_Destinations (d_Spec d) → compile d = Ok c → compile (reordered d g ts) = Ok c.
Proof.
  intros Hg Ht (d1 & H1 & H2 & H3 & H4 & H5 & H6 & H7)%Compile_inv.
  apply (Compile_intro _ (reordered d1 (sanitize <$> g) (copy_target <$> ts))); try done; [by apply copy_reordered|].
  apply compile_spec_reordered; [| |done].
  - unfold copy_definition, copy_spec in H2. repeat (apply bind_Some in H2 as (? & H2' & H2); try injection H2 as <-).
    repeat (apply bind_Some in H2' as (? & _ & H2')). injection H2' as <-. cbn. by rewrite Hg.
  - unfold copy_definition, copy_spec in H2. repeat (apply bind_Some in H2 as (? & H2' & H2); try injection H2 as <-).
    repeat (apply bind_Some in H2' as (? & _ & H2')). injection H2' as <-. cbn. by rewrite Ht.
Qed.

(** The two specifications evaluate the same way. *)
Definition same_evaluation (a b : Spec) : Prop :=
  sp_Source a = sp_Source b ∧ sp_Condition a = sp_Condition b ∧ sp_Policy a = sp_Policy b ∧ sp_GroupBy a = sp_GroupBy b ∧
  sp_Match a = sp_Match b ∧ sp_Limits a = sp_Limits b.

Lemma copy_evaluated a b a' b' :
  copy_definition a = Some a' → copy_definition b = Some b' → same_evaluation (d_Spec a) (d_Spec b) → same_evaluation (d_Spec a') (d_Spec b').
Proof.
  unfold copy_definition, copy_spec. intros Ha Hb (E1 & E2 & E3 & E4 & E5 & E6). rewrite <- E1, <- E2, <- E3, <- E4, <- E5, <- E6 in Hb.
  destruct (copy_source _); [|done]. cbn in *. destruct (copy_condition _); [|done]. cbn in *. destruct (copy_fields _); [|done]. cbn in *.
  injection Ha as <-. injection Hb as <-. done.
Qed.

Lemma source_type_evaluated a b :
  same_evaluation a b → compile_source_type compile_regexp url_parse a = compile_source_type compile_regexp url_parse b.
Proof. intros (E1 & E2 & E3 & E4 & E5 & E6). unfold compile_source_type, check_logs_spec. by rewrite E1, E2, E4, E5. Qed.

Lemma compile_evaluated a b a' b' :
  spec a = Ok a' → spec b = Ok b' → same_evaluation a b → same_evaluation a' b'.
Proof.
  unfold compile_spec. intros Ha Hb E. rewrite <- (source_type_evaluated _ _ E) in Hb. destruct E as (E1 & E2 & E3 & E4 & E5 & E6).
  rewrite <- E2, <- E3, <- E4, <- E5, <- E6 in Hb.
  destruct (compile_source_type _ _ a) as [s1|]; [|done]. cbn [mbind result_bind] in *.
  destruct (compile_polling s1) as [s|]; [|done]. cbn [mbind result_bind] in *. destruct (check_projection _ s); [|done]. cbn [mbind result_bind] in *.
  destruct (compile_condition _) as [c|]; [|done]. cbn [mbind result_bind] in *. destruct (compile_policy _ _ _) as [p|]; [|done]. cbn [mbind result_bind] in *.
  destruct (compile_group _) as [g|]; [|done]. cbn [mbind result_bind] in *. destruct (check_match _); [|done]. cbn [mbind result_bind] in *.
  destruct (check_message _ _) as [|]; [|done]. destruct (check_message _ (sp_Message b)) as [|]; [|done]. cbn [mbind result_bind] in *.
  destruct (compile_limits _) as [l|]; [|done]. cbn [mbind result_bind] in *.
  apply bind_Ok in Ha as (ta & _ & [= <-]). apply bind_Ok in Hb as (tb & _ & [= <-]). done.
Qed.

(** the fingerprint, which decides whether stored state survives an update,
    depends on the evaluated parts only: two watches that agree on source,
    condition, policy, grouping, matching and limits have one fingerprint,
    whatever their names, messages and destinations. *)
Lemma Compile_fingerprint_evaluation d c d' c' :
  compile d = Ok c → compile d' = Ok c' →
  same_evaluation (d_Spec d) (d_Spec d') →
  cp_Fingerprint c = cp_Fingerprint c'.
Proof.
  intros (d1 & _ & C1 & S1 & _ & _ & F1 & _)%Compile_inv (d2 & _ & C2 & S2 & _ & _ & F2 & _)%Compile_inv E0.
  pose proof (copy_evaluated _ _ _ _ C1 C2 E0) as E1.
  enough (fingerprint_json (d_Spec (cp_Definition c)) = fingerprint_json (d_Spec (cp_Definition c'))) as E by (rewrite E in F1; congruence).
  destruct (compile_evaluated _ _ _ _ S1 S2 E1) as (X1 & X2 & X3 & X4 & X5 & X6).
  unfold fingerprint_json. by rewrite X1, X2, X3, X4, X5, X6.
Qed.
End Compiled.

(** ** Destinations *)

Lemma copy_destination_idem d : copy_destination (copy_destination d) = copy_destination d.
Proof.
  unfold copy_destination, copy_metadata. cbn. autorewrite with copied. destruct (ds_URLRef _); cbn; by autorewrite with copied.
Qed.

(** compiling a compiled destination changes nothing, and its retry policy
    is bounded: 1 to 100 attempts, an age of one second to seven days, a first
    backoff of one millisecond to an hour. *)
Lemma CompileDestination_normal d c :
  CompileDestination d = Ok c →
  CompileDestination (cd_Definition c) = Ok c ∧
  let s := dst_Spec (cd_Definition c) in
  1 <= ds_MaxAttempts s <= 100 ∧ Second <= duration_or_zero (ds_MaxAge s) <= 7 * Day ∧
  Millisecond <= duration_or_zero (ds_InitialBackoff s) <= Hour.
Proof.
  unfold CompileDestination. cbv zeta. generalize (copy_destination_idem d). generalize (copy_destination d). clear d.
  intros d Hd H. apply bind_Ok in H as ([] & H1 & H). apply bind_Ok in H as ([] & H2 & H).
  apply bind_Ok in H as ([] & H3 & H). apply fail_if_bind in H as [H4 H]. apply bind_Ok in H as (age & H5 & H).
  apply bind_Ok in H as (bo & H6 & [= <-]). cbn [cd_Definition dst_Spec ds_MaxAttempts ds_MaxAge ds_InitialBackoff].
  rewrite !normal_duration_value. split; [|split; [bools; lia|split; eapply duration_in_value; eassumption]].
  match goal with |- (header (dst_APIVersion (copy_destination ?x)) _ _ _ ;; _) = _ => set (d' := x) end.
  assert (Hc : copy_destination d' = d').
  { subst d'. unfold copy_destination in Hd |- *. cbn. rewrite !normal_duration_copied. destruct d as [? ? ? []]. cbn in *.
    injection Hd. intros. copied_fields. }
  rewrite !Hc. rewrite (bind_pass (header (dst_APIVersion d') _ _ _) _ _ H1).
  rewrite (bind_pass (check_destination_type (dst_Spec d')) _ tt H2), (bind_pass (refs (ds_Headers (dst_Spec d'))) _ tt H3).
  cbn [d' dst_Spec ds_MaxAttempts ds_MaxAge ds_InitialBackoff].
  rewrite set_if_zero_idem, !(set_if_empty_nonempty (normal_duration _)) by (rewrite normal_duration_empty; by eapply duration_in_nonempty).
  rewrite (duration_in_normal _ _ _ _ H5), (duration_in_normal _ _ _ _ H6), H4. cbn [fail_if mbind result_bind].
  by rewrite !normal_duration_idem.
Qed.
