(* ===== verification/PlanExamples.v ===== *)
(** * A concrete definition through the compiler *)
From S2P Require Import Prelude GoText GoFloat GoTime GoJson Sha256 Watch Numeric Evaluator EvaluatorFacts EvaluatorExamples LogWindow LogFrame LogClassify LogExamples Plan PlanFacts PlanSpec.

(** URLs of this example are absolute; every jq program compiles. *)
Definition simple_url (raw : string) : option URL :=
  if HasPrefix raw "https://" then Some {| u_Scheme := "https"; u_Host := "example.org"; u_Hostname := "example.org"; u_User := false; u_Fragment := "" |} else None.
Definition any_jq (program : string) : result unit := Ok tt.

Definition polled : Source :=
  {| s_Logs := None; s_ObservedAtField := ""; s_Type := "http"; s_URL := "https://example.org/load"; s_URLRef := None; s_Every := "90s";
     s_Timeout := ""; s_Headers := ∅; s_Fields := {[ "load" := "stats.load" ]}; s_ItemsPath := ""; s_JQ := ""; s_Argv := [];
     s_Directory := ""; s_Env := ∅ |}.

Definition written_watch (groups : list string) (targets : list Target) (message : string) : Definition_ :=
  {| d_APIVersion := APIVersion; d_Kind := "Watch"; d_Metadata := {| md_ID := "cpu"; md_Name := "CPU" |};
     d_Spec := {| sp_Source := polled; sp_Condition := average;
       sp_Policy := {| p_Trigger := ""; p_Consecutive := 0; p_RecoverAfter := 3; p_OnUnknown := ""; p_Interval := ""; p_MaxGap := "" |};
       sp_GroupBy := groups; sp_Match := ∅; sp_Message := message; sp_Destinations := targets;
       sp_Limits := {| l_MaxEntities := 0; l_MaxSamples := 50; l_MaxBytes := 0; l_MaxOutputs := 0; l_IdleTTL := "" |} |} |}.

Definition targets : list Target := [{| t_Ref := "ops"; t_Events := ["recovered"; "firing"] |}; {| t_Ref := "audit"; t_Events := [] |}].
Definition source_watch : Definition_ := written_watch ["region"; "host"] targets "load is high".
Definition other_watch : Definition_ := written_watch ["region"; "host"] [] "ignore this".

Definition compiled (d : Definition_) : option Compiled :=
  match Compile plain_template any_jq prefix_pattern simple_url d with Ok c => Some c | Err _ => None end.
Definition blank : Compiled := {| cp_Definition := source_watch; cp_Revision := ""; cp_Fingerprint := ""; cp_Permissions := [] |}.
Definition plan : Compiled := Eval vm_compute in default blank (compiled source_watch).
Definition other_plan : Compiled := Eval vm_compute in default blank (compiled other_watch).

Lemma plan_ok : Compile plain_template any_jq prefix_pattern simple_url source_watch = Ok plan.
Proof. vm_compute. reflexivity. Qed.
Lemma other_plan_ok : Compile plain_template any_jq prefix_pattern simple_url other_watch = Ok other_plan.
Proof. vm_compute. reflexivity. Qed.

(** Defaults, normalised durations and sorted sets. *)
Example plan_normal :
  let sp := d_Spec (cp_Definition plan) in
  s_Every (sp_Source sp) = "1m30s" ∧ s_Timeout (sp_Source sp) = "2s" ∧ p_MaxGap (sp_Policy sp) = "3m0s" ∧
  sp_GroupBy sp = ["host"; "region"] ∧ t_Ref <$> sp_Destinations sp = ["audit"; "ops"] ∧ l_IdleTTL (sp_Limits sp) = "24h0m0s".
Proof. vm_compute. repeat split. Qed.

Lemma Compile_idempotent_witness :
  Compile plain_template any_jq prefix_pattern simple_url (cp_Definition plan) = Ok plan ∧ cp_Definition plan ≠ source_watch.
Proof.
  split; [|discriminate].
  apply (Compile_idempotent plain_template any_jq prefix_pattern simple_url source_watch plan); [reflexivity|exact plan_ok].
Defined.

Lemma Compile_bounds_witness : in_bounds (d_Spec (cp_Definition plan)).
Proof. exact (Compile_bounds plain_template any_jq prefix_pattern simple_url source_watch plan plan_ok). Defined.

Lemma Compile_evaluable_witness :
  ∃ e, New plain_template (cp_Definition plan) (cp_Revision plan) = Ok e ∧ e_definition e = cp_Definition plan ∧ wf_evaluator e.
Proof. exact (Compile_evaluable plain_template any_jq prefix_pattern simple_url source_watch plan (cp_Revision plan) plan_ok). Defined.

Lemma Compile_order_irrelevant_witness :
  Compile plain_template any_jq prefix_pattern simple_url (written_watch ["host"; "region"] (rev targets) "load is high") = Ok plan.
Proof.
  apply (Compile_order_irrelevant plain_template any_jq prefix_pattern simple_url source_watch plan ["host"; "region"] (rev targets));
    [constructor|constructor|exact plan_ok].
Defined.

Lemma Compile_fingerprint_evaluation_witness : cp_Fingerprint plan = cp_Fingerprint other_plan ∧ cp_Revision plan ≠ cp_Revision other_plan.
Proof.
  split; [|discriminate].
  apply (Compile_fingerprint_evaluation plain_template any_jq prefix_pattern simple_url source_watch plan other_watch other_plan plan_ok other_plan_ok).
  repeat split.
Defined.

(** ** A destination *)

Definition hook : Destination :=
  {| dst_APIVersion := APIVersion; dst_Kind := "Destination"; dst_Metadata := {| md_ID := "ops"; md_Name := "" |};
     dst_Spec := {| ds_Type := "webhook"; ds_URLRef := Some {| Env := "HOOK_URL" |}; ds_Headers := ∅; ds_MaxAttempts := 0; ds_MaxAge := "90m";
                    ds_InitialBackoff := "" |} |}.
Definition compiled_hook : CompiledDestination := Eval vm_compute in
  match CompileDestination hook with Ok c => c | Err _ => {| cd_Definition := hook; cd_Revision := "" |} end.

Lemma CompileDestination_normal_witness :
  CompileDestination (cd_Definition compiled_hook) = Ok compiled_hook ∧ ds_MaxAge (dst_Spec (cd_Definition compiled_hook)) = "1h30m0s".
Proof.
  split; [|reflexivity]. apply (CompileDestination_normal hook compiled_hook). vm_compute. reflexivity.
Defined.
