(* ===== verification/Outbox.v ===== *)
(** * The durable outbox: [internal/store/outbox.go], [internal/store/scheduling.go]

    Delivery intents, their leases, and the per watch-and-destination streams.
    Each method runs in one serialised transaction, so it is one step on the
    tables; a failing transaction leaves them unchanged.  Tables are lists in
    rowid order.  The triggers of [internal/store/schema14.sql] that keep
    [delivery_streams.active] are part of the statements that fire them. *)
From S2P Require Import Prelude GoText GoJson Watch Plan.

(** ** Tables *)

(** [outbox]; instants are nanoseconds since the Unix epoch. *)
Record row := mkRow {
  r_id : Z; r_event : string; r_watch : string; r_destination : string; r_revision : string; r_payload : string;
  r_status : string; r_attempts : Z; r_next : Z; r_created : Z; r_token : string; r_lease : Z; r_error : string; r_retry : Z }.

(** [delivery_streams] *)
Record stream := mkStream { st_watch : string; st_destination : string; st_turn : Z; st_active : bool }.

(** [delivery_attempts] *)
Record attempt := { at_outbox : Z; at_attempt : Z; at_time : Z; at_outcome : string; at_detail : string }.

(** [tb_next] is the AUTOINCREMENT counter; [tb_events] and [tb_revisions] are the
    rows foreign keys refer to; [tb_backoff] holds the [metadata] entries of
    delivery backoffs under their keys. *)
Record tables := mkTables {
  tb_outbox : list row; tb_next : Z; tb_streams : list stream; tb_backoff : gmap string Z; tb_attempts : list attempt;
  tb_events : gset string; tb_revisions : gmap (string * string) CompiledDestination }.

#[export] Instance eta_row : Eta row := fun r =>
  mkRow (r_id r) (r_event r) (r_watch r) (r_destination r) (r_revision r) (r_payload r) (r_status r) (r_attempts r) (r_next r)
    (r_created r) (r_token r) (r_lease r) (r_error r) (r_retry r).
#[export] Instance upd_r_status : FieldUpdate r_status := ltac:(field_update).
#[export] Instance upd_r_attempts : FieldUpdate r_attempts := ltac:(field_update).
#[export] Instance upd_r_next : FieldUpdate r_next := ltac:(field_update).
#[export] Instance upd_r_token : FieldUpdate r_token := ltac:(field_update).
#[export] Instance upd_r_lease : FieldUpdate r_lease := ltac:(field_update).
#[export] Instance upd_r_error : FieldUpdate r_error := ltac:(field_update).
#[export] Instance upd_r_retry : FieldUpdate r_retry := ltac:(field_update).

#[export] Instance eta_stream : Eta stream := fun s => mkStream (st_watch s) (st_destination s) (st_turn s) (st_active s).
#[export] Instance upd_st_turn : FieldUpdate st_turn := ltac:(field_update).
#[export] Instance upd_st_active : FieldUpdate st_active := ltac:(field_update).

#[export] Instance eta_tables : Eta tables := fun t =>
  mkTables (tb_outbox t) (tb_next t) (tb_streams t) (tb_backoff t) (tb_attempts t) (tb_events t) (tb_revisions t).
#[export] Instance upd_tb_outbox : FieldUpdate tb_outbox := ltac:(field_update).
#[export] Instance upd_tb_next : FieldUpdate tb_next := ltac:(field_update).
#[export] Instance upd_tb_streams : FieldUpdate tb_streams := ltac:(field_update).
#[export] Instance upd_tb_backoff : FieldUpdate tb_backoff := ltac:(field_update).
#[export] Instance upd_tb_events : FieldUpdate tb_events := ltac:(field_update).
#[export] Instance upd_tb_revisions : FieldUpdate tb_revisions := ltac:(field_update).
#[export] Instance upd_tb_attempts : FieldUpdate tb_attempts := ltac:(field_update).

(** [delivery.Outcome] is a string; its constants. *)
Definition Delivered : string := "delivered".
Definition Retryable : string := "retryable".
Definition Permanent : string := "permanent".
Definition Exhausted : string := "exhausted".
Definition Canceled : string := "canceled".
Record Result := { re_Outcome : string; re_RetryAt : time; re_Detail : string }.

Record Intent := {
  it_ID : Z; it_EventID : string; it_WatchID : string; it_DestinationID : string; it_DestinationRevision : string;
  it_Payload : string; it_Status : string; it_Attempts : Z; it_NextAt : time; it_CycleStartedAt : time; it_CreatedAt : time;
  it_LeaseToken : string; it_Destination : CompiledDestination }.

Definition timestamp (t : time) : Z := if IsZero t then 0 else UnixNano t.
Definition instant (ns : Z) : time := if ns =? 0 then zero_time else from_unix_nano ns.

(** [status IN ('pending','leased')] *)
Definition is_live (r : row) : bool := (r_status r ≟ "pending") || (r_status r ≟ "leased").
Definition of_stream (w d : string) (r : row) : bool := (r_watch r ≟ w) && (r_destination r ≟ d).
Definition is_stream (w d : string) (s : stream) : bool := (st_watch s ≟ w) && (st_destination s ≟ d).
Definition live_in (w d : string) (r : row) : bool := of_stream w d r && is_live r.

(** ** Triggers *)

(** [SELECT coalesce(max(last_turn),0)] *)
Definition top_turn (l : list stream) : Z := match l with [] => 0 | s :: l => foldr (fun s n => Z.max (st_turn s) n) (st_turn s) l end.

(** [stream_enqueue] and [stream_retry]: insert an active stream, or activate it. *)
Definition activate (w d : string) (l : list stream) : list stream :=
  if existsb (is_stream w d) l
  then map (fun s => if is_stream w d s && negb (st_active s) then s <| st_active := true |> else s) l
  else (l ++ [mkStream w d (top_turn l + 1) true])%list.

(** [stream_finish]: a stream is active while one of its intents is live. *)
Definition refresh (w d : string) (rows : list row) (l : list stream) : list stream :=
  map (fun s => if is_stream w d s then s <| st_active := existsb (live_in w d) rows |> else s) l.

(** What the triggers do after a row's status was updated. *)
Definition trigger (old new : row) (t : tables) : tables :=
  if negb (is_live old) && is_live new then t <| tb_streams := activate (r_watch new) (r_destination new) (tb_streams t) |>
  else if is_live old && negb (is_live new) then t <| tb_streams := refresh (r_watch old) (r_destination old) (tb_outbox t) (tb_streams t) |>
  else t.

(** [UPDATE outbox SET ... WHERE id=?] *)
Definition row_of (id : Z) (t : tables) : option row := find (fun r => r_id r =? id) (tb_outbox t).
Definition update_row (f : row → row) (r : row) (t : tables) : tables :=
  trigger r (f r) (t <| tb_outbox := map (fun x => if r_id x =? r_id r then f x else x) (tb_outbox t) |>).

(** ** Intents *)

Definition intent_of (r : row) (d : CompiledDestination) : Intent :=
  {| it_ID := r_id r; it_EventID := r_event r; it_WatchID := r_watch r; it_DestinationID := r_destination r;
     it_DestinationRevision := r_revision r; it_Payload := r_payload r; it_Status := r_status r; it_Attempts := r_attempts r;
     it_NextAt := instant (r_next r); it_CycleStartedAt := instant (r_retry r); it_CreatedAt := instant (r_created r);
     it_LeaseToken := r_token r; it_Destination := d |}.

(** [Tx.Intent] *)
Definition read_intent (id : Z) (t : tables) : result Intent :=
  match row_of id t with
  | None => Err "not found"
  | Some r =>
      match tb_revisions t !! (r_destination r, r_revision r) with
      | None => Err "not found"
      | Some d => Ok (intent_of r d)
      end
  end.

(** [Tx.Enqueue]; an event has one intent per destination. *)
Definition Enqueue (i : Intent) (t : tables) : result (tables * Z) :=
  fail_if (existsb (fun r => (r_event r ≟ it_EventID i) && (r_destination r ≟ it_DestinationID i)) (tb_outbox t)) "UNIQUE constraint failed" ;;
  fail_if (negb (bool_decide (it_EventID i ∈ tb_events t)) ||
           negb (bool_decide (is_Some (tb_revisions t !! (it_DestinationID i, it_DestinationRevision i))))) "FOREIGN KEY constraint failed" ;;
  let id := tb_next t in
  let r := mkRow id (it_EventID i) (it_WatchID i) (it_DestinationID i) (it_DestinationRevision i) (it_Payload i) "pending" 0
             (timestamp (it_NextAt i)) (timestamp (it_CreatedAt i)) "" 0 "" 0 in
  Ok (t <| tb_outbox := (tb_outbox t ++ [r])%list |> <| tb_next := id + 1 |>
        <| tb_streams := activate (it_WatchID i) (it_DestinationID i) (tb_streams t) |>, id).

(** ** Claiming *)

(** The oldest live intent of a stream: [ORDER BY p.id LIMIT 1]. *)
Definition oldest (w d : string) (t : tables) : option row := find (live_in w d) (tb_outbox t).

Definition backoff_key (d rev : string) : string := "delivery_backoff:" ++ d ++ ":" ++ rev.
Definition backoff_of (r : row) (t : tables) : option Z := tb_backoff t !! backoff_key (r_destination r) (r_revision r).

(** Leased rows of the same watch, destination and revision. *)
Definition leased_with (o r : row) : bool :=
  of_stream (r_watch o) (r_destination o) r && (r_revision r ≟ r_revision o) && (r_status r ≟ "leased").

(** The conditions of [claimQuery] on a stream's oldest live intent. *)
Definition claimable (now : Z) (t : tables) (o : row) : bool :=
  (((r_status o ≟ "pending") && (r_next o <=? now)) || ((r_status o ≟ "leased") && (r_lease o <=? now)))
  && negb (match backoff_of o t with Some v => now <? v | None => false end)
  && negb (existsb (fun p => leased_with o p && (now <? r_lease p)) (tb_outbox t)).

Definition candidate (now : Z) (t : tables) (s : stream) : option (stream * row) :=
  if st_active s then
    match oldest (st_watch s) (st_destination s) t with
    | Some o => if claimable now t o then Some (s, o) else None
    | None => None
    end
  else None.

(** [ORDER BY s.last_turn,s.watch_id,s.destination_id] *)
Definition stream_compare (a b : stream) : comparison :=
  match st_turn a ?= st_turn b with
  | Eq => match str_compare (st_watch a) (st_watch b) with
          | Eq => str_compare (st_destination a) (st_destination b)
          | c => c
          end
  | c => c
  end.

Fixpoint first_of (l : list (stream * row)) : option (stream * row) :=
  match l with
  | [] => None
  | x :: l =>
      match first_of l with
      | None => Some x
      | Some y => match stream_compare (fst y) (fst x) with Lt => Some y | _ => Some x end
      end
  end.

(** [claimQuery] *)
Definition claim_row (now : Z) (t : tables) : option (stream * row) := first_of (omap (candidate now t) (tb_streams t)).

Definition lease_row (token : string) (until : Z) (r : row) : row :=
  r <| r_status := "leased" |> <| r_token := token |> <| r_lease := until |> <| r_attempts := r_attempts r + 1 |>.

(** [qDeliveryTurn] *)
Definition take_turn (w d : string) (l : list stream) : list stream :=
  map (fun s => if is_stream w d s then s <| st_turn := top_turn l + 1 |> else s) l.

(** [Claim]; [token] is the random lease token. *)
Definition Claim (now : time) (lease : duration) (token : string) (t : tables) : result (tables * option Intent) :=
  fail_if (lease <=? 0) "lease must be positive" ;;
  match claim_row (timestamp now) t with
  | None => Ok (t, None)
  | Some (_, o) =>
      let t := update_row (lease_row token (timestamp (Add now lease))) o t in
      i ← read_intent (r_id o) t;
      Ok (t <| tb_streams := take_turn (it_WatchID i) (it_DestinationID i) (tb_streams t) |>, Some i)
  end.

(** ** Acknowledging *)

Definition finish_row (status : string) (next : Z) (detail : string) (r : row) : row :=
  r <| r_status := status |> <| r_next := next |> <| r_token := "" |> <| r_lease := 0 |> <| r_error := detail |>.

(** [qDeliveryBackoff] keeps the later instant. *)
Definition raise_backoff (key : string) (until : Z) (m : gmap string Z) : gmap string Z :=
  <[key := match m !! key with Some v => Z.max v until | None => until end]> m.

Definition final_status (s : string) : bool := bool_decide (s ∈ ["pending"; "delivered"; "permanent"; "exhausted"; "canceled"]).

(** [Finish] *)
Definition Finish (i : Intent) (r : Result) (nextAt now : time) (t : tables) : result tables :=
  let status := if re_Outcome r ≟ Retryable then "pending" else re_Outcome r in
  fail_if (negb (final_status status)) "invalid delivery outcome" ;;
  match find (fun x => (r_id x =? it_ID i) && (r_status x ≟ "leased") && (r_token x ≟ it_LeaseToken i)) (tb_outbox t) with
  | None => Err "stale generation"
  | Some x =>
      let t := update_row (finish_row status (timestamp nextAt) (re_Detail r)) x t in
      let until := if (re_Outcome r ≟ Retryable) && After nextAt (re_RetryAt r) then nextAt else re_RetryAt r in
      let t := if After until now
               then t <| tb_backoff := raise_backoff (backoff_key (it_DestinationID i) (it_DestinationRevision i)) (timestamp until) (tb_backoff t) |>
               else t in
      Ok (t <| tb_attempts := (tb_attempts t ++ [{| at_outbox := it_ID i; at_attempt := it_Attempts i; at_time := timestamp now;
                                                    at_outcome := re_Outcome r; at_detail := re_Detail r |}])%list |>)
  end.

(** ** Manual retry and cancellation *)

Definition retry_row (now : Z) (r : row) : row :=
  r <| r_status := "pending" |> <| r_attempts := 0 |> <| r_next := now |> <| r_retry := now |> <| r_error := "" |>.

(** [Tx.Retry] *)
Definition Retry (id : Z) (now : time) (t : tables) : result tables :=
  i ← read_intent id t;
  fail_if (negb (it_Status i ≟ "permanent") && negb (it_Status i ≟ "exhausted") && negb (it_Status i ≟ "canceled")) "revision conflict" ;;
  match row_of id t with
  | None => Err "not found"
  | Some r =>
      let t := update_row (retry_row (timestamp now)) r t in
      Ok (t <| tb_attempts := (tb_attempts t ++ [{| at_outbox := id; at_attempt := it_Attempts i; at_time := timestamp now;
                 at_outcome := "manual_retry"; at_detail := "new delivery policy cycle" |}])%list |>)
  end.

Definition cancel_row (r : row) : row :=
  r <| r_status := "canceled" |> <| r_token := "" |> <| r_lease := 0 |> <| r_error := "explicit cancellation" |>.

Definition cancel_attempt (now : Z) (r : row) : attempt :=
  {| at_outbox := r_id r; at_attempt := r_attempts r; at_time := now; at_outcome := "canceled"; at_detail := "explicit cancellation" |}.

(** [Tx.CancelDeliveries]: one audit row per live intent of the watch, then every one
    canceled, the triggers running row by row. *)
Definition CancelDeliveries (watch : string) (now : time) (t : tables) : tables :=
  let doomed := List.filter (fun r => (r_watch r ≟ watch) && is_live r) (tb_outbox t) in
  let t := t <| tb_attempts := (tb_attempts t ++ map (cancel_attempt (timestamp now)) doomed)%list |> in
  fold_left (fun t r => update_row cancel_row r t) doomed t.

(** ** Scheduling *)

(** When a stream's oldest live intent can be claimed next. *)
Definition due_at (t : tables) (o : row) : Z :=
  Z.max (if r_status o ≟ "leased" then r_lease o else r_next o)
    (Z.max (default 0 (backoff_of o t))
           (match List.filter (leased_with o) (tb_outbox t) with
            | [] => 0
            | p :: ps => foldr (fun r n => Z.max (r_lease r) n) (r_lease p) ps
            end)).

Definition stream_due (t : tables) (s : stream) : option Z :=
  if st_active s then due_at t <$> oldest (st_watch s) (st_destination s) t else None.

Definition min_option (a b : option Z) : option Z :=
  match a, b with Some a, Some b => Some (Z.min a b) | None, b => b | a, None => a end.

(** [nextDelivery]: NULL without an active stream. *)
Definition next_delivery (t : tables) : option Z := foldr (fun s n => min_option (stream_due t s) n) None (tb_streams t).

Definition NextDelivery (t : tables) : time := match next_delivery t with Some ns => instant ns | None => zero_time end.
