(* ===== verification/OutboxFacts.v ===== *)
(** * Invariants of the outbox

    Identifiers, stream activity and references, preserved by every operation. *)
From S2P Require Import Prelude GoText GoJson Watch Plan Outbox.

Definition stream_key (s : stream) : string * string := (st_watch s, st_destination s).
Definition row_key (r : row) : string * string := (r_watch r, r_destination r).

Record wf_tables (t : tables) : Prop := {
  wt_ids : StronglySorted Z.lt (r_id <$> tb_outbox t);
  wt_next : Forall (fun r => r_id r < tb_next t) (tb_outbox t);
  wt_keys : NoDup (stream_key <$> tb_streams t);
  wt_active : ∀ s, s ∈ tb_streams t → st_active s = existsb (live_in (st_watch s) (st_destination s)) (tb_outbox t);
  wt_covered : ∀ r, r ∈ tb_outbox t → is_live r = true → row_key r ∈ stream_key <$> tb_streams t;
  wt_revisions : ∀ r, r ∈ tb_outbox t → is_Some (tb_revisions t !! (r_destination r, r_revision r)) }.

(** ** Boolean keys *)

Lemma is_stream_key w d s : is_stream w d s = bool_decide (stream_key s = (w, d)).
Proof. unfold is_stream, stream_key. repeat case_bool_decide; naive_solver. Qed.

Lemma of_stream_key w d r : of_stream w d r = bool_decide (row_key r = (w, d)).
Proof. unfold of_stream, row_key. repeat case_bool_decide; naive_solver. Qed.

Lemma ids_inj t r x : wf_tables t → r ∈ tb_outbox t → x ∈ tb_outbox t → r_id x = r_id r → x = r.
Proof. intros [Hs _ _ _ _ _] Hr Hx. by apply (NoDup_fmap_inj r_id _ _ _ (sorted_lt_NoDup _ Hs)). Qed.

(** ** Streams *)

Lemma activate_keys w d l :
  stream_key <$> activate w d l = if existsb (is_stream w d) l then stream_key <$> l else ((stream_key <$> l) ++ [(w, d)])%list.
Proof.
  unfold activate. destruct (existsb _ l); [|by rewrite fmap_app]. rewrite <- list_fmap_compose. apply list_fmap_ext.
  intros i s _. cbn. by destruct (_ && _).
Qed.

Lemma activate_elem w d l s :
  s ∈ activate w d l → stream_key s = (w, d) ∧ st_active s = true ∨ stream_key s ≠ (w, d) ∧ s ∈ l.
Proof.
  unfold activate. destruct (existsb (is_stream w d) l) eqn:E.
  - rewrite elem_of_map. intros (x & -> & Hx). rewrite is_stream_key. case_bool_decide as Ek; cbn; [left|by right].
    destruct (st_active x) eqn:Ea; cbn; [done|]. split; [|done]. by rewrite <- Ek.
  - rewrite elem_of_app, list_elem_of_singleton. intros [Hs| ->]; [right|by left].
    rewrite existsb_false in E. specialize (E s Hs). rewrite is_stream_key in E. by bools.
Qed.

Lemma refresh_keys w d rows l : stream_key <$> refresh w d rows l = stream_key <$> l.
Proof. unfold refresh. rewrite <- list_fmap_compose. apply list_fmap_ext. intros i s _. cbn. by destruct (is_stream w d s). Qed.

Lemma refresh_elem w d rows l s :
  s ∈ refresh w d rows l → stream_key s = (w, d) ∧ st_active s = existsb (live_in w d) rows ∨ stream_key s ≠ (w, d) ∧ s ∈ l.
Proof.
  unfold refresh. rewrite elem_of_map. intros (x & -> & Hx). rewrite is_stream_key. case_bool_decide as Ek; [left|by right].
  split; [|done]. by rewrite <- Ek.
Qed.

(** ** Updating one row *)

Definition same_identity (f : row → row) : Prop :=
  ∀ r, r_id (f r) = r_id r ∧ row_key (f r) = row_key r ∧ r_revision (f r) = r_revision r.

Definition updated (f : row → row) (r : row) (rows : list row) : list row :=
  map (fun x => if r_id x =? r_id r then f x else x) rows.

Lemma update_row_tables f r t :
  tb_outbox (update_row f r t) = updated f r (tb_outbox t) ∧ tb_next (update_row f r t) = tb_next t ∧
  tb_backoff (update_row f r t) = tb_backoff t ∧ tb_attempts (update_row f r t) = tb_attempts t ∧
  tb_events (update_row f r t) = tb_events t ∧ tb_revisions (update_row f r t) = tb_revisions t.
Proof. unfold update_row, trigger. by repeat case_match. Qed.

Lemma updated_ids f r rows : same_identity f → r_id <$> updated f r rows = r_id <$> rows.
Proof.
  intros Hf. unfold updated. rewrite <- list_fmap_compose. apply list_fmap_ext. intros i x _. cbn. destruct (_ =? _); [|done]. apply Hf.
Qed.

Lemma updated_elem t f r x :
  wf_tables t → r ∈ tb_outbox t → x ∈ updated f r (tb_outbox t) ↔ x = f r ∨ (x ∈ tb_outbox t ∧ r_id x ≠ r_id r).
Proof.
  intros Hw Hr. unfold updated. rewrite elem_of_map. split.
  - intros (y & -> & Hy). destruct (Z.eqb_spec (r_id y) (r_id r)) as [E|E]; [left|right; done]. by rewrite (ids_inj t r y Hw Hr Hy E).
  - intros [-> |[Hx Hne]].
    + exists r. by rewrite Z.eqb_refl.
    + exists x. by destruct (Z.eqb_spec (r_id x) (r_id r)).
Qed.

Lemma live_in_key w d r : live_in w d r = bool_decide (row_key r = (w, d)) && is_live r.
Proof. unfold live_in. by rewrite of_stream_key. Qed.

(** The activity of another stream, or of a row whose liveness stays, is unchanged. *)
Lemma updated_live t f r w d :
  wf_tables t → r ∈ tb_outbox t → same_identity f → (row_key r ≠ (w, d) ∨ is_live (f r) = is_live r) →
  existsb (live_in w d) (updated f r (tb_outbox t)) = existsb (live_in w d) (tb_outbox t).
Proof.
  intros Hw Hr Hf H. apply existsb_map_ext. intros x Hx. destruct (Z.eqb_spec (r_id x) (r_id r)) as [E|E]; [|done].
  rewrite (ids_inj t r x Hw Hr Hx E), !live_in_key. destruct (Hf r) as (_ & -> & _). destruct H as [H|H]; [|by rewrite H].
  by rewrite !bool_decide_eq_false_2.
Qed.

Lemma updated_origin t f r x :
  wf_tables t → r ∈ tb_outbox t → same_identity f → x ∈ updated f r (tb_outbox t) →
  ∃ y, y ∈ tb_outbox t ∧ r_id x = r_id y ∧ row_key x = row_key y ∧ r_revision x = r_revision y ∧ (x = y ∨ (y = r ∧ x = f r)).
Proof.
  intros Hw Hr Hf [-> |[Hx _]]%(updated_elem t); [exists r|exists x|done|done]; split_and!; auto; apply Hf.
Qed.

(** Activity and coverage of the streams after the triggers ran. *)
Definition streams_ok (rows : list row) (l : list stream) : Prop :=
  NoDup (stream_key <$> l) ∧
  (∀ s, s ∈ l → st_active s = existsb (live_in (st_watch s) (st_destination s)) rows) ∧
  (∀ x, x ∈ rows → is_live x = true → row_key x ∈ stream_key <$> l).

Lemma activate_ok rows rows' l w d :
  NoDup (stream_key <$> l) → (∀ s, s ∈ l → st_active s = existsb (live_in (st_watch s) (st_destination s)) rows) →
  (∀ w' d', (w', d') ≠ (w, d) → existsb (live_in w' d') rows' = existsb (live_in w' d') rows) →
  existsb (live_in w d) rows' = true →
  (∀ x, x ∈ rows' → is_live x = true → row_key x = (w, d) ∨ row_key x ∈ stream_key <$> l) → streams_ok rows' (activate w d l).
Proof.
  intros Hn Ha Hother Hhere Hcov. split_and!.
  - rewrite activate_keys. destruct (existsb (is_stream w d) l) eqn:E; [done|]. apply list.NoDup_app. split_and!; [done| |apply NoDup_singleton].
    intros k Hk ->%list_elem_of_singleton. apply list_elem_of_fmap in Hk as (s & Hs & Hin). rewrite existsb_false in E. specialize (E s Hin).
    rewrite is_stream_key in E. bools. congruence.
  - intros s [[Hk ->]|[Hk Hs]]%activate_elem.
    + injection Hk as -> ->. by rewrite Hhere.
    + rewrite Hother by (intros [= E1 E2]; apply Hk; unfold stream_key; congruence). by apply Ha.
  - intros x Hx Hl. rewrite activate_keys. destruct (Hcov x Hx Hl) as [->|Hin].
    + destruct (existsb (is_stream w d) l) eqn:E; [|apply elem_of_app; right; by left].
      apply existsb_In in E as (s & Hs & Hk). rewrite is_stream_key in Hk. bools. rewrite <- Hk. by apply list_elem_of_fmap_2.
    + destruct (existsb _ l); [done|]. apply elem_of_app. by left.
Qed.

Lemma trigger_ok f r t :
  wf_tables t → r ∈ tb_outbox t → same_identity f → streams_ok (updated f r (tb_outbox t)) (tb_streams (update_row f r t)).
Proof.
  intros Hw Hr Hf. pose proof Hw as [W1 W2 W3 W4 W5 W6]. destruct (Hf r) as (_ & Hk & _).
  assert (Hstay : ∀ x, x ∈ updated f r (tb_outbox t) → is_live x = true → is_live r = true ∨ is_live (f r) = false →
            row_key x ∈ stream_key <$> tb_streams t).
  { intros x Hx Hl Hor. destruct (updated_origin t f r x Hw Hr Hf Hx) as (y & Hy & _ & -> & _ & [<-|[-> ->]]); [by apply W5|].
    destruct Hor as [Hor|Hor]; [by apply W5|congruence]. }
  assert (Hfr : f r ∈ updated f r (tb_outbox t)) by (apply updated_elem; auto).
  unfold update_row, trigger. destruct (is_live r) eqn:El, (is_live (f r)) eqn:El'; cbn [negb andb].
  - split_and!; [done| |by eauto]. intros s Hs. rewrite (updated_live t) by (try done; right; congruence). by apply W4.
  - change (streams_ok (updated f r (tb_outbox t)) (refresh (r_watch r) (r_destination r) (updated f r (tb_outbox t)) (tb_streams t))).
    split_and!; [by rewrite refresh_keys| |intros x Hx Hl; rewrite refresh_keys; by eauto].
    intros s [[Hs ->]|[Hs Hin]]%refresh_elem; [by injection Hs as -> ->|]. rewrite W4 by done. symmetry. apply updated_live; try done. left.
    intros [= E1 E2]. apply Hs. unfold stream_key. congruence.
  - change (streams_ok (updated f r (tb_outbox t)) (activate (r_watch (f r)) (r_destination (f r)) (tb_streams t))).
    apply (activate_ok (tb_outbox t)); try done.
    + intros w' d' Hne. apply updated_live; try done. left. rewrite <- Hk. unfold row_key. congruence.
    + apply existsb_In. exists (f r). split; [done|]. rewrite live_in_key, El'. by rewrite bool_decide_eq_true_2.
    + intros x Hx Hl. destruct (updated_origin t f r x Hw Hr Hf Hx) as (y & Hy & _ & Hxy & _ & [<-|[-> ->]]); [right; by apply W5|by left].
  - split_and!; [done| |by eauto]. intros s Hs. rewrite (updated_live t) by (try done; right; congruence). by apply W4.
Qed.

Lemma update_row_wf f r t : wf_tables t → r ∈ tb_outbox t → same_identity f → wf_tables (update_row f r t).
Proof.
  intros Hw Hr Hf. destruct (update_row_tables f r t) as (Eo & En & _ & _ & _ & Er).
  destruct (trigger_ok f r t Hw Hr Hf) as (S1 & S2 & S3). pose proof Hw as [W1 W2 W3 W4 W5 W6].
  constructor; rewrite ?Eo, ?En, ?Er; try done; [by rewrite updated_ids| |].
  - apply list.Forall_forall. intros x (y & Hy & -> & _)%(updated_origin t); try done. by apply (proj1 (list.Forall_forall _ _) W2).
  - intros x (y & Hy & _ & Hkey & -> & _)%(updated_origin t); try done. injection Hkey as _ ->. by apply W6.
Qed.

(** The tables other than rows and streams are irrelevant. *)
Lemma wf_tables_same t t' :
  wf_tables t → tb_outbox t' = tb_outbox t → tb_next t' = tb_next t → tb_streams t' = tb_streams t → tb_revisions t' = tb_revisions t → wf_tables t'.
Proof. intros [] E1 E2 E3 E4. constructor; rewrite ?E1, ?E2, ?E3, ?E4; done. Qed.

(** ** Every operation preserves the invariant *)

Ltac identity := intros r; by split_and!.

Lemma lease_identity token until : same_identity (lease_row token until).
Proof. identity. Qed.
Lemma finish_identity status next detail : same_identity (finish_row status next detail).
Proof. identity. Qed.
Lemma retry_identity now : same_identity (retry_row now).
Proof. identity. Qed.
Lemma cancel_identity : same_identity cancel_row.
Proof. identity. Qed.
#[export] Hint Resolve lease_identity finish_identity retry_identity cancel_identity : ding.

Lemma Enqueue_wf i t t' id : wf_tables t → Enqueue i t = Ok (t', id) → wf_tables t'.
Proof.
  intros [W1 W2 W3 W4 W5 W6] H. unfold Enqueue in H. apply fail_if_bind in H as [_ H]. apply fail_if_bind in H as [Hfk H].
  injection H as <- _. apply orb_false_iff in Hfk as [_ Hfk]. bools.
  set (r := mkRow _ _ _ _ _ _ _ _ _ _ _ _ _ _).
  assert (Hs : streams_ok (tb_outbox t ++ [r]) (activate (it_WatchID i) (it_DestinationID i) (tb_streams t))).
  { apply (activate_ok (tb_outbox t)); try done.
    - intros w' d' Hne. rewrite existsb_app. cbn. rewrite live_in_key. cbn. rewrite bool_decide_eq_false_2 by (unfold row_key; cbn; congruence).
      by rewrite !orb_false_r.
    - rewrite existsb_app. cbn. rewrite live_in_key. cbn. rewrite bool_decide_eq_true_2 by done. by rewrite orb_true_r.
    - intros x [Hx|Hx]%elem_of_app Hl; [right; by apply W5|]. apply list_elem_of_singleton in Hx as ->. by left. }
  destruct Hs as (S1 & S2 & S3). constructor; cbn; try done.
  - rewrite fmap_app. apply sorted_snoc; [done|]. by apply Forall_fmap.
  - apply Forall_app. split; [|repeat constructor; cbn; lia]. eapply list.Forall_impl; [done|]. cbn. intros; lia.
  - intros x [Hx|Hx]%elem_of_app; [by apply W6|]. apply list_elem_of_singleton in Hx as ->. done.
Qed.

Lemma take_turn_keys w d l : stream_key <$> take_turn w d l = stream_key <$> l.
Proof.
  unfold take_turn. generalize (top_turn l + 1). intros n. rewrite <- list_fmap_compose. apply list_fmap_ext. intros i s _. cbn.
  by destruct (is_stream w d s).
Qed.

Lemma take_turn_wf w d t : wf_tables t → wf_tables (t <| tb_streams := take_turn w d (tb_streams t) |>).
Proof.
  intros [W1 W2 W3 W4 W5 W6]. constructor; cbn; try done.
  - by rewrite take_turn_keys.
  - intros s (x & -> & Hx)%elem_of_map. destruct (is_stream w d x); cbn; by apply W4.
  - intros r Hr Hl. rewrite take_turn_keys. by apply W5.
Qed.

Lemma first_of_elem l x : first_of l = Some x → x ∈ l.
Proof.
  revert x. induction l as [|y l IH]; intros x; cbn; [done|]. destruct (first_of l) as [z|] eqn:E.
  - destruct (stream_compare _ _); intros [= <-]; [left|right; by apply IH|left].
  - intros [= <-]. left.
Qed.

Lemma claim_row_elem now t s o :
  claim_row now t = Some (s, o) →
  s ∈ tb_streams t ∧ st_active s = true ∧ oldest (st_watch s) (st_destination s) t = Some o ∧ claimable now t o = true.
Proof.
  intros H. apply first_of_elem, list_elem_of_omap in H as (s' & Hs & Hc). unfold candidate in Hc.
  destruct (st_active s') eqn:Ea; [|done]. destruct (oldest _ _ t) as [o'|] eqn:Eo; [|done]. destruct (claimable now t o') eqn:Ec; [|done].
  by injection Hc as -> ->.
Qed.

Lemma oldest_elem w d t o : oldest w d t = Some o → o ∈ tb_outbox t ∧ row_key o = (w, d) ∧ is_live o = true.
Proof. intros [H1 H2]%find_elem. rewrite live_in_key in H2. by bools. Qed.

(** Claiming a row leaves its updated self behind. *)
Lemma read_updated t f r :
  wf_tables t → r ∈ tb_outbox t → same_identity f →
  ∃ d, tb_revisions t !! (r_destination r, r_revision r) = Some d ∧ read_intent (r_id r) (update_row f r t) = Ok (intent_of (f r) d).
Proof.
  intros Hw Hr Hf. destruct (update_row_tables f r t) as (Eo & _ & _ & _ & _ & Er).
  assert (Hw' : wf_tables (update_row f r t)) by by apply update_row_wf.
  assert (Hin : f r ∈ tb_outbox (update_row f r t)) by (rewrite Eo; apply updated_elem; auto).
  destruct (Hf r) as (Hid & Hk & Hrev). unfold read_intent, row_of.
  destruct (find _ (tb_outbox (update_row f r t))) as [x|] eqn:E.
  - apply find_elem in E as [Hx Heq]. bools. assert (x = f r) as -> by (eapply ids_inj; [done|done|done|congruence]).
    rewrite Er, Hrev. injection Hk as _ ->. destruct (wt_revisions t Hw r Hr) as [d Hd]. exists d. by rewrite Hd.
  - apply find_none with (x := f r) in E; [|by apply list_elem_of_In]. rewrite Hid, Z.eqb_refl in E. done.
Qed.

Lemma Claim_wf now lease token t t' i : wf_tables t → Claim now lease token t = Ok (t', i) → wf_tables t'.
Proof.
  intros Hw H. unfold Claim in H. apply fail_if_bind in H as [_ H]. destruct (claim_row _ t) as [[s o]|] eqn:E; [|by injection H as <- _].
  apply bind_Ok in H as (j & _ & H). injection H as <- _. apply take_turn_wf, update_row_wf; auto with ding.
  apply claim_row_elem in E as (_ & _ & Ho & _). by apply oldest_elem in Ho as [? _].
Qed.

(** Every claim of a well-formed outbox succeeds. *)
Lemma Claim_succeeds now lease token t : wf_tables t → 0 < lease → ∃ t' i, Claim now lease token t = Ok (t', i).
Proof.
  intros Hw Hl. unfold Claim. rewrite (proj2 (Z.leb_gt _ _) Hl). cbn [fail_if mbind result_bind].
  destruct (claim_row _ t) as [[s o]|] eqn:E; [|do 2 eexists; reflexivity].
  apply claim_row_elem in E as (_ & _ & Ho & _). apply oldest_elem in Ho as (Ho & _).
  destruct (read_updated t (lease_row token (timestamp (Add now lease))) o Hw Ho (lease_identity _ _)) as (d & _ & ->). do 2 eexists; reflexivity.
Qed.

Lemma Finish_wf i r next now t t' : wf_tables t → Finish i r next now t = Ok t' → wf_tables t'.
Proof.
  intros Hw. unfold Finish. cbv zeta. intros H. apply fail_if_bind in H as [_ H].
  destruct (find _ (tb_outbox t)) as [x|] eqn:E; [|done]. apply find_elem in E as [Hx _]. injection H as <-.
  match goal with |- context [update_row ?f x t] => pose proof (update_row_wf f x t Hw Hx (finish_identity _ _ _)) as Hu end.
  eapply wf_tables_same; [exact Hu| | | |]; by destruct (After _ now).
Qed.

Lemma Retry_wf id now t t' : wf_tables t → Retry id now t = Ok t' → wf_tables t'.
Proof.
  intros Hw. unfold Retry. intros H. apply bind_Ok in H as (i & _ & H). apply fail_if_bind in H as [_ H].
  destruct (row_of id t) as [x|] eqn:E; [|done]. apply find_elem in E as [Hx _]. injection H as <-.
  eapply wf_tables_same; [exact (update_row_wf _ x t Hw Hx (retry_identity (timestamp now)))| | | |]; done.
Qed.

(** Updating rows one after another. *)
Lemma update_rows_wf f ds t :
  same_identity f → NoDup (r_id <$> ds) → (∀ r, r ∈ ds → r ∈ tb_outbox t) → wf_tables t →
  wf_tables (fold_left (fun t r => update_row f r t) ds t).
Proof.
  intros Hf. revert t. induction ds as [|r ds IH]; intros t Hn Hin Hw; [done|]. cbn. apply list.NoDup_cons in Hn as [Hr Hn].
  assert (Hrt : r ∈ tb_outbox t) by (apply Hin; left). apply IH; [done| |by apply update_row_wf].
  intros x Hx. destruct (update_row_tables f r t) as (-> & _). apply updated_elem; [done|done|]. right. split; [apply Hin; by right|].
  intros Heq. apply Hr. rewrite <- Heq. by apply list_elem_of_fmap_2.
Qed.

Lemma CancelDeliveries_wf w now t : wf_tables t → wf_tables (CancelDeliveries w now t).
Proof.
  intros Hw. unfold CancelDeliveries. cbv zeta. apply update_rows_wf; auto with ding.
  - apply NoDup_filter_fmap, sorted_lt_NoDup, Hw.
  - by intros r [Hr _]%elem_of_filter_bool.
  - by eapply wf_tables_same.
Qed.

(** ** Runs of operations *)

Inductive op :=
| OEnqueue (i : Intent)
| OClaim (now : time) (lease : duration) (token : string)
| OFinish (i : Intent) (r : Result) (next now : time)
| ORetry (id : Z) (now : time)
| OCancel (watch : string) (now : time).

(** A transaction that fails changes nothing. *)
Definition step (t : tables) (o : op) : tables :=
  match o with
  | OEnqueue i => match Enqueue i t with Ok (t', _) => t' | Err _ => t end
  | OClaim now lease token => match Claim now lease token t with Ok (t', _) => t' | Err _ => t end
  | OFinish i r next now => match Finish i r next now t with Ok t' => t' | Err _ => t end
  | ORetry id now => match Retry id now t with Ok t' => t' | Err _ => t end
  | OCancel watch now => CancelDeliveries watch now t
  end.

Lemma step_wf t o : wf_tables t → wf_tables (step t o).
Proof.
  intros Hw. destruct o as [i|now lease token|i r next now|id now|w now]; cbn.
  - destruct (Enqueue i t) as [[t' id]|] eqn:E; [by eapply Enqueue_wf|done].
  - destruct (Claim _ _ _ t) as [[t' i]|] eqn:E; [by eapply Claim_wf|done].
  - destruct (Finish _ _ _ _ t) eqn:E; [by eapply Finish_wf|done].
  - destruct (Retry _ _ t) eqn:E; [by eapply Retry_wf|done].
  - by apply CancelDeliveries_wf.
Qed.

Lemma steps_wf t ops : wf_tables t → wf_tables (foldl step t ops).
Proof. revert t. induction ops as [|o ops IH]; intros t Hw; cbn; [done|]. by apply IH, step_wf. Qed.
