(* ===== verification/PushReceipts.v ===== *)
(** * Push receipts and why their statistics are exact: [internal/store/push.go], [internal/store/statements_push.go], [internal/store/schema8.sql]

    Idempotency receipts of hosted pushes, the usage counters, and the cached
    statistics that admission reads instead of counting rows.  The triggers of
    [schema8.sql] are part of the statements that fire them. *)

From S2P Require Import Prelude GoText GoTime Outbox.

(** ** Tables *)

Record PushReceipt := {
  pr_AcceptanceID : string; pr_WatchID : string; pr_Generation : Z; pr_Revision : string; pr_First : Z; pr_Last : Z;
  pr_Duplicate : bool; pr_AcceptedAt : time; pr_ExpiresAt : time }.
Record push_row := { q_digest : string; q_body : PushReceipt; q_expires : Z }.
Record push_stats := { ps_total : Z; ps_expired : Z; ps_checked : Z; ps_earliest : Z }.
Record PushUsage := { pu_Requests : Z; pu_Bytes : Z; pu_Observations : Z }.

(** Receipts are keyed by watch lifetime, producer and key; [pt_stats] is the
    singleton row, if present. *)
Record push_tables := mkPush {
  pt_receipts : gmap (string * string * string) push_row; pt_stats : option push_stats; pt_usage : PushUsage;
  pt_last : gmap string (string * PushReceipt) }.

#[export] Instance eta_push_tables : Eta push_tables := fun t => mkPush (pt_receipts t) (pt_stats t) (pt_usage t) (pt_last t).
#[export] Instance upd_pt_receipts : FieldUpdate pt_receipts := ltac:(field_update).
#[export] Instance upd_pt_stats : FieldUpdate pt_stats := ltac:(field_update).
#[export] Instance upd_pt_usage : FieldUpdate pt_usage := ltac:(field_update).
#[export] Instance upd_pt_last : FieldUpdate pt_last := ltac:(field_update).

Abbreviation receipts := (gmap (string * string * string) push_row).

(** ** Statements *)

Definition b2z (b : bool) : Z := if b then 1 else 0.
Definition expired_at (at_ : Z) (r : push_row) : bool := q_expires r <=? at_.
(** [qExpiredPushCount]: the rows with [expires_at<=?] *)
Definition count_expired (at_ : Z) (m : receipts) : Z := Z.of_nat (size (filter (fun kv : (string * string * string) * push_row => expired_at at_ (snd kv) = true) m)).
Definition total (m : receipts) : Z := Z.of_nat (size m).
(** [coalesce(min(expires_at),0)] *)
Definition min_list (l : list Z) : Z := match l with [] => 0 | x :: l => foldr Z.min x l end.
Definition earliest (m : receipts) : Z := min_list ((fun kv => q_expires (snd kv)) <$> map_to_list m).

(** The triggers, on the statistics before the statement and the table after it;
    the CHECK constraint of the table fails the statement. *)
Definition checked (s : push_stats) : result (option push_stats) :=
  if (0 <=? ps_total s) && (0 <=? ps_expired s) && (ps_expired s <=? ps_total s) then Ok (Some s) else Err "CHECK constraint failed".

Definition on_insert (new : push_row) (s : push_stats) : result (option push_stats) :=
  checked {| ps_total := ps_total s + 1; ps_expired := ps_expired s + b2z (expired_at (ps_checked s) new); ps_checked := ps_checked s;
             ps_earliest := if ps_total s =? 0 then q_expires new else Z.min (ps_earliest s) (q_expires new) |}.
Definition on_delete (old : push_row) (m : receipts) (s : push_stats) : result (option push_stats) :=
  checked {| ps_total := ps_total s - 1; ps_expired := ps_expired s - b2z (expired_at (ps_checked s) old); ps_checked := ps_checked s;
             ps_earliest := earliest m |}.
Definition on_expiry (old new : push_row) (m : receipts) (s : push_stats) : result (option push_stats) :=
  if q_expires old =? q_expires new then Ok (Some s)
  else checked {| ps_total := ps_total s;
                  ps_expired := ps_expired s - b2z (expired_at (ps_checked s) old) + b2z (expired_at (ps_checked s) new);
                  ps_checked := ps_checked s; ps_earliest := earliest m |}.

Definition fire_stats (f : push_stats → result (option push_stats)) (s : option push_stats) : result (option push_stats) :=
  match s with Some s => f s | None => Ok None end.

(** [qSavePushReceipt]: insert, or replace the row with the same key. *)
Definition put_receipt (k : string * string * string) (r : push_row) (t : push_tables) : result push_tables :=
  let m := <[k := r]> (pt_receipts t) in
  s ← fire_stats (match pt_receipts t !! k with None => on_insert r | Some old => on_expiry old r m end) (pt_stats t);
  Ok (t <| pt_receipts := m |> <| pt_stats := s |>).

Definition delete_receipt (k : string * string * string) (t : push_tables) : result push_tables :=
  match pt_receipts t !! k with
  | None => Ok t
  | Some old =>
      let m := delete k (pt_receipts t) in
      s ← fire_stats (on_delete old m) (pt_stats t);
      Ok (t <| pt_receipts := m |> <| pt_stats := s |>)
  end.

(** [qRetainBatchPushReceipts]: the receipts that expired first, up to [limit];
    the trigger runs for every deleted row. *)
Fixpoint delete_all (l : list (string * string * string)) (t : push_tables) : result push_tables :=
  match l with [] => Ok t | k :: l => t ← delete_receipt k t; delete_all l t end.
Definition expires_first (a b : (string * string * string) * push_row) : Prop := q_expires (snd a) <= q_expires (snd b).
#[global] Instance expires_first_dec : RelDecision expires_first.
Proof. intros a b. unfold expires_first. apply _. Defined.
Definition expired_push (now : time) (limit : nat) (t : push_tables) : list (string * string * string) :=
  fst <$> take limit (merge_sort expires_first (map_to_list
    (filter (fun kv : (string * string * string) * push_row => expired_at (timestamp now) (snd kv) = true) (pt_receipts t)))).
Definition RetainPush (now : time) (limit : nat) (t : push_tables) : result push_tables := delete_all (expired_push now limit t) t.

(** ** Methods *)

Definition ErrIdempotency : string := "idempotency key reused with different request bytes".

(** What reading the stored receipt back gives. *)
Definition copy_receipt (r : PushReceipt) : option PushReceipt :=
  accepted ← copy_time (pr_AcceptedAt r);
  expires ← copy_time (pr_ExpiresAt r);
  Some {| pr_AcceptanceID := sanitize (pr_AcceptanceID r); pr_WatchID := sanitize (pr_WatchID r); pr_Generation := pr_Generation r;
          pr_Revision := sanitize (pr_Revision r); pr_First := pr_First r; pr_Last := pr_Last r; pr_Duplicate := pr_Duplicate r;
          pr_AcceptedAt := accepted; pr_ExpiresAt := expires |}.

Definition duplicate (r : PushReceipt) : PushReceipt :=
  {| pr_AcceptanceID := pr_AcceptanceID r; pr_WatchID := pr_WatchID r; pr_Generation := pr_Generation r; pr_Revision := pr_Revision r;
     pr_First := pr_First r; pr_Last := pr_Last r; pr_Duplicate := true; pr_AcceptedAt := pr_AcceptedAt r; pr_ExpiresAt := pr_ExpiresAt r |}.

(** [Tx.PushReceipt] *)
Definition FindPush (lifetime producer key digest : string) (now : time) (t : push_tables) : result PushReceipt :=
  match pt_receipts t !! (lifetime, producer, key) with
  | None => Err "not found"
  | Some r =>
      if q_expires r <=? timestamp now then Err "not found"
      else if negb (digest ≟ q_digest r) then Err ErrIdempotency
      else Ok (duplicate (q_body r))
  end.

(** [known] is the foreign key of [push_last] on watches. *)
Definition SavePushReceipt (lifetime producer key digest : string) (r : PushReceipt) (bytes observations : Z) (known : bool)
    (t : push_tables) : result push_tables :=
  match copy_receipt r with
  | None => Err "json: unsupported value"
  | Some body =>
      t ← put_receipt (lifetime, producer, key) {| q_digest := digest; q_body := body; q_expires := timestamp (pr_ExpiresAt r) |} t;
      fail_if (negb known) "FOREIGN KEY constraint failed" ;;
      let u := pt_usage t in
      Ok (t <| pt_last := <[pr_WatchID r := (lifetime, body)]> (pt_last t) |>
            <| pt_usage := {| pu_Requests := pu_Requests u + 1; pu_Bytes := pu_Bytes u + bytes;
                              pu_Observations := pu_Observations u + observations |} |>)
  end.

Definition rebuildPushReceiptCount (writable : bool) (now : time) (t : push_tables) : result (push_tables * Z) :=
  let at_ := timestamp now in
  let m := pt_receipts t in
  let expired := count_expired at_ m in
  s ← (if writable then checked {| ps_total := total m; ps_expired := expired; ps_checked := at_; ps_earliest := earliest m |}
       else Ok (pt_stats t));
  Ok (t <| pt_stats := s |>, total m - expired).

(** The number of expired receipts from the cached count: unchanged since the
    watermark, recounted after a backward jump, or increased by what fell due. *)
Definition expired_now (at_ : Z) (m : receipts) (s : push_stats) : Z :=
  if at_ <? ps_checked s then count_expired at_ m
  else if ps_checked s <? at_ then
    ps_expired s + Z.of_nat (size (filter (fun kv : (string * string * string) * push_row => ps_checked s < q_expires (snd kv) ∧ q_expires (snd kv) <= at_) m))
  else ps_expired s.

Definition PushReceiptCount (writable : bool) (now : time) (t : push_tables) : result (push_tables * Z) :=
  match pt_stats t with
  | None => rebuildPushReceiptCount writable now t
  | Some s =>
      let at_ := timestamp now in
      if (ps_total s =? 0) || (at_ <? ps_earliest s) then Ok (t, ps_total s)
      else
        let n := expired_now at_ (pt_receipts t) s in
        if writable && (negb (n =? ps_expired s) || (at_ <? ps_checked s))
        then s' ← checked {| ps_total := ps_total s; ps_expired := n; ps_checked := at_; ps_earliest := ps_earliest s |};
             Ok (t <| pt_stats := s' |>, ps_total s - n)
        else Ok (t, ps_total s - n)
  end.

Definition LastPush (lifetime watch : string) (t : push_tables) : result PushReceipt :=
  match pt_last t !! watch with
  | Some (l, r) => if l ≟ lifetime then Ok r else Err "not found"
  | None => Err "not found"
  end.

(** * The cached receipt statistics are exact

    Triggers, retention and the watermark of [PushReceiptCount] keep the
    statistics equal to what counting the table gives, for any sequence of
    operations and any clock. *)

(** ** Counting *)

Section Counting.
Context (P : push_row → bool).
Definition cnt (m : receipts) : Z := Z.of_nat (size (filter (fun kv : (string * string * string) * push_row => P (snd kv) = true) m)).
Definition weight (o : option push_row) : Z := match o with Some r => b2z (P r) | None => 0 end.

Lemma cnt_delete k m : cnt (delete k m) = cnt m - weight (m !! k).
Proof.
  unfold cnt, weight. rewrite map_filter_delete.
  destruct (m !! k) as [r|] eqn:E.
  - destruct (P r) eqn:Er; cbn.
    + rewrite map_size_delete_Some by (exists r; by apply map_lookup_filter_Some). 
      assert (filter (fun kv : (string * string * string) * push_row => P (snd kv) = true) m !! k = Some r) by by apply map_lookup_filter_Some.
      assert (size (filter (fun kv : (string * string * string) * push_row => P (snd kv) = true) m) ≠ 0%nat).
      { intros H0%map_size_empty_inv. rewrite H0 in H. by rewrite lookup_empty in H. }
      lia.
    + rewrite map_size_delete_None; [lia|]. apply map_lookup_filter_None. right. intros r' Hr'. simplify_eq. cbn. by rewrite Er.
  - rewrite map_size_delete_None; [lia|]. apply map_lookup_filter_None. by left.
Qed.

Lemma cnt_insert k r m : cnt (<[k := r]> m) = cnt m - weight (m !! k) + b2z (P r).
Proof.
  rewrite <- cnt_delete. rewrite <- insert_delete_eq. unfold cnt, b2z. destruct (P r) eqn:Er.
  - rewrite map_filter_insert_True by done. rewrite map_size_insert_None; [lia|].
    apply map_lookup_filter_None. left. apply lookup_delete_eq.
  - rewrite map_filter_insert_False by (cbn; congruence). rewrite delete_delete_eq. lia.
Qed.

Lemma cnt_le m : 0 <= cnt m <= total m.
Proof. unfold cnt, total. pose proof (map_size_filter (M := gmap (string * string * string)) (fun kv => P (snd kv) = true) m). lia. Qed.
End Counting.

Lemma count_expired_cnt at_ m : count_expired at_ m = cnt (expired_at at_) m.
Proof. done. Qed.

Lemma total_cnt m : total m = cnt (fun _ => true) m.
Proof. unfold total, cnt. by rewrite map_filter_id. Qed.

(** Rows due in an interval are the difference of two counts. *)
Lemma count_due lo hi m : lo < hi →
  Z.of_nat (size (filter (fun kv : (string * string * string) * push_row => lo < q_expires (snd kv) ∧ q_expires (snd kv) <= hi) m)) =
  count_expired hi m - count_expired lo m.
Proof.
  intros Hlt. rewrite !count_expired_cnt. induction m as [|k r m Hk IH] using map_ind; [done|].
  rewrite !cnt_insert, Hk. cbn [weight]. unfold expired_at at 2 4.
  destruct (decide (lo < q_expires r ∧ q_expires r <= hi)) as [Hin|Hout].
  - rewrite map_filter_insert_True by done. rewrite map_size_insert_None by (apply map_lookup_filter_None; by left).
    rewrite Nat2Z.inj_succ, IH. rewrite (proj2 (Z.leb_le _ _)), (proj2 (Z.leb_gt _ _)) by lia. cbn. lia.
  - rewrite map_filter_insert_False by done. rewrite delete_id by done.
    rewrite IH. destruct (q_expires r <=? hi) eqn:E1, (q_expires r <=? lo) eqn:E2; cbn; lia.
Qed.

(** ** The earliest expiry *)

Record is_earliest (m : receipts) (x : Z) : Prop := {
  earliest_below : ∀ k r, m !! k = Some r → x <= q_expires r;
  earliest_reached : m ≠ ∅ → ∃ k r, m !! k = Some r ∧ q_expires r = x;
  earliest_empty : m = ∅ → x = 0 }.

Lemma foldr_min_spec x l : (∀ y, y ∈ x :: l → foldr Z.min x l <= y) ∧ foldr Z.min x l ∈ x :: l.
Proof.
  induction l as [|y l [IH1 IH2]]; cbn.
  - split; [intros y ->%list_elem_of_singleton; lia|by left].
  - split.
    + intros z [->|[->|Hz]%elem_of_cons]%elem_of_cons; [specialize (IH1 x (list_elem_of_here _ _)); lia|lia|].
      specialize (IH1 z (list_elem_of_further _ _ _ Hz)). lia.
    + destruct (Z.min_spec y (foldr Z.min x l)) as [[_ ->]|[_ ->]]; [set_solver|set_solver].
Qed.

Lemma earliest_spec m : is_earliest m (earliest m).
Proof.
  unfold earliest. set (l := (fun kv => q_expires (snd kv)) <$> map_to_list m).
  assert (Hl : ∀ x, x ∈ l ↔ ∃ k r, m !! k = Some r ∧ q_expires r = x).
  { intros x. unfold l. rewrite list_elem_of_fmap. split.
    - intros ([k r] & -> & Hin%elem_of_map_to_list). eauto.
    - intros (k & r & Hm & <-). exists (k, r). split; [done|]. by apply elem_of_map_to_list. }
  destruct l as [|x l'] eqn:El; cbn.
  - split; [|intros Hne|done].
    + intros k r Hr. assert (q_expires r ∈ []) by (apply Hl; eauto). set_solver.
    + destruct (map_choose _ Hne) as (k & r & Hr). assert (q_expires r ∈ []) by (apply Hl; eauto). set_solver.
  - destruct (foldr_min_spec x l') as [H1 H2]. split.
    + intros k r Hr. apply H1. apply Hl. eauto.
    + intros _. by apply Hl.
    + intros ->. assert (x ∈ x :: l') as (k & r & H & _)%Hl by by left. by rewrite lookup_empty in H.
Qed.

Lemma earliest_unique m x y : is_earliest m x → is_earliest m y → x = y.
Proof.
  intros [A1 A2 A3] [B1 B2 B3]. destruct (decide (m = ∅)) as [E|E]; [by rewrite A3, B3|].
  destruct (A2 E) as (k & r & Hr & <-), (B2 E) as (k' & r' & Hr' & <-).
  specialize (B1 _ _ Hr). specialize (A1 _ _ Hr'). lia.
Qed.

Lemma earliest_insert k r m : m !! k = None →
  earliest (<[k := r]> m) = if total m =? 0 then q_expires r else Z.min (earliest m) (q_expires r).
Proof.
  intros Hk. eapply earliest_unique; [apply earliest_spec|]. destruct (earliest_spec m) as [B R E].
  destruct (total m =? 0) eqn:Et.
  - assert (m = ∅) as -> by (apply map_size_empty_inv; unfold total in Et; lia). split.
    + intros k' r'. destruct (decide (k = k')) as [->|Hne]; [rewrite lookup_insert_eq; intros [= ->]; lia|].
      by rewrite lookup_insert_ne, lookup_empty.
    + intros _. exists k, r. by rewrite lookup_insert_eq.
    + intros H. by apply insert_non_empty in H.
  - assert (Hne : m ≠ ∅) by (intros ->; done). split.
    + intros k' r'. destruct (decide (k = k')) as [->|Hk']; [rewrite lookup_insert_eq; intros [= ->]; lia|].
      rewrite lookup_insert_ne by done. intros Hr'. specialize (B _ _ Hr'). lia.
    + intros _. destruct (Z.min_spec (earliest m) (q_expires r)) as [[_ ->]|[_ ->]].
      * destruct (R Hne) as (k' & r' & Hr' & He). exists k', r'. split; [|done].
        rewrite lookup_insert_ne by (intros ->; congruence). done.
      * exists k, r. by rewrite lookup_insert_eq.
    + intros H. by apply insert_non_empty in H.
Qed.

(** ** The invariant *)

Definition exact (m : receipts) (s : push_stats) : Prop :=
  ps_total s = total m ∧ ps_expired s = count_expired (ps_checked s) m ∧ ps_earliest s = earliest m.
Definition stats_ok (t : push_tables) : Prop := match pt_stats t with Some s => exact (pt_receipts t) s | None => True end.

Lemma checked_exact m s : exact m s → checked s = Ok (Some s).
Proof.
  intros (Ht & He & _). unfold checked. rewrite count_expired_cnt in He.
  pose proof (cnt_le (expired_at (ps_checked s)) m) as [H1 H2]. rewrite Ht, He.
  rewrite !(proj2 (Z.leb_le _ _)) by lia. done.
Qed.

Lemma put_receipt_ok k r t : stats_ok t →
  ∃ t', put_receipt k r t = Ok t' ∧ stats_ok t' ∧ pt_receipts t' = <[k := r]> (pt_receipts t).
Proof.
  unfold stats_ok, put_receipt. intros Hs. destruct (pt_stats t) as [s|]; [|by eexists].
  destruct Hs as (Ht & He & Hm). cbn [fire_stats]. rewrite count_expired_cnt in He.
  destruct (pt_receipts t !! k) as [old|] eqn:Ek; [unfold on_expiry; destruct (Z.eqb_spec (q_expires old) (q_expires r)) as [Eq|Ne]|].
  - cbn. eexists. split; [done|]. split; [|done]. split_and!; cbn.
    + rewrite Ht, !total_cnt, cnt_insert, Ek. cbn. lia.
    + rewrite He, count_expired_cnt, cnt_insert, Ek. cbn. unfold expired_at. rewrite Eq. lia.
    + rewrite Hm. eapply earliest_unique; [apply earliest_spec|]. destruct (earliest_spec (<[k := r]> (pt_receipts t))) as [B R E].
      split.
      * intros k' r' Hr'. destruct (decide (k = k')) as [<-|Hk'].
        -- assert (r' = old) as -> by congruence. rewrite Eq. apply (B k). apply lookup_insert_eq.
        -- apply (B k'). by rewrite lookup_insert_ne.
      * intros Hne. destruct (R (insert_non_empty _ _ _)) as (k' & r' & Hr' & <-). destruct (decide (k = k')) as [<-|Hk'].
        -- rewrite lookup_insert_eq in Hr'. injection Hr' as <-. eauto.
        -- rewrite lookup_insert_ne in Hr' by done. eauto.
      * intros E0. by rewrite E0, lookup_empty in Ek.
  - set (s' := {| ps_total := _ |}). assert (exact (<[k := r]> (pt_receipts t)) s') as Hx.
    { split_and!; cbn; [rewrite Ht, !total_cnt, cnt_insert, Ek; cbn; lia| |done].
      rewrite He, count_expired_cnt, cnt_insert, Ek. cbn. lia. }
    rewrite (checked_exact _ _ Hx). cbn. eexists. split; [done|]. by split.
  - unfold on_insert. set (s' := {| ps_total := _ |}). assert (exact (<[k := r]> (pt_receipts t)) s') as Hx.
    { split_and!; cbn; [rewrite Ht, !total_cnt, cnt_insert, Ek; cbn; lia| |].
      - rewrite He, count_expired_cnt, cnt_insert, Ek. cbn. lia.
      - rewrite earliest_insert by done. by rewrite Ht, Hm. }
    rewrite (checked_exact _ _ Hx). cbn. eexists. split; [done|]. by split.
Qed.

Lemma delete_receipt_ok k t : stats_ok t →
  ∃ t', delete_receipt k t = Ok t' ∧ stats_ok t' ∧ pt_receipts t' = delete k (pt_receipts t).
Proof.
  unfold stats_ok, delete_receipt. intros Hs. destruct (pt_receipts t !! k) as [old|] eqn:Ek.
  2:{ exists t. rewrite delete_id by done. done. }
  destruct (pt_stats t) as [s|]; [|by eexists]. destruct Hs as (Ht & He & Hm). cbn [fire_stats]. unfold on_delete.
  set (s' := {| ps_total := _ |}). assert (exact (delete k (pt_receipts t)) s') as Hx.
  { rewrite count_expired_cnt in He. split_and!; cbn; [rewrite Ht, !total_cnt, cnt_delete, Ek; cbn; lia| |done].
    rewrite He, count_expired_cnt, cnt_delete, Ek. cbn. lia. }
  rewrite (checked_exact _ _ Hx). cbn. eexists. split; [done|]. by split.
Qed.

Lemma delete_all_ok l t : stats_ok t → ∃ t', delete_all l t = Ok t' ∧ stats_ok t'.
Proof.
  revert t. induction l as [|k l IH]; intros t Hs; cbn; [eauto|].
  destruct (delete_receipt_ok k t Hs) as (t' & -> & Ht' & _). by apply IH.
Qed.

(** Receipts that have not expired at an instant. *)
Definition active (now : time) (t : push_tables) : Z :=
  Z.of_nat (size (filter (fun kv : (string * string * string) * push_row => timestamp now < q_expires (snd kv)) (pt_receipts t))).

Lemma active_total now t : active now t = total (pt_receipts t) - count_expired (timestamp now) (pt_receipts t).
Proof.
  unfold active. rewrite total_cnt, count_expired_cnt. induction (pt_receipts t) as [|k r m Hk IH] using map_ind; [done|].
  rewrite !cnt_insert, Hk. cbn [weight]. unfold expired_at at 2. destruct (Z.leb_spec (q_expires r) (timestamp now)) as [Hle|Hgt].
  - rewrite map_filter_insert_False by (cbn; lia). rewrite delete_id by done. rewrite IH. cbn. lia.
  - rewrite map_filter_insert_True by done. rewrite map_size_insert_None by (apply map_lookup_filter_None; by left).
    rewrite Nat2Z.inj_succ, IH. cbn. lia.
Qed.

Lemma expired_now_exact at_ m s : exact m s → expired_now at_ m s = count_expired at_ m.
Proof.
  intros (_ & He & _). unfold expired_now. destruct (Z.ltb_spec at_ (ps_checked s)); [done|].
  destruct (Z.ltb_spec (ps_checked s) at_); [rewrite count_due, He by done; lia|]. rewrite He. f_equal. lia.
Qed.

Lemma none_expired at_ m : at_ < earliest m → count_expired at_ m = 0.
Proof.
  intros Hlt. unfold count_expired. replace (filter _ m) with (∅ : receipts); [done|]. symmetry. apply map_empty. intros k.
  apply map_lookup_filter_None. right. intros r Hr. pose proof (earliest_below _ _ (earliest_spec m) _ _ Hr).
  unfold expired_at. cbn. rewrite (proj2 (Z.leb_gt _ _)) by lia. done.
Qed.

Lemma PushReceiptCount_ok writable now t : stats_ok t →
  ∃ t', PushReceiptCount writable now t = Ok (t', active now t) ∧ stats_ok t' ∧ pt_receipts t' = pt_receipts t.
Proof.
  intros Hs. rewrite active_total. unfold PushReceiptCount. unfold stats_ok in Hs. destruct (pt_stats t) as [s|] eqn:Es.
  - pose proof Hs as (Ht & He & Hm). destruct ((ps_total s =? 0) || (timestamp now <? ps_earliest s)) eqn:E.
    + exists t. split; [|by unfold stats_ok; rewrite Es]. rewrite Ht. do 2 f_equal. apply orb_true_iff in E as [E|E].
      * assert (pt_receipts t = ∅) as -> by (apply map_size_empty_inv; unfold total in Ht; lia). done.
      * rewrite none_expired; [lia|]. rewrite <- Hm. lia.
    + rewrite (expired_now_exact _ _ _ Hs), Ht. destruct (writable && _); [|exists t; by unfold stats_ok; rewrite Es].
      set (s' := {| ps_total := _ |}). assert (exact (pt_receipts t) s') as Hx by done.
      rewrite (checked_exact _ _ Hx). cbn. eexists. split; [done|]. by split.
  - unfold rebuildPushReceiptCount. destruct writable; cbn.
    + set (s' := {| ps_total := _ |}). assert (exact (pt_receipts t) s') as Hx by done.
      rewrite (checked_exact _ _ Hx). cbn. eexists. split; [done|]. by split.
    + eexists. split; [done|]. cbn. unfold stats_ok. cbn. by rewrite Es.
Qed.

(** ** Any sequence of operations *)

Inductive push_op :=
| OpSave (lifetime producer key digest : string) (r : PushReceipt) (bytes observations : Z) (known : bool)
| OpRetain (now : time) (limit : nat)
| OpCount (writable : bool) (now : time).

(** A failing transaction leaves the tables as they were. *)
Definition committed (t : push_tables) (r : result push_tables) : push_tables := match r with Ok t' => t' | Err _ => t end.
Definition push_step (t : push_tables) (o : push_op) : push_tables :=
  committed t
    match o with
    | OpSave lifetime producer key digest r bytes observations known =>
        SavePushReceipt lifetime producer key digest r bytes observations known t
    | OpRetain now limit => RetainPush now limit t
    | OpCount writable now => fst <$> PushReceiptCount writable now t
    end.

Lemma push_step_ok t o : stats_ok t → stats_ok (push_step t o).
Proof.
  intros Hs. unfold push_step, committed. destruct o; cbn.
  - unfold SavePushReceipt. destruct (copy_receipt r) as [body|]; [|exact Hs].
    destruct (put_receipt_ok (lifetime, producer, key) {| q_digest := digest; q_body := body; q_expires := timestamp (pr_ExpiresAt r) |} t Hs)
      as (t' & -> & Ht' & _). cbn. destruct known; cbn; [exact Ht'|exact Hs].
  - unfold RetainPush. destruct (delete_all_ok (expired_push now limit t) t Hs) as (t' & -> & Ht'). done.
  - destruct (PushReceiptCount_ok writable now t Hs) as (t' & -> & Ht' & _). done.
Qed.

(** The tables after the migration that introduced the statistics. *)
Definition migrated (m : receipts) (u : PushUsage) (last : gmap string (string * PushReceipt)) : push_tables :=
  mkPush m (Some {| ps_total := total m; ps_expired := count_expired 0 m; ps_checked := 0; ps_earliest := earliest m |}) u last.

(** admission control of hosted pushes counts exactly: after any sequence
    of saved receipts, retention sweeps and counts, at any clock readings
    (backward jumps included), [PushReceiptCount] returns the number of stored
    receipts that have not expired, although it reads cached statistics, and
    it never fails. *)
Lemma PushReceiptCount_exact m u last ops writable now :
  let t := fold_left push_step ops (migrated m u last) in
  ∃ t', PushReceiptCount writable now t = Ok (t', active now t) ∧ pt_receipts t' = pt_receipts t.
Proof.
  intros t. assert (Ht : stats_ok t).
  { subst t. assert (H0 : stats_ok (migrated m u last)) by done. revert H0. generalize (migrated m u last).
    induction ops as [|o ops IH]; intros t H; [done|]. cbn. apply IH. by apply push_step_ok. }
  destruct (PushReceiptCount_ok writable now t Ht) as (t' & H & _ & Hr). eauto.
Qed.

(** ** The rows that reference watches *)

Lemma delete_all_last l t t' : delete_all l t = Ok t' → pt_last t' = pt_last t.
Proof.
  revert t. induction l as [|k l IH]; intros t; cbn [delete_all]; [by intros [= <-]|]. intros (u & Hu & H)%bind_Ok. rewrite (IH _ H).
  unfold delete_receipt in Hu. destruct (pt_receipts t !! k); [|by injection Hu as <-]. apply bind_Ok in Hu as (s & _ & [= <-]). done.
Qed.
Lemma PushReceiptCount_last writable now t t' n : PushReceiptCount writable now t = Ok (t', n) → pt_last t' = pt_last t.
Proof.
  unfold PushReceiptCount, rebuildPushReceiptCount. cbv zeta. destruct (pt_stats t) as [s|]; [|by intros (s & _ & [= <- _])%bind_Ok].
  destruct (_ || _); [by intros [= <- _]|]. destruct (_ && _); [by intros (s' & _ & [= <- _])%bind_Ok|by intros [= <- _]].
Qed.
Lemma SavePushReceipt_last lifetime producer key digest r bytes observations known t t' :
  SavePushReceipt lifetime producer key digest r bytes observations known t = Ok t' →
  known = true ∧ ∃ x, pt_last t' = <[pr_WatchID r := x]> (pt_last t).
Proof.
  unfold SavePushReceipt. destruct (copy_receipt r) as [b|]; [|done]. intros (u & Hu & H)%bind_Ok. apply fail_if_bind in H as [Hk%negb_false_iff H]. injection H as <-.
  split; [done|]. unfold put_receipt in Hu. apply bind_Ok in Hu as (s & _ & [= <-]). by eexists.
Qed.
