(* ===== verification/Records.v ===== *)
(** * Durable records: [internal/store/records.go], [runtime.go], [lifecycle.go], [entity_*.go], [purge.go]

    The tables a runtime transaction works on and the [Tx] methods the runtime
    calls.  A method is a state-passing computation on the tables that may fail;
    a failing transaction is rolled back ([Update]).  A JSON column holds the
    value its text decodes to; foreign keys and unique indexes of
    [internal/store/schema*.sql] are the [constraint] failures. *)
From S2P Require Import Prelude GoText GoTime GoJson Watch Plan Evaluator RecordJson Outbox PushReceipts.

(** ** Tables *)

Record watch_row := mkWatchRow {
  w_revision : string; w_generation : Z; w_status : string; w_next : Z; w_cursor : string; w_last_input : Z;
  w_last_error : string; w_lifetime : string }.
Record revision_row := { v_fingerprint : string; v_definition : Definition_; v_created : Z }.
Record observation_row := {
  b_watch : string; b_revision : string; b_generation : Z; b_input : string; b_accepted : Z; b_body : Observation }.
Record entity_row := mkEntityRow { n_revision : string; n_state : State; n_updated : Z }.
Record event_row := { y_sequence : Z; y_watch : string; y_body : Event }.
Record receipt_row := { i_first : Z; i_last : Z; i_expires : Z }.
Record timer_row := mkTimerRow { k_generation : Z; k_due : Z }.

(** [replay.Checkpoint] *)
Record Checkpoint := { ck_Prior : State; ck_Input : Observation; ck_SourceRecovered : bool }.

(** [store.Handoff], and its row: the column [held] is the member of the body. *)
Record Handoff := mkHandoff {
  h_ReturnOf : string; h_ProbeKey : string; h_ProbeDigest : string; h_ProbeOutcome : string; h_ProbeAt : time; h_Instance : string;
  h_ID : string; h_WatchID : string; h_Role : string; h_Phase : string; h_Peer : string; h_Digest : string; h_Revision : string;
  h_Generation : Z; h_Destinations : gmap string string; h_Held : bool; h_At : time }.
Record handoff_row := { hr_watch : string; hr_body : Handoff }.

(** The position of a retention pass in one family of rows. *)
Record retentionCursor := mkCursor { cu_Pass : string; cu_At : Z; cu_Key : string; cu_Extra : string; cu_Done : bool }.

(** [db_observations] and [db_events] carry their AUTOINCREMENT counters; event
    identifiers and destination revisions are also those of the outbox tables.
    Entities, pins, timers and receipts are kept per watch; the pins of an
    entity are pairs of kind and value.  [db_purged] are the [purged_watch:]
    tombstones, [db_floor] the [event_floor:] entries (the highest event
    sequence removed, of one watch and under the empty key of all),
    [db_cursors] the [retention_cursor:] entries and [db_maintenance] the cursor
    of entity maintenance, empty when there is none.  [db_created] is the column
    [created_at] of destination revisions. *)
Record db := mkDb {
  db_revisions : gmap (string * string) revision_row; db_watches : gmap string watch_row;
  db_destinations : gmap string string;
  db_observations : gmap Z observation_row; db_next_observation : Z;
  db_entities : gmap string (gmap string entity_row); db_pins : gmap string (gmap string (gset (string * string)));
  db_timers : gmap string (gmap (string * string) timer_row); db_receipts : gmap string (gmap (Z * string) receipt_row);
  db_events : gmap string event_row; db_next_event : Z; db_evidence : gset (string * Z);
  db_replays : gmap string Checkpoint; db_purged : gset string; db_handoffs : gmap string handoff_row; db_floor : gmap string Z;
  db_cursors : gmap string retentionCursor; db_maintenance : string * string; db_created : gmap (string * string) Z;
  db_push : push_tables; db_outbox : tables }.

#[export] Instance eta_watch_row : Eta watch_row := fun r =>
  mkWatchRow (w_revision r) (w_generation r) (w_status r) (w_next r) (w_cursor r) (w_last_input r) (w_last_error r) (w_lifetime r).
#[export] Instance upd_w_next : FieldUpdate w_next := ltac:(field_update).
#[export] Instance upd_w_cursor : FieldUpdate w_cursor := ltac:(field_update).
#[export] Instance upd_w_last_input : FieldUpdate w_last_input := ltac:(field_update).
#[export] Instance upd_w_last_error : FieldUpdate w_last_error := ltac:(field_update).
#[export] Instance upd_w_lifetime : FieldUpdate w_lifetime := ltac:(field_update).

#[export] Instance eta_entity_row : Eta entity_row := fun r => mkEntityRow (n_revision r) (n_state r) (n_updated r).
#[export] Instance upd_n_revision : FieldUpdate n_revision := ltac:(field_update).
#[export] Instance eta_timer_row : Eta timer_row := fun r => mkTimerRow (k_generation r) (k_due r).
#[export] Instance upd_k_generation : FieldUpdate k_generation := ltac:(field_update).

#[export] Instance eta_db : Eta db := fun d =>
  mkDb (db_revisions d) (db_watches d) (db_destinations d) (db_observations d) (db_next_observation d) (db_entities d) (db_pins d)
    (db_timers d) (db_receipts d) (db_events d) (db_next_event d) (db_evidence d) (db_replays d) (db_purged d) (db_handoffs d) (db_floor d)
    (db_cursors d) (db_maintenance d) (db_created d)
    (db_push d) (db_outbox d).
#[export] Instance upd_db_revisions : FieldUpdate db_revisions := ltac:(field_update).
#[export] Instance upd_db_watches : FieldUpdate db_watches := ltac:(field_update).
#[export] Instance upd_db_destinations : FieldUpdate db_destinations := ltac:(field_update).
#[export] Instance upd_db_observations : FieldUpdate db_observations := ltac:(field_update).
#[export] Instance upd_db_next_observation : FieldUpdate db_next_observation := ltac:(field_update).
#[export] Instance upd_db_entities : FieldUpdate db_entities := ltac:(field_update).
#[export] Instance upd_db_pins : FieldUpdate db_pins := ltac:(field_update).
#[export] Instance upd_db_timers : FieldUpdate db_timers := ltac:(field_update).
#[export] Instance upd_db_receipts : FieldUpdate db_receipts := ltac:(field_update).
#[export] Instance upd_db_events : FieldUpdate db_events := ltac:(field_update).
#[export] Instance upd_db_next_event : FieldUpdate db_next_event := ltac:(field_update).
#[export] Instance upd_db_evidence : FieldUpdate db_evidence := ltac:(field_update).
#[export] Instance upd_db_replays : FieldUpdate db_replays := ltac:(field_update).
#[export] Instance upd_db_purged : FieldUpdate db_purged := ltac:(field_update).
#[export] Instance upd_db_handoffs : FieldUpdate db_handoffs := ltac:(field_update).
#[export] Instance upd_db_cursors : FieldUpdate db_cursors := ltac:(field_update).
#[export] Instance upd_db_maintenance : FieldUpdate db_maintenance := ltac:(field_update).
#[export] Instance upd_db_created : FieldUpdate db_created := ltac:(field_update).
#[export] Instance upd_db_floor : FieldUpdate db_floor := ltac:(field_update).
#[export] Instance upd_db_push : FieldUpdate db_push := ltac:(field_update).
#[export] Instance upd_db_outbox : FieldUpdate db_outbox := ltac:(field_update).

(** The rows of one watch, and writing one of them. *)
Definition rows `{Countable K} {A : Type} (id : string) (m : gmap string (gmap K A)) : gmap K A := default ∅ (m !! id).
Definition put `{Countable K} {A : Type} (id : string) (k : K) (a : A) (m : gmap string (gmap K A)) : gmap string (gmap K A) :=
  <[id := <[k := a]> (rows id m)]> m.
Definition drop_row `{Countable K} {A : Type} (id : string) (k : K) (m : gmap string (gmap K A)) : gmap string (gmap K A) :=
  <[id := delete k (rows id m)]> m.

(** ** Transactions *)

Definition ErrNotFound : string := "not found".
Definition ErrConflict : string := "revision conflict".
Definition ErrStale : string := "stale generation".
Definition ErrQuota : string := "resource quota exceeded".
Definition constraint : string := "constraint failed".

Definition tx (A : Type) : Type := db → result (A * db).
#[export] Instance tx_ret : MRet tx := fun A a d => Ok (a, d).
#[export] Instance tx_bind : MBind tx := fun A B f m d => match m d with Ok (a, d') => f a d' | Err e => Err e end.

Definition fail {A : Type} (e : string) : tx A := fun _ => Err e.
Definition lift {A : Type} (r : result A) : tx A := fun d => match r with Ok a => Ok (a, d) | Err e => Err e end.
Definition encoded {A : Type} (o : option A) : tx A := lift (match o with Some a => Ok a | None => Err "json: unsupported value" end).
Definition gets {A : Type} (f : db → A) : tx A := fun d => Ok (f d, d).
Definition modify (f : db → db) : tx unit := fun d => Ok (tt, f d).
Definition reject (b : bool) (e : string) : tx unit := if b then fail e else mret tt.
Definition unless (b : bool) (t : tx unit) : tx unit := if b then mret tt else t.
Fixpoint for_each {A : Type} (f : A → tx unit) (l : list A) : tx unit :=
  match l with [] => mret tt | a :: l => f a ;; for_each f l end.

(** [Store.Update]: commit, or roll back; [Store.View] never commits. *)
Definition Update {A : Type} (t : tx A) (d : db) : db * result A :=
  match t d with Ok (a, d') => (d', Ok a) | Err e => (d, Err e) end.
Definition View {A : Type} (t : tx A) (d : db) : result A := fst <$> t d.

(** ** Watches *)

Record WatchRecord := mkRecord {
  r_Lifetime : string; r_Plan : Compiled; r_Generation : Z; r_Status : string; r_NextAt : time; r_Cursor : string;
  r_LastInputAt : time; r_LastError : string }.
#[export] Instance eta_WatchRecord : Eta WatchRecord := fun r =>
  mkRecord (r_Lifetime r) (r_Plan r) (r_Generation r) (r_Status r) (r_NextAt r) (r_Cursor r) (r_LastInputAt r) (r_LastError r).
#[export] Instance upd_r_Plan : FieldUpdate r_Plan := ltac:(field_update).
#[export] Instance upd_r_Generation : FieldUpdate r_Generation := ltac:(field_update).
#[export] Instance upd_r_Status : FieldUpdate r_Status := ltac:(field_update).
#[export] Instance upd_r_NextAt : FieldUpdate r_NextAt := ltac:(field_update).
#[export] Instance upd_r_Cursor : FieldUpdate r_Cursor := ltac:(field_update).
#[export] Instance upd_r_LastInputAt : FieldUpdate r_LastInputAt := ltac:(field_update).
#[export] Instance upd_r_LastError : FieldUpdate r_LastError := ltac:(field_update).

Definition r_Definition (r : WatchRecord) : Definition_ := cp_Definition (r_Plan r).
Definition r_Spec (r : WatchRecord) : Spec := d_Spec (r_Definition r).
Definition r_ID (r : WatchRecord) : string := md_ID (d_Metadata (r_Definition r)).
Definition r_Revision (r : WatchRecord) : string := cp_Revision (r_Plan r).

Definition scanWatch (w : watch_row) (v : revision_row) : WatchRecord :=
  mkRecord (w_lifetime w)
    {| cp_Definition := v_definition v; cp_Revision := w_revision w; cp_Fingerprint := v_fingerprint v;
       cp_Permissions := ExecutionPermissions (s_Type (sp_Source (d_Spec (v_definition v)))) |}
    (w_generation w) (w_status w) (instant (w_next w)) (w_cursor w) (instant (w_last_input w)) (w_last_error w).

(** [watches JOIN watch_revisions] *)
Definition watch_in (id : string) (d : db) : option WatchRecord :=
  w ← db_watches d !! id; v ← db_revisions d !! (id, w_revision w); Some (scanWatch w v).

Definition GetWatch (id : string) : tx WatchRecord :=
  found ← gets (watch_in id);
  match found with Some r => mret r | None => fail ErrNotFound end.

(** [ORDER BY w.id] *)
Definition GetWatches : tx (list WatchRecord) :=
  gets (fun d => omap (fun id => watch_in id d) (sort_strings (fst <$> map_to_list (db_watches d)))).

(** The third-party parsers [plan.Compile] and [condition.New] call. *)
Class Libraries := {
  parse_template : string → result template; compile_jq : string → result unit;
  compile_regexp : string → option (string → bool); url_parse : string → option URL }.

Section Tx.
Context `{L : Libraries}.
Definition compile (d : Definition_) : result Compiled := Compile parse_template compile_jq compile_regexp url_parse d.

Definition valid_status (s : string) : bool := bool_decide (s ∈ ["running"; "paused"; "deleted"]).

(** The row [qSaveWatch] leaves: a watch keeps its lifetime unless a deleted
    one is revived. *)
Definition saved_watch (r : WatchRecord) (lifetime : string) (old : option watch_row) : watch_row :=
  mkWatchRow (r_Revision r) (r_Generation r) (r_Status r) (timestamp (r_NextAt r)) (r_Cursor r) (timestamp (r_LastInputAt r))
    (r_LastError r)
    (match old with
     | Some w => if (w_status w ≟ "deleted") && negb (r_Status r ≟ "deleted") then lifetime else w_lifetime w
     | None => lifetime
     end).

(** [lifetime] is the random token drawn for the row. *)
Definition SaveWatch (r : WatchRecord) (now : time) (lifetime : string) : tx unit :=
  let id := r_ID r in
  purged ← gets (fun d => bool_decide (id ∈ db_purged d));
  reject purged "permanently deleted watch IDs cannot be reused; use a new watch ID" ;;
  c ← lift (compile (r_Definition r));
  reject (negb (cp_Revision c ≟ r_Revision r) || negb (cp_Fingerprint c ≟ cp_Fingerprint (r_Plan r)) || (r_Generation r <? 1))
    "invalid compiled watch metadata" ;;
  let cid := md_ID (d_Metadata (cp_Definition c)) in
  known ← gets (fun d => bool_decide (is_Some (db_revisions d !! (cid, cp_Revision c))));
  unless known (modify (fun d => d <| db_revisions := <[(cid, cp_Revision c) :=
          {| v_fingerprint := cp_Fingerprint c; v_definition := cp_Definition c; v_created := timestamp now |}]> (db_revisions d) |>)) ;;
  reject (negb (valid_status (r_Status r))) constraint ;;
  modify (fun d => d <| db_watches := <[cid := saved_watch r lifetime (db_watches d !! cid)]> (db_watches d) |>).

Definition SaveDestination (c : CompiledDestination) (now : time) : tx unit :=
  v ← lift (CompileDestination (cd_Definition c));
  reject (negb (cd_Revision v ≟ cd_Revision c)) "invalid destination revision" ;;
  let id := md_ID (dst_Metadata (cd_Definition c)) in
  known ← gets (fun d => bool_decide (is_Some (tb_revisions (db_outbox d) !! (id, cd_Revision c))));
  unless known (modify (fun d => d <| db_outbox := (db_outbox d) <| tb_revisions :=
          <[(id, cd_Revision c) := {| cd_Definition := cd_Definition v; cd_Revision := cd_Revision c |}]> (tb_revisions (db_outbox d)) |> |>
    <| db_created := <[(id, cd_Revision c) := timestamp now]> (db_created d) |>)) ;;
  modify (fun d => d <| db_destinations := <[id := cd_Revision c]> (db_destinations d) |>).

(** [UPDATE watches ... WHERE id=? AND generation=? AND status='running'] *)
Definition SaveCheckpoint (id : string) (generation : Z) (nextAt lastAt : time) (cursor : string) : tx unit :=
  row ← gets (fun d => db_watches d !! id);
  match row with
  | Some w =>
      if (w_generation w =? generation) && (w_status w ≟ "running")
      then modify (fun d => d <| db_watches := <[id := w <| w_next := timestamp nextAt |> <| w_last_input := timestamp lastAt |>
                                                       <| w_cursor := cursor |> <| w_last_error := "" |>]> (db_watches d) |>)
      else fail ErrStale
  | None => fail ErrStale
  end.

(** [Tx.LastError]; a zero instant keeps the schedule. *)
Definition SetLastError (id : string) (generation : Z) (detail : string) (next : time) : tx unit :=
  modify (fun d =>
    match db_watches d !! id with
    | Some w =>
        if (w_generation w =? generation) && (w_status w ≟ "running")
        then let w := w <| w_last_error := detail |> in
             d <| db_watches := <[id := if IsZero next then w else w <| w_next := timestamp next |>]> (db_watches d) |>
        else d
    | None => d
    end).

(** [Tx.Destination]: a pinned revision, or without one the current one. *)
Definition GetDestination (id revision : string) : tx CompiledDestination :=
  found ← gets (fun d =>
    rev ← (if revision ≟ "" then db_destinations d !! id else Some revision);
    tb_revisions (db_outbox d) !! (id, rev));
  match found with Some c => mret c | None => fail ErrNotFound end.

(** ** Observations and receipts *)

Definition known_revision (id revision : string) (d : db) : bool := bool_decide (is_Some (db_revisions d !! (id, revision))).

Definition same_input (id : string) (generation : Z) (input : string) (b : observation_row) : bool :=
  (b_watch b ≟ id) && (b_generation b =? generation) && (b_input b ≟ input).

Definition AppendObservation (id revision : string) (generation : Z) (o : Observation) : tx Z :=
  body ← encoded (copy_observation o);
  taken ← gets (fun d => existsb (fun kv => same_input id generation (o_InputID o) (snd kv)) (map_to_list (db_observations d)));
  ok ← gets (known_revision id revision);
  reject (taken || negb ok) constraint ;;
  sequence ← gets db_next_observation;
  modify (fun d => d <| db_observations := <[sequence := {| b_watch := id; b_revision := revision; b_generation := generation;
                          b_input := o_InputID o; b_accepted := timestamp (o_AcceptedAt o); b_body := body |}]> (db_observations d) |>
                     <| db_next_observation := sequence + 1 |>) ;;
  mret sequence.

(** [AppendObservations] on the embedded store: one insert after the other. *)
Fixpoint AppendObservations (id revision : string) (generation : Z) (l : list Observation) : tx (list Z) :=
  match l with
  | [] => mret []
  | o :: l =>
      sequence ← AppendObservation id revision generation o;
      rest ← AppendObservations id revision generation l;
      mret (sequence :: rest)
  end.

Definition GetReceipt (id : string) (generation : Z) (input : string) (now : time) : tx (option (Z * Z)) :=
  gets (fun d =>
    r ← rows id (db_receipts d) !! (generation, input);
    if timestamp now <? i_expires r then Some (i_first r, i_last r) else None).

Definition known_watch (id : string) (d : db) : bool := bool_decide (is_Some (db_watches d !! id)).

Definition SaveReceipt (id : string) (generation : Z) (input : string) (first last : Z) (expires : time) : tx unit :=
  ok ← gets (known_watch id);
  reject (negb ok) constraint ;;
  modify (fun d => d <| db_receipts := put id (generation, input)
            {| i_first := first; i_last := last; i_expires := timestamp expires |} (db_receipts d) |>).

(** ** Entities and the references they pin *)

Definition pinned_sequences (s : State) : list Z :=
  (Evidence s ++ [LastSequence s; FreshSequence s; BaselineSequence s] ++ (sm_Sequence <$> Samples s))%list.
Definition pinned_events (s : State) : list string := [IncidentEvent s; HealthEvent s].

(** The loops of [entityReferences]: positive sequences and nonempty event identifiers. *)
Definition entityReferences (s : State) : gset (string * string) :=
  list_to_set (((fun n => ("input", Itoa n)) <$> filter (fun n => 0 < n) (pinned_sequences s)) ++
               ((fun e => ("event", e)) <$> filter (fun e => e ≠ "") (pinned_events s)))%list.

(** [syncEntityPins]: rows no longer wanted are deleted, missing ones inserted. *)
Definition synced (old wanted : gset (string * string)) : gset (string * string) := (old ∖ (old ∖ wanted)) ∪ (wanted ∖ old).
Definition syncEntityPins (id key : string) (s : State) : tx unit :=
  modify (fun d => d <| db_pins := put id key (synced (default ∅ (rows id (db_pins d) !! key)) (entityReferences s)) (db_pins d) |>).

Definition saveEntityData (id key revision : string) (s : State) (now : time) : tx unit :=
  ok ← gets (known_revision id revision);
  reject (negb ok) constraint ;;
  modify (fun d => d <| db_entities := put id key (mkEntityRow revision s (timestamp now)) (db_entities d) |>) ;;
  syncEntityPins id key s.

Definition SaveEntity (id key revision : string) (s : State) (now : time) : tx unit :=
  data ← encoded (copy_state s); saveEntityData id key revision data now.

Definition entities_of (id : string) (d : db) : gmap string State := n_state <$> rows id (db_entities d).
Definition GetEntities (id : string) : tx (gmap string State) := gets (entities_of id).
Definition GetEntity (id key : string) : tx (option State) := gets (fun d => entities_of id d !! key).
Definition EntityCount (id : string) : tx Z := gets (fun d => Z.of_nat (size (entities_of id d))).
Definition EntitySubset (id : string) (keys : gset string) : tx (gmap string State) :=
  gets (fun d => filter (fun kv : string * State => fst kv ∈ keys) (entities_of id d)).

(** [SaveEntities]: in key order. *)
Definition SaveEntities (id revision : string) (states : gmap string State) (now : time) : tx unit :=
  for_each (fun kv : string * State => saveEntityData id (fst kv) revision (snd kv) now) (sorted_fields states).

(** Deleting an entity deletes its pins. *)
Definition DeleteEntity (id key : string) : tx unit :=
  modify (fun d => d <| db_entities := drop_row id key (db_entities d) |> <| db_pins := drop_row id key (db_pins d) |>).

(** ** Timers *)

Record Timer := { tm_WatchID : string; tm_Entity : string; tm_Kind : string; tm_Generation : Z; tm_Due : time }.

Definition SaveTimer (t : Timer) : tx unit :=
  ok ← gets (known_watch (tm_WatchID t));
  reject (negb ok) constraint ;;
  modify (fun d => d <| db_timers := put (tm_WatchID t) (tm_Entity t, tm_Kind t)
            (mkTimerRow (tm_Generation t) (timestamp (tm_Due t))) (db_timers d) |>).

Definition timer_of (id : string) (kt : (string * string) * timer_row) : Timer :=
  {| tm_WatchID := id; tm_Entity := fst (fst kt); tm_Kind := snd (fst kt); tm_Generation := k_generation (snd kt);
     tm_Due := instant (k_due (snd kt)) |}.

Definition GetTimer (id key kind : string) : tx Timer :=
  found ← gets (fun d => rows id (db_timers d) !! (key, kind));
  match found with Some t => mret (timer_of id ((key, kind), t)) | None => fail ErrNotFound end.

(** Deletes the row only with this generation and deadline. *)
Definition DeleteTimer (t : Timer) : tx unit :=
  modify (fun d =>
    match rows (tm_WatchID t) (db_timers d) !! (tm_Entity t, tm_Kind t) with
    | Some k => if (k_generation k =? tm_Generation t) && (k_due k =? timestamp (tm_Due t))
                then d <| db_timers := drop_row (tm_WatchID t) (tm_Entity t, tm_Kind t) (db_timers d) |> else d
    | None => d
    end).

Definition DeleteTimers (id : string) : tx unit := modify (fun d => d <| db_timers := delete id (db_timers d) |>).

(** Timers of running watches and their current generation that are due. *)
Definition timer_due (now : Z) (d : db) (t : Timer) : bool :=
  match db_watches d !! tm_WatchID t with
  | Some w => (w_status w ≟ "running") && (tm_Generation t =? w_generation w) && (timestamp (tm_Due t) <=? now)
  | None => false
  end.
Definition all_timers (d : db) : list Timer :=
  (kv ← map_to_list (db_timers d); timer_of (fst kv) <$> map_to_list (snd kv)).
(** [ORDER BY due_at, watch_id, entity_key] *)
Definition timer_le (a b : Timer) : Prop :=
  timestamp (tm_Due a) < timestamp (tm_Due b) ∨
  timestamp (tm_Due a) = timestamp (tm_Due b) ∧
  (str_compare (tm_WatchID a) (tm_WatchID b) = Lt ∨ tm_WatchID a = tm_WatchID b ∧ str_le (tm_Entity a) (tm_Entity b)).
#[global] Instance timer_le_dec : RelDecision timer_le.
Proof. intros a b. unfold timer_le. apply _. Defined.

Definition DueTimers (now : time) (limit : Z) : tx (list Timer) :=
  reject ((limit <? 1) || (1000 <? limit)) "invalid timer limit" ;;
  gets (fun d => take (Z.to_nat limit) (merge_sort timer_le (filter (fun t => timer_due (timestamp now) d t = true) (all_timers d)))).

(** ** Events *)

Fixpoint insert_evidence (id : string) (l : list Z) : tx unit :=
  match l with
  | [] => mret tt
  | n :: l =>
      bad ← gets (fun d => bool_decide ((id, n) ∈ db_evidence d) || negb (bool_decide (is_Some (db_observations d !! n))));
      reject bad constraint ;;
      modify (fun d => d <| db_evidence := {[(id, n)]} ∪ db_evidence d |>) ;;
      insert_evidence id l
  end.

Definition AppendEvent (e : Event) : tx Z :=
  body ← encoded (copy_event e);
  taken ← gets (fun d => bool_decide (is_Some (db_events d !! ev_ID e)));
  ok ← gets (known_revision (ev_WatchID e) (ev_Revision e));
  reject (taken || negb ok) constraint ;;
  sequence ← gets db_next_event;
  modify (fun d => d <| db_events := <[ev_ID e := {| y_sequence := sequence; y_watch := ev_WatchID e; y_body := body |}]> (db_events d) |>
                     <| db_next_event := sequence + 1 |>
                     <| db_outbox := (db_outbox d) <| tb_events := {[ev_ID e]} ∪ tb_events (db_outbox d) |> |>) ;;
  insert_evidence (ev_ID e) (ev_Evidence e) ;;
  mret sequence.

Definition copy_checkpoint (c : Checkpoint) : option Checkpoint :=
  prior ← copy_state (ck_Prior c);
  input ← copy_observation (ck_Input c);
  Some {| ck_Prior := prior; ck_Input := input; ck_SourceRecovered := ck_SourceRecovered c |}.

Definition SaveReplay (id : string) (c : Checkpoint) : tx unit :=
  body ← encoded (copy_checkpoint c);
  bad ← gets (fun d => bool_decide (is_Some (db_replays d !! id)) || negb (bool_decide (is_Some (db_events d !! id))));
  reject bad constraint ;;
  modify (fun d => d <| db_replays := <[id := body]> (db_replays d) |>).

(** [Tx.Enqueue] and [Tx.Pending] on the outbox tables. *)
Definition EnqueueIntent (i : Intent) : tx Z := fun d =>
  match Enqueue i (db_outbox d) with Ok (t, id) => Ok (id, d <| db_outbox := t |>) | Err e => Err e end.
Definition Pending : tx Z := gets (fun d => Z.of_nat (length (filter (fun r => is_live r = true) (tb_outbox (db_outbox d))))).

(** ** Pushes *)

Definition on_push {A : Type} (f : push_tables → result (push_tables * A)) : tx A := fun d =>
  match f (db_push d) with Ok (t, a) => Ok (a, d <| db_push := t |>) | Err e => Err e end.
Definition GetPushReceipt (lifetime producer key digest : string) (now : time) : tx (result PushReceipt) :=
  gets (fun d => FindPush lifetime producer key digest now (db_push d)).
Definition CountPushReceipts (now : time) : tx Z := on_push (PushReceiptCount true now).
Definition SavePush (lifetime producer key digest : string) (r : PushReceipt) (bytes observations : Z) : tx unit :=
  known ← gets (known_watch (pr_WatchID r));
  on_push (fun t => (fun t => (t, tt)) <$> SavePushReceipt lifetime producer key digest r bytes observations known t).

(** ** Lifecycle *)

Definition ResetState (id : string) : tx unit :=
  modify (fun d => d <| db_entities := delete id (db_entities d) |> <| db_pins := delete id (db_pins d) |>
                     <| db_timers := delete id (db_timers d) |> <| db_receipts := delete id (db_receipts d) |>).

Definition RevisionState (id revision : string) (generation : Z) : tx unit :=
  bad ← gets (fun d => negb (size (rows id (db_entities d)) =? 0)%nat && negb (known_revision id revision d));
  reject bad constraint ;;
  modify (fun d => d <| db_entities := <[id := (fun r => r <| n_revision := revision |>) <$> rows id (db_entities d)]> (db_entities d) |>
                     <| db_timers := <[id := (fun t => t <| k_generation := generation |>) <$> rows id (db_timers d)]> (db_timers d) |>).

(** [Tx.CancelDeliveries] *)
Definition CancelPending (id : string) (now : time) : tx unit :=
  modify (fun d => d <| db_outbox := CancelDeliveries id now (db_outbox d) |>).

(** The transfer that holds a watch; the index [handoffs_held_watch] admits one. *)
Definition holds (id : string) (kv : string * handoff_row) : Prop := hr_watch (snd kv) = id ∧ h_Held (hr_body (snd kv)) = true.
Definition HandoffHold (id : string) : tx string :=
  gets (fun d => default "" (head (fst <$> filter (holds id) (map_to_list (db_handoffs d))))).

(** The event rows of a watch; what the trigger [event_cursor_expiry] records
    when they are deleted. *)
Definition events_of (id : string) (d : db) : gmap string event_row := filter (fun kv : string * event_row => y_watch (snd kv) = id) (db_events d).
Definition raise_floor (k : string) (n : Z) (m : gmap string Z) : gmap string Z :=
  <[k := match m !! k with Some old => Z.max old n | None => n end]> m.
Definition expire_cursor (id : string) (m : gmap string Z) (e : event_row) : gmap string Z :=
  raise_floor id (y_sequence e) (raise_floor "" (y_sequence e) m).

Definition purge_outbox (id : string) (events : gset string) (t : tables) : tables :=
  let gone := list_to_set (r_id <$> filter (fun r => r_watch r = id) (tb_outbox t)) : gset Z in
  t <| tb_outbox := filter (fun r => r_watch r ≠ id) (tb_outbox t) |>
    <| tb_attempts := filter (fun a => at_outbox a ∉ gone) (tb_attempts t) |>
    <| tb_streams := filter (fun s => st_watch s ≠ id) (tb_streams t) |>
    <| tb_events := tb_events t ∖ events |>.

(** Deletes a deleted watch and its history; intents of other watches for its
    events, or evidence of other watches in its observations, would block it. *)
Definition PurgeWatch (id : string) : tx unit :=
  r ← GetWatch id;
  reject (negb (r_Status r ≟ "deleted")) "only deleted watches can be permanently deleted" ;;
  hold ← HandoffHold id;
  reject (negb (hold ≟ "")) "watch has an active transfer" ;;
  purged ← gets (fun d => bool_decide (id ∈ db_purged d));
  reject purged constraint ;;
  events ← gets (events_of id);
  let ids := dom events in
  blocked ← gets (fun d =>
    bool_decide (Exists (fun o => r_watch o ≠ id ∧ r_event o ∈ ids) (tb_outbox (db_outbox d))) ||
    bool_decide (set_Exists (fun p : string * Z => fst p ∉ ids ∧ (b_watch <$> db_observations d !! snd p) = Some id) (db_evidence d)));
  reject blocked constraint ;;
  modify (fun d => d
    <| db_purged := {[id]} ∪ db_purged d |>
    <| db_outbox := purge_outbox id ids (db_outbox d) |>
    <| db_floor := fold_left (expire_cursor id) (snd <$> map_to_list events) (db_floor d) |>
    <| db_events := filter (fun kv : string * event_row => fst kv ∉ ids) (db_events d) |>
    <| db_evidence := filter (fun p : string * Z => fst p ∉ ids) (db_evidence d) |>
    <| db_replays := filter (fun kv : string * Checkpoint => fst kv ∉ ids) (db_replays d) |>
    <| db_observations := filter (fun kv : Z * observation_row => b_watch (snd kv) ≠ id) (db_observations d) |>
    <| db_entities := delete id (db_entities d) |> <| db_pins := delete id (db_pins d) |>
    <| db_timers := delete id (db_timers d) |> <| db_receipts := delete id (db_receipts d) |>
    <| db_handoffs := filter (fun kv : string * handoff_row => hr_watch (snd kv) ≠ id) (db_handoffs d) |>
    <| db_watches := delete id (db_watches d) |> <| db_push := (db_push d) <| pt_last := delete id (pt_last (db_push d)) |> |>
    <| db_revisions := filter (fun kv : (string * string) * revision_row => fst (fst kv) ≠ id) (db_revisions d) |>).
End Tx.
