(* ===== verification/Access.v ===== *)
(** * Permissions: [internal/access/access.go], [internal/watchrun/access.go]

    Principals are installed by authentication; a request without one is the
    local operator's.  Roles, kinds and actions are strings, as in the code: an
    unknown one is refused. *)
From S2P Require Import Prelude GoText GoFloat Watch Plan Outbox Records.

(** ** Principals *)

Definition Viewer : string := "viewer".
Definition Editor : string := "editor".
Definition Administrator : string := "administrator".
Definition Owner : string := "owner".

Definition actions : list string :=
  ["inspect"; "preview"; "manage"; "retry"; "destinations"; "credentials"; "members"; "owners"; "move"; "delete_workspace"; "host"; "ingest"].

Record Principal := mkPrincipal {
  pn_User : string; pn_Workspace : string; pn_Role : string; pn_Kind : string; pn_Operator : bool; pn_Scopes : list string }.

Definition Role_Valid (r : string) : bool := (r ≟ Viewer) || (r ≟ Editor) || (r ≟ Administrator) || (r ≟ Owner).

Definition delegated (kind : string) : bool := (kind ≟ "device") || (kind ≟ "integration") || (kind ≟ "service") || (kind ≟ "ingest").

(** The scope a delegated credential must carry. *)
Definition scope_of (p : Principal) (action : string) : string :=
  let scope := if (action ≟ "move") && negb (pn_Kind p ≟ "integration") && bool_decide ("owners" ∈ pn_Scopes p) then "owners" else action in
  if (pn_Kind p ≟ "integration") && (action ≟ "destinations") then "manage" else scope.

(** The [switch] on the action. *)
Definition role_allows (p : Principal) (action : string) : bool :=
  let administers := (pn_Role p ≟ Administrator) || (pn_Role p ≟ Owner) in
  if action ≟ "inspect" then true
  else if bool_decide (action ∈ ["preview"; "manage"; "retry"]) then negb (pn_Role p ≟ Viewer)
  else if bool_decide (action ∈ ["destinations"; "credentials"; "members"]) then administers
  else if bool_decide (action ∈ ["owners"; "move"; "delete_workspace"]) then pn_Role p ≟ Owner
  else if action ≟ "ingest" then (pn_Kind p ≟ "ingest") || (pn_Kind p ≟ "service")
  else false.

Definition Allows (p : Principal) (action : string) : bool :=
  if (pn_User p ≟ "") || (pn_Workspace p ≟ "") || negb (bool_decide (action ∈ actions)) then false
  else if pn_Operator p then true
  else if negb (Role_Valid (pn_Role p)) || (action ≟ "host") then false
  else if delegated (pn_Kind p) && negb (bool_decide (scope_of p action ∈ pn_Scopes p)) then false
  else role_allows p action.

Definition ErrDenied : string := "workspace permission denied".

(** [Require] on the principal of the context, if it carries one. *)
Definition Require_ (ctx : option Principal) (action : string) : tx unit :=
  match ctx with Some p => reject (negb (Allows p action)) ErrDenied | None => mret tt end.

Definition Capabilities (p : Principal) : list string := filter (fun a => Allows p a = true) actions.

(** ** Authorizing a bundle *)

(** [plan.Bundle] *)
Record Bundle := { bu_Watches : list Compiled; bu_Destinations : list CompiledDestination }.

#[global] Instance SecretRef_eq_dec : EqDecision SecretRef.
Proof. solve_decision. Defined.
#[global] Instance LogMultiline_eq_dec : EqDecision LogMultiline.
Proof. solve_decision. Defined.
#[global] Instance LogInput_eq_dec : EqDecision LogInput.
Proof. solve_decision. Defined.
#[global] Instance LogSource_eq_dec : EqDecision LogSource.
Proof. solve_decision. Defined.
#[global] Instance Source_eq_dec : EqDecision Source.
Proof. solve_decision. Defined.

(** Cadence, timeout and projected fields do not change where a saved
    credential is used. *)
Definition credential_use (s : Source) : Source :=
  {| s_Logs := s_Logs s; s_ObservedAtField := ""; s_Type := s_Type s; s_URL := s_URL s; s_URLRef := s_URLRef s; s_Every := "";
     s_Timeout := ""; s_Headers := s_Headers s; s_Fields := ∅; s_ItemsPath := s_ItemsPath s; s_JQ := s_JQ s; s_Argv := s_Argv s;
     s_Directory := s_Directory s; s_Env := s_Env s |}.

Definition uses_secrets (s : Source) : bool :=
  bool_decide (is_Some (s_URLRef s)) || negb (size (s_Headers s) =? 0)%nat || negb (size (s_Env s) =? 0)%nat.

Definition manages_credentials (p : Principal) : bool :=
  Allows p "credentials" || ((pn_Kind p ≟ "integration") && ((pn_Role p ≟ Administrator) || (pn_Role p ≟ Owner))).

(** Reads that may not find a row. *)
Definition find_watch (id : string) : tx (option WatchRecord) := gets (watch_in id).
Definition find_destination (id : string) : tx (option CompiledDestination) :=
  gets (fun d => rev ← db_destinations d !! id; tb_revisions (db_outbox d) !! (id, rev)).

Definition authorize_destination (p : Principal) (c : CompiledDestination) : tx unit :=
  old ← find_destination (md_ID (dst_Metadata (cd_Definition c)));
  reject (negb (bool_decide (cd_Revision <$> old = Some (cd_Revision c))) && negb (Allows p "destinations")) ErrDenied.

Definition authorize_watch (approved : list string) (p : Principal) (c : Compiled) : tx unit :=
  let src := sp_Source (d_Spec (cp_Definition c)) in
  reject ((s_Type src ≟ "command") && negb (bool_decide (cp_Revision c ∈ approved))) ErrDenied ;;
  reject (negb (bool_decide (s_Type src ∈ ["command"; "http"; "push"]))) ErrDenied ;;
  unless (manages_credentials p || negb (uses_secrets src))
    (old ← find_watch (md_ID (d_Metadata (cp_Definition c)));
     reject (match old with
             | None => true
             | Some r => negb (bool_decide (credential_use src = credential_use (sp_Source (r_Spec r))))
             end) ErrDenied).

(** [authorizeBundle]; [approved] are the revisions of commands the host
    approved. *)
Definition authorizeBundle (approved : list string) (ctx : option Principal) (b : Bundle) : tx unit :=
  match ctx with
  | None => mret tt
  | Some p =>
      if pn_Operator p then mret tt
      else for_each (authorize_destination p) (bu_Destinations b) ;; for_each (authorize_watch approved p) (bu_Watches b)
  end.
