(* ===== verification/Render.v ===== *)
(** * Notification payloads: [internal/delivery/payload.go], [internal/notificationstyle/style.go]

    The JSON text pinned in the outbox for each kind of destination, and the
    length bounds of its parts. *)
From S2P Require Import Prelude GoText GoTime GoJson Watch RecordJson.

(** ** Status *)

(** [notificationstyle.Status] is a string; these are its constants. *)
Definition Warning : string := "warning".
Definition Error : string := "error".
Definition Recovered : string := "recovered".

Definition severity_of (s : string) : option string :=
  let s := ToLower (TrimSpace s) in
  if bool_decide (s ∈ ["warn"; "warning"]) then Some Warning
  else if bool_decide (s ∈ ["error"; "err"; "fatal"; "critical"; "crit"; "panic"]) then Some Error
  else None.

(** [value, _ := event.Fields[key].(string)] *)
Definition text_field (fs : fields) (key : string) : string :=
  match fs !! key with Some (VString s) => s | _ => "" end.

Fixpoint first_severity (fs : fields) (keys : list string) : option string :=
  match keys with
  | [] => None
  | key :: keys => match severity_of (text_field fs key) with Some s => Some s | None => first_severity fs keys end
  end.

Definition ForEvent (e : Event) : string :=
  let t := ev_Type e in
  if (t ≟ "recovered") || (t ≟ "source_recovered") then Recovered
  else if t ≟ "source_error" then Error
  else if (t ≟ "gap") || (t ≟ "state_reset") then Warning
  else match first_severity (ev_Fields e) ["severity"; "level"; "log.level"] with
       | Some s => s
       | None => if t ≟ "firing" then Error else ""
       end.

Definition Label (s : string) : string :=
  if s ≟ Warning then "Warning" else if s ≟ Error then "Error" else if s ≟ Recovered then "Recovered" else "".
Definition IconColor (s : string) : string :=
  if s ≟ Warning then "yellow" else if s ≟ Error then "red" else if s ≟ Recovered then "green" else "".
Definition IconURL (s : string) : string :=
  let color := IconColor s in
  if negb (color ≟ "") then "https://ding.ing/assets/notifications/" ++ color ++ ".png" else "".
Definition Color (s : string) : Z :=
  if s ≟ Warning then 0xe7e37e else if s ≟ Error then 0xe77e7e else if s ≟ Recovered then 0x7ee787 else 0.

(** ** Truncation *)

Definition ellipsis : string := b3 0xE2 0x80 0xA6.

(** The last start of a rune at or before an index. *)
Fixpoint rune_boundary (value : string) (limit : nat) : nat :=
  match limit with
  | O => O
  | S n => match String.get limit value with
           | Some c => if RuneStart c then limit else rune_boundary value n
           | None => limit
           end
  end.

Definition truncate (value : string) (max : nat) : string :=
  if (String.length value <=? max)%nat then value
  else str_take (rune_boundary value (max - 3)) value ++ ellipsis.

(** ** Payloads *)

(** The separator of the titles: a middle dot between spaces. *)
Definition dot : string := " " ++ b2 0xC2 0xB7 ++ " ".
Definition newline : string := one (bz 10).

Definition title_of (e : Event) : string :=
  let label := Label (ForEvent e) in
  if negb (label ≟ "") then truncate (label ++ dot ++ ev_WatchID e ++ dot ++ ev_Type e) 150
  else truncate (ev_WatchID e ++ dot ++ ev_Type e) 150.

(** The message followed by the first ten fields in key order. *)
Definition field_line (kv : string * value) : option string :=
  value ← Marshal (snd kv);
  Some (newline ++ truncate (fst kv) 128 ++ ": " ++ truncate value 160).
Definition body_of (e : Event) : option string :=
  lines ← mapM field_line (take 10 (sorted_fields (ev_Fields e)));
  let text := truncate (TrimSpace (ev_Message e ++ str_app_list lines)) 2800 in
  Some (if text ≟ "" then ev_Type e else text).

Definition plain_text (text : string) : value := VObject [("text", VString text); ("type", VString "plain_text")].

Definition slack_payload (title text footer status : string) : value :=
  let icon := IconURL status in
  let accessory := if negb (icon ≟ "")
    then [("accessory", VObject [("alt_text", VString ("Ding: " ++ Label status)); ("image_url", VString icon); ("type", VString "image")])]
    else [] in
  VObject
    [("blocks", VArray
        [VObject [("text", plain_text title); ("type", VString "header")];
         VObject (accessory ++ [("text", plain_text text); ("type", VString "section")])%list;
         VObject [("elements", VArray [plain_text footer]); ("type", VString "context")]]);
     ("mrkdwn", VBool false); ("text", VString title); ("unfurl_links", VBool false); ("unfurl_media", VBool false)].

Definition discord_payload (title text footer status : string) : value :=
  let icon := IconURL status in
  let styled := negb (icon ≟ "") in
  VObject
    [("allowed_mentions", VObject [("parse", VArray [])]);
     ("embeds", VArray [VObject
        ((if styled then [("color", VInt (Color status))] else []) ++
         [("description", VString text); ("footer", VObject [("text", VString footer)])] ++
         (if styled then [("thumbnail", VObject [("url", VString icon)])] else []) ++
         [("title", VString title)])%list])].

Definition encode (text : option string) : result string :=
  match text with Some t => Ok t | None => Err "json: unsupported value" end.

Definition Render (kind : string) (e : Event) : result string :=
  if (kind ≟ "webhook") || (kind ≟ "console") then
    encode (data ← event_record_json e; Some (object_text (always "apiVersion" (quote APIVersion) ++ always "data" data)%list))
  else
    let title := title_of e in
    let status := ForEvent e in
    if kind ≟ "desktop" then
      Ok (object_text (str_member "status" status ++ str_member "watchId" (ev_WatchID e) ++ always "id" (quote (ev_ID e))
            ++ always "title" (quote title) ++ always "body" (quote (truncate (ev_Message e) 2800))
            ++ always "requestPermission" "false")%list)
    else
      text ← encode (body_of e);
      let footer := RFC3339 (ev_At e) ++ dot ++ ev_ID e in
      if kind ≟ "slack" then encode (Marshal (slack_payload title text footer status))
      else if kind ≟ "discord" then encode (Marshal (discord_payload title text footer status))
      else Err "unsupported destination type".

(** ** Bounds *)

Lemma str_take_length n s : (String.length (str_take n s) <= n)%nat.
Proof. revert s. induction n; intros [|c s]; cbn; try lia. specialize (IHn s). lia. Qed.

Lemma rune_boundary_le value n : (rune_boundary value n <= n)%nat.
Proof.
  induction n as [|n IH]; cbn; [lia|]. destruct (String.get (S n) value); [|lia]. destruct (RuneStart a); lia.
Qed.

(** A truncated text fits its limit. *)
Lemma truncate_length value max : (3 <= max)%nat → (String.length (truncate value max) <= max)%nat.
Proof.
  intros Hmax. unfold truncate. destruct (String.length value <=? max)%nat eqn:E; [by apply Nat.leb_le in E|].
  rewrite str_length_app. change (String.length ellipsis) with 3%nat.
  pose proof (str_take_length (rune_boundary value (max - 3)) value). pose proof (rune_boundary_le value (max - 3)). lia.
Qed.

Example truncate_keeps_runes : truncate (b2 0xC3 0xA9 ++ b2 0xC3 0xA9 ++ b2 0xC3 0xA9) 5 = b2 0xC3 0xA9 ++ ellipsis.
Proof. reflexivity. Qed.
