(* ===== verification/Acceptance.v ===== *)
(** * Accepting observations: [internal/watchrun/app.go], [acceptance_entities.go], [jitter.go], [push.go]

    One acceptance is one transaction: fencing, receipts, the recorded
    observations, evaluation through the per-transaction entity cache, events
    with their replay checkpoints and delivery intents, timers and usage.  The
    process-local health line ([App.note]) is not part of the tables.  Clock
    readings, the shutdown flag and the storage size the database engine reports
    are arguments. *)
From S2P Require Import Prelude GoText GoTime GoJson Sha256 Watch Plan Evaluator RecordJson Outbox PushReceipts Records Render.

(** ** Configuration and input *)

(** [watchrun.Limits] *)
Record Budgets := { g_MaxDestinations : Z; g_MaxWatches : Z; g_MaxPending : Z; g_MaxBytes : Z; g_Retention : duration }.
Definition DefaultLimits : Budgets :=
  {| g_MaxDestinations := 0; g_MaxWatches := 1000; g_MaxPending := 10000; g_MaxBytes := Z.shiftl 1 30; g_Retention := 7 * 24 * Hour |}.

(** [source.Batch] *)
Record Batch := {
  bt_ExpectedCursor : option string; bt_FreshUntil : time; bt_Entity : string; bt_Deadline : time;
  bt_Observations : list Observation; bt_Cursor : string; bt_RetryAt : time }.

Record Receipt := { rc_First : Z; rc_Last : Z; rc_Duplicate : bool }.

Record PushInput := {
  pi_ValidUntil : time; pi_Producer : string; pi_Key : string; pi_Digest : string; pi_Bytes : Z; pi_MaxReceipts : Z;
  pi_Horizon : duration }.

Definition ErrClosing : string := "runtime is shutting down".
Definition ErrProducerExpired : string := "producer credential expired before commit".

(** [nextPoll]: the polling period plus a deterministic jitter below five seconds. *)
Definition le_uint64 (l : list Z) : Z := foldr (fun b n => b + 256 * n) 0 (take 8 l).
Definition nextPoll (jitter : duration) (now : time) (interval : duration) (id : string) : time :=
  let next := Add now interval in
  if jitter <=? 0 then next
  else let bound := Z.min jitter (5 * Second) in
       Add next (le_uint64 (Sum256 (str_bytes (id ++ "/" ++ Itoa (UnixNano now)))) mod bound).

(** ** The entity cache of one acceptance: [acceptance_entities.go] *)

(** States read or written, writes not flushed yet, keys whose absence is known,
    whether everything was read, and the number of entities once counted. *)
Record cache := mkCache {
  ca_states : gmap string State; ca_pending : gmap string State; ca_known : gset string; ca_all : bool; ca_n : Z }.
#[export] Instance eta_cache : Eta cache := fun c => mkCache (ca_states c) (ca_pending c) (ca_known c) (ca_all c) (ca_n c).
#[export] Instance upd_ca_states : FieldUpdate ca_states := ltac:(field_update).
#[export] Instance upd_ca_pending : FieldUpdate ca_pending := ltac:(field_update).
#[export] Instance upd_ca_known : FieldUpdate ca_known := ltac:(field_update).
#[export] Instance upd_ca_all : FieldUpdate ca_all := ltac:(field_update).
#[export] Instance upd_ca_n : FieldUpdate ca_n := ltac:(field_update).

Definition newAcceptanceEntities : cache := mkCache ∅ ∅ ∅ false (-1).

Section Cache.
(** Watch, revision and accepted time of the transaction. *)
Context (id revision : string) (now : time).

Definition flush (c : cache) : tx cache :=
  if (size (ca_pending c) =? 0)%nat then mret c
  else SaveEntities id revision (ca_pending c) now ;; mret (c <| ca_pending := ∅ |>).

(** The keys of the healthy observations of a batch. *)
Fixpoint wanted_keys (e : Evaluator) (l : list Observation) (wanted : gset string) : result (gset string) :=
  match l with
  | [] => Ok wanted
  | o :: l =>
      if negb (o_Health o ≟ "ok") then wanted_keys e l wanted
      else '(keys, _) ← Route e [] o; wanted_keys e l (list_to_set keys ∪ wanted)
  end.

Definition preload (e : Evaluator) (l : list Observation) (c : cache) : tx cache :=
  if (length l <? 2)%nat then mret c
  else wanted ← lift (wanted_keys e l {[SourceEntity]});
       states ← EntitySubset id wanted;
       mret (c <| ca_states := states |> <| ca_known := wanted |>).

Definition load (key : string) (c : cache) : tx (cache * option State) :=
  if negb (ca_all c) && negb (bool_decide (key ∈ ca_known c)) then
    data ← GetEntity id key;
    let c := c <| ca_known := {[key]} ∪ ca_known c |> in
    let c := match data with Some s => c <| ca_states := <[key := s]> (ca_states c) |> | None => c end in
    mret (c, ca_states c !! key)
  else mret (c, ca_states c !! key).

(** Source-health input fans out over every entity, unflushed ones included. *)
Definition read_all (c : cache) : tx cache :=
  if ca_all c then mret c
  else c ← flush c;
       states ← GetEntities id;
       mret (c <| ca_states := states |> <| ca_all := true |> <| ca_n := Z.of_nat (size states) |>).

Definition route (e : Evaluator) (o : Observation) (c : cache) : tx (cache * (list string * bool)) :=
  '(c, existing) ←
    (if o_Health o ≟ "ok" then
       '(c, found) ← load SourceEntity c;
       mret (c, match found with Some _ => [SourceEntity] | None => [] end)
     else if negb (o_Health o ≟ "timer") || (o_Entity o ≟ "") then
       c ← read_all c;
       mret (c, fst <$> map_to_list (ca_states c))
     else mret (c, []) : tx (cache * list string));
  r ← lift (Route e existing o);
  mret (c, r).

Definition count (c : cache) : tx (cache * Z) :=
  if ca_n c <? 0 then n ← EntityCount id; mret (c <| ca_n := n |>, n) else mret (c, ca_n c).

Definition saved (key : string) (data : State) (c : cache) : cache :=
  let n := if negb (bool_decide (is_Some (ca_states c !! key))) && (0 <=? ca_n c) then ca_n c + 1 else ca_n c in
  c <| ca_n := n |> <| ca_states := <[key := data]> (ca_states c) |> <| ca_known := {[key]} ∪ ca_known c |>
    <| ca_pending := <[key := data]> (ca_pending c) |>.

Definition removed (key : string) (c : cache) : cache :=
  let n := if bool_decide (is_Some (ca_states c !! key)) && (0 <=? ca_n c) then ca_n c - 1 else ca_n c in
  c <| ca_n := n |> <| ca_states := delete key (ca_states c) |> <| ca_pending := delete key (ca_pending c) |>
    <| ca_known := {[key]} ∪ ca_known c |>.
End Cache.

(** ** Events: [appendEvent], [appendEvaluated] *)

Section Accept.
Context `{L : Libraries} (limits : Budgets).

Definition enqueue_target (r : WatchRecord) (e : Event) (now : time) (t : Target) : tx unit :=
  if negb (bool_decide (ev_Type e ∈ t_Events t)) then mret tt
  else
    pending ← Pending;
    reject (g_MaxPending limits <=? pending) ErrQuota ;;
    destination ← GetDestination (t_Ref t) "";
    payload ← lift (Render (ds_Type (dst_Spec (cd_Definition destination))) e);
    EnqueueIntent {| it_ID := 0; it_EventID := ev_ID e; it_WatchID := r_ID r; it_DestinationID := t_Ref t;
                     it_DestinationRevision := cd_Revision destination; it_Payload := payload; it_Status := ""; it_Attempts := 0;
                     it_NextAt := now; it_CycleStartedAt := zero_time; it_CreatedAt := now; it_LeaseToken := "";
                     it_Destination := destination |} ;;
    mret tt.

Definition with_sequence (e : Event) (n : Z) : Event :=
  {| ev_ID := ev_ID e; ev_Sequence := n; ev_WatchID := ev_WatchID e; ev_Revision := ev_Revision e; ev_Entity := ev_Entity e;
     ev_Type := ev_Type e; ev_At := ev_At e; ev_Message := ev_Message e; ev_Fields := ev_Fields e; ev_Evidence := ev_Evidence e |}.

Definition appendEvent (r : WatchRecord) (e : Event) (now : time) : tx unit :=
  sequence ← AppendEvent e;
  for_each (enqueue_target r (with_sequence e sequence) now) (sp_Destinations (r_Spec r)).

(** The part of the seen-set a new-event firing depends on. *)
Definition prune_seen (r : WatchRecord) (e : Event) (now : time) (c : Checkpoint) : Checkpoint :=
  let cond := sp_Condition (r_Spec r) in
  let seen := Seen (ck_Prior c) in
  if (c_Operator cond ≟ "new-event") && (ev_Type e ≟ "new-event")
     && (Z.of_nat (size (live now seen)) <? l_MaxSamples (sp_Limits (r_Spec r)))
  then let event := text_field (o_Fields (ck_Input c)) (c_Field cond) in
       let kept := match seen !! event with Some expiry => {[event := expiry]} | None => ∅ end in
       {| ck_Prior := (ck_Prior c) <| Seen := kept |>; ck_Input := ck_Input c; ck_SourceRecovered := ck_SourceRecovered c |}
  else c.

Definition appendEvaluated (r : WatchRecord) (now : time) (c : Checkpoint) (e : Event) : tx unit :=
  appendEvent r e now ;; SaveReplay (ev_ID e) (prune_seen r e now c).

(** ** Evaluating the observations of a batch *)

Definition sequenced (o : Observation) (n : Z) : Observation :=
  {| o_Entity := o_Entity o; o_Deadline := o_Deadline o; o_Sequence := n; o_InputID := o_InputID o; o_AcceptedAt := o_AcceptedAt o;
     o_ObservedAt := o_ObservedAt o; o_Fields := o_Fields o; o_Health := o_Health o; o_Detail := o_Detail o |}.

Section Batch.
Context (current : WatchRecord) (evaluator : Evaluator) (now : time).
Let id := r_ID current.
Let revision := r_Revision current.

(** A healthy group observation clears the source's pseudo-entity, once. *)
Definition clear_source (o : Observation) (c : cache) : tx cache :=
  '(c, found) ← load id SourceEntity c;
  match found with
  | None => fail "unexpected end of JSON input"
  | Some bootstrap =>
      DeleteEntity id SourceEntity ;;
      let c := removed SourceEntity c in
      unless (negb (SourceUnhealthy bootstrap))
        (appendEvaluated current now {| ck_Prior := bootstrap; ck_Input := o; ck_SourceRecovered := true |} (SourceRecovered evaluator o)) ;;
      mret c
  end.

(** Only freshness moves the absence deadline. *)
Definition arm_missing (key : string) (o : Observation) (s : State) : tx unit :=
  unless (negb (negb (c_MissingFor (sp_Condition (r_Spec current)) ≟ "") && ((o_Health o ≟ "ok") || (o_Health o ≟ "unchanged"))))
    (SaveTimer {| tm_WatchID := id; tm_Entity := key; tm_Kind := "missing"; tm_Generation := r_Generation current; tm_Due := MissingAt s |}).

Definition evaluate_key (o : Observation) (key : string) (c : cache) : tx cache :=
  '(c, found) ← load id key c;
  '(c, state) ← (match found with
                 | Some s => mret (c, s)
                 | None => '(c, n) ← count id c;
                           reject (l_MaxEntities (sp_Limits (r_Spec current)) <=? n) ErrQuota ;;
                           mret (c, empty_state key)
                 end : tx (cache * State));
  result ← lift (Evaluate evaluator state o now);
  arm_missing key o (tr_State result) ;;
  data ← encoded (copy_state (tr_State result));
  let c := saved key data c in
  for_each (appendEvaluated current now {| ck_Prior := state; ck_Input := o; ck_SourceRecovered := false |}) (tr_Events result) ;;
  mret c.

Fixpoint evaluate_keys (o : Observation) (keys : list string) (c : cache) : tx cache :=
  match keys with
  | [] => mret c
  | key :: keys => c ← evaluate_key o key c; evaluate_keys o keys c
  end.

Definition when_clear (clear : bool) (o : Observation) (c : cache) : tx cache := if clear then clear_source o c else mret c.
Definition evaluate_observation (o : Observation) (c : cache) : tx cache :=
  '(c, (keys, clear)) ← route id revision now evaluator o c;
  c ← when_clear clear o c;
  evaluate_keys o keys c.

Fixpoint evaluate_all (l : list Observation) (c : cache) : tx cache :=
  match l with
  | [] => mret c
  | o :: l => c ← evaluate_observation o c; evaluate_all l c
  end.

(** The recorded observations, with the sequences they were given. *)
Definition evaluate_batch (l : list Observation) (sequences : list Z) : tx unit :=
  c ← preload id evaluator l newAcceptanceEntities;
  c ← evaluate_all (zip_with sequenced l sequences) c;
  flush id revision now c ;;
  mret tt.
End Batch.

(** ** One acceptance *)

Definition with_input (o : Observation) (input : string) (now : time) : Observation :=
  {| o_Entity := o_Entity o; o_Deadline := o_Deadline o; o_Sequence := 0; o_InputID := input; o_AcceptedAt := now;
     o_ObservedAt := o_ObservedAt o; o_Fields := o_Fields o; o_Health := o_Health o; o_Detail := o_Detail o |}.
Definition for_timer (o : Observation) (entity : string) (deadline : time) : Observation :=
  {| o_Entity := entity; o_Deadline := Some deadline; o_Sequence := o_Sequence o; o_InputID := o_InputID o;
     o_AcceptedAt := o_AcceptedAt o; o_ObservedAt := o_ObservedAt o; o_Fields := o_Fields o; o_Health := o_Health o; o_Detail := o_Detail o |}.
Definition gap_observation : Observation :=
  {| o_Entity := ""; o_Deadline := None; o_Sequence := 0; o_InputID := ""; o_AcceptedAt := zero_time; o_ObservedAt := None;
     o_Fields := ∅; o_Health := "gap"; o_Detail := "backpressure_gap" |}.

Definition is_timer (b : Batch) : bool := negb (IsZero (bt_Deadline b)).

(** The observations as they are recorded, numbered within the batch. *)
Fixpoint stamped (b : Batch) (input : string) (now : time) (i : Z) (l : list Observation) : list Observation :=
  match l with
  | [] => []
  | o :: l =>
      let o := with_input o (input ++ ":" ++ Itoa i ++ ":" ++ Itoa (UnixNano now)) now in
      (if is_timer b then for_timer o (bt_Entity b) (bt_Deadline b) else o) :: stamped b input now (i + 1) l
  end.

Definition check_size (max : Z) (o : Observation) : tx unit :=
  text ← encoded (observation_json o);
  reject (max <? len text) ErrQuota.

(** A timer input consumes the armed timer it was scheduled for. *)
Definition take_timer (current : WatchRecord) (b : Batch) (now : time) : tx unit :=
  if is_timer b then
    fun d => match GetTimer (r_ID current) (bt_Entity b) "missing" d with
             | Err _ => Err ErrStale
             | Ok (timer, d) =>
                 (reject (negb (tm_Generation timer =? r_Generation current) || negb (tm_Due timer =? bt_Deadline b) || Before now (tm_Due timer)) ErrStale ;;
                  DeleteTimer timer) d
             end
  else mret tt.

(** [push != nil]: the credential, the watch's lifetime, an earlier receipt, the
    receipt budget.  [Some] is the receipt of a repeated push. *)
Definition admit_push (record current : WatchRecord) (p : PushInput) (now : time) : tx (option PushReceipt) :=
  reject (negb (IsZero (pi_ValidUntil p)) && negb (Before now (pi_ValidUntil p))) ErrProducerExpired ;;
  reject (negb (r_Lifetime current ≟ r_Lifetime record) || (r_Status current ≟ "deleted")) ErrStale ;;
  saved ← GetPushReceipt (r_Lifetime record) (pi_Producer p) (pi_Key p) (pi_Digest p) now;
  match saved with
  | Ok r => mret (Some r)
  | Err e =>
      reject (negb (e ≟ ErrNotFound)) e ;;
      n ← CountPushReceipts now;
      reject (pi_MaxReceipts p <=? n) ErrQuota ;;
      mret None
  end.

Section Runtime.
(** Scheduling jitter and the storage the engine reports for the tables. *)
Context (jitter : duration) (storage : db → Z).

Definition receipt_ttl (current : WatchRecord) : duration :=
  match s_Logs (sp_Source (r_Spec current)) with
  | None => 24 * Hour
  | Some l => let ttl := duration_or_zero (ls_Retention l) in if ttl <=? 0 then Hour else ttl
  end.

Definition accepted_push (current : WatchRecord) (p : PushInput) (input : string) (first last : Z) (now : time) : PushReceipt :=
  {| pr_AcceptanceID := input; pr_WatchID := r_ID current; pr_Generation := r_Generation current; pr_Revision := r_Revision current;
     pr_First := first; pr_Last := last; pr_Duplicate := false; pr_AcceptedAt := now; pr_ExpiresAt := Add now (pi_Horizon p) |}.

(** The receipt that makes a repetition of the input harmless. *)
Definition save_receipt (current : WatchRecord) (push : option PushInput) (input : string) (first last observations : Z)
    (now later : time) : tx (option PushReceipt) :=
  match push with
  | Some p =>
      reject (negb (IsZero (pi_ValidUntil p)) && negb (Before later (pi_ValidUntil p))) ErrProducerExpired ;;
      let r := accepted_push current p input first last now in
      SavePush (r_Lifetime current) (pi_Producer p) (pi_Key p) (pi_Digest p) r (pi_Bytes p) observations ;;
      bytes ← gets storage;
      reject (g_MaxBytes limits <? bytes) ErrQuota ;;
      mret (Some r)
  | None =>
      SaveReceipt (r_ID current) (r_Generation current) input first last (Add now (receipt_ttl current)) ;;
      mret None
  end.

(** Recording and evaluating the observations of a fresh input. *)
Definition record_batch (current : WatchRecord) (evaluator : Evaluator) (b : Batch) (input : string) (now : time) : tx (Z * Z * Z) :=
  let timerInput := is_timer b in
  let next := nextPoll jitter now (duration_or_zero (s_Every (sp_Source (r_Spec current)))) (r_ID current) in
  let next := if After (bt_RetryAt b) next then bt_RetryAt b else next in
  unless timerInput (SaveCheckpoint (r_ID current) (r_Generation current) next now (bt_Cursor b)) ;;
  bytes ← gets storage;
  pending ← Pending;
  reject ((g_MaxBytes limits <=? bytes) || (g_MaxPending limits <=? pending)) ErrQuota ;;
  let l := if negb (r_LastError current ≟ "") && negb timerInput then gap_observation :: bt_Observations b else bt_Observations b in
  let l := stamped b input now 0 l in
  for_each (check_size (l_MaxBytes (sp_Limits (r_Spec current)))) l ;;
  sequences ← AppendObservations (r_ID current) (r_Revision current) (r_Generation current) l;
  evaluate_batch current evaluator now l sequences ;;
  bytes ← gets storage;
  reject (g_MaxBytes limits <? bytes) ErrQuota ;;
  mret (default 0 (head sequences), default 0 (list.last sequences), Z.of_nat (length l)).

(** The transaction of [acceptPush]; [later] is the clock read before commit. *)
Definition accept_tx (record : WatchRecord) (evaluator : Evaluator) (b : Batch) (input : string) (push : option PushInput)
    (closing : bool) (now later : time) : tx (Receipt * option PushReceipt) :=
  reject closing ErrClosing ;;
  current ← GetWatch (r_ID record);
  earlier ← (match push with Some p => admit_push record current p now | None => mret None end : tx (option PushReceipt));
  match earlier with
  | Some r => mret ({| rc_First := pr_First r; rc_Last := pr_Last r; rc_Duplicate := true |}, Some r)
  | None =>
      reject (negb (r_Generation current =? r_Generation record) || negb (r_Revision current ≟ r_Revision record)
              || negb (r_Status current ≟ "running")) ErrStale ;;
      take_timer current b now ;;
      seen ← GetReceipt (r_ID current) (r_Generation current) input now;
      match seen with
      | Some (first, last) => mret ({| rc_First := first; rc_Last := last; rc_Duplicate := true |}, None)
      | None =>
          reject (match bt_ExpectedCursor b with Some cursor => negb (r_Cursor current ≟ cursor) | None => false end
                  || negb (IsZero (bt_FreshUntil b)) && negb (Before now (bt_FreshUntil b))) ErrStale ;;
          '(first, last, n) ← record_batch current evaluator b input now;
          pushed ← save_receipt current push input first last n now later;
          mret ({| rc_First := first; rc_Last := last; rc_Duplicate := false |}, pushed)
      end
  end.

(** The guards before the transaction. *)
Definition check_input (record : WatchRecord) (b : Batch) (input : string) : result Evaluator :=
  fail_if ((input ≟ "") || (256 <? len input)) "invalid input identity" ;;
  let n := Z.of_nat (length (bt_Observations b)) in
  fail_if ((n =? 0) || (l_MaxOutputs (sp_Limits (r_Spec record)) <? n)) "invalid observation count" ;;
  New parse_template (r_Definition record) (r_Revision record).

(** A failure other than staleness or shutdown is remembered on the watch. *)
Definition acceptPush (record : WatchRecord) (b : Batch) (input : string) (push : option PushInput) (closing : bool)
    (now later : time) (d : db) : db * result (Receipt * option PushReceipt) :=
  if closing then (d, Err ErrClosing)
  else match check_input record b input with
  | Err e => (d, Err e)
  | Ok evaluator =>
      match Update (accept_tx record evaluator b input push closing now later) d with
      | (d, Ok r) => (d, Ok r)
      | (d, Err e) =>
          if match push with Some _ => false | None => true end && negb (e ≟ ErrStale) && negb (e ≟ ErrClosing)
          then (fst (Update (SetLastError (r_ID record) (r_Generation record)
                              (if e ≟ ErrQuota then "quota_exceeded" else "acceptance_failed") zero_time) d), Err e)
          else (d, Err e)
      end
  end.
End Runtime.
End Accept.
