(* ===== verification/Lifecycle.v ===== *)
(** * Watch lifecycle: [internal/watchrun/lifecycle.go], [clock.go], [mutation.go]

    Pausing, resuming, deleting and purging a watch, rearming after a clock
    discontinuity, and the timer worker.  Go's [range] over a map has no order:
    the order is an argument. *)
From S2P Require Import Prelude GoText GoTime GoJson Watch Plan Evaluator RecordJson Outbox PushReceipts Records Access Render Acceptance.

(** ** Events of the lifecycle *)

Definition lifecycle_json (r : WatchRecord) (kind : string) (now : time) : option string :=
  at_ ← time_json now;
  Some (object_text [member "Watch" (quote (r_ID r)); member "Revision" (quote (r_Revision r)); member "Kind" (quote kind);
                     member "Generation" (Itoa (r_Generation r)); member "At" at_]).

Definition lifecycleEvent (r : WatchRecord) (kind reason : string) (now : time) : tx unit :=
  id ← lift (revision_of (lifecycle_json r kind now));
  AppendEvent {| ev_ID := id; ev_Sequence := 0; ev_WatchID := r_ID r; ev_Revision := r_Revision r; ev_Entity := ""; ev_Type := kind;
                 ev_At := now; ev_Message := reason; ev_Fields := ∅; ev_Evidence := [] |} ;;
  mret tt.

Definition MissingFor (r : WatchRecord) : string := c_MissingFor (sp_Condition (r_Spec r)).

(** The entity of an ungrouped watch. *)
Definition root_entity : string := match EntityKey [] ∅ with Ok key => key | Err _ => "" end.

(** An absence condition without groups is armed before the first input. *)
Definition armInitial (r : WatchRecord) (now : time) : tx unit :=
  if negb (r_Status r ≟ "running") || (MissingFor r ≟ "") || nonempty (sp_GroupBy (r_Spec r)) then mret tt
  else
    let due := Add now (duration_or_zero (MissingFor r)) in
    SaveEntity (r_ID r) root_entity (r_Revision r) ((empty_state root_entity) <| LastAt := now |> <| MissingAt := due |>) now ;;
    SaveTimer {| tm_WatchID := r_ID r; tm_Entity := root_entity; tm_Kind := "missing"; tm_Generation := r_Generation r; tm_Due := due |}.

(** ** Rearming every entity of a watch *)

Definition health_observation (input health detail : string) (now : time) : Observation :=
  {| o_Entity := ""; o_Deadline := None; o_Sequence := 0; o_InputID := input; o_AcceptedAt := now; o_ObservedAt := None; o_Fields := ∅;
     o_Health := health; o_Detail := detail |}.

Section Lifecycle.
Context `{L : Libraries} (limits : Budgets) (range : gmap string State → list (string * State)).

(** One entity of a resumed watch: a gap, and a full period to the deadline. *)
Definition resume_entity (r : WatchRecord) (e : Evaluator) (now : time) (kv : string * State) : tx unit :=
  let '(key, old) := kv in
  let o := health_observation ("resume:" ++ Itoa (r_Generation r) ++ ":" ++ key) "gap" "resumed" now in
  sequence ← AppendObservation (r_ID r) (r_Revision r) (r_Generation r) o;
  let o := sequenced o sequence in
  result ← lift (Evaluate e old o now);
  let due := Add now (duration_or_zero (MissingFor r)) in
  let armed := negb (MissingFor r ≟ "") in
  let state := if armed then (tr_State result) <| MissingAt := due |> else tr_State result in
  unless (negb armed)
    (SaveTimer {| tm_WatchID := r_ID r; tm_Entity := key; tm_Kind := "missing"; tm_Generation := r_Generation r; tm_Due := due |}) ;;
  SaveEntity (r_ID r) key (r_Revision r) state now ;;
  for_each (appendEvaluated limits r now {| ck_Prior := old; ck_Input := o; ck_SourceRecovered := false |}) (tr_Events result).

(** One entity after a clock discontinuity. *)
Definition shift_entity (r : WatchRecord) (e : Evaluator) (now : time) (kv : string * State) : tx unit :=
  let '(key, prior) := kv in
  let o := health_observation ("clock:" ++ Itoa (r_Generation r) ++ ":" ++ key) "clock" "clock_discontinuity" now in
  sequence ← AppendObservation (r_ID r) (r_Revision r) (r_Generation r) o;
  let o := sequenced o sequence in
  result ← lift (Evaluate e prior o now);
  SaveEntity (r_ID r) key (r_Revision r) (tr_State result) now ;;
  unless (MissingFor r ≟ "")
    (SaveTimer {| tm_WatchID := r_ID r; tm_Entity := key; tm_Kind := "missing"; tm_Generation := r_Generation r;
                  tm_Due := MissingAt (tr_State result) |}) ;;
  for_each (appendEvaluated limits r now {| ck_Prior := prior; ck_Input := o; ck_SourceRecovered := false |}) (tr_Events result).

(** ** Lifecycle requests *)

Record LifecycleRequest := {
  lr_ExpectedGeneration : option Z; lr_Action : string; lr_Expected : string; lr_CancelPending : bool }.

(** [mutation]: what a caller does before and after the effect, in the same
    transaction, and the transfer it acts for ([handoffID]). *)
Record mutation := { mu_begin : tx bool; mu_finish : tx unit; mu_owner : option string }.
Definition noMutation : mutation := {| mu_begin := mret false; mu_finish := mret tt; mu_owner := None |}.

(** [checkHandoffHold]; [owner] is the transfer the caller acts for. *)
Definition checkHandoffHold (id : string) (owner : option string) : tx unit :=
  held ← HandoffHold id;
  reject (negb (held ≟ "") && negb (bool_decide (owner = Some held))) "watch is held by transfer".

Definition action_status (action : string) : result string :=
  if action ≟ "pause" then Ok "paused" else if action ≟ "resume" then Ok "running"
  else if action ≟ "delete" then Ok "deleted" else Err "unknown lifecycle action".

Definition transitioned (r : WatchRecord) (status : string) (now : time) : WatchRecord :=
  r <| r_Status := status |> <| r_Generation := r_Generation r + 1 |> <| r_NextAt := now |> <| r_LastError := "" |>.

Definition resume_all (r : WatchRecord) (now : time) : tx unit :=
  states ← GetEntities (r_ID r);
  e ← lift (New parse_template (r_Definition r) (r_Revision r));
  for_each (resume_entity r e now) (range states) ;;
  unless (negb (size states =? 0)%nat) (armInitial r now).

(** The transition to another status. *)
Definition change_status (r : WatchRecord) (status action lifetime : string) (now : time) : tx WatchRecord :=
  let r := transitioned r status now in
  SaveWatch r now lifetime ;;
  DeleteTimers (r_ID r) ;;
  unless (negb (status ≟ "running")) (resume_all r now) ;;
  lifecycleEvent r action action now ;;
  mret r.

(** The body of [lifecycle], once the mutation began; [approved] are the commands
    the host approved, for [authorizeBundle]. *)
Definition lifecycle_core (approved : list string) (ctx : option Principal) (owner : option string) (id : string) (q : LifecycleRequest)
    (closing : bool) (lifetime : string) (now : time) : tx WatchRecord :=
  reject closing ErrClosing ;;
  checkHandoffHold id owner ;;
  r ← GetWatch id;
  authorizeBundle approved ctx {| bu_Watches := [r_Plan r]; bu_Destinations := [] |} ;;
  reject (negb (lr_Expected q ≟ "") && negb (lr_Expected q ≟ r_Revision r)) ErrConflict ;;
  reject (match lr_ExpectedGeneration q with Some g => negb (g =? r_Generation r) | None => false end) ErrConflict ;;
  reject (lr_CancelPending q && negb (lr_Action q ≟ "delete")) "cancelPending requires delete" ;;
  if lr_Action q ≟ "purge" then PurgeWatch id ;; mret r
  else
    status ← lift (action_status (lr_Action q));
    reject ((r_Status r ≟ "deleted") && negb (status ≟ "deleted")) "deleted watches cannot resume; use a new watch ID" ;;
    unless (negb (lr_CancelPending q)) (CancelPending id now) ;;
    if r_Status r ≟ status then mret r else change_status r status (lr_Action q) lifetime now.

(** [lifecycle]; a mutation that was already performed leaves the zero record. *)
Definition lifecycle (approved : list string) (ctx : option Principal) (m : mutation) (id : string) (q : LifecycleRequest)
    (closing : bool) (lifetime : string) (now : time) : tx (option WatchRecord) :=
  Require_ ctx "manage" ;;
  performed ← mu_begin m;
  if performed : bool then mret None
  else r ← lifecycle_core approved ctx (mu_owner m) id q closing lifetime now; mu_finish m ;; mret (Some r).

(** ** Clock discontinuities *)

Definition clockDiscontinuity (previous current : time) (elapsed : duration) : bool :=
  let difference := wrap64 (Sub current previous - elapsed) in
  (2 * Second <? difference) || (difference <? - (2 * Second)).

Definition shift_watch (now : time) (lifetimes : string → string) (r : WatchRecord) : tx unit :=
  if negb (r_Status r ≟ "running") then mret tt
  else
    let r := r <| r_Generation := r_Generation r + 1 |> <| r_NextAt := now |> in
    SaveWatch r now (lifetimes (r_ID r)) ;;
    DeleteTimers (r_ID r) ;;
    states ← GetEntities (r_ID r);
    e ← lift (New parse_template (r_Definition r) (r_Revision r));
    for_each (shift_entity r e now) (range states) ;;
    unless (negb (size states =? 0)%nat) (armInitial r now) ;;
    lifecycleEvent r "clock_discontinuity" "wall clock diverged from monotonic time; temporal evidence rearmed" now.

Definition clockShift (lifetimes : string → string) (now : time) : tx unit :=
  records ← GetWatches;
  for_each (shift_watch now lifetimes) records.

(** ** Timers *)

Definition timer_batch (t : Timer) : Batch :=
  {| bt_ExpectedCursor := None; bt_FreshUntil := zero_time; bt_Entity := tm_Entity t; bt_Deadline := tm_Due t;
     bt_Observations := [health_observation "" "timer" "" zero_time]; bt_Cursor := ""; bt_RetryAt := zero_time |}.
Definition timer_input (t : Timer) : string :=
  "timer:" ++ Itoa (tm_Generation t) ++ ":" ++ Revision (quote (tm_Entity t)) ++ ":" ++ Itoa (UnixNano (tm_Due t)).

(** Timers are delivered one transaction each; a stale one is skipped. *)
Fixpoint run_timers (jitter : duration) (storage : db → Z) (closing : bool) (now : time) (l : list Timer) (d : db) : db * result unit :=
  match l with
  | [] => (d, Ok tt)
  | t :: l =>
      match View (GetWatch (tm_WatchID t)) d with
      | Err e => (d, Err e)
      | Ok r =>
          match acceptPush limits jitter storage r (timer_batch t) (timer_input t) None closing now now d with
          | (d, Ok _) => run_timers jitter storage closing now l d
          | (d, Err e) => if e ≟ ErrStale then run_timers jitter storage closing now l d else (d, Err e)
          end
      end
  end.

Definition RunTimers (jitter : duration) (storage : db → Z) (closing : bool) (now : time) (d : db) : db * result unit :=
  match View (DueTimers now 100) d with
  | Err e => (d, Err e)
  | Ok timers => run_timers jitter storage closing now timers d
  end.
End Lifecycle.
