(* ===== verification/Maintenance.v ===== *)
(** * Maintenance and retention: [internal/store/retention_batch.go],
    [retention_sweep.go], [maintenance_page.go], [internal/watchrun/maintenance.go]

    Old history is removed in short transactions.  Each examines a bounded page
    of rows, checks the references to them inside the transaction, and advances
    a durable cursor; entities are maintained the same way.  A cursor's strings
    are identifiers, digests, digits and random text, which its JSON keeps. *)
From S2P Require Import Prelude GoText GoTime GoJson Watch Numeric Plan Evaluator RecordJson Outbox PushReceipts Records Access Render Acceptance Lifecycle.

(** ** References *)

(** [EXISTS(SELECT 1 FROM entity_pins WHERE kind=? AND value=?)] *)
Definition pinned (kind value : string) (d : db) : bool :=
  existsb (fun kv => existsb (fun kp : string * gset (string * string) => bool_decide ((kind, value) ∈ snd kp)) (map_to_list (snd kv))) (map_to_list (db_pins d)).
Definition cited (n : Z) (d : db) : bool := bool_decide (set_Exists (fun p : string * Z => snd p = n) (db_evidence d)).
Definition queued (event : string) (d : db) : bool := existsb (fun r => r_event r ≟ event) (tb_outbox (db_outbox d)).

(** The conditions of the [DELETE] statements. *)
Definition removable_event (d : db) (id : string) : bool := negb (queued id d) && negb (pinned "event" id d).
Definition removable_observation (d : db) (n : Z) : bool := negb (cited n d) && negb (pinned "input" (Itoa n) d).
Definition log_observation (d : db) (b : observation_row) : bool :=
  match db_revisions d !! (b_watch b, b_revision b) with Some v => s_Type (sp_Source (d_Spec (v_definition v))) ≟ "logs" | None => false end.
Definition removable_watch (d : db) (id : string) : bool :=
  match db_watches d !! id with Some w => w_status w ≟ "deleted" | None => false end &&
  (size (rows id (db_entities d)) =? 0)%nat &&
  negb (existsb (fun kv => b_watch (snd kv) ≟ id) (map_to_list (db_observations d))) &&
  negb (existsb (fun kv => y_watch (snd kv) ≟ id) (map_to_list (db_events d))) &&
  negb (existsb (fun r => r_watch r ≟ id) (tb_outbox (db_outbox d))) &&
  (size (rows id (db_timers d)) =? 0)%nat && (size (rows id (db_receipts d)) =? 0)%nat.
Definition removable_revision (d : db) (k : string * string) : bool :=
  negb (match db_watches d !! fst k with Some w => w_revision w ≟ snd k | None => false end) &&
  negb (existsb (fun kn => n_revision (snd kn) ≟ snd k) (map_to_list (rows (fst k) (db_entities d)))) &&
  negb (existsb (fun kb => (b_watch (snd kb) ≟ fst k) && (b_revision (snd kb) ≟ snd k)) (map_to_list (db_observations d))) &&
  negb (existsb (fun ky => (y_watch (snd ky) ≟ fst k) && (ev_Revision (y_body (snd ky)) ≟ snd k)) (map_to_list (db_events d))).
Definition removable_destination (d : db) (k : string * string) : bool :=
  negb (bool_decide (db_destinations d !! fst k = Some (snd k))) &&
  negb (existsb (fun r => (r_destination r ≟ fst k) && (r_revision r ≟ snd k)) (tb_outbox (db_outbox d))).

(** ** Deleting rows *)

(** Deleting events cascades to their evidence and checkpoints, and raises the
    event floors. *)
Definition delete_events (gone : gmap string event_row) (d : db) : db :=
  d <| db_floor := fold_left (fun m e => expire_cursor (y_watch e) m e) (snd <$> map_to_list gone) (db_floor d) |>
    <| db_events := filter (fun kv : string * event_row => fst kv ∉ dom gone) (db_events d) |>
    <| db_evidence := filter (fun p : string * Z => fst p ∉ dom gone) (db_evidence d) |>
    <| db_replays := filter (fun kv : string * Checkpoint => fst kv ∉ dom gone) (db_replays d) |>
    <| db_outbox := (db_outbox d) <| tb_events := tb_events (db_outbox d) ∖ dom gone |> |>.

Definition delete_observations (gone : Z → observation_row → bool) (d : db) : db :=
  d <| db_observations := filter (fun kv : Z * observation_row => gone (fst kv) (snd kv) = false) (db_observations d) |>.

(** Deleting watches cascades to the last pushes; a transfer of the watch, held
    or finished, still refers to it. *)
Definition delete_watches (gone : gset string) : tx unit :=
  referred ← gets (fun d => existsb (fun kh => bool_decide (hr_watch (snd kh) ∈ gone)) (map_to_list (db_handoffs d)));
  reject referred constraint ;;
  modify (fun d => d <| db_watches := filter (fun kv : string * watch_row => fst kv ∉ gone) (db_watches d) |>
                     <| db_push := (db_push d) <| pt_last := filter (fun kv : string * (string * PushReceipt) => fst kv ∉ gone) (pt_last (db_push d)) |> |>).

Definition delete_revisions (gone : gset (string * string)) (d : db) : db :=
  d <| db_revisions := filter (fun kv : (string * string) * revision_row => fst kv ∉ gone) (db_revisions d) |>.
Definition delete_destinations (gone : gset (string * string)) (d : db) : db :=
  d <| db_outbox := (db_outbox d) <| tb_revisions := filter (fun kv : (string * string) * CompiledDestination => fst kv ∉ gone) (tb_revisions (db_outbox d)) |> |>
    <| db_created := filter (fun kv : (string * string) * Z => fst kv ∉ gone) (db_created d) |>.

(** ** Sweeping a family of rows *)

(** [retentionFamily]: [rf_rows] are the rows the select reads, with the instant
    and key of each, [rf_delete] the delete statement for the keys of a page. *)
Record retentionFamily := {
  rf_name : string; rf_numeric : bool; rf_secondKey : bool; rf_rows : db → list retentionCursor; rf_delete : list retentionCursor → tx unit }.

Definition position (at_ : Z) (key extra : string) : retentionCursor := mkCursor "" at_ key extra false.

(** An empty cursor starts before every sequence. *)
Definition key_number (key : string) : option Z := if key ≟ "" then Some 0 else ParseInt key.
Definition number_of (key : string) : Z := default 0 (key_number key).

(** The row order of the select, [(at, key, extra)]. *)
Definition sweep_compare (f : retentionFamily) (a b : retentionCursor) : comparison :=
  match cu_At a ?= cu_At b with
  | Eq => match (if rf_numeric f then number_of (cu_Key a) ?= number_of (cu_Key b) else str_compare (cu_Key a) (cu_Key b)) with
          | Eq => if rf_secondKey f then str_compare (cu_Extra a) (cu_Extra b) else Eq
          | c => c
          end
  | c => c
  end.
Definition sweep_le (f : retentionFamily) (a b : retentionCursor) : Prop := sweep_compare f a b ≠ Gt.
#[global] Instance sweep_le_dec f : RelDecision (sweep_le f).
Proof. intros a b. unfold sweep_le. destruct (sweep_compare f a b); [left|left|right]; congruence. Defined.

(** The rows of the family past the cursor and before the cutoff, in order. *)
Definition remaining (f : retentionFamily) (cutoff : Z) (cursor : retentionCursor) (d : db) : list retentionCursor :=
  merge_sort (sweep_le f) (filter (fun c => cu_At c < cutoff ∧ sweep_compare f cursor c = Lt) (rf_rows f d)).

Definition cursor_name (f : retentionFamily) : string := "retention_cursor:" ++ rf_name f.
Definition fresh_cursor : retentionCursor := mkCursor "" min_int64 "" "" false.

(** The cursor a pass continues with. *)
Definition resumed (stored : option retentionCursor) (pass : string) : retentionCursor :=
  let c := default fresh_cursor stored in
  let c := if negb (cu_Pass c ≟ pass) && cu_Done c then fresh_cursor else c in
  mkCursor pass (cu_At c) (cu_Key c) (cu_Extra c) (cu_Done c).

Definition scanRetentionFamily (f : retentionFamily) (pass : string) (cutoff : Z) (limit : nat) : tx Z :=
  stored ← gets (fun d => db_cursors d !! cursor_name f);
  if match stored with Some c => (cu_Pass c ≟ pass) && cu_Done c | None => false end then mret 0
  else
    let cursor := resumed stored pass in
    reject (rf_numeric f && negb (bool_decide (is_Some (key_number (cu_Key cursor))))) "invalid numeric retention cursor" ;;
    candidates ← gets (fun d => take limit (remaining f cutoff cursor d));
    cursor ← (match list.last candidates with
              | Some c => rf_delete f candidates ;; mret (mkCursor pass (cu_At c) (cu_Key c) (cu_Extra c) false)
              | None => mret (mkCursor pass (cu_At cursor) (cu_Key cursor) (cu_Extra cursor) true)
              end : tx retentionCursor);
    modify (fun d => d <| db_cursors := <[cursor_name f := cursor]> (db_cursors d) |>) ;;
    mret (Z.of_nat (length candidates)).

Definition key_in (l : list retentionCursor) (key : string) : bool := bool_decide (key ∈ (cu_Key <$> l)).
Definition pair_in (l : list retentionCursor) (k : string * string) : bool := bool_decide (k ∈ ((fun c => (cu_Key c, cu_Extra c)) <$> l)).

Definition events_family : retentionFamily := {|
  rf_name := "events"; rf_numeric := true; rf_secondKey := false;
  rf_rows d := (fun kv => position (timestamp (ev_At (y_body (snd kv)))) (Itoa (y_sequence (snd kv))) "") <$> map_to_list (db_events d);
  rf_delete l := modify (fun d => delete_events
    (filter (fun kv : string * event_row => key_in l (Itoa (y_sequence (snd kv))) && removable_event d (fst kv) = true) (db_events d)) d) |}.

Definition observations_family : retentionFamily := {|
  rf_name := "observations"; rf_numeric := true; rf_secondKey := false;
  rf_rows d := (fun kv => position (b_accepted (snd kv)) (Itoa (fst kv)) "") <$> map_to_list (db_observations d);
  rf_delete l := modify (fun d => delete_observations (fun n _ => key_in l (Itoa n) && removable_observation d n) d) |}.

Definition deleted_watches (d : db) : list (string * watch_row) := filter (fun kv => w_status (snd kv) = "deleted") (map_to_list (db_watches d)).
Definition watches_family : retentionFamily := {|
  rf_name := "watches"; rf_numeric := false; rf_secondKey := false;
  rf_rows d := (fun kv => position (w_next (snd kv)) (fst kv) "") <$> deleted_watches d;
  rf_delete l := gone ← gets (fun d => list_to_set (filter (fun id => removable_watch d id = true) (cu_Key <$> l)) : gset string); delete_watches gone |}.

Definition watch_revisions_family : retentionFamily := {|
  rf_name := "watch_revisions"; rf_numeric := false; rf_secondKey := true;
  rf_rows d := (fun kv => position (v_created (snd kv)) (fst (fst kv)) (snd (fst kv))) <$> map_to_list (db_revisions d);
  rf_delete l := modify (fun d => delete_revisions (list_to_set (filter (fun k => removable_revision d k = true) ((fun c => (cu_Key c, cu_Extra c)) <$> l))) d) |}.

Definition destination_revisions_family : retentionFamily := {|
  rf_name := "destination_revisions"; rf_numeric := false; rf_secondKey := true;
  rf_rows d := (fun kv => position (snd kv) (fst (fst kv)) (snd (fst kv))) <$> map_to_list (db_created d);
  rf_delete l := modify (fun d => delete_destinations (list_to_set (filter (fun k => removable_destination d k = true) ((fun c => (cu_Key c, cu_Extra c)) <$> l))) d) |}.

Definition retentionFamilies : list retentionFamily :=
  [events_family; observations_family; watches_family; watch_revisions_family; destination_revisions_family].

(** Log summaries of one watch have a retention of their own. *)
Definition logs_family (id : string) : retentionFamily := {|
  rf_name := "logs:" ++ id; rf_numeric := true; rf_secondKey := false;
  rf_rows d := (fun kv => position (b_accepted (snd kv)) (Itoa (fst kv)) "") <$> filter (fun kv => b_watch (snd kv) = id) (map_to_list (db_observations d));
  rf_delete l := modify (fun d => delete_observations (fun n b => key_in l (Itoa n) && log_observation d b && removable_observation d n) d) |}.

(** ** Direct deletions *)

(** The rows of [l] that come first in the order, up to [limit]. *)
Definition first_rows {A : Type} (le : A → A → Prop) `{!RelDecision le} (limit : nat) (l : list A) : list A := take limit (merge_sort le l).

Definition receipt_entries (d : db) : list (string * (Z * string) * receipt_row) :=
  (kv ← map_to_list (db_receipts d); (fun kr => (fst kv, fst kr, snd kr)) <$> map_to_list (snd kv)).
Definition receipt_first (a b : string * (Z * string) * receipt_row) : Prop := i_expires (snd a) <= i_expires (snd b).
#[global] Instance receipt_first_dec : RelDecision receipt_first.
Proof. intros a b. unfold receipt_first. apply _. Defined.
Definition RetainReceipts (now : Z) (limit : nat) : tx Z :=
  l ← gets (fun d => first_rows receipt_first limit (filter (fun e => i_expires (snd e) <= now) (receipt_entries d)));
  modify (fun d => d <| db_receipts := fold_left (fun m e => drop_row (fst (fst e)) (snd (fst e)) m) l (db_receipts d) |>) ;;
  mret (Z.of_nat (length l)).

Definition RetainPushes (now : time) (limit : nat) : tx Z :=
  l ← gets (fun d => expired_push now limit (db_push d));
  on_push (fun t => (fun t => (t, Z.of_nat (length l))) <$> RetainPush now limit t).

Definition RetainBackoff (now : Z) (limit : nat) : tx Z :=
  l ← gets (fun d => take limit (sort_strings (fst <$> filter (fun kv => snd kv <= now) (map_to_list (tb_backoff (db_outbox d))))));
  modify (fun d => d <| db_outbox := (db_outbox d) <| tb_backoff := filter (fun kv : string * Z => fst kv ∉ l) (tb_backoff (db_outbox d)) |> |>) ;;
  mret (Z.of_nat (length l)).

Definition created_first (a b : row) : Prop := r_created a < r_created b ∨ r_created a = r_created b ∧ r_id a <= r_id b.
#[global] Instance created_first_dec : RelDecision created_first.
Proof. intros a b. unfold created_first. apply _. Defined.
(** Deleting an intent deletes its attempts. *)
Definition delete_intents (ids : list Z) (t : tables) : tables :=
  t <| tb_outbox := filter (fun r => r_id r ∉ ids) (tb_outbox t) |> <| tb_attempts := filter (fun a => at_outbox a ∉ ids) (tb_attempts t) |>.
Definition RetainOutbox (cutoff : Z) (limit : nat) : tx Z :=
  l ← gets (fun d => r_id <$> first_rows created_first limit (filter (fun r => r_created r < cutoff ∧ is_live r = false) (tb_outbox (db_outbox d))));
  modify (fun d => d <| db_outbox := delete_intents l (db_outbox d) |>) ;;
  mret (Z.of_nat (length l)).

(** [qRetainBatchStreams]; the select has no order, the table's is taken. *)
Definition orphan_stream (t : tables) (s : stream) : bool := negb (existsb (of_stream (st_watch s) (st_destination s)) (tb_outbox t)).
Definition RetainStreams (limit : nat) : tx Z :=
  l ← gets (fun d => (fun s => (st_watch s, st_destination s)) <$> take limit (filter (fun s => orphan_stream (db_outbox d) s = true) (tb_streams (db_outbox d))));
  modify (fun d => d <| db_outbox := (db_outbox d) <| tb_streams := filter (fun s => (st_watch s, st_destination s) ∉ l) (tb_streams (db_outbox d)) |> |>) ;;
  mret (Z.of_nat (length l)).

(** Progress over several statements. *)
Fixpoint total_progress {A : Type} (f : A → tx Z) (l : list A) : tx Z :=
  match l with [] => mret 0 | a :: l => n ← f a; m ← total_progress f l; mret (n + m) end.

Definition invalid_batch (limit : Z) (pass : string) : bool := (limit <? 1) || (256 <? limit) || (pass ≟ "") || (128 <? len pass).

Definition RetainBatch (cutoff now : time) (limit : Z) (pass : string) : tx Z :=
  reject (invalid_batch limit pass) "invalid retention batch limit" ;;
  let n := Z.to_nat limit in
  receipts ← RetainReceipts (timestamp now) n;
  pushes ← RetainPushes now n;
  backoffs ← RetainBackoff (timestamp now) n;
  intents ← RetainOutbox (timestamp cutoff) n;
  swept ← total_progress (fun f => scanRetentionFamily f pass (timestamp cutoff) n) retentionFamilies;
  streams ← RetainStreams n;
  mret (receipts + pushes + backoffs + intents + swept + streams).

Definition RetainLogSummariesBatch (id : string) (cutoff : time) (limit : Z) (pass : string) : tx Z :=
  reject ((id ≟ "") || invalid_batch limit pass) "invalid log retention batch" ;;
  scanRetentionFamily (logs_family id) pass (timestamp cutoff) (Z.to_nat limit).

(** ** Maintaining entities *)

Definition entity_keys (d : db) : list (string * string) :=
  (kv ← map_to_list (db_entities d); (fun key => (fst kv, key)) <$> (fst <$> map_to_list (snd kv))).
Definition pair_compare (a b : string * string) : comparison :=
  match str_compare (fst a) (fst b) with Eq => str_compare (snd a) (snd b) | c => c end.
Definition pair_le (a b : string * string) : Prop := pair_compare a b ≠ Gt.
#[global] Instance pair_le_dec : RelDecision pair_le.
Proof. intros a b. unfold pair_le. destruct (pair_compare a b); [left|left|right]; congruence. Defined.

(** The page after the cursor, and whether it is empty; the cursor moves to its
    last row, or back to the start. *)
Definition upcoming (cursor : string * string) (d : db) : list (string * string) :=
  merge_sort pair_le (filter (fun k => pair_compare cursor k = Lt) (entity_keys d)).
Definition NextMaintenanceEntities (limit : Z) : tx (list (string * string * State) * bool) :=
  reject ((limit <? 1) || (256 <? limit)) "invalid entity maintenance page limit" ;;
  cursor ← gets db_maintenance;
  page ← gets (fun d => take (Z.to_nat limit) (upcoming cursor d));
  out ← gets (fun d => omap (fun k => (fun s => (k, s)) <$> entities_of (fst k) d !! snd k) page);
  modify (fun d => d <| db_maintenance := default ("", "") (list.last page) |>) ;;
  mret (out, (length page =? 0)%nat).

Record maintenancePolicy := { mp_record : WatchRecord; mp_idle : duration; mp_interval : duration; mp_window : duration }.

Definition widest (l : list WindowLeaf) : duration := fold_left (fun m w => if m <? w_Window w then w_Window w else m) l 0.
Definition newMaintenancePolicy (r : WatchRecord) : result maintenancePolicy :=
  let numeric := c_Numeric (sp_Condition (r_Spec r)) in
  window ← (if negb (numeric ≟ "") then widest ∘ Windows <$> ParseExpression numeric else Ok 0);
  Ok {| mp_record := r; mp_idle := duration_or_zero (l_IdleTTL (sp_Limits (r_Spec r)));
        mp_interval := duration_or_zero (p_Interval (sp_Policy (r_Spec r))); mp_window := window |}.

Definition expired_json (id key : string) (sequence generation : Z) : string :=
  object_text [member "Watch" (quote id); member "Entity" (quote key); member "Sequence" (Itoa sequence); member "Generation" (Itoa generation)].

(** Nothing about the entity is still needed. *)
Definition idle_state (p : maintenancePolicy) (s : State) (timer : bool) (now : time) : bool :=
  (len (Baseline s) =? 0) && (size (Seen s) =? 0)%nat && negb (Open s) && negb (SourceUnhealthy s) && negb timer &&
  negb (IsZero (LastAt s)) && negb (Before now (Add (LastAt s) (mp_idle p))) && negb (Before now (Add (LastFired s) (mp_interval p))) &&
  negb (Before now (Add (LastAt s) (mp_window p))).

Definition maintainEntity (p : maintenancePolicy) (key : string) (s : State) (now : time) : tx unit :=
  let r := mp_record p in
  let id := r_ID r in
  let s := s <| Seen := filter (fun kv : string * time => Before now (snd kv) = true) (Seen s) |> in
  timer ← gets (fun d => bool_decide (is_Some (rows id (db_timers d) !! (key, "missing"))));
  if (r_Status r ≟ "deleted") || idle_state p s timer now then
    DeleteEntity id key ;;
    AppendEvent {| ev_ID := Revision (expired_json id key (LastSequence s) (r_Generation r)); ev_Sequence := 0; ev_WatchID := id;
                   ev_Revision := r_Revision r; ev_Entity := key; ev_Type := "entity_expired"; ev_At := now;
                   ev_Message := "idle state expired"; ev_Fields := ∅; ev_Evidence := [] |} ;;
    mret tt
  else
    let s := s <| Samples := filter (fun x => After (sm_At x) (Add now (- mp_window p)) = true) (Samples s) |> in
    let s := if negb (IsZero (OverflowUntil s)) && negb (Before now (OverflowUntil s)) then s <| OverflowUntil := zero_time |> else s in
    SaveEntity id key (r_Revision r) s (LastAt s).

(** The policy is computed once per watch of the page; the watch does not change
    within the transaction. *)
Definition maintain_one (now : time) (e : string * string * State) : tx unit :=
  r ← GetWatch (fst (fst e));
  p ← lift (newMaintenancePolicy r);
  maintainEntity p (snd (fst e)) (snd e) now.
Definition maintain_page (now : time) : tx bool :=
  '(page, done) ← NextMaintenanceEntities 64;
  for_each (maintain_one now) page ;;
  mret done.

(** ** A maintenance pass *)

(** Transactions until one reports that nothing is left; [None] when [fuel] is
    spent.  An error ends the pass. *)
Fixpoint until_done (fuel : nat) (t : tx bool) (d : db) : option (db * result unit) :=
  match fuel with
  | O => None
  | S fuel =>
      match Update t d with
      | (d, Err e) => Some (d, Err e)
      | (d, Ok true) => Some (d, Ok tt)
      | (d, Ok false) => until_done fuel t d
      end
  end.

Definition no_progress (t : tx Z) : tx bool := n ← t; mret (n =? 0).
Definition log_retention (r : WatchRecord) : option duration :=
  l ← s_Logs (sp_Source (r_Spec r));
  let retention := duration_or_zero (ls_Retention l) in Some (if retention =? 0 then Hour else retention).

Fixpoint retain_all_logs (fuel : nat) (pass : string) (now : time) (l : list WatchRecord) (d : db) : option (db * result unit) :=
  match l with
  | [] => Some (d, Ok tt)
  | r :: l =>
      match log_retention r with
      | None => retain_all_logs fuel pass now l d
      | Some retention =>
          match until_done fuel (no_progress (RetainLogSummariesBatch (r_ID r) (Add now (- retention)) 64 pass)) d with
          | Some (d, Ok _) => retain_all_logs fuel pass now l d
          | stopped => stopped
          end
      end
  end.

(** [pass] is the random identity of the pass. *)
Definition maintain (fuel : nat) (limits : Budgets) (pass : string) (now : time) (d : db) : option (db * result unit) :=
  match until_done fuel (maintain_page now) d with
  | Some (d, Ok _) =>
      match until_done fuel (no_progress (RetainBatch (Add now (- g_Retention limits)) now 64 pass)) d with
      | Some (d, Ok _) =>
          match View GetWatches d with
          | Ok records => retain_all_logs fuel pass now records d
          | Err e => Some (d, Err e)
          end
      | stopped => stopped
      end
  | stopped => stopped
  end.
