(* ===== verification/OutboxLinks.v ===== *)
(** * The outbox beside the other tables

    An outbox is linked to the events table when it is well formed, every intent
    announces a stored event and is the only one of that event for its
    destination, and every attempt record belongs to an intent.  Its operations
    keep the link; so do the writes of events and destinations, purging and
    retention. *)
From S2P Require Import Prelude GoText GoJson Watch Plan Outbox OutboxFacts PushReceipts Records Render Acceptance Lifecycle Maintenance.

Definition announces (r : row) : string * string := (r_event r, r_destination r).

Record linked (events : gset string) (t : tables) : Prop := {
  lk_wf : wf_tables t; lk_events : tb_events t = events; lk_rows : Forall (fun r => r_event r ∈ events) (tb_outbox t);
  lk_attempts : Forall (fun a => at_outbox a ∈ r_id <$> tb_outbox t) (tb_attempts t); lk_unique : NoDup (announces <$> tb_outbox t) }.

Lemma linked_empty : linked ∅ (mkTables [] 1 [] ∅ [] ∅ ∅).
Proof. split; [split|done|constructor..]; cbn; try constructor; intros x Hx; by apply not_elem_of_nil in Hx. Qed.

(** ** Its own operations *)

Lemma updated_announces f (r : row) l :
  same_identity f → (∀ x, r_event (f x) = r_event x) → announces <$> updated f r l = announces <$> l.
Proof.
  intros Hf He. unfold updated. rewrite <- list_fmap_compose. apply list_fmap_ext. intros i x _. cbn. destruct (_ =? _); [|done].
  unfold announces. rewrite He. by destruct (Hf x) as (_ & [= _ ->] & _).
Qed.

Lemma update_row_linked events f r t :
  same_identity f → (∀ x, r_event (f x) = r_event x) → r ∈ tb_outbox t → linked events t → linked events (update_row f r t).
Proof.
  intros Hf He Hr [W E R A U]. destruct (update_row_tables f r t) as (Eo & _ & _ & Ea & Ee & _). split; [by apply update_row_wf|by rewrite Ee|..]; rewrite Eo.
  - apply Forall_map. eapply list.Forall_impl; [exact R|]. intros x Hx. cbn. destruct (_ =? _); [by rewrite He|done].
  - by rewrite Ea, updated_ids.
  - by rewrite updated_announces.
Qed.
Lemma linked_same events t t' :
  tb_outbox t' = tb_outbox t → tb_next t' = tb_next t → tb_streams t' = tb_streams t → tb_revisions t' = tb_revisions t → tb_events t' = tb_events t →
  (∀ a, a ∈ tb_attempts t' → a ∈ tb_attempts t ∨ at_outbox a ∈ r_id <$> tb_outbox t) → linked events t → linked events t'.
Proof.
  intros E1 E2 E3 E4 E5 Ha [W E R A U]. split; [by eapply wf_tables_same|congruence|by rewrite E1| |by rewrite E1].
  rewrite E1. apply list.Forall_forall. intros a [Hin|Hin]%Ha; [|done]. rewrite list.Forall_forall in A. by apply A.
Qed.

Lemma noted f x t a b :
  same_identity f → x ∈ tb_outbox t → at_outbox b = r_id x → a ∈ (tb_attempts (update_row f x t) ++ [b])%list →
  a ∈ tb_attempts (update_row f x t) ∨ at_outbox a ∈ r_id <$> tb_outbox (update_row f x t).
Proof.
  intros Hf Hx Hb [Ha|Ha%list_elem_of_singleton]%elem_of_app; [by left|right]. subst a. rewrite Hb.
  destruct (update_row_tables f x t) as (-> & _). rewrite updated_ids by done. by apply list_elem_of_fmap_2.
Qed.

Lemma update_rows_linked events f ds t :
  same_identity f → (∀ x, r_event (f x) = r_event x) → NoDup (r_id <$> ds) → (∀ r, r ∈ ds → r ∈ tb_outbox t) → linked events t →
  linked events (fold_left (fun t r => update_row f r t) ds t).
Proof.
  intros Hf He. revert t. induction ds as [|r ds IH]; intros t Hn Hin Hl; [done|]. cbn. apply list.NoDup_cons in Hn as [Hr Hn].
  assert (Hrt : r ∈ tb_outbox t) by (apply Hin; left). apply IH; [done| |by apply update_row_linked].
  intros x Hx. destruct (update_row_tables f r t) as (-> & _). apply updated_elem; [apply Hl|done|]. right. split; [apply Hin; by right|].
  intros Heq. apply Hr. rewrite <- Heq. by apply list_elem_of_fmap_2.
Qed.

Lemma Enqueue_linked events i t t' id : linked events t → Enqueue i t = Ok (t', id) → linked events t'.
Proof.
  intros [W E R A U] H. split; [by eapply Enqueue_wf|..]; unfold Enqueue in H; apply fail_if_bind in H as [Hu H]; apply fail_if_bind in H as [Hfk H]; injection H as <- _; cbn; [done|..].
  - apply Forall_app. split; [done|]. apply Forall_singleton. cbn. apply orb_false_iff in Hfk as [Hfk _]. apply negb_false_iff, bool_decide_eq_true_1 in Hfk. by rewrite <- E.
  - eapply list.Forall_impl; [exact A|]. intros a. cbn. rewrite fmap_app. intros Ha. apply elem_of_app. by left.
  - rewrite fmap_app. apply list.NoDup_app. split_and!; [done| |apply NoDup_singleton]. intros x (r & -> & Hr)%list_elem_of_fmap Hx%list_elem_of_singleton.
    injection Hx as E1 E2. apply Bool.not_true_iff_false in Hu. apply Hu, existsb_exists. exists r. split; [by apply list_elem_of_In|].
    by rewrite E1, E2, !bool_decide_eq_true_2.
Qed.

Lemma step_linked events t o : linked events t → linked events (step t o).
Proof.
  intros Hl. destruct o as [i|now lease token|i r next now|id now|w now]; cbn [step].
  - destruct (Enqueue i t) as [[t' id]|] eqn:E; [by eapply Enqueue_linked|done].
  - destruct (Claim _ _ _ t) as [[t' i]|] eqn:E; [|done]. pose proof (Claim_wf _ _ _ _ _ _ (lk_wf _ _ Hl) E) as Hw. unfold Claim in E. apply fail_if_bind in E as [_ E].
    destruct (claim_row _ t) as [[s o]|] eqn:Ec; [|by injection E as <- _]. apply bind_Ok in E as (j & _ & E). injection E as <- _.
    apply claim_row_elem in Ec as (_ & _ & Ho & _). apply oldest_elem in Ho as [Ho _].
    destruct (update_row_linked events (lease_row token (timestamp (Add now lease))) o t (lease_identity _ _) ltac:(done) Ho Hl) as [_ E1 E2 E3 E4]. by split.
  - destruct (Finish _ _ _ _ t) as [t'|] eqn:E; [|done]. unfold Finish in E. cbv zeta in E. apply fail_if_bind in E as [_ E].
    destruct (find _ (tb_outbox t)) as [x|] eqn:Ex; [|done]. apply find_elem in Ex as [Hx [[Hi%Z.eqb_eq _]%andb_true_iff _]%andb_true_iff]. injection E as <-.
    eapply linked_same; [..|apply (update_row_linked events (finish_row (if re_Outcome r ≟ Retryable then "pending" else re_Outcome r) (timestamp next) (re_Detail r)) x t (finish_identity _ _ _) ltac:(done) Hx Hl)];
      try (by destruct (After _ now)). intros a Ha.
    apply (noted _ _ _ _ {| at_outbox := it_ID i; at_attempt := it_Attempts i; at_time := timestamp now; at_outcome := re_Outcome r; at_detail := re_Detail r |} (finish_identity _ _ _) Hx (eq_sym Hi)). by destruct (After _ now).
  - destruct (Retry _ _ t) as [t'|] eqn:E; [|done]. unfold Retry in E. apply bind_Ok in E as (i & _ & E). apply fail_if_bind in E as [_ E].
    destruct (row_of id t) as [x|] eqn:Ex; [|done]. apply find_elem in Ex as [Hx Hi%Z.eqb_eq]. injection E as <-.
    eapply linked_same; [..|apply (update_row_linked events (retry_row (timestamp now)) x t (retry_identity _) ltac:(done) Hx Hl)]; try done.
    intros a. apply noted; [apply retry_identity|done|done].
  - unfold CancelDeliveries. cbv zeta. apply update_rows_linked; [auto with ding|done| | |apply (linked_same _ t); try done].
    + apply NoDup_filter_fmap, sorted_lt_NoDup, Hl.
    + by intros r [Hr _]%elem_of_filter_bool.
    + intros a [Ha|(r & -> & [Hr _]%elem_of_filter_bool)%elem_of_map]%elem_of_app; [by left|right]. by apply (list_elem_of_fmap_2 r_id).
Qed.

(** ** Removing rows *)

Lemma sorted_filter {A : Type} (f : A → Z) (P : A → Prop) `{!∀ x, Decision (P x)} (l : list A) : StronglySorted Z.lt (f <$> l) → StronglySorted Z.lt (f <$> filter P l).
Proof.
  induction l as [|a l IH]; [done|]. rewrite fmap_cons, filter_cons. intros [Hs Ha]%StronglySorted_inv. destruct (decide (P a)); [|auto].
  rewrite fmap_cons. constructor; [auto|]. apply Forall_fmap, list.Forall_forall. intros b [_ Hb]%list_elem_of_filter.
  rewrite Forall_fmap, list.Forall_forall in Ha. by apply Ha.
Qed.
Lemma NoDup_keys_filter {A B : Type} (f : A → B) (P : A → Prop) `{!∀ x, Decision (P x)} (l : list A) : NoDup (f <$> l) → NoDup (f <$> filter P l).
Proof.
  induction l as [|a l IH]; [done|]. rewrite fmap_cons, list.NoDup_cons, filter_cons. intros [Ha Hl]. destruct (decide (P a)); [|auto].
  rewrite fmap_cons, list.NoDup_cons. split; [|auto]. intros (b & E & [_ Hb]%list_elem_of_filter)%list_elem_of_fmap. apply Ha. rewrite E. by apply list_elem_of_fmap_2.
Qed.

(** Rows and streams may go when a stream that stays keeps its live intents, and
    a live intent that stays keeps its stream. *)
Lemma filter_wf (P : row → Prop) (Q : stream → Prop) `{!∀ r, Decision (P r), !∀ s, Decision (Q s)} t t' :
  tb_outbox t' = filter P (tb_outbox t) → tb_streams t' = filter Q (tb_streams t) → tb_next t' = tb_next t → tb_revisions t' = tb_revisions t →
  (∀ r s, r ∈ tb_outbox t → s ∈ tb_streams t → is_live r = true → row_key r = stream_key s → (P r ↔ Q s)) → wf_tables t → wf_tables t'.
Proof.
  intros E1 E2 E3 E4 HPQ [W1 W2 W3 W4 W5 W6]. split; rewrite ?E1, ?E2, ?E3, ?E4.
  - by apply sorted_filter.
  - apply list.Forall_forall. intros r [_ Hr]%list_elem_of_filter. rewrite list.Forall_forall in W2. by apply W2.
  - by apply NoDup_keys_filter.
  - intros s [HQ Hs]%list_elem_of_filter. rewrite (W4 _ Hs). destruct (existsb _ (tb_outbox t)) eqn:E.
    + symmetry. apply existsb_exists in E as (r & Hr%list_elem_of_In & Hl). apply existsb_exists. exists r. split; [|done]. apply list_elem_of_In, list_elem_of_filter. split; [|done].
      rewrite live_in_key in Hl. apply andb_true_iff in Hl as [Hk%bool_decide_eq_true_1 Hl]. by eapply HPQ.
    + symmetry. apply Bool.not_true_iff_false. intros (r & Hr%list_elem_of_In & Hl)%existsb_exists. apply list_elem_of_filter in Hr as [_ Hr].
      apply Bool.not_true_iff_false in E. apply E, existsb_exists. exists r. split; [by apply list_elem_of_In|done].
  - intros r [HP Hr]%list_elem_of_filter Hl. pose proof (W5 _ Hr Hl) as (s & Hk & Hs)%list_elem_of_fmap. rewrite Hk.
    apply list_elem_of_fmap_2, list_elem_of_filter. split; [|done]. by eapply HPQ.
  - intros r [_ Hr]%list_elem_of_filter. by apply W6.
Qed.

Lemma filter_all {A : Type} (P : A → Prop) `{!∀ x, Decision (P x)} (l : list A) : (∀ x, P x) → filter P l = l.
Proof. intros HP. induction l as [|a l IH]; [done|]. rewrite filter_cons, decide_True by done. by rewrite IH. Qed.

(** Intents that are settled. *)
Lemma delete_intents_linked events l t :
  (∀ r, r ∈ tb_outbox t → is_live r = true → r_id r ∉ l) → linked events t → linked events (delete_intents l t).
Proof.
  intros Hl [W E R A U]. split; [|done|..].
  - eapply (filter_wf (fun r => r_id r ∉ l) (fun _ => True)); [done|cbn; by rewrite filter_all|done|done| |exact W]. intros r s Hr _ Hlive _. split; [done|]. intros _. by apply Hl.
  - cbn. apply list.Forall_forall. intros r [_ Hr]%list_elem_of_filter. rewrite list.Forall_forall in R. by apply R.
  - cbn. apply list.Forall_forall. intros a [Hn Ha]%list_elem_of_filter. rewrite list.Forall_forall in A. specialize (A _ Ha). cbn in A.
    apply list_elem_of_fmap in A as (r & Er & Hr). rewrite Er in *. apply list_elem_of_fmap_2, list_elem_of_filter. done.
  - by apply NoDup_keys_filter.
Qed.
(** Streams without intents. *)
Lemma orphans_linked events (l : list (string * string)) t :
  (∀ r, r ∈ tb_outbox t → row_key r ∉ l) → linked events t →
  linked events (t <| tb_streams := filter (fun s => (st_watch s, st_destination s) ∉ l) (tb_streams t) |>).
Proof.
  intros Hl [W E R A U]. split; [|done..].
  eapply (filter_wf (fun _ => True) (fun s => (st_watch s, st_destination s) ∉ l)); [cbn; by rewrite filter_all|done|done|done| |exact W].
  intros r s Hr _ _ Hk. split; [|done]. intros _. change (stream_key s ∉ l). rewrite <- Hk. by apply Hl.
Qed.
(** Everything of a watch. *)
Lemma purge_linked events gone id t :
  (∀ r, r ∈ tb_outbox t → r_watch r ≠ id → r_event r ∉ gone) → linked events t → linked (events ∖ gone) (purge_outbox id gone t).
Proof.
  intros Hg [W E R A U]. split; [|cbn; by rewrite E|..].
  - eapply (filter_wf (fun r => r_watch r ≠ id) (fun s => st_watch s ≠ id)); [done..| |exact W]. intros r s _ _ _ [= -> _]. done.
  - cbn. apply list.Forall_forall. intros r [Hw Hr]%list_elem_of_filter. rewrite list.Forall_forall in R. apply elem_of_difference. split; [by apply R|by apply Hg].
  - cbn. apply list.Forall_forall. intros a [Hn Ha]%list_elem_of_filter. rewrite list.Forall_forall in A. specialize (A _ Ha). cbn in A.
    apply list_elem_of_fmap in A as (r & Er & Hr). rewrite Er in *. apply list_elem_of_fmap_2, list_elem_of_filter. split; [|done].
    intros Hw. apply Hn, elem_of_list_to_set, list_elem_of_fmap_2, list_elem_of_filter. done.
  - by apply NoDup_keys_filter.
Qed.
(** Events that no intent announces, and events that are new. *)
Lemma fewer_events_linked events gone t :
  (∀ r, r ∈ tb_outbox t → r_event r ∉ gone) → linked events t → linked (events ∖ gone) (t <| tb_events := tb_events t ∖ gone |>).
Proof.
  intros Hg [W E R A U]. split; [by eapply wf_tables_same|cbn; by rewrite E| |done..]. cbn. apply list.Forall_forall. intros r Hr. rewrite list.Forall_forall in R.
  apply elem_of_difference. split; [by apply R|by apply Hg].
Qed.
Lemma new_event_linked events id t : linked events t → linked ({[id]} ∪ events) (t <| tb_events := {[id]} ∪ tb_events t |>).
Proof.
  intros [W E R A U]. split; [by eapply wf_tables_same|cbn; by rewrite E| |done..]. cbn. eapply list.Forall_impl; [exact R|]. intros r. cbn. set_solver.
Qed.
(** Destination revisions: new ones, and those no intent names. *)
Lemma revisions_linked events m t :
  (∀ r, r ∈ tb_outbox t → is_Some (tb_revisions t !! (r_destination r, r_revision r)) → is_Some (m !! (r_destination r, r_revision r))) →
  linked events t → linked events (t <| tb_revisions := m |>).
Proof.
  intros Hm [[W1 W2 W3 W4 W5 W6] E R A U]. split; [|done..]. split; try done. intros r Hr. apply Hm; [done|by apply W6].
Qed.
