(* ===== verification/Apply.v ===== *)
(** * Applying a bundle: [internal/watchrun/app.go], [review.go]

    [apply] installs the watches and destinations of a manifest in one
    transaction, or previews it.  The YAML decoding of [plan.Parse] is an
    argument; the YAML texts and the presence of credentials in the result are
    for display and are left out. *)
From S2P Require Import Prelude GoText GoTime Sha256 Watch Plan Evaluator Outbox Records Access Acceptance Lifecycle.

(** ** Requests and results *)

Record WatchPrecondition := { wp_Revision : string; wp_Generation : Z; wp_Status : string }.
(** A map missing from a request is not the empty map. *)
Record ApplyPreconditions := {
  ap_Instance : string; ap_ManifestHash : string; ap_Watches : option (gmap string WatchPrecondition);
  ap_Destinations : option (gmap string string) }.

#[global] Instance WatchPrecondition_eq_dec : EqDecision WatchPrecondition.
Proof. solve_decision. Defined.
#[global] Instance ApplyPreconditions_eq_dec : EqDecision ApplyPreconditions.
Proof. solve_decision. Defined.

Record Change := {
  ch_Kind : string; ch_ID : string; ch_Revision : string; ch_Previous : string; ch_State : string; ch_Permissions : list string }.
Record ApplyRequest := {
  aq_startPaused : bool; aq_resetPaused : bool; aq_Review : option ApplyPreconditions; aq_Manifest : string; aq_DryRun : bool;
  aq_Expected : gmap string string }.
Record ApplyResult := { ar_DestinationChanges : list Change; ar_Review : ApplyPreconditions; ar_Changes : list Change }.

(** ** Reviews *)

Definition watch_id (c : Compiled) : string := md_ID (d_Metadata (cp_Definition c)).
Definition destination_id (c : CompiledDestination) : string := md_ID (dst_Metadata (cd_Definition c)).
Definition watch_targets (c : Compiled) : list Target := sp_Destinations (d_Spec (cp_Definition c)).

Definition precondition (r : option WatchRecord) : WatchPrecondition :=
  match r with
  | Some r => {| wp_Revision := r_Revision r; wp_Generation := r_Generation r; wp_Status := r_Status r |}
  | None => {| wp_Revision := ""; wp_Generation := 0; wp_Status := "" |}
  end.

Definition current_destination (id : string) (d : db) : option CompiledDestination :=
  rev ← db_destinations d !! id; tb_revisions (db_outbox d) !! (id, rev).
Definition destination_revision (id : string) (d : db) : string := default "" (cd_Revision <$> current_destination id d).

Definition captureReview (instance manifest : string) (b : Bundle) : tx ApplyPreconditions :=
  gets (fun d =>
    let ids := ((t_Ref <$> mbind watch_targets (bu_Watches b)) ++ (destination_id <$> bu_Destinations b))%list in
    {| ap_Instance := instance; ap_ManifestHash := sha256_hex manifest;
       ap_Watches := Some (list_to_map ((fun c => (watch_id c, precondition (watch_in (watch_id c) d))) <$> bu_Watches b));
       ap_Destinations := Some (list_to_map ((fun id => (id, destination_revision id d)) <$> ids)) |}).

(** ** Destinations of the bundle *)

Definition apply_destination (dry : bool) (now : time) (c : CompiledDestination) : tx Change :=
  old ← gets (current_destination (destination_id c));
  let previous := default "" (cd_Revision <$> old) in
  let state := if previous ≟ "" then "created" else if previous ≟ cd_Revision c then "preserved" else "updated" in
  unless dry (SaveDestination c now) ;;
  mret {| ch_Kind := "Destination"; ch_ID := destination_id c; ch_Revision := cd_Revision c; ch_Previous := previous; ch_State := state;
          ch_Permissions := [] |}.

Fixpoint apply_destinations (dry : bool) (now : time) (l : list CompiledDestination) : tx (list Change) :=
  match l with
  | [] => mret []
  | c :: l => change ← apply_destination dry now c; rest ← apply_destinations dry now l; mret (change :: rest)
  end.

(** ** Watches of the bundle *)

Definition fresh_record (p : Compiled) (status : string) (now : time) : WatchRecord :=
  mkRecord "" p 1 status now "" zero_time "".

(** Forgets the position in the source, to start over. *)
Definition restarted (r : WatchRecord) (now : time) : WatchRecord :=
  r <| r_Cursor := "" |> <| r_LastInputAt := zero_time |> <| r_LastError := "" |> <| r_NextAt := now |>.

(** A new revision of an installed watch: the state is kept unless what is
    evaluated changed. *)
Definition revised (old : WatchRecord) (p : Compiled) (now : time) : WatchRecord * bool * string :=
  let r := old <| r_Plan := p |> in
  if r_Revision old ≟ cp_Revision p then (r, false, "preserved")
  else
    let r := r <| r_Generation := r_Generation old + 1 |> in
    if cp_Fingerprint (r_Plan old) ≟ cp_Fingerprint p then (r, false, "preserved") else (restarted r now, true, "reset").

Section Apply.
Context `{L : Libraries} (limits : Budgets) (storage : db → Z).
(** Identity of the installation, approved commands, tokens drawn for rows. *)
Context (instance : string) (approved : list string) (lifetimes : string → string).

Definition check_target (available : list string) (t : Target) : tx unit :=
  unless (bool_decide (t_Ref t ∈ available))
    (found ← gets (current_destination (t_Ref t));
     reject (negb (bool_decide (is_Some found))) ("destination " ++ t_Ref t ++ " does not exist")).

(** Writing the record the request leads to. *)
Definition install (record : WatchRecord) (existing reset : bool) (state : string) (now : time) : tx unit :=
  SaveWatch record now (lifetimes (r_ID record)) ;;
  unless (negb reset)
    (ResetState (r_ID record) ;; lifecycleEvent record "state_reset" "source, condition, grouping, policy, or limits changed" now) ;;
  (if existing && negb reset then RevisionState (r_ID record) (r_Revision record) (r_Generation record) else armInitial record now) ;;
  lifecycleEvent record "applied" state now.

(** The record, whether state is reset, the reported state, and the number of
    watches after the change. *)
Definition planned (q : ApplyRequest) (old : option WatchRecord) (p : Compiled) (n : Z) (now : time) : tx (WatchRecord * bool * string * Z) :=
  '(record, reset, state, n) ←
    (match old with
     | Some r =>
         reject (r_Status r ≟ "deleted") ("watch " ++ watch_id p ++ " is deleted; use a new watch ID") ;;
         mret (revised r p now, n)
     | None =>
         reject (g_MaxWatches limits <? n + 1) ErrQuota ;;
         mret (fresh_record p (if aq_startPaused q then "paused" else "running") now, false, "created", n + 1)
     end : tx (WatchRecord * bool * string * Z));
  mret (if aq_resetPaused q
        then (restarted (record <| r_Generation := r_Generation record + 1 |> <| r_Status := "paused" |>) now, true, "reset", n)
        else (record, reset, state, n)).

Definition apply_watch (q : ApplyRequest) (owner : option string) (available : list string) (now : time) (p : Compiled) (n : Z) : tx (Change * Z) :=
  let id := watch_id p in
  for_each (check_target available) (watch_targets p) ;;
  unless (aq_DryRun q) (checkHandoffHold id owner) ;;
  old ← find_watch id;
  let previous := default "" (r_Revision <$> old) in
  reject (match aq_Expected q !! id with Some expected => negb (expected ≟ previous) | None => false end) ErrConflict ;;
  let existing := negb (previous ≟ "") in
  reject (aq_startPaused q && existing && negb (aq_resetPaused q)) ErrConflict ;;
  '(record, reset, state, n) ← planned q (if existing then old else None) p n now;
  unless (aq_DryRun q || (previous ≟ cp_Revision p) && negb (aq_resetPaused q)) (install record existing reset state now) ;;
  mret ({| ch_Kind := "Watch"; ch_ID := id; ch_Revision := cp_Revision p; ch_Previous := previous; ch_State := state;
           ch_Permissions := cp_Permissions p |}, n).

Fixpoint apply_watches (q : ApplyRequest) (owner : option string) (available : list string) (now : time) (l : list Compiled) (n : Z) : tx (list Change) :=
  match l with
  | [] => mret []
  | p :: l =>
      '(change, n) ← apply_watch q owner available now p n;
      rest ← apply_watches q owner available now l n;
      mret (change :: rest)
  end.

(** [SELECT count] of the watches not deleted, of [Tx.Budget] *)
Definition live_watches : tx Z := gets (fun d => Z.of_nat (size (filter (fun kv : string * watch_row => w_status (snd kv) ≠ "deleted") (db_watches d)))).

(** [MaxDestinations], where one is set. *)
Definition check_destinations (b : Bundle) : tx unit :=
  unless (g_MaxDestinations limits <=? 0)
    (n ← gets (fun d => size (dom (db_destinations d) ∪ list_to_set (destination_id <$> bu_Destinations b) : gset string));
     reject (g_MaxDestinations limits <? Z.of_nat n) ErrQuota).

(** The function [apply] passes to [Update] or [View], once the mutation began;
    [oversized] is the test of [reviewSize] on the encoded result. *)
Definition apply_core (oversized : ApplyResult → bool) (owner : option string) (q : ApplyRequest) (b : Bundle) (closing : bool) (now : time) :
    tx ApplyResult :=
  reject closing ErrClosing ;;
  n ← live_watches;
  review ← captureReview instance (aq_Manifest q) b;
  reject (match aq_Review q with Some r => negb (bool_decide (r = review)) | None => false end) ErrConflict ;;
  check_destinations b ;;
  destinations ← apply_destinations (aq_DryRun q) now (bu_Destinations b);
  changes ← apply_watches q owner (destination_id <$> bu_Destinations b) now (bu_Watches b) n;
  bytes ← gets storage;
  reject (negb (aq_DryRun q) && (g_MaxBytes limits <? bytes)) ErrQuota ;;
  let result := {| ar_DestinationChanges := destinations; ar_Review := review; ar_Changes := changes |} in
  reject (oversized result) "review exceeds 8 MiB; apply a smaller bundle" ;;
  mret result.

(** The whole function; a mutation already performed leaves the empty result. *)
Definition apply_tx (oversized : ApplyResult → bool) (ctx : option Principal) (m : mutation) (q : ApplyRequest) (b : Bundle)
    (closing : bool) (now : time) : tx (option ApplyResult) :=
  authorizeBundle approved ctx b ;;
  performed ← mu_begin m;
  if performed : bool then mret None
  else result ← apply_core oversized (mu_owner m) q b closing now; mu_finish m ;; mret (Some result).

(** Every watch of the bundle can be evaluated. *)
Fixpoint evaluable (l : list Compiled) : result unit :=
  match l with
  | [] => Ok tt
  | p :: l => New parse_template (cp_Definition p) (cp_Revision p) ;; evaluable l
  end.

(** [parse] is [plan.Parse], [validate] the hook [ValidateBundle]. *)
Definition apply (max_manifest : Z) (parse : string → result Bundle) (validate : Bundle → result unit) (oversized : ApplyResult → bool)
    (ctx : option Principal) (m : mutation) (q : ApplyRequest) (closing : bool) (now : time) (d : db) : db * result (option ApplyResult) :=
  let checked :=
    fail_if (max_manifest <? len (aq_Manifest q)) "manifest is too large" ;;
    fail_if (match ctx with Some p => negb (Allows p (if aq_DryRun q then "preview" else "manage")) | None => false end) ErrDenied ;;
    b ← parse (aq_Manifest q); validate b ;; evaluable (bu_Watches b) ;; Ok b in
  match checked with
  | Err e => (d, Err e)
  | Ok b =>
      let t := apply_tx oversized ctx m q b closing now in
      if aq_DryRun q then (d, View t d) else Update t d
  end.
End Apply.
