(* ===== verification/Handoff.v ===== *)
(** * Transfers of watches: [internal/store/handoffs.go], [internal/watchrun/handoff*.go]

    A watch moves between instances in four transactions: the target prepares a
    paused copy, the source pauses and holds its own, the target activates with
    the source's pause receipt, or cancels, and the source is released with the
    target's canceled receipt.  A held watch is closed to every other request.
    Reading the clock is an argument wherever the code reads it. *)
From S2P Require Import Prelude GoText GoTime GoJson Watch Plan Evaluator RecordJson Outbox Records Access Acceptance Lifecycle Apply.

(** ** Records *)

#[export] Instance eta_Handoff : Eta Handoff := fun h =>
  mkHandoff (h_ReturnOf h) (h_ProbeKey h) (h_ProbeDigest h) (h_ProbeOutcome h) (h_ProbeAt h) (h_Instance h) (h_ID h) (h_WatchID h)
    (h_Role h) (h_Phase h) (h_Peer h) (h_Digest h) (h_Revision h) (h_Generation h) (h_Destinations h) (h_Held h) (h_At h).
#[export] Instance upd_h_ProbeKey : FieldUpdate h_ProbeKey := ltac:(field_update).
#[export] Instance upd_h_ProbeDigest : FieldUpdate h_ProbeDigest := ltac:(field_update).
#[export] Instance upd_h_ProbeOutcome : FieldUpdate h_ProbeOutcome := ltac:(field_update).
#[export] Instance upd_h_ProbeAt : FieldUpdate h_ProbeAt := ltac:(field_update).
#[export] Instance upd_h_Instance : FieldUpdate h_Instance := ltac:(field_update).
#[export] Instance upd_h_Phase : FieldUpdate h_Phase := ltac:(field_update).
#[export] Instance upd_h_Revision : FieldUpdate h_Revision := ltac:(field_update).
#[export] Instance upd_h_Generation : FieldUpdate h_Generation := ltac:(field_update).
#[export] Instance upd_h_Destinations : FieldUpdate h_Destinations := ltac:(field_update).
#[export] Instance upd_h_Held : FieldUpdate h_Held := ltac:(field_update).
#[export] Instance upd_h_At : FieldUpdate h_At := ltac:(field_update).

(** [json.Marshal] of a [Handoff]: [omitempty] omits no time. *)
Definition handoff_json (h : Handoff) : option string :=
  probe ← time_member "probeAt" (h_ProbeAt h);
  at_ ← time_member "at" (h_At h);
  Some (object_text (str_member "returnOf" (h_ReturnOf h) ++ str_member "probeKey" (h_ProbeKey h) ++ str_member "probeDigest" (h_ProbeDigest h)
    ++ str_member "probeOutcome" (h_ProbeOutcome h) ++ probe ++ always "instance" (quote (h_Instance h)) ++ always "id" (quote (h_ID h))
    ++ always "watchId" (quote (h_WatchID h)) ++ always "role" (quote (h_Role h)) ++ always "phase" (quote (h_Phase h))
    ++ always "peer" (quote (h_Peer h)) ++ always "digest" (quote (h_Digest h)) ++ always "revision" (quote (h_Revision h))
    ++ always "generation" (Itoa (h_Generation h)) ++ always "destinations" (map_text quote (h_Destinations h))
    ++ always "held" (if h_Held h then "true" else "false") ++ at_)%list).

(** What reading the stored body back gives. *)
Definition copy_handoff (h : Handoff) : option Handoff :=
  probe ← copy_time (h_ProbeAt h);
  at_ ← copy_time (h_At h);
  Some (mkHandoff (sanitize (h_ReturnOf h)) (sanitize (h_ProbeKey h)) (sanitize (h_ProbeDigest h)) (sanitize (h_ProbeOutcome h)) probe
    (sanitize (h_Instance h)) (sanitize (h_ID h)) (sanitize (h_WatchID h)) (sanitize (h_Role h)) (sanitize (h_Phase h)) (sanitize (h_Peer h))
    (sanitize (h_Digest h)) (sanitize (h_Revision h)) (h_Generation h) (sanitize_map (h_Destinations h)) (h_Held h) at_).

(** [^[a-f0-9]{64}$] *)
Definition hex_char (c : ascii) : bool := ((97 <=? zb c) && (zb c <=? 102)) || ((48 <=? zb c) && (zb c <=? 57)).
Definition handoffID (id : string) : bool := (len id =? 64) && forallb hex_char (list_ascii_of_string id).

(** ** Rows *)

Definition GetHandoff (id : string) : tx Handoff :=
  found ← gets (fun d => db_handoffs d !! id);
  match found with Some row => mret (hr_body row) | None => fail ErrNotFound end.
Definition find_handoff (id : string) : tx (option Handoff) := gets (fun d => hr_body <$> db_handoffs d !! id).

(** [ORDER BY id] *)
Definition Handoffs : tx (list Handoff) :=
  gets (fun d => omap (fun id => hr_body <$> db_handoffs d !! id) (sort_strings (fst <$> map_to_list (db_handoffs d)))).

(** Another transfer holds the watch: the index [handoffs_held_watch]. *)
Definition held_by_other (id watch : string) (d : db) : bool :=
  existsb (fun kv => negb (fst kv ≟ id) && (hr_watch (snd kv) ≟ watch) && h_Held (hr_body (snd kv))) (map_to_list (db_handoffs d)).

(** [ON CONFLICT] keeps the watch of an existing row. *)
Definition SaveHandoff (h : Handoff) : tx unit :=
  reject (negb (handoffID (h_ID h)) || (h_WatchID h ≟ "") || (1024 <? len (h_Peer h)) || (100 <? Z.of_nat (size (h_Destinations h))))
    "invalid handoff" ;;
  text ← encoded (handoff_json h);
  reject (65536 <? len text) "handoff exceeds limit" ;;
  others ← gets (fun d => size (delete (h_ID h) (db_handoffs d)));
  reject (1000 <=? Z.of_nat others) "handoff history limit reached" ;;
  body ← encoded (copy_handoff h);
  watch ← gets (fun d => match db_handoffs d !! h_ID h with Some row => hr_watch row | None => h_WatchID h end);
  bad ← gets (fun d => negb (bool_decide (is_Some (db_watches d !! watch))) || h_Held h && held_by_other (h_ID h) watch d);
  reject bad constraint ;;
  modify (fun d => d <| db_handoffs := <[h_ID h := {| hr_watch := watch; hr_body := body |}]> (db_handoffs d) |>).

(** The live intents of a watch. *)
Definition PendingForWatch (id : string) : tx Z :=
  gets (fun d => Z.of_nat (length (filter (fun r => r_watch r = id ∧ is_live r = true) (tb_outbox (db_outbox d))))).

(** ** The mutation of a transfer *)

(** [authorizeHandoff]; [granted] is what the grant of an integration says, [Ok]
    for a principal that carries none. *)
Definition authorizeHandoff (ctx : option Principal) (granted : result unit) : tx unit :=
  Require_ ctx "move" ;;
  match ctx with Some _ => lift granted | None => mret tt end.

(** The revisions the destinations of a watch have now. *)
Fixpoint current_revisions (l : list Target) (m : gmap string string) : tx (gmap string string) :=
  match l with
  | [] => mret m
  | t :: l => d ← GetDestination (t_Ref t) ""; current_revisions l (<[t_Ref t := cd_Revision d]> m)
  end.

Section Handoff.
Context `{L : Libraries} (limits : Budgets) (storage : db → Z) (range : gmap string State → list (string * State)).
Context (instance : string) (approved : list string).

(** [handoffMutation.begin]; the actions are [prepare] and [pause], which repeat. *)
Definition begin_handoff (ctx : option Principal) (granted : result unit) (h : Handoff) (check : tx unit) : tx bool :=
  authorizeHandoff ctx granted ;;
  old ← find_handoff (h_ID h);
  match old with
  | Some o =>
      reject (negb (h_Digest o ≟ h_Digest h) || negb (h_Role o ≟ h_Role h) || negb (h_Peer o ≟ h_Peer h) || negb (h_WatchID o ≟ h_WatchID h))
        ErrConflict ;;
      mret true
  | None => check ;; mret false
  end.

Definition finish_handoff (h : Handoff) (now : time) : tx unit :=
  r ← GetWatch (h_WatchID h);
  destinations ← current_revisions (sp_Destinations (r_Spec r)) ∅;
  SaveHandoff (h <| h_Instance := instance |> <| h_Revision := r_Revision r |> <| h_Generation := r_Generation r |> <| h_At := now |>
                 <| h_Destinations := destinations |>).

Definition handoffMutation (ctx : option Principal) (granted : result unit) (h : Handoff) (check : tx unit) (now : time) : mutation :=
  {| mu_begin := begin_handoff ctx granted h check; mu_finish := finish_handoff h now; mu_owner := Some (h_ID h) |}.

(** ** Preparing the target *)

Record HandoffPrepare := { hp_ReturnOf : string; hp_ID : string; hp_Peer : string; hp_Manifest : string; hp_Review : option ApplyPreconditions }.

Definition prepared_handoff (q : HandoffPrepare) (watch digest : string) : Handoff :=
  mkHandoff (hp_ReturnOf q) "" "" "" zero_time "" (hp_ID q) watch "target" "prepared" (hp_Peer q) digest "" 0 ∅ true zero_time.
Definition prepare_text (q : HandoffPrepare) : string :=
  object_text [member "Manifest" (quote (hp_Manifest q)); member "Peer" (quote (hp_Peer q)); member "ReturnOf" (quote (hp_ReturnOf q))].

(** A watch returns to the source that still holds it. *)
Definition check_return (q : HandoffPrepare) (watch : string) : tx unit :=
  unless (hp_ReturnOf q ≟ "")
    (old ← GetHandoff (hp_ReturnOf q);
     current ← GetWatch watch;
     reject (negb (h_Role old ≟ "source") || negb (h_Phase old ≟ "paused") || negb (h_Held old) || negb (h_WatchID old ≟ watch)
             || negb (h_Peer old ≟ hp_Peer q) || negb (r_Status current ≟ "paused") || negb (r_Revision current ≟ h_Revision old)
             || negb (r_Generation current =? h_Generation old))
       "return must match the original held source and peer" ;;
     SaveHandoff (old <| h_Held := false |> <| h_Phase := "returned" |>)).
Definition check_replaced (c : CompiledDestination) : tx unit :=
  old ← find_destination (destination_id c);
  reject (match old with Some o => negb (cd_Revision o ≟ cd_Revision c) | None => false end)
    "transfer cannot replace an existing destination; rebind under a new destination ID".
Definition check_prepare (q : HandoffPrepare) (b : Bundle) (watch : string) : tx unit :=
  check_return q watch ;; for_each check_replaced (bu_Destinations b).

Definition prepare_request (q : HandoffPrepare) : ApplyRequest :=
  {| aq_startPaused := true; aq_resetPaused := negb (hp_ReturnOf q ≟ ""); aq_Review := hp_Review q; aq_Manifest := hp_Manifest q;
     aq_DryRun := false; aq_Expected := ∅ |}.

(** The one watch of the bundle. *)
Definition transferred (cloud : bool) (b : Bundle) : result Compiled :=
  match bu_Watches b with
  | [p] =>
      fail_if (cloud && negb (s_Type (sp_Source (d_Spec (cp_Definition p))) ≟ "http"))
        "automatic push transfer is unavailable; create the watch and reconfigure its producer" ;; Ok p
  | _ => Err "transfer exactly one watch"
  end.

Definition prepare_mutation (ctx : option Principal) (granted : result unit) (q : HandoffPrepare) (b : Bundle) (p : Compiled) (later : time) : mutation :=
  handoffMutation ctx granted (prepared_handoff q (watch_id p) (Revision (prepare_text q))) (check_prepare q b (watch_id p)) later.

(** [cloud] is the execution this installation offers, [lifetimes] the tokens
    drawn for rows; the other arguments are those of [apply]. *)
Definition PrepareHandoff (cloud : bool) (lifetimes : string → string) (max_manifest : Z) (parse : string → result Bundle)
    (validate : Bundle → result unit) (oversized : ApplyResult → bool) (ctx : option Principal) (granted : result unit) (q : HandoffPrepare)
    (closing : bool) (now later : time) (d : db) : db * result Handoff :=
  let checked :=
    fail_if ((65536 <? len (hp_Manifest q)) || negb (bool_decide (is_Some (hp_Review q))) || (hp_Peer q ≟ ""))
      "bounded manifest, exact review and peer required" ;;
    b ← parse (hp_Manifest q); p ← transferred cloud b; Ok (b, p) in
  match checked with
  | Err e => (d, Err e)
  | Ok (b, p) =>
      let m := prepare_mutation ctx granted q b p later in
      match apply limits storage instance approved lifetimes max_manifest parse validate oversized ctx m (prepare_request q) closing now d with
      | (d, Ok _) => (d, View (GetHandoff (hp_ID q)) d)
      | (d, Err e) => (d, Err e)
      end
  end.

(** ** Pausing the source *)

Record HandoffPause := {
  hq_ID : string; hq_Peer : string; hq_WatchID : string; hq_Revision : string; hq_Generation : Z; hq_Destinations : option (gmap string string) }.

Definition pause_text (q : HandoffPause) : string :=
  object_text [member "id" (quote (hq_ID q)); member "peer" (quote (hq_Peer q)); member "watchId" (quote (hq_WatchID q));
               member "revision" (quote (hq_Revision q)); member "generation" (Itoa (hq_Generation q));
               member "destinations" (match hq_Destinations q with Some m => map_text quote m | None => "null" end)].
Definition paused_handoff (q : HandoffPause) (digest : string) : Handoff :=
  mkHandoff "" "" "" "" zero_time "" (hq_ID q) (hq_WatchID q) "source" "paused" (hq_Peer q) digest "" 0 ∅ true zero_time.

(** An entity with evaluation state that would be lost. *)
Definition busy_entity (s : State) : bool :=
  Open s || SourceUnhealthy s || (0 <? Matches s) || (0 <? Recoveries s) || nonempty (Samples s) || negb (size (Seen s) =? 0)%nat
  || negb (Baseline s ≟ "").

Definition healthyForHandoff (r : WatchRecord) (now : time) : tx unit :=
  reject (negb (r_Status r ≟ "running") || negb (r_LastError r ≟ "") || IsZero (r_LastInputAt r))
    "move requires a running watch with a successful observation" ;;
  let interval := duration_or_zero (s_Every (sp_Source (r_Spec r))) in
  let timeout := duration_or_zero (s_Timeout (sp_Source (r_Spec r))) in
  reject (wrap64 (2 * interval + timeout) <? Sub now (r_LastInputAt r)) "last observation is overdue; repair the source before moving" ;;
  pending ← PendingForWatch (r_ID r);
  reject (negb (pending =? 0)) "wait for pending and in-flight deliveries before moving" ;;
  entities ← GetEntities (r_ID r);
  reject (existsb (fun kv => busy_entity (snd kv)) (map_to_list entities))
    "move requires healthy idle evaluation state; active incidents and stateful windows cannot move yet".

Definition check_paused_target (m : gmap string string) (t : Target) : tx unit :=
  d ← GetDestination (t_Ref t) "";
  reject (negb (default "" (m !! t_Ref t) ≟ cd_Revision d)) ErrConflict.
Definition check_pause (q : HandoffPause) (now : time) : tx unit :=
  record ← GetWatch (hq_WatchID q);
  healthyForHandoff record now ;;
  let m := default ∅ (hq_Destinations q) in
  reject (negb (size m =? length (sp_Destinations (r_Spec record)))%nat) ErrConflict ;;
  for_each (check_paused_target m) (sp_Destinations (r_Spec record)).

Definition pause_request (q : HandoffPause) : LifecycleRequest :=
  {| lr_ExpectedGeneration := Some (hq_Generation q); lr_Action := "pause"; lr_Expected := hq_Revision q; lr_CancelPending := false |}.
Definition pause_mutation (ctx : option Principal) (granted : result unit) (q : HandoffPause) (checked later : time) : mutation :=
  handoffMutation ctx granted (paused_handoff q (Revision (pause_text q))) (check_pause q checked) later.

Definition PauseForHandoff (ctx : option Principal) (granted : result unit) (q : HandoffPause) (closing : bool) (lifetime : string)
    (now checked later : time) (d : db) : db * result Handoff :=
  if (hq_Peer q ≟ "") || (hq_Revision q ≟ "") || (hq_Generation q <? 1) then (d, Err "peer and exact watch generation required")
  else
    let m := pause_mutation ctx granted q checked later in
    match Update (lifecycle limits range approved ctx m (hq_WatchID q) (pause_request q) closing lifetime now) d with
    | (d, Ok _) => (d, View (GetHandoff (hq_ID q)) d)
    | (d, Err e) => (d, Err e)
    end.

(** ** Activating, canceling and releasing *)

Definition matches_source (h source : Handoff) : bool :=
  (h_Role h ≟ "target") && (h_Role source ≟ "source") && (h_Phase source ≟ "paused") && h_Held source && (h_ID source ≟ h_ID h)
  && (h_Peer source ≟ h_Instance h) && (h_Instance source ≟ h_Peer h) && (h_WatchID source ≟ h_WatchID h)
  && (h_Revision source ≟ h_Revision h) && bool_decide (h_Destinations source = h_Destinations h).

Definition unchanged_destination (kv : string * string) : tx unit :=
  d ← GetDestination (fst kv) "";
  reject (negb (cd_Revision d ≟ snd kv)) ErrConflict.

(** The prepared row becomes the active one, and its watch runs. *)
Definition activate_target (h : Handoff) (closing : bool) (lifetime : string) (next saved armed at_ : time) : tx Handoff :=
  r ← GetWatch (h_WatchID h);
  reject (negb (r_Status r ≟ "paused") || negb (r_Revision r ≟ h_Revision h) || negb (r_Generation r =? h_Generation h)) ErrConflict ;;
  for_each unchanged_destination (map_to_list (h_Destinations h)) ;;
  reject closing ErrClosing ;;
  let r := transitioned r "running" next in
  SaveWatch r saved lifetime ;;
  armInitial r armed ;;
  lifecycleEvent r "resumed" "transfer activated with fresh evaluation state" at_ ;;
  let h := h <| h_Phase := "active" |> <| h_Held := false |> <| h_Generation := r_Generation r |> in
  SaveHandoff h ;;
  mret h.

(** The function [ActivateHandoff] passes to [Update]. *)
Definition ActivateHandoff (ctx : option Principal) (granted : result unit) (id : string) (source : Handoff) (closing : bool) (lifetime : string)
    (next saved armed at_ : time) : tx Handoff :=
  h ← GetHandoff id;
  authorizeHandoff ctx granted ;;
  reject (negb (matches_source h source)) "source pause receipt does not match this prepared transfer" ;;
  if h_Phase h ≟ "active" then mret h
  else
    reject (negb (h_Phase h ≟ "prepared") || negb (h_Held h)) ErrConflict ;;
    activate_target h closing lifetime next saved armed at_.

(** The original source of a reverse transfer holds its watch again. *)
Definition restore_original (h : Handoff) (r : WatchRecord) : tx unit :=
  original ← GetHandoff (h_ReturnOf h);
  reject (negb (h_Phase original ≟ "returned") || h_Held original) ErrConflict ;;
  SaveHandoff (h <| h_Held := false |>) ;;
  SaveHandoff (original <| h_Phase := "paused" |> <| h_Held := true |> <| h_Generation := r_Generation r |> <| h_Revision := r_Revision r |>
                 <| h_Destinations := h_Destinations h |>).

Definition cancel_target (h : Handoff) (lifetime : string) (now : time) : tx Handoff :=
  r ← GetWatch (h_WatchID h);
  reject (negb (r_Status r ≟ "paused") || negb (r_Generation r =? h_Generation h) || negb (r_Revision r ≟ h_Revision h)) ErrConflict ;;
  let r := r <| r_Status := if h_ReturnOf h ≟ "" then "deleted" else "paused" |> <| r_Generation := r_Generation r + 1 |> in
  SaveWatch r now lifetime ;;
  DeleteTimers (h_WatchID h) ;;
  unless (h_ReturnOf h ≟ "") (restore_original h r) ;;
  let h := h <| h_Phase := "canceled" |> <| h_Held := false |> in
  SaveHandoff h ;;
  mret h.

Definition CancelPreparedHandoff (ctx : option Principal) (granted : result unit) (id lifetime : string) (now : time) : tx Handoff :=
  h ← GetHandoff id;
  authorizeHandoff ctx granted ;;
  reject (negb (h_Role h ≟ "target")) ErrConflict ;;
  if h_Phase h ≟ "canceled" then mret h
  else
    reject (negb (h_Phase h ≟ "prepared") || negb (h_Held h)) "target became active; perform a reverse transfer instead" ;;
    cancel_target h lifetime now.

Definition matches_target (id : string) (h target : Handoff) : bool :=
  (h_Role h ≟ "source") && (h_Role target ≟ "target") && (h_ID target ≟ id) && (h_Phase target ≟ "canceled") && negb (h_Held target)
  && (h_Peer target ≟ h_Instance h) && (h_Instance target ≟ h_Peer h) && (h_WatchID target ≟ h_WatchID h) && (h_Revision target ≟ h_Revision h).

Definition ReleaseHandoff (ctx : option Principal) (granted : result unit) (id : string) (target : Handoff) : tx Handoff :=
  h ← GetHandoff id;
  authorizeHandoff ctx granted ;;
  reject (negb (matches_target id h target)) "confirmed canceled target receipt required" ;;
  if h_Phase h ≟ "released" then mret h
  else
    reject (negb (h_Phase h ≟ "paused")) ErrConflict ;;
    let h := h <| h_Held := false |> <| h_Phase := "released" |> in
    SaveHandoff h ;;
    mret h.

(** ** Testing a prepared target *)

(** The first transaction of [TestHandoff]: the outcome of a test already run
    under this key, or none when it is to be run. *)
Definition begin_probe (ctx : option Principal) (granted : result unit) (id key digest : string) (now : time) : tx (option string) :=
  h ← GetHandoff id;
  authorizeHandoff ctx granted ;;
  reject (negb (h_Role h ≟ "target") || negb (h_Phase h ≟ "prepared") || negb (h_Held h)) ErrConflict ;;
  if h_ProbeKey h ≟ key then
    reject (negb (h_ProbeDigest h ≟ digest) || (30 * Minute <? Sub now (h_ProbeAt h)))
      "test expired or credentials changed; explicitly start a new labeled test" ;;
    mret (Some (h_ProbeOutcome h))
  else
    SaveHandoff (h <| h_ProbeKey := key |> <| h_ProbeDigest := digest |> <| h_ProbeAt := now |> <| h_ProbeOutcome := "pending" |>) ;;
    mret None.

(** The last one records what the test found. *)
Definition finish_probe (ctx : option Principal) (granted : result unit) (id key digest outcome : string) : tx unit :=
  h ← GetHandoff id;
  authorizeHandoff ctx granted ;;
  reject (negb (h_ProbeKey h ≟ key) || negb (h_ProbeDigest h ≟ digest) || negb (h_Phase h ≟ "prepared")) ErrConflict ;;
  SaveHandoff (h <| h_ProbeOutcome := outcome |>).

(** ** Preflight *)

Record HandoffPreflight := { pf_Instance : string; pf_Watch : WatchRecord; pf_Destinations : gmap string string; pf_Reason : option string }.

Definition failure_of (r : result unit) : option string := match r with Ok _ => None | Err e => Some e end.

(** Ready when there is no reason; the exported manifest is for display. *)
Definition PreflightHandoff (exported : result string) (id : string) (now : time) : tx HandoffPreflight :=
  r ← GetWatch id;
  lift exported ;;
  destinations ← current_revisions (sp_Destinations (r_Spec r)) ∅;
  reason ← gets (fun d => failure_of (View (checkHandoffHold id None ;; healthyForHandoff r now) d));
  mret {| pf_Instance := instance; pf_Watch := r; pf_Destinations := destinations; pf_Reason := reason |}.
End Handoff.
