(* ===== verification/Runtime.v ===== *)
(** * Runs of the runtime

    Any interleaving of what the runtime does to its tables: applying bundles,
    accepting batches, lifecycle requests, clock discontinuities, timers, the
    delivery workers' own transactions, the transactions of maintenance and
    retention, and those of transfers between instances.  A batch is accepted for any record, however stale. *)
From S2P Require Import Prelude GoText Watch Plan Evaluator Outbox PushReceipts Records Access Acceptance Lifecycle Maintenance Apply Handoff.

Definition empty_db : db :=
  mkDb ∅ ∅ ∅ ∅ 1 ∅ ∅ ∅ ∅ ∅ 1 ∅ ∅ ∅ ∅ ∅ ∅ ("", "") ∅ (mkPush ∅ None {| pu_Requests := 0; pu_Bytes := 0; pu_Observations := 0 |} ∅)
    (mkTables [] 1 [] ∅ [] ∅ ∅).

Section Runtime.
Context `{L : Libraries} (limits : Budgets) (jitter : duration) (storage : db → Z) (range : gmap string State → list (string * State)).
Context (instance : string) (approved : list string).

Inductive runtime_op :=
| apply_bundle (ctx : option Principal) (q : ApplyRequest) (b : Bundle) (closing : bool) (lifetimes : string → string) (now : time)
| accept_batch (record : WatchRecord) (b : Batch) (input : string) (push : option PushInput) (closing : bool) (now later : time)
| request_lifecycle (ctx : option Principal) (id : string) (q : LifecycleRequest) (closing : bool) (lifetime : string) (now : time)
| shift_clock (lifetimes : string → string) (now : time)
| deliver_timers (closing : bool) (now : time)
| maintain_entities (now : time)
| retain_history (now : time) (pass : string)
| retain_logs (id : string) (cutoff : time) (pass : string)
| claim_delivery (now : time) (lease : duration) (token : string)
| finish_delivery (i : Intent) (r : Result) (next now : time)
| retry_delivery (id : Z) (now : time)
| prepare_handoff (ctx : option Principal) (granted : result unit) (q : HandoffPrepare) (b : Bundle) (closing : bool) (lifetimes : string → string)
    (now later : time)
| pause_handoff (ctx : option Principal) (granted : result unit) (q : HandoffPause) (closing : bool) (lifetime : string) (now checked later : time)
| activate_handoff (ctx : option Principal) (granted : result unit) (id : string) (source : Handoff) (closing : bool) (lifetime : string)
    (next saved armed at_ : time)
| cancel_handoff (ctx : option Principal) (granted : result unit) (id lifetime : string) (now : time)
| release_handoff (ctx : option Principal) (granted : result unit) (id : string) (target : Handoff)
| start_probe (ctx : option Principal) (granted : result unit) (id key digest : string) (now : time)
| end_probe (ctx : option Principal) (granted : result unit) (id key digest outcome : string).

(** The tables after an operation, committed or rolled back. *)
Definition perform (o : runtime_op) (d : db) : db :=
  match o with
  | apply_bundle ctx q b closing lifetimes now =>
      fst (apply limits storage instance approved lifetimes (len (aq_Manifest q)) (fun _ => Ok b) (fun _ => Ok tt) (fun _ => false) ctx noMutation q closing now d)
  | accept_batch record b input push closing now later => fst (acceptPush limits jitter storage record b input push closing now later d)
  | request_lifecycle ctx id q closing lifetime now => fst (Update (lifecycle limits range approved ctx noMutation id q closing lifetime now) d)
  | shift_clock lifetimes now => fst (Update (clockShift limits range lifetimes now) d)
  | deliver_timers closing now => fst (RunTimers limits jitter storage closing now d)
  | maintain_entities now => fst (Update (maintain_page now) d)
  | retain_history now pass => fst (Update (RetainBatch (Add now (- g_Retention limits)) now 64 pass) d)
  | retain_logs id cutoff pass => fst (Update (RetainLogSummariesBatch id cutoff 64 pass) d)
  | claim_delivery now lease token => match Claim now lease token (db_outbox d) with Ok (t, _) => d <| db_outbox := t |> | Err _ => d end
  | finish_delivery i r next now => match Finish i r next now (db_outbox d) with Ok t => d <| db_outbox := t |> | Err _ => d end
  | retry_delivery id now => match Retry id now (db_outbox d) with Ok t => d <| db_outbox := t |> | Err _ => d end
  | prepare_handoff ctx granted q b closing lifetimes now later =>
      fst (PrepareHandoff limits storage instance approved false lifetimes (len (hp_Manifest q)) (fun _ => Ok b) (fun _ => Ok tt) (fun _ => false) ctx granted q
             closing now later d)
  | pause_handoff ctx granted q closing lifetime now checked later =>
      fst (PauseForHandoff limits range instance approved ctx granted q closing lifetime now checked later d)
  | activate_handoff ctx granted id source closing lifetime next saved armed at_ =>
      fst (Update (ActivateHandoff ctx granted id source closing lifetime next saved armed at_) d)
  | cancel_handoff ctx granted id lifetime now => fst (Update (CancelPreparedHandoff ctx granted id lifetime now) d)
  | release_handoff ctx granted id target => fst (Update (ReleaseHandoff ctx granted id target) d)
  | start_probe ctx granted id key digest now => fst (Update (begin_probe ctx granted id key digest now) d)
  | end_probe ctx granted id key digest outcome => fst (Update (finish_probe ctx granted id key digest outcome) d)
  end.

Definition runtime_run (d : db) (l : list runtime_op) : db := fold_left (fun d o => perform o d) l d.
End Runtime.
