(* ===== verification/Evidence.v ===== *)
(** * Replaying evidence: [internal/replay/evidence.go], [explanation.go], [internal/watchrun/inspection.go]

    A checkpoint recorded with an event reproduces it without clocks, sources or
    credentials; the explanation recomputes the windows it rested on. *)
From S2P Require Import Prelude GoText GoFloat GoTime GoJson Watch Plan Numeric Evaluator RecordJson Outbox Records Acceptance.

Section Evidence.
Context `{L : Libraries}.

(** [replay.Evidence] without its explanation and status. *)
Record Proof_ := { pf_Definition : Definition_; pf_Event : Event; pf_Checkpoint : option Checkpoint }.

(** The events the checkpoint's transition emits. *)
Definition replayed (e : Evaluator) (c : Checkpoint) : result (list Event) :=
  if ck_SourceRecovered c then
    fail_if (negb (Entity (ck_Prior c) ≟ SourceEntity) || negb (SourceUnhealthy (ck_Prior c))) "invalid source recovery checkpoint" ;;
    match Route e [SourceEntity] (ck_Input c) with
    | Ok (_ :: _, true) => Ok [SourceRecovered e (ck_Input c)]
    | _ => Err "invalid source recovery input"
    end
  else r ← Evaluate e (ck_Prior c) (ck_Input c) (o_AcceptedAt (ck_Input c)); Ok (tr_Events r).

(** The loop comparing JSON texts. *)
Fixpoint reproduces (expected : string) (l : list Event) : result unit :=
  match l with
  | [] => Err "replay did not reproduce the recorded event"
  | e :: l =>
      match event_record_json (with_sequence e 0) with
      | None => Err "json: unsupported value"
      | Some got => if got ≟ expected then Ok tt else reproduces expected l
      end
  end.

Definition Verify (p : Proof_) : result unit :=
  match pf_Checkpoint p with
  | None => Err "event has no replay checkpoint"
  | Some c =>
      cp ← compile (pf_Definition p);
      fail_if (negb (cp_Revision cp ≟ ev_Revision (pf_Event p)) ||
               negb (md_ID (d_Metadata (cp_Definition cp)) ≟ ev_WatchID (pf_Event p))) "evidence definition mismatch" ;;
      e ← New parse_template (cp_Definition cp) (cp_Revision cp);
      events ← replayed e c;
      match event_record_json (with_sequence (pf_Event p) 0) with
      | None => Err "json: unsupported value"
      | Some expected => reproduces expected events
      end
  end.

(** ** Explanation *)

Record WindowSummary := {
  ws_Function : string; ws_FromExclusive : time; ws_ThroughInclusive : time; ws_Samples : Z; ws_Value : option float64; ws_Available : bool }.
Record Evaluation := {
  xv_Known : bool; xv_Matched : bool; xv_Reason : string; xv_Matches : Z; xv_Recoveries : Z; xv_Open : bool; xv_SourceUnhealthy : bool;
  xv_Windows : list WindowSummary }.

Definition window_summary (r : Transition) (now : time) (leaf : WindowLeaf) : WindowSummary :=
  let from := Add now (- w_Window leaf) in
  let values := sm_Value <$> filter (fun s => After (sm_At s) from && negb (After (sm_At s) now) = true) (Samples (tr_State r)) in
  let n := Z.of_nat (length values) in
  let v := Aggregate (w_Func leaf) values in
  let shown := Known r && (0 <? n) && negb (IsNaN v) && negb (IsInf v) in
  {| ws_Function := w_Func leaf; ws_FromExclusive := from; ws_ThroughInclusive := now; ws_Samples := n;
     ws_Value := if shown then Some v else None; ws_Available := shown |}.

Definition Explain (p : Proof_) : result (option Evaluation) :=
  match pf_Checkpoint p with
  | None => Ok None
  | Some c =>
      if ck_SourceRecovered c then
        Ok (Some {| xv_Known := false; xv_Matched := false; xv_Reason := "source_recovered"; xv_Matches := 0; xv_Recoveries := 0;
                    xv_Open := false; xv_SourceUnhealthy := false; xv_Windows := [] |})
      else
        cp ← compile (pf_Definition p);
        e ← New parse_template (cp_Definition cp) (cp_Revision cp);
        let now := o_AcceptedAt (ck_Input c) in
        r ← Evaluate e (ck_Prior c) (ck_Input c) now;
        let numeric := c_Numeric (sp_Condition (d_Spec (cp_Definition cp))) in
        windows ← (if numeric ≟ "" then Ok [] else x ← ParseExpression numeric; Ok (window_summary r now <$> Windows x));
        let s := tr_State r in
        Ok (Some {| xv_Known := Known r; xv_Matched := Matched r; xv_Reason := Reason r; xv_Matches := Matches s;
                    xv_Recoveries := Recoveries s; xv_Open := Open s; xv_SourceUnhealthy := SourceUnhealthy s; xv_Windows := windows |})
  end.

(** ** Evidence of a stored event *)

(** [Tx.Event], [Tx.Definition], [Tx.Replay] *)
Definition GetEvent (id : string) (d : db) : option Event := (fun r => with_sequence (y_body r) (y_sequence r)) <$> db_events d !! id.
Definition GetDefinition (watch revision : string) (d : db) : option Definition_ := v_definition <$> db_revisions d !! (watch, revision).
Definition GetReplay (id : string) (d : db) : option Checkpoint := db_replays d !! id.

(** [App.Evidence]: the proof and its replay status. *)
Definition StoredEvidence (id : string) (d : db) : result (Proof_ * string) :=
  match GetEvent id d with
  | None => Err ErrNotFound
  | Some event =>
      match GetDefinition (ev_WatchID event) (ev_Revision event) d with
      | None => Err ErrNotFound
      | Some def =>
          let p c := {| pf_Definition := def; pf_Event := event; pf_Checkpoint := c |} in
          match GetReplay id d with
          | None => Ok (p None, "unavailable: lifecycle event or predates schema 2")
          | Some c => Verify (p (Some c)) ;; Explain (p (Some c)) ;; Ok (p (Some c), "verified")
          end
      end
  end.
End Evidence.
