(* ===== verification/SeenFacts.v ===== *)
(** * A firing depends on little of the seen-set

    [appendEvaluated] stores, for a new-event firing, only the entry of the
    event's own identifier.  The evaluation from the pruned state announces the
    same events. *)
From S2P Require Import Prelude GoText GoJson Watch Plan Evaluator EvaluatorFacts RecordJson Outbox Records Render Acceptance.

Section Seen.
Context (e : Evaluator) (key : string) (o : Observation) (now : time) (k : gmap string time).

Definition reseen (s : State) : State := s <| Seen := k |>.
Definition reseen_all (x : State * list Event) : State * list Event := (reseen x.1, x.2).

Lemma emit_reseen s kind reason : emit e key o now (reseen s) kind reason = emit e key o now s kind reason.
Proof. reflexivity. Qed.

Lemma gap_events_reseen s : gap_events e key o now (reseen s) = reseen_all <$> gap_events e key o now s.
Proof.
  unfold gap_events. change (LastAt (reseen s)) with (LastAt s). destruct (_ && _); [|done].
  change (clear_counters (reseen s)) with (reseen (clear_counters s)). rewrite emit_reseen.
  by destruct (emit e key o now (clear_counters s) "gap" "sampling_gap").
Qed.

Lemma source_recovery_reseen s evs healthy :
  source_recovery e key o now (reseen s) evs healthy = reseen_all <$> source_recovery e key o now s evs healthy.
Proof.
  unfold source_recovery. change (SourceUnhealthy (reseen s)) with (SourceUnhealthy s). destruct (_ && _); [|done].
  rewrite emit_reseen. by destruct (emit e key o now s "source_recovered" "source_recovered").
Qed.

Lemma unknown_reseen s evs reason :
  tr_Events <$> unknown e key o now (reseen s) evs reason = tr_Events <$> unknown e key o now s evs reason.
Proof.
  unfold unknown, source_failure. change (SourceUnhealthy (clear_counters (reseen s))) with (SourceUnhealthy (clear_counters s)).
  destruct (SourceUnhealthy _); [done|]. change (clear_counters (reseen s)) with (reseen (clear_counters s)). rewrite emit_reseen.
  by destruct (emit e key o now (clear_counters s) "source_error" reason).
Qed.

Lemma signal_step_reseen s evs matched :
  tr_Events <$> signal_step e key o now (reseen s) evs matched = tr_Events <$> signal_step e key o now s evs matched.
Proof.
  unfold signal_step. cbv zeta. change (cooled_down e (reseen s) now) with (cooled_down e s now). rewrite emit_reseen.
  destruct (_ && _); [|done]. by destruct (emit e key o now s _ _).
Qed.

Lemma waiting_step_reseen s evs :
  tr_Events <$> waiting_step e key o now (reseen s) evs = tr_Events <$> waiting_step e key o now s evs.
Proof.
  unfold waiting_step. cbv zeta.
  set (s' := (clear_counters s) <| WaitingReason := DetailOrDefault o |> <| LastAt := now |> <| LastSequence := o_Sequence o |>).
  change ((clear_counters (reseen s)) <| WaitingReason := DetailOrDefault o |> <| LastAt := now |> <| LastSequence := o_Sequence o |>) with (reseen s').
  rewrite source_recovery_reseen. by destruct (source_recovery e key o now s' evs _) as [[]|].
Qed.

Lemma gap_step_reseen s : tr_Events <$> gap_step e key o now (reseen s) = tr_Events <$> gap_step e key o now s.
Proof.
  unfold gap_step. cbv zeta. set (s' := (clear_counters s) <| LastAt := now |> <| LastSequence := o_Sequence o |>).
  change ((clear_counters (reseen s)) <| LastAt := now |> <| LastSequence := o_Sequence o |>) with (reseen s').
  rewrite emit_reseen. by destruct (emit e key o now s' "gap" "sampling_gap").
Qed.

(** Events that are not firings come from elsewhere than the predicate. *)
Lemma source_recovery_types s evs healthy s' evs' ev :
  source_recovery e key o now s evs healthy = Ok (s', evs') → ev ∈ evs' → ev ∈ evs ∨ ev_Type ev = "source_recovered".
Proof.
  unfold source_recovery. destruct (_ && _); intros H Hin; res_inv; [|by left].
  apply emit_Ok in Ha as (_ & _ & _ & _ & Ht & _). apply elem_of_app in Hin as [?|Hl%list_elem_of_singleton]; [by left|]. subst. by right.
Qed.

Lemma unknown_types s evs reason tr ev :
  unknown e key o now s evs reason = Ok tr → ev ∈ tr_Events tr → ev ∈ evs ∨ ev_Type ev = "source_error".
Proof.
  unfold unknown. intros H Hin. res_inv. destruct a as [s' evs']. res_inv. cbn [tr_Events] in Hin. revert Ha. unfold source_failure.
  destruct (SourceUnhealthy _); intros H; res_inv; [by left|].
  apply emit_Ok in Ha as (_ & _ & _ & _ & Ht & _). apply elem_of_app in Hin as [?|Hl%list_elem_of_singleton]; [by left|]. subst. by right.
Qed.
End Seen.

(** The predicate on the pruned seen-set: a new identifier stays new. *)
Lemma new_event_pruned e s v now id kept :
  event_identity v = Some id → v_Matched (signal_new_event e s v now) = true →
  kept = match Seen s !! id with Some expiry => {[id := expiry]} | None => ∅ end →
  ∃ k, signal_new_event e (reseen kept s) v now =
       {| v_State := reseen k (v_State (signal_new_event e s v now)); v_Known := true; v_Matched := true; v_Reason := "" |} ∧
       v_Known (signal_new_event e s v now) = true.
Proof.
  intros Hid Hm ->. unfold signal_new_event in *. rewrite Hid in *. cbv zeta in *.
  set (s1 := s <| Seen := live now (Seen s) |>) in *.
  destruct (match Seen s1 !! id with Some expiry => Before now expiry | None => false end) eqn:Hl; [done|].
  destruct (l_MaxSamples (elimits e) <=? Z.of_nat (size (Seen s1))) eqn:Hz; [done|]. cbn in Hm.
  set (kept := match Seen s !! id with Some expiry => {[id := expiry]} | None => ∅ end).
  assert (Hk : live now kept = ∅).
  { unfold live, kept. destruct (Seen s !! id) as [x|] eqn:Ex; [|apply map_filter_empty].
    apply map_empty. intros i. apply map_lookup_filter_None. destruct (decide (i = id)) as [->|Hi].
    - right. rewrite lookup_singleton_eq. intros y [= <-]. cbn. intros Hb. apply Is_true_true in Hb.
      subst s1. cbn in Hl. unfold live in Hl. 
      assert (filter (fun kv : string * time => Before now (snd kv)) (Seen s) !! id = Some x) as E.
      { apply map_lookup_filter_Some. split; [done|]. cbn. by rewrite Hb. }
      rewrite E in Hl. congruence.
    - left. by apply lookup_singleton_ne. }
  change (Seen ((reseen kept s) <| Seen := live now (Seen (reseen kept s)) |>)) with (live now kept). rewrite Hk, lookup_empty, map_size_empty.
  assert ((l_MaxSamples (elimits e) <=? Z.of_nat 0) = false) as -> by (apply Z.leb_gt in Hz; apply Z.leb_gt; lia).
  eexists. split; [|done]. cbn. reflexivity.
Qed.

(** Dropping the other identifiers from the prior state of a firing. *)
Section Pruned.
Context (e : Evaluator) (o : Observation) (now : time) (s : State) (id : string).
Let kept : gmap string time := match Seen s !! id with Some expiry => {[id := expiry]} | None => ∅ end.
Hypothesis Hop : c_Operator (econd e) = "new-event".
Hypothesis Hid : ∀ v, o_Fields o !! c_Field (econd e) = Some v → event_identity v = Some id ∨ event_identity v = None.

Lemma predicate_pruned s' :
  Seen s' = Seen s → v_Known (predicate e s' o now) = true → v_Matched (predicate e s' o now) = true →
  ∃ k, v_State (predicate e (reseen kept s') o now) = reseen k (v_State (predicate e s' o now)) ∧
       v_Known (predicate e (reseen kept s') o now) = true ∧ v_Matched (predicate e (reseen kept s') o now) = true.
Proof.
  intros Hs. unfold predicate. cbv zeta. destruct (negb (c_MissingFor (econd e) ≟ "")).
  { unfold predicate_missing. destruct (o_Health o ≟ "timer"); [|intros; by exists kept].
    destruct (o_Deadline o) as [dl|]; cbn.
    - destruct (IsZero (MissingAt s')) eqn:Z1; cbn; rewrite ?Z1; [|destruct (negb _); [done|intros; by exists kept]].
      destruct (IsZero dl); [done|]. destruct (negb _); [done|]. intros. by exists kept.
    - destruct (IsZero (MissingAt s')); [done|]. intros. by exists kept. }
  destruct (o_Fields o !! c_Field (econd e)) as [v|] eqn:Ev; [|done]. rewrite Hop.
  change (signal_operator "new-event") with true. cbv iota. unfold signal. rewrite Hop.
  rewrite (bool_decide_eq_false_2 ("new-event" = "changed")) by done. intros Hk Hm.
  destruct (Hid v eq_refl) as [Hi|Hi]; [|unfold signal_new_event in Hk; by rewrite Hi in Hk].
  destruct (new_event_pruned e s' v now id kept Hi Hm) as (k & -> & _); [unfold kept; by rewrite Hs|]. cbn. eauto.
Qed.

Lemma decide_pruned key s' evs tr ev :
  Seen s' = Seen s → ev_Type ev = "new-event" → ev ∉ evs →
  decide_step e key o now s' evs = Ok tr → ev ∈ tr_Events tr →
  tr_Events <$> decide_step e key o now (reseen kept s') evs = Ok (tr_Events tr).
Proof.
  intros Hs Ht Hne. unfold decide_step. cbv zeta. intros H Hin.
  destruct (negb (v_Known (predicate e s' o now))) eqn:Hk.
  { destruct (unknown_types _ _ _ _ _ _ _ _ _ H Hin) as [?|?]; [done|congruence]. }
  apply negb_false_iff in Hk. rewrite Hop in *. change (signal_operator "new-event") with true in *. cbv iota in *.
  apply bind_Ok in H as ([s1 evs1] & H1 & H).
  destruct (v_Matched (predicate e s' o now)) eqn:Hm.
  - destruct (predicate_pruned s' Hs Hk Hm) as (k & -> & -> & ->). cbn [negb]. cbv iota.
    rewrite source_recovery_reseen, H1. cbn [fmap result_fmap mbind result_bind reseen_all fst snd].
    rewrite signal_step_reseen. by rewrite H.
  - assert (ev ∈ evs1) as Hin1.
    { unfold signal_step in H. cbn in H. injection H as <-. done. }
    destruct (source_recovery_types _ _ _ _ _ _ _ _ _ _ H1 Hin1) as [?|?]; [done|congruence].
Qed.

Lemma gap_events_types key s' s1 evs ev : gap_events e key o now s' = Ok (s1, evs) → ev ∈ evs → ev_Type ev = "gap".
Proof.
  unfold gap_events. destruct (_ && _); intros H Hin; res_inv; [|set_solver].
  apply emit_Ok in Ha as (_ & _ & _ & _ & Hty & _). apply list_elem_of_singleton in Hin. by subst.
Qed.

Lemma gap_events_Seen key s' s1 evs : gap_events e key o now s' = Ok (s1, evs) → Seen s1 = Seen s'.
Proof. unfold gap_events. destruct (_ && _); intros H; res_inv; done. Qed.

Lemma sample_pruned key s' tr ev :
  Seen s' = Seen s → ev_Type ev = "new-event" → sample_step e key o now s' = Ok tr → ev ∈ tr_Events tr →
  tr_Events <$> sample_step e key o now (reseen kept s') = Ok (tr_Events tr).
Proof.
  intros Hs Ht. unfold sample_step. cbv zeta. rewrite gap_events_reseen. intros H Hin.
  apply bind_Ok in H as ([s1 evs] & Hg & H). rewrite Hg. cbn [fmap result_fmap mbind result_bind reseen_all fst snd].
  assert (Hevs : ev ∉ evs) by (intros Hx; pose proof (gap_events_types _ _ _ _ _ Hg Hx); congruence).
  destruct ((o_Health o ≟ "unchanged") && _); [by injection H as <-|].
  destruct ((o_Health o ≟ "waiting") && _); [by rewrite waiting_step_reseen, H|].
  destruct (negb (o_Health o ≟ "ok") && _); [by rewrite unknown_reseen, H|].
  destruct (negb _ && negb (match_fields e o)); [by injection H as <-|].
  eapply decide_pruned; try done. by rewrite (gap_events_Seen _ _ _ _ Hg).
Qed.

(** A firing is announced again from the pruned state. *)
Lemma Evaluate_pruned tr ev :
  ev_Type ev = "new-event" → Evaluate e s o now = Ok tr → ev ∈ tr_Events tr →
  tr_Events <$> Evaluate e (reseen kept s) o now = Ok (tr_Events tr).
Proof.
  intros Ht. unfold Evaluate. intros H Hin. apply bind_Ok in H as ([key st] & Ha & H).
  assert (admission e (reseen kept s) o now = Ok (key, reseen kept st)) as ->.
  { revert Ha. unfold admission. cbv zeta. cbn [reseen]. change (LastSequence ((reseen kept s) <| WaitingReason := "" |>)) with (LastSequence s).
    change (Entity ((reseen kept s) <| WaitingReason := "" |>)) with (Entity s).
    change (LastSequence (s <| WaitingReason := "" |>)) with (LastSequence s). change (Entity (s <| WaitingReason := "" |>)) with (Entity s).
    intros Ha. apply fail_if_bind in Ha as [-> Ha]. apply fail_if_bind in Ha as [-> Ha]. apply bind_Ok in Ha as (k0 & -> & Ha).
    apply fail_if_bind in Ha as [Hf Ha]. cbn. rewrite Hf. cbn. by injection Ha as <- <-. }
  cbn. pose proof (admission_Ok _ _ _ _ _ _ Ha) as (_ & _ & _ & _ & Hst & _).
  destruct (o_Health o ≟ "clock").
  { destruct (unknown_types _ _ _ _ _ _ _ _ _ H Hin) as [?|?]; [set_solver|congruence]. }
  change (LastAt (reseen kept st)) with (LastAt st).
  destruct (negb (IsZero (LastAt st)) && Before now (LastAt st)).
  { destruct (unknown_types _ _ _ _ _ _ _ _ _ H Hin) as [?|?]; [set_solver|congruence]. }
  destruct (o_Health o ≟ "gap"); [by rewrite gap_step_reseen, H|].
  eapply sample_pruned; try done. by rewrite Hst.
Qed.
End Pruned.
