(* ===== verification/TxLogic.v ===== *)
(** * Reasoning about transactions

    Partial-correctness triples on the transaction monad, with a rule per
    combinator, and relations every successful computation respects. *)
From S2P Require Import Prelude Records.

(** [triple P t Q]: started in tables with [P], a successful [t] ends in [Q]. *)
Definition triple {A : Type} (P : db → Prop) (t : tx A) (Q : A → db → Prop) : Prop :=
  ∀ d a d', P d → t d = Ok (a, d') → Q a d'.

(** [preserves I t]: a successful [t] keeps [I]. *)
Definition preserves {A : Type} (I : db → Prop) (t : tx A) : Prop := triple I t (fun _ => I).

(** [respects R t]: the tables before and after a successful [t] are related. *)
Definition respects {A : Type} (R : relation db) (t : tx A) : Prop := ∀ d a d', t d = Ok (a, d') → R d d'.

Create HintDb tx.

Section Triples.
Implicit Types P : db → Prop.

Lemma triple_ret {A : Type} P (a : A) (Q : A → db → Prop) : (∀ d, P d → Q a d) → triple P (mret a) Q.
Proof. intros H d b d' Hd [= <- <-]. auto. Qed.

Lemma triple_bind {A B : Type} P (m : tx A) (f : A → tx B) R Q :
  triple P m R → (∀ a, triple (R a) (f a) Q) → triple P (m ≫= f) Q.
Proof.
  intros Hm Hf d b d' Hd H. unfold mbind, tx_bind in H. destruct (m d) as [[a d1]|] eqn:E; [|done].
  eapply Hf; [by eapply Hm|done].
Qed.

Lemma triple_conseq {A : Type} P P' (t : tx A) Q Q' :
  triple P' t Q' → (∀ d, P d → P' d) → (∀ a d, Q' a d → Q a d) → triple P t Q.
Proof. intros H HP HQ d a d' Hd E. eauto. Qed.

Lemma triple_gets {A : Type} P (f : db → A) (Q : A → db → Prop) : (∀ d, P d → Q (f d) d) → triple P (gets f) Q.
Proof. intros H d a d' Hd [= <- <-]. auto. Qed.

Lemma triple_modify P (f : db → db) (Q : unit → db → Prop) : (∀ d, P d → Q tt (f d)) → triple P (modify f) Q.
Proof. intros H d a d' Hd [= <- <-]. auto. Qed.

Lemma triple_lift {A : Type} P (r : result A) (Q : A → db → Prop) : (∀ d a, r = Ok a → P d → Q a d) → triple P (lift r) Q.
Proof. intros H d a d' Hd. unfold lift. destruct r; [intros [= <- <-]; auto|done]. Qed.

Lemma triple_encoded {A : Type} P (o : option A) (Q : A → db → Prop) : (∀ d a, o = Some a → P d → Q a d) → triple P (encoded o) Q.
Proof. intros H. apply triple_lift. intros d a. destruct o; [intros [= <-]|done]. auto. Qed.

Lemma triple_fail {A : Type} P e (Q : A → db → Prop) : triple P (fail e) Q.
Proof. by intros d a d' _ H. Qed.

Lemma triple_reject P b e (Q : unit → db → Prop) : (∀ d, b = false → P d → Q tt d) → triple P (reject b e) Q.
Proof. intros H. destruct b; [apply triple_fail|]. apply triple_ret. auto. Qed.

Lemma triple_unless P b t (Q : unit → db → Prop) :
  (∀ d, b = true → P d → Q tt d) → (b = false → triple P t Q) → triple P (unless b t) Q.
Proof. intros H1 H2. destruct b; [apply triple_ret; auto|auto]. Qed.

Lemma triple_for_each {A : Type} P (f : A → tx unit) l :
  (∀ a, a ∈ l → triple P (f a) (fun _ => P)) → triple P (for_each f l) (fun _ => P).
Proof.
  induction l as [|a l IH]; intros H; cbn; [by apply triple_ret|].
  eapply triple_bind; [apply H; by left|]. intros []. apply IH. intros b Hb. apply H. by right.
Qed.

Lemma triple_frame {A : Type} P (I : Prop) (t : tx A) Q : (I → triple P t Q) → triple (fun d => I ∧ P d) t Q.
Proof. intros H d a d' [HI HP]. by apply H. Qed.

Lemma triple_and {A : Type} P P' (t : tx A) Q Q' :
  triple P t Q → triple P' t Q' → triple (fun d => P d ∧ P' d) t (fun a d => Q a d ∧ Q' a d).
Proof. intros H H' d a d' [] E. eauto. Qed.
End Triples.

(** ** Relations respected by every step *)

Section Respects.
Context (R : relation db) `{!PreOrder R}.

Lemma respects_ret {A : Type} (a : A) : respects R (mret a).
Proof. intros d b d' [= <- <-]. reflexivity. Qed.
Lemma respects_bind {A B : Type} (m : tx A) (f : A → tx B) : respects R m → (∀ a, respects R (f a)) → respects R (m ≫= f).
Proof.
  intros Hm Hf d b d' H. unfold mbind, tx_bind in H. destruct (m d) as [[a d1]|] eqn:E; [|done].
  etrans; [by eapply Hm|by eapply Hf].
Qed.
Lemma respects_gets {A : Type} (f : db → A) : respects R (gets f).
Proof. intros d b d' [= <- <-]. reflexivity. Qed.
Lemma respects_lift {A : Type} (r : result A) : respects R (lift r).
Proof. intros d b d'. unfold lift. destruct r; [intros [= <- <-]; reflexivity|done]. Qed.
Lemma respects_encoded {A : Type} (o : option A) : respects R (encoded o).
Proof. apply respects_lift. Qed.
Lemma respects_fail {A : Type} e : respects R (fail (A := A) e).
Proof. by intros d b d' H. Qed.
Lemma respects_reject b e : respects R (reject b e).
Proof. destruct b; [apply respects_fail|apply respects_ret]. Qed.
Lemma respects_modify f : (∀ d, R d (f d)) → respects R (modify f).
Proof. intros H d b d' [= <- <-]. auto. Qed.
Lemma respects_unless b t : respects R t → respects R (unless b t).
Proof. intros H. destruct b; [apply respects_ret|done]. Qed.
Lemma respects_for_each {A : Type} (f : A → tx unit) l : (∀ a, respects R (f a)) → respects R (for_each f l).
Proof. intros H. induction l as [|a l IH]; cbn; [apply respects_ret|apply respects_bind; auto]. Qed.
Lemma respects_update {A : Type} (t : tx A) d : respects R t → R d (fst (Update t d)).
Proof. intros H. unfold Update. destruct (t d) as [[a d']|] eqn:E; cbn; [by eapply H|reflexivity]. Qed.
End Respects.

(** Decomposes the goal [respects R t] along the combinators. *)
Ltac respects_tac :=
  repeat first
    [ assumption
    | solve [eauto with tx]
    | apply respects_ret; exact _
    | apply respects_gets; exact _
    | apply respects_encoded; exact _
    | apply respects_lift; exact _
    | apply respects_fail; exact _
    | apply respects_reject; exact _
    | apply respects_unless; [exact _|]
    | apply respects_for_each; [exact _|intros]
    | apply respects_bind; [exact _| |intros]
    | match goal with |- context [match ?x with _ => _ end] => destruct x end ].

(** ** Inverting a successful computation *)

Lemma tx_bind_inv {A B : Type} (m : tx A) (f : A → tx B) d r : (m ≫= f) d = Ok r → ∃ a d1, m d = Ok (a, d1) ∧ f a d1 = Ok r.
Proof. unfold mbind, tx_bind. destruct (m d) as [[a d1]|]; [eauto|done]. Qed.
Lemma gets_inv {A : Type} (f : db → A) d a d' : gets f d = Ok (a, d') → a = f d ∧ d' = d.
Proof. by intros [= <- <-]. Qed.
Lemma ret_inv {A : Type} (x : A) d a d' : mret (M := tx) x d = Ok (a, d') → a = x ∧ d' = d.
Proof. by intros [= <- <-]. Qed.
Lemma lift_inv {A : Type} (r : result A) d a d' : lift r d = Ok (a, d') → r = Ok a ∧ d' = d.
Proof. unfold lift. destruct r; [by intros [= <- <-]|done]. Qed.
Lemma encoded_inv {A : Type} (o : option A) d a d' : encoded o d = Ok (a, d') → o = Some a ∧ d' = d.
Proof. intros [H ->]%lift_inv. destruct o; by simplify_eq. Qed.
Lemma reject_inv b e d a d' : reject b e d = Ok (a, d') → b = false ∧ d' = d.
Proof. destruct b; [done|]. by intros [= <- <-]. Qed.
Lemma modify_inv f d a d' : modify f d = Ok (a, d') → d' = f d.
Proof. by intros [= <- <-]. Qed.

Ltac tx_inv := repeat match goal with
  | H : mbind _ _ _ = Ok _ |- _ => apply tx_bind_inv in H as (? & ? & ? & H)
  | H : gets _ _ = Ok _ |- _ => apply gets_inv in H as [? ?]; subst
  | H : mret _ _ = Ok _ |- _ => apply ret_inv in H as [? ?]; subst
  | H : lift _ _ = Ok _ |- _ => apply lift_inv in H as [? ?]; subst
  | H : encoded _ _ = Ok _ |- _ => apply encoded_inv in H as [? ?]; subst
  | H : reject _ _ _ = Ok _ |- _ => apply reject_inv in H as [? ?]; subst
  | H : modify _ _ = Ok _ |- _ => apply modify_inv in H; subst
  | H : fail _ _ = Ok _ |- _ => discriminate H
  end.
