(* ===== verification/EvidenceFacts.v ===== *)
(** * Well-formed text, and why recorded evidence verifies

    Texts that are sequences of well-formed runes: they survive a JSON round
    trip unchanged.  JSON texts, numbers, digests and entity keys are such texts. *)

From S2P Require Import Prelude GoText GoFloat GoTime GoJson Sha256 Watch Numeric Evaluator RecordJson EvaluatorFacts Plan PlanSpec Outbox PushReceipts Records.
From S2P Require Import Render Acceptance Lifecycle Evidence SeenFacts TxLogic.

Definition text_ok (s : string) : Prop := ∃ l, Forall wf_rune l ∧ s = str_app_list l.

Lemma text_ok_sanitize s : text_ok s ↔ sanitize s = s.
Proof.
  split.
  - intros (l & Hl & ->). apply sanitize_valid. unfold ValidString. rewrite decode_app_list by done.
    clear Hl. by induction l.
  - intros <-. exists (map sanitize_piece (decode s)). split; [apply sanitize_pieces_wf|done].
Qed.

Lemma text_ok_copy s : text_ok (sanitize s).
Proof. apply text_ok_sanitize, sanitize_idem. Qed.

Lemma text_ok_app a b : text_ok a → text_ok b → text_ok (a ++ b).
Proof.
  intros (l & Hl & ->) (k & Hk & ->). exists (l ++ k)%list. split; [by apply Forall_app|]. by rewrite str_app_list_app.
Qed.

Lemma text_ok_list l : Forall text_ok l → text_ok (str_app_list l).
Proof. induction 1; [by exists []|by apply text_ok_app]. Qed.

(** ** ASCII *)

Definition ascii_text (s : string) : bool := str_forallb (fun c => zb c <? 0x80) s.

Lemma ascii_rune c : zb c < 0x80 → wf_rune (one c).
Proof. intros H. exists (one c), "". cbn. by rewrite (proj2 (Z.ltb_lt _ _)). Qed.

Lemma ascii_ok s : ascii_text s = true → text_ok s.
Proof.
  induction s as [|c s IH]; [by exists []|]. cbn. intros [Hc Hs]%andb_true_iff. apply (text_ok_app (one c)); [|auto].
  exists [one c]. split; [|done]. apply Forall_singleton, ascii_rune. lia.
Qed.

Lemma ascii_one c : zb c < 0x80 → ascii_text (one c) = true.
Proof. intros H. unfold ascii_text, one. cbn [str_forallb]. by rewrite (proj2 (Z.ltb_lt _ _)). Qed.
Lemma ascii_app a b : ascii_text (a ++ b) = ascii_text a && ascii_text b.
Proof. unfold ascii_text. induction a as [|c a IH]; [done|]. cbn. by rewrite IH, andb_assoc. Qed.
Lemma ascii_take n s : ascii_text s = true → ascii_text (str_take n s) = true.
Proof. revert s. induction n; intros [|c s]; cbn; try done. intros [-> Hs]%andb_true_iff. by apply IHn. Qed.
Lemma ascii_drop n s : ascii_text s = true → ascii_text (str_drop n s) = true.
Proof. revert s. induction n; intros [|c s]; cbn; try done. intros [_ Hs]%andb_true_iff. by apply IHn. Qed.

Lemma zb_digit n : zb (digit_char (n mod 10)) <? 0x80 = true.
Proof. unfold digit_char. pose proof (Z.mod_pos_bound n 10). rewrite zb_bz by lia. apply Z.ltb_lt. lia. Qed.

Lemma ascii_digits fuel n acc : ascii_text acc = true → ascii_text (dec_digits fuel n acc) = true.
Proof.
  revert n acc. induction fuel as [|fuel IH]; intros n acc H; [done|]. cbn [dec_digits].
  assert (ascii_text (String (digit_char (n mod 10)) acc) = true) as H'.
  { unfold ascii_text in *. cbn [str_forallb]. by rewrite zb_digit. }
  destruct (_ =? 0); [done|]. by apply IH.
Qed.
Lemma ascii_nat n : ascii_text (format_nat n) = true.
Proof. by apply ascii_digits. Qed.
Lemma ascii_Itoa n : ascii_text (Itoa n) = true.
Proof. unfold Itoa. destruct (n <? 0); [|apply ascii_nat]. rewrite ascii_app. by rewrite ascii_nat. Qed.
Lemma ascii_zeros n : ascii_text (zeros n) = true.
Proof. induction n; cbn; [done|]. unfold ascii_text in *. cbn. done. Qed.

Lemma ascii_layout_f d j : ascii_text d = true → ascii_text (layout_f d j) = true.
Proof.
  intros H. unfold layout_f. repeat case_match; rewrite ?ascii_app, ?ascii_zeros, ?H, ?ascii_take, ?ascii_drop; done.
Qed.
Lemma ascii_layout_e d j : ascii_text d = true → ascii_text (layout_e d j) = true.
Proof.
  intros H. unfold layout_e. rewrite !ascii_app. apply andb_true_iff; split; [|apply andb_true_iff; split; [done|]].
  - destruct d as [|c [|c' d]]; [done|exact H|]. unfold ascii_text in *. cbn in *. done.
  - destruct (_ <? 0); rewrite ?ascii_app, ?ascii_nat; [done|]. by destruct (_ <? 10).
Qed.

Lemma ascii_json_float x t : json_float x = Some t → ascii_text t = true.
Proof.
  destruct x as [s|s| |s m e]; cbn [json_float]; try done; [intros [= <-]; by destruct s|].
  destruct (shortest_digits m e) as [d j]. intros [= <-]. rewrite ascii_app. apply andb_true_iff. split; [by destruct s|].
  destruct (_ || _); [apply ascii_layout_e|apply ascii_layout_f]; apply ascii_nat.
Qed.

Lemma zb_hex n : 0 <= n < 16 → zb (hex_digit n) < 0x80.
Proof. intros H. unfold hex_digit. destruct (Z.ltb_spec n 10); unfold digit_char; rewrite zb_bz; lia. Qed.

(** ** JSON text *)

Lemma zb_hex_byte b : 0 <= b < 256 → zb (hex_digit (b / 16)) < 0x80 ∧ zb (hex_digit (b mod 16)) < 0x80.
Proof.
  intros H. split; apply zb_hex; [split; [apply Z.div_pos; lia|apply Z.div_lt_upper_bound; lia]|apply Z.mod_pos_bound; lia].
Qed.

Lemma escape_ascii_ok c : zb c < 0x80 → ascii_text (escape_ascii c) = true.
Proof.
  intros Hc. pose proof (zb_range c) as Hr. destruct (zb_hex_byte _ Hr). unfold escape_ascii.
  repeat case_match; rewrite ?ascii_app, ?ascii_one by done; done.
Qed.

Lemma escape_piece_ok p : match p with Rune b => wf_rune b | Bad _ => True end → text_ok (escape_piece p).
Proof.
  destruct p as [b|c]; cbn [escape_piece]; intros Hp; [|by apply ascii_ok].
  destruct (wf_rune_plain b Hp) as [(c & -> & Hc)|[_ Hl]]; [by apply ascii_ok, escape_ascii_ok|].
  destruct b as [|c0 [|c1 b]]; cbn in Hl; try lia.
  destruct (_ ≟ line_sep); [by apply ascii_ok|]. destruct (_ ≟ para_sep); [by apply ascii_ok|].
  exists [String c0 (String c1 b)]. split; [by apply Forall_singleton|]. cbn. by rewrite str_app_nil_r.
Qed.

Lemma quote_ok s : text_ok (quote s).
Proof.
  unfold quote. apply text_ok_app; [by apply ascii_ok|]. apply text_ok_app; [|by apply ascii_ok].
  apply text_ok_list, Forall_map. eapply list.Forall_impl; [apply decode_runes_wf|]. intros p. apply escape_piece_ok.
Qed.

Lemma join_ok sep l : text_ok sep → Forall text_ok l → text_ok (join sep l).
Proof.
  intros Hs. induction 1 as [|x l Hx Hl IH]; [by exists []|]. destruct l as [|y l]; [done|].
  cbn [join]. by repeat apply text_ok_app.
Qed.

Lemma array_text_ok l : Forall text_ok l → text_ok (array_text l).
Proof. intros H. unfold array_text. apply text_ok_app; [by apply ascii_ok|]. apply text_ok_app; [by apply join_ok, H; apply ascii_ok|by apply ascii_ok]. Qed.
Lemma object_text_ok l : Forall text_ok l → text_ok (object_text l).
Proof. intros H. unfold object_text. apply text_ok_app; [by apply ascii_ok|]. apply text_ok_app; [by apply join_ok, H; apply ascii_ok|by apply ascii_ok]. Qed.
Lemma member_ok k b : text_ok b → text_ok (member k b).
Proof. intros H. unfold member. apply text_ok_app; [apply quote_ok|]. by apply text_ok_app; [apply ascii_ok|]. Qed.

(** ** Digests and entity keys *)

Lemma hex_ok l : Forall (fun b => 0 <= b < 256) l → ascii_text (hex l) = true.
Proof.
  induction 1 as [|b l Hb Hl IH]; [done|]. destruct (zb_hex_byte _ Hb) as [H1 H2].
  change (hex (b :: l)) with (one (hex_digit (b / 16)) ++ one (hex_digit (b mod 16)) ++ hex l). by rewrite !ascii_app, !ascii_one.
Qed.

Lemma be_bytes_range n x : Forall (fun b => 0 <= b < 256) (be_bytes n x).
Proof.
  apply Forall_map, list.Forall_forall. intros i _. change 255 with (Z.ones 8). rewrite Z.land_ones by lia. apply Z.mod_pos_bound. lia.
Qed.

Lemma Revision_ok json : text_ok (Revision json).
Proof.
  apply ascii_ok, hex_ok. unfold Sum256. cbv zeta. generalize (blocks (length (words (pad (str_bytes json)))) initial_hash (words (pad (str_bytes json)))).
  intros l. induction l as [|x l IH]; [constructor|]. cbn [flat_map]. apply Forall_app. split; [apply (be_bytes_range 4)|done].
Qed.

Lemma key_value_ok v t : key_value v = Ok t → text_ok t.
Proof.
  destruct v; cbn; try done; try (intros [= <-]; apply ascii_ok).
  - done.
  - by destruct b.
  - apply ascii_Itoa.
  - apply ascii_Itoa.
  - destruct (json_float f) eqn:E; [|done]. intros [= <-]. apply ascii_ok. by eapply ascii_json_float.
  - destruct (ValidString s); [|done]. intros [= <-]. apply quote_ok.
Qed.

(** Entity keys are well-formed texts and never empty. *)
Lemma EntityKey_ok groupBy fs key : EntityKey groupBy fs = Ok key → text_ok key ∧ key ≠ "".
Proof.
  unfold EntityKey. intros (l & Hl & ->)%fmap_Ok. split; [|done]. apply array_text_ok.
  revert l Hl. induction groupBy as [|f g IH]; intros l H; cbn in H; [by simplify_eq|].
  apply bind_Ok in H as (p & Hp & H). apply bind_Ok in H as (ps & Hps & [= <-]). constructor; [|auto].
  unfold group_value in Hp. apply bind_Ok in Hp as (t & Ht & [= <-]). unfold key_part. apply object_text_ok.
  repeat constructor; apply member_ok; [apply quote_ok| |by eapply key_value_ok].
  apply ascii_ok. by destruct (bool_decide _).
Qed.

(** * Recorded evidence verifies

    Every event the runtime announces is stored together with a checkpoint from
    which [Verify] reproduces it. *)

#[local] Arguments event_id : simpl never.
#[local] Arguments Revision : simpl never.

(** ** Values that survive a JSON round trip *)

Lemma json_float_some f : is_finite f = true → is_Some (json_float f).
Proof. destruct f; cbn; try done; eauto. intros _. destruct (shortest_digits m e). eauto. Qed.

Lemma mapM_related {A B C : Type} (f : A → option B) (g : A → option C) l k :
  Forall (fun x => is_Some (f x) → is_Some (g x)) l → mapM f l = Some k → is_Some (mapM g l).
Proof.
  intros H E%mapM_Some_1. apply mapM_is_Some_2. revert k E. induction H as [|x l Hx Hl IH]; intros k E; [constructor|].
  inversion E; subst. constructor; eauto.
Qed.

Lemma json_copy_Marshal v w : json_copy v = Some w → is_Some (Marshal v).
Proof.
  revert w. induction v as [| | | | | |l IH|l IH] using value_ind'; intros w H; cbn in H; simplify_eq/=; eauto.
  - destruct (is_finite f) eqn:E; simplify_eq/=. by apply json_float_some.
  - destruct (mapM json_copy l) as [l'|] eqn:E; simplify_eq/=.
    change (is_Some (array_text <$> mapM Marshal l)). apply fmap_is_Some. eapply mapM_related; [|exact E].
    eapply list.Forall_impl; [exact IH|]. intros x Hx [y Hy]. eauto.
  - destruct (mapM _ l) as [l'|] eqn:E; simplify_eq/=.
    change (is_Some (object_text <$> mapM (fun kv => member (fst kv) <$> Marshal (snd kv)) l)). apply fmap_is_Some.
    eapply mapM_related; [|exact E]. eapply list.Forall_impl; [exact IH|]. intros x Hx [y Hy].
    destruct (json_copy (snd x)) as [v|] eqn:Ev; [|done]. apply fmap_is_Some. eauto.
Qed.

Lemma copy_fields_Marshal m m' : copy_fields m = Some m' → is_Some (MarshalFields m).
Proof.
  unfold copy_fields, MarshalFields. destruct (mapM _ (sorted_fields m)) as [l|] eqn:E; [|done]. intros _.
  change (is_Some (object_text <$> mapM (fun kv => member (fst kv) <$> Marshal (snd kv)) (sorted_fields m))).
  apply fmap_is_Some. eapply mapM_related; [|exact E]. apply list.Forall_forall. intros x _ [y Hy].
  destruct (json_copy (snd x)) as [v|] eqn:Ev; [|done]. apply fmap_is_Some. by eapply json_copy_Marshal.
Qed.

Definition observation_normal (o : Observation) : Prop := copy_observation o = Some o.

Lemma observation_normal_inv o : observation_normal o →
  json_year (o_AcceptedAt o) = true ∧ copy_fields (o_Fields o) = Some (o_Fields o) ∧ text_ok (o_Entity o) ∧ text_ok (o_Detail o).
Proof.
  unfold observation_normal, copy_observation. intros H. apply bind_Some in H as (dl & _ & H). apply bind_Some in H as (ac & Ha & H).
  apply bind_Some in H as (ob & _ & H). apply bind_Some in H as (fs & Hf & H). injection H as H. unfold copy_time in Ha.
  destruct (json_year (o_AcceptedAt o)) eqn:Ey; [|done]. rewrite !text_ok_sanitize.
  pose proof (f_equal o_Fields H) as E1. pose proof (f_equal o_Entity H) as E2. pose proof (f_equal o_Detail H) as E3. cbn in *.
  rewrite Hf, E1. done.
Qed.

(** An event all of whose texts are well formed and whose fields are a copy. *)
Record event_normal (e : Event) : Prop := {
  en_ID : text_ok (ev_ID e); en_WatchID : text_ok (ev_WatchID e); en_Revision : text_ok (ev_Revision e);
  en_Entity : text_ok (ev_Entity e); en_Type : text_ok (ev_Type e); en_Message : text_ok (ev_Message e);
  en_Fields : copy_fields (ev_Fields e) = Some (ev_Fields e) }.

Lemma copy_event_normal e e' : event_normal e → copy_event e = Some e' → e' = e ∧ json_year (ev_At e) = true.
Proof.
  intros [H1 H2 H3 H4 H5 H6 H7]. unfold copy_event, copy_time. destruct (json_year (ev_At e)) eqn:Ey; [|done]. cbn. rewrite H7. cbn.
  apply text_ok_sanitize in H1, H2, H3, H4, H5, H6. rewrite H1, H2, H3, H4, H5, H6. intros [= <-]. by destruct e.
Qed.

Lemma event_record_json_some e :
  json_year (ev_At e) = true → is_Some (MarshalFields (ev_Fields e)) → is_Some (event_record_json (with_sequence e 0)).
Proof.
  intros Hy [t Ht]. unfold event_record_json, time_member, time_json, fields_member. cbn [with_sequence ev_At ev_Fields].
  rewrite Hy, Ht. cbn. eauto.
Qed.

(** ** Events of one evaluation *)

(** The message template writes well-formed text. *)
Definition renders_text (e : Evaluator) : Prop := ∀ kind o msg, render e kind o = Ok msg → text_ok msg.

Record evaluator_normal (e : Evaluator) : Prop := {
  em_ID : text_ok (md_ID (d_Metadata (e_definition e))); em_Revision : text_ok (e_revision e); em_render : renders_text e }.

(** What every event of an evaluation shares. *)
Definition announced_for (o : Observation) (now : time) (ev : Event) : Prop :=
  event_normal ev ∧ ev_At ev = now ∧ ev_Sequence ev = 0 ∧ ev_Fields ev = o_Fields o.

Lemma emit_normal e key o now s kind reason ev :
  evaluator_normal e → observation_normal o → text_ok key → text_ok kind → text_ok reason →
  emit e key o now s kind reason = Ok ev →
  announced_for o now ev ∧ ev_WatchID ev = md_ID (d_Metadata (e_definition e)) ∧ ev_Revision ev = e_revision e.
Proof.
  intros [E1 E2 E3] (_ & Hf & _ & _)%observation_normal_inv Hkey Hkind Hreason. unfold emit. cbv zeta. rewrite Hf. intros H.
  apply bind_Ok in H as (msg & Hm & [= <-]). split; [|done]. split; [|done].
  split; cbn; try done; [apply Revision_ok|].
  destruct (_ && _); [by eapply E3|by injection Hm as <-].
Qed.

Lemma kinds_ok : Forall text_ok (["firing"; "recovered"; "changed"; "new-event"; "gap"; "source_error"; "source_recovered"] ++ reasons)%list.
Proof. repeat constructor; by apply ascii_ok. Qed.

Lemma kind_ok k : k ∈ ["firing"; "recovered"; "changed"; "new-event"; "gap"; "source_error"; "source_recovered"] → text_ok k.
Proof. pose proof kinds_ok as H. apply Forall_app in H as [H _]. rewrite list.Forall_forall in H. apply H. Qed.

Lemma reason_ok o r : observation_normal o → reason_of o r → text_ok r.
Proof.
  intros (_ & _ & _ & Hd)%observation_normal_inv [->|Hr].
  - unfold DetailOrDefault. destruct (negb _); [done|by apply ascii_ok].
  - pose proof kinds_ok as H. apply Forall_app in H as [_ H]. rewrite list.Forall_forall in H. auto.
Qed.

Lemma Evaluate_events_normal e s o now tr :
  evaluator_normal e → observation_normal o → text_ok (Entity s) → Entity s ≠ "" → Evaluate e s o now = Ok tr →
  Forall (fun ev => announced_for o now ev ∧ ev_WatchID ev = md_ID (d_Metadata (e_definition e)) ∧ ev_Revision ev = e_revision e) (tr_Events tr).
Proof.
  intros He Ho Hk Hne (key & Hs & Hkey & _)%Evaluate_admitted. rewrite (Hkey Hne) in Hs. clear key Hkey.
  set (Q := fun ev => announced_for o now ev ∧ ev_WatchID ev = md_ID (d_Metadata (e_definition e)) ∧ ev_Revision ev = e_revision e).
  apply (steps_invariant e (Entity s) o now (fun x => Forall Q x.2) _ _) in Hs; [done| |constructor].
  clear Hs. intros [s1 e1] [s2 e2] M HF. cbn in *.
  inversion M; subst; try done; apply Forall_app; (split; [done|]); apply Forall_singleton;
    (eapply emit_normal; [done|done|done| | |eassumption]); try (by apply kind_ok; set_solver); try by apply ascii_ok.
  - by eapply reason_ok.
  - match goal with H : signal_operator _ = true |- _ => destruct (signal_operator_true _ H) as [->| ->] end; by apply ascii_ok.
  - match goal with H : signal_operator _ = true |- _ => destruct (signal_operator_true _ H) as [->| ->] end; by apply ascii_ok.
Qed.

(** The entity of a state does not change. *)
Lemma Evaluate_Entity e s o now tr : Evaluate e s o now = Ok tr → Entity s ≠ "" → Entity (tr_State tr) = Entity s.
Proof.
  intros (key & Hs & Hkey & _)%Evaluate_admitted Hne. rewrite (Hkey Hne) in Hs.
  apply (steps_invariant e (Entity s) o now (fun x => Entity x.1 = Entity s) _ _) in Hs; [done| |done].
  assert (Hr : ∀ x, Entity (count_recovery o x) = Entity x) by (intros x; unfold count_recovery; by destruct (_ =? _)).
  assert (Hm : ∀ x, Entity (count_match e o x) = Entity x) by (intros x; unfold count_match; by destruct (_ <? _)).
  clear -Hr Hm. intros [s1 e1] [s2 e2] M H. cbn in *. inversion M; subst; cbn; try done.
  - by destruct (clock_fields e s1 now) as (_ & _ & _ & _ & ->).
  - pose proof (predicate_core e o now s1). unfold core in *. congruence.
  - by rewrite Hm.
  - by rewrite Hr.
  - by rewrite Hr.
Qed.

(** ** Stored values *)

(** A template all of whose output is well-formed text. *)
Definition writes_text (t : template) : Prop := ∀ ctx buf, write_all (fst (t ctx)) "" = Ok buf → text_ok buf.

Definition state_ok (key : string) (s : State) : Prop := copy_state s = Some s ∧ Entity s = key ∧ key ≠ "".

Lemma state_ok_text key s : state_ok key s → text_ok key.
Proof.
  intros (H & <- & _). apply text_ok_sanitize. unfold copy_state in H.
  do 7 (apply bind_Some in H as (? & _ & H)). injection H as H. exact (f_equal Entity H).
Qed.

Lemma copy_seen_lookup m m' k t : copy_seen m = Some m' → m' !! k = Some t → sanitize k = k ∧ copy_time t = Some t.
Proof.
  unfold copy_seen. destruct (mapM _ _) as [l|] eqn:E; [|done]. intros [= <-] H%elem_of_list_to_map_2.
  rewrite elem_of_reverse in H. apply mapM_Some_1 in E. apply list_elem_of_lookup_1 in H as (i & Hi).
  destruct (Forall2_lookup_r _ _ _ _ _ E Hi) as ([k0 t0] & _ & Hkt). cbn in Hkt.
  destruct (copy_time t0) as [t1|] eqn:Et; [|done]. injection Hkt as <- <-. split; [apply sanitize_idem|by eapply copy_time_idem].
Qed.

Lemma copy_seen_singleton m k t : copy_seen m = Some m → m !! k = Some t → copy_seen {[k := t]} = Some {[k := t]}.
Proof.
  intros Hm Hk. destruct (copy_seen_lookup _ _ _ _ Hm Hk) as [Hs Ht]. unfold copy_seen, sorted_fields. rewrite map_to_list_singleton.
  cbn. rewrite Ht, Hs. cbn. by rewrite insert_empty.
Qed.

(** A state keeps being a copy when its seen-set is reduced to one entry. *)
Lemma copy_state_pruned s id :
  copy_state s = Some s →
  let kept := match Seen s !! id with Some expiry => {[id := expiry]} | None => ∅ end in
  copy_state (s <| Seen := kept |>) = Some (s <| Seen := kept |>).
Proof.
  intros H kept. unfold copy_state in H |- *.
  apply bind_Some in H as (t1 & H1 & H). apply bind_Some in H as (t2 & H2 & H). apply bind_Some in H as (t3 & H3 & H).
  apply bind_Some in H as (sm & H4 & H). apply bind_Some in H as (t5 & H5 & H). apply bind_Some in H as (t6 & H6 & H).
  apply bind_Some in H as (se & H7 & H). injection H as H.
  assert (Hseen : copy_seen (Seen s) = Some (Seen s)) by (rewrite H7; f_equal; exact (f_equal Seen H)).
  assert (Hk : copy_seen kept = Some kept).
  { unfold kept. destruct (Seen s !! id) as [x|] eqn:E; [by eapply copy_seen_singleton|done]. }
  cbn -[copy_seen]. rewrite H1, H2, H3, H4, H5, H6. cbn [mbind option_bind]. rewrite Hk. cbn [mbind option_bind].
  f_equal. rewrite <- H at 14. by destruct s; cbn in *; injection H; intros; subst.
Qed.

Section Stored.
Context `{L : Libraries}.

(** A definition row: what compiling it gives again. *)
Definition stored_definition (id revision : string) (d : Definition_) : Prop :=
  (∃ c, compile d = Ok c ∧ cp_Definition c = d ∧ cp_Revision c = revision ∧ md_ID (d_Metadata d) = id) ∧
  (∀ t, parse_template (sp_Message (d_Spec d)) = Ok t → writes_text t).

(** [App.Evidence] succeeds for the event, whatever sequence it was given. *)
Definition evidence_for (d : Definition_) (e : Event) (c : Checkpoint) : Prop :=
  ∀ n, let p := {| pf_Definition := d; pf_Event := with_sequence e n; pf_Checkpoint := Some c |} in
  Verify p = Ok tt ∧ ∃ x, Explain p = Ok x.

Lemma New_built d revision e :
  New parse_template d revision = Ok e →
  copy_definition d = Some (e_definition e) ∧ e_revision e = revision ∧ parse_template (sp_Message (d_Spec d)) = Ok (e_message e) ∧
  (c_Numeric (sp_Condition (d_Spec d)) ≟ "" = false → ∃ x, ParseExpression (c_Numeric (sp_Condition (d_Spec d))) = Ok x).
Proof.
  unfold New. intros H. apply bind_Ok in H as (def & Hd & H). apply fail_if_bind in H as [_ H]. apply fail_if_bind in H as [_ H].
  apply bind_Ok in H as ([x m] & Hx & H). apply bind_Ok in H as (msg & Hm & [= <-]). cbn.
  destruct (copy_definition d); [|done]. injection Hd as <-. split_and!; try done.
  intros Hn. unfold condition_of in Hx. rewrite Hn in Hx. res_inv. eauto.
Qed.

Lemma header_identifier version kind m want : header version kind m want = Ok tt → identifier (md_ID m) = true.
Proof. unfold header. intros H. apply fail_if_bind in H as [_ H]. apply fail_if_bind in H as [H _]. by destruct (identifier _). Qed.

Lemma header_id version kind d d1 def want :
  header version kind (d_Metadata d) want = Ok tt → copy_definition d = Some d1 → d_Metadata def = d_Metadata d1 → text_ok (md_ID (d_Metadata def)).
Proof.
  intros Hh%header_identifier Hc ->. unfold copy_definition in Hc. apply bind_Some in Hc as (sp & _ & [= <-]). cbn. apply text_ok_copy.
Qed.

Lemma stored_evaluator id revision d e :
  stored_definition id revision d → New parse_template d revision = Ok e →
  evaluator_normal e ∧ e_definition e = d ∧ e_revision e = revision ∧ md_ID (d_Metadata d) = id.
Proof.
  intros [(c & Hc & Hd & Hr & Hid) Ht] (Hcopy & Hrev & Hm & _)%New_built.
  pose proof (Compile_copied _ _ _ _ _ _ Hc) as Hcp. rewrite Hd, Hcopy in Hcp. injection Hcp as Hcp.
  split_and!; try done. unfold compile in Hc. apply Compile_inv in Hc as (d1 & Hh & Hd1 & _ & Hdef & Hrv & _). split.
  - rewrite Hcp. eapply header_id; [exact Hh|exact Hd1|]. by rewrite <- Hd, Hdef.
  - rewrite Hrev, <- Hr. unfold revision_of in Hrv. destruct (definition_json _); [|done]. injection Hrv as <-. apply Revision_ok.
  - intros kind o msg. unfold render. destruct (e_message e _) as [chunks err] eqn:E.
    destruct (write_all chunks "") as [buf|] eqn:Ew; [|done]. destruct err; [done|]. intros H. apply fail_if_bind in H as [_ [= <-]].
    match type of E with e_message e ?x = _ => apply (Ht _ Hm x) end. by rewrite E.
Qed.

(** ** Verifying one event *)

Lemma reproduces_in expected ev l :
  Forall (fun x => is_Some (event_record_json (with_sequence x 0))) l → ev ∈ l →
  event_record_json (with_sequence ev 0) = Some expected → reproduces expected l = Ok tt.
Proof.
  intros Hl Hin He. induction Hl as [|x l [t Ht] _ IH]; [by apply not_elem_of_nil in Hin|]. cbn. rewrite Ht.
  destruct (decide (t = expected)) as [->|Hne]; [by rewrite bool_decide_eq_true_2|]. rewrite bool_decide_eq_false_2 by done.
  apply IH. apply elem_of_cons in Hin as [->|]; [congruence|done].
Qed.

Lemma Verify_intro id revision d e c evs ev n :
  stored_definition id revision d → New parse_template d revision = Ok e → replayed e c = Ok evs →
  Forall (fun x => is_Some (event_record_json (with_sequence x 0))) evs → ev ∈ evs → ev_WatchID ev = id → ev_Revision ev = revision →
  Verify {| pf_Definition := d; pf_Event := with_sequence ev n; pf_Checkpoint := Some c |} = Ok tt.
Proof.
  intros [(cp & Hc & Hd & Hr & Hid) _] He Hev Hj Hin Hw Hrev. unfold Verify. cbn [pf_Checkpoint pf_Definition pf_Event]. rewrite Hc.
  cbn [mbind result_bind]. cbn [with_sequence ev_Revision ev_WatchID]. rewrite Hd, Hr, Hid, Hw, Hrev.
  rewrite !bool_decide_eq_true_2 by done. cbn [negb orb fail_if mbind result_bind]. rewrite He. cbn [mbind result_bind]. rewrite Hev.
  cbn [mbind result_bind]. change (with_sequence (with_sequence ev n) 0) with (with_sequence ev 0).
  rewrite list.Forall_forall in Hj. destruct (Hj ev Hin) as [t Ht]. rewrite Ht.
  eapply reproduces_in; [by apply list.Forall_forall|exact Hin|exact Ht].
Qed.

Lemma Explain_intro id revision d e c tr n ev :
  stored_definition id revision d → New parse_template d revision = Ok e →
  (ck_SourceRecovered c = false → Evaluate e (ck_Prior c) (ck_Input c) (o_AcceptedAt (ck_Input c)) = Ok tr) →
  ∃ x, Explain {| pf_Definition := d; pf_Event := with_sequence ev n; pf_Checkpoint := Some c |} = Ok x.
Proof.
  intros [(cp & Hc & Hd & Hr & Hid) _] He Hev. unfold Explain. cbn [pf_Checkpoint pf_Definition].
  destruct (ck_SourceRecovered c); [eauto|]. rewrite Hc. cbn [mbind result_bind]. rewrite Hd, Hr, He. cbn [mbind result_bind].
  rewrite Hev by done. cbn [mbind result_bind]. apply New_built in He as (_ & _ & _ & Hx).
  destruct (c_Numeric (sp_Condition (d_Spec d)) ≟ ""); [cbn; eauto|]. destruct (Hx eq_refl) as [x ->]. cbn. eauto.
Qed.

(** What is stored with a row of the watch. *)
Definition installable (r : WatchRecord) (e : Evaluator) : Prop :=
  stored_definition (r_ID r) (r_Revision r) (r_Definition r) ∧ New parse_template (r_Definition r) (r_Revision r) = Ok e.

Lemma announced_json o now l :
  observation_normal o → o_AcceptedAt o = now → Forall (announced_for o now) l →
  Forall (fun x => is_Some (event_record_json (with_sequence x 0))) l.
Proof.
  intros (Hy & Hf & _ & _)%observation_normal_inv <- Hl. eapply list.Forall_impl; [exact Hl|]. intros ev (_ & Ha & _ & Hfs).
  apply event_record_json_some; [by rewrite Ha|]. rewrite Hfs. by eapply copy_fields_Marshal.
Qed.

(** The checkpoint kept with an event is its own copy, and replaying it gives
    the events of the evaluation. *)
Lemma prune_replays r e key s o now tr ev c :
  installable r e → state_ok key s → observation_normal o → Evaluate e s o now = Ok tr → ev ∈ tr_Events tr →
  copy_checkpoint (prune_seen r ev now {| ck_Prior := s; ck_Input := o; ck_SourceRecovered := false |}) = Some c →
  ck_SourceRecovered c = false ∧ ∃ tr', Evaluate e (ck_Prior c) (ck_Input c) (o_AcceptedAt (ck_Input c)) = Ok tr' ∧ tr_Events tr' = tr_Events tr.
Proof.
  intros [Hd He] (Hs & _) Ho Hev Hin. destruct (stored_evaluator _ _ _ _ Hd He) as (_ & Hdef & _).
  pose proof (Evaluate_admitted _ _ _ _ _ Hev) as (_ & _ & _ & _ & _ & Hnow).
  unfold prune_seen. cbn [ck_Prior ck_Input ck_SourceRecovered].
  destruct (((_ ≟ "new-event") && (_ ≟ "new-event")) && _) eqn:Hp.
  - apply andb_true_iff in Hp as [[Hop%bool_decide_eq_true_1 Hty%bool_decide_eq_true_1]%andb_true_iff _].
    set (id := text_field (o_Fields o) (c_Field (sp_Condition (r_Spec r)))). unfold copy_checkpoint. cbn [ck_Prior ck_Input ck_SourceRecovered].
    rewrite (copy_state_pruned s id Hs), Ho. intros [= <-]. cbn. split; [done|].
    assert (Ec : econd e = sp_Condition (r_Spec r)) by (unfold econd; by rewrite Hdef).
    assert (H : tr_Events <$> Evaluate e (reseen (match Seen s !! id with Some expiry => {[id := expiry]} | None => ∅ end) s) o now = Ok (tr_Events tr)).
    { eapply Evaluate_pruned; [by rewrite Ec| |exact Hty|exact Hev|exact Hin].
      intros v Hv. rewrite Ec in Hv. unfold id, text_field. rewrite Hv. unfold event_identity. destruct v; auto. destruct (_ || _); auto. }
    rewrite Hnow. apply fmap_Ok in H as (tr' & H & Ht). exists tr'. split; [exact H|done].
  - unfold copy_checkpoint. cbn [ck_Prior ck_Input ck_SourceRecovered]. rewrite Hs, Ho. intros [= <-]. cbn. rewrite Hnow. eauto.
Qed.

Lemma evaluated_evidence r e key s o now tr ev c :
  installable r e → state_ok key s → observation_normal o → Evaluate e s o now = Ok tr → ev ∈ tr_Events tr →
  copy_checkpoint (prune_seen r ev now {| ck_Prior := s; ck_Input := o; ck_SourceRecovered := false |}) = Some c →
  evidence_for (r_Definition r) ev c.
Proof.
  intros Hi Hs Ho Hev Hin Hc. destruct (prune_replays _ _ _ _ _ _ _ _ _ Hi Hs Ho Hev Hin Hc) as (Hsr & tr' & Hev' & Htr).
  destruct Hi as [Hd He]. destruct (stored_evaluator _ _ _ _ Hd He) as (Hn & Hdef & Hrev & Hid).
  pose proof (Evaluate_admitted _ _ _ _ _ Hev) as (_ & _ & _ & _ & _ & Hnow).
  assert (Hne : Entity s ≠ "") by (destruct Hs as (_ & -> & ?); done).
  pose proof (Evaluate_events_normal _ _ _ _ _ Hn Ho ltac:(destruct Hs as (? & -> & ?); by eapply state_ok_text) Hne Hev) as Hall.
  pose proof (proj1 (list.Forall_forall _ _) Hall ev Hin) as (_ & Hw & Hr). intros n. split; [|eapply (Explain_intro _ _ _ _ _ tr'); eauto].
  eapply (Verify_intro _ _ _ _ _ (tr_Events tr)); [exact Hd|exact He| | |exact Hin| |].
  - unfold replayed. rewrite Hsr, Hev'. cbn. by rewrite Htr.
  - eapply announced_json; [exact Ho|exact Hnow|]. eapply list.Forall_impl; [exact Hall|]. by intros x [? _].
  - rewrite Hw, Hdef. by rewrite Hid.
  - by rewrite Hr.
Qed.

(** ** The recovery of a source *)

Lemma Route_clear e existing o keys :
  Route e existing o = Ok (keys, true) → SourceEntity ∈ existing ∧ ∃ k ks, keys = k :: ks ∧ Route e [SourceEntity] o = Ok (keys, true).
Proof.
  unfold Route. cbv zeta. destruct ((o_Health o ≟ "timer") && _); [done|]. destruct (o_Health o ≟ "ok").
  - destruct (match_fields e o); [|done]. intros H. apply bind_Ok in H as (k & Hk & H). injection H as <- Hb.
    split; [by apply bool_decide_eq_true_1 in Hb|]. exists k, []. rewrite Hk. done.
  - destruct existing as [|x existing]; [|done]. destruct (sp_GroupBy _); [|done]. intros H. by apply bind_Ok in H as (k & _ & ?).
Qed.

Lemma SourceRecovered_normal e o : evaluator_normal e → event_normal (SourceRecovered e o).
Proof. intros [H1 H2 _]. split; cbn; try done; try (by apply ascii_ok). apply Revision_ok. Qed.

Lemma recovered_evidence r e s o now existing keys c :
  installable r e → state_ok SourceEntity s → SourceUnhealthy s = true → observation_normal o → Route e existing o = Ok (keys, true) →
  copy_checkpoint (prune_seen r (SourceRecovered e o) now {| ck_Prior := s; ck_Input := o; ck_SourceRecovered := true |}) = Some c →
  evidence_for (r_Definition r) (SourceRecovered e o) c.
Proof.
  intros [Hd He] (Hs & Hent & _) Hu Ho (_ & k & ks & -> & Hroute)%Route_clear. destruct (stored_evaluator _ _ _ _ Hd He) as (Hn & Hdef & Hrev & Hid).
  unfold prune_seen. cbn [SourceRecovered ev_Type]. rewrite (bool_decide_eq_false_2 ("source_recovered" = "new-event")) by done.
  rewrite andb_false_r. cbn [andb]. cbv iota. unfold copy_checkpoint. cbn [ck_Prior ck_Input ck_SourceRecovered]. rewrite Hs, Ho. intros [= <-] n.
  destruct (observation_normal_inv _ Ho) as (Hy & _).
  split; [|eapply (Explain_intro _ _ _ e _ {| Known := false; Matched := false; Reason := ""; tr_State := s; tr_Events := [] |}); [exact Hd|exact He|done]].
  eapply (Verify_intro _ _ _ _ _ [SourceRecovered e o]); [exact Hd|exact He| | |by left| |].
  - unfold replayed. cbn [ck_SourceRecovered ck_Prior ck_Input]. rewrite Hent, Hu, Hroute, bool_decide_eq_true_2 by done. done.
  - apply Forall_singleton, event_record_json_some; [done|]. by eexists.
  - cbn. by rewrite Hdef.
  - done.
Qed.
End Stored.
