(* ===== verification/RuntimeSteps.v ===== *)
(** * What every step of the runtime respects

    A relation on tables that the primitive writes respect is respected by every
    operation built from them, and by every operation of a run.  [RowSteps] are
    the writes of an evaluation; [TableSteps] adds those that replace watches
    and receipts, [HistorySteps] those that remove history. *)
From S2P Require Import Prelude GoText Watch Plan Evaluator Outbox OutboxFacts PushReceipts Records Access Render Acceptance Lifecycle Maintenance Apply Handoff Runtime TxLogic.

(** A preorder that the writes of an evaluation respect. *)
Class RowSteps (R : relation db) := {
  steps_preorder :: PreOrder R;
  steps_AppendObservation id revision g o : respects R (AppendObservation id revision g o);
  steps_SaveCheckpoint id g a b c : respects R (SaveCheckpoint id g a b c);
  steps_SetLastError id g detail next : respects R (SetLastError id g detail next);
  steps_SaveTimer t : respects R (SaveTimer t);
  steps_DeleteTimer t : respects R (DeleteTimer t);
  steps_DeleteTimers id : respects R (DeleteTimers id);
  steps_push (d : db) t :
    (∀ id, is_Some (pt_last t !! id) → is_Some (pt_last (db_push d) !! id) ∨ is_Some (db_watches d !! id)) → R d (d <| db_push := t |>);
  steps_outbox (d : db) o : R d (d <| db_outbox := step (db_outbox d) o |>);
  steps_maintenance (d : db) c : R d (d <| db_maintenance := c |>);
  steps_AppendEvent e : respects R (AppendEvent e);
  steps_SaveReplay id c : respects R (SaveReplay id c);
  steps_saveEntityData id key revision s now : respects R (saveEntityData id key revision s now);
  steps_DeleteEntity id key : respects R (DeleteEntity id key);
  steps_RevisionState id revision g : respects R (RevisionState id revision g) }.

(** A preorder that the writes of an acceptance respect. *)
Class InputSteps (R : relation db) := {
  steps_rows :: RowSteps R;
  steps_SaveReceipt id g i f l x : respects R (SaveReceipt id g i f l x) }.

(** A preorder that every primitive write but purging respects. *)
Class TableSteps `{L : Libraries} (R : relation db) := {
  steps_inputs :: InputSteps R;
  steps_SaveDestination c now : respects R (SaveDestination c now);
  steps_ResetState id : respects R (ResetState id);
  steps_SaveHandoff h : respects R (SaveHandoff h);
  steps_SaveWatch r now lifetime : respects R (SaveWatch r now lifetime) }.

(** A preorder that the retention of history respects. *)
Class RetentionSteps (R : relation db) := {
  retained_preorder :: PreOrder R;
  retained_pushes now limit : respects R (RetainPushes now limit);
  retained_backoff now limit : respects R (RetainBackoff now limit);
  retained_intents cutoff limit : respects R (RetainOutbox cutoff limit);
  retained_streams limit : respects R (RetainStreams limit);
  retained_cursors (d : db) m : R d (d <| db_cursors := m |>);
  retained_receipts now limit : respects R (RetainReceipts now limit);
  retained_family f l : f ∈ retentionFamilies → respects R (rf_delete f l);
  retained_logs id l : respects R (rf_delete (logs_family id) l) }.

(** A preorder that every write respects. *)
Class HistorySteps `{L : Libraries} (R : relation db) := {
  steps_tables :: TableSteps R;
  steps_PurgeWatch id : respects R (PurgeWatch id);
  steps_retention :: RetentionSteps R }.

Section Rows.
Context `{L : Libraries} (R : relation db) `{HR : !RowSteps R}.
Context (limits : Budgets) (jitter : duration) (storage : db → Z) (range : gmap string State → list (string * State)) (approved : list string).

#[local] Hint Resolve steps_AppendObservation steps_SaveCheckpoint steps_SetLastError steps_SaveTimer steps_DeleteTimer steps_DeleteTimers
  steps_AppendEvent steps_SaveReplay steps_saveEntityData steps_DeleteEntity steps_RevisionState : tx.

(** ** Receipts, intents and entities *)

Lemma CountPushReceipts_steps now : respects R (CountPushReceipts now).
Proof.
  intros d a d'. unfold CountPushReceipts, on_push. destruct (PushReceiptCount _ _ _) as [[t x]|] eqn:E; [|done]. intros [= <- <-].
  apply steps_push. apply PushReceiptCount_last in E as ->. by left.
Qed.
Lemma EnqueueIntent_steps i : respects R (EnqueueIntent i).
Proof.
  intros d a d'. unfold EnqueueIntent. pose proof (steps_outbox d (OEnqueue i)) as H. cbn [step] in H.
  destruct (Enqueue i (db_outbox d)) as [[t x]|]; [|done]. by intros [= <- <-].
Qed.
Lemma CancelPending_steps id now : respects R (CancelPending id now).
Proof. apply respects_modify. intros d. apply (steps_outbox d (OCancel id now)). Qed.
#[local] Hint Resolve EnqueueIntent_steps CancelPending_steps CountPushReceipts_steps : tx.
Lemma SavePush_steps a b c d r e f : respects R (SavePush a b c d r e f).
Proof.
  intros d0 x d' H. unfold SavePush, on_push in H. tx_inv. destruct (SavePushReceipt _ _ _ _ _ _ _ _ _) as [t|] eqn:E; [|done]. injection H as <- <-.
  apply SavePushReceipt_last in E as [Hk [y Hy]]. apply steps_push. intros id. rewrite Hy. intros [z [[<- _]|[_ Hz]]%lookup_insert_Some]; [right|left; eauto].
  by apply bool_decide_eq_true_1 in Hk.
Qed.
Lemma SaveEntity_steps id key revision s now : respects R (SaveEntity id key revision s now).
Proof. unfold SaveEntity. respects_tac. Qed.
Lemma GetWatch_steps id : respects R (GetWatch id).
Proof. unfold GetWatch. respects_tac. Qed.
Lemma AppendObservations_steps id revision g l : respects R (AppendObservations id revision g l).
Proof. induction l as [|o l IH]; cbn [AppendObservations]; respects_tac. Qed.
#[local] Hint Resolve SavePush_steps SaveEntity_steps GetWatch_steps AppendObservations_steps : tx.

(** ** Events *)

Lemma enqueue_target_steps r e now t : respects R (enqueue_target limits r e now t).
Proof. unfold enqueue_target, GetDestination. respects_tac. Qed.
#[local] Hint Resolve enqueue_target_steps : tx.
Lemma appendEvaluated_steps r now c e : respects R (appendEvaluated limits r now c e).
Proof. unfold appendEvaluated, appendEvent. respects_tac. Qed.
Lemma lifecycleEvent_steps r kind reason now : respects R (lifecycleEvent r kind reason now).
Proof. unfold lifecycleEvent. respects_tac. Qed.
Lemma armInitial_steps r now : respects R (armInitial r now).
Proof. unfold armInitial. respects_tac. Qed.
#[local] Hint Resolve appendEvaluated_steps lifecycleEvent_steps armInitial_steps : tx.

(** ** Accepting a batch *)

Lemma flush_steps id revision now c : respects R (flush id revision now c).
Proof. unfold flush, SaveEntities. respects_tac. Qed.
Lemma load_steps id key c : respects R (load id key c).
Proof. unfold load, GetEntity. respects_tac. Qed.
#[local] Hint Resolve flush_steps load_steps : tx.
Lemma evaluate_key_steps current e now o key c : respects R (evaluate_key limits current e now o key c).
Proof. unfold evaluate_key, Acceptance.count, EntityCount, arm_missing. respects_tac. Qed.
#[local] Hint Resolve evaluate_key_steps : tx.
Lemma evaluate_keys_steps current e now o keys c : respects R (evaluate_keys limits current e now o keys c).
Proof. revert c. induction keys as [|key keys IH]; intros c; cbn [evaluate_keys]; [apply respects_ret; exact _|]. apply respects_bind; [exact _|apply evaluate_key_steps|apply IH]. Qed.
Lemma route_steps current now e o c : respects R (route (r_ID current) (r_Revision current) now e o c).
Proof. unfold route, read_all, GetEntities. respects_tac. Qed.
Lemma clear_source_steps current e now o c : respects R (clear_source limits current e now o c).
Proof. unfold clear_source. respects_tac. Qed.
#[local] Hint Resolve evaluate_keys_steps route_steps clear_source_steps : tx.
Lemma evaluate_all_steps current e now l c : respects R (evaluate_all limits current e now l c).
Proof.
  revert c. induction l as [|o l IH]; intros c; cbn [evaluate_all]; [apply respects_ret; exact _|]. apply respects_bind; [exact _| |apply IH].
  unfold evaluate_observation, when_clear. respects_tac.
Qed.
#[local] Hint Resolve evaluate_all_steps : tx.

Lemma take_timer_steps r b now : respects R (take_timer r b now).
Proof.
  unfold take_timer. destruct (is_timer b); [|apply respects_ret; exact _]. intros d a d' H.
  destruct (GetTimer _ _ _ d) as [[t d1]|] eqn:E; [|done]. unfold GetTimer in E. tx_inv.
  destruct (rows _ _ !! _); [|done]. tx_inv. by eapply steps_DeleteTimer.
Qed.
Lemma admit_push_steps record current p now : respects R (admit_push record current p now).
Proof. unfold admit_push, GetPushReceipt. respects_tac. Qed.
#[local] Hint Resolve take_timer_steps : tx.
Lemma record_batch_steps current e b input now : respects R (record_batch limits jitter storage current e b input now).
Proof. unfold record_batch, evaluate_batch, preload, EntitySubset, check_size, Pending. respects_tac. Qed.

(** ** Rearming entities *)

Lemma resume_entity_steps r e now kv : respects R (resume_entity limits r e now kv).
Proof. destruct kv. unfold resume_entity. respects_tac. Qed.
Lemma shift_entity_steps r e now kv : respects R (shift_entity limits r e now kv).
Proof. destruct kv. unfold shift_entity. respects_tac. Qed.
#[local] Hint Resolve resume_entity_steps shift_entity_steps : tx.
Lemma resume_all_steps r now : respects R (resume_all limits range r now).
Proof.
  unfold resume_all, GetEntities. apply respects_bind; [exact _|apply respects_gets; exact _|intros].
  apply respects_bind; [exact _|apply respects_lift; exact _|intros].
  apply respects_bind; [exact _|apply respects_for_each; [exact _|intros; apply resume_entity_steps]|intros].
  apply respects_unless; [exact _|apply armInitial_steps].
Qed.

(** ** Maintaining entities *)

Lemma NextMaintenanceEntities_steps limit : respects R (NextMaintenanceEntities limit).
Proof. unfold NextMaintenanceEntities. respects_tac. apply respects_modify. intros d. apply steps_maintenance. Qed.
#[local] Hint Resolve NextMaintenanceEntities_steps : tx.
Lemma maintain_one_steps now e : respects R (maintain_one now e).
Proof. unfold maintain_one, maintainEntity. respects_tac. Qed.
#[local] Hint Resolve maintain_one_steps : tx.
Lemma maintain_page_steps now : respects R (maintain_page now).
Proof. unfold maintain_page. respects_tac. Qed.

(** ** Checks of a request *)

Lemma Require_steps ctx action : respects R (Require_ ctx action).
Proof. unfold Require_. respects_tac. Qed.
Lemma authorizeBundle_steps ctx b : respects R (authorizeBundle approved ctx b).
Proof. unfold authorizeBundle, authorize_destination, authorize_watch, find_watch, find_destination. respects_tac. Qed.
Lemma checkHandoffHold_steps id owner : respects R (checkHandoffHold id owner).
Proof. unfold checkHandoffHold, HandoffHold. respects_tac. Qed.
Lemma check_target_steps available t : respects R (check_target available t).
Proof. unfold check_target. respects_tac. Qed.
End Rows.

(** ** Accepting a batch *)

Section Inputs.
Context `{L : Libraries} (R : relation db) `{HR : !InputSteps R} (limits : Budgets) (jitter : duration) (storage : db → Z).

#[local] Hint Resolve steps_rows steps_SaveReceipt SavePush_steps GetWatch_steps take_timer_steps admit_push_steps record_batch_steps : tx.

Lemma save_receipt_steps r push input first last n now later :
  respects R (save_receipt limits storage r push input first last n now later).
Proof. unfold save_receipt. respects_tac. Qed.
#[local] Hint Resolve save_receipt_steps : tx.

Lemma accept_tx_steps record e b input push closing now later : respects R (accept_tx limits jitter storage record e b input push closing now later).
Proof. unfold accept_tx, GetReceipt. respects_tac. Qed.

Lemma acceptPush_steps record b input push closing now later d :
  R d (fst (acceptPush limits jitter storage record b input push closing now later d)).
Proof.
  unfold acceptPush. destruct closing; [reflexivity|]. destruct (check_input record b input) as [e|]; [|reflexivity].
  unfold Update at 1. destruct (accept_tx _ _ _ _ _ _ _ _ _ _ _ d) as [[x d']|] eqn:E; cbn [fst]; [by eapply accept_tx_steps|].
  destruct (_ && _); cbn [fst]; [|reflexivity]. apply (respects_update R), steps_SetLastError.
Qed.

Lemma run_timers_steps closing now l d : R d (fst (run_timers limits jitter storage closing now l d)).
Proof.
  revert d. induction l as [|t l IH]; intros d; cbn [run_timers]; [reflexivity|].
  destruct (View (GetWatch (tm_WatchID t)) d) as [r|]; [|reflexivity].
  pose proof (acceptPush_steps r (timer_batch t) (timer_input t) None closing now now d) as H.
  destruct (acceptPush _ _ _ _ _ _ _ _ _ _ d) as [d1 [|e]]; [by etrans|]. destruct (e ≟ ErrStale); [by etrans|done].
Qed.
End Inputs.

(** ** Transfers *)

(** The steps of a transfer that write no other table than its rows. *)
Section Transfers.
Context `{L : Libraries} (R : relation db) `{!PreOrder R} (Hsave : ∀ h, respects R (SaveHandoff h)) (instance : string).
#[local] Hint Resolve Hsave : tx.

Lemma authorizeHandoff_steps ctx granted : respects R (authorizeHandoff ctx granted).
Proof. unfold authorizeHandoff, Require_. respects_tac. Qed.
Lemma GetDestination_steps id revision : respects R (GetDestination id revision).
Proof. unfold GetDestination. respects_tac. Qed.
#[local] Hint Resolve authorizeHandoff_steps GetDestination_steps : tx.
Lemma current_revisions_steps l m : respects R (current_revisions l m).
Proof. revert m. induction l; intros m; cbn [current_revisions]; respects_tac. Qed.
#[local] Hint Resolve current_revisions_steps : tx.
Lemma begin_handoff_steps ctx granted h check : respects R check → respects R (begin_handoff ctx granted h check).
Proof. intros. unfold begin_handoff, find_handoff. respects_tac. Qed.
Lemma finish_handoff_steps h now : respects R (finish_handoff instance h now).
Proof. unfold finish_handoff, GetWatch. respects_tac. Qed.
Lemma check_prepare_steps q b w : respects R (check_prepare q b w).
Proof. unfold check_prepare, check_return, check_replaced, find_destination, GetHandoff, GetWatch. respects_tac. Qed.
Lemma healthyForHandoff_steps r now : respects R (healthyForHandoff r now).
Proof. unfold healthyForHandoff, PendingForWatch, GetEntities. respects_tac. Qed.
#[local] Hint Resolve healthyForHandoff_steps : tx.
Lemma check_pause_steps q now : respects R (check_pause q now).
Proof. unfold check_pause, check_paused_target, GetWatch. respects_tac. Qed.

Lemma ReleaseHandoff_steps ctx granted id target : respects R (ReleaseHandoff ctx granted id target).
Proof. unfold ReleaseHandoff, GetHandoff. respects_tac. Qed.
Lemma begin_probe_steps ctx granted id key digest now : respects R (begin_probe ctx granted id key digest now).
Proof. unfold begin_probe, GetHandoff. respects_tac. Qed.
Lemma finish_probe_steps ctx granted id key digest outcome : respects R (finish_probe ctx granted id key digest outcome).
Proof. unfold finish_probe, GetHandoff. respects_tac. Qed.

Lemma prepare_begin_steps ctx granted q b p later : respects R (mu_begin (prepare_mutation instance ctx granted q b p later)).
Proof. apply begin_handoff_steps, check_prepare_steps. Qed.
Lemma pause_begin_steps ctx granted q checked later : respects R (mu_begin (pause_mutation instance ctx granted q checked later)).
Proof. apply begin_handoff_steps, check_pause_steps. Qed.
Lemma handoff_finish_steps ctx granted h check now : respects R (mu_finish (handoffMutation instance ctx granted h check now)).
Proof. apply finish_handoff_steps. Qed.
End Transfers.

Section Steps.
Context `{L : Libraries} (R : relation db) `{HR : !TableSteps R}.
Context (limits : Budgets) (jitter : duration) (storage : db → Z) (range : gmap string State → list (string * State)).
Context (instance : string) (approved : list string).

#[local] Hint Resolve steps_inputs steps_rows steps_SaveHandoff steps_SaveReceipt steps_SaveDestination steps_ResetState steps_SaveWatch steps_RevisionState steps_DeleteTimers SavePush_steps
  GetWatch_steps take_timer_steps admit_push_steps record_batch_steps CancelPending_steps lifecycleEvent_steps armInitial_steps resume_all_steps
  shift_entity_steps Require_steps authorizeBundle_steps checkHandoffHold_steps check_target_steps : tx.

(** ** Applying a bundle *)

Lemma apply_destinations_steps dry now l : respects R (apply_destinations dry now l).
Proof. induction l; cbn [apply_destinations]; [apply respects_ret; exact _|]. unfold apply_destination. respects_tac. Qed.
Lemma install_steps lifetimes record existing reset state now : respects R (install lifetimes record existing reset state now).
Proof. unfold install. respects_tac. Qed.
#[local] Hint Resolve apply_destinations_steps install_steps : tx.
Lemma apply_watches_steps lifetimes q owner available now l n : respects R (apply_watches limits lifetimes q owner available now l n).
Proof.
  revert n. induction l as [|p l IH]; intros n; cbn [apply_watches]; [apply respects_ret; exact _|]. apply respects_bind; [exact _| |intros [change n']; respects_tac].
  unfold apply_watch, planned, find_watch. respects_tac.
Qed.
#[local] Hint Resolve apply_watches_steps : tx.
Lemma apply_core_steps lifetimes oversized owner q b closing now :
  respects R (apply_core limits storage instance lifetimes oversized owner q b closing now).
Proof. unfold apply_core, live_watches, captureReview, check_destinations. respects_tac. Qed.
#[local] Hint Resolve apply_core_steps : tx.
Lemma apply_tx_steps lifetimes oversized ctx m q b closing now :
  respects R (mu_begin m) → respects R (mu_finish m) →
  respects R (apply_tx limits storage instance approved lifetimes oversized ctx m q b closing now).
Proof. intros. unfold apply_tx. respects_tac. Qed.

(** The manifest compiled, the review asks for nothing: the transaction runs. *)
Lemma apply_effect lifetimes m q b ctx closing now d :
  let after := fst (apply limits storage instance approved lifetimes (len (aq_Manifest q)) (fun _ => Ok b) (fun _ => Ok tt) (fun _ => false) ctx m q closing now d) in
  after = d ∨ after = fst (Update (apply_tx limits storage instance approved lifetimes (fun _ => false) ctx m q b closing now) d).
Proof.
  cbv zeta. unfold apply. cbv zeta. destruct (fail_if _ _ ;; _) as [b'|] eqn:E; [|by left].
  assert (b' = b) as ->.
  { apply fail_if_bind in E as [_ E]. apply fail_if_bind in E as [_ E]. cbn in E. apply bind_Ok in E as ([] & _ & [= <-]). done. }
  destruct (aq_DryRun q); [by left|by right].
Qed.

(** ** Transfers *)

Lemma authorizeHandoff_rows ctx granted : respects R (authorizeHandoff ctx granted).
Proof. apply authorizeHandoff_steps. exact _. Qed.
Lemma GetDestination_rows id revision : respects R (GetDestination id revision).
Proof. apply GetDestination_steps. exact _. Qed.
#[local] Hint Resolve authorizeHandoff_rows GetDestination_rows : tx.
Lemma ActivateHandoff_steps ctx granted id source closing lifetime next saved armed at_ :
  respects R (ActivateHandoff ctx granted id source closing lifetime next saved armed at_).
Proof. unfold ActivateHandoff, activate_target, GetHandoff, unchanged_destination. respects_tac. Qed.
Lemma CancelPreparedHandoff_steps ctx granted id lifetime now : respects R (CancelPreparedHandoff ctx granted id lifetime now).
Proof. unfold CancelPreparedHandoff, cancel_target, restore_original, GetHandoff. respects_tac. Qed.
(** The target was prepared, or nothing happened. *)
Lemma prepare_effect lifetimes ctx granted q b closing now later d :
  let after := fst (PrepareHandoff limits storage instance approved false lifetimes (len (hp_Manifest q)) (fun _ => Ok b) (fun _ => Ok tt) (fun _ => false)
                      ctx granted q closing now later d) in
  after = d ∨ ∃ p, transferred false b = Ok p ∧
    after = fst (Update (apply_tx limits storage instance approved lifetimes (fun _ => false) ctx (prepare_mutation instance ctx granted q b p later)
                   (prepare_request q) b closing now) d).
Proof.
  cbv zeta. unfold PrepareHandoff. cbv zeta. destruct (fail_if _ _ ;; _) as [[b' p]|] eqn:E; [|by left].
  apply fail_if_bind in E as [_ E]. cbn in E. apply bind_Ok in E as (p' & Hp & [= <- <-]).
  pose proof (apply_effect lifetimes (prepare_mutation instance ctx granted q b p' later) (prepare_request q) b ctx closing now d) as H. cbv zeta in H.
  change (aq_Manifest (prepare_request q)) with (hp_Manifest q) in H. destruct (apply _ _ _ _ _ _ _ _ _ _ _ _ _ _ d) as [d1 [x|e]]; cbn [fst] in *.
  all: destruct H as [->| ->]; [by left|right; eauto].
Qed.
(** ** Lifecycle *)

Lemma shift_watch_steps now lifetimes r : respects R (shift_watch limits range now lifetimes r).
Proof.
  unfold shift_watch, GetEntities. destruct (negb _); [apply respects_ret; exact _|].
  apply respects_bind; [exact _|apply steps_SaveWatch|intros]. apply respects_bind; [exact _|apply steps_DeleteTimers|intros].
  apply respects_bind; [exact _|apply respects_gets; exact _|intros]. apply respects_bind; [exact _|apply respects_lift; exact _|intros].
  apply respects_bind; [exact _|apply respects_for_each; [exact _|intros; apply shift_entity_steps; exact _]|intros].
  apply respects_bind; [exact _|apply respects_unless; [exact _|apply armInitial_steps; exact _]|intros]. apply lifecycleEvent_steps. exact _.
Qed.
#[local] Hint Resolve shift_watch_steps : tx.
Lemma change_status_steps r status action lifetime now : respects R (change_status limits range r status action lifetime now).
Proof. unfold change_status. respects_tac. Qed.
Lemma clockShift_steps lifetimes now : respects R (clockShift limits range lifetimes now).
Proof. unfold clockShift, GetWatches. respects_tac. Qed.

End Steps.

(** ** Retention *)

(** A page holds rows of what was sorted. *)
Lemma elem_of_first {A : Type} (R : A → A → Prop) `{!RelDecision R} n (l : list A) x : x ∈ take n (merge_sort R l) → x ∈ l.
Proof. intros Hx. rewrite <- (merge_sort_Permutation R l), <- (take_drop n). apply elem_of_app. by left. Qed.
Lemma remaining_old f cutoff cursor limit d c :
  c ∈ take limit (remaining f cutoff cursor d) → c ∈ rf_rows f d ∧ cu_At c < cutoff ∧ sweep_compare f cursor c = Lt.
Proof. by intros [[] ?]%elem_of_first%list_elem_of_filter. Qed.

(** The deletions outside the swept families write the outbox and the pushes. *)
Section Direct.
Context (R : relation db) `{!PreOrder R} (Hpush : ∀ (d : db) t, pt_last t = pt_last (db_push d) → R d (d <| db_push := t |>)) (Houtbox : ∀ (d : db) t, R d (d <| db_outbox := t |>)).

Lemma RetainPushes_steps now limit : respects R (RetainPushes now limit).
Proof.
  unfold RetainPushes. apply respects_bind; [exact _|apply respects_gets; exact _|]. intros l d y d'. unfold on_push.
  destruct (RetainPush _ _ _) as [t|] eqn:E; [|done]. intros [= <- <-]. apply Hpush. by eapply delete_all_last.
Qed.
Lemma RetainBackoff_steps now limit : respects R (RetainBackoff now limit).
Proof. unfold RetainBackoff. respects_tac. apply respects_modify. intros d. apply Houtbox. Qed.
Lemma RetainOutbox_steps cutoff limit : respects R (RetainOutbox cutoff limit).
Proof. unfold RetainOutbox. respects_tac. apply respects_modify. intros d. apply Houtbox. Qed.
Lemma RetainStreams_steps limit : respects R (RetainStreams limit).
Proof. unfold RetainStreams. respects_tac. apply respects_modify. intros d. apply Houtbox. Qed.
End Direct.

Section Sweep.
Context (R : relation db) `{!PreOrder R} (Hcursors : ∀ (d : db) m, R d (d <| db_cursors := m |>)).

(** A sweep reads a page of old rows, deletes among them and moves its cursor. *)
Lemma scanRetentionFamily_steps f pass cutoff limit :
  (∀ l, respects R (rf_delete f l)) → respects R (scanRetentionFamily f pass cutoff limit).
Proof. intros Hf. unfold scanRetentionFamily. respects_tac. apply respects_modify. intros d. apply Hcursors. Qed.

Lemma total_progress_steps {A : Type} (f : A → tx Z) l : (∀ a, a ∈ l → respects R (f a)) → respects R (total_progress f l).
Proof.
  induction l as [|a l IH]; intros H; cbn [total_progress]; [apply respects_ret; exact _|].
  apply respects_bind; [exact _|apply H; by left|intros]. apply respects_bind; [exact _|apply IH; intros; apply H; by right|intros]. apply respects_ret; exact _.
Qed.
End Sweep.

Section Retention.
Context (R : relation db) `{HR : !RetentionSteps R}.

Lemma RetainBatch_steps cutoff now limit pass : respects R (RetainBatch cutoff now limit pass).
Proof.
  unfold RetainBatch. apply respects_bind; [exact _|apply respects_reject; exact _|intros]. cbv zeta.
  apply respects_bind; [exact _|apply retained_receipts|intros]. apply respects_bind; [exact _|apply retained_pushes|intros].
  apply respects_bind; [exact _|apply retained_backoff|intros]. apply respects_bind; [exact _|apply retained_intents|intros].
  apply respects_bind; [exact _|apply total_progress_steps; [exact _|]; intros f Hf; apply scanRetentionFamily_steps; [exact _|apply retained_cursors|]; intros; by apply retained_family|intros].
  apply respects_bind; [exact _|apply retained_streams|intros]. apply respects_ret; exact _.
Qed.

Lemma RetainLogSummariesBatch_steps id cutoff limit pass : respects R (RetainLogSummariesBatch id cutoff limit pass).
Proof.
  unfold RetainLogSummariesBatch. apply respects_bind; [exact _|apply respects_reject; exact _|intros].
  apply scanRetentionFamily_steps; [exact _|apply retained_cursors|]. intros. apply retained_logs.
Qed.

End Retention.

Section History.
Context `{L : Libraries} (R : relation db) `{HR : !HistorySteps R}.
Context (limits : Budgets) (jitter : duration) (storage : db → Z) (range : gmap string State → list (string * State)).
Context (instance : string) (approved : list string).

Lemma lifecycle_core_steps ctx owner id q closing lifetime now :
  respects R (lifecycle_core limits range approved ctx owner id q closing lifetime now).
Proof.
  unfold lifecycle_core. pose proof (steps_tables (R := R)) as HT. pose proof (steps_rows (R := R)) as HRows.
  pose proof (checkHandoffHold_steps R id owner). pose proof (GetWatch_steps R id).
  assert (∀ b, respects R (authorizeBundle approved ctx b)) by (intros; by apply authorizeBundle_steps).
  assert (respects R (PurgeWatch id)) by apply steps_PurgeWatch. assert (respects R (CancelPending id now)) by by apply CancelPending_steps.
  assert (∀ r status action, respects R (change_status limits range r status action lifetime now)) by (intros; by apply change_status_steps).
  respects_tac.
Qed.
Lemma lifecycle_steps ctx m id q closing lifetime now :
  respects R (mu_begin m) → respects R (mu_finish m) → respects R (lifecycle limits range approved ctx m id q closing lifetime now).
Proof.
  intros. unfold lifecycle. pose proof (Require_steps R ctx "manage"). pose proof (lifecycle_core_steps ctx (mu_owner m) id q closing lifetime now).
  respects_tac.
Qed.
Lemma PauseForHandoff_steps ctx granted q closing lifetime now checked later d :
  R d (fst (PauseForHandoff limits range instance approved ctx granted q closing lifetime now checked later d)).
Proof.
  unfold PauseForHandoff. destruct (_ || _); [reflexivity|]. cbv zeta.
  match goal with |- context [Update ?t d] => assert (H : R d (fst (Update t d))); [|by destruct (Update t d) as [? []]] end.
  apply (respects_update R), lifecycle_steps; [apply pause_begin_steps|apply finish_handoff_steps]; try exact _; apply steps_SaveHandoff.
Qed.

(** Every operation of a run. *)
Lemma perform_steps o d : R d (perform limits jitter storage range instance approved o d).
Proof.
  destruct o as [ctx q b closing lts now|record b input push closing now later|ctx id q closing lt now|lts now|closing now|now|now pass|id cutoff pass|now lease token|i r next now|id now|ctx granted q b closing lts now later|ctx granted q closing lt now checked later|ctx granted id source closing lt next saved armed at_|ctx granted id lt now|ctx granted id target|ctx granted id key digest now|ctx granted id key digest outcome].
  - cbn [perform]. destruct (apply_effect limits storage instance approved lts noMutation q b ctx closing now d) as [->| ->]; [reflexivity|].
    apply (respects_update R), apply_tx_steps; [exact _|apply respects_ret; exact _..].
  - apply (acceptPush_steps R).
  - apply (respects_update R), lifecycle_steps; apply respects_ret; exact _.
  - apply (respects_update R), clockShift_steps. exact _.
  - cbn [perform]. unfold RunTimers. destruct (View _ d); [apply (run_timers_steps R)|reflexivity].
  - apply (respects_update R), maintain_page_steps. exact _.
  - apply (respects_update R), RetainBatch_steps. exact _.
  - apply (respects_update R), RetainLogSummariesBatch_steps. exact _.
  - pose proof (steps_outbox (R := R) d (OClaim now lease token)) as H. cbn [perform step] in *. destruct (Claim _ _ _ _) as [[t x]|]; [done|reflexivity].
  - pose proof (steps_outbox (R := R) d (OFinish i r next now)) as H. cbn [perform step] in *. destruct (Finish _ _ _ _ _) as [t|]; [done|reflexivity].
  - pose proof (steps_outbox (R := R) d (ORetry id now)) as H. cbn [perform step] in *. destruct (Outbox.Retry _ _ _) as [t|]; [done|reflexivity].
  - cbn [perform]. destruct (prepare_effect limits storage instance approved lts ctx granted q b closing now later d) as [->|(p & _ & ->)]; [reflexivity|].
    apply (respects_update R), apply_tx_steps; [exact _|apply prepare_begin_steps; [exact _|apply steps_SaveHandoff]|apply finish_handoff_steps; [exact _|apply steps_SaveHandoff]].
  - apply PauseForHandoff_steps.
  - apply (respects_update R), ActivateHandoff_steps. exact _.
  - apply (respects_update R), CancelPreparedHandoff_steps. exact _.
  - apply (respects_update R), ReleaseHandoff_steps; [exact _|apply steps_SaveHandoff].
  - apply (respects_update R), begin_probe_steps; [exact _|apply steps_SaveHandoff].
  - apply (respects_update R), finish_probe_steps; [exact _|apply steps_SaveHandoff].
Qed.

Lemma runtime_run_steps d l : R d (runtime_run limits jitter storage range instance approved d l).
Proof. revert d. induction l as [|o l IH]; intros d; [reflexivity|]. etrans; [apply perform_steps|apply IH]. Qed.
End History.
