(* ===== verification/EvidenceTables.v ===== *)
(** * Evidence through transactions

    The tables hold, at every commit, only definitions that compile to
    themselves, states that survive a JSON copy, and checkpoints that reproduce
    their event; each transaction of the runtime keeps it so. *)
From S2P Require Import Prelude GoText GoTime GoJson Sha256 Watch Plan PlanFacts PlanSpec Evaluator EvaluatorFacts.
From S2P Require Import RecordJson EvidenceFacts Outbox PushReceipts Records Access Render Acceptance Lifecycle Apply Evidence SeenFacts TxLogic.

#[local] Arguments event_id : simpl never.
#[local] Arguments Revision : simpl never.

(** ** What the tables hold *)

Definition lifecycle_kinds : list string := ["pause"; "resume"; "delete"; "clock_discontinuity"; "applied"; "state_reset"; "entity_expired"; "resumed"].

Section Tables.
Context `{L : Libraries}.

(** Timers are armed for entities named by well-formed text. *)
Definition timers_ok (d : db) : Prop := ∀ id k t, rows id (db_timers d) !! k = Some t → text_ok (fst k).

(** [skip] is an event whose checkpoint is about to be stored. *)
Record evident (skip : option string) (d : db) : Prop := {
  ed_revisions id revision v : db_revisions d !! (id, revision) = Some v → stored_definition id revision (v_definition v);
  ed_entities id key s : entities_of id d !! key = Some s → state_ok key s;
  ed_events id y : db_events d !! id = Some y →
    y_watch y = ev_WatchID (y_body y) ∧ is_Some (db_revisions d !! (ev_WatchID (y_body y), ev_Revision (y_body y))) ∧
    (Some id ≠ skip → db_replays d !! id = None → ev_Type (y_body y) ∈ lifecycle_kinds);
  ed_replays id c : db_replays d !! id = Some c →
    ∃ y v, db_events d !! id = Some y ∧ db_revisions d !! (ev_WatchID (y_body y), ev_Revision (y_body y)) = Some v ∧
           evidence_for (v_definition v) (y_body y) c;
  ed_timers : timers_ok d }.

(** The revision of the record is installed, with its definition. *)
Definition present (r : WatchRecord) (d : db) : Prop := evident None d ∧ is_Some (db_revisions d !! (r_ID r, r_Revision r)).
Definition watching (r : WatchRecord) (d : db) : Prop :=
  evident None d ∧ v_definition <$> db_revisions d !! (r_ID r, r_Revision r) = Some (r_Definition r).

Lemma watching_present r d : watching r d → present r d.
Proof. intros [H1 H2]. split; [done|]. destruct (db_revisions d !! _); [eauto|done]. Qed.

Lemma watching_stored r d : watching r d → stored_definition (r_ID r) (r_Revision r) (r_Definition r).
Proof. intros [H1 H2]. destruct (db_revisions d !! _) as [v|] eqn:E; [|done]. injection H2 as <-. by eapply ed_revisions. Qed.

Lemma stored_text id revision d : stored_definition id revision d → text_ok id ∧ text_ok revision.
Proof.
  intros [(c & Hc & Hd & <- & <-) _]. unfold compile in Hc. apply Compile_inv in Hc as (d1 & Hh & _ & _ & _ & Hr & _). split.
  - apply text_ok_sanitize, identifier_copied. by eapply header_identifier.
  - unfold revision_of in Hr. destruct (definition_json _); [|done]. injection Hr as <-. apply Revision_ok.
Qed.

Lemma present_text r d : present r d → text_ok (r_ID r) ∧ text_ok (r_Revision r).
Proof. intros [H [v Hv]]. eapply stored_text, (ed_revisions _ _ H), Hv. Qed.

(** ** Steps on other tables *)

(** The tables that carry evidence are unchanged. *)
Definition same_evidence (d d' : db) : Prop :=
  db_revisions d' = db_revisions d ∧ db_entities d' = db_entities d ∧ db_events d' = db_events d ∧ db_replays d' = db_replays d ∧
  db_purged d' = db_purged d ∧ db_timers d' = db_timers d.

#[global] Instance same_evidence_preorder : PreOrder same_evidence.
Proof.
  split; [by intros d|]. intros a b c (A1 & A2 & A3 & A4 & A5 & A6) (B1 & B2 & B3 & B4 & B5 & B6). unfold same_evidence.
  by rewrite B1, B2, B3, B4, B5, B6.
Qed.

#[global] Instance evident_same skip : Proper (same_evidence ==> impl) (evident skip).
Proof.
  intros d d' (A1 & A2 & A3 & A4 & _ & A6) H. destruct H as [H1 H2 H3 H4 H5].
  split; unfold entities_of, timers_ok in *; rewrite ?A1, ?A2, ?A3, ?A4, ?A6; eauto.
Qed.

Lemma present_same r d d' : same_evidence d d' → present r d → present r d'.
Proof. intros H [H1 H2]. split; [by eapply evident_same|]. destruct H as (-> & _). done. Qed.
Lemma watching_same r d d' : same_evidence d d' → watching r d → watching r d'.
Proof. intros H [H1 H2]. split; [by eapply evident_same|]. destruct H as (-> & _). done. Qed.

Lemma triple_same {A : Type} (P : db → Prop) (t : tx A) :
  respects same_evidence t → (∀ d d', same_evidence d d' → P d → P d') → preserves P t.
Proof. intros Ht HP d a d' Hd E. eauto. Qed.

(** The steps that only touch other tables. *)
Lemma AppendObservation_same id revision generation o : respects same_evidence (AppendObservation id revision generation o).
Proof. unfold AppendObservation. respects_tac. by apply respects_modify. Qed.
#[local] Hint Resolve AppendObservation_same : tx.
Lemma AppendObservations_same id revision generation l : respects same_evidence (AppendObservations id revision generation l).
Proof. induction l; cbn [AppendObservations]; respects_tac. Qed.
Lemma SaveCheckpoint_same id g a b c : respects same_evidence (SaveCheckpoint id g a b c).
Proof. unfold SaveCheckpoint. respects_tac. by apply respects_modify. Qed.
Lemma SetLastError_same id g a b : respects same_evidence (SetLastError id g a b).
Proof. apply respects_modify. intros d. destruct (db_watches d !! id); [|done]. by destruct (_ && _). Qed.
Lemma SaveReceipt_same id g i f l x : respects same_evidence (SaveReceipt id g i f l x).
Proof. unfold SaveReceipt. respects_tac. by apply respects_modify. Qed.
Lemma on_push_same {A : Type} (f : push_tables → result (push_tables * A)) : respects same_evidence (on_push f).
Proof. intros d a d'. unfold on_push. destruct (f (db_push d)) as [[t x]|]; [|done]. by intros [= <- <-]. Qed.
Lemma SavePush_same a b c d r e f : respects same_evidence (SavePush a b c d r e f).
Proof. unfold SavePush. respects_tac. apply on_push_same. Qed.
Lemma EnqueueIntent_same i : respects same_evidence (EnqueueIntent i).
Proof. intros d a d'. unfold EnqueueIntent. destruct (Enqueue i (db_outbox d)) as [[t x]|]; [|done]. by intros [= <- <-]. Qed.
Lemma CancelPending_same id now : respects same_evidence (CancelPending id now).
Proof. by apply respects_modify. Qed.
End Tables.

#[export] Hint Resolve AppendObservation_same AppendObservations_same SaveCheckpoint_same SetLastError_same
  SaveReceipt_same SavePush_same EnqueueIntent_same CancelPending_same : tx.
#[export] Hint Extern 1 (respects same_evidence (CountPushReceipts _)) => apply on_push_same : tx.

(** ** Events and checkpoints *)

Section Events.
Context `{L : Libraries} (limits : Budgets).

Lemma insert_evidence_same id l : respects same_evidence (insert_evidence id l).
Proof. induction l; cbn [insert_evidence]; respects_tac. by apply respects_modify. Qed.

(** A stored event whose checkpoint is missing yet. *)
Definition announced (e : Event) (d : db) : Prop :=
  evident (Some (ev_ID e)) d ∧ ∃ y, db_events d !! ev_ID e = Some y ∧ y_body y = e.

Lemma AppendEvent_inv e d n d' :
  AppendEvent e d = Ok (n, d') → ∃ body dm, copy_event e = Some body ∧ db_events d !! ev_ID e = None ∧
    is_Some (db_revisions d !! (ev_WatchID e, ev_Revision e)) ∧ same_evidence dm d' ∧
    same_evidence (d <| db_events := <[ev_ID e := {| y_sequence := n; y_watch := ev_WatchID e; y_body := body |}]> (db_events d) |>) dm.
Proof.
  unfold AppendEvent. intros H. tx_inv. eexists _, _. split; [eassumption|].
  match goal with H : _ || _ = false |- _ => apply orb_false_iff in H as [Ht Hk] end.
  apply bool_decide_eq_false_1 in Ht. apply negb_false_iff in Hk. unfold known_revision in Hk. apply bool_decide_eq_true_1 in Hk.
  split; [by apply eq_None_not_Some|]. split; [done|]. split; [by eapply insert_evidence_same|]. done.
Qed.

Lemma AppendEvent_announced e : event_normal e → triple (evident None) (AppendEvent e) (fun _ => announced e).
Proof.
  intros He d n d' Hd H. destruct (AppendEvent_inv _ _ _ _ H) as (body & dm & Hb & Hnew & Hrev & H1 & H2).
  destruct (copy_event_normal _ _ He Hb) as [-> _].
  destruct (transitivity H2 H1) as (E1 & E2 & E3 & E4 & _ & E6). cbn in *. destruct Hd as [D1 D2 D3 D4 D5]. split.
  - split; unfold entities_of, timers_ok in *; rewrite ?E1, ?E2, ?E3, ?E4, ?E6; try done.
    + intros id y. destruct (decide (id = ev_ID e)) as [->|Hne].
      * rewrite lookup_insert_eq. intros [= <-]. cbn. done.
      * rewrite lookup_insert_ne by done. intros Hy. destruct (D3 _ _ Hy) as (A & B & C). split_and!; try done. intros _. by apply C.
    + intros id c Hc. destruct (D4 _ _ Hc) as (y & v & Hy & ?). exists y, v. rewrite lookup_insert_ne by congruence. done.
  - rewrite E3, lookup_insert_eq. eauto.
Qed.

Lemma SaveReplay_evident e c (def : Definition_) :
  (∀ c', copy_checkpoint c = Some c' → evidence_for def e c') →
  triple (fun d => announced e d ∧ v_definition <$> db_revisions d !! (ev_WatchID e, ev_Revision e) = Some def)
    (SaveReplay (ev_ID e) c) (fun _ d => evident None d).
Proof.
  intros Hc d a d' [[[D1 D2 D3 D4 D5] (y & Hy & <-)] Hv] H. unfold SaveReplay in H. tx_inv.
  destruct (db_revisions d !! _) as [v|] eqn:Ev; [|done]. injection Hv as <-.
  split; unfold entities_of in *; cbn; try done.
  - intros id y' Hy'. destruct (D3 _ _ Hy') as (A & B & C). split_and!; try done. intros _ Hn.
    destruct (decide (id = ev_ID (y_body y))) as [->|Hne]; [by rewrite lookup_insert_eq in Hn|].
    rewrite lookup_insert_ne in Hn by done. apply C; [congruence|done].
  - intros id c'. destruct (decide (id = ev_ID (y_body y))) as [->|Hne].
    + rewrite lookup_insert_eq. intros [= <-]. exists y, v. auto.
    + rewrite lookup_insert_ne by done. apply D4.
Qed.

Lemma announced_same e d d' : same_evidence d d' → announced e d → announced e d'.
Proof. intros H [H1 H2]. split; [by eapply evident_same|]. by destruct H as (_ & _ & -> & _). Qed.

Lemma enqueue_target_same r e now t : respects same_evidence (enqueue_target limits r e now t).
Proof. unfold enqueue_target, GetDestination. respects_tac. Qed.

Lemma AppendEvent_revisions e d n d' : AppendEvent e d = Ok (n, d') → db_revisions d' = db_revisions d.
Proof.
  intros (body & dm & _ & _ & _ & H1 & H2)%AppendEvent_inv. by destruct (transitivity H2 H1) as (E & _).
Qed.

Lemma appendEvaluated_watching r now c e :
  event_normal e → ev_WatchID e = r_ID r → ev_Revision e = r_Revision r →
  (∀ c', copy_checkpoint (prune_seen r e now c) = Some c' → evidence_for (r_Definition r) e c') →
  preserves (watching r) (appendEvaluated limits r now c e).
Proof.
  intros He Hw Hr Hc d a d' [Hd Hdef] H. unfold appendEvaluated, appendEvent in H. tx_inv.
  match goal with
  | H1 : AppendEvent e d = Ok (?n, ?d0), H2 : for_each _ _ ?d0 = Ok (_, ?d1), H3 : SaveReplay _ _ ?d1 = Ok _ |- _ =>
      pose proof (AppendEvent_announced e He d n d0 Hd H1) as Ha; pose proof (AppendEvent_revisions _ _ _ _ H1) as Hrev;
      assert (Hs : same_evidence d0 d1)
        by (eapply respects_for_each; [exact _|intros t; apply enqueue_target_same|exact H2]);
      rename H3 into Hsave
  end.
  pose proof (announced_same _ _ _ Hs Ha) as Ha'. destruct Hs as (Hs & _).
  assert (Hdef' : v_definition <$> db_revisions x0 !! (ev_WatchID e, ev_Revision e) = Some (r_Definition r)) by (by rewrite Hs, Hrev, Hw, Hr).
  split; [by eapply (SaveReplay_evident e _ _ Hc); [split; [exact Ha'|exact Hdef']|exact Hsave]|].
  unfold SaveReplay in Hsave. tx_inv. cbn. by rewrite <- Hw, <- Hr.
Qed.

(** Events without a checkpoint. *)
Lemma AppendEvent_administrative e : event_normal e → ev_Type e ∈ lifecycle_kinds → preserves (evident None) (AppendEvent e).
Proof.
  intros He Hk d n d' Hd H. destruct (AppendEvent_announced e He _ _ _ Hd H) as [[D1 D2 D3 D4 D5] (y & Hy & Hb)]. split; try done.
  intros id y' Hy'. destruct (D3 _ _ Hy') as (A & B & C). split_and!; try done. intros _ Hn.
  destruct (decide (id = ev_ID e)) as [->|Hne]; [|apply C; [congruence|done]].
  rewrite Hy in Hy'. injection Hy' as <-. by rewrite Hb.
Qed.

Lemma lifecycleEvent_present r kind reason now :
  kind ∈ lifecycle_kinds → ascii_text reason = true → preserves (present r) (lifecycleEvent r kind reason now).
Proof.
  intros Hk Hreason d a d' Hp H. unfold lifecycleEvent in H. tx_inv.
  match goal with H1 : AppendEvent ?e d = Ok (?n, _), H2 : revision_of _ = Ok ?x |- _ => set (ev := e) in *; rename H1 into Ha, H2 into Hid end.
  assert (text_ok kind) as Hkt.
  { apply ascii_ok. revert Hk. clear. unfold lifecycle_kinds. intros Hk. repeat (apply elem_of_cons in Hk as [->|Hk]; [done|]). by apply not_elem_of_nil in Hk. }
  assert (He : event_normal ev).
  { destruct (present_text _ _ Hp). split; cbn; try done; [|by apply ascii_ok..].
    unfold revision_of in Hid. destruct (lifecycle_json r kind now); [|done]. injection Hid as <-. apply Revision_ok. }
  destruct Hp as [Hd Hr]. split; [by eapply (AppendEvent_administrative ev He)|]. by rewrite (AppendEvent_revisions _ _ _ _ Ha).
Qed.
End Events.

(** ** Entities *)

Section Entities.
Context `{L : Libraries}.

(** Definitions are unchanged, and the tables stay evident. *)
Definition keeps (d d' : db) : Prop := (evident None d → evident None d') ∧ db_revisions d' = db_revisions d.

#[global] Instance keeps_preorder : PreOrder keeps.
Proof. split; [by intros d|]. intros a b c [A1 A2] [B1 B2]. split; [auto|]. by rewrite B2. Qed.

Lemma same_keeps {A : Type} (t : tx A) : respects same_evidence t → respects keeps t.
Proof. intros H d a d' E. apply H in E. split; [by apply evident_same|by destruct E as (-> & _)]. Qed.

Lemma present_keeps r d d' : keeps d d' → present r d → present r d'.
Proof. intros [H1 H2] [P1 P2]. split; [auto|by rewrite H2]. Qed.
Lemma watching_keeps r d d' : keeps d d' → watching r d → watching r d'.
Proof. intros [H1 H2] [P1 P2]. split; [auto|by rewrite H2]. Qed.

Lemma triple_keeps {A : Type} r (t : tx A) : respects keeps t → preserves (watching r) t.
Proof. intros Ht d a d' Hd E. eapply watching_keeps; [by eapply Ht|done]. Qed.
Lemma triple_keeps_present {A : Type} r (t : tx A) : respects keeps t → preserves (present r) t.
Proof. intros Ht d a d' Hd E. eapply present_keeps; [by eapply Ht|done]. Qed.

Lemma administrative_keeps e : event_normal e → ev_Type e ∈ lifecycle_kinds → respects keeps (AppendEvent e).
Proof. intros He Hk d n d' H. split; [intros Hd; by eapply AppendEvent_administrative|by eapply AppendEvent_revisions]. Qed.

(** Rewriting the entities of one watch by states that are copies. *)
Lemma evident_entities skip d d' :
  db_revisions d' = db_revisions d → db_events d' = db_events d → db_replays d' = db_replays d →
  (∀ id key s, entities_of id d' !! key = Some s → entities_of id d !! key = Some s ∨ state_ok key s) → (timers_ok d → timers_ok d') →
  evident skip d → evident skip d'.
Proof.
  intros E1 E2 E3 He Ht [D1 D2 D3 D4 D5]. split; rewrite ?E1, ?E2, ?E3; try done; [|auto].
  intros id key s Hs. destruct (He _ _ _ Hs) as [?|?]; eauto.
Qed.

Lemma entities_put id key row d id' k s :
  entities_of id' (d <| db_entities := put id key row (db_entities d) |>) !! k = Some s →
  entities_of id' d !! k = Some s ∨ (k = key ∧ s = n_state row).
Proof.
  unfold entities_of, rows, put, rows. cbn. rewrite !lookup_fmap. destruct (decide (id' = id)) as [->|Hne].
  - rewrite lookup_insert_eq. cbn. destruct (decide (k = key)) as [->|Hk].
    + rewrite lookup_insert_eq. intros [= <-]. auto.
    + rewrite lookup_insert_ne by done. auto.
  - rewrite lookup_insert_ne by done. auto.
Qed.

Lemma saveEntityData_keeps id key revision s now : state_ok key s → respects keeps (saveEntityData id key revision s now).
Proof.
  intros Hs d a d' H. unfold saveEntityData, syncEntityPins in H. tx_inv. split; [|done].
  apply evident_entities; try done. intros id' k s' Hk.
  destruct (entities_put id key (mkEntityRow revision s (timestamp now)) d id' k s' Hk) as [?|[-> ->]]; auto.
Qed.

Lemma SaveEntity_keeps id key revision s now :
  Entity s = key → key ≠ "" → text_ok key → respects keeps (SaveEntity id key revision s now).
Proof.
  intros He Hne Ht d a d' H. unfold SaveEntity in H. tx_inv. eapply saveEntityData_keeps; [|eassumption].
  split_and!; [by eapply copy_state_idem| |done].
  match goal with H : copy_state s = Some _ |- _ => unfold copy_state in H; do 7 (apply bind_Some in H as (? & _ & H)); injection H as <- end.
  cbn. by apply text_ok_sanitize.
Qed.

Lemma for_each_keeps {A : Type} (R : relation db) `{!PreOrder R} (f : A → tx unit) l : (∀ a, a ∈ l → respects R (f a)) → respects R (for_each f l).
Proof.
  induction l as [|a l IH]; intros H; cbn [for_each]; [apply respects_ret; exact _|].
  apply respects_bind; [exact _|apply H; by left|]. intros _. apply IH. intros b Hb. apply H. by right.
Qed.

Lemma SaveEntities_keeps id revision m now :
  (∀ key s, m !! key = Some s → state_ok key s) → respects keeps (SaveEntities id revision m now).
Proof.
  intros Hm. unfold SaveEntities. apply for_each_keeps; [exact _|]. intros [key s] Hin. apply saveEntityData_keeps. apply Hm.
  cbn. apply elem_of_map_to_list. by rewrite <- (sorted_fields_perm m).
Qed.

Lemma DeleteEntity_keeps id key : respects keeps (DeleteEntity id key).
Proof.
  apply respects_modify. intros d. split; [|done]. apply evident_entities; try done. intros id' k s. left. revert H.
  unfold entities_of, rows, drop_row, rows. cbn. rewrite !lookup_fmap. destruct (decide (id' = id)) as [->|Hne].
  - rewrite lookup_insert_eq. cbn. destruct (decide (k = key)) as [->|Hk]; [by rewrite lookup_delete_eq|by rewrite lookup_delete_ne].
  - by rewrite lookup_insert_ne.
Qed.

(** Timers of a watch rewritten, deleted or armed. *)
Lemma timers_delete id d m : db_timers m = delete id (db_timers d) → timers_ok d → timers_ok m.
Proof.
  intros E H i k t. rewrite E. unfold rows. destruct (decide (i = id)) as [->|Hi]; [rewrite lookup_delete_eq|rewrite lookup_delete_ne by done; apply H].
  cbn. by rewrite lookup_empty.
Qed.
Lemma timers_set id m d d' :
  db_timers d' = <[id := m]> (db_timers d) → (∀ k t, m !! k = Some t → is_Some (rows id (db_timers d) !! k) ∨ text_ok (fst k)) →
  timers_ok d → timers_ok d'.
Proof.
  intros E Hm H i k t. rewrite E. unfold rows. destruct (decide (i = id)) as [->|Hi]; [rewrite lookup_insert_eq|rewrite lookup_insert_ne by done; apply H].
  cbn. intros Ht. destruct (Hm _ _ Ht) as [[t' Ht']|?]; [by eapply H|done].
Qed.
Lemma timers_keeps d d' :
  db_revisions d' = db_revisions d → db_events d' = db_events d → db_replays d' = db_replays d → db_entities d' = db_entities d →
  (timers_ok d → timers_ok d') → keeps d d'.
Proof. intros E1 E2 E3 E4 Ht. split; [|done]. apply evident_entities; try done. intros id key s. unfold entities_of. rewrite E4. auto. Qed.

Lemma SaveTimer_keeps t : text_ok (tm_Entity t) → respects keeps (SaveTimer t).
Proof.
  intros Ht. unfold SaveTimer. respects_tac. apply respects_modify. intros d. apply timers_keeps; try done. eapply timers_set; [done|].
  intros k x Hx. destruct (decide (k = (tm_Entity t, tm_Kind t))) as [->|Hk]; [by right|]. rewrite lookup_insert_ne in Hx by done. left. eauto.
Qed.
Lemma DeleteTimer_keeps t : respects keeps (DeleteTimer t).
Proof.
  apply respects_modify. intros d. destruct (rows _ _ !! _) as [k|]; [|reflexivity]. destruct (_ && _); [|reflexivity].
  apply timers_keeps; try done. eapply timers_set; [done|]. intros x y Hy. apply lookup_delete_Some in Hy as [_ Hy]. left. eauto.
Qed.
Lemma DeleteTimers_keeps id : respects keeps (DeleteTimers id).
Proof. apply respects_modify. intros d. apply timers_keeps; try done. by eapply timers_delete. Qed.

Lemma ResetState_keeps id : respects keeps (ResetState id).
Proof.
  apply respects_modify. intros d. split; [|done]. apply evident_entities; try done; [|by eapply timers_delete]. intros id' k s. left. revert H.
  unfold entities_of, rows. cbn. rewrite !lookup_fmap. destruct (decide (id' = id)) as [->|Hne].
  - rewrite lookup_delete_eq. done.
  - by rewrite lookup_delete_ne.
Qed.

Lemma RevisionState_keeps id revision generation : respects keeps (RevisionState id revision generation).
Proof.
  unfold RevisionState. respects_tac. apply respects_modify. intros d. split; [|done]. apply evident_entities; try done.
  2: { eapply timers_set; [done|]. intros k t Ht. rewrite lookup_fmap in Ht. left. by destruct (rows id (db_timers d) !! k); [eauto|]. }
  intros id' k s. left. revert H. unfold entities_of, rows. cbn. rewrite !lookup_fmap. destruct (decide (id' = id)) as [->|Hne].
  - rewrite lookup_insert_eq. cbn. rewrite lookup_fmap. by destruct (default ∅ (db_entities d !! id) !! k).
  - by rewrite lookup_insert_ne.
Qed.
End Entities.
