(* ===== verification/EvidenceAccept.v ===== *)
(** * Acceptance keeps the evidence

    Evaluating a batch through the entity cache stores, with every event, a
    checkpoint that reproduces it. *)
From S2P Require Import Prelude GoText GoTime GoJson Watch Plan Evaluator EvaluatorFacts.
From S2P Require Import RecordJson EvidenceFacts Outbox PushReceipts Records Render Acceptance Lifecycle Evidence TxLogic EvidenceTables.

#[local] Arguments event_id : simpl never.
#[local] Arguments Revision : simpl never.

(** ** Results of a transaction on an installed watch *)

Section Via.
Context `{L : Libraries} (r : WatchRecord).

(** [t] keeps the tables evident and [r] installed, and its result satisfies [Q]. *)
Definition via {A : Type} (t : tx A) (Q : A → Prop) : Prop := triple (watching r) t (fun a d => watching r d ∧ Q a).

Lemma via_ret {A : Type} (a : A) (Q : A → Prop) : Q a → via (mret a) Q.
Proof. intros H. apply triple_ret. auto. Qed.
Lemma via_bind {A B : Type} (m : tx A) (f : A → tx B) P Q : via m P → (∀ a, P a → via (f a) Q) → via (m ≫= f) Q.
Proof. intros Hm Hf. eapply triple_bind; [exact Hm|]. intros a d b d' [Hd Ha]. by apply Hf. Qed.
Lemma via_keeps {A : Type} (t : tx A) : respects keeps t → via t (fun _ => True).
Proof. intros H d a d' Hd E. split; [by eapply triple_keeps|done]. Qed.
Lemma via_same {A : Type} (t : tx A) : respects same_evidence t → via t (fun _ => True).
Proof. intros H. by apply via_keeps, same_keeps. Qed.
Lemma via_gets {A : Type} (f : db → A) (Q : A → Prop) : (∀ d, watching r d → Q (f d)) → via (gets f) Q.
Proof. intros H. apply triple_gets. auto. Qed.
Lemma via_lift {A : Type} (x : result A) (Q : A → Prop) : (∀ a, x = Ok a → Q a) → via (lift x) Q.
Proof. intros H. apply triple_lift. auto. Qed.
Lemma via_encoded {A : Type} (x : option A) (Q : A → Prop) : (∀ a, x = Some a → Q a) → via (encoded x) Q.
Proof. intros H. apply triple_encoded. auto. Qed.
Lemma via_reject b e : via (reject b e) (fun _ => b = false).
Proof. apply triple_reject. auto. Qed.
Lemma via_fail {A : Type} e (Q : A → Prop) : via (fail e) Q.
Proof. apply triple_fail. Qed.
Lemma via_weaken {A : Type} (t : tx A) (P Q : A → Prop) : via t P → (∀ a, P a → Q a) → via t Q.
Proof. intros H HQ. eapply triple_conseq; [exact H|done|]. intros a d [? ?]. auto. Qed.
Lemma via_unless b t : via t (fun _ => True) → via (unless b t) (fun _ => True).
Proof. intros H. destruct b; [by apply via_ret|done]. Qed.
Lemma via_for_each {A : Type} (f : A → tx unit) l : (∀ a, a ∈ l → via (f a) (fun _ => True)) → via (for_each f l) (fun _ => True).
Proof.
  induction l as [|a l IH]; intros H; cbn [for_each]; [by apply via_ret|].
  eapply via_bind; [apply H; by left|]. intros _ _. apply IH. intros b Hb. apply H. by right.
Qed.
Lemma via_preserves (t : tx unit) : preserves (watching r) t → via t (fun _ => True).
Proof. intros H d a d' Hd E. split; [by eapply H|done]. Qed.
End Via.

(** ** Keys *)

Definition good_key (key : string) : Prop := text_ok key ∧ key ≠ "".

Lemma EntityKey_good groupBy fs key : EntityKey groupBy fs = Ok key → good_key key.
Proof. apply EntityKey_ok. Qed.

Lemma state_ok_good key s : state_ok key s → good_key key.
Proof. intros H. split; [by eapply state_ok_text|by destruct H as (_ & _ & ?)]. Qed.

Lemma Route_keys e existing o keys clear :
  observation_normal o → Forall good_key existing → Route e existing o = Ok (keys, clear) → Forall good_key keys.
Proof.
  intros (_ & _ & Hent & _)%observation_normal_inv Hex. unfold Route. cbv zeta.
  destruct ((o_Health o ≟ "timer") && negb (o_Entity o ≟ "")) eqn:Ht.
  { intros [= <- _]. apply Forall_singleton. split; [done|]. apply andb_true_iff in Ht as [_ Ht]. by apply negb_true_iff, bool_decide_eq_false_1 in Ht. }
  assert (Hone : ∀ b, (key ← EntityKey (sp_GroupBy (d_Spec (e_definition e))) (o_Fields o); Ok ([key], b)) = Ok (keys, clear) → Forall good_key keys).
  { intros b H. apply bind_Ok in H as (k & Hk & [= <- _]). by eapply Forall_singleton, EntityKey_good. }
  destruct (o_Health o ≟ "ok"); [destruct (match_fields e o); [apply Hone|by intros [= <- _]]|].
  destruct existing as [|x existing]; [destruct (sp_GroupBy _); [apply Hone|]; intros [= <- _]; by apply Forall_singleton; split; [apply ascii_ok|]|].
  intros [= <- _]. by rewrite (sort_strings_perm (x :: existing)).
Qed.

Lemma fresh_state_ok key : good_key key → state_ok key (empty_state key).
Proof. intros [Ht Hne]. split; [|done]. unfold copy_state, empty_state. cbn. by rewrite (proj1 (text_ok_sanitize key) Ht). Qed.

Lemma copied_state_ok key s data : Entity s = key → good_key key → copy_state s = Some data → state_ok key data.
Proof.
  intros He [Ht Hne] Hc. split_and!; [by eapply copy_state_idem| |done].
  unfold copy_state in Hc. do 7 (apply bind_Some in Hc as (? & _ & Hc)). injection Hc as <-. cbn. rewrite He. by apply text_ok_sanitize.
Qed.

(** ** The cache *)

Section Batch.
Context `{L : Libraries} (limits : Budgets) (r : WatchRecord) (e : Evaluator) (now : time).
Hypothesis Hbuilt : New parse_template (r_Definition r) (r_Revision r) = Ok e.
Abbreviation id := (r_ID r).
Abbreviation revision := (r_Revision r).

Definition cached (m : gmap string State) : Prop := ∀ key s, m !! key = Some s → state_ok key s.
Definition cache_ok (c : cache) : Prop := cached (ca_states c) ∧ cached (ca_pending c).

Lemma cached_insert m key s : cached m → state_ok key s → cached (<[key := s]> m).
Proof. intros Hm Hs k x. destruct (decide (k = key)) as [->|]; [rewrite lookup_insert_eq|rewrite lookup_insert_ne by done]; [by intros [= <-]|apply Hm]. Qed.
Lemma cached_delete m key : cached m → cached (delete key m).
Proof. intros Hm k x Hx. apply lookup_delete_Some in Hx as [_ Hx]. eauto. Qed.
Lemma cached_keys m : cached m → Forall good_key (fst <$> map_to_list m).
Proof.
  intros Hm. apply Forall_fmap, list.Forall_forall. intros [k s] Hin%elem_of_map_to_list. cbn. eapply state_ok_good, Hm, Hin.
Qed.
Lemma watching_cached d i : watching r d → cached (entities_of i d).
Proof. intros [H _] key s Hs. by eapply ed_entities. Qed.

Lemma flush_via c : cache_ok c → via r (flush id revision now c) cache_ok.
Proof.
  intros [H1 H2]. unfold flush. destruct (_ =? 0)%nat; [by apply via_ret|].
  eapply via_bind; [by apply via_keeps, SaveEntities_keeps|]. intros _ _. apply via_ret. split; [done|]. intros k s Hs. cbn in Hs. by rewrite lookup_empty in Hs.
Qed.

Lemma preload_via l c : cache_ok c → via r (preload id e l c) cache_ok.
Proof.
  intros [H1 H2]. unfold preload. destruct (_ <? 2)%nat; [by apply via_ret|].
  eapply via_bind; [by apply (via_lift _ _ (fun _ => True))|]. intros wanted _.
  eapply via_bind; [apply (via_gets _ _ cached)|].
  - intros d Hd k s Hs. apply map_lookup_filter_Some in Hs as [Hs _]. by eapply watching_cached.
  - intros m Hm. by apply via_ret.
Qed.

Lemma load_via key c : cache_ok c → via r (load id key c) (fun x => cache_ok x.1 ∧ ∀ s, x.2 = Some s → state_ok key s).
Proof.
  intros [H1 H2]. unfold load. destruct (_ && _); [|apply via_ret; split; [done|intros s Hs; by apply H1]].
  eapply via_bind; [apply (via_gets _ _ (fun x => ∀ s, x = Some s → state_ok key s)); intros d Hd s Hs; by eapply watching_cached|].
  intros [s|] Hs; apply via_ret; (split; [split|]); cbn; try done.
  - apply cached_insert; auto.
  - intros x. rewrite lookup_insert_eq. by intros [= <-]; auto.
  - intros x. apply H1.
Qed.

Lemma read_all_via c : cache_ok c → via r (read_all id revision now c) cache_ok.
Proof.
  intros Hc. unfold read_all. destruct (ca_all c); [by apply via_ret|]. eapply via_bind; [by apply flush_via|]. intros c' [H1 H2].
  eapply via_bind; [apply (via_gets _ _ cached); intros d Hd; by apply watching_cached|]. intros m Hm. by apply via_ret.
Qed.

(** Where the keys of an observation come from. *)
Definition routed (o : Observation) (x : cache * (list string * bool)) : Prop :=
  cache_ok x.1 ∧ ∃ existing, Forall good_key existing ∧ Route e existing o = Ok x.2.

Lemma route_via o c : cache_ok c → via r (route id revision now e o c) (routed o).
Proof.
  intros Hc. unfold route.
  eapply (via_bind _ _ _ (fun x : cache * list string => cache_ok x.1 ∧ Forall good_key x.2)).
  - destruct (o_Health o ≟ "ok"); [|destruct (_ || _)].
    + eapply via_bind; [by apply load_via|]. intros [c' found] [Hc' Hf]. apply via_ret. cbn in *. split; [done|].
      destruct found; [|done]. by apply Forall_singleton; split; [apply ascii_ok|].
    + eapply via_bind; [by apply read_all_via|]. intros c' Hc'. apply via_ret. split; [done|]. apply cached_keys, Hc'.
    + apply via_ret. done.
  - intros [c' existing] [Hc' Hex]. cbn in *. eapply via_bind; [apply via_lift; intros x Hx; exact Hx|]. intros x Hx.
    apply via_ret. split; [done|]. eauto.
Qed.

Lemma installed_evaluator d : watching r d → installable r e.
Proof. intros H. split; [by eapply watching_stored|done]. Qed.

(** A step that may use that the watch is installed. *)
Lemma via_installed {A : Type} (t : tx A) Q : (installable r e → via r t Q) → via r t Q.
Proof. intros H d a d' Hd E. eapply H; [by eapply installed_evaluator|done|done]. Qed.

(** Every event of an evaluation is stored with a checkpoint that reproduces it. *)
Lemma append_events_via key s o tr :
  installable r e → state_ok key s → observation_normal o → Evaluate e s o now = Ok tr →
  via r (for_each (appendEvaluated limits r now {| ck_Prior := s; ck_Input := o; ck_SourceRecovered := false |}) (tr_Events tr)) (fun _ => True).
Proof.
  intros Hi Hs Ho Htr. apply via_for_each. intros ev Hin. apply via_preserves. pose proof Hi as [Hdd Hee].
  destruct (stored_evaluator _ _ _ _ Hdd Hee) as (Hn & Hdef & Hrev & Hid).
  assert (Hne : Entity s ≠ "") by (by destruct Hs as (_ & -> & ?)). assert (He : Entity s = key) by (by destruct Hs as (_ & ? & _)).
  pose proof (Evaluate_events_normal _ _ _ _ _ Hn Ho ltac:(rewrite He; by eapply state_ok_text) Hne Htr) as Hall.
  rewrite list.Forall_forall in Hall. destruct (Hall ev Hin) as ([Hev _] & Hw & Hr).
  apply appendEvaluated_watching; [done|by rewrite Hw, Hdef|by rewrite Hr|]. intros x. by eapply evaluated_evidence.
Qed.

Lemma clear_source_via o c keys existing :
  cache_ok c → observation_normal o → Route e existing o = Ok (keys, true) → via r (clear_source limits r e now o c) cache_ok.
Proof.
  intros Hc Ho Hroute. apply via_installed. intros Hi. unfold clear_source.
  eapply via_bind; [by apply load_via|]. intros [c' found] [Hc' Hf]. cbn in *. destruct found as [s|]; [|apply via_fail].
  eapply via_bind; [apply via_keeps, DeleteEntity_keeps|]. intros _ _.
  eapply via_bind.
  - destruct (SourceUnhealthy s) eqn:Hu; cbn [negb unless]; [|by apply (via_ret _ _ (fun _ => True))].
    apply via_preserves. destruct Hi as [Hd He]. destruct (stored_evaluator _ _ _ _ Hd He) as (Hn & Hdef & Hrev & Hid).
    apply appendEvaluated_watching; [by apply SourceRecovered_normal|cbn; by rewrite Hdef|done|].
    intros x. by apply (recovered_evidence r e s o now existing keys); try apply Hf.
  - intros _ _. apply via_ret. destruct Hc'. split; cbn; by apply cached_delete.
Qed.

Lemma evaluate_key_via o key c : cache_ok c → observation_normal o → good_key key → via r (evaluate_key limits r e now o key c) cache_ok.
Proof.
  intros Hc Ho Hkey. apply via_installed. intros Hi. unfold evaluate_key.
  eapply via_bind; [by apply load_via|]. intros [c1 found] [Hc1 Hf]. cbn in *.
  eapply (via_bind _ _ _ (fun x : cache * State => cache_ok x.1 ∧ state_ok key x.2)).
  { destruct found as [s|]; [apply via_ret; auto|]. eapply (via_bind _ _ _ (fun x : cache * Z => cache_ok x.1)).
    - unfold Acceptance.count. destruct (_ <? 0); [|by apply via_ret]. eapply via_bind; [by apply (via_gets _ _ (fun _ => True))|].
      intros n _. by apply via_ret.
    - intros [c2 n] Hc2. cbn in *. eapply via_bind; [apply via_reject|]. intros _ _. apply via_ret. split; [done|by apply fresh_state_ok]. }
  intros [c2 s] [Hc2 Hs]. cbn in *. eapply via_bind; [apply via_lift; intros tr Htr; exact Htr|]. intros tr Htr.
  eapply via_bind; [apply via_unless, via_keeps, SaveTimer_keeps, Hkey|]. intros _ _.
  eapply via_bind; [apply via_encoded; intros data Hdata; exact Hdata|]. intros data Hdata. cbv beta in Htr, Hdata.
  assert (Hne : Entity s ≠ "") by (by destruct Hs as (_ & -> & ?)). assert (He : Entity s = key) by (by destruct Hs as (_ & ? & _)).
  assert (Hd : state_ok key data) by (eapply copied_state_ok; [|exact Hkey|exact Hdata]; by rewrite (Evaluate_Entity _ _ _ _ _ Htr Hne)).
  eapply via_bind; [|intros _ _; apply via_ret; destruct Hc2; split; cbn; by apply cached_insert].
  by eapply append_events_via.
Qed.

Lemma evaluate_keys_via o keys c : cache_ok c → observation_normal o → Forall good_key keys → via r (evaluate_keys limits r e now o keys c) cache_ok.
Proof.
  intros Hc Ho Hk. revert c Hc. induction Hk as [|key keys Hkey _ IH]; intros c Hc; cbn [evaluate_keys]; [by apply via_ret|].
  eapply via_bind; [by apply evaluate_key_via|]. exact IH.
Qed.

Lemma evaluate_observation_via o c : cache_ok c → observation_normal o → via r (evaluate_observation limits r e now o c) cache_ok.
Proof.
  intros Hc Ho. unfold evaluate_observation. eapply via_bind; [by apply route_via|].
  intros [c1 [keys clear]] (Hc1 & existing & Hex & Hroute). cbn in *. eapply (via_bind _ _ _ cache_ok).
  - unfold when_clear. destruct clear; [by eapply clear_source_via|by apply via_ret].
  - intros c2 Hc2. apply evaluate_keys_via; [done|done|by eapply Route_keys].
Qed.

Lemma evaluate_all_via l c : cache_ok c → Forall observation_normal l → via r (evaluate_all limits r e now l c) cache_ok.
Proof.
  intros Hc Hl. revert c Hc. induction Hl as [|o l Ho _ IH]; intros c Hc; cbn [evaluate_all]; [by apply via_ret|].
  eapply via_bind; [by apply evaluate_observation_via|]. exact IH.
Qed.

Lemma evaluate_batch_via l ns : Forall observation_normal (zip_with sequenced l ns) → via r (evaluate_batch limits r e now l ns) (fun _ => True).
Proof.
  intros Hns. unfold evaluate_batch. eapply via_bind; [apply preload_via; split; intros k s Hs; cbn in Hs; by rewrite lookup_empty in Hs|]. intros c Hc.
  eapply via_bind; [by apply evaluate_all_via|]. intros c' Hc'.
  eapply via_bind; [by apply flush_via|]. intros _ _. by apply via_ret.
Qed.
End Batch.

(** ** Observations as they are recorded *)

(** Its texts are well formed and its fields a copy. *)
Record observation_text (o : Observation) : Prop := {
  ot_Fields : copy_fields (o_Fields o) = Some (o_Fields o); ot_Entity : text_ok (o_Entity o); ot_InputID : text_ok (o_InputID o);
  ot_Health : text_ok (o_Health o); ot_Detail : text_ok (o_Detail o) }.

Lemma normal_text o : observation_normal o → observation_text o.
Proof.
  unfold observation_normal, copy_observation. intros H. do 3 (apply bind_Some in H as (? & _ & H)). apply bind_Some in H as (fs & Hf & H). injection H as H.
  split; [rewrite Hf; f_equal; exact (f_equal o_Fields H)|apply text_ok_sanitize..];
    [exact (f_equal o_Entity H)|exact (f_equal o_InputID H)|exact (f_equal o_Health H)|exact (f_equal o_Detail H)].
Qed.

Lemma text_normal o n : observation_text o → is_Some (copy_observation o) → observation_normal (sequenced o n).
Proof.
  intros [H1 H2 H3 H4 H5] [o' H]. unfold observation_normal, copy_observation in *.
  apply bind_Some in H as (dl & Hdl & H). apply bind_Some in H as (ac & Hac & H). apply bind_Some in H as (ob & Hob & H).
  assert (Href : ∀ t u, copy_time_ref t = Some u → u = t).
  { intros [t|] u; cbn; [|by intros [= <-]]. unfold copy_time. destruct (json_year t); [|done]. by intros [= <-]. }
  assert (ac = o_AcceptedAt o) as -> by (unfold copy_time in Hac; destruct (json_year _); by simplify_eq).
  apply text_ok_sanitize in H2, H3, H4, H5. cbn. pose proof (Href _ _ Hdl) as ->. pose proof (Href _ _ Hob) as ->.
  rewrite Hdl, Hac, Hob, H1. cbn. by rewrite H2, H3, H4, H5.
Qed.

Record batch_ok (b : Batch) (input : string) : Prop := {
  bo_Observations : Forall observation_normal (bt_Observations b); bo_Entity : text_ok (bt_Entity b); bo_Input : text_ok input }.

Lemma gap_text : observation_text gap_observation.
Proof. split; cbn; try done; by apply ascii_ok. Qed.

Lemma stamped_text b input now i l : text_ok (bt_Entity b) → text_ok input → Forall observation_text l → Forall observation_text (stamped b input now i l).
Proof.
  intros Hb Hi Hl. revert i. induction Hl as [|o l [H1 H2 H3 H4 H5] _ IH]; intros i; cbn [stamped]; constructor; [|apply IH].
  assert (text_ok (input ++ ":" ++ Itoa i ++ ":" ++ Itoa (UnixNano now))) as Hid.
  { repeat apply text_ok_app; try done; apply ascii_ok; try done; apply ascii_Itoa. }
  destruct (is_timer b); by split.
Qed.

Lemma AppendObservations_copies id revision generation l d ns d' :
  AppendObservations id revision generation l d = Ok (ns, d') → Forall (fun o => is_Some (copy_observation o)) l.
Proof.
  revert d ns d'. induction l as [|o l IH]; intros d ns d' H; [constructor|]. cbn [AppendObservations] in H. tx_inv.
  constructor; [|by eapply IH]. unfold AppendObservation in *. tx_inv. eauto.
Qed.

Lemma recorded_normal l ns : Forall observation_text l → Forall (fun o => is_Some (copy_observation o)) l → Forall observation_normal (zip_with sequenced l ns).
Proof.
  intros Hl Hc. revert ns Hc. induction Hl as [|o l Ho _ IH]; intros [|n ns] Hc; cbn; try constructor; inversion Hc; subst; [by apply text_normal|auto].
Qed.

Section Accept.
Context `{L : Libraries} (limits : Budgets) (jitter : duration) (storage : db → Z).

Lemma GetWatch_watching id : triple (evident None) (GetWatch id) (fun r d => watching r d ∧ r_ID r = id).
Proof.
  intros d r d' Hd H. unfold GetWatch in H. tx_inv. destruct (watch_in id d) as [x|] eqn:E; [|done]. tx_inv.
  unfold watch_in in E. apply bind_Some in E as (w & _ & E). apply bind_Some in E as (v & Hv & [= <-]).
  destruct (ed_revisions _ _ Hd _ _ _ Hv) as [(c & _ & _ & _ & Hid) _].
  assert (r_ID (scanWatch w v) = id) by exact Hid. split; [|done]. split; [done|]. rewrite H. cbn. by rewrite Hv.
Qed.

Lemma record_batch_via r e b input now :
  New parse_template (r_Definition r) (r_Revision r) = Ok e → batch_ok b input → via r (record_batch limits jitter storage r e b input now) (fun _ => True).
Proof.
  intros Hb [Ho Hent Hin]. unfold record_batch.
  eapply via_bind; [apply via_unless, via_same, SaveCheckpoint_same|]. intros _ _.
  eapply via_bind; [by apply (via_gets _ _ (fun _ => True))|]. intros bytes _.
  eapply via_bind; [by apply (via_gets _ _ (fun _ => True))|]. intros pending _.
  eapply via_bind; [apply via_reject|]. intros _ _.
  set (l := stamped _ _ _ _ _).
  assert (Hl : Forall observation_text l).
  { apply stamped_text; [done|done|]. assert (Forall observation_text (bt_Observations b)) by (eapply list.Forall_impl; [exact Ho|apply normal_text]).
    destruct (_ && _); [constructor; [apply gap_text|done]|done]. }
  eapply via_bind; [apply via_same; unfold check_size; respects_tac|]. intros _ _.
  eapply (via_bind _ _ _ (fun ns => Forall observation_normal (zip_with sequenced l ns))).
  { intros d ns d' Hd H. split; [eapply (triple_same (watching r)); [apply AppendObservations_same|apply watching_same|exact Hd|exact H]|].
    eapply recorded_normal; [done|by eapply AppendObservations_copies]. }
  intros ns Hns. eapply via_bind; [by apply evaluate_batch_via|]. intros _ _.
  eapply via_bind; [by apply (via_gets _ _ (fun _ => True))|]. intros b' _.
  eapply via_bind; [apply via_reject|]. intros _ _. by apply via_ret.
Qed.

Lemma take_timer_keeps r b now : respects keeps (take_timer r b now).
Proof.
  unfold take_timer. destruct (is_timer b); [|apply respects_ret; exact _]. intros d a d' H.
  destruct (GetTimer _ _ _ d) as [[t d1]|] eqn:E; [|done]. unfold GetTimer in E. tx_inv.
  destruct (rows _ _ !! _); [|done]. tx_inv. by eapply DeleteTimer_keeps.
Qed.

Lemma admit_push_same record current p now : respects same_evidence (admit_push record current p now).
Proof. unfold admit_push, GetPushReceipt. respects_tac. Qed.

Lemma save_receipt_same r push input first last n now later :
  respects same_evidence (save_receipt limits storage r push input first last n now later).
Proof. unfold save_receipt. respects_tac. Qed.

(** The record was read from these tables. *)
Definition agrees (record : WatchRecord) (d : db) : Prop :=
  ∀ v, db_revisions d !! (r_ID record, r_Revision record) = Some v → v_definition v = r_Definition record.

Lemma accept_tx_evident record e b input push closing now later :
  New parse_template (r_Definition record) (r_Revision record) = Ok e → batch_ok b input →
  triple (fun d => evident None d ∧ agrees record d) (accept_tx limits jitter storage record e b input push closing now later) (fun _ => evident None).
Proof.
  intros He Hb d a d' [Hd Hag] H. unfold accept_tx in H. apply tx_bind_inv in H as ([] & d0 & [_ ->]%reject_inv & H).
  apply tx_bind_inv in H as (current & d1 & Hcur & H). destruct (GetWatch_watching _ _ _ _ Hd Hcur) as [Hw Hid].
  assert (d1 = d) as -> by (unfold GetWatch in Hcur; tx_inv; destruct (watch_in _ d); by tx_inv).
  assert (Hdef : r_Revision current = r_Revision record → r_Definition current = r_Definition record).
  { intros Er. destruct Hw as [_ Hv]. rewrite Er, Hid in Hv. destruct (db_revisions d !! _) as [v|] eqn:Ev; [|done]. injection Hv as <-. by apply Hag. }
  revert H. set (t := _ ≫= _). intros H.
  enough (Hvia : via current t (fun _ => True)) by (by destruct (Hvia _ _ _ Hw H) as [[? _] _]). subst t. clear Hcur H Hw Hag Hd.
  eapply via_bind; [destruct push; [apply via_same, admit_push_same|by apply (via_ret _ _ (fun _ => True))]|]. intros [rc|] _; [by apply via_ret|].
  eapply via_bind; [apply via_reject|]. intros [] Hf. cbv beta in Hf.
  assert (Hbuilt : New parse_template (r_Definition current) (r_Revision current) = Ok e).
  { apply orb_false_iff in Hf as [[_ Hf]%orb_false_iff _]. apply negb_false_iff, bool_decide_eq_true_1 in Hf. rewrite Hdef by done. by rewrite Hf. }
  eapply via_bind; [apply via_keeps, take_timer_keeps|]. intros _ _.
  eapply via_bind; [by apply (via_gets _ _ (fun _ => True))|]. intros [[f l]|] _; [by apply via_ret|].
  eapply via_bind; [apply via_reject|]. intros _ _.
  eapply via_bind; [by apply record_batch_via|]. intros [[f l] n] _.
  eapply via_bind; [apply via_same, save_receipt_same|]. intros pushed _. by apply via_ret.
Qed.

Lemma acceptPush_evident record b input push closing now later d :
  batch_ok b input → agrees record d → evident None d →
  evident None (fst (acceptPush limits jitter storage record b input push closing now later d)).
Proof.
  intros Hb Hag Hd. unfold acceptPush. destruct closing; [done|]. unfold check_input.
  destruct (fail_if _ _ ;; _) as [e|] eqn:Hc; [|done]. apply fail_if_bind in Hc as [_ Hc]. apply fail_if_bind in Hc as [_ Hc].
  unfold Update at 1. destruct (accept_tx _ _ _ _ _ _ _ _ _ _ _ d) as [[x d']|] eqn:E; cbn [fst].
  - by eapply accept_tx_evident in E.
  - destruct (_ && _); [|done]. cbn [fst]. eapply evident_same; [|exact Hd]. apply (respects_update same_evidence). apply SetLastError_same.
Qed.
End Accept.
