(* ===== verification/EvidenceLifecycle.v ===== *)
(** * Lifecycle and installation keep the evidence

    Resuming, clock discontinuities, deletion, purging and applying bundles
    leave only evident tables; while no watch is purged, definition rows are only
    added. *)
From S2P Require Import Prelude GoText GoTime GoJson Watch Plan PlanSpec Evaluator EvaluatorFacts.
From S2P Require Import RecordJson EvidenceFacts Outbox PushReceipts Records Access Render Acceptance Lifecycle Apply Evidence TxLogic EvidenceTables EvidenceAccept.

#[local] Arguments event_id : simpl never.
#[local] Arguments Revision : simpl never.

(** ** Definitions last *)

Definition purged_gone (d : db) : Prop := ∀ id revision, id ∈ db_purged d → db_revisions d !! (id, revision) = None.

(** Rows are only added, and none for a purged watch. *)
Definition grows (d d' : db) : Prop :=
  db_purged d' = db_purged d ∧ (∀ k v, db_revisions d !! k = Some v → db_revisions d' !! k = Some v) ∧ (purged_gone d → purged_gone d').

#[global] Instance grows_preorder : PreOrder grows.
Proof.
  split; [by intros d|]. intros a b c (A1 & A2 & A3) (B1 & B2 & B3). split_and!; [by rewrite B1|eauto|eauto].
Qed.
Lemma same_grows d d' : same_evidence d d' → grows d d'.
Proof. intros (A & _ & _ & _ & B & _). unfold grows, purged_gone. by rewrite A, B. Qed.
Lemma respects_same_grows {A : Type} (t : tx A) : respects same_evidence t → respects grows t.
Proof. intros H d a d' E. by eapply same_grows, H. Qed.

(** Writes outside the two tables. *)
Lemma grows_modify f : (∀ d, db_revisions (f d) = db_revisions d ∧ db_purged (f d) = db_purged d) → respects grows (modify f).
Proof. intros H. apply respects_modify. intros d. destruct (H d) as [A B]. unfold grows, purged_gone. by rewrite A, B. Qed.

Section Lasting.
Context `{L : Libraries} (limits : Budgets).

Lemma insert_evidence_grows id l : respects grows (insert_evidence id l).
Proof. apply respects_same_grows, insert_evidence_same. Qed.
Lemma AppendEvent_grows e : respects grows (AppendEvent e).
Proof.
  intros d n d' (body & dm & _ & _ & _ & H1 & H2)%AppendEvent_inv. etrans; [|apply same_grows, H1].
  destruct H2 as (A & _ & _ & _ & B & _). unfold grows, purged_gone. by rewrite A, B.
Qed.
Lemma SaveReplay_grows id c : respects grows (SaveReplay id c).
Proof. unfold SaveReplay. respects_tac. by apply grows_modify. Qed.
Lemma saveEntityData_grows id key revision s now : respects grows (saveEntityData id key revision s now).
Proof. unfold saveEntityData, syncEntityPins. respects_tac; by apply grows_modify. Qed.
Lemma DeleteEntity_grows id key : respects grows (DeleteEntity id key).
Proof. by apply grows_modify. Qed.
Lemma ResetState_grows id : respects grows (ResetState id).
Proof. by apply grows_modify. Qed.
Lemma RevisionState_grows id revision g : respects grows (RevisionState id revision g).
Proof. unfold RevisionState. respects_tac. by apply grows_modify. Qed.
Lemma SaveTimer_grows t : respects grows (SaveTimer t).
Proof. unfold SaveTimer. respects_tac. by apply grows_modify. Qed.
Lemma DeleteTimer_grows t : respects grows (DeleteTimer t).
Proof. apply grows_modify. intros d. destruct (rows _ _ !! _); [|done]. by destruct (_ && _). Qed.
Lemma DeleteTimers_grows id : respects grows (DeleteTimers id).
Proof. by apply grows_modify. Qed.
Lemma SaveDestination_same c now : respects same_evidence (SaveDestination c now).
Proof. unfold SaveDestination. respects_tac; by apply respects_modify. Qed.

Lemma compile_id d c : compile d = Ok c → md_ID (d_Metadata (cp_Definition c)) = md_ID (d_Metadata d).
Proof.
  unfold compile. intros (d1 & Hh & Hd & _ & -> & _)%Compile_inv. cbn. unfold copy_definition in Hd. apply bind_Some in Hd as (sp & _ & [= <-]).
  cbn. apply PlanFacts.identifier_copied. by eapply header_identifier.
Qed.

(** The row [SaveWatch] adds. *)
Lemma SaveWatch_inv r now lifetime d a d' :
  SaveWatch r now lifetime d = Ok (a, d') → ∃ c dm, compile (r_Definition r) = Ok c ∧ cp_Revision c = r_Revision r ∧ r_ID r ∉ db_purged d ∧
    same_evidence dm d' ∧
    ((is_Some (db_revisions d !! (r_ID r, r_Revision r)) ∧ dm = d) ∨
     (db_revisions d !! (r_ID r, r_Revision r) = None ∧
      dm = d <| db_revisions := <[(r_ID r, r_Revision r) := {| v_fingerprint := cp_Fingerprint c; v_definition := cp_Definition c; v_created := timestamp now |}]> (db_revisions d) |>)).
Proof.
  unfold SaveWatch. intros H. tx_inv. match goal with H : compile _ = Ok ?x |- _ => exists x; pose proof (compile_id _ _ H) as Hid; rename H into Hc end.
  match goal with H : _ || _ || _ = false |- _ => apply orb_false_iff in H as [[Hr%negb_false_iff%bool_decide_eq_true_1 _]%orb_false_iff _] end.
  match goal with H : bool_decide (_ ∈ db_purged _) = false |- _ => apply bool_decide_eq_false_1 in H; rename H into Hp end.
  fold (r_ID r) in Hid. rewrite Hid, Hr in *.
  match goal with H : unless ?b ?t d = Ok (_, ?dm) |- _ => exists dm; rename H into Hu; destruct b eqn:Hk end.
  - apply bool_decide_eq_true_1 in Hk. cbn in Hu. tx_inv. split_and!; try done. left. done.
  - apply bool_decide_eq_false_1, eq_None_not_Some in Hk. cbn in Hu. tx_inv. split_and!; try done. right. done.
Qed.

Lemma SaveWatch_grows r now lifetime : respects grows (SaveWatch r now lifetime).
Proof.
  intros d a d' (c & dm & _ & _ & Hp & Hs & [[_ ->]|[Hn ->]])%SaveWatch_inv; [by apply same_grows|].
  etrans; [|by apply same_grows]. split_and!; [done| |].
  - intros k v Hk. cbn. rewrite lookup_insert_ne by congruence. done.
  - intros Hg id revision Hid. cbn in *. rewrite lookup_insert_ne; [by apply Hg|]. intros [= <- _]. done.
Qed.
End Lasting.

#[export] Hint Resolve AppendEvent_grows SaveReplay_grows saveEntityData_grows DeleteEntity_grows ResetState_grows RevisionState_grows
  SaveWatch_grows SaveTimer_grows DeleteTimer_grows DeleteTimers_grows : tx.
#[export] Hint Resolve SaveDestination_same enqueue_target_same admit_push_same save_receipt_same : tx.
#[export] Hint Extern 3 (respects grows _) => apply respects_same_grows : tx.

(** ** Purging *)

Section Purge.
Context `{L : Libraries}.

Lemma PurgeWatch_inv id d a d' :
  PurgeWatch id d = Ok (a, d') →
  db_revisions d' = filter (fun kv : (string * string) * revision_row => fst (fst kv) ≠ id) (db_revisions d) ∧
  db_entities d' = delete id (db_entities d) ∧
  db_events d' = filter (fun kv : string * event_row => fst kv ∉ dom (events_of id d)) (db_events d) ∧
  db_replays d' = filter (fun kv : string * Checkpoint => fst kv ∉ dom (events_of id d)) (db_replays d) ∧
  db_purged d' = {[id]} ∪ db_purged d ∧ db_timers d' = delete id (db_timers d).
Proof.
  unfold PurgeWatch, GetWatch, HandoffHold. intros H. tx_inv. destruct (watch_in id d) as [r|]; [|done]. tx_inv. done.
Qed.

(** Events of other watches keep their definitions and checkpoints. *)
Lemma PurgeWatch_evident id : preserves (evident None) (PurgeWatch id).
Proof.
  intros d a d' [D1 D2 D3 D4 D5] (H1 & H2 & H3 & H4 & _ & H6)%PurgeWatch_inv.
  assert (Hown : ∀ x y, db_events d' !! x = Some y → db_events d !! x = Some y ∧ x ∉ dom (events_of id d) ∧ ev_WatchID (y_body y) ≠ id).
  { intros x y. rewrite H3. intros [Hy Hn]%map_lookup_filter_Some. split_and!; try done. cbn in Hn. intros Hw. apply Hn, elem_of_dom.
    exists y. apply map_lookup_filter_Some. split; [done|]. cbn. destruct (D3 _ _ Hy) as [-> _]. done. }
  assert (Hrev : ∀ i rev v, i ≠ id → db_revisions d !! (i, rev) = Some v → db_revisions d' !! (i, rev) = Some v).
  { intros i rev v Hi Hv. rewrite H1. by apply map_lookup_filter_Some. }
  split.
  - intros i rev v. rewrite H1. intros [Hv _]%map_lookup_filter_Some. eauto.
  - intros i key s Hs. apply (D2 i). revert Hs. unfold entities_of, rows. rewrite H2, !lookup_fmap. destruct (decide (i = id)) as [->|Hi].
    + by rewrite lookup_delete_eq.
    + by rewrite lookup_delete_ne.
  - intros x y Hy. destruct (Hown _ _ Hy) as (Hy' & Hx & Hw). destruct (D3 _ _ Hy') as (A & [v B] & C). split_and!; [done|eauto|].
    intros _. rewrite H4. intros Hn. apply C; [done|]. apply map_lookup_filter_None in Hn as [?|Hn]; [done|].
    destruct (db_replays d !! x) as [c|] eqn:E; [|done]. exfalso. by apply (Hn c).
  - intros x c. rewrite H4. intros [Hc Hx]%map_lookup_filter_Some. destruct (D4 _ _ Hc) as (y & v & Hy & Hv & He).
    assert (Hy' : db_events d' !! x = Some y) by (rewrite H3; by apply map_lookup_filter_Some).
    exists y, v. split_and!; try done. destruct (Hown _ _ Hy') as (_ & _ & Hw). by apply Hrev.
  - by eapply timers_delete.
Qed.
End Purge.

(** ** Writing watches *)

Section Lifecycle.
Context `{L : Libraries} (limits : Budgets) (jitter : duration) (storage : db → Z) (range : gmap string State → list (string * State)).
Hypothesis Hrange : ∀ m, range m ≡ₚ map_to_list m.

Lemma appendEvaluated_grows r now c e : respects grows (appendEvaluated limits r now c e).
Proof. unfold appendEvaluated, appendEvent. respects_tac. Qed.
#[local] Hint Resolve appendEvaluated_grows : tx.

Lemma lifecycleEvent_grows r kind reason now : respects grows (lifecycleEvent r kind reason now).
Proof. unfold lifecycleEvent. respects_tac. Qed.
#[local] Hint Resolve lifecycleEvent_grows : tx.

Lemma SaveEntity_grows id key revision s now : respects grows (SaveEntity id key revision s now).
Proof. unfold SaveEntity. respects_tac. Qed.
#[local] Hint Resolve SaveEntity_grows : tx.

Lemma armInitial_grows r now : respects grows (armInitial r now).
Proof. unfold armInitial. respects_tac. Qed.
#[local] Hint Resolve armInitial_grows : tx.

Lemma shift_watch_grows now lifetimes r : respects grows (shift_watch limits range now lifetimes r).
Proof. unfold shift_watch, shift_entity. respects_tac. Qed.

(** ** Watches stay installed *)

Lemma SaveWatch_present r now lifetime :
  stored_definition (r_ID r) (r_Revision r) (r_Definition r) → triple (evident None) (SaveWatch r now lifetime) (fun _ => present r).
Proof.
  intros Hd d a d' He (c & dm & Hc & Hr & _ & Hs & H)%SaveWatch_inv. eapply present_same; [exact Hs|].
  destruct H as [[Hk ->]|[Hn ->]]; [done|]. split; [|cbn; by rewrite lookup_insert_eq].
  destruct Hd as [(c' & Hc' & Hdef & _ & Hid) Ht]. rewrite Hc in Hc'. injection Hc' as <-.
  destruct He as [D1 D2 D3 D4 D5]. split; try done.
  - intros id revision v. cbn. destruct (decide ((id, revision) = (r_ID r, r_Revision r))) as [[= -> ->]|Hne].
    + rewrite lookup_insert_eq. intros [= <-]. cbn. rewrite Hdef. split; [|done]. exists c. done.
    + rewrite lookup_insert_ne by congruence. apply D1.
  - intros id y Hy. destruct (D3 _ _ Hy) as (A & [v B] & C). split_and!; try done. cbn. rewrite lookup_insert_ne by congruence. eauto.
  - intros id x Hx. destruct (D4 _ _ Hx) as (y & v & A & B & C). exists y, v. split_and!; try done. cbn. rewrite lookup_insert_ne by congruence. done.
Qed.

Lemma SaveWatch_watching r now lifetime : preserves (watching r) (SaveWatch r now lifetime).
Proof.
  intros d a d' Hw H. assert (Hp : present r d') by (eapply SaveWatch_present; [by eapply watching_stored|apply Hw|exact H]).
  split; [apply Hp|]. destruct Hw as [_ Hv]. destruct (db_revisions d !! _) as [v|] eqn:E; [|done].
  apply SaveWatch_grows in H as (_ & H & _). by rewrite (H _ _ E).
Qed.

Lemma armInitial_keeps r now : respects keeps (armInitial r now).
Proof.
  unfold armInitial. destruct (_ || _); [apply respects_ret; exact _|]. apply respects_bind; [exact _| |intros _; apply SaveTimer_keeps; by apply ascii_ok].
  apply SaveEntity_keeps; [done|done|by apply ascii_ok].
Qed.

(** ** One entity after a resumption or a clock discontinuity *)

Lemma health_normal generation what key health detail now id revision d n d' :
  text_ok key → ascii_text what = true → ascii_text health = true → ascii_text detail = true →
  let o := health_observation (what ++ Itoa generation ++ ":" ++ key) health detail now in
  AppendObservation id revision generation o d = Ok (n, d') → observation_normal (sequenced o n).
Proof.
  intros Hk Hw Hh Hde o H. unfold AppendObservation in H. tx_inv. apply text_normal; [|eauto].
  split; cbn; try done; try (by apply ascii_ok). apply text_ok_app; [by apply ascii_ok|]. apply text_ok_app; [apply ascii_ok, ascii_Itoa|].
  by apply (text_ok_app ":"); [apply ascii_ok|].
Qed.

Lemma observe_via r generation what key health detail now :
  text_ok key → ascii_text what = true → ascii_text health = true → ascii_text detail = true →
  let o := health_observation (what ++ Itoa generation ++ ":" ++ key) health detail now in
  via r (AppendObservation (r_ID r) (r_Revision r) generation o) (fun n => observation_normal (sequenced o n)).
Proof.
  intros Hk Hw Hh Hd o d n d' Hwatch H. split; [eapply watching_same; [by eapply AppendObservation_same|done]|]. by eapply health_normal.
Qed.

Lemma SaveEntity_via r key s now : Entity s = key → good_key key → via r (SaveEntity (r_ID r) key (r_Revision r) s now) (fun _ => True).
Proof. intros He [Ht Hne]. by apply via_keeps, SaveEntity_keeps. Qed.

Lemma resume_entity_via r e now key s :
  New parse_template (r_Definition r) (r_Revision r) = Ok e → state_ok key s → via r (resume_entity limits r e now (key, s)) (fun _ => True).
Proof.
  intros Hb Hs. pose proof (state_ok_good _ _ Hs) as Hk. apply (via_installed r e Hb). intros Hi. unfold resume_entity.
  eapply via_bind; [by apply observe_via; [apply Hk|..]|]. intros n Ho. cbv beta in Ho.
  eapply via_bind; [apply via_lift; intros tr Htr; exact Htr|]. intros tr Htr. cbv beta in Htr.
  assert (Hent : Entity (tr_State tr) = key) by (destruct Hs as (_ & <- & ?); by eapply Evaluate_Entity).
  eapply via_bind; [apply via_unless, via_keeps, SaveTimer_keeps, Hk|]. intros _ _.
  eapply via_bind; [apply SaveEntity_via; [by destruct (negb _)|done]|]. intros _ _. by eapply append_events_via.
Qed.

Lemma shift_entity_via r e now key s :
  New parse_template (r_Definition r) (r_Revision r) = Ok e → state_ok key s → via r (shift_entity limits r e now (key, s)) (fun _ => True).
Proof.
  intros Hb Hs. pose proof (state_ok_good _ _ Hs) as Hk. apply (via_installed r e Hb). intros Hi. unfold shift_entity.
  eapply via_bind; [by apply observe_via; [apply Hk|..]|]. intros n Ho. cbv beta in Ho.
  eapply via_bind; [apply via_lift; intros tr Htr; exact Htr|]. intros tr Htr. cbv beta in Htr.
  assert (Hent : Entity (tr_State tr) = key) by (destruct Hs as (_ & <- & ?); by eapply Evaluate_Entity).
  eapply via_bind; [by apply SaveEntity_via|]. intros _ _.
  eapply via_bind; [apply via_unless, via_keeps, SaveTimer_keeps, Hk|]. intros _ _. by eapply append_events_via.
Qed.

(** Every entity of the watch, in whatever order. *)
Lemma entities_via r (f : Evaluator → string * State → tx unit) now :
  (∀ e key s, New parse_template (r_Definition r) (r_Revision r) = Ok e → state_ok key s → via r (f e (key, s)) (fun _ => True)) →
  via r (states ← GetEntities (r_ID r); e ← lift (New parse_template (r_Definition r) (r_Revision r));
         for_each (f e) (range states) ;; unless (negb (size states =? 0)%nat) (armInitial r now)) (fun _ => True).
Proof.
  intros Hf. eapply via_bind; [apply (via_gets _ _ cached); intros d Hd; by eapply watching_cached|]. intros m Hm.
  eapply via_bind; [apply via_lift; intros e He; exact He|]. intros e He. cbv beta in He.
  eapply via_bind; [|intros _ _; apply via_unless, via_keeps, armInitial_keeps].
  apply via_for_each. intros [key s] Hin. apply Hf; [done|]. apply Hm. rewrite Hrange in Hin. by apply elem_of_map_to_list.
Qed.

Lemma resume_all_via r now : via r (resume_all limits range r now) (fun _ => True).
Proof. apply (entities_via r (fun e => resume_entity limits r e now)). intros e key s. apply resume_entity_via. Qed.

Lemma lifecycleEvent_via r kind reason now :
  kind ∈ lifecycle_kinds → ascii_text reason = true → via r (lifecycleEvent r kind reason now) (fun _ => True).
Proof.
  intros Hk Hr d a d' Hw H. assert (Hp : present r d') by (eapply lifecycleEvent_present; [exact Hk|exact Hr|by apply watching_present|exact H]).
  split; [|done]. split; [apply Hp|]. destruct Hw as [_ Hv]. destruct (db_revisions d !! _) as [v|] eqn:E; [|done].
  apply lifecycleEvent_grows in H as (_ & H & _). by rewrite (H _ _ E).
Qed.

Lemma change_status_via r status action lifetime now :
  action ∈ lifecycle_kinds → ascii_text action = true → via r (change_status limits range r status action lifetime now) (fun _ => True).
Proof.
  intros Hk Ha. unfold change_status. set (r' := transitioned r status now). change (via r' (SaveWatch r' now lifetime ;; DeleteTimers (r_ID r') ;;
    unless (negb (status ≟ "running")) (resume_all limits range r' now) ;; lifecycleEvent r' action action now ;; mret r') (fun _ => True)).
  eapply via_bind; [apply via_preserves, SaveWatch_watching|]. intros _ _.
  eapply via_bind; [apply via_keeps, DeleteTimers_keeps|]. intros _ _.
  eapply via_bind; [apply via_unless, resume_all_via|]. intros _ _.
  eapply via_bind; [by apply lifecycleEvent_via|]. intros _ _. by apply via_ret.
Qed.

Lemma Require_same ctx action : respects same_evidence (Require_ ctx action).
Proof. unfold Require_. respects_tac. Qed.
Lemma authorizeBundle_same approved ctx b : respects same_evidence (authorizeBundle approved ctx b).
Proof. unfold authorizeBundle, authorize_destination, authorize_watch, find_watch, find_destination. respects_tac. Qed.
Lemma checkHandoffHold_same id owner : respects same_evidence (checkHandoffHold id owner).
Proof. unfold checkHandoffHold, HandoffHold. respects_tac. Qed.

(** ** Requests *)

Lemma via_evident {A : Type} r (t : tx A) Q d a d' : via r t Q → watching r d → t d = Ok (a, d') → evident None d'.
Proof. intros H Hd E. apply (H _ _ _ Hd E). Qed.

Lemma action_kind action status : action_status action = Ok status → action ∈ lifecycle_kinds ∧ ascii_text action = true.
Proof.
  unfold action_status. destruct (decide (action = "pause")) as [->|]; [split; [unfold lifecycle_kinds; set_solver|done]|]. rewrite bool_decide_eq_false_2 by done.
  destruct (decide (action = "resume")) as [->|]; [split; [unfold lifecycle_kinds; set_solver|done]|]. rewrite bool_decide_eq_false_2 by done.
  destruct (decide (action = "delete")) as [->|]; [split; [unfold lifecycle_kinds; set_solver|done]|]. by rewrite bool_decide_eq_false_2.
Qed.

Lemma lifecycle_core_evident approved ctx owner id q closing lifetime now :
  preserves (evident None) (lifecycle_core limits range approved ctx owner id q closing lifetime now).
Proof.
  unfold lifecycle_core.
  eapply triple_bind; [apply (triple_reject _ _ _ (fun _ => evident None)); auto|]. intros ?.
  eapply triple_bind; [apply triple_same; [apply checkHandoffHold_same|apply evident_same]|]. intros ?.
  eapply triple_bind; [apply GetWatch_watching|]. intros r. apply triple_conseq with (P' := watching r) (Q' := fun _ => evident None); [|by intros d [H _]|done].
  eapply triple_bind; [apply triple_same; [apply authorizeBundle_same|apply watching_same]|]. intros ?.
  do 3 (eapply triple_bind; [apply (triple_reject _ _ _ (fun _ => watching r)); auto|]; intros ?).
  destruct (lr_Action q ≟ "purge").
  { eapply triple_bind; [eapply triple_conseq; [apply PurgeWatch_evident|by intros d [H _]|done]|]. intros ?. apply triple_ret. auto. }
  eapply (triple_bind _ _ _ (fun status d => watching r d ∧ action_status (lr_Action q) = Ok status)); [apply triple_lift; auto|]. intros status.
  eapply (triple_bind _ _ _ (fun _ d => watching r d ∧ action_status (lr_Action q) = Ok status)); [apply triple_reject; auto|]. intros ?.
  intros d x d' [Hw Hk]. destruct (action_kind _ _ Hk) as [Hk1 Hk2]. eapply (via_evident r _ (fun _ => True)); [|exact Hw].
  eapply via_bind; [apply via_unless, via_same, CancelPending_same|]. intros _ _.
  destruct (r_Status r ≟ status); [by apply via_ret|]. by apply change_status_via.
Qed.

Lemma lifecycle_evident approved ctx m id q closing lifetime now :
  respects same_evidence (mu_begin m) → respects same_evidence (mu_finish m) →
  preserves (evident None) (lifecycle limits range approved ctx m id q closing lifetime now).
Proof.
  intros Hbegin Hfinish. unfold lifecycle. eapply triple_bind; [apply triple_same; [apply Require_same|apply evident_same]|]. intros ?.
  eapply triple_bind; [apply triple_same; [exact Hbegin|apply evident_same]|]. intros []; [by apply triple_ret|].
  eapply triple_bind; [apply lifecycle_core_evident|]. intros ?.
  eapply triple_bind; [apply triple_same; [exact Hfinish|apply evident_same]|]. intros ?. by apply triple_ret.
Qed.

Lemma shift_watch_via now lifetimes r : via r (shift_watch limits range now lifetimes r) (fun _ => True).
Proof.
  unfold shift_watch. destruct (negb (r_Status r ≟ "running")); [by apply via_ret|].
  set (r' := r <| r_Generation := r_Generation r + 1 |> <| r_NextAt := now |>). cbv zeta. fold r'.
  intros d a d' Hw H. change (watching r' d) in Hw. change (watching r' d' ∧ True). revert d a d' Hw H. change (via r' (SaveWatch r' now (lifetimes (r_ID r')) ;;
    DeleteTimers (r_ID r') ;; states ← GetEntities (r_ID r'); e ← lift (New parse_template (r_Definition r') (r_Revision r'));
    for_each (shift_entity limits r' e now) (range states) ;; unless (negb (size states =? 0)%nat) (armInitial r' now) ;;
    lifecycleEvent r' "clock_discontinuity" "wall clock diverged from monotonic time; temporal evidence rearmed" now) (fun _ => True)).
  eapply via_bind; [apply via_preserves, SaveWatch_watching|]. intros _ _.
  eapply via_bind; [apply via_keeps, DeleteTimers_keeps|]. intros _ _.
  eapply via_bind; [apply (via_gets _ _ cached); intros d Hd; by eapply watching_cached|]. intros m Hm.
  eapply via_bind; [apply via_lift; intros e He; exact He|]. intros e He. cbv beta in He.
  eapply via_bind; [|intros _ _; eapply via_bind; [apply via_unless, via_keeps, armInitial_keeps|]; intros _ _; apply lifecycleEvent_via; [set_solver|done]].
  apply via_for_each. intros [key s] Hin. apply shift_entity_via; [done|]. apply Hm. rewrite Hrange in Hin. by apply elem_of_map_to_list.
Qed.

Lemma clockShift_evident lifetimes now : preserves (evident None) (clockShift limits range lifetimes now).
Proof.
  unfold clockShift. eapply (triple_bind _ _ _ (fun l d => evident None d ∧ Forall (fun r => watching r d) l)).
  - apply triple_gets. intros d Hd. split; [done|]. apply list.Forall_forall. intros r (id & Hin & Hr)%list_elem_of_omap.
    assert (GetWatch id d = Ok (r, d)) as E by (unfold GetWatch, gets, mbind, tx_bind; by rewrite Hr). by apply GetWatch_watching in E as [? _].
  - intros l. induction l as [|r l IH]; cbn [for_each]; [apply triple_ret; by intros d [? _]|].
    eapply triple_bind; [|intros ?; exact IH]. intros d a d' [Hd Hall] H. inversion Hall as [|x y Hw Hl]; subst.
    destruct (shift_watch_via _ _ _ _ _ _ Hw H) as [Hw' _]. split; [apply Hw'|]. apply shift_watch_grows in H as (_ & Hg & _).
    eapply list.Forall_impl; [exact Hl|]. intros x [Hx Hv]. split; [apply Hw'|]. destruct (db_revisions d !! _) as [v|] eqn:E; [|done]. by rewrite (Hg _ _ E).
Qed.
End Lifecycle.

(** ** Applying a bundle *)

Section Apply.
Context `{L : Libraries} (limits : Budgets) (storage : db → Z) (instance : string) (approved : list string) (lifetimes : string → string).

(** A compiled watch whose name and messages are well-formed text. *)
Definition watch_ok (p : Compiled) : Prop :=
  (∃ d, ValidString (md_Name (d_Metadata d)) = true ∧ compile d = Ok p) ∧
  ∀ t, parse_template (sp_Message (d_Spec (cp_Definition p))) = Ok t → writes_text t.

Lemma watch_ok_stored p : watch_ok p → stored_definition (watch_id p) (cp_Revision p) (cp_Definition p).
Proof.
  intros [(d & Hn & Hc) Ht]. split; [|done]. exists p. split_and!; try done. unfold compile in *. by eapply Compile_fixed.
Qed.

Lemma revised_spec old p now : r_Plan (revised old p now).1.1 = p ∧ ascii_text (revised old p now).2 = true.
Proof. unfold revised. cbv zeta. destruct (r_Revision old ≟ _); [done|]. by destruct (cp_Fingerprint (r_Plan old) ≟ _). Qed.

Lemma planned_spec q old p n now d record reset state n' d' :
  planned limits q old p n now d = Ok ((record, reset, state, n'), d') → d' = d ∧ r_Plan record = p ∧ ascii_text state = true.
Proof.
  unfold planned. intros H. tx_inv. destruct x as [[[record0 reset0] state0] n0].
  assert (x0 = d ∧ r_Plan record0 = p ∧ ascii_text state0 = true) as (-> & Hp & Hs).
  { destruct old as [r|]; tx_inv.
    - destruct (revised_spec r p now) as [Hp Hs].
      match goal with H : (_, _, _, _) = (revised r p now, n) |- _ => injection H as H _; rewrite <- H in Hp, Hs end. done.
    - by simplify_eq. }
  tx_inv. destruct (aq_resetPaused q); simplify_eq; done.
Qed.

Lemma install_evident record existing reset state now :
  stored_definition (r_ID record) (r_Revision record) (r_Definition record) → ascii_text state = true →
  preserves (evident None) (install lifetimes record existing reset state now).
Proof.
  intros Hd Hs. unfold install. eapply triple_bind; [by apply SaveWatch_present|]. intros ?.
  eapply (triple_bind _ _ _ (fun _ => present record)).
  { destruct reset; cbn [negb unless]; [|apply triple_ret; auto].
    eapply triple_bind; [apply triple_keeps_present, ResetState_keeps|]. intros ?.
    apply lifecycleEvent_present; [unfold lifecycle_kinds; set_solver|done]. }
  intros ?. eapply (triple_bind _ _ _ (fun _ => present record)).
  { destruct (existing && negb reset); [apply triple_keeps_present, RevisionState_keeps|apply triple_keeps_present, armInitial_keeps]. }
  intros ?. eapply triple_conseq; [apply lifecycleEvent_present; [unfold lifecycle_kinds; set_solver|exact Hs]|intros d H; exact H|by intros ? d [? _]].
Qed.

Lemma check_target_same available t : respects same_evidence (check_target available t).
Proof. unfold check_target. respects_tac. Qed.

Lemma apply_watch_evident q owner available now p n :
  watch_ok p → preserves (evident None) (apply_watch limits lifetimes q owner available now p n).
Proof.
  intros Hp. unfold apply_watch.
  eapply triple_bind; [apply triple_same; [apply respects_for_each; [exact _|intros; apply check_target_same]|apply evident_same]|]. intros ?.
  eapply triple_bind; [apply triple_same; [apply respects_unless; [exact _|apply checkHandoffHold_same]|apply evident_same]|]. intros ?.
  eapply (triple_bind _ _ _ (fun _ => evident None)); [by apply triple_gets|]. intros old.
  do 2 (eapply triple_bind; [apply (triple_reject _ _ _ (fun _ => evident None)); auto|]; intros ?).
  eapply (triple_bind _ _ _ (fun x d => evident None d ∧ r_Plan x.1.1.1 = p ∧ ascii_text x.1.2 = true)).
  { intros d [[[record reset] state] n'] d' Hd H. destruct (planned_spec _ _ _ _ _ _ _ _ _ _ _ H) as (-> & ? & ?). done. }
  intros [[[record reset] state] n']. cbn [fst snd]. intros d x d' (Hd & <- & Hs). revert d x d' Hd.
  eapply (triple_bind _ _ _ (fun _ => evident None)); [|intros ?; by apply triple_ret]. apply triple_unless; [auto|]. intros _. apply install_evident; [by apply watch_ok_stored|done].
Qed.

Lemma apply_watches_evident q owner available now l n :
  Forall watch_ok l → preserves (evident None) (apply_watches limits lifetimes q owner available now l n).
Proof.
  intros Hl. revert n. induction Hl as [|p l Hp _ IH]; intros n; cbn [apply_watches]; [apply triple_ret; auto|].
  eapply triple_bind; [by apply apply_watch_evident|]. intros [change n']. eapply triple_bind; [apply IH|]. intros ?. apply triple_ret. auto.
Qed.

Lemma apply_destinations_same dry now l : respects same_evidence (apply_destinations dry now l).
Proof. induction l; cbn [apply_destinations]; [apply respects_ret; exact _|]. unfold apply_destination. respects_tac. Qed.

Lemma apply_core_evident oversized owner q b closing now :
  Forall watch_ok (bu_Watches b) → preserves (evident None) (apply_core limits storage instance lifetimes oversized owner q b closing now).
Proof.
  intros Hb. unfold apply_core.
  eapply triple_bind; [apply (triple_reject _ _ _ (fun _ => evident None)); auto|]. intros ?.
  eapply (triple_bind _ _ _ (fun _ => evident None)); [by apply triple_gets|]. intros n.
  eapply (triple_bind _ _ _ (fun _ => evident None)); [by apply triple_gets|]. intros review.
  eapply triple_bind; [apply (triple_reject _ _ _ (fun _ => evident None)); auto|]. intros ?.
  eapply triple_bind; [apply triple_same; [unfold check_destinations; respects_tac|apply evident_same]|]. intros ?.
  eapply triple_bind; [apply triple_same; [apply apply_destinations_same|apply evident_same]|]. intros ?.
  eapply triple_bind; [by apply apply_watches_evident|]. intros ?.
  eapply (triple_bind _ _ _ (fun _ => evident None)); [by apply triple_gets|]. intros ?.
  do 2 (eapply triple_bind; [apply (triple_reject _ _ _ (fun _ => evident None)); auto|]; intros ?). apply triple_ret. auto.
Qed.

Lemma apply_tx_evident oversized ctx m q b closing now :
  Forall watch_ok (bu_Watches b) → respects same_evidence (mu_begin m) → respects same_evidence (mu_finish m) →
  preserves (evident None) (apply_tx limits storage instance approved lifetimes oversized ctx m q b closing now).
Proof.
  intros Hb Hbegin Hfinish. unfold apply_tx. eapply triple_bind; [apply triple_same; [apply authorizeBundle_same|apply evident_same]|]. intros ?.
  eapply triple_bind; [apply triple_same; [exact Hbegin|apply evident_same]|]. intros []; [by apply triple_ret|].
  eapply triple_bind; [by apply apply_core_evident|]. intros ?.
  eapply triple_bind; [apply triple_same; [exact Hfinish|apply evident_same]|]. intros ?. by apply triple_ret.
Qed.
End Apply.
