(* ===== verification/EntityCache.v ===== *)
(** * The entity cache against the tables: [acceptance_entities.go]

    Within one acceptance the runtime evaluates through a cache: states read
    once, writes collected and flushed.  The reference evaluates every
    observation directly on the tables.  Both end in the same tables. *)
From S2P Require Import Prelude GoText GoJson Watch Plan Evaluator RecordJson Outbox PushReceipts Records Render Acceptance TxLogic.
From S2P Require Import EvidenceTables EvidenceLifecycle.

(** ** The reference *)

Section Direct.
Context `{L : Libraries} (limits : Budgets) (current : WatchRecord) (e : Evaluator) (now : time).
Abbreviation id := (r_ID current).
Abbreviation revision := (r_Revision current).

Definition direct_route (o : Observation) : tx (list string * bool) :=
  existing ← (if o_Health o ≟ "ok" then
                found ← GetEntity id SourceEntity;
                mret (match found with Some _ => [SourceEntity] | None => [] end)
              else if negb (o_Health o ≟ "timer") || (o_Entity o ≟ "") then
                states ← GetEntities id;
                mret (fst <$> map_to_list states)
              else mret [] : tx (list string));
  lift (Route e existing o).

Definition direct_clear (o : Observation) : tx unit :=
  found ← GetEntity id SourceEntity;
  match found with
  | None => fail "unexpected end of JSON input"
  | Some bootstrap =>
      DeleteEntity id SourceEntity ;;
      unless (negb (SourceUnhealthy bootstrap))
        (appendEvaluated limits current now {| ck_Prior := bootstrap; ck_Input := o; ck_SourceRecovered := true |} (SourceRecovered e o))
  end.

Definition direct_key (o : Observation) (key : string) : tx unit :=
  found ← GetEntity id key;
  state ← (match found with
           | Some s => mret s
           | None => n ← EntityCount id;
                     reject (l_MaxEntities (sp_Limits (r_Spec current)) <=? n) ErrQuota ;;
                     mret (empty_state key)
           end : tx State);
  result ← lift (Evaluate e state o now);
  arm_missing current key o (tr_State result) ;;
  data ← encoded (copy_state (tr_State result));
  saveEntityData id key revision data now ;;
  for_each (appendEvaluated limits current now {| ck_Prior := state; ck_Input := o; ck_SourceRecovered := false |}) (tr_Events result).

Definition direct_observation (o : Observation) : tx unit :=
  '(keys, clear) ← direct_route o;
  unless (negb clear) (direct_clear o) ;;
  for_each (direct_key o) keys.

Definition direct_all (l : list Observation) : tx unit := for_each direct_observation l.
End Direct.

(** ** Steps that ignore entities *)

Definition with_entities (E : gmap string (gmap string entity_row)) (P : gmap string (gmap string (gset (string * string)))) (d : db) : db :=
  d <| db_entities := E |> <| db_pins := P |>.

(** Other entities and pins change neither the result nor what is written. *)
Definition independent {A : Type} (t : tx A) : Prop :=
  ∀ E P d, t (with_entities E P d) = (fun x => (fst x, with_entities E P (snd x))) <$> t d.

Lemma independent_ret {A : Type} (a : A) : independent (mret a).
Proof. done. Qed.
Lemma independent_bind {A B : Type} (m : tx A) (f : A → tx B) : independent m → (∀ a, independent (f a)) → independent (m ≫= f).
Proof.
  intros Hm Hf E P d. unfold mbind, tx_bind. rewrite Hm. destruct (m d) as [[a d1]|]; [|done]. cbn. apply Hf.
Qed.
Lemma independent_gets {A : Type} (f : db → A) : (∀ E P d, f (with_entities E P d) = f d) → independent (gets f).
Proof. intros H E P d. unfold gets. by rewrite H. Qed.
Lemma independent_modify f : (∀ E P d, f (with_entities E P d) = with_entities E P (f d)) → independent (modify f).
Proof. intros H E P d. unfold modify. by rewrite H. Qed.
Lemma independent_lift {A : Type} (r : result A) : independent (lift r).
Proof. intros E P d. by destruct r. Qed.
Lemma independent_encoded {A : Type} (o : option A) : independent (encoded o).
Proof. apply independent_lift. Qed.
Lemma independent_fail {A : Type} msg : independent (fail (A := A) msg).
Proof. done. Qed.
Lemma independent_reject b msg : independent (reject b msg).
Proof. by destruct b. Qed.
Lemma independent_unless b t : independent t → independent (unless b t).
Proof. by destruct b. Qed.
Lemma independent_for_each {A : Type} (f : A → tx unit) l : (∀ a, independent (f a)) → independent (for_each f l).
Proof. intros H. induction l; cbn [for_each]; [apply independent_ret|apply independent_bind; auto]. Qed.

Ltac independent_tac :=
  repeat first
    [ assumption | apply independent_ret | apply independent_lift | apply independent_encoded | apply independent_fail | apply independent_reject
    | apply independent_gets; intros; reflexivity | apply independent_modify; intros; reflexivity
    | apply independent_unless | apply independent_for_each; intros | apply independent_bind; [|intros]
    | match goal with |- context [match ?x with _ => _ end] => destruct x end ].

Section Independent.
Context `{L : Libraries} (limits : Budgets).

Lemma insert_evidence_independent id l : independent (insert_evidence id l).
Proof. induction l; cbn [insert_evidence]; independent_tac. Qed.
Lemma AppendEvent_independent ev : independent (AppendEvent ev).
Proof. unfold AppendEvent. independent_tac. apply insert_evidence_independent. Qed.
Lemma EnqueueIntent_independent i : independent (EnqueueIntent i).
Proof. intros E P d. unfold EnqueueIntent. cbn [with_entities]. change (db_outbox (with_entities E P d)) with (db_outbox d). by destruct (Enqueue i (db_outbox d)) as [[t x]|]. Qed.
Lemma enqueue_target_independent r ev now t : independent (enqueue_target limits r ev now t).
Proof. unfold enqueue_target, Pending, GetDestination. independent_tac. apply EnqueueIntent_independent. Qed.
Lemma appendEvaluated_independent r now c ev : independent (appendEvaluated limits r now c ev).
Proof.
  unfold appendEvaluated, appendEvent, SaveReplay. apply independent_bind; [|intros; independent_tac].
  apply independent_bind; [apply AppendEvent_independent|]. intros. apply independent_for_each. intros. apply enqueue_target_independent.
Qed.
Lemma SaveTimer_independent t : independent (SaveTimer t).
Proof. unfold SaveTimer. independent_tac. Qed.
End Independent.

(** ** Pending writes over the tables *)

Section Overlay.
Context (id revision : string) (now : time).

Definition entity_rows (m : gmap string State) : gmap string entity_row := (fun s => mkEntityRow revision s (timestamp now)) <$> m.

(** The tables once the pending states are written. *)
Definition overlaid (m : gmap string State) (d : db) : db :=
  if (size m =? 0)%nat then d
  else with_entities (<[id := entity_rows m ∪ rows id (db_entities d)]> (db_entities d))
                     (<[id := (entityReferences <$> m) ∪ rows id (db_pins d)]> (db_pins d)) d.

Lemma overlaid_empty d : overlaid ∅ d = d.
Proof. done. Qed.
Lemma overlaid_nonempty m d : m ≠ ∅ →
  overlaid m d = with_entities (<[id := entity_rows m ∪ rows id (db_entities d)]> (db_entities d))
                   (<[id := (entityReferences <$> m) ∪ rows id (db_pins d)]> (db_pins d)) d.
Proof. intros H. unfold overlaid. destruct (Nat.eqb_spec (size m) 0) as [E|_]; [by apply map_size_empty_inv in E|done]. Qed.

Lemma rows_insert `{Countable K} {A : Type} (m : gmap K A) t : rows id (<[id := m]> t) = m.
Proof. unfold rows. by rewrite lookup_insert_eq. Qed.

Lemma synced_wanted old wanted : synced old wanted = wanted.
Proof.
  unfold synced. apply set_eq. intros x. destruct (decide (x ∈ old)), (decide (x ∈ wanted)); set_solver.
Qed.

Lemma overlaid_entities m d : entities_of id (overlaid m d) = m ∪ entities_of id d.
Proof.
  destruct (decide (m = ∅)) as [->|Hm]; [by rewrite overlaid_empty, map_empty_union|]. rewrite overlaid_nonempty by done.
  unfold entities_of. cbn. rewrite rows_insert, map_fmap_union. f_equal. unfold entity_rows. rewrite <- map_fmap_compose.
  rewrite <- (map_fmap_id m) at 2. by apply map_fmap_ext.
Qed.

Lemma overlaid_other m d : db_revisions (overlaid m d) = db_revisions d.
Proof. unfold overlaid. by destruct (_ =? 0)%nat. Qed.

Lemma overlaid_save m d key s : known_revision id revision d = true →
  saveEntityData id key revision s now (overlaid m d) = Ok (tt, overlaid (<[key := s]> m) d).
Proof.
  intros Hk. unfold saveEntityData, syncEntityPins, mbind, tx_bind, gets, reject, modify.
  assert (known_revision id revision (overlaid m d) = true) as -> by (unfold known_revision; by rewrite overlaid_other). cbn [negb].
  unfold mret, tx_ret. f_equal. f_equal. rewrite (overlaid_nonempty (<[key := s]> m)) by apply insert_non_empty.
  unfold put, entity_rows. rewrite !fmap_insert, <- !insert_union_l, synced_wanted.
  destruct (decide (m = ∅)) as [->|Hm].
  - rewrite overlaid_empty, !fmap_empty, !map_empty_union. done.
  - rewrite overlaid_nonempty by done. cbn. rewrite !rows_insert, !insert_insert_eq. done.
Qed.

Lemma overlaid_delete m d key :
  with_entities (drop_row id key (db_entities (overlaid m d))) (drop_row id key (db_pins (overlaid m d))) (overlaid m d) =
  overlaid (delete key m) (with_entities (drop_row id key (db_entities d)) (drop_row id key (db_pins d)) d).
Proof.
  unfold drop_row. destruct (decide (m = ∅)) as [->|Hm]; [by rewrite delete_empty, !overlaid_empty|].
  rewrite (overlaid_nonempty m) by done. destruct (decide (delete key m = ∅)) as [He|He].
  - rewrite He, !overlaid_empty. cbn. rewrite !rows_insert, !insert_insert_eq, !delete_union. unfold entity_rows.
    rewrite <- !fmap_delete, He, !fmap_empty, !map_empty_union. done.
  - rewrite overlaid_nonempty by done. cbn. rewrite !rows_insert, !insert_insert_eq, !delete_union. unfold entity_rows.
    rewrite <- !fmap_delete. done.
Qed.

Lemma overlaid_DeleteEntity m d key : ∃ d1,
  DeleteEntity id key d = Ok (tt, d1) ∧ DeleteEntity id key (overlaid m d) = Ok (tt, overlaid (delete key m) d1) ∧
  entities_of id d1 = delete key (entities_of id d) ∧ db_revisions d1 = db_revisions d.
Proof.
  exists (with_entities (drop_row id key (db_entities d)) (drop_row id key (db_pins d)) d). split; [done|].
  split_and!; [|unfold entities_of, drop_row; cbn; by rewrite rows_insert, fmap_delete|done].
  rewrite <- overlaid_delete. done.
Qed.

Lemma overlaid_flush l m d : known_revision id revision d = true →
  for_each (fun kv : string * State => saveEntityData id (fst kv) revision (snd kv) now) l (overlaid m d) =
    Ok (tt, overlaid (list_to_map (reverse l) ∪ m) d).
Proof.
  intros Hk. revert m. induction l as [|[k s] l IH]; intros m; cbn [for_each].
  - cbn. by rewrite map_empty_union.
  - unfold mbind, tx_bind. cbn [fst snd]. rewrite overlaid_save by done. rewrite IH. do 2 f_equal. f_equal.
    rewrite reverse_cons, list_to_map_app. cbn. rewrite <- map_union_assoc. f_equal.
    rewrite insert_union_singleton_l, <- (insert_union_singleton_l _ k s). by rewrite insert_empty, <- insert_union_singleton_l.
Qed.

Lemma overlaid_SaveEntities m d : known_revision id revision d = true → SaveEntities id revision m now d = Ok (tt, overlaid m d).
Proof.
  intros Hk. unfold SaveEntities. rewrite <- (overlaid_empty d) at 1. rewrite overlaid_flush by done.
  by rewrite sorted_fields_map, map_union_empty.
Qed.
End Overlay.

(** ** Simulation *)

(** Two computations end the same way: with the same error, or in related
    results and tables. *)
Definition sim {A B : Type} (R : A → B → db → db → Prop) (m : result (A * db)) (m' : result (B * db)) : Prop :=
  match m, m' with
  | Ok (a, d), Ok (b, d') => R a b d d'
  | Err e, Err e' => e = e'
  | _, _ => False
  end.

Lemma sim_bind {A B C D : Type} (R : A → B → db → db → Prop) (S : C → D → db → db → Prop) (m : tx A) (m' : tx B) f g d d' :
  sim R (m d) (m' d') → (∀ a b d1 d1', R a b d1 d1' → sim S (f a d1) (g b d1')) → sim S ((m ≫= f) d) ((m' ≫= g) d').
Proof.
  unfold sim, mbind, tx_bind. destruct (m d) as [[a d1]|], (m' d') as [[b d1']|]; try done. intros HR H. by apply H.
Qed.

Section Simulation.
Context `{L : Libraries} (limits : Budgets) (current : WatchRecord) (e : Evaluator) (now : time).
Abbreviation id := (r_ID current).
Abbreviation revision := (r_Revision current).

(** What the cache says of the tables with the pending writes. *)
Record coherent (c : cache) (d : db) : Prop := {
  co_view key : ca_all c = true ∨ key ∈ ca_known c → ca_states c !! key = (ca_pending c ∪ entities_of id d) !! key;
  co_unknown key : ca_all c = false → key ∉ ca_known c → ca_states c !! key = None ∧ ca_pending c !! key = None;
  co_count : 0 <= ca_n c → ca_n c = Z.of_nat (size (ca_pending c ∪ entities_of id d));
  co_uncounted key : ca_n c < 0 → is_Some (ca_pending c !! key) → is_Some (entities_of id d !! key);
  co_revision : known_revision id revision d = true }.

Definition related (c : cache) (d d' : db) : Prop := coherent c d ∧ d' = overlaid id revision now (ca_pending c) d.

Lemma related_view c d d' : related c d d' → entities_of id d' = ca_pending c ∪ entities_of id d.
Proof. intros [_ ->]. apply overlaid_entities. Qed.

Lemma with_entities_id d : with_entities (db_entities d) (db_pins d) d = d.
Proof. by destruct d. Qed.

Lemma independent_related {A : Type} (t : tx A) c d d' :
  independent t → respects grows t → related c d d' → sim (fun a b d1 d1' => a = b ∧ related c d1 d1') (t d) (t d').
Proof.
  intros Ht Hg [Hc ->]. assert (Hf : t d = (fun x => (fst x, with_entities (db_entities d) (db_pins d) (snd x))) <$> t d).
  { rewrite <- (Ht (db_entities d) (db_pins d) d). by rewrite with_entities_id. }
  destruct (t d) as [[a d1]|msg] eqn:E.
  - cbn in Hf. injection Hf as Hd1. pose proof (Hg _ _ _ E) as (_ & Hrev & _).
    assert (He : db_entities d1 = db_entities d) by (by rewrite Hd1). assert (Hp : db_pins d1 = db_pins d) by (by rewrite Hd1).
    assert (Hov : t (overlaid id revision now (ca_pending c) d) = Ok (a, overlaid id revision now (ca_pending c) d1)).
    { unfold overlaid. destruct (_ =? 0)%nat; [done|]. rewrite Ht, E. cbn. by rewrite He, Hp. }
    rewrite Hov. cbn. split; [done|]. split; [|done]. destruct Hc as [C1 C2 C3 C4 C5]. unfold entities_of in *.
    split; unfold entities_of; rewrite ?He; try done. unfold known_revision in *. apply bool_decide_eq_true_1 in C5 as [v Hv]. apply bool_decide_eq_true_2. exists v. by apply Hrev.
  - unfold overlaid. destruct (_ =? 0)%nat; [by rewrite E|]. rewrite Ht, E. done.
Qed.

Lemma load_related key c d d' : related c d d' →
  sim (fun x found d1 d1' => x.2 = found ∧ related x.1 d1 d1' ∧ (ca_all x.1 = true ∨ key ∈ ca_known x.1) ∧ ca_states x.1 !! key = x.2)
    (load id key c d) (GetEntity id key d').
Proof.
  intros Hr. pose proof (related_view _ _ _ Hr) as Hv. destruct Hr as [[C1 C2 C3 C4 C5] ->]. unfold load, GetEntity, gets.
  destruct (negb (ca_all c) && negb (bool_decide (key ∈ ca_known c))) eqn:Hk.
  - apply andb_true_iff in Hk as [Ha%negb_true_iff Hk%negb_true_iff%bool_decide_eq_false_1].
    destruct (C2 key Ha Hk) as [Hs Hp]. unfold mbind, tx_bind, mret, tx_ret. cbn [sim].
    assert (Hnew : (ca_pending c ∪ entities_of id d) !! key = entities_of id d !! key) by (by rewrite lookup_union_r).
    rewrite Hv, Hnew. destruct (entities_of id d !! key) as [s|] eqn:Es; cbn.
    + split_and!; [by rewrite lookup_insert_eq| |right; set_solver|done]. split; [|done]. split; cbn; try done.
      * intros k Hkn. destruct (decide (k = key)) as [->|Hne]; [by rewrite lookup_insert_eq, Hnew|]. rewrite lookup_insert_ne by done.
        apply C1. set_solver.
      * intros k _ Hkn. rewrite lookup_insert_ne by set_solver. apply C2; [done|set_solver].
    + split_and!; [done| |right; set_solver|done]. split; [|done]. split; cbn; try done.
      * intros k Hkn. destruct (decide (k = key)) as [->|Hne]; [by rewrite Hs, Hnew|]. apply C1. set_solver.
      * intros k _ Hkn. apply C2; [done|set_solver].
  - assert (Hkn : ca_all c = true ∨ key ∈ ca_known c).
    { destruct (ca_all c); [by left|]. destruct (decide (key ∈ ca_known c)); [by right|]. by rewrite bool_decide_eq_false_2 in Hk. }
    unfold mret, tx_ret. cbn [sim fst snd]. split_and!; [rewrite Hv; by apply C1| |done|done]. by split.
Qed.

Lemma saved_related key data c d d' : related c d d' → ca_all c = true ∨ key ∈ ca_known c →
  (ca_n c < 0 → is_Some (ca_states c !! key)) →
  saveEntityData id key revision data now d' = Ok (tt, overlaid id revision now (<[key := data]> (ca_pending c)) d) ∧
  related (saved key data c) d (overlaid id revision now (<[key := data]> (ca_pending c)) d).
Proof.
  intros [[C1 C2 C3 C4 C5] ->] Hkn Hold. split; [by apply overlaid_save|]. split; [|done]. pose proof (C1 _ Hkn) as Hs.
  split; cbn [saved ca_all ca_known ca_states ca_pending ca_n]; try done.
  - intros k Hk. cbn. rewrite <- insert_union_l. destruct (decide (k = key)) as [->|Hne]; [by rewrite !lookup_insert_eq|]. rewrite !lookup_insert_ne by done.
    apply C1. cbn in Hk. set_solver.
  - cbn. intros k Ha Hk. rewrite !lookup_insert_ne by set_solver. apply C2; [done|set_solver].
  - cbn. rewrite <- insert_union_l, Hs. destruct ((ca_pending c ∪ entities_of id d) !! key) as [s|] eqn:E.
    + rewrite bool_decide_eq_true_2 by eauto. cbn. intros Hn. rewrite map_size_insert_Some by eauto. auto.
    + rewrite bool_decide_eq_false_2 by (by intros [? ?]). cbn. destruct (Z.leb_spec 0 (ca_n c)); [|lia]. intros _.
      rewrite map_size_insert_None, C3 by done. lia.
  - cbn. intros k Hn. assert (ca_n c < 0) as Hn'.
    { revert Hn. destruct (_ && (0 <=? ca_n c)) eqn:E; [|lia]. apply andb_true_iff in E as [_ E%Z.leb_le]. lia. }
    destruct (decide (k = key)) as [->|Hne]; [|rewrite lookup_insert_ne by done; by apply C4].
    intros _. destruct (Hold Hn') as [s Hss]. rewrite Hs in Hss. apply lookup_union_Some_raw in Hss as [Hss|[_ Hss]]; [apply C4; eauto|eauto].
Qed.

Lemma removed_related key c d d' : related c d d' → ca_all c = true ∨ key ∈ ca_known c → ∃ d1 d1',
  DeleteEntity id key d = Ok (tt, d1) ∧ DeleteEntity id key d' = Ok (tt, d1') ∧ related (removed key c) d1 d1'.
Proof.
  intros [[C1 C2 C3 C4 C5] ->] Hkn. destruct (overlaid_DeleteEntity id revision now (ca_pending c) d key) as (d1 & H1 & H2 & He & Hr).
  eexists _, _. split; [exact H1|]. split; [exact H2|]. pose proof (C1 _ Hkn) as Hs.
  assert (Hv : delete key (ca_pending c) ∪ entities_of id d1 = delete key (ca_pending c ∪ entities_of id d)) by (by rewrite He, delete_union).
  split; [|done]. split; cbn [removed ca_all ca_known ca_states ca_pending ca_n]; cbn; try done.
  - intros k Hk. rewrite Hv. destruct (decide (k = key)) as [->|Hne]; [by rewrite !lookup_delete_eq|]. rewrite !lookup_delete_ne by done. apply C1. set_solver.
  - intros k Ha Hk. rewrite !lookup_delete_ne by set_solver. apply C2; [done|set_solver].
  - rewrite Hv, Hs. destruct ((ca_pending c ∪ entities_of id d) !! key) as [s|] eqn:E.
    + rewrite bool_decide_eq_true_2 by eauto. cbn. destruct (Z.leb_spec 0 (ca_n c)); [|lia]. intros _.
      rewrite map_size_delete_Some by eauto. rewrite C3 by done. assert (size (ca_pending c ∪ entities_of id d) ≠ 0%nat) by (intros Hz%map_size_empty_iff; rewrite Hz in E; by rewrite lookup_empty in E). lia.
    + rewrite bool_decide_eq_false_2 by (by intros [? ?]). cbn. intros Hn. rewrite (delete_id _ _ E). auto.
  - intros k Hn. assert (ca_n c < 0) as Hn'.
    { revert Hn. destruct (_ && (0 <=? ca_n c)) eqn:E; [|lia]. apply andb_true_iff in E as [Eb E%Z.leb_le]. rewrite Hs in Eb. apply bool_decide_eq_true_1 in Eb as [x Ex].
      assert (size (ca_pending c ∪ entities_of id d) ≠ 0%nat) by (intros Hz%map_size_empty_iff; rewrite Hz in Ex; by rewrite lookup_empty in Ex). rewrite C3 by done. lia. }
    rewrite He. destruct (decide (k = key)) as [->|Hne]; [rewrite lookup_delete_eq; by intros [? ?]|]. rewrite !lookup_delete_ne by done. by apply C4.
  - unfold known_revision. by rewrite Hr.
Qed.

Lemma flush_related c d d' : related c d d' →
  sim (fun c' (_ : unit) d1 d1' => related c' d1 d1' ∧ ca_pending c' = ∅) (flush id revision now c d) (mret (M := tx) tt d').
Proof.
  intros [Hc ->]. unfold flush. destruct (Nat.eqb_spec (size (ca_pending c)) 0) as [E|E].
  - apply map_size_empty_inv in E. cbn. split; [by split|done].
  - unfold mbind, tx_bind. rewrite overlaid_SaveEntities by apply Hc. cbn. split; [|done]. split; [|done].
    destruct Hc as [C1 C2 C3 C4 C5]. pose proof (overlaid_entities id revision now (ca_pending c) d) as Hv.
    assert (He : ∀ m : gmap string State, ∅ ∪ m = m) by apply map_empty_union.
    split; cbn; rewrite ?He, ?Hv; try done.
    + intros k Ha Hk. split; [by apply C2|done].
    + intros k _ [x Hx]. by rewrite lookup_empty in Hx.
    + unfold known_revision. by rewrite overlaid_other.
Qed.

Lemma read_all_related c d d' : related c d d' →
  sim (fun c' m d1 d1' => related c' d1 d1' ∧ ca_states c' = m) (read_all id revision now c d) (GetEntities id d').
Proof.
  intros Hr. unfold read_all, GetEntities. destruct (ca_all c) eqn:Ha.
  - cbn. split; [done|]. rewrite (related_view _ _ _ Hr). destruct Hr as [[C1 _ _ _ _] _]. apply map_eq. intros k. apply C1. by left.
  - pose proof (flush_related c d d' Hr) as Hf. unfold mbind, tx_bind. destruct (flush id revision now c d) as [[c1 d1]|]; [|done].
    cbn in Hf. destruct Hf as [[Hc Hd1] Hp]. cbn. rewrite Hp, overlaid_empty in Hd1. subst d'. split; [|done].
    split; [|cbn; by rewrite Hp]. destruct Hc as [C1 C2 C3 C4 C5].
    assert (He : ca_pending c1 ∪ entities_of id d1 = entities_of id d1) by (by rewrite Hp, map_empty_union).
    split; cbn; rewrite ?He; try done. rewrite Hp. intros k _ [x Hx]. by rewrite lookup_empty in Hx.
Qed.

Lemma route_related o c d d' : related c d d' →
  sim (fun x y d1 d1' => x.2 = y ∧ related x.1 d1 d1') (route id revision now e o c d) (direct_route current e o d').
Proof.
  intros Hr. unfold route, direct_route.
  eapply (sim_bind (fun (x : cache * list string) y d1 d1' => x.2 = y ∧ related x.1 d1 d1')).
  - destruct (o_Health o ≟ "ok"); [|destruct (_ || _)].
    + eapply sim_bind; [by apply load_related|]. intros [c1 f] f' d1 d1' (Hf & Hr1 & _). cbn in *. by subst.
    + eapply sim_bind; [by apply read_all_related|]. intros c1 m d1 d1' [Hr1 Hm]. cbn. by subst.
    + done.
  - intros [c1 existing] existing' d1 d1' [Hx Hr1]. cbn in Hx, Hr1. subst existing'. unfold mbind, tx_bind, lift. by destruct (Route e existing o).
Qed.

Lemma clear_related o c d d' : related c d d' →
  sim (fun c' (_ : unit) d1 d1' => related c' d1 d1') (clear_source limits current e now o c d) (direct_clear limits current e now o d').
Proof.
  intros Hr. unfold clear_source, direct_clear. eapply sim_bind; [by apply load_related|].
  intros [c1 f] f' d1 d1' (Hf & Hr1 & Hk & _). cbn in *. subst f'. destruct f as [s|]; [|done].
  destruct (removed_related SourceEntity c1 d1 d1' Hr1 Hk) as (d2 & d2' & H1 & H2 & Hr2).
  unfold mbind, tx_bind. rewrite H1, H2.
  assert (Hs : sim (fun a b x y => a = b ∧ related (removed SourceEntity c1) x y)
    (unless (negb (SourceUnhealthy s)) (appendEvaluated limits current now {| ck_Prior := s; ck_Input := o; ck_SourceRecovered := true |} (SourceRecovered e o)) d2)
    (unless (negb (SourceUnhealthy s)) (appendEvaluated limits current now {| ck_Prior := s; ck_Input := o; ck_SourceRecovered := true |} (SourceRecovered e o)) d2')).
  { apply independent_related; [apply independent_unless, appendEvaluated_independent|apply respects_unless; [exact _|apply appendEvaluated_grows]|done]. }
  revert Hs. generalize (unless (negb (SourceUnhealthy s)) (appendEvaluated limits current now {| ck_Prior := s; ck_Input := o; ck_SourceRecovered := true |} (SourceRecovered e o))). intros t Hs.
  unfold sim, mret, tx_ret in *. destruct (t d2) as [[a x]|], (t d2') as [[b y]|]; try done. by destruct Hs.
Qed.

Lemma count_related c d d' : related c d d' →
  sim (fun x n d1 d1' => x.2 = n ∧ related x.1 d1 d1' ∧ 0 <= ca_n x.1 ∧ ca_known x.1 = ca_known c ∧ ca_all x.1 = ca_all c) (Acceptance.count id c d) (EntityCount id d').
Proof.
  intros Hr. pose proof (related_view _ _ _ Hr) as Hv. destruct Hr as [Hc ->]. unfold Acceptance.count, EntityCount, gets. rewrite Hv.
  destruct (Z.ltb_spec (ca_n c) 0) as [Hn|Hn]; cbn.
  - assert (Hs : size (ca_pending c ∪ entities_of id d) = size (entities_of id d)).
    { rewrite <- !size_dom. f_equal. rewrite dom_union_L. apply set_eq. intros k. rewrite elem_of_union, !elem_of_dom. split; [|by right].
      intros [Hk|Hk]; [|done]. by apply Hc. }
    rewrite Hs. split_and!; try done; [|cbn; lia]. split; [|done]. destruct Hc as [C1 C2 C3 C4 C5]. split; cbn; try done; [intros _; by rewrite Hs|intros; lia].
  - split_and!; try done. by apply Hc.
Qed.

Lemma key_related o key c d d' : related c d d' →
  sim (fun c' (_ : unit) d1 d1' => related c' d1 d1') (evaluate_key limits current e now o key c d) (direct_key limits current e now o key d').
Proof.
  intros Hr. unfold evaluate_key, direct_key. eapply sim_bind; [by apply load_related|].
  intros [c1 f] f' d1 d1' (Hf & Hr1 & Hk & Hst). cbn in Hf, Hr1, Hk, Hst. subst f'.
  eapply (sim_bind (fun (x : cache * State) s d2 d2' => x.2 = s ∧ related x.1 d2 d2' ∧ (ca_all x.1 = true ∨ key ∈ ca_known x.1) ∧
    (ca_n x.1 < 0 → is_Some (ca_states x.1 !! key)))).
  { destruct f as [s|].
    - cbn. split_and!; try done.
    - eapply sim_bind; [by apply count_related|]. intros [c2 n] n' d2 d2' (Hn & Hr2 & Hpos & Hkn & Hall). cbn in *. subst n'.
      unfold mbind, tx_bind, reject. destruct (_ <=? n); [done|]. cbn. split_and!; try done; [by rewrite Hkn, Hall|lia]. }
  intros [c2 s] s' d2 d2' (Hs & Hr2 & Hk2 & Hold). cbn in Hs, Hr2, Hk2, Hold. subst s'.
  eapply (sim_bind (fun tr tr' d3 d3' => tr = tr' ∧ related c2 d3 d3')); [unfold lift; by destruct (Evaluate e s o now)|].
  intros tr tr' d3 d3' [<- Hr3].
  eapply sim_bind; [apply (independent_related _ c2 d3 d3'); [apply independent_unless, SaveTimer_independent|apply respects_unless; [exact _|apply SaveTimer_grows]|done]|].
  intros [] [] d4 d4' [_ Hr4].
  eapply (sim_bind (fun a b d5 d5' => a = b ∧ related c2 d5 d5')); [unfold encoded, lift; by destruct (copy_state (tr_State tr))|].
  intros data data' d5 d5' [<- Hr5]. destruct (saved_related key data c2 d5 d5' Hr5 Hk2 Hold) as [Hsave Hr6].
  unfold mbind at 2, tx_bind at 2. rewrite Hsave.
  pose proof (independent_related (for_each (appendEvaluated limits current now {| ck_Prior := s; ck_Input := o; ck_SourceRecovered := false |}) (tr_Events tr))
    _ _ _ ltac:(apply independent_for_each; intros; apply appendEvaluated_independent)
    ltac:(apply respects_for_each; [exact _|intros; apply appendEvaluated_grows]) Hr6) as H7.
  revert H7. generalize (for_each (appendEvaluated limits current now {| ck_Prior := s; ck_Input := o; ck_SourceRecovered := false |}) (tr_Events tr)).
  intros t H7. unfold sim, mbind, tx_bind, mret, tx_ret in *. destruct (t d5) as [[a x]|], (t _) as [[b y]|]; try done. by destruct H7.
Qed.

Lemma keys_related o keys c d d' : related c d d' →
  sim (fun c' (_ : unit) d1 d1' => related c' d1 d1') (evaluate_keys limits current e now o keys c d) (for_each (direct_key limits current e now o) keys d').
Proof.
  revert c d d'. induction keys as [|key keys IH]; intros c d d' Hr; cbn [evaluate_keys for_each]; [done|].
  eapply sim_bind; [by apply key_related|]. intros c1 [] d1 d1' Hr1. by apply IH.
Qed.

Lemma observation_related o c d d' : related c d d' →
  sim (fun c' (_ : unit) d1 d1' => related c' d1 d1') (evaluate_observation limits current e now o c d) (direct_observation limits current e now o d').
Proof.
  intros Hr. unfold evaluate_observation, direct_observation. eapply sim_bind; [by apply route_related|].
  intros [c1 [keys clear]] y d1 d1' [<- Hr1]. cbn [fst snd] in Hr1 |- *.
  eapply (sim_bind (fun c2 (_ : unit) d2 d2' => related c2 d2 d2')).
  - unfold when_clear. destruct clear; cbn [negb unless]; [by apply clear_related|done].
  - intros c2 [] d2 d2' Hr2. by apply keys_related.
Qed.

Lemma all_related l c d d' : related c d d' →
  sim (fun c' (_ : unit) d1 d1' => related c' d1 d1') (evaluate_all limits current e now l c d) (direct_all limits current e now l d').
Proof.
  revert c d d'. unfold direct_all. induction l as [|o l IH]; intros c d d' Hr; cbn [evaluate_all for_each]; [done|].
  eapply sim_bind; [by apply observation_related|]. intros c1 [] d1 d1' Hr1. by apply IH.
Qed.

(** ** Preloading *)

Lemma fresh_related d : known_revision id revision d = true → related newAcceptanceEntities d d.
Proof.
  intros Hk. split; [|done]. split; cbn; try done.
  - intros key [?|?]; [done|set_solver].
  - intros key _ [x Hx]. by rewrite lookup_empty in Hx.
Qed.

Lemma preload_related l c d d' :
  known_revision id revision d = true → preload id e l newAcceptanceEntities d = Ok (c, d') → related c d' d.
Proof.
  intros Hk. unfold preload. destruct (_ <? 2)%nat; [intros H; tx_inv; by apply fresh_related|]. intros H. unfold EntitySubset in H. tx_inv.
  rename x into wanted. split; [|done]. split; cbn; try done.
  - intros key [?|Hw]; [done|]. rewrite map_empty_union. destruct (entities_of id d !! key) as [s|] eqn:E.
    + by apply map_lookup_filter_Some.
    + apply map_lookup_filter_None. by left.
  - intros key _ Hw. split; [|done]. apply map_lookup_filter_None. right. by intros s _.
  - intros key _ [x Hx]. by rewrite lookup_empty in Hx.
Qed.

(** An observation without a key fails wherever it is routed. *)
Definition unroutable (o : Observation) : Prop := o_Health o = "ok" ∧ ∀ existing, ∃ msg, Route e existing o = Err msg.

Lemma wanted_keys_fails l w msg : wanted_keys e l w = Err msg → Exists unroutable l.
Proof.
  revert w. induction l as [|o l IH]; intros w; cbn [wanted_keys]; [done|].
  destruct (decide (o_Health o = "ok")) as [Hh|Hh]; [rewrite bool_decide_eq_true_2 by done|rewrite bool_decide_eq_false_2 by done; cbn; intros H; right; by eapply IH].
  cbn [negb]. destruct (Route e [] o) as [[keys clear]|err] eqn:E; cbn; [intros H; right; by eapply IH|]. intros _. left. split; [done|].
  intros existing. revert E. unfold Route. cbv zeta. rewrite Hh. rewrite (bool_decide_eq_false_2 ("ok" = "timer")) by done.
  rewrite (bool_decide_eq_true_2 ("ok" = "ok")) by done. cbn [andb]. cbv iota. destruct (match_fields e o); [|done].
  destruct (EntityKey _ _); [done|]. cbn. eauto.
Qed.

Lemma unroutable_fails o d : unroutable o → ∃ msg, direct_observation limits current e now o d = Err msg.
Proof.
  intros [Hh Hr]. unfold direct_observation, direct_route, GetEntity, gets, mbind, tx_bind, mret, tx_ret. rewrite bool_decide_eq_true_2 by done. cbv iota beta.
  match goal with |- context [lift (Route e ?x o)] => destruct (Hr x) as [msg ->] end. cbn. eauto.
Qed.

Lemma direct_all_fails l d : Exists unroutable l → ∃ msg, direct_all limits current e now l d = Err msg.
Proof.
  intros H. revert d. unfold direct_all. induction H as [o l Ho|o l _ IH]; intros d; cbn [for_each]; unfold mbind, tx_bind.
  - destruct (unroutable_fails o d Ho) as [msg ->]. eauto.
  - destruct (direct_observation limits current e now o d) as [[[] d1]|]; [apply IH|eauto].
Qed.

Lemma unroutable_sequenced l ns : length ns = length l → Exists unroutable l → Exists unroutable (zip_with sequenced l ns).
Proof.
  intros Hl H. revert ns Hl. induction H as [o l Ho|o l _ IH]; intros [|n ns] Hl; try done; cbn; [left; exact Ho|right; apply IH; by injection Hl].
Qed.

(** The same tables, or a failure of both (which is rolled back). *)
Definition same_outcome {A B : Type} (m : result (A * db)) (m' : result (B * db)) : Prop :=
  match m, m' with Ok (_, d), Ok (_, d') => d = d' | Err _, Err _ => True | _, _ => False end.

(** C12: The entity cache is transparent.  For an installed watch, evaluating a
    batch of observations through the cache - preloading the keys it will need,
    reading others once, fanning source-health input out over unflushed writes,
    counting entities without rereading, and writing each entity once at the
    end - commits exactly the tables that evaluating the observations one by one
    directly on the tables commits, entity pins included, and fails exactly when
    that fails. *)
Theorem cache_transparent l ns d :
  known_revision id revision d = true → length ns = length l →
  same_outcome (evaluate_batch limits current e now l ns d) (direct_all limits current e now (zip_with sequenced l ns) d).
Proof.
  intros Hk Hl. unfold evaluate_batch. unfold mbind at 1, tx_bind at 1. destruct (preload id e l newAcceptanceEntities d) as [[c d1]|msg] eqn:Hp.
  - pose proof (all_related (zip_with sequenced l ns) _ _ _ (preload_related _ _ _ _ Hk Hp)) as Ha. unfold mbind, tx_bind, sim in *.
    destruct (evaluate_all limits current e now (zip_with sequenced l ns) c d1) as [[c2 d2]|], (direct_all _ _ _ _ _ d) as [[[] d2']|]; try done.
    pose proof (flush_related _ _ _ Ha) as Hf. unfold sim, mret, tx_ret in Hf. destruct (flush id revision now c2 d2) as [[c3 d3]|]; [|done].
    destruct Hf as [[_ ->] Hpend]. cbn. by rewrite Hpend, overlaid_empty.
  - unfold preload in Hp. destruct (_ <? 2)%nat; [done|]. unfold mbind, tx_bind, lift in Hp. destruct (wanted_keys e l _) as [w|err] eqn:Hw; [done|].
    destruct (direct_all_fails (zip_with sequenced l ns) d) as [m ->]; [|done]. eapply unroutable_sequenced; [done|by eapply wanted_keys_fails].
Qed.
End Simulation.
