(* ===== verification/Integrity.v ===== *)
(** * Integrity of the tables

    Foreign keys, unique indexes, content-addressed definitions and the reference
    pins of entities, over any run of the runtime. *)
From S2P Require Import Prelude GoText GoJson Watch Plan PlanSpec Evaluator RecordJson Outbox OutboxFacts PushReceipts Records Access Render Acceptance Lifecycle Maintenance Apply Handoff Runtime.
From S2P Require Import OutboxLinks TxLogic RuntimeSteps EvidenceFacts EvidenceLifecycle EntityCache.

(** ** Well-formed tables *)

Record typed (d : db) : Prop := {
  ty_watches id w : db_watches d !! id = Some w →
    is_Some (db_revisions d !! (id, w_revision w)) ∧ w_status w ∈ ["running"; "paused"; "deleted"] ∧ 1 <= w_generation w ∧ id ∉ db_purged d;
  ty_entities id key n : rows id (db_entities d) !! key = Some n →
    is_Some (db_revisions d !! (id, n_revision n)) ∧ rows id (db_pins d) !! key = Some (entityReferences (n_state n));
  ty_pins id key p : rows id (db_pins d) !! key = Some p → is_Some (rows id (db_entities d) !! key);
  ty_timers id k t : rows id (db_timers d) !! k = Some t → is_Some (db_watches d !! id);
  ty_receipts id k x : rows id (db_receipts d) !! k = Some x → is_Some (db_watches d !! id);
  ty_observations n b : db_observations d !! n = Some b → n < db_next_observation d ∧ is_Some (db_revisions d !! (b_watch b, b_revision b));
  ty_inputs n m b b' : db_observations d !! n = Some b → db_observations d !! m = Some b' →
    b_watch b = b_watch b' → b_generation b = b_generation b' → b_input b = b_input b' → n = m;
  ty_events id y : db_events d !! id = Some y → y_sequence y < db_next_event d;
  ty_sequences id id' y y' : db_events d !! id = Some y → db_events d !! id' = Some y' → y_sequence y = y_sequence y' → id = id';
  ty_evidence id n : (id, n) ∈ db_evidence d → is_Some (db_events d !! id) ∧ is_Some (db_observations d !! n);
  ty_replays id : is_Some (db_replays d !! id) → is_Some (db_events d !! id);
  ty_revisions id rev v : db_revisions d !! (id, rev) = Some v →
    md_ID (d_Metadata (v_definition v)) = id ∧ revision_of (definition_json (v_definition v)) = Ok rev;
  ty_handoffs id h : db_handoffs d !! id = Some h → is_Some (db_watches d !! hr_watch h);
  ty_outbox : linked (dom (db_events d)) (db_outbox d);
  ty_definitions id y : db_events d !! id = Some y → is_Some (db_revisions d !! (y_watch y, ev_Revision (y_body y)));
  ty_destinations id rev : db_destinations d !! id = Some rev → is_Some (tb_revisions (db_outbox d) !! (id, rev));
  ty_pushes id x : pt_last (db_push d) !! id = Some x → is_Some (db_watches d !! id) }.

(** A step from well-formed tables ends in well-formed tables. *)
Definition well_typed (d d' : db) : Prop := typed d → typed d'.
#[global] Instance well_typed_preorder : PreOrder well_typed.
Proof. split; [by intros d H|]. intros a b c H1 H2 H. auto. Qed.

(** Rows of one watch, written, deleted or rewritten. *)
Lemma rows_put `{Countable K} {A : Type} id (k : K) (a : A) m id' k' :
  rows id' (put id k a m) !! k' = if decide (id' = id ∧ k' = k) then Some a else rows id' m !! k'.
Proof.
  unfold put, rows. destruct (decide (id' = id)) as [->|Hi].
  - rewrite lookup_insert_eq. cbn. destruct (decide (k' = k)) as [->|Hk].
    + rewrite lookup_insert_eq. by destruct (decide _) as [|[]].
    + rewrite lookup_insert_ne by done. by destruct (decide _) as [[]|].
  - rewrite lookup_insert_ne by done. by destruct (decide _) as [[]|].
Qed.
Lemma rows_drop `{Countable K} {A : Type} id (k : K) (m : gmap string (gmap K A)) id' k' :
  rows id' (drop_row id k m) !! k' = if decide (id' = id ∧ k' = k) then None else rows id' m !! k'.
Proof.
  unfold drop_row, rows. destruct (decide (id' = id)) as [->|Hi].
  - rewrite lookup_insert_eq. cbn. destruct (decide (k' = k)) as [->|Hk].
    + rewrite lookup_delete_eq. by destruct (decide _) as [|[]].
    + rewrite lookup_delete_ne by done. by destruct (decide _) as [[]|].
  - rewrite lookup_insert_ne by done. by destruct (decide _) as [[]|].
Qed.
Lemma rows_delete `{Countable K} {A : Type} id (m : gmap string (gmap K A)) id' k' :
  rows id' (delete id m) !! k' = if decide (id' = id) then None else rows id' m !! k'.
Proof.
  unfold rows. destruct (decide (id' = id)) as [->|Hi]; [rewrite lookup_delete_eq; cbn; by rewrite lookup_empty|by rewrite lookup_delete_ne].
Qed.
Lemma rows_set `{Countable K} {A : Type} id (x : gmap K A) m id' k' :
  rows id' (<[id := x]> m) !! k' = if decide (id' = id) then x !! k' else rows id' m !! k'.
Proof. unfold rows. destruct (decide (id' = id)) as [->|Hi]; [by rewrite lookup_insert_eq|by rewrite lookup_insert_ne]. Qed.

(** Steps on tables without references. *)
Lemma typed_same d d' :
  db_watches d' = db_watches d → db_revisions d' = db_revisions d → db_entities d' = db_entities d → db_pins d' = db_pins d →
  db_timers d' = db_timers d → db_receipts d' = db_receipts d → db_observations d' = db_observations d → db_next_observation d' = db_next_observation d →
  db_events d' = db_events d → db_next_event d' = db_next_event d → db_evidence d' = db_evidence d → db_replays d' = db_replays d →
  db_purged d' = db_purged d → db_handoffs d' = db_handoffs d → db_destinations d' = db_destinations d →
  (linked (dom (db_events d)) (db_outbox d) → linked (dom (db_events d)) (db_outbox d')) →
  (∀ id rev, db_destinations d !! id = Some rev → is_Some (tb_revisions (db_outbox d) !! (id, rev)) → is_Some (tb_revisions (db_outbox d') !! (id, rev))) →
  (∀ id, is_Some (pt_last (db_push d') !! id) → is_Some (pt_last (db_push d) !! id) ∨ is_Some (db_watches d !! id)) → well_typed d d'.
Proof.
  intros E1 E2 E3 E4 E5 E6 E7 E8 E9 E10 E11 E12 E13 E14 E15 Hout Hrev Hpush [T1 T2 T3 T4 T5 T6 T7 T8 T9 T10 T11 T12 T13 T14 T15 T16 T17].
  split; rewrite ?E1, ?E2, ?E3, ?E4, ?E5, ?E6, ?E7, ?E8, ?E9, ?E10, ?E11, ?E12, ?E13, ?E14, ?E15; eauto.
  intros id x Hx. destruct (Hpush id) as [[y Hy]|H]; [by exists x|eauto|done].
Qed.
(** The writes of the outbox alone keep the destination revisions. *)
Lemma update_rows_revisions f ds t : tb_revisions (fold_left (fun t r => update_row f r t) ds t) = tb_revisions t.
Proof. revert t. induction ds as [|r ds IH]; intros t; [done|]. cbn [fold_left]. rewrite IH. apply update_row_tables. Qed.
Lemma step_revisions t o : tb_revisions (step t o) = tb_revisions t.
Proof.
  destruct o as [i|now lease token|i r next now|id now|w now]; cbn [step].
  - destruct (Enqueue i t) as [[t' id]|] eqn:E; [|done]. unfold Enqueue in E. apply fail_if_bind in E as [_ E]. apply fail_if_bind in E as [_ E]. by injection E as <- _.
  - destruct (Claim _ _ _ t) as [[t' i]|] eqn:E; [|done]. unfold Claim in E. apply fail_if_bind in E as [_ E].
    destruct (claim_row _ t) as [[s o]|]; [|by injection E as <- _]. apply bind_Ok in E as (j & _ & E). injection E as <- _. apply update_row_tables.
  - destruct (Finish _ _ _ _ t) as [t'|] eqn:E; [|done]. unfold Finish in E. cbv zeta in E. apply fail_if_bind in E as [_ E].
    destruct (find _ (tb_outbox t)) as [x|]; [|done]. injection E as <-. destruct (After _ now); apply update_row_tables.
  - destruct (Retry _ _ t) as [t'|] eqn:E; [|done]. unfold Retry in E. apply bind_Ok in E as (i & _ & E). apply fail_if_bind in E as [_ E].
    destruct (row_of id t) as [x|]; [|done]. injection E as <-. apply update_row_tables.
  - unfold CancelDeliveries. by rewrite update_rows_revisions.
Qed.

Section Typed.
Context `{L : Libraries}.

Lemma AppendObservation_typed id revision generation o : respects well_typed (AppendObservation id revision generation o).
Proof.
  intros d n d' H [T1 T2 T3 T4 T5 T6 T7 T8 T9 T10 T11 T12 T13 T14 T15 T16 T17]. unfold AppendObservation in H. tx_inv.
  match goal with H : _ || _ = false |- _ => apply orb_false_iff in H as [Hu Hk%negb_false_iff%bool_decide_eq_true_1] end.
  set (b0 := {| b_watch := id; b_revision := revision; b_generation := generation; b_input := o_InputID o; b_accepted := _; b_body := _ |}).
  assert (Hfresh : ∀ m b, db_observations d !! m = Some b → b_watch b = id → b_generation b = generation → b_input b = o_InputID o → False).
  { intros m b Hb E1 E2 E3. apply Bool.not_true_iff_false in Hu. apply Hu, existsb_exists. exists (m, b). split; [by apply list_elem_of_In, elem_of_map_to_list|].
    unfold same_input. cbn. rewrite E1, E2, E3, !bool_decide_eq_true_2 by done. by rewrite Z.eqb_refl. }
  split; cbn; try done.
  - intros m b. destruct (decide (m = db_next_observation d)) as [->|Hm]; [rewrite lookup_insert_eq|rewrite lookup_insert_ne by done].
    + intros [= <-]. split; [lia|done].
    + intros Hb. destruct (T6 _ _ Hb). split; [lia|done].
  - intros m m' b b'. destruct (decide (m = db_next_observation d)) as [->|Hm]; [rewrite lookup_insert_eq|rewrite lookup_insert_ne by done];
      (destruct (decide (m' = db_next_observation d)) as [->|Hm']; [rewrite lookup_insert_eq|rewrite lookup_insert_ne by done]); try done.
    + intros [= <-] Hb E1 E2 E3. cbn in *. exfalso. by eapply Hfresh.
    + intros Hb [= <-] E1 E2 E3. cbn in *. exfalso. by eapply Hfresh.
    + by apply T7.
  - intros e m He. destruct (T10 _ _ He) as [? [b Hb]]. split; [done|]. destruct (T6 _ _ Hb). rewrite lookup_insert_ne by lia. eauto.
Qed.

Lemma watch_update_typed d id w f :
  db_watches d !! id = Some w → w_revision (f w) = w_revision w → w_status (f w) = w_status w → w_generation (f w) = w_generation w →
  well_typed d (d <| db_watches := <[id := f w]> (db_watches d) |>).
Proof.
  intros Hw E1 E2 E3 [T1 T2 T3 T4 T5 T6 T7 T8 T9 T10 T11 T12 T13 T14 T15 T16 T17]. split; cbn; try done.
  - intros i x. destruct (decide (i = id)) as [->|Hi]; [rewrite lookup_insert_eq|rewrite lookup_insert_ne by done; apply T1].
    intros [= <-]. rewrite E1, E2, E3. by apply T1.
  - intros i k t Ht. destruct (decide (i = id)) as [->|Hi]; [rewrite lookup_insert_eq; eauto|rewrite lookup_insert_ne by done; eauto].
  - intros i k t Ht. destruct (decide (i = id)) as [->|Hi]; [rewrite lookup_insert_eq; eauto|rewrite lookup_insert_ne by done; eauto].
  - intros i h Hh. destruct (decide (hr_watch h = id)) as [->|Hi]; [rewrite lookup_insert_eq; eauto|rewrite lookup_insert_ne by done; eauto].
  - intros i x Hx. destruct (decide (i = id)) as [->|Hi]; [rewrite lookup_insert_eq; eauto|rewrite lookup_insert_ne by done; eauto].
Qed.

Lemma SaveCheckpoint_typed id g a b c : respects well_typed (SaveCheckpoint id g a b c).
Proof.
  intros d x d' H. unfold SaveCheckpoint in H. tx_inv. destruct (db_watches d !! id) as [w|] eqn:E; [|done]. destruct (_ && _); [|done]. tx_inv.
  by apply (watch_update_typed d id w (fun w => w <| w_next := timestamp a |> <| w_last_input := timestamp b |> <| w_cursor := c |> <| w_last_error := "" |>)).
Qed.
Lemma SetLastError_typed id g detail next : respects well_typed (SetLastError id g detail next).
Proof.
  apply respects_modify. intros d. destruct (db_watches d !! id) as [w|] eqn:E; [|reflexivity]. destruct (_ && _); [|reflexivity]. cbv zeta.
  apply (watch_update_typed d id w (fun w => if IsZero next then w <| w_last_error := detail |> else w <| w_last_error := detail |> <| w_next := timestamp next |>)); [done|..]; by destruct (IsZero next).
Qed.

Lemma SaveTimer_typed t : respects well_typed (SaveTimer t).
Proof.
  intros d x d' H [T1 T2 T3 T4 T5 T6 T7 T8 T9 T10 T11 T12 T13 T14 T15 T16 T17]. unfold SaveTimer in H. tx_inv. split; cbn; try done.
  intros id k y. rewrite rows_put. destruct (decide _) as [[-> ->]|]; [|eauto]. intros _.
  match goal with H : negb (known_watch _ d) = false |- _ => apply negb_false_iff, bool_decide_eq_true_1 in H end. done.
Qed.
Lemma DeleteTimer_typed t : respects well_typed (DeleteTimer t).
Proof.
  apply respects_modify. intros d. destruct (rows _ _ !! _); [|reflexivity]. destruct (_ && _); [|reflexivity].
  intros [T1 T2 T3 T4 T5 T6 T7 T8 T9 T10 T11 T12 T13 T14 T15 T16 T17]. split; cbn; try done. intros id k y. rewrite rows_drop. destruct (decide _); [done|eauto].
Qed.
Lemma DeleteTimers_typed id : respects well_typed (DeleteTimers id).
Proof.
  apply respects_modify. intros d [T1 T2 T3 T4 T5 T6 T7 T8 T9 T10 T11 T12 T13 T14 T15 T16 T17]. split; cbn; try done. intros i k y. rewrite rows_delete. destruct (decide _); [done|eauto].
Qed.
Lemma SaveReceipt_typed id g i f l x : respects well_typed (SaveReceipt id g i f l x).
Proof.
  intros d y d' H [T1 T2 T3 T4 T5 T6 T7 T8 T9 T10 T11 T12 T13 T14 T15 T16 T17]. unfold SaveReceipt in H. tx_inv. split; cbn; try done.
  intros j k z. rewrite rows_put. destruct (decide _) as [[-> ->]|]; [|eauto]. intros _.
  match goal with H : negb (known_watch _ d) = false |- _ => apply negb_false_iff, bool_decide_eq_true_1 in H end. done.
Qed.

Lemma SaveDestination_typed c now : respects well_typed (SaveDestination c now).
Proof.
  intros d a d' H Ht. unfold SaveDestination in H. tx_inv. set (k := (md_ID (dst_Metadata (cd_Definition c)), cd_Revision c)) in *.
  match goal with H : unless _ _ d = Ok (_, ?dm) |- _ => rename H into Hu; assert (Hm : typed dm ∧ is_Some (tb_revisions (db_outbox dm) !! k)) end.
  { case_bool_decide as Hk; cbn in Hu; tx_inv; [done|]. split; [|cbn; by rewrite lookup_insert_eq].
    assert (Hgrow : ∀ k' x, is_Some (tb_revisions (db_outbox d) !! k') → is_Some (<[k := x]> (tb_revisions (db_outbox d)) !! k')).
    { intros k' x0 Hk'. destruct (decide (k' = k)) as [->|]; [rewrite lookup_insert_eq|rewrite lookup_insert_ne by done]; eauto. }
    eapply typed_same; [..|exact Ht]; try done; cbn; eauto. apply revisions_linked. eauto. }
  destruct Hm as [[T1 T2 T3 T4 T5 T6 T7 T8 T9 T10 T11 T12 T13 T14 T15 T16 T17] Hk]. split; cbn; try done.
  intros id rev [[<- <-]|[_ Hr]]%lookup_insert_Some; [done|eauto].
Qed.

(** ** Events *)

Lemma insert_evidence_typed id l d a d' :
  insert_evidence id l d = Ok (a, d') → is_Some (db_events d !! id) → typed d → typed d'.
Proof.
  revert d. induction l as [|n l IH]; intros d H He Ht; cbn [insert_evidence] in H; tx_inv; [done|].
  match goal with H : bool_decide _ || _ = false |- _ => apply orb_false_iff in H as [_ Hn%negb_false_iff%bool_decide_eq_true_1] end.
  eapply IH; [eassumption|done|]. destruct Ht as [T1 T2 T3 T4 T5 T6 T7 T8 T9 T10 T11 T12 T13 T14 T15 T16 T17]. split; cbn; try done.
  intros e m [[= -> ->]%elem_of_singleton|Hm]%elem_of_union; [done|eauto].
Qed.

Lemma copy_event_revision e b : copy_event e = Some b → ev_Revision b = sanitize (ev_Revision e).
Proof. unfold copy_event. by intros (a & _ & (fs & _ & [= <-])%bind_Some)%bind_Some. Qed.

Lemma AppendEvent_typed ev : respects well_typed (AppendEvent ev).
Proof.
  intros d n d' H Ht. unfold AppendEvent in H. tx_inv.
  match goal with H : _ || _ = false |- _ => apply orb_false_iff in H as [Hu%bool_decide_eq_false_1%eq_None_not_Some Hk%negb_false_iff%bool_decide_eq_true_1] end.
  match goal with H : copy_event ev = Some _ |- _ => rename H into Hb end.
  eapply insert_evidence_typed; [eassumption|cbn; by rewrite lookup_insert_eq|].
  destruct Ht as [T1 T2 T3 T4 T5 T6 T7 T8 T9 T10 T11 T12 T13 T14 T15 T16 T17]. split; cbn; try done.
  - intros id y. destruct (decide (id = ev_ID ev)) as [->|Hi]; [rewrite lookup_insert_eq|rewrite lookup_insert_ne by done].
    + intros [= <-]. cbn. lia.
    + intros Hy. pose proof (T8 _ _ Hy). lia.
  - intros id id' y y'. destruct (decide (id = ev_ID ev)) as [->|Hi]; [rewrite lookup_insert_eq|rewrite lookup_insert_ne by done];
      (destruct (decide (id' = ev_ID ev)) as [->|Hi']; [rewrite lookup_insert_eq|rewrite lookup_insert_ne by done]); try done.
    + intros [= <-] Hy E. cbn in E. pose proof (T8 _ _ Hy). lia.
    + intros Hy [= <-] E. cbn in E. pose proof (T8 _ _ Hy). lia.
    + by apply T9.
  - intros id m Hm. destruct (T10 _ _ Hm) as [[y Hy] ?]. split; [|done]. rewrite lookup_insert_ne by congruence. eauto.
  - intros id Hr. destruct (T11 _ Hr) as [y Hy]. rewrite lookup_insert_ne by congruence. eauto.
  - rewrite dom_insert_L. by apply new_event_linked.
  - intros id y [[<- <-]|[_ Hy]]%lookup_insert_Some; [|eauto]. cbn. destruct Hk as [v Hv]. apply copy_event_revision in Hb as ->.
    destruct (T12 _ _ _ Hv) as [_ Hr]. unfold revision_of in Hr. destruct (definition_json _); [|done]. injection Hr as Hr.
    rewrite <- Hr, (proj1 (text_ok_sanitize _) (Revision_ok _)), Hr. eauto.
Qed.

Lemma SaveReplay_typed id c : respects well_typed (SaveReplay id c).
Proof.
  intros d a d' H [T1 T2 T3 T4 T5 T6 T7 T8 T9 T10 T11 T12 T13 T14 T15 T16 T17]. unfold SaveReplay in H. tx_inv.
  match goal with H : _ || _ = false |- _ => apply orb_false_iff in H as [_ He%negb_false_iff%bool_decide_eq_true_1] end.
  split; cbn; try done. intros i. destruct (decide (i = id)) as [->|Hi]; [done|]. rewrite lookup_insert_ne by done. apply T11.
Qed.

(** ** Entities and their pins *)

Lemma saveEntityData_typed id key revision s now : respects well_typed (saveEntityData id key revision s now).
Proof.
  intros d a d' H [T1 T2 T3 T4 T5 T6 T7 T8 T9 T10 T11 T12 T13 T14 T15 T16 T17]. unfold saveEntityData, syncEntityPins in H. tx_inv.
  match goal with H : negb (known_revision _ _ d) = false |- _ => apply negb_false_iff, bool_decide_eq_true_1 in H; rename H into Hk end.
  split; cbn; try done.
  - intros i k n. rewrite !rows_put, synced_wanted. destruct (decide _) as [[-> ->]|]; [by intros [= <-]|apply T2].
  - intros i k p. rewrite !rows_put. destruct (decide _) as [|]; [eauto|apply T3].
Qed.
Lemma DeleteEntity_typed id key : respects well_typed (DeleteEntity id key).
Proof.
  apply respects_modify. intros d [T1 T2 T3 T4 T5 T6 T7 T8 T9 T10 T11 T12 T13 T14 T15 T16 T17]. split; cbn; try done.
  - intros i k n. rewrite !rows_drop. destruct (decide _); [done|apply T2].
  - intros i k p. rewrite !rows_drop. destruct (decide _); [done|apply T3].
Qed.
Lemma SaveHandoff_typed h : respects well_typed (SaveHandoff h).
Proof.
  intros d a d' H [T1 T2 T3 T4 T5 T6 T7 T8 T9 T10 T11 T12 T13 T14 T15 T16 T17]. unfold SaveHandoff in H. tx_inv. split; try assumption; cbn.
  match goal with H : _ || _ = false |- _ => apply orb_false_iff in H as [Hw%negb_false_iff%bool_decide_eq_true_1 _] end.
  intros i row [[<- <-]|[_ Hi]]%lookup_insert_Some; [exact Hw|by eapply T13].
Qed.
Lemma ResetState_typed id : respects well_typed (ResetState id).
Proof.
  apply respects_modify. intros d [T1 T2 T3 T4 T5 T6 T7 T8 T9 T10 T11 T12 T13 T14 T15 T16 T17]. split; cbn; try done; intros i k n; rewrite !rows_delete; (destruct (decide _); [done|eauto]).
Qed.
Lemma RevisionState_typed id revision g : respects well_typed (RevisionState id revision g).
Proof.
  intros d a d' H [T1 T2 T3 T4 T5 T6 T7 T8 T9 T10 T11 T12 T13 T14 T15 T16 T17]. unfold RevisionState in H. tx_inv.
  match goal with H : _ && _ = false |- _ => rename H into Hk end. split; cbn; try done.
  - intros i k n. rewrite rows_set. destruct (decide (i = id)) as [->|]; [|apply T2]. rewrite lookup_fmap.
    destruct (rows id (db_entities d) !! k) as [n0|] eqn:E; [|done]. intros [= <-]. cbn. split; [|by apply T2].
    destruct (Nat.eqb_spec (size (rows id (db_entities d))) 0) as [Ez|_]; [apply map_size_empty_inv in Ez; rewrite Ez in E; by rewrite lookup_empty in E|].
    cbn in Hk. by apply negb_false_iff, bool_decide_eq_true_1 in Hk.
  - intros i k p. rewrite rows_set. destruct (decide (i = id)) as [->|]; [|apply T3]. intros Hp. rewrite lookup_fmap. destruct (T3 _ _ _ Hp) as [n ->]. eauto.
  - intros i k t. rewrite rows_set. destruct (decide (i = id)) as [->|]; [|apply T4]. rewrite lookup_fmap. destruct (rows id (db_timers d) !! k) eqn:E; [|done]. eauto.
Qed.

(** ** Watches *)

Lemma saved_watch_fields r lifetime old :
  w_revision (saved_watch r lifetime old) = r_Revision r ∧ w_status (saved_watch r lifetime old) = r_Status r ∧ w_generation (saved_watch r lifetime old) = r_Generation r.
Proof. by destruct old. Qed.

Lemma SaveWatch_row r now lifetime d a d' :
  SaveWatch r now lifetime d = Ok (a, d') → ∃ dm w, r_ID r ∉ db_purged d ∧ is_Some (db_revisions dm !! (r_ID r, r_Revision r)) ∧
    (∀ k v, db_revisions d !! k = Some v → db_revisions dm !! k = Some v) ∧
    (∀ id rev v, db_revisions dm !! (id, rev) = Some v → db_revisions d !! (id, rev) = Some v ∨
      md_ID (d_Metadata (v_definition v)) = id ∧ revision_of (definition_json (v_definition v)) = Ok rev) ∧ dm = d <| db_revisions := db_revisions dm |> ∧
    w_revision w = r_Revision r ∧ w_status w ∈ ["running"; "paused"; "deleted"] ∧ w_generation w = r_Generation r ∧ 1 <= r_Generation r ∧
    (w_status w = r_Status r ∧ w_next w = timestamp (r_NextAt r)) ∧ d' = dm <| db_watches := <[r_ID r := w]> (db_watches d) |>.
Proof.
  unfold SaveWatch. intros H. tx_inv. match goal with H : compile _ = Ok ?x |- _ => pose proof (compile_id _ _ H) as Hid; unfold compile in H; apply Compile_inv in H as (_ & _ & _ & _ & _ & Hrev & _) end.
  match goal with H : _ || _ || _ = false |- _ => apply orb_false_iff in H as [[Hr%negb_false_iff%bool_decide_eq_true_1 _]%orb_false_iff Hg%Z.ltb_ge] end.
  match goal with H : bool_decide (_ ∈ db_purged _) = false |- _ => apply bool_decide_eq_false_1 in H; rename H into Hp end.
  match goal with H : negb (valid_status _) = false |- _ => apply negb_false_iff, bool_decide_eq_true_1 in H; rename H into Hs end.
  fold (r_ID r) in Hid. rewrite Hr in Hrev. rewrite Hid, Hr in *.
  destruct (saved_watch_fields r lifetime (db_watches d !! r_ID r)) as (E1 & E2 & E3).
  match goal with H : unless ?b ?t d = Ok (_, ?dm) |- _ => exists dm; rename H into Hu; destruct b eqn:Hk end.
  - apply bool_decide_eq_true_1 in Hk. cbn in Hu. tx_inv. exists (saved_watch r lifetime (db_watches d !! r_ID r)).
    split_and!; rewrite ?E2; try done; [by left|by destruct d].
  - apply bool_decide_eq_false_1, eq_None_not_Some in Hk. cbn in Hu. tx_inv. exists (saved_watch r lifetime (db_watches d !! r_ID r)).
    split_and!; rewrite ?E2; try done.
    + cbn. by rewrite lookup_insert_eq.
    + intros k v Hv. cbn. rewrite lookup_insert_ne by congruence. done.
    + intros id rev v. cbn. destruct (decide ((id, rev) = (r_ID r, r_Revision r))) as [[= -> ->]|Hne]; [rewrite lookup_insert_eq|rewrite lookup_insert_ne by done; by left].
      intros [= <-]. by right.
Qed.

Lemma SaveWatch_typed r now lifetime : respects well_typed (SaveWatch r now lifetime).
Proof.
  intros d a d' (dm & w & Hp & Hrev & Hgrow & Hnew & Edm & E1 & E2 & E3 & Hg & _ & ->)%SaveWatch_row [T1 T2 T3 T4 T5 T6 T7 T8 T9 T10 T11 T12 T13 T14 T15 T16 T17].
  assert (Hg' : ∀ k, is_Some (db_revisions d !! k) → is_Some (db_revisions dm !! k)) by (intros k [v Hv]; eauto).
  rewrite Edm. split; cbn; try done.
  - intros i x. destruct (decide (i = r_ID r)) as [->|Hi]; [rewrite lookup_insert_eq|rewrite lookup_insert_ne by done].
    + intros [= <-]. rewrite E1, E3. done.
    + intros Hx. destruct (T1 _ _ Hx) as (A & B & C & D). auto.
  - intros i k n Hn. destruct (T2 _ _ _ Hn). auto.
  - intros i k t Ht. destruct (decide (i = r_ID r)) as [->|Hi]; [rewrite lookup_insert_eq; eauto|rewrite lookup_insert_ne by done; eauto].
  - intros i k t Ht. destruct (decide (i = r_ID r)) as [->|Hi]; [rewrite lookup_insert_eq; eauto|rewrite lookup_insert_ne by done; eauto].
  - intros n b Hb. destruct (T6 _ _ Hb). auto.
  - intros i rev v Hv. destruct (Hnew _ _ _ Hv) as [H'|H']; [by apply T12|done].
  - intros i h Hh. destruct (decide (hr_watch h = r_ID r)) as [->|Hi]; [rewrite lookup_insert_eq; eauto|rewrite lookup_insert_ne by done; eauto].
  - eauto.
  - intros i x Hx. destruct (decide (i = r_ID r)) as [->|Hi]; [rewrite lookup_insert_eq; eauto|rewrite lookup_insert_ne by done; eauto].
Qed.

(** The keys left when rows are removed by key. *)
Lemma dom_without `{Countable K} {A : Type} (gone : gset K) (m : gmap K A) : dom (filter (fun kv : K * A => fst kv ∉ gone) m) = dom m ∖ gone.
Proof.
  apply set_eq. intros k. rewrite elem_of_difference, !elem_of_dom. split.
  - intros [a [Ha Hk]%map_lookup_filter_Some]. eauto.
  - intros [[a Ha] Hk]. exists a. by apply map_lookup_filter_Some.
Qed.

(** Purging deletes a watch with everything that names it. *)
Lemma kept_revision (id : string) (k : string * string) (m : gmap (string * string) revision_row) :
  fst k ≠ id → is_Some (m !! k) → is_Some (filter (fun kv : (string * string) * revision_row => fst (fst kv) ≠ id) m !! k).
Proof. intros Hk [v Hv]. exists v. by apply map_lookup_filter_Some. Qed.

Lemma PurgeWatch_typed id : respects well_typed (PurgeWatch id).
Proof.
  intros d a d' H [T1 T2 T3 T4 T5 T6 T7 T8 T9 T10 T11 T12 T13 T14 T15 T16 T17]. unfold PurgeWatch, GetWatch, HandoffHold in H. tx_inv.
  destruct (watch_in id d) as [r|]; [|done]. tx_inv.
  match goal with H : bool_decide (Exists _ _) || _ = false |- _ => apply orb_false_iff in H as [Hfor%bool_decide_eq_false_1 Hfree%bool_decide_eq_false_1] end.
  split; cbn.
  - intros i w [Hi Hw]%lookup_delete_Some. destruct (T1 _ _ Hw) as (A & B & C & D). split_and!; try done; [by apply kept_revision|set_solver].
  - intros i k n. rewrite !rows_delete. destruct (decide (i = id)); [done|]. intros Hn. destruct (T2 _ _ _ Hn). split; [by apply kept_revision|done].
  - intros i k n. rewrite !rows_delete. destruct (decide (i = id)); [done|]. apply T3.
  - intros i k t. rewrite rows_delete. destruct (decide (i = id)); [done|]. rewrite lookup_delete_ne by done. apply T4.
  - intros i k t. rewrite rows_delete. destruct (decide (i = id)); [done|]. rewrite lookup_delete_ne by done. apply T5.
  - intros n b [Hb Hne]%map_lookup_filter_Some. destruct (T6 _ _ Hb). split; [done|by apply kept_revision].
  - intros n m b b' [Hb _]%map_lookup_filter_Some [Hb' _]%map_lookup_filter_Some. by apply T7.
  - intros e y [Hy _]%map_lookup_filter_Some. eauto.
  - intros e e' y y' [Hy _]%map_lookup_filter_Some [Hy' _]%map_lookup_filter_Some. by apply T9.
  - intros e n [He Hin]%elem_of_filter. destruct (T10 _ _ Hin) as [[y Hy] [b Hb]]. split.
    + exists y. by apply map_lookup_filter_Some.
    + exists b. apply map_lookup_filter_Some. split; [done|]. cbn. intros Hid. apply Hfree. exists (e, n). cbn. rewrite Hb. cbn. rewrite Hid. auto.
  - intros e [c [Hc He]%map_lookup_filter_Some]. destruct (T11 e) as [y Hy]; [by exists c|]. exists y. by apply map_lookup_filter_Some.
  - intros i rev v [Hv _]%map_lookup_filter_Some. by apply T12.
  - intros i h [Hh Hne]%map_lookup_filter_Some. cbn in Hne. rewrite lookup_delete_ne by done. eauto.
  - rewrite dom_without. apply purge_linked; [|done]. intros o Ho Hw Hin. apply Hfor, list.Exists_exists. eauto.
  - intros e y [Hy Hne]%map_lookup_filter_Some. apply kept_revision; [|eauto]. cbn in *. intros Hw. apply Hne, elem_of_dom. exists y. by apply map_lookup_filter_Some.
  - done.
  - intros i x [Hi Hx]%lookup_delete_Some. rewrite lookup_delete_ne by done. eauto.
Qed.

#[global] Instance typed_steps : TableSteps well_typed.
Proof.
  split; [split; [split|]|..]; intros; solve [exact _|apply typed_same; first [done|apply step_linked|by left|intros; cbn; by rewrite step_revisions]|apply AppendObservation_typed|apply SaveCheckpoint_typed|apply SetLastError_typed|apply SaveTimer_typed
    |apply DeleteTimer_typed|apply DeleteTimers_typed|apply SaveReceipt_typed|apply SaveDestination_typed|apply AppendEvent_typed|apply SaveReplay_typed
    |apply saveEntityData_typed|apply DeleteEntity_typed|apply ResetState_typed|apply SaveHandoff_typed|apply RevisionState_typed|apply SaveWatch_typed].
Qed.
End Typed.

(** ** Retention *)

Lemma existsb_none {A : Type} (f : A → bool) l : existsb f l = false → ∀ a, a ∈ l → f a = false.
Proof. intros H a Ha. destruct (f a) eqn:E; [|done]. rewrite <- H. symmetry. apply existsb_exists. exists a. by rewrite <- list_elem_of_In. Qed.
Lemma existsb_map_none `{Countable K} {A : Type} (f : K * A → bool) (m : gmap K A) k a : existsb f (map_to_list m) = false → m !! k = Some a → f (k, a) = false.
Proof. intros H1 Hm. by eapply existsb_none, elem_of_map_to_list. Qed.
Lemma size_none `{Countable K} {A : Type} (m : gmap K A) k a : (size m =? 0)%nat = true → m !! k = Some a → False.
Proof. intros H1%Nat.eqb_eq%map_size_empty_inv Hm. by rewrite H1, lookup_empty in Hm. Qed.

(** Rows removed one after the other. *)
Lemma rows_drop_all (l : list (string * (Z * string) * receipt_row)) (id : string) (k : Z * string) (m : gmap string (gmap (Z * string) receipt_row)) (x : receipt_row) :
  rows id (fold_left (fun m (e : string * (Z * string) * receipt_row) => drop_row (fst (fst e)) (snd (fst e)) m) l m) !! k = Some x →
  rows id m !! k = Some x ∧ ∀ y, (id, k, y) ∉ l.
Proof.
  revert m. induction l as [|[[i j] y] l IH]; intros m; cbn [fold_left fst snd]; [intros H; split; [done|intros y; apply not_elem_of_nil]|].
  intros (H & Hl)%IH. rewrite rows_drop in H. destruct (decide (id = i ∧ k = j)) as [|Hne]; [done|]. split; [done|].
  intros z [[= -> -> _]|Hz]%elem_of_cons; [by apply Hne|by eapply Hl].
Qed.
Lemma rows_drop_all_keep (l : list (string * (Z * string) * receipt_row)) (id : string) (k : Z * string) (m : gmap string (gmap (Z * string) receipt_row)) (x : receipt_row) :
  rows id m !! k = Some x → (∀ y, (id, k, y) ∉ l) →
  rows id (fold_left (fun m (e : string * (Z * string) * receipt_row) => drop_row (fst (fst e)) (snd (fst e)) m) l m) !! k = Some x.
Proof.
  revert m. induction l as [|[[i j] y] l IH]; intros m Hm Hl; cbn [fold_left fst snd]; [done|]. apply IH.
  - rewrite rows_drop. destruct (decide (id = i ∧ k = j)) as [[-> ->]|]; [|done]. exfalso. apply (Hl y). by left.
  - intros z Hz. apply (Hl z). by right.
Qed.

Lemma RetainReceipts_typed now limit : respects well_typed (RetainReceipts now limit).
Proof.
  intros d a d' H [T1 T2 T3 T4 T5 T6 T7 T8 T9 T10 T11 T12 T13 T14 T15 T16 T17]. unfold RetainReceipts in H. tx_inv. split; cbn; try done.
  intros id k x [Hx _]%rows_drop_all. eauto.
Qed.

Lemma delete_events_typed (gone : gmap string event_row) d :
  (∀ id, id ∈ dom gone → removable_event d id = true) → well_typed d (delete_events gone d).
Proof.
  intros Hgone [T1 T2 T3 T4 T5 T6 T7 T8 T9 T10 T11 T12 T13 T14 T15 T16 T17]. split; cbn; try done.
  - intros id y [Hy _]%map_lookup_filter_Some. eauto.
  - intros i j y y' [Hy _]%map_lookup_filter_Some [Hy' _]%map_lookup_filter_Some. by apply T9.
  - intros id n [Hn Hin]%elem_of_filter. destruct (T10 _ _ Hin) as [[y Hy] ?]. split; [|done]. exists y. by apply map_lookup_filter_Some.
  - intros id [c [Hc Hn]%map_lookup_filter_Some]. destruct (T11 id) as [y Hy]; [by exists c|]. exists y. by apply map_lookup_filter_Some.
  - rewrite dom_without. apply fewer_events_linked; [|done]. intros r Hr Hin%Hgone. unfold removable_event, queued in Hin.
    apply andb_true_iff in Hin as [Hq%negb_true_iff _]. pose proof (existsb_none _ _ Hq _ Hr) as Hb. by apply bool_decide_eq_false_1 in Hb.
  - intros id y [Hy _]%map_lookup_filter_Some. eauto.
Qed.

Lemma delete_observations_typed (gone : db → Z → observation_row → bool) :
  (∀ d n b, gone d n b = true → removable_observation d n = true) → ∀ d, well_typed d (delete_observations (gone d) d).
Proof.
  intros Hgone d [T1 T2 T3 T4 T5 T6 T7 T8 T9 T10 T11 T12 T13 T14 T15 T16 T17]. split; cbn; try done.
  - intros n b [Hb _]%map_lookup_filter_Some. eauto.
  - intros n m b b' [Hb _]%map_lookup_filter_Some [Hb' _]%map_lookup_filter_Some. by apply T7.
  - intros id n Hin. destruct (T10 _ _ Hin) as [? [b Hb]]. split; [done|]. exists b. apply map_lookup_filter_Some. split; [done|]. cbn.
    apply Bool.not_true_iff_false. intros [Hc%negb_true_iff _]%Hgone%andb_true_iff. apply bool_decide_eq_false_1 in Hc. apply Hc. by exists (id, n).
Qed.

Lemma removable_watch_inv d id : removable_watch d id = true →
  (∃ w, db_watches d !! id = Some w ∧ w_status w = "deleted") ∧ (∀ k n, rows id (db_entities d) !! k = Some n → False) ∧
  (∀ k t, rows id (db_timers d) !! k = Some t → False) ∧ (∀ k r, rows id (db_receipts d) !! k = Some r → False).
Proof.
  unfold removable_watch. intros H. repeat (apply andb_true_iff in H as [H ?]). split_and!; [|intros *; by eapply size_none..].
  destruct (db_watches d !! id) as [w|]; [|done]. exists w. split; [done|]. by apply bool_decide_eq_true_1 in H.
Qed.

Lemma in_list_to_set_filter {A : Type} `{Countable A} (f : A → bool) l x : x ∈ (list_to_set (filter (fun x => f x = true) l) : gset A) → f x = true.
Proof. intros Hx%elem_of_list_to_set. by apply list_elem_of_filter in Hx as [? _]. Qed.

Lemma delete_watches_typed l : respects well_typed (rf_delete watches_family l).
Proof.
  intros d a d' H [T1 T2 T3 T4 T5 T6 T7 T8 T9 T10 T11 T12 T13 T14 T15 T16 T17]. cbn in H. unfold delete_watches in H. tx_inv.
  match goal with H : existsb _ _ = false |- _ => rename H into Href end.
  set (gone := (list_to_set _ : gset string)) in *.
  assert (Hgone : ∀ id, id ∈ gone → removable_watch d id = true) by (intros id Hid; by apply in_list_to_set_filter in Hid).
  assert (Hkeep : ∀ id, (∃ k t, rows id (db_timers d) !! k = Some t) ∨ (∃ k r, rows id (db_receipts d) !! k = Some r) → id ∉ gone).
  { intros id Hid Hin. destruct (removable_watch_inv _ _ (Hgone _ Hin)) as (_ & _ & Ht & Hr). naive_solver. }
  assert (Hw : ∀ id, id ∉ gone → is_Some (db_watches d !! id) → is_Some (filter (fun kv : string * watch_row => fst kv ∉ gone) (db_watches d) !! id)).
  { intros id Hid [w Hw]. exists w. by apply map_lookup_filter_Some. }
  split; cbn; try done.
  - intros id w [Hid _]%map_lookup_filter_Some. eauto.
  - intros id k t Ht. apply Hw; [apply Hkeep; eauto|eauto].
  - intros id k t Ht. apply Hw; [apply Hkeep; eauto|eauto].
  - intros id h Hh. apply Hw; [|eauto]. pose proof (existsb_map_none _ _ _ _ Href Hh) as Hb. by apply bool_decide_eq_false_1 in Hb.
  - intros id x [Hx Hid]%map_lookup_filter_Some. apply Hw; [done|eauto].
Qed.

Lemma removable_revision_inv d k : removable_revision d k = true →
  (∀ w, db_watches d !! fst k = Some w → w_revision w ≠ snd k) ∧ (∀ key n, rows (fst k) (db_entities d) !! key = Some n → n_revision n ≠ snd k) ∧
  (∀ n b, db_observations d !! n = Some b → (b_watch b, b_revision b) ≠ k) ∧ (∀ id y, db_events d !! id = Some y → (y_watch y, ev_Revision (y_body y)) ≠ k).
Proof.
  unfold removable_revision. intros H. repeat (apply andb_true_iff in H as [H ?%negb_true_iff]). apply negb_true_iff in H. split_and!.
  - intros w Hw. rewrite Hw in H. by apply bool_decide_eq_false_1 in H.
  - intros key n Hn. match goal with H : existsb _ (map_to_list (rows _ _)) = false |- _ => pose proof (existsb_map_none _ _ _ _ H Hn) as Hb end. by apply bool_decide_eq_false_1 in Hb.
  - intros n b Hb <-. match goal with H : existsb _ (map_to_list (db_observations d)) = false |- _ => pose proof (existsb_map_none _ _ _ _ H Hb) as Hc end. cbn in Hc.
    by rewrite !bool_decide_eq_true_2 in Hc.
  - intros id y Hy <-. match goal with H : existsb _ (map_to_list (db_events d)) = false |- _ => pose proof (existsb_map_none _ _ _ _ H Hy) as Hc end. cbn in Hc.
    by rewrite !bool_decide_eq_true_2 in Hc.
Qed.

Lemma delete_revisions_typed (gone : db → gset (string * string)) d :
  (∀ k, k ∈ gone d → removable_revision d k = true) → well_typed d (delete_revisions (gone d) d).
Proof.
  intros Hgone [T1 T2 T3 T4 T5 T6 T7 T8 T9 T10 T11 T12 T13 T14 T15 T16 T17].
  assert (Hkeep : ∀ k, is_Some (db_revisions d !! k) → k ∉ gone d → is_Some (filter (fun kv : (string * string) * revision_row => fst kv ∉ gone d) (db_revisions d) !! k)).
  { intros k [v Hv] Hk. exists v. by apply map_lookup_filter_Some. }
  split; cbn; try done.
  - intros id w Hw. destruct (T1 _ _ Hw) as (A & B). split; [|done]. apply Hkeep; [done|]. intros Hin%Hgone%removable_revision_inv. destruct Hin as (Hin & _). by apply (Hin w).
  - intros id k n Hn. destruct (T2 _ _ _ Hn) as (A & B). split; [|done]. apply Hkeep; [done|]. intros Hin%Hgone%removable_revision_inv. destruct Hin as (_ & Hin & _). by apply (Hin k n).
  - intros n b Hb. destruct (T6 _ _ Hb) as (A & B). split; [done|]. apply Hkeep; [done|]. intros Hin%Hgone%removable_revision_inv. destruct Hin as (_ & _ & Hin & _). by apply (Hin n b).
  - intros id rev v [Hv _]%map_lookup_filter_Some. eauto.
  - intros id y Hy. apply Hkeep; [eauto|]. intros Hin%Hgone%removable_revision_inv. destruct Hin as (_ & _ & _ & Hin). by apply (Hin id y).
Qed.

(** ** The outbox *)

Lemma outbox_typed (f : db → tables) : (∀ d, tb_revisions (f d) = tb_revisions (db_outbox d)) →
  (∀ d, linked (dom (db_events d)) (db_outbox d) → linked (dom (db_events d)) (f d)) → ∀ d, well_typed d (d <| db_outbox := f d |>).
Proof. intros Hr H d. apply typed_same; try done; cbn; [apply H|by rewrite Hr|by left]. Qed.

Lemma RetainBackoff_typed now limit : respects well_typed (RetainBackoff now limit).
Proof.
  unfold RetainBackoff. respects_tac. apply respects_modify. apply (outbox_typed (fun d => _)); [done|]. intros d. apply linked_same; try done. by left.
Qed.
Lemma RetainOutbox_typed cutoff limit : respects well_typed (RetainOutbox cutoff limit).
Proof.
  intros d n d' H. unfold RetainOutbox in H. tx_inv. apply typed_same; try done; [|by left]. cbn. intros Hl. apply delete_intents_linked; [|done].
  intros r Hr Hlive (x & Ex & [[_ Hx] Hin]%elem_of_first%list_elem_of_filter)%list_elem_of_fmap. rewrite (ids_inj _ x r (lk_wf _ _ Hl) Hin Hr Ex) in Hlive. congruence.
Qed.
Lemma RetainStreams_typed limit : respects well_typed (RetainStreams limit).
Proof.
  intros d n d' H. unfold RetainStreams in H. tx_inv. apply typed_same; try done; [|by left]. cbn. apply orphans_linked.
  intros r Hr (s & Es & Hs)%list_elem_of_fmap. apply elem_of_take in Hs as (i & Hs%list_elem_of_lookup_2 & _). apply list_elem_of_filter in Hs as [Ho _].
  unfold orphan_stream in Ho. apply negb_true_iff in Ho. pose proof (existsb_none _ _ Ho _ Hr) as Hb. rewrite of_stream_key in Hb. by apply bool_decide_eq_false_1 in Hb.
Qed.

Lemma delete_destinations_typed (gone : gset (string * string)) d :
  (∀ k, k ∈ gone → removable_destination d k = true) → well_typed d (delete_destinations gone d).
Proof.
  intros Hgone. apply typed_same; try done; cbn; [|intros id rev Hd [v Hv]|by left].
  - apply revisions_linked. intros r Hr [v Hv]. exists v. apply map_lookup_filter_Some. split; [done|]. cbn.
    intros Hin%Hgone. unfold removable_destination in Hin. apply andb_true_iff in Hin as [_ Hin%negb_true_iff].
    pose proof (existsb_none _ _ Hin _ Hr) as Hb. cbn in Hb. by rewrite !bool_decide_eq_true_2 in Hb.
  - exists v. apply map_lookup_filter_Some. split; [done|]. cbn. intros Hin%Hgone. unfold removable_destination in Hin.
    apply andb_true_iff in Hin as [Hin%negb_true_iff _]. by apply bool_decide_eq_false_1 in Hin.
Qed.

#[global] Instance typed_history `{L : Libraries} : HistorySteps well_typed.
Proof.
  assert (Hpush : ∀ (d : db) t, pt_last t = pt_last (db_push d) → well_typed d (d <| db_push := t |>)).
  { intros d t Et. apply typed_same; try done. cbn. rewrite Et. by left. }
  split; [exact _|apply PurgeWatch_typed|].
  split; [exact _|exact (RetainPushes_steps _ Hpush)|apply RetainBackoff_typed|apply RetainOutbox_typed|apply RetainStreams_typed|intros; apply typed_same; first [done|by left]|apply RetainReceipts_typed| |].
  - intros f l Hf. unfold retentionFamilies in Hf. repeat (apply elem_of_cons in Hf as [->|Hf]); [| | | | |by apply not_elem_of_nil in Hf].
    + apply respects_modify. intros d. apply delete_events_typed. intros id [y [_ Hy]%map_lookup_filter_Some]%elem_of_dom. by apply andb_true_iff in Hy as [_ ?].
    + apply respects_modify. intros d. apply (delete_observations_typed (fun d n _ => key_in l (Itoa n) && removable_observation d n)). by intros ? ? ? [_ ?]%andb_true_iff.
    + apply delete_watches_typed.
    + apply respects_modify. intros d. apply (delete_revisions_typed (fun d => _)). intros k. apply in_list_to_set_filter.
    + apply respects_modify. intros d. apply delete_destinations_typed. intros k. apply in_list_to_set_filter.
  - intros id l. apply respects_modify. intros d.
    apply (delete_observations_typed (fun d n b => key_in l (Itoa n) && log_observation d b && removable_observation d n)). by intros ? ? ? [_ ?]%andb_true_iff.
Qed.

Section Run.
Context `{L : Libraries} (limits : Budgets) (jitter : duration) (storage : db → Z) (range : gmap string State → list (string * State)).
Context (instance : string) (approved : list string).

Lemma empty_typed : typed empty_db.
Proof. split; cbn; intros *; unfold rows; rewrite ?lookup_empty; try done. apply linked_empty. Qed.
Lemma run_typed d l : typed d → typed (runtime_run limits jitter storage range instance approved d l).
Proof. apply (runtime_run_steps well_typed). Qed.

(** C13: The tables stay well formed: whatever sequence of operations is applied
    to the empty tables - bundles, batches of any records however stale, pushes,
    timers, pauses, resumptions, deletions, purges, clock discontinuities,
    maintenance of entities, retention of history, transfers and
    deliveries, each committed or rolled back - every foreign key of these tables
    names a row (a watch, an entity, an observation and an event their definition
    revision; a destination and an intent their destination revision; a timer, a
    receipt, the last push and a transfer their watch; reference pins their
    entity; evidence its event and its observation; a replay checkpoint and an
    intent their event; a delivery attempt its intent), a definition is stored
    under its own identifier and digest, an input identity occurs once per watch
    generation, an event is announced once per destination, event sequences are
    unique and below the next one, statuses are the three the contract names,
    generations are positive, purged watches have no row, the reference pins of
    each entity are exactly the ones its stored state needs, and the streams of
    the outbox are active exactly when they have a live intent. *)
Theorem runtime_tables_typed l : typed (runtime_run limits jitter storage range instance approved empty_db l).
Proof. apply run_typed, empty_typed. Qed.
End Run.
