(* ===== verification/EvidenceRetention.v ===== *)
(** * Maintenance, retention and transfers keep the evidence

    Expiring entities and removing old history leave evident tables: an event
    goes with its checkpoint, and a definition only when no event names it. *)

From S2P Require Import Prelude GoText GoTime GoJson Sha256 Watch Evaluator RecordJson Plan PlanSpec Outbox PushReceipts Records Access Render Acceptance.
From S2P Require Import Lifecycle Maintenance Apply Handoff Runtime Evidence TxLogic EvidenceFacts RuntimeSteps EvidenceTables EvidenceAccept EvidenceLifecycle Integrity.

#[local] Arguments Revision : simpl never.

Section Retention.
Context `{L : Libraries}.

(** ** Maintaining entities *)

(** The states of a page are the stored ones. *)
Lemma NextMaintenanceEntities_page limit :
  triple (evident None) (NextMaintenanceEntities limit) (fun x d => evident None d ∧ Forall (fun e => state_ok (snd (fst e)) (snd e)) (fst x)).
Proof.
  intros d x d' Hd H. unfold NextMaintenanceEntities in H. tx_inv. split; [by eapply evident_same; [|exact Hd]|].
  apply list.Forall_forall. cbn [fst]. intros [k s] (k' & _ & Hs)%list_elem_of_omap. destruct (entities_of (fst k') d !! snd k') as [s'|] eqn:E; [|done].
  injection Hs as <- <-. by eapply ed_entities.
Qed.

Lemma expired_normal r key sequence now d :
  watching r d → good_key key →
  event_normal {| ev_ID := Revision (expired_json (r_ID r) key sequence (r_Generation r)); ev_Sequence := 0; ev_WatchID := r_ID r;
                  ev_Revision := r_Revision r; ev_Entity := key; ev_Type := "entity_expired"; ev_At := now;
                  ev_Message := "idle state expired"; ev_Fields := ∅; ev_Evidence := [] |}.
Proof.
  intros Hw [Hk _]. destruct (present_text _ _ (watching_present _ _ Hw)). split; cbn; try done; try (by apply ascii_ok). apply Revision_ok.
Qed.

Lemma maintainEntity_via p key s now :
  state_ok key s → via (mp_record p) (maintainEntity p key s now) (fun _ => True).
Proof.
  intros Hs. pose proof (state_ok_good _ _ Hs) as Hk. unfold maintainEntity. cbv zeta.
  eapply via_bind; [by apply (via_gets _ _ (fun _ => True))|]. intros timer _. destruct (_ || _).
  - eapply via_bind; [apply via_keeps, DeleteEntity_keeps|]. intros _ _.
    eapply (via_bind _ _ _ (fun _ => True)); [|intros n _; by apply via_ret].
    intros d n d' Hw H. split; [|done]. eapply watching_keeps; [|exact Hw]. eapply administrative_keeps; [by eapply expired_normal| |exact H]. unfold lifecycle_kinds. set_solver.
  - apply SaveEntity_via; [|done]. destruct (negb _ && negb _); apply Hs.
Qed.

Lemma maintain_one_evident now e : state_ok (snd (fst e)) (snd e) → preserves (evident None) (maintain_one now e).
Proof.
  intros Hs. unfold maintain_one. eapply triple_bind; [apply GetWatch_watching|]. intros r.
  eapply (triple_bind _ _ _ (fun p d => watching r d ∧ mp_record p = r)).
  { apply triple_lift. intros d p Hp [Hw _]. split; [done|]. unfold newMaintenancePolicy in Hp. cbv zeta in Hp. by apply bind_Ok in Hp as (w & _ & [= <-]). }
  intros p d a d' [Hw <-] H. eapply (via_evident (mp_record p)); [by apply maintainEntity_via|exact Hw|exact H].
Qed.

Lemma maintain_page_evident now : preserves (evident None) (maintain_page now).
Proof.
  unfold maintain_page. eapply triple_bind; [apply NextMaintenanceEntities_page|]. intros [page stop]. cbn [fst].
  intros d a d' [Hd Hp]. revert d a d' Hd. eapply triple_bind; [|intros ?; apply (triple_ret (evident None)); auto].
  rewrite list.Forall_forall in Hp. apply triple_for_each. intros e He. by apply maintain_one_evident, Hp.
Qed.

(** ** Retaining history *)

Definition stays_evident (d d' : db) : Prop := evident None d → evident None d'.
#[global] Instance stays_evident_preorder : PreOrder stays_evident.
Proof. split; [by intros d H|]. intros a b c Hab Hbc H. by apply Hbc, Hab. Qed.
Lemma same_stays d d' : same_evidence d d' → stays_evident d d'.
Proof. intros H Hd. by eapply evident_same. Qed.

(** Events are removed with their checkpoints. *)
Lemma delete_events_evident gone d : stays_evident d (delete_events gone d).
Proof.
  intros [D1 D2 D3 D4 D5]. split; try done.
  - intros x y [Hy Hx]%map_lookup_filter_Some. destruct (D3 _ _ Hy) as (A & B & C). split_and!; try done. intros _ Hn. apply C; [done|].
    apply map_lookup_filter_None in Hn as [?|Hn]; [done|]. destruct (db_replays d !! x) as [c|] eqn:E; [|done]. exfalso. by apply (Hn c).
  - intros x c [Hc Hx]%map_lookup_filter_Some. destruct (D4 _ _ Hc) as (y & v & Hy & Hv & He). exists y, v. split_and!; try done.
    by apply map_lookup_filter_Some.
Qed.

(** A definition goes only when no event names it. *)
Lemma delete_revisions_evident (gone : gset (string * string)) d :
  (∀ k, k ∈ gone → removable_revision d k = true) → stays_evident d (delete_revisions gone d).
Proof.
  intros Hg [D1 D2 D3 D4 D5].
  assert (Hkept : ∀ x y v, db_events d !! x = Some y → db_revisions d !! (ev_WatchID (y_body y), ev_Revision (y_body y)) = Some v →
    db_revisions (delete_revisions gone d) !! (ev_WatchID (y_body y), ev_Revision (y_body y)) = Some v).
  { intros x y v Hy Hv. apply map_lookup_filter_Some. split; [done|]. intros (_ & _ & _ & Hn)%Hg%removable_revision_inv.
    destruct (D3 _ _ Hy) as [Hw _]. apply (Hn _ _ Hy). by rewrite Hw. }
  split; try done.
  - intros i rev v [Hv _]%map_lookup_filter_Some. eauto.
  - intros x y Hy. destruct (D3 _ _ Hy) as (A & [v B] & C). split_and!; try done. eauto.
  - intros x c Hc. destruct (D4 _ _ Hc) as (y & v & Hy & Hv & He). exists y, v. split_and!; eauto.
Qed.

Lemma same_modify f : (∀ d, same_evidence d (f d)) → respects stays_evident (modify f).
Proof. intros H. apply respects_modify. intros d. by apply same_stays. Qed.

#[global] Instance evident_retention : RetentionSteps stays_evident.
Proof.
  assert (Hpush : ∀ (d : db) t, stays_evident d (d <| db_push := t |>)) by (intros; by apply same_stays).
  assert (Hout : ∀ (d : db) t, stays_evident d (d <| db_outbox := t |>)) by (intros; by apply same_stays).
  split; [exact _|exact (RetainPushes_steps _ (fun d t _ => Hpush d t))|exact (RetainBackoff_steps _ Hout)|exact (RetainOutbox_steps _ Hout)|exact (RetainStreams_steps _ Hout)|intros; by apply same_stays| | |].
  - intros now limit. unfold RetainReceipts. respects_tac. by apply same_modify.
  - intros f l Hf. unfold retentionFamilies in Hf. repeat (apply elem_of_cons in Hf as [->|Hf]); [| | | | |by apply not_elem_of_nil in Hf].
    + apply respects_modify. intros d. apply delete_events_evident.
    + by apply same_modify.
    + cbn [rf_delete watches_family]. unfold delete_watches. respects_tac. by apply same_modify.
    + apply respects_modify. intros d. apply delete_revisions_evident. intros k. apply in_list_to_set_filter.
    + by apply same_modify.
  - intros id l. by apply same_modify.
Qed.
End Retention.

(** * Transfers keep the evidence

    The rows of a transfer are no part of the evidence, and activating or
    canceling one only moves the watch to another generation. *)

Lemma SaveHandoff_same h : respects same_evidence (SaveHandoff h).
Proof. unfold SaveHandoff. respects_tac. by apply respects_modify. Qed.

Section Transfer.
Context `{L : Libraries} (instance : string).

Lemma prepare_begin_same ctx granted q b p later : respects same_evidence (mu_begin (prepare_mutation instance ctx granted q b p later)).
Proof. apply prepare_begin_steps; first [exact _|apply SaveHandoff_same]. Qed.
Lemma pause_begin_same ctx granted q checked later : respects same_evidence (mu_begin (pause_mutation instance ctx granted q checked later)).
Proof. apply pause_begin_steps; first [exact _|apply SaveHandoff_same]. Qed.
Lemma finish_handoff_same h now : respects same_evidence (finish_handoff instance h now).
Proof. apply finish_handoff_steps; first [exact _|apply SaveHandoff_same]. Qed.

Lemma GetHandoff_same id : respects same_evidence (GetHandoff id).
Proof. unfold GetHandoff. respects_tac. Qed.
Lemma authorizeHandoff_same ctx granted : respects same_evidence (authorizeHandoff ctx granted).
Proof. apply authorizeHandoff_steps. exact _. Qed.
#[local] Hint Resolve GetHandoff_same authorizeHandoff_same SaveHandoff_same : tx.
Lemma restore_original_same h r : respects same_evidence (restore_original h r).
Proof. unfold restore_original. respects_tac. Qed.
Lemma unchanged_destination_same kv : respects same_evidence (unchanged_destination kv).
Proof. unfold unchanged_destination, GetDestination. respects_tac. Qed.

Lemma activate_evident h closing lifetime next saved armed at_ : preserves (evident None) (activate_target h closing lifetime next saved armed at_).
Proof.
  unfold activate_target. eapply triple_bind; [apply GetWatch_watching|]. intros r.
  apply triple_conseq with (P' := watching r) (Q' := fun _ => evident None); [|by intros d [H _]|done].
  eapply triple_bind; [apply (triple_reject _ _ _ (fun _ => watching r)); auto|]. intros ?.
  eapply triple_bind; [apply triple_same; [apply respects_for_each; [exact _|intros; apply unchanged_destination_same]|apply watching_same]|]. intros ?.
  eapply triple_bind; [apply (triple_reject _ _ _ (fun _ => watching r)); auto|]. intros ?. set (r' := transitioned r "running" next).
  intros d x d' Hw. change (watching r' d) in Hw. revert Hw. cbv zeta.
  eapply (via_evident r' (SaveWatch r' saved lifetime ;; armInitial r' armed ;; lifecycleEvent r' "resumed" _ at_ ;; SaveHandoff _ ;; mret _) (fun _ => True)).
  eapply via_bind; [apply via_preserves, SaveWatch_watching|]. intros _ _.
  eapply via_bind; [apply via_keeps, armInitial_keeps|]. intros _ _.
  eapply via_bind; [apply lifecycleEvent_via; [unfold lifecycle_kinds; set_solver|done]|]. intros _ _.
  eapply via_bind; [apply via_same, SaveHandoff_same|]. intros _ _. by apply via_ret.
Qed.
Lemma ActivateHandoff_evident ctx granted id source closing lifetime next saved armed at_ :
  preserves (evident None) (ActivateHandoff ctx granted id source closing lifetime next saved armed at_).
Proof.
  unfold ActivateHandoff. eapply triple_bind; [apply triple_same; [apply GetHandoff_same|apply evident_same]|]. intros h.
  eapply triple_bind; [apply triple_same; [apply authorizeHandoff_same|apply evident_same]|]. intros ?.
  eapply triple_bind; [apply (triple_reject _ _ _ (fun _ => evident None)); auto|]. intros ?. destruct (_ ≟ _); [by apply triple_ret|].
  eapply triple_bind; [apply (triple_reject _ _ _ (fun _ => evident None)); auto|]. intros ?. apply activate_evident.
Qed.

Lemma cancel_evident h lifetime now : preserves (evident None) (cancel_target h lifetime now).
Proof.
  unfold cancel_target. eapply triple_bind; [apply GetWatch_watching|]. intros r.
  apply triple_conseq with (P' := watching r) (Q' := fun _ => evident None); [|by intros d [H _]|done].
  eapply triple_bind; [apply (triple_reject _ _ _ (fun _ => watching r)); auto|]. intros ?.
  set (r' := r <| r_Status := _ |> <| r_Generation := _ |>). intros d x d' Hw. change (watching r' d) in Hw. revert Hw.
  eapply (via_evident r' (SaveWatch r' now lifetime ;; DeleteTimers (h_WatchID h) ;; unless _ (restore_original h r') ;; SaveHandoff _ ;; mret _) (fun _ => True)).
  eapply via_bind; [apply via_preserves, SaveWatch_watching|]. intros _ _.
  eapply via_bind; [apply via_keeps, DeleteTimers_keeps|]. intros _ _.
  eapply via_bind; [apply via_unless, via_same, restore_original_same|]. intros _ _.
  eapply via_bind; [apply via_same, SaveHandoff_same|]. intros _ _. by apply via_ret.
Qed.
Lemma CancelPreparedHandoff_evident ctx granted id lifetime now : preserves (evident None) (CancelPreparedHandoff ctx granted id lifetime now).
Proof.
  unfold CancelPreparedHandoff. eapply triple_bind; [apply triple_same; [apply GetHandoff_same|apply evident_same]|]. intros h.
  eapply triple_bind; [apply triple_same; [apply authorizeHandoff_same|apply evident_same]|]. intros ?.
  eapply triple_bind; [apply (triple_reject _ _ _ (fun _ => evident None)); auto|]. intros ?. destruct (_ ≟ _); [by apply triple_ret|].
  eapply triple_bind; [apply (triple_reject _ _ _ (fun _ => evident None)); auto|]. intros ?. apply cancel_evident.
Qed.
End Transfer.
