(* ===== verification/AcceptOnce.v ===== *)
(** * An accepted input is not accepted again

    The receipt of an acceptance outlives everything the runtime does until it
    expires, the watch moves to another generation, or it is purged; while it is
    there, a repetition of the input records and announces nothing.  A watch
    deleted since is kept, so that its generations do not start again, until a
    retention cutoff passes the deletion. *)
From S2P Require Import Prelude GoText Watch Plan PlanSpec Evaluator Outbox OutboxFacts PushReceipts Records Access Render Acceptance Lifecycle Maintenance Apply Handoff Runtime.
From S2P Require Import Sha256 TxLogic RuntimeSteps EvidenceLifecycle Integrity.

(** ** Steps that move no watch and no receipt *)

(** The generation and the status of a watch, and when it was deleted. *)
Definition mark (w : watch_row) : Z * string * Z := (w_generation w, w_status w, if w_status w ≟ "deleted" then w_next w else 0).
Definition calm (d d' : db) : Prop :=
  (∀ i, mark <$> db_watches d' !! i = mark <$> db_watches d !! i) ∧ db_receipts d' = db_receipts d ∧ db_purged d' = db_purged d.
#[global] Instance calm_preorder : PreOrder calm.
Proof. split; [by intros d|]. intros a b c (A1 & A2 & A3) (B1 & B2 & B3). split_and!; [intros i; by rewrite B1|by rewrite B2|by rewrite B3]. Qed.

Lemma calm_same d d' : db_watches d' = db_watches d → db_receipts d' = db_receipts d → db_purged d' = db_purged d → calm d d'.
Proof. intros E1 E2 E3. split_and!; [intros i; by rewrite E1|done|done]. Qed.
Lemma calm_update d id w w' :
  db_watches d !! id = Some w → mark w' = mark w → calm d (d <| db_watches := <[id := w']> (db_watches d) |>).
Proof.
  intros Hw Hg. split_and!; [|done|done]. intros i. cbn. destruct (decide (i = id)) as [->|Hi]; [|by rewrite lookup_insert_ne].
  rewrite lookup_insert_eq, Hw. cbn. by rewrite Hg.
Qed.

Lemma insert_evidence_calm id l : respects calm (insert_evidence id l).
Proof.
  induction l as [|n l IH]; cbn [insert_evidence]; respects_tac. apply respects_modify. intros d. by apply calm_same.
Qed.

#[global] Instance calm_steps : RowSteps calm.
Proof.
  split; intros; try exact _; try (by apply calm_same);
    try (unfold AppendObservation, SaveTimer, SaveReplay, saveEntityData, syncEntityPins, DeleteEntity, DeleteTimers, RevisionState, AppendEvent;
         respects_tac; try apply insert_evidence_calm; apply respects_modify; intros d; by apply calm_same).
  - intros d a' d' H. unfold SaveCheckpoint in H. tx_inv. destruct (db_watches d !! id) as [w|] eqn:E; [|done]. destruct (_ && _) eqn:E0; [|done]. tx_inv.
    apply andb_true_iff in E0 as [_ Hs%bool_decide_eq_true_1]. eapply calm_update; [done|]. unfold mark. cbn. by rewrite Hs.
  - apply respects_modify. intros d. destruct (db_watches d !! id) as [w|] eqn:E; [|reflexivity]. destruct (_ && _) eqn:E0; [|reflexivity]. cbv zeta.
    apply andb_true_iff in E0 as [_ Hs%bool_decide_eq_true_1]. destruct (IsZero next); (eapply calm_update; [done|]); unfold mark; cbn; by rewrite Hs.
  - apply respects_modify. intros d. destruct (rows _ _ !! _); [|reflexivity]. destruct (_ && _); [by apply calm_same|reflexivity].
Qed.

(** A calm step between well-formed tables. *)
Definition steady (d d' : db) : Prop := calm d d' ∧ well_typed d d'.
Lemma respects_steady {A : Type} (t : tx A) : respects calm t → respects well_typed t → respects steady t.
Proof. intros H1 H2 d a d' H. split; eauto. Qed.
#[global] Instance steady_preorder : PreOrder steady.
Proof. split; [by split|]. intros a b c [] []. split; by etrans. Qed.
#[global] Instance steady_steps `{L : Libraries} : RowSteps steady.
Proof.
  assert (C : RowSteps calm) by exact _. assert (T : RowSteps well_typed) by exact _. destruct C, T.
  split; intros; first [exact _|apply respects_steady; solve [eauto]|split; solve [eauto]].
Qed.

(** Nothing was recorded, decided or announced. *)
Definition quiet (d d' : db) : Prop :=
  db_observations d' = db_observations d ∧ db_entities d' = db_entities d ∧ db_events d' = db_events d ∧ db_evidence d' = db_evidence d ∧
  db_replays d' = db_replays d ∧ db_outbox d' = db_outbox d ∧ db_receipts d' = db_receipts d.
#[global] Instance quiet_preorder : PreOrder quiet.
Proof. split; [by intros d|]. intros a b c (A1 & A2 & A3 & A4 & A5 & A6 & A7) (B1 & B2 & B3 & B4 & B5 & B6 & B7). split_and!; congruence. Qed.

(** ** What a receipt outlives *)

Section Once.
Context `{L : Libraries} (limits : Budgets) (jitter : duration) (storage : db → Z) (range : gmap string State → list (string * State)).
Context (instance : string) (approved : list string).
(** The watch, the generation and the input of an acceptance, its instant and
    its receipt. *)
Context (id : string) (g : Z) (input : string) (since : Z) (x : receipt_row).

(** The generation is over, and the watch was not deleted before the acceptance. *)
Definition lately (w : watch_row) : Prop := w_status w = "deleted" → since <= w_next w.
Definition past (d : db) : Prop := id ∈ db_purged d ∨ ∃ w, db_watches d !! id = Some w ∧ g < w_generation w ∧ lately w.
Definition remembered (d : db) : Prop :=
  past d ∨ ∃ w, db_watches d !! id = Some w ∧ w_generation w = g ∧ rows id (db_receipts d) !! (g, input) = Some x.
Definition once (d : db) : Prop := typed d ∧ remembered d.

Lemma calm_row d d' w : calm d d' → db_watches d !! id = Some w → ∃ w', db_watches d' !! id = Some w' ∧ w_generation w' = w_generation w ∧ (lately w → lately w').
Proof.
  intros [H _] Hw. specialize (H id). rewrite Hw in H. destruct (db_watches d' !! id) as [w'|]; [|done]. injection H as H1 H2 H3.
  exists w'. split_and!; try done. unfold lately. intros Hl Hd. rewrite Hd in H2. rewrite Hd, <- H2 in H3. change (w_next w' = w_next w) in H3. rewrite H3. auto.
Qed.
Lemma calm_past d d' : calm d d' → past d → past d'.
Proof.
  intros Hc [H|(w & Hw & Hg & Hl)]; [left; by destruct Hc as (_ & _ & ->)|]. destruct (calm_row _ _ _ Hc Hw) as (w' & Hw' & E & El). right. exists w'. rewrite E. auto.
Qed.
Lemma calm_remembered d d' : calm d d' → remembered d → remembered d'.
Proof.
  intros Hc [H|(w & Hw & Hg & Hx)]; [left; by eapply calm_past|]. destruct (calm_row _ _ _ Hc Hw) as (w' & Hw' & E & _). right. exists w'.
  rewrite E. by destruct Hc as (_ & -> & _).
Qed.

Lemma steady_once {A : Type} (t : tx A) : respects steady t → preserves once t.
Proof. intros H d a d' [Ht Hr] E. destruct (H _ _ _ E) as [Hc Hw]. split; [by apply Hw|by eapply calm_remembered]. Qed.

Lemma GetWatch_view i d r : View (GetWatch i) d = Ok r → watch_in i d = Some r.
Proof. unfold View, GetWatch, gets, mbind, tx_bind. destruct (watch_in i d); [by intros [= ->]|done]. Qed.

(** A record that was read names its row. *)
Lemma watch_in_row i d r : typed d → watch_in i d = Some r → r_ID r = i ∧ r_Revision r ≠ "" ∧ ∃ w, db_watches d !! i = Some w ∧ w_generation w = r_Generation r.
Proof.
  intros Ht H. unfold watch_in in H. apply bind_Some in H as (w & Hw & H). apply bind_Some in H as (v & Hv & [= <-]).
  destruct (ty_revisions _ Ht _ _ _ Hv) as [H1 H2]. split_and!; [done| |eauto]. cbn. unfold revision_of in H2. destruct (definition_json _); [|done]. injection H2 as <-.
  apply sha256_hex_nonempty.
Qed.
Lemma once_generation d r : once d → watch_in id d = Some r → g <= r_Generation r.
Proof.
  intros [Ht Hr] (_ & _ & w & Hw & <-)%watch_in_row; [|done]. destruct Hr as [[Hp|(w' & Hw' & Hg & _)]|(w' & Hw' & Hg & _)]; [|naive_solver lia..].
  by destruct (ty_watches _ Ht _ _ Hw) as (_ & _ & _ & []).
Qed.

(** ** Watches move forward *)

(** A record of a later generation, to be saved. *)
Definition newer (r : WatchRecord) : Prop := g < r_Generation r ∧ (r_Status r = "deleted" → since <= timestamp (r_NextAt r)).
Lemma SaveWatch_once r now lifetime d a d' :
  once d → (r_ID r = id → id ∈ db_purged d ∨ newer r) → SaveWatch r now lifetime d = Ok (a, d') → once d' ∧ (r_ID r = id → past d').
Proof.
  intros [Ht Hr] Hg H. assert (Ht' : typed d') by (by eapply (steps_SaveWatch (R := well_typed))). unfold once.
  apply SaveWatch_row in H as (dm & w & Hp & _ & _ & _ & Edm & _ & _ & E & _ & [Es En] & ->). destruct (decide (r_ID r = id)) as [Hi|Hi].
  - assert (Hpast : past (dm <| db_watches := <[r_ID r := w]> (db_watches d) |>)).
    { right. exists w. cbn. rewrite Hi, lookup_insert_eq, E. split; [done|]. destruct (Hg Hi) as [?|[H1 H2]]; [by rewrite Hi in Hp|]. split; [done|]. unfold lately. by rewrite Es, En. }
    split; [|by intros _]. split; [done|by left].
  - split; [|done]. split; [done|]. rewrite Edm. unfold remembered, past in *. cbn. by rewrite lookup_insert_ne.
Qed.

(** Once the saved watch is past the generation, its state may be rewritten. *)
Definition moved (i : string) (d : db) : Prop := once d ∧ (i = id → past d).
Lemma steady_moved {A : Type} i (t : tx A) : respects steady t → preserves (moved i) t.
Proof. intros H d a d' [Ho Hp] E. split; [by eapply steady_once|]. intros Hi. destruct (H _ _ _ E) as [Hc _]. eapply calm_past; [exact Hc|auto]. Qed.
Lemma ResetState_moved i : preserves (moved i) (ResetState i).
Proof.
  intros d a d' [[Ht Hr] Hp] H. assert (Ht' : typed d') by (by eapply (steps_ResetState (R := well_typed))).
  unfold ResetState in H. apply modify_inv in H as ->. assert (Hpast : i = id → past (d <| db_entities := delete i (db_entities d) |>
    <| db_pins := delete i (db_pins d) |> <| db_timers := delete i (db_timers d) |> <| db_receipts := delete i (db_receipts d) |>)) by exact Hp.
  split; [|done]. split; [done|]. destruct (decide (i = id)) as [Hi|Hi]; [by left; apply Hpast|].
  destruct Hr as [Hr|(w & Hw & Hg & Hx)]; [by left|]. right. exists w. cbn. rewrite rows_delete. by destruct (decide _) as [->|].
Qed.

(** A record read before, one generation on. *)
Definition ahead (r : WatchRecord) (d : db) : Prop := once d ∧ (r_ID r = id → id ∈ db_purged d ∨ newer r).
Lemma SaveWatch_moved r now lifetime : triple (ahead r) (SaveWatch r now lifetime) (fun _ => moved (r_ID r)).
Proof. intros d a d' [Ho Hg] H. by eapply SaveWatch_once. Qed.
Lemma moved_once {A : Type} P i (t : tx A) : triple P t (fun _ => moved i) → triple P t (fun _ => once).
Proof. intros H. eapply triple_conseq; [exact H|done|by intros a d [Ho _]]. Qed.

Lemma install_once lifetimes record existing reset state now : triple (ahead record) (install lifetimes record existing reset state now) (fun _ => once).
Proof.
  apply (moved_once _ (r_ID record)). unfold install. eapply triple_bind; [apply SaveWatch_moved|]. intros ?.
  eapply (triple_bind _ _ _ (fun _ => moved (r_ID record))).
  { apply triple_unless; [auto|]. intros _. eapply triple_bind; [apply ResetState_moved|]. intros ?. apply steady_moved, lifecycleEvent_steps. exact _. }
  intros ?. eapply (triple_bind _ _ _ (fun _ => moved (r_ID record))); [|intros ?; apply steady_moved, lifecycleEvent_steps; exact _].
  destruct (_ && _); apply steady_moved; [apply steps_RevisionState|apply armInitial_steps]; exact _.
Qed.

(** ** Applying a bundle *)

Lemma once_unknown d : once d → watch_in id d = None → id ∈ db_purged d.
Proof.
  intros [Ht Hr] H. assert (Hw : db_watches d !! id = None).
  { destruct (db_watches d !! id) as [w|] eqn:E; [|done]. destruct (ty_watches _ Ht _ _ E) as ([v Hv] & _). unfold watch_in in H. rewrite E in H. cbn in H. by rewrite Hv in H. }
  destruct Hr as [[Hp|(w & Hw' & _ & _)]|(w & Hw' & _)]; [done|congruence..].
Qed.

(** Installing a changed or reset watch starts a new generation. *)
Lemma planned_generation q r p n now d record reset state n' d' :
  planned limits q (Some r) p n now d = Ok ((record, reset, state, n'), d') →
  r_Revision r ≠ cp_Revision p ∨ aq_resetPaused q = true → r_Generation r < r_Generation record ∧ r_Status record ≠ "deleted".
Proof.
  unfold planned. intros H. tx_inv. revert H. unfold revised. intros H.
  destruct (decide (r_Revision r = cp_Revision p)) as [E|E]; [rewrite (bool_decide_eq_true_2 _ E) in H|rewrite (bool_decide_eq_false_2 _ E) in H];
    try destruct (cp_Fingerprint _ ≟ _); tx_inv; destruct (aq_resetPaused q); simplify_eq; cbn; intros []; try done;
    (split; [lia|]); try done; by match goal with H : (r_Status r ≟ "deleted") = false |- _ => apply bool_decide_eq_false_1 in H end.
Qed.

Lemma apply_watch_once lifetimes q owner available now p n : preserves once (apply_watch limits lifetimes q owner available now p n).
Proof.
  unfold apply_watch. eapply triple_bind; [apply steady_once, respects_for_each; [exact _|intros; apply check_target_steps; exact _]|]. intros ?.
  eapply triple_bind; [apply steady_once, respects_unless; [exact _|apply checkHandoffHold_steps; exact _]|]. intros ?. unfold find_watch.
  eapply (triple_bind _ _ _ (fun old d => once d ∧ watch_in (watch_id p) d = old)); [by apply triple_gets|]. intros old.
  do 2 (eapply (triple_bind _ _ _ (fun _ d => once d ∧ watch_in (watch_id p) d = old)); [by apply triple_reject|]; intros ?).
  intros d res d' [Ho Hold] H. apply tx_bind_inv in H as ([[[record reset] state] n'] & d1 & Hp & H). tx_inv.
  destruct (planned_spec _ _ _ _ _ _ _ _ _ _ _ _ Hp) as (-> & Hplan & _).
  match goal with H : unless ?b _ d = _ |- _ => rename H into Hi; destruct b eqn:Hb; cbn in Hi; tx_inv; [done|] end.
  eapply install_once; [|exact Hi]. split; [done|]. intros Hid. assert (Hw : watch_id p = id) by (rewrite <- Hid; unfold r_ID, watch_id, r_Definition; by rewrite Hplan).
  rewrite Hw in *. apply orb_false_iff in Hb as [_ Hb]. destruct (watch_in id d) as [r|] eqn:Er; [|left; by apply once_unknown]. right.
  destruct (watch_in_row _ _ _ (proj1 Ho) Er) as (_ & Hne & _). pose proof (once_generation _ _ Ho Er) as Hg. cbn in Hp, Hb. rewrite (bool_decide_eq_false_2 _ Hne) in Hp.
  pose proof (planned_generation _ _ _ _ _ _ _ _ _ _ _ Hp) as Hn. destruct Hn as [Hn1 Hn2]; [|split; [lia|by intros ?]].
  destruct (aq_resetPaused q); [by right|]. left. cbn in Hb. rewrite andb_true_r in Hb. by apply bool_decide_eq_false_1 in Hb.
Qed.

Lemma apply_watches_once lifetimes q owner available now l n : preserves once (apply_watches limits lifetimes q owner available now l n).
Proof.
  revert n. induction l as [|p l IH]; intros n; cbn [apply_watches]; [apply triple_ret; auto|].
  eapply triple_bind; [apply apply_watch_once|]. intros [change n']. eapply triple_bind; [apply IH|]. intros ?. apply triple_ret. auto.
Qed.

Lemma apply_destinations_steady dry now l : respects steady (apply_destinations dry now l).
Proof.
  assert (H : ∀ c, respects steady (SaveDestination c now)).
  { intros c. apply respects_steady; [|apply steps_SaveDestination]. unfold SaveDestination. respects_tac; apply respects_modify; intros d; by apply calm_same. }
  induction l as [|c l IH]; cbn [apply_destinations]; [apply respects_ret; exact _|]. unfold apply_destination. respects_tac.
Qed.

Lemma apply_core_once lifetimes oversized owner q b closing now :
  preserves once (apply_core limits storage instance lifetimes oversized owner q b closing now).
Proof.
  unfold apply_core, live_watches, captureReview. do 4 (eapply triple_bind; [apply steady_once; respects_tac|]; intros ?).
  eapply triple_bind; [apply steady_once; unfold check_destinations; respects_tac|]. intros ?.
  eapply triple_bind; [apply steady_once, apply_destinations_steady|]. intros ?.
  eapply triple_bind; [apply apply_watches_once|]. intros ?. apply steady_once. respects_tac.
Qed.
Lemma apply_tx_once lifetimes oversized ctx m q b closing now :
  respects steady (mu_begin m) → respects steady (mu_finish m) →
  preserves once (apply_tx limits storage instance approved lifetimes oversized ctx m q b closing now).
Proof.
  intros Hbegin Hfinish. unfold apply_tx. eapply triple_bind; [apply steady_once, authorizeBundle_steps; exact _|]. intros ?.
  eapply triple_bind; [by apply steady_once|]. intros []; [by apply triple_ret|]. eapply triple_bind; [apply apply_core_once|]. intros ?.
  apply steady_once. respects_tac.
Qed.

(** ** Lifecycle requests and clock discontinuities *)

Lemma GetWatch_once i : triple once (GetWatch i) (fun r d => once d ∧ (r_ID r = id → g <= r_Generation r)).
Proof.
  intros d r d' Ho H. unfold GetWatch in H. tx_inv. destruct (watch_in i d) as [r'|] eqn:E; [|done]. tx_inv. split; [done|]. intros Hid.
  destruct (watch_in_row _ _ _ (proj1 Ho) E) as (Hi & _). rewrite <- Hi, Hid in E. by eapply once_generation.
Qed.

Lemma PurgeWatch_once i : preserves once (PurgeWatch i).
Proof.
  intros d a d' [Ht Hr] H. split; [by eapply PurgeWatch_typed|]. unfold PurgeWatch, GetWatch, HandoffHold in H. tx_inv.
  destruct (watch_in i d) as [r|]; [|done]. tx_inv. unfold remembered, past in *. cbn.
  destruct (decide (i = id)) as [->|Hi]; [left; left; set_solver|]. rewrite lookup_delete_ne, rows_delete by done. destruct (decide _); [done|].
  destruct Hr as [[Hp|Hp]|Hp]; [left; left; set_solver|by left; right|by right].
Qed.

Lemma change_status_once r status action lifetime now :
  (status = "deleted" → since <= timestamp now) → triple (fun d => once d ∧ (r_ID r = id → g <= r_Generation r)) (change_status limits range r status action lifetime now) (fun _ => once).
Proof.
  intros Hnow. apply (moved_once _ (r_ID r)). unfold change_status. set (r' := transitioned r status now).
  eapply (triple_bind _ _ _ (fun _ => moved (r_ID r'))); [eapply triple_conseq; [apply SaveWatch_moved| |done]|].
  { intros d [Ho Hg]. split; [done|]. intros Hid. right. pose proof (Hg Hid). split; [cbn; lia|done]. }
  intros ?. eapply triple_bind; [apply steady_moved, steps_DeleteTimers|]. intros ?.
  eapply triple_bind; [apply steady_moved, respects_unless; [exact _|apply resume_all_steps; exact _]|]. intros ?.
  eapply triple_bind; [apply steady_moved, lifecycleEvent_steps; exact _|]. intros ?. by apply triple_ret.
Qed.

Lemma action_deleted action : action_status action = Ok "deleted" → action = "delete".
Proof.
  unfold action_status. destruct (decide (action = "pause")) as [->|]; [done|]. rewrite bool_decide_eq_false_2 by done.
  destruct (decide (action = "resume")) as [->|]; [done|]. rewrite bool_decide_eq_false_2 by done.
  destruct (decide (action = "delete")) as [->|]; [done|]. by rewrite bool_decide_eq_false_2.
Qed.
Lemma lifecycle_core_once ctx owner i q closing lifetime now :
  (lr_Action q = "delete" → since <= timestamp now) → preserves once (lifecycle_core limits range approved ctx owner i q closing lifetime now).
Proof.
  intros Hnow. unfold lifecycle_core.
  eapply triple_bind; [apply steady_once; respects_tac|]. intros ?. eapply triple_bind; [apply steady_once, checkHandoffHold_steps; exact _|]. intros ?.
  eapply triple_bind; [apply GetWatch_once|]. intros r. cbv beta. intros d res d' [Ho Hg]. revert d res d' Ho.
  eapply (triple_bind once _ _ (fun _ => once)); [apply steady_once, authorizeBundle_steps; exact _|]. intros ?.
  do 3 (eapply triple_bind; [apply steady_once; respects_tac|]; intros ?).
  destruct (lr_Action q ≟ "purge"); [eapply triple_bind; [apply PurgeWatch_once|]; intros ?; by apply triple_ret|].
  eapply (triple_bind _ _ _ (fun status d => once d ∧ (status = "deleted" → since <= timestamp now))).
  { apply triple_lift. intros d status Hs Ho. split; [done|]. intros ->. by apply Hnow, action_deleted. }
  intros status d res d' [Ho Hs]. revert d res d' Ho. eapply (triple_bind once _ _ (fun _ => once)); [apply steady_once; respects_tac|]. intros ?.
  eapply triple_bind; [apply steady_once, respects_unless; [exact _|apply CancelPending_steps; exact _]|]. intros ?.
  destruct (_ ≟ _); [by apply triple_ret|]. eapply triple_conseq; [by apply change_status_once|by intros d Ho|done].
Qed.
Lemma lifecycle_once ctx m i q closing lifetime now :
  (lr_Action q = "delete" → since <= timestamp now) → respects steady (mu_begin m) → respects steady (mu_finish m) →
  preserves once (lifecycle limits range approved ctx m i q closing lifetime now).
Proof.
  intros Hnow Hbegin Hfinish. unfold lifecycle. eapply triple_bind; [apply steady_once, Require_steps; exact _|]. intros ?.
  eapply triple_bind; [by apply steady_once|]. intros []; [by apply triple_ret|]. eapply triple_bind; [by apply lifecycle_core_once|]. intros ?.
  apply steady_once. respects_tac.
Qed.

(** ** Transfers *)

Lemma SaveHandoff_steady h : respects steady (SaveHandoff h).
Proof.
  apply respects_steady; [|apply steps_SaveHandoff]. unfold SaveHandoff. respects_tac. apply respects_modify. intros d. by apply calm_same.
Qed.
#[local] Hint Resolve SaveHandoff_steady : tx.
Lemma PauseForHandoff_once ctx granted q closing lifetime now checked later d :
  once d → once (fst (PauseForHandoff limits range instance approved ctx granted q closing lifetime now checked later d)).
Proof.
  intros Ho. unfold PauseForHandoff. destruct (_ || _); [done|]. cbv zeta.
  match goal with |- context [Update ?t d] => assert (H : once (fst (Update t d))); [|by destruct (Update t d) as [? []]] end.
  unfold Update. destruct (lifecycle _ _ _ _ _ _ _ _ _ _ d) as [[r d']|] eqn:E; [|done]. eapply lifecycle_once; [| | |exact Ho|exact E]; [done|..].
  - apply pause_begin_steps; first [exact _|apply SaveHandoff_steady].
  - apply finish_handoff_steps; first [exact _|apply SaveHandoff_steady].
Qed.
Lemma ActivateHandoff_once ctx granted i source closing lifetime next saved armed at_ :
  preserves once (ActivateHandoff ctx granted i source closing lifetime next saved armed at_).
Proof.
  unfold ActivateHandoff, activate_target, GetHandoff. eapply triple_bind; [apply steady_once; respects_tac|]. intros h.
  eapply triple_bind; [apply steady_once, authorizeHandoff_steps; exact _|]. intros ?. eapply triple_bind; [apply steady_once; respects_tac|]. intros ?.
  destruct (_ ≟ _); [by apply triple_ret|]. eapply triple_bind; [apply steady_once; respects_tac|]. intros ?.
  eapply triple_bind; [apply GetWatch_once|]. intros r. cbv beta. intros d res d' [Ho Hg]. revert d res d' Ho.
  eapply (triple_bind once _ _ (fun _ => once)); [apply steady_once; respects_tac|]. intros ?.
  eapply triple_bind; [apply steady_once; unfold unchanged_destination, GetDestination; respects_tac|]. intros ?.
  eapply triple_bind; [apply steady_once; respects_tac|]. intros ?. cbv zeta. apply (moved_once _ (r_ID r)).
  eapply (triple_bind _ _ _ (fun _ => moved (r_ID r))); [eapply triple_conseq; [apply SaveWatch_moved| |done]|].
  { intros d Ho. split; [done|]. intros Hid. right. pose proof (Hg Hid). split; [cbn; lia|done]. }
  intros ?. eapply triple_bind; [apply steady_moved, armInitial_steps; exact _|]. intros ?.
  eapply triple_bind; [apply steady_moved, lifecycleEvent_steps; exact _|]. intros ?.
  eapply triple_bind; [apply steady_moved, SaveHandoff_steady|]. intros ?. by apply triple_ret.
Qed.

Lemma shift_watch_once now lifetimes r : (r_ID r = id → g <= r_Generation r) → preserves once (shift_watch limits range now lifetimes r).
Proof.
  intros Hg. unfold shift_watch, GetEntities. destruct (negb (r_Status r ≟ "running")) eqn:Hs; [by apply triple_ret|]. apply negb_false_iff, bool_decide_eq_true_1 in Hs.
  apply (moved_once _ (r_ID r)). set (r' := r <| r_Generation := r_Generation r + 1 |> <| r_NextAt := now |>). cbv zeta.
  eapply (triple_bind _ _ _ (fun _ => moved (r_ID r'))); [eapply triple_conseq; [apply SaveWatch_moved| |done]|].
  { intros d Ho. split; [done|]. intros Hid. right. pose proof (Hg Hid). split; [cbn; lia|cbn; by rewrite Hs]. }
  intros ?. eapply triple_bind; [apply steady_moved, steps_DeleteTimers|]. intros ?.
  eapply triple_bind; [apply steady_moved, respects_gets; exact _|]. intros ?.
  eapply triple_bind; [apply steady_moved, respects_lift; exact _|]. intros ?.
  eapply triple_bind; [apply steady_moved, respects_for_each; [exact _|intros; apply shift_entity_steps; exact _]|]. intros ?.
  eapply triple_bind; [apply steady_moved, respects_unless; [exact _|apply armInitial_steps; exact _]|]. intros ?.
  apply steady_moved, lifecycleEvent_steps. exact _.
Qed.

Lemma clockShift_once lifetimes now : preserves once (clockShift limits range lifetimes now).
Proof.
  unfold clockShift, GetWatches. eapply (triple_bind _ _ _ (fun l d => once d ∧ ∀ r, r ∈ l → r_ID r = id → g <= r_Generation r)).
  - apply triple_gets. intros d Ho. split; [done|]. intros r (i & _ & Hi)%list_elem_of_omap Hid.
    destruct (watch_in_row _ _ _ (proj1 Ho) Hi) as (Ei & _). rewrite <- Ei, Hid in Hi. by eapply once_generation.
  - intros l d res d' [Ho Hl]. revert d res d' Ho. apply (triple_for_each once). intros r Hr. apply shift_watch_once. auto.
Qed.

(** ** Acceptances *)

(** The receipt of another input, or of another generation. *)
Lemma SaveReceipt_once i n input' first last expires :
  ¬ (i = id ∧ n = g ∧ input' = input) → preserves once (SaveReceipt i n input' first last expires).
Proof.
  intros Hne d res d' [Ht Hr] H. split; [by eapply (steps_SaveReceipt (R := well_typed))|]. unfold SaveReceipt in H. tx_inv.
  destruct Hr as [Hr|(w & Hw & Hg & Hx)]; [by left|]. right. exists w. cbn. rewrite rows_put. destruct (decide _); [|done]. naive_solver.
Qed.

(** In its generation the receipt is there. *)
Lemma once_row d w : once d → db_watches d !! id = Some w → w_generation w = g → rows id (db_receipts d) !! (g, input) = Some x.
Proof.
  intros [Ht [[Hp|(w' & Hw' & Hlt & _)]|(w' & Hw' & _ & Hx)]] Hw Hg; [by destruct (ty_watches _ Ht _ _ Hw) as (_ & _ & _ & [])|naive_solver lia|done].
Qed.
Lemma watch_in_calm_row d d' current : typed d → watch_in id d = Some current → calm d d' → ∃ w, db_watches d' !! id = Some w ∧ w_generation w = r_Generation current.
Proof. intros Ht (_ & _ & w & Hw & <-)%watch_in_row Hc; [|done]. destruct (calm_row _ _ _ Hc Hw) as (w' & ? & ? & _). eauto. Qed.

(** While the receipt is valid, only repetitions of the input name its key. *)
Lemma accept_tx_once record e b input' push closing now later :
  timestamp now < i_expires x → preserves once (accept_tx limits jitter storage record e b input' push closing now later).
Proof.
  intros Hnow. unfold accept_tx. eapply triple_bind; [apply steady_once; respects_tac|]. intros ?.
  eapply (triple_bind _ _ _ (fun current d => once d ∧ ∃ d0, calm d0 d ∧ typed d0 ∧ watch_in (r_ID record) d0 = Some current)).
  { intros d current d' Ho H. unfold GetWatch in H. tx_inv. destruct (watch_in _ d) eqn:E; [|done]. tx_inv. split; [done|]. exists d. split; [reflexivity|]. split; [apply Ho|done]. }
  intros current. set (P := fun d => once d ∧ _).
  assert (HP : ∀ A (t : tx A), respects steady t → preserves P t).
  { intros A t Ht d res d' [Ho (d0 & Hc & H0)] H. split; [by eapply steady_once|]. exists d0. split; [etrans; [exact Hc|by eapply Ht]|done]. }
  eapply (triple_bind P _ _ (fun _ => P)); [apply HP; destruct push; [apply admit_push_steps; exact _|apply respects_ret; exact _]|]. intros [rc|]; [by apply triple_ret; intros d []|].
  eapply triple_bind; [apply HP; respects_tac|]. intros ?. eapply triple_bind; [apply HP, take_timer_steps; exact _|]. intros ?.
  eapply (triple_bind _ _ _ (fun seen d => once d ∧ (seen = None → ¬ (r_ID current = id ∧ r_Generation current = g ∧ input' = input)))).
  { intros d seen d' [Ho (d0 & Hc & Ht0 & H0)] H. unfold GetReceipt in H. tx_inv. split; [done|]. intros Hseen (Hid & Hg & ->).
    destruct (watch_in_row _ _ _ Ht0 H0) as (Hid' & _). rewrite <- Hid', Hid in H0. destruct (watch_in_calm_row _ _ _ Ht0 H0 Hc) as (w & Hw & Ew).
    pose proof (once_row _ _ Ho Hw ltac:(congruence)) as Hx.
    rewrite Hid, Hg, Hx in Hseen. cbn in Hseen. by rewrite (proj2 (Z.ltb_lt _ _) Hnow) in Hseen. }
  intros [[first last]|]; [by apply triple_ret; intros d []|]. intros d res d' [Ho Hkey]. specialize (Hkey eq_refl). revert d res d' Ho.
  eapply (triple_bind once _ _ (fun _ => once)); [apply steady_once; respects_tac|]. intros ?.
  eapply triple_bind; [apply steady_once, record_batch_steps; exact _|]. intros [[first last] n].
  eapply (triple_bind once _ _ (fun _ => once)); [|intros ?; by apply triple_ret]. unfold save_receipt. destruct push as [p|].
  - apply steady_once. assert (Hs : ∀ a b c d r e f, respects steady (SavePush a b c d r e f)) by (intros; apply SavePush_steps; exact _). respects_tac.
  - eapply triple_bind; [by apply SaveReceipt_once|]. intros ?. by apply triple_ret.
Qed.

Lemma acceptPush_once record b input' push closing now later d :
  timestamp now < i_expires x → once d → once (fst (acceptPush limits jitter storage record b input' push closing now later d)).
Proof.
  intros Hnow Ho. unfold acceptPush. destruct closing; [done|]. destruct (check_input record b input') as [e|]; [|done].
  unfold Update at 1. destruct (accept_tx _ _ _ _ _ _ _ _ _ _ _ d) as [[r d']|] eqn:E; cbn [fst]; [by eapply accept_tx_once|].
  destruct (_ && _); cbn [fst]; [|done]. destruct (respects_update steady (SetLastError (r_ID record) (r_Generation record)
    (if e0 ≟ ErrQuota then "quota_exceeded" else "acceptance_failed") zero_time) d) as [Hc Hw]; [apply steps_SetLastError|].
  split; [by apply Hw, Ho|by eapply calm_remembered; [|apply Ho]].
Qed.

Lemma run_timers_once closing now l d : timestamp now < i_expires x → once d → once (fst (run_timers limits jitter storage closing now l d)).
Proof.
  intros Hnow. revert d. induction l as [|t l IH]; intros d Ho; cbn [run_timers]; [done|].
  destruct (View (GetWatch (tm_WatchID t)) d) as [r|]; [|done].
  pose proof (acceptPush_once r (timer_batch t) (timer_input t) None closing now now d Hnow Ho) as H.
  destruct (acceptPush _ _ _ _ _ _ _ _ _ _ d) as [d1 [|e]]; cbn [fst] in H; [by apply IH|]. destruct (e ≟ ErrStale); [by apply IH|done].
Qed.

(** ** Retention *)

(** A receipt that has not expired stays. *)
Lemma RetainReceipts_once now limit : now < i_expires x → preserves once (RetainReceipts now limit).
Proof.
  intros Hnow d a d' [Ht Hr] H. split; [by eapply (retained_receipts (R := well_typed))|]. unfold RetainReceipts in H. tx_inv.
  destruct Hr as [Hr|(w & Hw & Hg & Hx)]; [by left|]. right. exists w. split_and!; try done. apply rows_drop_all_keep; [done|]. intros y Hin.
  apply elem_of_first, list_elem_of_filter in Hin as [Hle Hin']. unfold receipt_entries in Hin'. apply list_elem_of_bind in Hin' as ([i m] & Hy & Hm%elem_of_map_to_list).
  apply list_elem_of_fmap in Hy as ([k z] & E & Hk%elem_of_map_to_list). cbn in *. simplify_eq.
  unfold rows in Hx. rewrite Hm in Hx. cbn in Hx. simplify_eq. lia.
Qed.

(** The watch is removed only when its deletion is older than the cutoff. *)
Lemma watches_once pass cutoff limit : cutoff <= since → preserves once (scanRetentionFamily watches_family pass cutoff limit).
Proof.
  intros Hcut d a d' [Ht Hr] H. split.
  { eapply (scanRetentionFamily_steps well_typed (fun d m => retained_cursors d m)); [|exact H|done]. intros l. apply retained_family. do 2 right. by left. }
  unfold scanRetentionFamily in H. tx_inv. destruct (match _ with Some _ => _ | None => _ end); [by tx_inv|]. tx_inv.
  set (l := take limit _) in *. assert (Hl : ∀ c, c ∈ l → c ∈ rf_rows watches_family d ∧ cu_At c < cutoff) by (intros c Hc; by apply remaining_old in Hc as (? & ? & _)).
  destruct (list.last l); [|by tx_inv]. tx_inv. cbn [rf_delete watches_family] in *. unfold delete_watches in *. tx_inv.
  set (gone := list_to_set _ : gset string) in *.
  assert (Hg : id ∈ gone → (∃ w, db_watches d !! id = Some w ∧ w_status w = "deleted" ∧ w_next w < cutoff) ∧ ∀ k r, rows id (db_receipts d) !! k = Some r → False).
  { intros [Hrem Hin]%elem_of_list_to_set%list_elem_of_filter. destruct (removable_watch_inv _ _ Hrem) as (_ & _ & _ & Hrec). split; [|done].
    apply list_elem_of_fmap in Hin as (c & Hc & Hin). destruct (Hl _ Hin) as [Hrow Hat]. apply list_elem_of_fmap in Hrow as ([i w] & -> & Hw). cbn in *. subst i.
    apply list_elem_of_filter in Hw as [Hs Hw%elem_of_map_to_list]. eauto. }
  unfold remembered, past. cbn.
  assert (Hkeep : ∀ w, id ∉ gone → db_watches d !! id = Some w → filter (fun kv : string * watch_row => fst kv ∉ gone) (db_watches d) !! id = Some w)
    by (intros w Hn Hw; by apply map_lookup_filter_Some).
  destruct Hr as [[Hp|(w & Hw & Hlt & Hlate)]|(w & Hw & E & Hx)]; [by left; left| |].
  - left. right. exists w. split_and!; try done. apply Hkeep; [|done]. intros ((w' & Hw' & Hs & Hn) & _)%Hg. simplify_eq. apply Hlate in Hs. lia.
  - right. exists w. split_and!; try done. apply Hkeep; [|done]. intros (_ & Hno)%Hg. by eapply Hno.
Qed.

(** The other families hold neither watches nor receipts. *)
Lemma family_steady f l : f ∈ retentionFamilies → rf_name f ≠ "watches" → respects steady (rf_delete f l).
Proof.
  intros Hf Hn. apply respects_steady; [|by apply retained_family]. unfold retentionFamilies in Hf.
  repeat (apply elem_of_cons in Hf as [->|Hf]); [| | | | |by apply not_elem_of_nil in Hf]; try done; apply respects_modify; intros d; by apply calm_same.
Qed.
Lemma scan_once f pass cutoff limit : f ∈ retentionFamilies → cutoff <= since → preserves once (scanRetentionFamily f pass cutoff limit).
Proof.
  intros Hf Hcut. destruct (decide (rf_name f = "watches")) as [Hn|Hn].
  - assert (f = watches_family) as ->; [|by apply watches_once]. unfold retentionFamilies in Hf.
    repeat (apply elem_of_cons in Hf as [->|Hf]; [done|]). by apply not_elem_of_nil in Hf.
  - apply steady_once, scanRetentionFamily_steps; [exact _| |intros l; by apply family_steady]. intros d m. split; [by apply calm_same|apply retained_cursors].
Qed.

Lemma total_progress_once {A : Type} (f : A → tx Z) l : (∀ a, a ∈ l → preserves once (f a)) → preserves once (total_progress f l).
Proof.
  induction l as [|a l IH]; intros H; cbn [total_progress]; [by apply triple_ret|].
  eapply triple_bind; [apply H; by left|]. intros ?. eapply triple_bind; [apply IH; intros; apply H; by right|]. intros ?. by apply triple_ret.
Qed.

Lemma RetainBatch_once cutoff now limit pass :
  timestamp now < i_expires x → timestamp cutoff <= since → preserves once (RetainBatch cutoff now limit pass).
Proof.
  intros Hnow Hcut. unfold RetainBatch. eapply triple_bind; [apply steady_once; respects_tac|]. intros ?. cbv zeta.
  eapply triple_bind; [by apply RetainReceipts_once|]. intros ?.
  eapply triple_bind; [apply steady_once, RetainPushes_steps; [exact _|intros d0 t0 E; apply steps_push; rewrite E; by left]|]. intros ?.
  eapply triple_bind; [apply steady_once, respects_steady; [apply RetainBackoff_steps; [exact _|intros; by apply calm_same]|apply retained_backoff]|]. intros ?.
  eapply triple_bind; [apply steady_once, respects_steady; [apply RetainOutbox_steps; [exact _|intros; by apply calm_same]|apply retained_intents]|]. intros ?.
  eapply triple_bind; [apply total_progress_once; intros f Hf; by apply scan_once|]. intros ?.
  eapply triple_bind; [apply steady_once, respects_steady; [apply RetainStreams_steps; [exact _|intros; by apply calm_same]|apply retained_streams]|]. intros ?. by apply triple_ret.
Qed.

Lemma RetainLogSummariesBatch_steady i cutoff limit pass : respects steady (RetainLogSummariesBatch i cutoff limit pass).
Proof.
  unfold RetainLogSummariesBatch. apply respects_bind; [exact _|apply respects_reject; exact _|intros].
  apply scanRetentionFamily_steps; [exact _|intros d m; split; [by apply calm_same|apply retained_cursors]|].
  intros l. apply respects_steady; [|apply retained_logs]. apply respects_modify. intros d. by apply calm_same.
Qed.

(** ** The run *)

(** What the clocks read meanwhile: acceptances and retention before the receipt
    expires, deletions not before the acceptance, and retention cutoffs not
    after it; and no prepared transfer is canceled. *)
Definition meanwhile (o : runtime_op) : Prop :=
  match o with
  | accept_batch _ _ _ _ _ now _ | deliver_timers _ now => timestamp now < i_expires x
  | request_lifecycle _ _ q _ _ now => lr_Action q = "delete" → since <= timestamp now
  | retain_history now _ => timestamp now < i_expires x ∧ timestamp (Add now (- g_Retention limits)) <= since
  | cancel_handoff _ _ _ _ _ => False
  | _ => True
  end.

Lemma update_once {A : Type} (t : tx A) d : preserves once t → once d → once (fst (Update t d)).
Proof. intros Ht Hd. unfold Update. destruct (t d) as [[a d']|] eqn:E; [by eapply Ht|done]. Qed.

Lemma perform_once o d : meanwhile o → once d → once (perform limits jitter storage range instance approved o d).
Proof.
  intros Hb Ho. assert (Hout : ∀ o, once (d <| db_outbox := step (db_outbox d) o |>)).
  { intros o'. destruct (steps_outbox (R := steady) d o') as [Hc Hw]. split; [by apply Hw, Ho|by eapply calm_remembered; [|apply Ho]]. }
  destruct o as [ctx q b closing lts now|record b input' push closing now later|ctx i q closing lt now|lts now|closing now|now|now pass|i cutoff pass|now lease token|i r next now|i now|ctx granted q b closing lts now later|ctx granted q closing lt now checked later|ctx granted i source closing lt next saved armed at_|ctx granted i lt now|ctx granted i target|ctx granted i key digest now|ctx granted i key digest outcome]; cbn [meanwhile] in Hb.
  - cbn [perform]. destruct (apply_effect limits storage instance approved lts noMutation q b ctx closing now d) as [->| ->]; [done|].
    apply update_once; [apply apply_tx_once; apply respects_ret; exact _|done].
  - by apply acceptPush_once.
  - apply update_once; [by apply lifecycle_once; [|apply respects_ret; exact _..]|done].
  - apply update_once; [apply clockShift_once|done].
  - cbn [perform]. unfold RunTimers. destruct (View _ d); [|done]. by apply run_timers_once.
  - apply update_once; [apply steady_once, maintain_page_steps; exact _|done].
  - destruct Hb. apply update_once; [by apply RetainBatch_once|done].
  - apply update_once; [apply steady_once, RetainLogSummariesBatch_steady|done].
  - specialize (Hout (OClaim now lease token)). cbn [perform step] in *. by destruct (Claim _ _ _ _) as [[t y]|].
  - specialize (Hout (OFinish i r next now)). cbn [perform step] in *. by destruct (Finish _ _ _ _ _) as [t|].
  - specialize (Hout (ORetry i now)). cbn [perform step] in *. by destruct (Outbox.Retry _ _ _) as [t|].
  - cbn [perform]. destruct (prepare_effect limits storage instance approved lts ctx granted q b closing now later d) as [->|(p & _ & ->)]; [done|].
    apply update_once; [|done]. apply apply_tx_once; [apply prepare_begin_steps|apply finish_handoff_steps]; first [exact _|apply SaveHandoff_steady].
  - by apply PauseForHandoff_once.
  - apply update_once; [apply ActivateHandoff_once|done].
  - done.
  - apply update_once; [apply steady_once, ReleaseHandoff_steps; first [exact _|apply SaveHandoff_steady]|done].
  - apply update_once; [apply steady_once, begin_probe_steps; first [exact _|apply SaveHandoff_steady]|done].
  - apply update_once; [apply steady_once, finish_probe_steps; first [exact _|apply SaveHandoff_steady]|done].
Qed.

Lemma run_once d l : Forall meanwhile l → once d → once (runtime_run limits jitter storage range instance approved d l).
Proof. intros Hl. revert d. induction Hl as [|o l Ho _ IH]; intros d Hd; [done|]. apply IH. by apply perform_once. Qed.

(** ** Repetitions *)

Lemma take_timer_quiet r b now : respects quiet (take_timer r b now).
Proof.
  unfold take_timer. destruct (is_timer b); [|apply respects_ret; exact _]. intros d res d' H.
  destruct (GetTimer _ _ _ d) as [[t d1]|] eqn:E; [|done]. unfold GetTimer in E. tx_inv. destruct (rows _ _ !! _); [|done]. unfold DeleteTimer in H. tx_inv.
  repeat case_match; done.
Qed.
Lemma SetLastError_quiet i n detail next : respects quiet (SetLastError i n detail next).
Proof. apply respects_modify. intros d. repeat case_match; done. Qed.

Definition duplicate : Receipt := {| rc_First := i_first x; rc_Last := i_last x; rc_Duplicate := true |}.

(** The transaction of a repetition. *)
Lemma repeat_tx record e b closing now later d :
  once d → r_ID record = id → r_Generation record = g → timestamp now < i_expires x →
  match accept_tx limits jitter storage record e b input None closing now later d with
  | Ok (res, d') => res = (duplicate, None) ∧ quiet d d'
  | Err _ => True
  end.
Proof.
  intros Ho Hid Hg Hnow. destruct (accept_tx _ _ _ _ _ _ _ _ _ _ _ d) as [[res d']|] eqn:H; [|done].
  unfold accept_tx, GetWatch, GetReceipt in H. tx_inv. rewrite Hid in *. destruct (watch_in id d) as [current|] eqn:Hc; [|done]. tx_inv.
  match goal with H : _ || _ || _ = false |- _ => apply orb_false_iff in H as [[Eg%negb_false_iff%Z.eqb_eq _]%orb_false_iff _] end.
  match goal with H : take_timer _ _ _ d = Ok (_, ?d1) |- _ => rename H into Ht; pose proof (take_timer_quiet _ _ _ _ _ _ Ht) as Hq;
    destruct (take_timer_steps steady current b now d _ _ Ht) as [Hcalm _] end.
  destruct (watch_in_row _ _ _ (proj1 Ho) Hc) as (Ei & _ & w & Hw & Ew). pose proof (once_row _ _ Ho Hw ltac:(lia)) as Hx.
  destruct Hcalm as (_ & Hrec & _). rewrite Ei, Eg, Hg, Hrec, Hx in H. cbn in H. rewrite (proj2 (Z.ltb_lt _ _) Hnow) in H. by tx_inv.
Qed.

(** In a running watch the repetition is answered. *)
Lemma repeat_answered record e b now later d c :
  once d → watch_in id d = Some c → r_ID record = id → r_Generation record = g → r_Generation c = g → r_Revision c = r_Revision record →
  r_Status c = "running" → is_timer b = false → timestamp now < i_expires x →
  accept_tx limits jitter storage record e b input None false now later d = Ok ((duplicate, None), d).
Proof.
  intros Ho Hc Hid Hg Eg Er Es Htimer Hnow. destruct (watch_in_row _ _ _ (proj1 Ho) Hc) as (Ei & _ & w & Hw & Ew).
  pose proof (once_row _ _ Ho Hw ltac:(lia)) as Hx. unfold accept_tx, GetWatch, GetReceipt, gets, take_timer, mbind, tx_bind. cbn [reject mret tx_ret]. rewrite Hid, Hc.
  cbn [mret tx_ret]. rewrite Eg, Hg, Er, Es, Htimer, Z.eqb_refl, !bool_decide_eq_true_2 by done. cbn. rewrite Ei, Hx. cbn. by rewrite (proj2 (Z.ltb_lt _ _) Hnow).
Qed.
End Once.

Section Accepted.
Context `{L : Libraries} (limits : Budgets) (jitter : duration) (storage : db → Z) (range : gmap string State → list (string * State)).
Context (instance : string) (approved : list string).

(** The receipt an acceptance leaves. *)
Definition receipt_of (current : WatchRecord) (rc : Receipt) (now : time) : receipt_row :=
  {| i_first := rc_First rc; i_last := rc_Last rc; i_expires := timestamp (Add now (receipt_ttl current)) |}.

Lemma accepted_remembered record e b input closing now later d rc d' current :
  typed d → watch_in (r_ID record) d = Some current → rc_Duplicate rc = false →
  accept_tx limits jitter storage record e b input None closing now later d = Ok ((rc, None), d') →
  once (r_ID record) (r_Generation record) input (timestamp now) (receipt_of current rc now) d'.
Proof.
  intros Ht Hc Hrc H. split; [by eapply (accept_tx_steps well_typed)|]. unfold accept_tx, GetWatch, GetReceipt in H. tx_inv.
  rewrite Hc in *. tx_inv. destruct (watch_in_row _ _ _ Ht Hc) as (Ei & _ & w & Hw & Ew).
  match goal with H : _ || _ || _ = false |- _ => apply orb_false_iff in H as [[Eg%negb_false_iff%Z.eqb_eq _]%orb_false_iff _] end.
  match goal with H : take_timer _ _ _ d = Ok (_, ?d1) |- _ => destruct (take_timer_steps steady current b now d _ _ H) as [C1 _] end.
  destruct (rows _ _ !! _ ≫= _) as [[first last]|]; [tx_inv; by simplify_eq/=|].
  apply tx_bind_inv in H as (? & ? & [_ ->]%reject_inv & H). apply tx_bind_inv in H as ([[first last] n] & d2 & Hb & H).
  unfold save_receipt, SaveReceipt in H. tx_inv. simplify_eq.
  destruct (record_batch_steps steady limits jitter storage current e b input now _ _ _ Hb) as [C2 _].
  destruct (calm_row (r_ID record) 0 _ _ w (transitivity C1 C2) Hw) as (w' & Hw' & Ew' & _). right. exists w'. split_and!; [done|lia|].
  cbn. rewrite rows_put, Ei, Eg. by destruct (decide _) as [|[]].
Qed.

(** C5: An accepted input is not accepted again.  After an input was accepted
    for a watch, and whatever the runtime does next - other batches, pushes,
    timers, bundles, pauses, resumptions, deletions, purges, clock
    discontinuities, maintenance, retention, deliveries and transfers to and
    from other instances, in any order - a
    repetition of the input for the same generation, before its receipt expires,
    records no observation and changes no entity, event, checkpoint, intent or
    receipt, whatever batch it carries: it fails, or answers with the sequences
    of the first acceptance.  While the watch is still running in that generation
    and revision, it does answer so, and leaves the tables as they are.  The
    clocks are read meanwhile: no acceptance or retention after the expiry, no
    deletion before the acceptance, no retention cutoff after it; and no prepared
    transfer is canceled meanwhile. *)
Theorem accepted_once l l' record record' b b' input closing closing' now now' later later' current rc d :
  let d0 := runtime_run limits jitter storage range instance approved empty_db l in
  let receipt := receipt_of current rc now in
  let d' := runtime_run limits jitter storage range instance approved d l' in
  let again := acceptPush limits jitter storage record' b' input None closing' now' later' d' in
  let answer := ({| rc_First := rc_First rc; rc_Last := rc_Last rc; rc_Duplicate := true |}, None) in
  View (GetWatch (r_ID record)) d0 = Ok current →
  acceptPush limits jitter storage record b input None closing now later d0 = (d, Ok (rc, None)) → rc_Duplicate rc = false →
  Forall (meanwhile limits (timestamp now) receipt) l' → timestamp now' < i_expires receipt →
  r_ID record' = r_ID record → r_Generation record' = r_Generation record →
  quiet d' (fst again) ∧ (snd again = Ok answer ∨ ∃ e, snd again = Err e) ∧
  (∀ c e, View (GetWatch (r_ID record)) d' = Ok c → r_Generation c = r_Generation record' → r_Revision c = r_Revision record' → r_Status c = "running" →
    closing' = false → is_timer b' = false → check_input record' b' input = Ok e → again = (d', Ok answer)).
Proof.
  intros d0 receipt d' again answer Hc Ha Hrc Hl Hnow Hid Hg.
  assert (Ho : once (r_ID record) (r_Generation record) input (timestamp now) receipt d').
  { apply run_once; [done|]. unfold acceptPush in Ha. destruct closing; [done|]. destruct (check_input record b input) as [e|]; [|done].
    unfold Update at 1 in Ha. destruct (accept_tx _ _ _ _ _ _ _ _ _ _ _ _) as [[r d1]|] eqn:E; [|by destruct (_ && _)]. injection Ha as -> ->.
    eapply accepted_remembered; [apply run_typed, empty_typed| |done|exact E].
    by apply GetWatch_view. }
  assert (Hrep : ∀ e, match accept_tx limits jitter storage record' e b' input None closing' now' later' d' with Ok (res, d2) => res = answer ∧ quiet d' d2 | Err _ => True end).
  { intros e. by apply (repeat_tx limits jitter storage (r_ID record) (r_Generation record) input (timestamp now) receipt). }
  split_and!.
  - subst again. unfold acceptPush. destruct closing'; [reflexivity|]. destruct (check_input record' b' input) as [e|]; [|reflexivity]. specialize (Hrep e).
    unfold Update at 1. destruct (accept_tx _ _ _ _ _ _ _ _ _ _ _ d') as [[r d2]|]; [apply Hrep|]. destruct (_ && _); [|reflexivity].
    apply (respects_update quiet), SetLastError_quiet.
  - subst again. unfold acceptPush. destruct closing'; [right; eexists; reflexivity|].
    destruct (check_input record' b' input) as [e|]; [|right; eexists; reflexivity]. specialize (Hrep e).
    unfold Update. destruct (accept_tx _ _ _ _ _ _ _ _ _ _ _ d') as [[r d2]|]; [left; by destruct Hrep as [-> _]|]. right. exists e0. by destruct (_ && _).
  - intros c e Hv Eg Er Es Hclosing Htimer Hch. subst again. unfold acceptPush. rewrite Hclosing, Hch. unfold Update at 1.
    erewrite (repeat_answered limits jitter storage (r_ID record) (r_Generation record) input (timestamp now) receipt) by (done || congruence || by apply GetWatch_view). done.
Qed.
End Accepted.
