(* ===== verification/HandoffFacts.v ===== *)
(** * What a transfer's hold keeps out

    While a transfer holds a watch, no other request changes its status: the
    rows of transfers and the status of held watches are untouched by batches,
    timers, bundles, lifecycle requests, clock discontinuities, maintenance and
    retention.  A purge removes the rows of a watch and leaves its tombstone. *)
From S2P Require Import Prelude GoText Watch Plan Evaluator Outbox OutboxFacts PushReceipts Records Access Render Acceptance Lifecycle Maintenance Apply Handoff Runtime.
From S2P Require Import TxLogic RuntimeSteps EvidenceLifecycle Integrity AcceptOnce EvidenceFacts RecordJson.

Definition status_of (d : db) (i : string) : option string := w_status <$> db_watches d !! i.

(** ** Steps that spare every watch outside a set *)

Definition spares (U : string → Prop) (d d' : db) : Prop :=
  db_handoffs d' = db_handoffs d ∧ db_purged d' = db_purged d ∧ ∀ i, U i ∨ status_of d' i = status_of d i.
#[global] Instance spares_preorder U : PreOrder (spares U).
Proof.
  split; [intros d; split_and!; auto|]. intros a b c (A1 & A2 & A3) (B1 & B2 & B3). split_and!; [congruence..|].
  intros i. destruct (A3 i), (B3 i); auto. right. congruence.
Qed.
Lemma spares_same U d d' : db_handoffs d' = db_handoffs d → db_purged d' = db_purged d → db_watches d' = db_watches d → spares U d d'.
Proof. intros E1 E2 E3. split_and!; try done. intros i. right. unfold status_of. by rewrite E3. Qed.

(** The rows of transfers stay. *)
Definition kept_rows (d d' : db) : Prop := db_handoffs d' = db_handoffs d.
#[global] Instance kept_rows_preorder : PreOrder kept_rows.
Proof. split; [by intros d|]. intros a b c H1 H2. unfold kept_rows in *. congruence. Qed.
Lemma insert_evidence_kept id l : respects kept_rows (insert_evidence id l).
Proof. induction l as [|n l IH]; cbn [insert_evidence]; respects_tac. by apply respects_modify. Qed.
#[global] Instance kept_rows_steps : RowSteps kept_rows.
Proof.
  split; intros; try exact _; try done;
    try (unfold AppendObservation, SaveCheckpoint, SaveTimer, DeleteTimer, DeleteTimers, AppendEvent, SaveReplay, saveEntityData, syncEntityPins, DeleteEntity, RevisionState;
         respects_tac; try apply insert_evidence_kept; by apply respects_modify).
  all: apply respects_modify; intros d; by repeat case_match.
Qed.

Lemma calm_spares U d d' : calm d d' → kept_rows d d' → spares U d d'.
Proof.
  intros (H & _ & Hp) Hk. split_and!; try done. intros i. right. unfold status_of. specialize (H i).
  destruct (db_watches d' !! i), (db_watches d !! i); try done. cbn in *. injection H as _ -> _. done.
Qed.
Lemma respects_spares {A : Type} U (t : tx A) : respects calm t → respects kept_rows t → respects (spares U) t.
Proof. intros H1 H2 d a d' H. apply calm_spares; eauto. Qed.
#[global] Instance spares_steps `{L : Libraries} U : RowSteps (spares U).
Proof.
  assert (C : RowSteps calm) by exact _. assert (T : RowSteps kept_rows) by exact _. destruct C, T.
  split; intros; first [exact _|apply respects_spares; solve [eauto]|apply calm_spares; solve [eauto]].
Qed.

(** ** Held watches *)

(** No transfer holds the watch. *)
Definition unheld (d : db) (i : string) : Prop := ∀ k r, db_handoffs d !! k = Some r → hr_watch r = i → h_Held (hr_body r) = false.

(** Steps that spare the watches held at the beginning. *)
Definition spares_held (d0 d : db) : Prop := spares (unheld d0) d0 d.
Lemma spares_held_step d0 d d' : spares_held d0 d → spares (unheld d0) d d' → spares_held d0 d'.
Proof. unfold spares_held. intros. by etrans. Qed.
Lemma spares_held_unheld d0 d i : spares_held d0 d → unheld d i → unheld d0 i.
Proof. intros (E & _) H k r. rewrite <- E. apply H. Qed.

(** Keys of stored transfers are identifiers. *)
Definition keyed (d : db) : Prop := ∀ k r, db_handoffs d !! k = Some r → k ≠ "".
Lemma HandoffHold_unheld i d a d' : keyed d → (HandoffHold i) d = Ok (a, d') → a = "" → unheld d i ∧ d' = d.
Proof.
  intros Hk H Ha. unfold HandoffHold in H. apply gets_inv in H as [H ->]. split; [|done]. rewrite Ha in H. intros k r Hr Hw.
  destruct (h_Held (hr_body r)) eqn:Eh; [|done]. exfalso.
  assert (Hin : (k, r) ∈ filter (holds i) (map_to_list (db_handoffs d))) by (apply list_elem_of_filter; split; [done|by apply elem_of_map_to_list]).
  destruct (filter (holds i) (map_to_list (db_handoffs d))) as [|[k' r'] l] eqn:E; [by apply not_elem_of_nil in Hin|]. cbn in H. subst k'.
  assert (Hin' : ("", r') ∈ filter (holds i) (map_to_list (db_handoffs d))) by (rewrite E; by left).
  apply list_elem_of_filter in Hin' as [_ Hin'%elem_of_map_to_list]. by apply Hk in Hin'.
Qed.
Lemma HandoffHold_row i d a d' : (HandoffHold i) d = Ok (a, d') → a ≠ "" → is_Some (db_handoffs d !! a).
Proof.
  intros H Ha. unfold HandoffHold in H. apply gets_inv in H as [H _]. destruct (filter (holds i) (map_to_list (db_handoffs d))) as [|[k r] l] eqn:E; [done|].
  cbn in H. subst a. assert (Hin : (k, r) ∈ filter (holds i) (map_to_list (db_handoffs d))) by (rewrite E; by left).
  apply list_elem_of_filter in Hin as [_ Hin%elem_of_map_to_list]. by exists r.
Qed.

(** The caller acts for no transfer, or for one that is not stored yet. *)
Definition newcomer (owner : option string) (d : db) : Prop := ∀ k, owner = Some k → db_handoffs d !! k = None.
Lemma checkHandoffHold_unheld i owner d a d' : keyed d → newcomer owner d → checkHandoffHold i owner d = Ok (a, d') → unheld d i ∧ d' = d.
Proof.
  intros Hk Hn H. unfold checkHandoffHold in H. apply tx_bind_inv in H as (held & d1 & Hh & H). apply reject_inv in H as [Hb ->].
  destruct (decide (held = "")) as [E|E]; [by eapply HandoffHold_unheld|]. rewrite (bool_decide_eq_false_2 _ E) in Hb. cbn in Hb.
  apply negb_false_iff, bool_decide_eq_true_1 in Hb. destruct (HandoffHold_row _ _ _ _ Hh E) as [r Hr]. by rewrite (Hn _ Hb) in Hr.
Qed.

(** ** What ordinary operations leave *)

(** Rows of transfers are neither added nor changed; a row disappears only with
    its purged watch, and a held watch keeps its status. *)
Definition respected (d d' : db) : Prop :=
  db_purged d ⊆ db_purged d' ∧ (∀ k r, db_handoffs d' !! k = Some r → db_handoffs d !! k = Some r) ∧
  ∀ k r, db_handoffs d !! k = Some r →
    db_handoffs d' !! k = Some r ∧ (h_Held (hr_body r) = true → status_of d' (hr_watch r) = status_of d (hr_watch r)) ∨
    h_Held (hr_body r) = false ∧ hr_watch r ∈ db_purged d'.
#[global] Instance respected_reflexive : Reflexive respected.
Proof. intros d. split_and!; [done|done|]. intros k r Hr. by left. Qed.
Lemma spares_respected d d' : spares_held d d' → respected d d'.
Proof.
  intros (E1 & E2 & H). split_and!; [by rewrite E2|by rewrite E1|]. intros k r Hr. left. rewrite E1. split; [done|]. intros Hh.
  destruct (H (hr_watch r)) as [Hu|]; [|done]. by rewrite (Hu _ _ Hr eq_refl) in Hh.
Qed.

Section Ordinary.
Context `{L : Libraries} (limits : Budgets) (jitter : duration) (storage : db → Z) (range : gmap string State → list (string * State)).
Context (instance : string) (approved : list string).

Lemma SaveReceipt_spares U id g i f l x : respects (spares U) (SaveReceipt id g i f l x).
Proof. unfold SaveReceipt. respects_tac. apply respects_modify. intros d. by apply spares_same. Qed.
Lemma ResetState_spares U id : respects (spares U) (ResetState id).
Proof. apply respects_modify. intros d. by apply spares_same. Qed.
Lemma SaveDestination_spares U c now : respects (spares U) (SaveDestination c now).
Proof. unfold SaveDestination. respects_tac; apply respects_modify; intros d; by apply spares_same. Qed.
Lemma SaveWatch_spares U r now lifetime : U (r_ID r) → respects (spares U) (SaveWatch r now lifetime).
Proof.
  intros HU d a d' (dm & w & _ & _ & _ & _ & Edm & _ & _ & _ & _ & _ & ->)%SaveWatch_row. rewrite Edm. split_and!; try done.
  intros i. destruct (decide (i = r_ID r)) as [->|]; [by left|]. right. unfold status_of. cbn. by rewrite lookup_insert_ne.
Qed.

Lemma change_status_spares U r status action lifetime now : U (r_ID r) → respects (spares U) (change_status limits range r status action lifetime now).
Proof.
  intros HU. unfold change_status. apply respects_bind; [exact _|by apply SaveWatch_spares|intros].
  apply respects_bind; [exact _|apply steps_DeleteTimers|intros]. apply respects_bind; [exact _|apply respects_unless; [exact _|apply resume_all_steps; exact _]|intros].
  apply respects_bind; [exact _|apply lifecycleEvent_steps; exact _|intros]. apply respects_ret. exact _.
Qed.

Lemma GetWatch_inv i d r d' : GetWatch i d = Ok (r, d') → watch_in i d = Some r ∧ d' = d.
Proof. unfold GetWatch. intros H. tx_inv. destruct (watch_in i d); [|done]. by tx_inv. Qed.

Lemma watch_in_status i d r : watch_in i d = Some r → status_of d i = Some (r_Status r).
Proof. unfold watch_in, status_of. intros H. apply bind_Some in H as (w & -> & H). by apply bind_Some in H as (v & _ & [= <-]). Qed.
Lemma SaveWatch_status r now lifetime d a d' : SaveWatch r now lifetime d = Ok (a, d') → status_of d' (r_ID r) = Some (r_Status r).
Proof.
  intros (dm & w & _ & _ & _ & _ & _ & _ & _ & _ & _ & [E _] & ->)%SaveWatch_row. unfold status_of. cbn. by rewrite lookup_insert_eq, <- E.
Qed.
Lemma spares_none_status d d' i : spares (fun _ => False) d d' → status_of d' i = status_of d i.
Proof. intros (_ & _ & H). by destruct (H i). Qed.
Lemma change_status_status r status action lifetime now d x d' :
  change_status limits range r status action lifetime now d = Ok (x, d') → status_of d' (r_ID r) = Some status.
Proof.
  unfold change_status. intros H. cbv zeta in H. apply tx_bind_inv in H as (? & d1 & Hs%SaveWatch_status & H). cbn in Hs. rewrite <- Hs. apply spares_none_status.
  revert H. match goal with |- ?t d1 = _ → _ => assert (Hr : respects (spares (fun _ => False)) t); [|by intros H%Hr] end.
  apply respects_bind; [exact _|apply steps_DeleteTimers|intros]. apply respects_bind; [exact _|apply respects_unless; [exact _|apply resume_all_steps; exact _]|intros].
  apply respects_bind; [exact _|apply lifecycleEvent_steps; exact _|intros]. apply respects_ret. exact _.
Qed.

Lemma PurgeWatch_respected i d a d' : keyed d → PurgeWatch i d = Ok (a, d') → respected d d'.
Proof.
  intros Hk H. unfold PurgeWatch in H. apply tx_bind_inv in H as (r & ? & [_ ->]%GetWatch_inv & H). apply tx_bind_inv in H as (? & ? & [_ ->]%reject_inv & H).
  apply tx_bind_inv in H as (hold & d1 & Hh & H). apply tx_bind_inv in H as (? & ? & [Hb ->]%reject_inv & H).
  apply negb_false_iff, bool_decide_eq_true_1 in Hb. destruct (HandoffHold_unheld _ _ _ _ Hk Hh Hb) as [Hu ->]. tx_inv.
  split_and!; cbn; [set_solver|by intros k r0 [? _]%map_lookup_filter_Some|]. intros k r0 Hr. destruct (decide (hr_watch r0 = i)) as [Hi|Hi].
  - right. split; [by apply (Hu k)|]. rewrite Hi. set_solver.
  - left. split; [by apply map_lookup_filter_Some|]. intros _. unfold status_of. cbn. by rewrite lookup_delete_ne.
Qed.

Lemma authorizeBundle_pure ctx b : respects eq (authorizeBundle approved ctx b).
Proof. unfold authorizeBundle, authorize_destination, authorize_watch, find_watch, find_destination. respects_tac. Qed.

(** A request that found no hold leaves the held watches, or purges the watch. *)
Lemma lifecycle_core_spares ctx owner id q closing lifetime now d r d' :
  typed d → keyed d → newcomer owner d → lifecycle_core limits range approved ctx owner id q closing lifetime now d = Ok (r, d') →
  unheld d id ∧ (lr_Action q = "purge" ∧ respected d d' ∨ spares_held d d' ∧ (lr_Action q = "pause" → status_of d' id = Some "paused")).
Proof.
  intros Ht Hk Hn H. unfold lifecycle_core in H. apply tx_bind_inv in H as (? & ? & [_ ->]%reject_inv & H).
  apply tx_bind_inv in H as (? & ? & [Hu ->]%checkHandoffHold_unheld & H); [|done..]. split; [done|]. apply tx_bind_inv in H as (r1 & ? & [Hw ->]%GetWatch_inv & H).
  apply tx_bind_inv in H as (? & ? & <-%authorizeBundle_pure & H).
  do 3 apply tx_bind_inv in H as (? & ? & [_ ->]%reject_inv & H). assert (Hid : r_ID r1 = id) by (by eapply watch_in_row).
  destruct (decide (lr_Action q = "purge")) as [Ep|Ep].
  - left. split; [done|]. rewrite (bool_decide_eq_true_2 _ Ep) in H. apply tx_bind_inv in H as (? & d2 & Hp & [_ ->]%ret_inv). by eapply PurgeWatch_respected.
  - right. rewrite (bool_decide_eq_false_2 _ Ep) in H. apply tx_bind_inv in H as (status & ? & [Hs ->]%lift_inv & H). apply tx_bind_inv in H as (? & ? & [_ ->]%reject_inv & H).
    apply tx_bind_inv in H as (? & d1 & Hc & H). apply (respects_unless (spares (fun _ => False)) _ _ (CancelPending_steps _ id now)) in Hc.
    assert (H01 : spares_held d d1) by (destruct Hc as (? & ? & C); split_and!; [done..|]; intros i; right; by destruct (C i)).
    assert (Hst : lr_Action q = "pause" → status = "paused") by (intros Ea; rewrite Ea in Hs; vm_compute in Hs; by injection Hs as <-).
    destruct (r_Status r1 ≟ status) eqn:E.
    + apply ret_inv in H as [_ ->]. split; [done|]. intros Hp. apply bool_decide_eq_true_1 in E. apply watch_in_status in Hw.
      rewrite E, (Hst Hp) in Hw. destruct Hc as (_ & _ & C). by destruct (C id) as [| ->].
    + split; [|intros Hp; rewrite <- Hid, <- (Hst Hp); by eapply change_status_status].
      eapply spares_held_step; [exact H01|]. eapply change_status_spares; [|exact H]. by rewrite Hid.
Qed.

Lemma lifecycle_respected ctx id q closing lifetime now d r d' :
  typed d → keyed d → lifecycle limits range approved ctx noMutation id q closing lifetime now d = Ok (r, d') → respected d d'.
Proof.
  intros Ht Hk H. unfold lifecycle in H. apply tx_bind_inv in H as (? & d1 & Hr & H).
  assert (d1 = d) as -> by (unfold Require_ in Hr; destruct ctx; [by apply reject_inv in Hr as [_ ->]|by apply ret_inv in Hr as [_ ->]]).
  apply tx_bind_inv in H as (? & ? & [-> ->]%ret_inv & H). apply tx_bind_inv in H as (r1 & d2 & Hc & H).
  apply tx_bind_inv in H as (? & ? & [_ ->]%ret_inv & [_ ->]%ret_inv).
  apply lifecycle_core_spares in Hc as [_ [[_ ?]|[? _]]]; [done|by apply spares_respected|done..].
Qed.

(** ** Clock discontinuities *)

(** The watch of a holding transfer is paused. *)
Definition paused_held (d : db) : Prop := ∀ k r, db_handoffs d !! k = Some r → h_Held (hr_body r) = true → status_of d (hr_watch r) = Some "paused".

Lemma shift_watch_spares U now lifetimes r : (r_Status r = "running" → U (r_ID r)) → respects (spares U) (shift_watch limits range now lifetimes r).
Proof.
  intros HU. unfold shift_watch, GetEntities. destruct (negb (r_Status r ≟ "running")) eqn:E; [apply respects_ret; exact _|].
  apply negb_false_iff, bool_decide_eq_true_1 in E. apply respects_bind; [exact _|by apply SaveWatch_spares, HU|intros].
  apply respects_bind; [exact _|apply steps_DeleteTimers|intros]. apply respects_bind; [exact _|apply respects_gets; exact _|intros].
  apply respects_bind; [exact _|apply respects_lift; exact _|intros].
  apply respects_bind; [exact _|apply respects_for_each; [exact _|intros; apply shift_entity_steps; exact _]|intros].
  apply respects_bind; [exact _|apply respects_unless; [exact _|apply armInitial_steps; exact _]|intros]. apply lifecycleEvent_steps. exact _.
Qed.
Lemma clockShift_spares lifetimes now d a d' : typed d → paused_held d → clockShift limits range lifetimes now d = Ok (a, d') → spares_held d d'.
Proof.
  intros Ht Hp H. unfold clockShift, GetWatches in H. apply tx_bind_inv in H as (l & ? & [-> ->]%gets_inv & H).
  assert (HU : triple (spares_held d) (for_each (shift_watch limits range now lifetimes) (omap (fun id => watch_in id d) (sort_strings (fst <$> map_to_list (db_watches d)))))
                 (fun _ => spares_held d)).
  { apply triple_for_each. intros r (i & _ & Hi)%list_elem_of_omap d1 x d2 H1 H2. eapply spares_held_step; [exact H1|]. eapply shift_watch_spares; [|exact H2].
    intros Hs. destruct (watch_in_row _ _ _ Ht Hi) as (-> & _). apply watch_in_status in Hi. intros k row Hk <-.
    destruct (h_Held (hr_body row)) eqn:E; [|done]. rewrite (Hp _ _ Hk E), Hs in Hi. done. }
  eapply HU; [|exact H]. unfold spares_held. reflexivity.
Qed.

(** ** Bundles *)

Lemma install_spares U lifetimes record existing reset state now :
  U (r_ID record) → respects (spares U) (install lifetimes record existing reset state now).
Proof.
  intros HU. unfold install. apply respects_bind; [exact _|by apply SaveWatch_spares|intros]. apply respects_bind; [exact _|apply respects_unless; [exact _|]|intros].
  { apply respects_bind; [exact _|apply ResetState_spares|intros]. apply lifecycleEvent_steps. exact _. }
  apply respects_bind; [exact _| |intros; apply lifecycleEvent_steps; exact _]. destruct (_ && _); [apply steps_RevisionState|apply armInitial_steps; exact _].
Qed.
Lemma spares_keyed d0 d : spares_held d0 d → keyed d0 → keyed d.
Proof. intros (E & _) Hk k r. rewrite E. apply Hk. Qed.

Lemma spares_newcomer d0 d owner : spares_held d0 d → newcomer owner d0 → newcomer owner d.
Proof. intros (E & _) Hn k Hk. rewrite E. by apply Hn. Qed.

Lemma apply_watch_spares d0 lifetimes q owner available now p n :
  keyed d0 → newcomer owner d0 → preserves (spares_held d0) (apply_watch limits lifetimes q owner available now p n).
Proof.
  intros Hk Hfree d res d' Hd H. unfold apply_watch in H.
  apply tx_bind_inv in H as (? & d1 & Hc & H).
  apply (respects_for_each (spares (unheld d0)) _ _ (fun t => check_target_steps _ available t)) in Hc.
  assert (Hd1 : spares_held d0 d1) by (by eapply spares_held_step). clear Hd Hc. apply tx_bind_inv in H as (? & d2 & Hc & H).
  assert (d2 = d1 ∧ (aq_DryRun q = false → unheld d0 (watch_id p))) as [-> Hu].
  { destruct (aq_DryRun q); cbn [unless] in Hc; [by apply ret_inv in Hc as [_ ->]|].
    apply checkHandoffHold_unheld in Hc as [Hu ->]; [|by eapply spares_keyed|by eapply spares_newcomer]. split; [done|]. intros _. by eapply spares_held_unheld. }
  apply tx_bind_inv in H as (old & ? & [_ ->]%gets_inv & H). cbv zeta in H. do 2 apply tx_bind_inv in H as (? & ? & [_ ->]%reject_inv & H).
  apply tx_bind_inv in H as ([[[record reset] state] n'] & d3 & Hp & H). destruct (planned_spec _ _ _ _ _ _ _ _ _ _ _ _ Hp) as (-> & E & _).
  apply tx_bind_inv in H as (? & d4 & Hi & [_ ->]%ret_inv). destruct (aq_DryRun q) eqn:Eq; [by apply ret_inv in Hi as [_ ->]|]. cbn [orb] in Hi.
  eapply spares_held_step; [exact Hd1|]. revert Hi. apply respects_unless; [exact _|]. apply install_spares. unfold r_ID, r_Definition. rewrite E. by apply Hu.
Qed.
Lemma apply_watches_spares d0 lifetimes q owner available now l n :
  keyed d0 → newcomer owner d0 → preserves (spares_held d0) (apply_watches limits lifetimes q owner available now l n).
Proof.
  intros Hk Hfree. revert n. induction l as [|p l IH]; intros n; cbn [apply_watches]; [by apply triple_ret|].
  eapply triple_bind; [by apply apply_watch_spares|]. intros [change n']. eapply triple_bind; [by apply IH|]. intros ?. by apply triple_ret.
Qed.
Lemma apply_destinations_spares U dry now l : respects (spares U) (apply_destinations dry now l).
Proof.
  pose proof (SaveDestination_spares U). induction l; cbn [apply_destinations]; [apply respects_ret; exact _|]. unfold apply_destination. respects_tac.
Qed.
Lemma apply_core_spares d0 lifetimes oversized owner q b closing now :
  keyed d0 → newcomer owner d0 →
  preserves (spares_held d0) (apply_core limits storage instance lifetimes oversized owner q b closing now).
Proof.
  intros Hk Hfree. assert (Hs : ∀ A (t : tx A), respects (spares (unheld d0)) t → preserves (spares_held d0) t) by (intros A t H d a d' Hd E; eapply spares_held_step; eauto).
  unfold apply_core, live_watches, captureReview. do 4 (eapply triple_bind; [apply Hs; respects_tac|]; intros ?).
  eapply triple_bind; [apply Hs; unfold check_destinations; respects_tac|]. intros ?.
  eapply triple_bind; [apply Hs, apply_destinations_spares|]. intros ?. eapply triple_bind; [by apply apply_watches_spares|]. intros ?. apply Hs. respects_tac.
Qed.
End Ordinary.

(** ** Retention *)

(** Paused watches stay. *)
Definition ages (d d' : db) : Prop :=
  db_handoffs d' = db_handoffs d ∧ db_purged d' = db_purged d ∧ ∀ i, status_of d i = Some "paused" → status_of d' i = Some "paused".
#[global] Instance ages_preorder : PreOrder ages.
Proof. split; [by intros d|]. intros a b c (A1 & A2 & A3) (B1 & B2 & B3). split_and!; [congruence..|auto]. Qed.
Lemma ages_same d d' : db_handoffs d' = db_handoffs d → db_purged d' = db_purged d → db_watches d' = db_watches d → ages d d'.
Proof. intros E1 E2 E3. split_and!; try done. intros i. unfold status_of. by rewrite E3. Qed.
Lemma watches_ages l : respects ages (rf_delete watches_family l).
Proof.
  intros d a d' H. cbn in H. unfold delete_watches in H. tx_inv. split_and!; try done. intros i Hs. unfold status_of in *. cbn.
  destruct (db_watches d !! i) as [w|] eqn:E; [|done]. rewrite (map_lookup_filter_Some_2 _ _ _ w); [done|done|]. cbn. intros Hin.
  apply elem_of_list_to_set, list_elem_of_filter in Hin as [Hr _]. unfold removable_watch in Hr. rewrite E in Hr.
  repeat (apply andb_true_iff in Hr as [Hr _]). apply bool_decide_eq_true_1 in Hr. cbn in Hs. by rewrite Hr in Hs.
Qed.
#[global] Instance ages_retention : RetentionSteps ages.
Proof.
  split; intros; first [exact _|by apply ages_same|apply RetainPushes_steps|apply RetainBackoff_steps|apply RetainOutbox_steps|apply RetainStreams_steps|idtac];
    try exact _; try (intros; by apply ages_same).
  - unfold RetainReceipts. respects_tac. apply respects_modify. intros d. by apply ages_same.
  - unfold retentionFamilies in *. match goal with H : f ∈ _ |- _ => rename H into Hf end.
    repeat (apply elem_of_cons in Hf as [->|Hf]); [| | | | |by apply not_elem_of_nil in Hf]; try apply watches_ages; apply respects_modify; intros d; by apply ages_same.
  - apply respects_modify. intros d. by apply ages_same.
Qed.
Lemma ages_respected d d' : paused_held d → ages d d' → respected d d'.
Proof.
  intros Hp (E1 & E2 & H). split_and!; [by rewrite E2|by rewrite E1|]. intros k r Hr. left. rewrite E1. split; [done|]. intros Hh.
  pose proof (Hp _ _ Hr Hh) as Hs. rewrite Hs. by apply H.
Qed.

(** ** Every ordinary operation *)

Section Perform.
Context `{L : Libraries} (limits : Budgets) (jitter : duration) (storage : db → Z) (range : gmap string State → list (string * State)).
Context (instance : string) (approved : list string).

#[global] Instance spares_inputs U : InputSteps (spares U).
Proof. split; [exact _|apply SaveReceipt_spares]. Qed.

(** The operations that are no step of a transfer. *)
Definition ordinary (o : runtime_op) : Prop :=
  match o with
  | prepare_handoff _ _ _ _ _ _ _ _ | pause_handoff _ _ _ _ _ _ _ _ | activate_handoff _ _ _ _ _ _ _ _ _ _ | cancel_handoff _ _ _ _ _
  | release_handoff _ _ _ _ | start_probe _ _ _ _ _ _ | end_probe _ _ _ _ _ _ => False
  | _ => True
  end.

Lemma update_cases {A : Type} (t : tx A) d : fst (Update t d) = d ∨ ∃ a, t d = Ok (a, fst (Update t d)).
Proof. unfold Update. destruct (t d) as [[a d']|]; [right; eauto|by left]. Qed.

Lemma ordinary_respected o d :
  typed d → keyed d → paused_held d → ordinary o → respected d (perform limits jitter storage range instance approved o d).
Proof.
  intros Ht Hk Hp Ho. assert (Hin : ∀ d', spares (unheld d) d d' → respected d d') by (intros; by apply spares_respected).
  destruct o as [ctx q b closing lts now|record b input' push closing now later|ctx i q closing lt now|lts now|closing now|now|now pass|i cutoff pass|now lease token|i r next now|i now|ctx granted q b closing lts now later|ctx granted q closing lt now checked later|ctx granted i source closing lt next saved armed at_|ctx granted i lt now|ctx granted i target|ctx granted i key digest now|ctx granted i key digest outcome]; try done; cbn [perform].
  - destruct (apply_effect limits storage instance approved lts noMutation q b ctx closing now d) as [->| ->]; [reflexivity|].
    destruct (update_cases (apply_tx limits storage instance approved lts (fun _ => false) ctx noMutation q b closing now) d) as [->|(a & H)]; [reflexivity|].
    revert H. generalize (fst (Update (apply_tx limits storage instance approved lts (fun _ => false) ctx noMutation q b closing now) d)). intros d' H.
    unfold apply_tx in H. apply tx_bind_inv in H as (? & ? & <-%authorizeBundle_pure & H). apply tx_bind_inv in H as (? & ? & [-> ->]%ret_inv & H).
    apply tx_bind_inv in H as (res & d2 & Hc & H). apply tx_bind_inv in H as (? & ? & [_ ->]%ret_inv & [_ ->]%ret_inv). apply Hin.
    eapply (apply_core_spares _ _ _ d _ _ None); [done|by intros k| |exact Hc]. unfold spares_held. reflexivity.
  - apply Hin, (acceptPush_steps (spares (unheld d))).
  - destruct (update_cases (lifecycle limits range approved ctx noMutation i q closing lt now) d) as [->|(a & H)]; [reflexivity|]. by eapply lifecycle_respected.
  - destruct (update_cases (clockShift limits range lts now) d) as [->|(a & H)]; [reflexivity|]. apply Hin. by eapply clockShift_spares.
  - apply Hin. unfold RunTimers. destruct (View _ d); [apply (run_timers_steps (spares (unheld d)))|reflexivity].
  - apply Hin, (respects_update (spares (unheld d))), maintain_page_steps. exact _.
  - apply ages_respected, (respects_update ages), RetainBatch_steps; [done|exact _].
  - apply ages_respected, (respects_update ages), RetainLogSummariesBatch_steps; [done|exact _].
  - apply Hin. destruct (Claim _ _ _ _) as [[t x]|]; [by apply spares_same|reflexivity].
  - apply Hin. destruct (Finish _ _ _ _ _) as [t|]; [by apply spares_same|reflexivity].
  - apply Hin. destruct (Outbox.Retry _ _ _) as [t|]; [by apply spares_same|reflexivity].
Qed.
End Perform.
