(* ===== verification/HandoffFence.v ===== *)
(** * The fence of a transfer

    The rows of the transfers of one instance, whatever it does: identifiers,
    roles and phases fit together, a watch has at most one holding transfer and
    is paused while it has one, and a source was only returned to a reverse
    transfer that is prepared or active.  Phases move forward: a canceled, active
    or released transfer stays so. *)
From S2P Require Import Prelude GoText Watch Plan Evaluator Records Access Acceptance Lifecycle Apply Handoff Runtime.
From S2P Require Import TxLogic RuntimeSteps EvidenceLifecycle Integrity AcceptOnce HandoffFacts EvidenceFacts RecordJson.

(** ** Rows *)

Abbreviation clean s := (sanitize s = s).

Definition phases : list (string * string * bool) :=
  [("target", "prepared", true); ("target", "active", false); ("target", "canceled", false);
   ("source", "paused", true); ("source", "released", false); ("source", "returned", false)].
Definition phase_ok (h : Handoff) : Prop := (h_Role h, h_Phase h, h_Held h) ∈ phases.

(** A row of the instance [me] under the key [k]. *)
Record row_ok (me k : string) (r : handoff_row) : Prop := {
  ro_key : handoffID k = true;
  ro_id : h_ID (hr_body r) = k;
  ro_watch : hr_watch r = h_WatchID (hr_body r);
  ro_instance : h_Instance (hr_body r) = me;
  ro_text : clean (h_WatchID (hr_body r)) ∧ clean (h_Peer (hr_body r)) ∧ clean (h_ReturnOf (hr_body r));
  ro_phase : phase_ok (hr_body r) }.

Lemma handoffID_clean k : handoffID k = true → clean k ∧ k ≠ "".
Proof.
  unfold handoffID. intros [Hl Hc]%andb_true_iff. split; [|by intros ->]. apply text_ok_sanitize, ascii_ok. unfold ascii_text. clear Hl.
  induction k as [|c k IH]; [done|]. cbn in *. apply andb_true_iff in Hc as [Hc Hk]. rewrite (IH Hk), andb_true_r. unfold hex_char in Hc.
  apply orb_true_iff in Hc as [[]%andb_true_iff|[]%andb_true_iff]; lia.
Qed.
Lemma phase_clean h : phase_ok h → clean (h_Role h) ∧ clean (h_Phase h).
Proof. unfold phase_ok, phases. intros H. repeat (apply elem_of_cons in H as [[= -> -> _]|H]; [by split|]). by apply not_elem_of_nil in H. Qed.

Lemma copy_handoff_inv h b :
  copy_handoff h = Some b → h_ReturnOf b = sanitize (h_ReturnOf h) ∧ h_Instance b = sanitize (h_Instance h) ∧ h_ID b = sanitize (h_ID h) ∧
    h_WatchID b = sanitize (h_WatchID h) ∧ h_Role b = sanitize (h_Role h) ∧ h_Phase b = sanitize (h_Phase h) ∧ h_Peer b = sanitize (h_Peer h) ∧
    h_Held b = h_Held h.
Proof. unfold copy_handoff. intros H. apply bind_Some in H as (p & _ & H). by apply bind_Some in H as (a & _ & [= <-]). Qed.

(** The watch column a save leaves. *)
Definition row_watch (h : Handoff) (d : db) : string := match db_handoffs d !! h_ID h with Some row => hr_watch row | None => h_WatchID h end.

Lemma SaveHandoff_inv h d a d' :
  SaveHandoff h d = Ok (a, d') → handoffID (h_ID h) = true ∧ ∃ body, copy_handoff h = Some body ∧
    (h_Held h = true → ∀ k r, db_handoffs d !! k = Some r → k ≠ h_ID h → hr_watch r = row_watch h d → h_Held (hr_body r) = false) ∧
    d' = d <| db_handoffs := <[h_ID h := {| hr_watch := row_watch h d; hr_body := body |}]> (db_handoffs d) |>.
Proof.
  unfold SaveHandoff. intros H. apply tx_bind_inv in H as (? & ? & [Hv ->]%reject_inv & H). tx_inv. fold (row_watch h d) in *.
  repeat (apply orb_false_iff in Hv as [Hv _]). apply negb_false_iff in Hv. split; [done|].
  eexists. split; [done|]. split; [|done]. intros Hh k r Hr Hk Hw.
  match goal with H : _ || h_Held h && _ = false |- _ => apply orb_false_iff in H as [_ Hb]; rewrite Hh in Hb; cbn in Hb end.
  unfold held_by_other in Hb. pose proof (existsb_none _ _ Hb (k, r) (proj2 (elem_of_map_to_list _ _ _) Hr)) as He. cbn in He.
  rewrite (bool_decide_eq_false_2 _ Hk), (bool_decide_eq_true_2 _ Hw) in He. done.
Qed.

(** A rewritten row is of the same transfer. *)
Definition same_transfer (h h' : Handoff) : Prop :=
  h_ReturnOf h' = h_ReturnOf h ∧ h_Instance h' = h_Instance h ∧ h_ID h' = h_ID h ∧ h_WatchID h' = h_WatchID h ∧ h_Role h' = h_Role h ∧ h_Peer h' = h_Peer h.

Lemma overwrite_row me k r rm h' d a d' :
  clean me → db_handoffs d !! k = Some rm → hr_watch rm = hr_watch r → row_ok me k r → same_transfer (hr_body r) h' → phase_ok h' → SaveHandoff h' d = Ok (a, d') →
  ∃ r', d' = d <| db_handoffs := <[k := r']> (db_handoffs d) |> ∧ row_ok me k r' ∧ hr_watch r' = hr_watch r ∧ same_transfer (hr_body r) (hr_body r') ∧
    h_Phase (hr_body r') = h_Phase h' ∧ h_Held (hr_body r') = h_Held h' ∧
    (h_Held h' = true → ∀ k' x, db_handoffs d !! k' = Some x → k' ≠ k → hr_watch x = hr_watch r → h_Held (hr_body x) = false).
Proof.
  intros Hme Hr Hrm [K1 K2 K3 K4 (K5 & K6 & K7) K8] (S1 & S2 & S3 & S4 & S5 & S6) Hp (_ & b & Hb & Hone & ->)%SaveHandoff_inv.
  destruct (copy_handoff_inv _ _ Hb) as (B1 & B2 & B3 & B4 & B5 & B6 & B7 & B8). destruct (phase_clean _ Hp) as [C1 C2].
  destruct (handoffID_clean _ K1) as [C3 _]. assert (E : row_watch h' d = hr_watch r) by (unfold row_watch; by rewrite S3, K2, Hr). rewrite E in *.
  rewrite S1, K7 in B1. rewrite S2, K4, Hme in B2. rewrite S3, K2, C3 in B3. rewrite S4, K5 in B4. rewrite C1, S5 in B5. rewrite C2 in B6. rewrite S6, K6 in B7.
  rewrite S3, K2. eexists. split; [done|]. rewrite S3, K2 in Hone. split_and!; cbn; try done.
  - split; cbn; try done; [by rewrite B4|by rewrite B4, B7, B1|]. unfold phase_ok in *. by rewrite B5, B6, B8, <- S5.
  - unfold same_transfer. by rewrite B1, B2, B3, B4, B5, B7, K2, K4.
Qed.

Lemma rewrite_row me k r h' d a d' :
  clean me → db_handoffs d !! k = Some r → row_ok me k r → same_transfer (hr_body r) h' → phase_ok h' → SaveHandoff h' d = Ok (a, d') →
  ∃ r', d' = d <| db_handoffs := <[k := r']> (db_handoffs d) |> ∧ row_ok me k r' ∧ hr_watch r' = hr_watch r ∧ same_transfer (hr_body r) (hr_body r') ∧
    h_Phase (hr_body r') = h_Phase h' ∧ h_Held (hr_body r') = h_Held h' ∧
    (h_Held h' = true → ∀ k' x, db_handoffs d !! k' = Some x → k' ≠ k → hr_watch x = hr_watch r → h_Held (hr_body x) = false).
Proof. intros Hme Hr. by apply overwrite_row with r. Qed.

(** A new row. *)
Lemma new_row me h d a d' :
  clean me → db_handoffs d !! h_ID h = None → h_Instance h = me → clean (h_WatchID h) → clean (h_Peer h) → clean (h_ReturnOf h) → phase_ok h →
  SaveHandoff h d = Ok (a, d') →
  ∃ r', d' = d <| db_handoffs := <[h_ID h := r']> (db_handoffs d) |> ∧ row_ok me (h_ID h) r' ∧ hr_watch r' = h_WatchID h ∧ same_transfer h (hr_body r') ∧
    h_Phase (hr_body r') = h_Phase h ∧ h_Held (hr_body r') = h_Held h ∧
    (h_Held h = true → ∀ k' x, db_handoffs d !! k' = Some x → hr_watch x = h_WatchID h → h_Held (hr_body x) = false).
Proof.
  intros Hme Hr Hi K5 K6 K7 Hp (K1 & b & Hb & Hone & ->)%SaveHandoff_inv.
  destruct (copy_handoff_inv _ _ Hb) as (B1 & B2 & B3 & B4 & B5 & B6 & B7 & B8). destruct (phase_clean _ Hp) as [C1 C2].
  destruct (handoffID_clean _ K1) as [C3 _]. assert (E : row_watch h d = h_WatchID h) by (unfold row_watch; by rewrite Hr). rewrite E in *.
  rewrite K7 in B1. rewrite Hi, Hme in B2. rewrite C3 in B3. rewrite K5 in B4. rewrite C1 in B5. rewrite C2 in B6. rewrite K6 in B7.
  eexists. split; [done|]. split_and!; cbn; try done.
  - split; cbn; try done; [by rewrite B4, B7, B1|]. unfold phase_ok in *. by rewrite B5, B6, B8.
  - unfold same_transfer. by rewrite B1, B2, B3, B4, B5, B7, Hi.
  - intros Hh k' x Hx Hw. apply (Hone Hh k' x Hx); [|done]. intros ->. by rewrite Hr in Hx.
Qed.

(** ** The invariant of one instance *)

(** [x] is a reverse transfer of [r], whose key is [k]. *)
Definition reverses (k : string) (r x : handoff_row) : Prop :=
  h_Role (hr_body x) = "target" ∧ h_ReturnOf (hr_body x) = k ∧ hr_watch x = hr_watch r ∧ h_Peer (hr_body x) = h_Peer (hr_body r) ∧
  (h_Phase (hr_body x) = "prepared" ∨ h_Phase (hr_body x) = "active").

Record fenced (me : string) (d : db) : Prop := {
  fn_typed : typed d;
  fn_rows k r : db_handoffs d !! k = Some r → row_ok me k r;
  fn_one k k' r r' : db_handoffs d !! k = Some r → db_handoffs d !! k' = Some r' → hr_watch r = hr_watch r' →
    h_Held (hr_body r) = true → h_Held (hr_body r') = true → k = k';
  fn_held : paused_held d;
  fn_return k r : db_handoffs d !! k = Some r → h_Phase (hr_body r) = "returned" → ∃ k' x, db_handoffs d !! k' = Some x ∧ reverses k r x;
  fn_origin k r : db_handoffs d !! k = Some r → h_ReturnOf (hr_body r) ≠ "" →
    ∃ q, db_handoffs d !! h_ReturnOf (hr_body r) = Some q ∧ hr_watch q = hr_watch r }.

Lemma fenced_keyed me d : fenced me d → keyed d.
Proof. intros Hf k r Hr. by apply (handoffID_clean k), (ro_key _ _ _ (fn_rows _ _ Hf _ _ Hr)). Qed.

(** ** What time does to a transfer *)

Definition final (phase : string) : Prop := phase = "active" ∨ phase = "canceled" ∨ phase = "released".
(** A later body of the same transfer. *)
Definition follows (r r' : handoff_row) : Prop :=
  hr_watch r' = hr_watch r ∧ h_Role (hr_body r') = h_Role (hr_body r) ∧ h_Peer (hr_body r') = h_Peer (hr_body r) ∧
  (final (h_Phase (hr_body r)) → h_Phase (hr_body r') = h_Phase (hr_body r)).
#[global] Instance follows_preorder : PreOrder follows.
Proof.
  split; [by intros r|]. intros a b c (A1 & A2 & A3 & A4) (B1 & B2 & B3 & B4). split_and!; [congruence..|]. intros H. pose proof (A4 H) as E. rewrite <- E. apply B4. by rewrite E.
Qed.
(** Later tables: transfers moved on, or went with their purged watch. *)
Definition advances (d d' : db) : Prop :=
  db_purged d ⊆ db_purged d' ∧
  ∀ k r, db_handoffs d !! k = Some r → hr_watch r ∈ db_purged d' ∨ ∃ r', db_handoffs d' !! k = Some r' ∧ follows r r'.
#[global] Instance advances_preorder : PreOrder advances.
Proof.
  split.
  - intros d. split; [done|]. intros k r Hr. right. exists r. by split.
  - intros a b c [A1 A2] [B1 B2]. split; [set_solver|]. intros k r [Hp|(r' & Hr' & Hf)]%A2; [left; set_solver|].
    destruct (B2 _ _ Hr') as [Hp|(x & Hx & Hg)]; [left; by destruct Hf as (<- & _)|]. right. exists x. split; [done|]. by etrans.
Qed.

(** A receipt another instance showed, for the row [r] of [me]. *)
Definition confirms (me k : string) (r : handoff_row) (s : Handoff) : Prop :=
  h_ID s = k ∧ h_Peer s = me ∧ h_Instance s = h_Peer (hr_body r) ∧ h_WatchID s = hr_watch r ∧
  (h_Phase (hr_body r) = "active" → h_Role s = "source") ∧ (h_Phase (hr_body r) = "released" → h_Role s = "target" ∧ h_Phase s = "canceled").
(** One step: a transfer becomes active or released only with a receipt. *)
Definition evolves (me : string) (receipt : option Handoff) (d d' : db) : Prop :=
  fenced me d' ∧ advances d d' ∧
  ∀ k r, db_handoffs d' !! k = Some r → h_Phase (hr_body r) = "active" ∨ h_Phase (hr_body r) = "released" →
    (∃ r0, db_handoffs d !! k = Some r0 ∧ follows r0 r ∧ h_Phase (hr_body r0) = h_Phase (hr_body r)) ∨ ∃ s, receipt = Some s ∧ confirms me k r s.

(** Ordinary operations. *)
Lemma respected_evolves me d d' : fenced me d → typed d' → respected d d' → evolves me None d d'.
Proof.
  intros Hf Ht (R1 & R2 & R3). assert (Hkeep : ∀ k r, db_handoffs d' !! k = Some r → hr_watch r ∉ db_purged d').
  { intros k r Hr Hin. destruct (ty_handoffs _ Ht _ _ Hr) as [w Hw]. by destruct (ty_watches _ Ht _ _ Hw) as (_ & _ & _ & []). }
  split; [split|split; [split|]]; try done.
  - intros k r Hr. by apply (fn_rows _ _ Hf), R2.
  - intros k k' r r' Hr Hr'. by apply (fn_one _ _ Hf); apply R2.
  - intros k r Hr Hh. pose proof (R2 _ _ Hr) as Hr0. destruct (R3 _ _ Hr0) as [[_ ->]|[E _]]; [by eapply (fn_held _ _ Hf)|done|by rewrite E in Hh].
  - intros k r Hr Hp. pose proof (R2 _ _ Hr) as Hr0. destruct (fn_return _ _ Hf _ _ Hr0 Hp) as (k' & x & Hx & Hrev). exists k', x. split; [|done].
    destruct (R3 _ _ Hx) as [[? _]|[_ Hin]]; [done|]. destruct Hrev as (_ & _ & E & _). rewrite E in Hin. by apply Hkeep in Hr.
  - intros k r Hr Ho. pose proof (R2 _ _ Hr) as Hr0. destruct (fn_origin _ _ Hf _ _ Hr0 Ho) as (q & Hq & E). exists q. split; [|done].
    destruct (R3 _ _ Hq) as [[? _]|[_ Hin]]; [done|]. rewrite E in Hin. by apply Hkeep in Hr.
  - intros k r Hr. destruct (R3 _ _ Hr) as [[Hr' _]|[_ Hin]]; [|by left]. right. by exists r.
  - intros k r Hr _. left. exists r. split; [by apply R2|by split].
Qed.

(** ** Steps of a transfer *)

Abbreviation phase_of r := (h_Phase (hr_body r)).
Abbreviation held_of r := (h_Held (hr_body r)).

Lemma same_follows k r r' me :
  row_ok me k r → row_ok me k r' → same_transfer (hr_body r) (hr_body r') → (final (phase_of r) → phase_of r' = phase_of r) → follows r r'.
Proof. intros K K' (_ & _ & _ & S4 & S5 & S6) Hf. split_and!; try done. by rewrite (ro_watch _ _ _ K), (ro_watch _ _ _ K'). Qed.

(** A row is rewritten, and its watch changed while the row held it. *)
Lemma rewritten_evolves me receipt d d1 d' k r r' :
  fenced me d → typed d' → db_handoffs d !! k = Some r → spares (fun i => i = hr_watch r) d d1 →
  d' = d1 <| db_handoffs := <[k := r']> (db_handoffs d1) |> → row_ok me k r' → same_transfer (hr_body r) (hr_body r') →
  (held_of r' = true → held_of r = true ∧ status_of d1 (hr_watch r) = Some "paused") →
  (status_of d1 (hr_watch r) = status_of d (hr_watch r) ∨ held_of r = true) → (final (phase_of r) → phase_of r' = phase_of r) →
  phase_of r' ≠ "returned" → (h_ReturnOf (hr_body r) ≠ "" → phase_of r = "prepared" ∨ phase_of r = "active" → phase_of r' = "prepared" ∨ phase_of r' = "active") →
  (phase_of r' = "active" ∨ phase_of r' = "released" → phase_of r = phase_of r' ∨ ∃ s, receipt = Some s ∧ confirms me k r' s) →
  evolves me receipt d d'.
Proof.
  intros Hf Ht Hr (E1 & E2 & E3) Ed K Hs Hheld Hst Hfin Hret Hwit Hborn. pose proof (fn_rows _ _ Hf _ _ Hr) as K0.
  assert (Hfol : follows r r') by (by eapply same_follows). pose proof (proj1 Hfol) as Hw.
  assert (Hst' : ∀ x, status_of d' x = status_of d1 x) by (by subst d'). assert (H' : db_handoffs d' = <[k := r']> (db_handoffs d)) by (subst d'; cbn; by rewrite E1).
  assert (Hp' : db_purged d' = db_purged d) by (by subst d'). clear Ed. split; [split|split; [split|]].
  - done.
  - intros i x. rewrite H'. intros [[<- <-]|[_ Hx]]%lookup_insert_Some; [done|by apply (fn_rows _ _ Hf)].
  - assert (Hback : ∀ i x, db_handoffs d' !! i = Some x → held_of x = true → ∃ y, db_handoffs d !! i = Some y ∧ hr_watch y = hr_watch x ∧ held_of y = true).
    { intros i x. rewrite H'. intros [[<- <-]|[_ Hx]]%lookup_insert_Some Hh; [exists r; naive_solver|eauto]. }
    intros i j x y Hx Hy E Hhx Hhy. destruct (Hback _ _ Hx Hhx) as (x0 & Hx0 & Ex & Hx1), (Hback _ _ Hy Hhy) as (y0 & Hy0 & Ey & Hy1).
    eapply (fn_one _ _ Hf); [exact Hx0|exact Hy0|congruence|done|done].
  - intros i x. rewrite H', Hst'. intros [[<- <-]|[Hi Hx]]%lookup_insert_Some Hh; [rewrite Hw; by apply Hheld|].
    pose proof (fn_held _ _ Hf _ _ Hx Hh) as Hpx. destruct (E3 (hr_watch x)) as [Ex| ->]; [|done]. destruct Hst as [Hst|Hst]; [by rewrite Ex, Hst, <- Ex|].
    destruct Hi. eapply (fn_one _ _ Hf); [exact Hr|exact Hx|by rewrite Ex|done|done].
  - intros i x. rewrite H'. intros [[<- <-]|[Hi Hx]]%lookup_insert_Some Hp; [done|]. destruct (fn_return _ _ Hf _ _ Hx Hp) as (j & y & Hy & V1 & V2 & V3 & V4 & V5).
    destruct (decide (j = k)) as [->|Hj]; [|exists j, y; split; [by rewrite lookup_insert_ne by done|by split_and!]].
    rewrite Hr in Hy. injection Hy as <-. exists k, r'. rewrite lookup_insert_eq. split; [done|]. destruct Hs as (S1 & _ & _ & _ & S5 & S6).
    split_and!; [by rewrite S5|by rewrite S1|by rewrite Hw|by rewrite S6|]. apply Hwit; [|done]. rewrite V2.
    by apply (handoffID_clean i), (ro_key _ _ _ (fn_rows _ _ Hf _ _ Hx)).
  - intros i x. rewrite H'. intros Hx Ho.
    assert (∃ x0, db_handoffs d !! i = Some x0 ∧ h_ReturnOf (hr_body x) = h_ReturnOf (hr_body x0) ∧ hr_watch x = hr_watch x0) as (x0 & Hx0 & E0 & Ew).
    { apply lookup_insert_Some in Hx as [[<- <-]|[Hi Hx]]; [exists r; split_and!; [done|apply Hs|done]|by exists x]. }
    rewrite E0 in *. destruct (fn_origin _ _ Hf _ _ Hx0 Ho) as (q & Hq & E). rewrite Ew. destruct (decide (h_ReturnOf (hr_body x0) = k)) as [Ek|Hk].
    + rewrite Ek in *. exists r'. rewrite lookup_insert_eq. rewrite Hr in Hq. injection Hq as <-. split; [done|congruence].
    + exists q. by rewrite lookup_insert_ne.
  - by rewrite Hp'.
  - intros i x Hx. right. rewrite H'. destruct (decide (i = k)) as [->|Hi].
    + rewrite Hr in Hx. injection Hx as <-. exists r'. by rewrite lookup_insert_eq.
    + exists x. by rewrite lookup_insert_ne.
  - intros i x. rewrite H'. intros [[<- <-]|[_ Hx]]%lookup_insert_Some Hp; [|left; by exists x]. destruct (Hborn Hp) as [E|?]; [|by right]. left. by exists r.
Qed.

(** A new row holds a watch that nothing held. *)
Lemma added_evolves me d d1 d' k r' :
  fenced me d → typed d' → db_handoffs d !! k = None → spares_held d d1 → d' = d1 <| db_handoffs := <[k := r']> (db_handoffs d1) |> → row_ok me k r' →
  unheld d (hr_watch r') → (held_of r' = true → status_of d1 (hr_watch r') = Some "paused") →
  phase_of r' = "prepared" ∨ phase_of r' = "paused" → h_ReturnOf (hr_body r') = "" → evolves me None d d'.
Proof.
  intros Hf Ht Hr (E1 & E2 & E3) Ed K Hu Hst Hph Hro. assert (Hst' : ∀ x, status_of d' x = status_of d1 x) by (by subst d').
  assert (H' : db_handoffs d' = <[k := r']> (db_handoffs d)) by (subst d'; cbn; by rewrite E1). assert (Hp' : db_purged d' = db_purged d) by (by subst d').
  assert (Hne : ∀ i x, db_handoffs d !! i = Some x → i ≠ k) by (intros i x Hx ->; by rewrite Hr in Hx). clear Ed. split; [split|split; [split|]].
  - done.
  - intros i x. rewrite H'. intros [[<- <-]|[_ Hx]]%lookup_insert_Some; [done|by apply (fn_rows _ _ Hf)].
  - intros i j x y. rewrite H'. intros Hx Hy E Hhx Hhy. apply lookup_insert_Some in Hx as [[<- <-]|[Hi Hx]], Hy as [[<- <-]|[Hj Hy]]; try done.
    + by rewrite (Hu _ _ Hy (eq_sym E)) in Hhy.
    + by rewrite (Hu _ _ Hx E) in Hhx.
    + by eapply (fn_one _ _ Hf).
  - intros i x. rewrite H', Hst'. intros [[<- <-]|[Hi Hx]]%lookup_insert_Some Hh; [by apply Hst|]. destruct (E3 (hr_watch x)) as [Hux| ->]; [|by apply (fn_held _ _ Hf _ _ Hx)].
    by rewrite (Hux _ _ Hx eq_refl) in Hh.
  - intros i x. rewrite H'. intros [[<- <-]|[Hi Hx]]%lookup_insert_Some Hp; [rewrite Hp in Hph; by destruct Hph|].
    destruct (fn_return _ _ Hf _ _ Hx Hp) as (j & y & Hy & V). exists j, y. split; [|done]. rewrite lookup_insert_ne; [done|]. by apply not_eq_sym, (Hne _ _ Hy).
  - intros i x. rewrite H'. intros Hx Ho. apply lookup_insert_Some in Hx as [[<- <-]|[Hi Hx]]; [done|]. destruct (fn_origin _ _ Hf _ _ Hx Ho) as (q & Hq & E).
    exists q. rewrite lookup_insert_ne; [done|]. by apply not_eq_sym, (Hne _ _ Hq).
  - by rewrite Hp'.
  - intros i x Hx. right. exists x. rewrite H', lookup_insert_ne; [by split|]. by apply not_eq_sym, (Hne _ _ Hx).
  - intros i x. rewrite H'. intros [[<- <-]|[_ Hx]]%lookup_insert_Some Hp; [|left; by exists x]. exfalso. destruct Hph as [E|E]; rewrite E in Hp; by destruct Hp.
Qed.

(** Rows that replace rows of the same transfer. *)
Definition renewed (d d' : db) : Prop :=
  (∀ k r', db_handoffs d' !! k = Some r' → ∃ r, db_handoffs d !! k = Some r ∧ follows r r' ∧ h_ReturnOf (hr_body r') = h_ReturnOf (hr_body r)) ∧
  ∀ k r, db_handoffs d !! k = Some r → ∃ r', db_handoffs d' !! k = Some r' ∧ follows r r' ∧ h_ReturnOf (hr_body r') = h_ReturnOf (hr_body r).
Lemma renewed_origin me d d' k r :
  fenced me d → renewed d d' → db_handoffs d' !! k = Some r → h_ReturnOf (hr_body r) ≠ "" →
  ∃ q, db_handoffs d' !! h_ReturnOf (hr_body r) = Some q ∧ hr_watch q = hr_watch r.
Proof.
  intros Hf [R1 R2] Hr Ho. destruct (R1 _ _ Hr) as (r0 & Hr0 & (W & _) & E). rewrite E in *. destruct (fn_origin _ _ Hf _ _ Hr0 Ho) as (q & Hq & Eq).
  destruct (R2 _ _ Hq) as (q' & Hq' & (W' & _) & _). exists q'. split; [done|congruence].
Qed.

(** A prepared reverse transfer is canceled and its original holds again. *)
Lemma restored_evolves me d d1 d' k r r' q q' :
  fenced me d → typed d' → db_handoffs d !! k = Some r → phase_of r = "prepared" → held_of r = true → db_handoffs d !! h_ReturnOf (hr_body r) = Some q →
  h_ReturnOf (hr_body r) ≠ "" → phase_of q = "returned" → spares (fun i => i = hr_watch r) d d1 → status_of d1 (hr_watch r) = Some "paused" →
  d' = d1 <| db_handoffs := <[k := r']> (<[h_ReturnOf (hr_body r) := q']> (db_handoffs d)) |> →
  row_ok me k r' → row_ok me (h_ReturnOf (hr_body r)) q' → same_transfer (hr_body r) (hr_body r') → same_transfer (hr_body q) (hr_body q') →
  phase_of r' = "canceled" → held_of r' = false → phase_of q' = "paused" → evolves me None d d'.
Proof.
  intros Hf Ht Hr Hp Hh Hq Ho Hpq (E1 & E2 & E3) Hst Ed K K' Sr Sq Ep Eh Epq. set (o := h_ReturnOf (hr_body r)) in *.
  assert (H' : db_handoffs d' = <[k := r']> (<[o := q']> (db_handoffs d))) by (by subst d'). assert (Hp' : db_purged d' = db_purged d) by (by subst d').
  assert (Hst' : ∀ x, status_of d' x = status_of d1 x) by (by subst d'). clear Ed.
  assert (Hok : o ≠ k) by (intros Ek; rewrite Ek, Hr in Hq; injection Hq as <-; by rewrite Hp in Hpq).
  assert (Fr : follows r r') by (eapply same_follows; [by apply (fn_rows _ _ Hf)|done|done|rewrite Hp; by intros [?|[?|?]]]).
  assert (Fq : follows q q') by (eapply same_follows; [by apply (fn_rows _ _ Hf)|done|done|rewrite Hpq; by intros [?|[?|?]]]).
  assert (Wq : hr_watch q' = hr_watch r).
  { destruct (fn_origin _ _ Hf _ _ Hr Ho) as (q0 & Hq0 & E). fold o in Hq0. rewrite Hq in Hq0. injection Hq0 as <-. by rewrite (proj1 Fq). }
  assert (Hcases : ∀ i x, db_handoffs d' !! i = Some x → i = k ∧ x = r' ∨ i = o ∧ x = q' ∨ i ≠ k ∧ i ≠ o ∧ db_handoffs d !! i = Some x).
  { intros i x. rewrite H'. intros [[-> ->]|[Hi Hx]]%lookup_insert_Some; [by left|]. apply lookup_insert_Some in Hx as [[<- ->]|[? Hx]]; [by right; left|].
    right. right. by split_and!. }
  assert (Hold : ∀ i x, i ≠ k → i ≠ o → db_handoffs d !! i = Some x → db_handoffs d' !! i = Some x) by (intros i x Hi Hio Hx; rewrite H'; by rewrite !lookup_insert_ne).
  assert (Hother : ∀ i x, i ≠ k → db_handoffs d !! i = Some x → held_of x = true → hr_watch x ≠ hr_watch r).
  { intros i x Hi Hx Hhx E. apply Hi. by eapply (fn_one _ _ Hf); [exact Hx|exact Hr|..]. }
  assert (Hnew : renewed d d').
  { split.
    - intros i x [[-> ->]|[[-> ->]|(_ & _ & Hx)]]%Hcases; [exists r|exists q|by exists x]; (split; [done|]; split; [done|]); [apply Sr|apply Sq].
    - intros i x Hx. destruct (decide (i = k)) as [->|Hi]; [|destruct (decide (i = o)) as [->|Hio]].
      + rewrite Hr in Hx. injection Hx as <-. exists r'. rewrite H', lookup_insert_eq. split; [done|]. split; [done|apply Sr].
      + rewrite Hq in Hx. injection Hx as <-. exists q'. rewrite H', lookup_insert_ne, lookup_insert_eq by done. split; [done|]. split; [done|apply Sq].
      + exists x. by split; [apply Hold|]. }
  split; [split|split; [split|]].
  - done.
  - intros i x [[-> ->]|[[-> ->]|(_ & _ & Hx)]]%Hcases; [done|done|by apply (fn_rows _ _ Hf)].
  - intros i j x y Hx Hy E Hhx Hhy. apply Hcases in Hx as [[-> ->]|[[-> ->]|(Hi & Hio & Hx)]]; [by rewrite Eh in Hhx|..];
      apply Hcases in Hy as [[-> ->]|[[-> ->]|(Hj & Hjo & Hy)]]; try (by rewrite Eh in Hhy); [done|..].
    + exfalso. apply (Hother j y); [done..|congruence].
    + exfalso. apply (Hother i x); [done..|congruence].
    + by eapply (fn_one _ _ Hf).
  - intros i x Hx Hhx. rewrite Hst'. apply Hcases in Hx as [[-> ->]|[[-> ->]|(Hi & Hio & Hx)]]; [by rewrite Eh in Hhx|by rewrite Wq|].
    destruct (E3 (hr_watch x)) as [E| ->]; [by destruct (Hother _ _ Hi Hx Hhx)|by apply (fn_held _ _ Hf _ _ Hx)].
  - intros i x Hx Hpx. apply Hcases in Hx as [[-> ->]|[[-> ->]|(Hi & Hio & Hx)]]; [by rewrite Ep in Hpx|by rewrite Epq in Hpx|].
    destruct (fn_return _ _ Hf _ _ Hx Hpx) as (j & y & Hy & V1 & V2 & V). exists j, y. split; [|exact (conj V1 (conj V2 V))]. apply Hold; [| |done]; intros ->.
    + rewrite Hr in Hy. injection Hy as <-. by apply Hio.
    + rewrite Hq in Hy. injection Hy as <-. pose proof (ro_phase _ _ _ (fn_rows _ _ Hf _ _ Hq)) as P. unfold phase_ok in P. rewrite V1, Hpq in P. unfold phases in P. set_solver.
  - intros i x. by eapply renewed_origin.
  - by rewrite Hp'.
  - intros i x Hx. right. destruct Hnew as [_ Hn]. destruct (Hn _ _ Hx) as (x' & ? & ? & _). by exists x'.
  - intros i x Hx Hpx. left. apply Hcases in Hx as [[-> ->]|[[-> ->]|(_ & _ & Hx)]]; [rewrite Ep in Hpx; by destruct Hpx|rewrite Epq in Hpx; by destruct Hpx|by exists x].
Qed.

(** A source is returned to a new reverse transfer, which holds its watch. *)
Lemma returned_evolves me d dm d1 d' o q q' k r' :
  fenced me d → typed d' → db_handoffs d !! o = Some q → db_handoffs d !! k = None → phase_of q = "paused" →
  dm = d <| db_handoffs := <[o := q']> (db_handoffs d) |> → row_ok me o q' → same_transfer (hr_body q) (hr_body q') → phase_of q' = "returned" → held_of q' = false →
  spares_held dm d1 → d' = d1 <| db_handoffs := <[k := r']> (db_handoffs d1) |> → row_ok me k r' → unheld dm (hr_watch r') →
  (held_of r' = true → status_of d1 (hr_watch r') = Some "paused") → phase_of r' = "prepared" → reverses o q r' → evolves me None d d'.
Proof.
  intros Hf Ht Hq Hk Hpq Edm Kq Sq Eq Ehq (E1 & E2 & E3) Ed K Hu Hst Ep Hrev.
  assert (Hst' : ∀ x, status_of d' x = status_of d1 x) by (by subst d'). assert (Hsm : ∀ x, status_of dm x = status_of d x) by (by subst dm).
  assert (Em : db_handoffs dm = <[o := q']> (db_handoffs d)) by (by subst dm).
  assert (H' : db_handoffs d' = <[k := r']> (<[o := q']> (db_handoffs d))) by (subst d'; cbn; by rewrite E1, Em). assert (Hp' : db_purged d' = db_purged d) by (subst; cbn in *; congruence).
  clear Ed Edm. assert (Hok : o ≠ k) by (intros ->; by rewrite Hk in Hq).
  assert (Fq : follows q q') by (eapply same_follows; [by apply (fn_rows _ _ Hf)|done|done|rewrite Hpq; by intros [?|[?|?]]]).
  assert (Hcases : ∀ i x, db_handoffs d' !! i = Some x → i = k ∧ x = r' ∨ i = o ∧ x = q' ∨ i ≠ k ∧ i ≠ o ∧ db_handoffs d !! i = Some x).
  { intros i x. rewrite H'. intros [[-> ->]|[Hi Hx]]%lookup_insert_Some; [by left|]. apply lookup_insert_Some in Hx as [[<- ->]|[? Hx]]; [by right; left|].
    right. right. by split_and!. }
  assert (Hold : ∀ i x, i ≠ o → db_handoffs d !! i = Some x → db_handoffs d' !! i = Some x).
  { intros i x Hio Hx. rewrite H', !lookup_insert_ne; [done|done|]. intros <-. by rewrite Hk in Hx. }
  assert (Hfree : ∀ i x, i ≠ o → db_handoffs d !! i = Some x → hr_watch x = hr_watch r' → held_of x = false) by (intros i x Hi Hx; apply (Hu i x); by rewrite Em, lookup_insert_ne).
  assert (Ho' : db_handoffs d' !! o = Some q') by (by rewrite H', lookup_insert_ne, lookup_insert_eq).
  assert (Hk' : db_handoffs d' !! k = Some r') by (by rewrite H', lookup_insert_eq). destruct Hrev as (V1 & V2 & V3 & V4 & V5). split; [split|split; [split|]].
  - done.
  - intros i x [[-> ->]|[[-> ->]|(_ & _ & Hx)]]%Hcases; [done|done|by apply (fn_rows _ _ Hf)].
  - intros i j x y Hx Hy E Hhx Hhy. apply Hcases in Hx as [[-> ->]|[[-> ->]|(Hi & Hio & Hx)]], Hy as [[-> ->]|[[-> ->]|(Hj & Hjo & Hy)]];
      try done; try congruence.
    + by rewrite (Hfree _ _ Hjo Hy) in Hhy.
    + by rewrite (Hfree _ _ Hio Hx) in Hhx.
    + by eapply (fn_one _ _ Hf).
  - intros i x Hx Hhx. rewrite Hst'. apply Hcases in Hx as [[-> ->]|[[-> ->]|(Hi & Hio & Hx)]]; [by apply Hst|congruence|].
    destruct (E3 (hr_watch x)) as [Hux| ->]; [|rewrite Hsm; by apply (fn_held _ _ Hf _ _ Hx)].
    specialize (Hux i x). rewrite Em, lookup_insert_ne in Hux by done. by rewrite (Hux Hx eq_refl) in Hhx.
  - intros i x Hx Hpx. apply Hcases in Hx as [[-> ->]|[[-> ->]|(Hi & Hio & Hx)]]; [congruence| |].
    + exists k, r'. split; [done|]. destruct Fq as (F1 & _ & F3 & _). split_and!; [done|done|congruence|congruence|done].
    + destruct (fn_return _ _ Hf _ _ Hx Hpx) as (j & y & Hy & W1 & W). exists j, y. split; [|exact (conj W1 W)]. apply Hold; [|done]. intros ->.
      rewrite Hq in Hy. injection Hy as <-. pose proof (ro_phase _ _ _ (fn_rows _ _ Hf _ _ Hq)) as P. unfold phase_ok in P. rewrite W1, Hpq in P. unfold phases in P. set_solver.
  - intros i x Hx Hox. apply Hcases in Hx as [[-> ->]|[[-> ->]|(Hi & Hio & Hx)]].
    + exists q'. rewrite V2. split; [done|]. by rewrite (proj1 Fq).
    + destruct Sq as (S1 & _). rewrite S1 in *. destruct (fn_origin _ _ Hf _ _ Hq Hox) as (z & Hz & E). destruct (decide (h_ReturnOf (hr_body q) = o)) as [Eo|Hne].
      * exists q'. by rewrite Eo.
      * exists z. split; [by apply Hold|]. by rewrite (proj1 Fq).
    + destruct (fn_origin _ _ Hf _ _ Hx Hox) as (z & Hz & E). destruct (decide (h_ReturnOf (hr_body x) = o)) as [Eo|Hne].
      * exists q'. rewrite Eo in *. split; [done|]. rewrite Hq in Hz. injection Hz as <-. by rewrite (proj1 Fq).
      * exists z. split; [by apply Hold|done].
  - by rewrite Hp'.
  - intros i x Hx. right. destruct (decide (i = o)) as [->|Hio]; [rewrite Hq in Hx; injection Hx as <-; by exists q'|]. exists x. split; [by apply Hold|done].
  - intros i x Hx Hpx. left. apply Hcases in Hx as [[-> ->]|[[-> ->]|(_ & _ & Hx)]]; [rewrite Ep in Hpx; by destruct Hpx|rewrite Eq in Hpx; by destruct Hpx|by exists x].
Qed.
