(* ===== verification/HandoffNet.v ===== *)
(** * Transfers of watches between instances

    Every step of a transfer respects the fence; then any number of instances
    and receipts however stale. *)

From S2P Require Import Prelude GoText Watch Evaluator Plan Records Access Acceptance Lifecycle Apply Handoff Runtime TxLogic RuntimeSteps EvidenceLifecycle Integrity.
From S2P Require Import AcceptOnce HandoffFacts HandoffFence.

(** What a save is about to write is of the transfer of row [r]. *)
Ltac rewriting Hs r Hst Hpk :=
  match type of Hs with SaveHandoff ?h _ = _ => assert (Hst : same_transfer (hr_body r) h) by (by split_and!); assert (Hpk : phase_ok h) end.

Section Steps.
Context `{L : Libraries} (limits : Budgets) (jitter : duration) (storage : db → Z) (range : gmap string State → list (string * State)).
Context (me : string) (approved : list string).
Hypothesis Hme : clean me.

Lemma evolves_refl receipt d : fenced me d → evolves me receipt d d.
Proof. intros Hf. split; [done|]. split; [reflexivity|]. intros k r Hr _. left. by exists r. Qed.
Lemma GetHandoff_inv id d h d' : GetHandoff id d = Ok (h, d') → d' = d ∧ ∃ r, db_handoffs d !! id = Some r ∧ hr_body r = h.
Proof. unfold GetHandoff. intros H. tx_inv. destruct (db_handoffs d !! id); [|done]. tx_inv. eauto. Qed.
Lemma authorizeHandoff_pure ctx granted : respects eq (authorizeHandoff ctx granted).
Proof. unfold authorizeHandoff, Require_. respects_tac. Qed.
Lemma phase_cases h : phase_ok h →
  (h_Role h = "target" ∧ (h_Phase h = "prepared" ∧ h_Held h = true ∨ h_Phase h = "active" ∧ h_Held h = false ∨ h_Phase h = "canceled" ∧ h_Held h = false)) ∨
  (h_Role h = "source" ∧ (h_Phase h = "paused" ∧ h_Held h = true ∨ h_Phase h = "released" ∧ h_Held h = false ∨ h_Phase h = "returned" ∧ h_Held h = false)).
Proof. unfold phase_ok, phases. intros H. repeat (apply elem_of_cons in H as [[= -> -> ->]|H]; [naive_solver|]). by apply not_elem_of_nil in H. Qed.
Lemma typed_after {A : Type} (t : tx A) d a d' : respects well_typed t → typed d → t d = Ok (a, d') → typed d'.
Proof. intros H Ht E. by eapply H. Qed.

(** ** Releasing the source *)

Lemma ReleaseHandoff_evolves ctx granted id target d h d' :
  fenced me d → ReleaseHandoff ctx granted id target d = Ok (h, d') → evolves me (Some target) d d'.
Proof.
  intros Hf H. assert (Ht : typed d') by (eapply typed_after; [|apply Hf|exact H]; apply ReleaseHandoff_steps; first [exact _|apply steps_SaveHandoff]).
  unfold ReleaseHandoff in H. apply tx_bind_inv in H as (h0 & ? & (-> & r & Hr & Eh)%GetHandoff_inv & H).
  apply tx_bind_inv in H as (? & ? & <-%authorizeHandoff_pure & H). apply tx_bind_inv in H as (? & ? & [Hm ->]%reject_inv & H).
  destruct (h_Phase h0 ≟ "released"); [apply ret_inv in H as [_ ->]; by apply evolves_refl|].
  apply tx_bind_inv in H as (? & ? & [Hp ->]%reject_inv & H). cbv zeta in H. apply tx_bind_inv in H as (? & d1 & Hs & [_ ->]%ret_inv).
  apply negb_false_iff, bool_decide_eq_true_1 in Hp. apply negb_false_iff in Hm. unfold matches_target in Hm.
  repeat (apply andb_true_iff in Hm as [Hm ?]). bools. pose proof (fn_rows _ _ Hf _ _ Hr) as K. subst h0.
  rewriting Hs r Hst Hpk. { unfold phase_ok. cbn. match goal with H : h_Role _ = "source" |- _ => rewrite H end. unfold phases. set_solver. }
  destruct (rewrite_row me id r _ _ _ _ Hme Hr K Hst Hpk Hs) as (r' & -> & K' & Hw & Hsame & Ep & Eh & _).
  eapply (rewritten_evolves me _ d d _ id r r'); [done|done|done|reflexivity|done|done|done|by rewrite Eh|by left|rewrite Hp; by intros [?|[?|?]]|by rewrite Ep| |].
  - rewrite Hp. by intros _ [?|?].
  - intros _. right. exists target. split; [done|]. destruct Hsame as (_ & S2 & S3 & S4 & S5 & S6). split_and!; try done.
    + by rewrite <- (ro_instance _ _ _ K).
    + by rewrite S6.
    + by rewrite Hw, (ro_watch _ _ _ K).
    + by rewrite Ep.
Qed.

(** ** Testing a prepared target *)

(** A save that keeps the phase of a prepared row. *)
Lemma probe_evolves id r h' d d' a :
  fenced me d → db_handoffs d !! id = Some r → phase_of r = "prepared" → same_transfer (hr_body r) h' → h_Phase h' = phase_of r → h_Held h' = held_of r →
  SaveHandoff h' d = Ok (a, d') → evolves me None d d'.
Proof.
  intros Hf Hr Hp Hst Ep Eh Hs. pose proof (fn_rows _ _ Hf _ _ Hr) as K. assert (Hpk : phase_ok h').
  { pose proof (ro_phase _ _ _ K) as H. unfold phase_ok in *. destruct Hst as (_ & _ & _ & _ & -> & _). by rewrite Ep, Eh. }
  assert (Ht : typed d') by (eapply typed_after; [|apply Hf|exact Hs]; apply steps_SaveHandoff).
  destruct (rewrite_row me id r _ _ _ _ Hme Hr K Hst Hpk Hs) as (r' & -> & K' & Hw & Hsame & Ep' & Eh' & _). rewrite Ep in Ep'. rewrite Eh in Eh'.
  eapply (rewritten_evolves me _ d d _ id r r'); [done|done|done|reflexivity|done|done|done| |by left|by rewrite Ep'|by rewrite Ep', Hp|by rewrite Ep'|intros _; by left].
  rewrite Eh'. intros Hh. split; [done|]. by apply (fn_held _ _ Hf _ _ Hr).
Qed.
Lemma begin_probe_evolves ctx granted id key digest now d x d' :
  fenced me d → begin_probe ctx granted id key digest now d = Ok (x, d') → evolves me None d d'.
Proof.
  intros Hf H. unfold begin_probe in H. apply tx_bind_inv in H as (h0 & ? & (-> & r & Hr & <-)%GetHandoff_inv & H).
  apply tx_bind_inv in H as (? & ? & <-%authorizeHandoff_pure & H). apply tx_bind_inv in H as (? & ? & [Hm ->]%reject_inv & H). bools.
  destruct (_ ≟ _).
  - apply tx_bind_inv in H as (? & ? & [_ ->]%reject_inv & [_ ->]%ret_inv). by apply evolves_refl.
  - apply tx_bind_inv in H as (? & d1 & Hs & [_ ->]%ret_inv). by eapply (probe_evolves id r); [..|exact Hs].
Qed.
Lemma finish_probe_evolves ctx granted id key digest outcome d x d' :
  fenced me d → finish_probe ctx granted id key digest outcome d = Ok (x, d') → evolves me None d d'.
Proof.
  intros Hf H. unfold finish_probe in H. apply tx_bind_inv in H as (h0 & ? & (-> & r & Hr & <-)%GetHandoff_inv & H).
  apply tx_bind_inv in H as (? & ? & <-%authorizeHandoff_pure & H). apply tx_bind_inv in H as (? & ? & [Hm ->]%reject_inv & Hs). bools.
  by eapply (probe_evolves id r); [..|exact Hs].
Qed.

(** ** Activating the target *)

Lemma unchanged_destinations_pure l : respects eq (for_each unchanged_destination l).
Proof. unfold unchanged_destination, GetDestination. respects_tac. Qed.

Lemma activate_evolves id r source closing lifetime next saved armed at_ d h d' :
  fenced me d → db_handoffs d !! id = Some r → phase_of r = "prepared" → held_of r = true → matches_source (hr_body r) source = true → typed d' →
  activate_target (hr_body r) closing lifetime next saved armed at_ d = Ok (h, d') → evolves me (Some source) d d'.
Proof.
  intros Hf Hr Hp Hh Hm Ht H. unfold activate_target in H. pose proof (fn_rows _ _ Hf _ _ Hr) as K.
  apply tx_bind_inv in H as (w & ? & [Hwin ->]%GetWatch_inv & H). apply tx_bind_inv in H as (? & ? & [_ ->]%reject_inv & H).
  apply tx_bind_inv in H as (? & ? & <-%unchanged_destinations_pure & H). apply tx_bind_inv in H as (? & ? & [_ ->]%reject_inv & H). cbv zeta in H.
  set (w' := transitioned w "running" next) in *. set (U := fun i => i = hr_watch r).
  assert (HU : U (r_ID w')) by (unfold U; rewrite (ro_watch _ _ _ K); exact (proj1 (watch_in_row _ _ _ (fn_typed _ _ Hf) Hwin))).
  apply tx_bind_inv in H as (? & d1 & H1%(SaveWatch_spares U) & H); [|done]. apply tx_bind_inv in H as (? & d2 & H2%(armInitial_steps (spares U)) & H).
  apply tx_bind_inv in H as (? & d3 & H3%(lifecycleEvent_steps (spares U)) & H). apply tx_bind_inv in H as (? & d4 & Hs & [_ ->]%ret_inv).
  assert (H03 : spares U d d3) by (etrans; [exact H1|etrans; [exact H2|exact H3]]). clear H1 H2 H3 d1 d2.
  assert (Hr3 : db_handoffs d3 !! id = Some r) by (by destruct H03 as (-> & _)).
  unfold matches_source in Hm. repeat (apply andb_true_iff in Hm as [Hm ?]). bools.
  rewriting Hs r Hst Hpk. { unfold phase_ok. cbn. match goal with H : h_Role (hr_body r) = _ |- _ => rewrite H end. unfold phases. set_solver. }
  destruct (rewrite_row me id r _ _ _ _ Hme Hr3 K Hst Hpk Hs) as (r' & -> & K' & Hw & Hsame & Ep & Eh & _).
  eapply (rewritten_evolves me _ d d3 _ id r r'); [done|done|done|exact H03|done|done|done|by rewrite Eh|by right|rewrite Hp; by intros [?|[?|?]]|by rewrite Ep|by right|].
  intros _. right. exists source. split; [done|]. destruct Hsame as (_ & S2 & S3 & S4 & S5 & S6). split_and!; try done.
  - by rewrite <- (ro_id _ _ _ K).
  - by rewrite <- (ro_instance _ _ _ K).
  - by rewrite S6.
  - by rewrite Hw, (ro_watch _ _ _ K).
  - by rewrite Ep.
Qed.
Lemma ActivateHandoff_evolves ctx granted id source closing lifetime next saved armed at_ d h d' :
  fenced me d → ActivateHandoff ctx granted id source closing lifetime next saved armed at_ d = Ok (h, d') → evolves me (Some source) d d'.
Proof.
  intros Hf H. assert (Ht : typed d') by (eapply typed_after; [|apply Hf|exact H]; apply ActivateHandoff_steps; exact _).
  unfold ActivateHandoff in H. apply tx_bind_inv in H as (h0 & ? & (-> & r & Hr & <-)%GetHandoff_inv & H).
  apply tx_bind_inv in H as (? & ? & <-%authorizeHandoff_pure & H). apply tx_bind_inv in H as (? & ? & [Hm ->]%reject_inv & H). apply negb_false_iff in Hm.
  destruct (h_Phase (hr_body r) ≟ "active"); [apply ret_inv in H as [_ ->]; by apply evolves_refl|].
  apply tx_bind_inv in H as (? & ? & [Hp ->]%reject_inv & H). bools. by eapply activate_evolves.
Qed.

(** ** Canceling the target *)


Lemma restore_evolves id r w d d1 d2 d' a b :
  fenced me d → db_handoffs d !! id = Some r → phase_of r = "prepared" → held_of r = true → h_Role (hr_body r) = "target" → typed d' → h_ReturnOf (hr_body r) ≠ "" →
  spares (fun i => i = hr_watch r) d d1 → status_of d1 (hr_watch r) = Some "paused" → restore_original (hr_body r) w d1 = Ok (b, d2) →
  SaveHandoff ((hr_body r) <| h_Phase := "canceled" |> <| h_Held := false |>) d2 = Ok (a, d') → evolves me None d d'.
Proof.
  intros Hf Hr Hp Hh Hrole Ht Ho Hsp Hst H Hs. pose proof (fn_rows _ _ Hf _ _ Hr) as K. assert (E1 : db_handoffs d1 = db_handoffs d) by apply Hsp.
  unfold restore_original in H. apply tx_bind_inv in H as (h0 & ? & (-> & q & Hq & <-)%GetHandoff_inv & H). rewrite E1 in Hq. pose proof (fn_rows _ _ Hf _ _ Hq) as Kq.
  apply tx_bind_inv in H as (? & ? & [Hret ->]%reject_inv & H). bools. set (o := h_ReturnOf (hr_body r)) in *.
  assert (Hok : o ≠ id) by (intros Ek; rewrite Ek, Hr in Hq; injection Hq as <-; congruence).
  apply tx_bind_inv in H as (? & d3 & (_ & bm & _ & _ & Ed3)%SaveHandoff_inv & H2). cbn [h_ID] in Ed3. change (h_ID _) with (h_ID (hr_body r)) in Ed3.
  rewrite (ro_id _ _ _ K) in Ed3. set (rm := {| hr_watch := _; hr_body := bm |}) in Ed3.
  assert (Wm : hr_watch rm = hr_watch r) by (unfold rm, row_watch; cbn [hr_watch]; change (h_ID (_ <| h_Held := false |>)) with (h_ID (hr_body r)); by rewrite (ro_id _ _ _ K), E1, Hr).
  assert (E3 : db_handoffs d3 = <[id := rm]> (db_handoffs d)) by (subst d3; cbn; by rewrite E1).
  assert (Hq3 : db_handoffs d3 !! o = Some q) by (by rewrite E3, lookup_insert_ne).
  rewriting H2 q Hst2 Hpk2. { destruct (phase_cases _ (ro_phase _ _ _ Kq)) as [[_ [[]|[[]|[]]]]|[Hrq _]]; try congruence. unfold phase_ok. cbn. rewrite Hrq. unfold phases. set_solver. }
  destruct (rewrite_row me o q _ _ _ _ Hme Hq3 Kq Hst2 Hpk2 H2) as (q' & Ed2 & Kq' & _ & Sq & Epq & _ & _).
  assert (E2 : db_handoffs d2 = <[o := q']> (<[id := rm]> (db_handoffs d))) by (subst d2; cbn; by rewrite E3).
  assert (Hr2 : db_handoffs d2 !! id = Some rm) by (by rewrite E2, lookup_insert_ne, lookup_insert_eq).
  rewriting Hs r Hst3 Hpk3. { unfold phase_ok. cbn. rewrite Hrole. unfold phases. set_solver. }
  destruct (overwrite_row me id r rm _ _ _ _ Hme Hr2 Wm K Hst3 Hpk3 Hs) as (r' & Ed' & K' & _ & Sr & Epr & Ehr & _).
  eapply (restored_evolves me d d1 d' id r r' q q'); try done. rewrite Ed', E2, Ed2, Ed3.
  change (d1 <| db_handoffs := <[id := r']> (<[o := q']> (<[id := rm]> (db_handoffs d))) |> = d1 <| db_handoffs := <[id := r']> (<[o := q']> (db_handoffs d)) |>).
  by rewrite (insert_insert_ne _ id o), insert_insert_eq, (insert_insert_ne _ o id) by done.
Qed.

Lemma cancel_evolves id r lifetime now d h d' :
  fenced me d → db_handoffs d !! id = Some r → phase_of r = "prepared" → held_of r = true → h_Role (hr_body r) = "target" → typed d' →
  cancel_target (hr_body r) lifetime now d = Ok (h, d') → evolves me None d d'.
Proof.
  intros Hf Hr Hp Hh Hrole Ht H. pose proof (fn_rows _ _ Hf _ _ Hr) as K. unfold cancel_target in H.
  apply tx_bind_inv in H as (w & ? & [Hwin ->]%GetWatch_inv & H). apply tx_bind_inv in H as (? & ? & [_ ->]%reject_inv & H). cbv zeta in H.
  set (w' := w <| r_Status := _ |> <| r_Generation := _ |>) in *. set (U := fun i => i = hr_watch r).
  assert (HU : r_ID w' = hr_watch r) by (rewrite (ro_watch _ _ _ K); exact (proj1 (watch_in_row _ _ _ (fn_typed _ _ Hf) Hwin))).
  apply tx_bind_inv in H as (? & d1 & H1 & H). pose proof (SaveWatch_status _ _ _ _ _ _ H1) as Hst. apply (SaveWatch_spares U) in H1; [|exact HU].
  apply tx_bind_inv in H as (? & d2 & H2 & H). rewrite <- (spares_none_status d1 d2) in Hst by (by eapply steps_DeleteTimers). apply (steps_DeleteTimers (R := spares U)) in H2.
  assert (H02 : spares U d d2) by (by etrans). clear H1 H2 d1. rewrite HU in Hst. apply tx_bind_inv in H as (? & d3 & H3 & H).
  apply tx_bind_inv in H as (? & d4 & Hs & [_ ->]%ret_inv). subst w'. cbn [r_Status] in Hst. destruct (h_ReturnOf (hr_body r) ≟ "") eqn:Er; cbn [unless] in H3.
  - apply ret_inv in H3 as [_ ->]. apply bool_decide_eq_true_1 in Er. assert (Hr2 : db_handoffs d2 !! id = Some r) by (by destruct H02 as (-> & _)).
    rewriting Hs r Hsm Hpk. { unfold phase_ok. cbn. rewrite Hrole. unfold phases. set_solver. }
    destruct (rewrite_row me id r _ _ _ _ Hme Hr2 K Hsm Hpk Hs) as (r' & -> & K' & Hw & Hsame & Ep & Eh & _).
    eapply (rewritten_evolves me _ d d2 _ id r r'); [done|done|done|exact H02|done|done|done|by rewrite Eh|by right|rewrite Hp; by intros [?|[?|?]]|by rewrite Ep|by intros []|].
    rewrite Ep. by intros [?|?].
  - apply bool_decide_eq_false_1 in Er. by eapply restore_evolves.
Qed.
Lemma CancelPreparedHandoff_evolves ctx granted id lifetime now d h d' :
  fenced me d → CancelPreparedHandoff ctx granted id lifetime now d = Ok (h, d') → evolves me None d d'.
Proof.
  intros Hf H. assert (Ht : typed d') by (eapply typed_after; [|apply Hf|exact H]; apply CancelPreparedHandoff_steps; exact _).
  unfold CancelPreparedHandoff in H. apply tx_bind_inv in H as (h0 & ? & (-> & r & Hr & <-)%GetHandoff_inv & H).
  apply tx_bind_inv in H as (? & ? & <-%authorizeHandoff_pure & H). apply tx_bind_inv in H as (? & ? & [Hm ->]%reject_inv & H).
  destruct (h_Phase (hr_body r) ≟ "canceled"); [apply ret_inv in H as [_ ->]; by apply evolves_refl|].
  apply tx_bind_inv in H as (? & ? & [Hp ->]%reject_inv & H). bools. by eapply cancel_evolves.
Qed.

(** ** Pausing the source *)

Lemma Require_pure ctx action : respects eq (Require_ ctx action).
Proof. unfold Require_. respects_tac. Qed.
Lemma GetDestination_pure id revision : respects eq (GetDestination id revision).
Proof. unfold GetDestination. respects_tac. Qed.
#[local] Hint Resolve GetDestination_pure : tx.
Lemma check_pause_pure q now : respects eq (check_pause q now).
Proof. unfold check_pause, check_paused_target, healthyForHandoff, PendingForWatch, GetEntities, GetWatch. respects_tac. Qed.
Lemma current_revisions_pure l m : respects eq (current_revisions l m).
Proof. revert m. induction l; intros m; cbn [current_revisions]; respects_tac. Qed.

Lemma begin_handoff_inv ctx granted h check d b dm :
  begin_handoff ctx granted h check d = Ok (b, dm) → b = true ∧ dm = d ∨ b = false ∧ db_handoffs d !! h_ID h = None ∧ check d = Ok (tt, dm).
Proof.
  unfold begin_handoff, find_handoff. intros H. apply tx_bind_inv in H as (? & ? & <-%authorizeHandoff_pure & H).
  apply tx_bind_inv in H as (old & ? & [-> ->]%gets_inv & H). destruct (db_handoffs d !! h_ID h) as [r|]; cbn in H.
  - apply tx_bind_inv in H as (? & ? & [_ ->]%reject_inv & [-> ->]%ret_inv). by left.
  - apply tx_bind_inv in H as ([] & d1 & Hc & [-> ->]%ret_inv). by right.
Qed.
Lemma finish_handoff_inv h now d a d' :
  finish_handoff me h now d = Ok (a, d') → ∃ w m, watch_in (h_WatchID h) d = Some w ∧
    SaveHandoff (h <| h_Instance := me |> <| h_Revision := r_Revision w |> <| h_Generation := r_Generation w |> <| h_At := now |> <| h_Destinations := m |>) d = Ok (a, d').
Proof.
  unfold finish_handoff. intros H. apply tx_bind_inv in H as (w & ? & [Hw ->]%GetWatch_inv & H).
  apply tx_bind_inv in H as (m & ? & <-%current_revisions_pure & H). eauto.
Qed.

Lemma pause_evolves ctx granted q closing lifetime now checked later d :
  fenced me d → clean (hq_WatchID q) → clean (hq_Peer q) →
  evolves me None d (fst (PauseForHandoff limits range me approved ctx granted q closing lifetime now checked later d)).
Proof.
  intros Hf Cw Cp. assert (Hty : typed (fst (PauseForHandoff limits range me approved ctx granted q closing lifetime now checked later d))).
  { apply (PauseForHandoff_steps well_typed), Hf. }
  revert Hty. unfold PauseForHandoff. destruct (_ || _); [intros _; by apply evolves_refl|]. cbv zeta. set (m := pause_mutation _ _ _ _ _ _).
  set (t := lifecycle limits range approved ctx m (hq_WatchID q) (pause_request q) closing lifetime now).
  assert (E : ∀ x : db * result (option WatchRecord), fst (match x with (d1, Ok _) => (d1, View (GetHandoff (hq_ID q)) d1) | (d1, Err e) => (d1, Err e) end) = fst x) by (by intros [? []]).
  rewrite E. clear E. destruct (update_cases t d) as [->|(a & H)]; [intros _; by apply evolves_refl|]. revert H. generalize (fst (Update t d)). intros d' H Ht.
  unfold t, lifecycle in H. apply tx_bind_inv in H as (? & ? & <-%Require_pure & H). apply tx_bind_inv in H as (b & dm & Hb & H). cbn [m pause_mutation handoffMutation mu_begin] in Hb.
  apply begin_handoff_inv in Hb as [[-> ->]|(-> & Hn & <-%check_pause_pure)]; [apply ret_inv in H as [_ ->]; by apply evolves_refl|]. cbn in Hn.
  apply tx_bind_inv in H as (r & d1 & Hc & H). apply tx_bind_inv in H as (? & d2 & Hfin & [_ ->]%ret_inv).
  assert (Hnew : newcomer (mu_owner m) d) by (intros k Hk; cbn in Hk; by injection Hk as <-).
  destruct (lifecycle_core_spares limits storage range approved ctx (mu_owner m) (hq_WatchID q) (pause_request q) closing lifetime now d r d1 (fn_typed _ _ Hf) (fenced_keyed _ _ Hf) Hnew Hc) as (Hu & [[[=] _]|[Hsp Hst]]). specialize (Hst eq_refl).
  cbn [m pause_mutation handoffMutation mu_finish] in Hfin. apply finish_handoff_inv in Hfin as (w & revs & Hw & Hs).
  assert (Hn1 : db_handoffs d1 !! hq_ID q = None) by (by destruct Hsp as (-> & _)).
  apply (new_row me) in Hs as (r' & Ed' & K' & Hwr & Sr & Ep & Eh & _); [|done|exact Hn1|done|done|done|done|cbn; unfold phase_ok, phases; set_solver].
  cbn in Hwr, Ep, Eh, Ed', K'. eapply (added_evolves me d d1 d2 (hq_ID q) r'); [done|done|done|done|done|done|by rewrite Hwr|by rewrite Hwr|by right|apply Sr].
Qed.

(** ** Preparing the target *)

Lemma check_target_pure available l : respects eq (for_each (check_target available) l).
Proof. unfold check_target. respects_tac. Qed.
Lemma planned_paused q old p n now d record reset state n' d' :
  aq_startPaused q = true → old = None ∨ aq_resetPaused q = true → planned limits q old p n now d = Ok ((record, reset, state, n'), d') → r_Status record = "paused".
Proof.
  intros Hs Ho. unfold planned. intros H. apply tx_bind_inv in H as ([[[rec0 reset0] state0] n0] & d1 & H1 & H). apply ret_inv in H as [H _].
  destruct (aq_resetPaused q); [by injection H as -> _ _ _|]. injection H as -> _ _ _. destruct Ho as [->|?]; [|done].
  apply tx_bind_inv in H1 as (? & ? & _ & H1). apply ret_inv in H1 as [H1 _]. injection H1 as -> _ _ _. cbn. by rewrite Hs.
Qed.
Lemma install_status lifetimes record existing reset state now d a d' :
  install lifetimes record existing reset state now d = Ok (a, d') → status_of d' (r_ID record) = Some (r_Status record).
Proof.
  unfold install. intros H. apply tx_bind_inv in H as (? & d1 & Hs%SaveWatch_status & H). rewrite <- Hs. apply spares_none_status.
  revert H. match goal with |- ?t d1 = _ → _ => assert (Hr : respects (spares (fun _ => False)) t); [|by intros H%Hr] end.
  apply respects_bind; [exact _|apply respects_unless; [exact _|]|intros].
  { apply respects_bind; [exact _|apply ResetState_spares|intros]. apply lifecycleEvent_steps. exact _. }
  apply respects_bind; [exact _| |intros; apply lifecycleEvent_steps; exact _]. destruct (_ && _); [apply steps_RevisionState|apply armInitial_steps; exact _].
Qed.

(** The installed copy is paused, or there is none. *)
Lemma apply_watch_paused lifetimes q owner available now p n d res d' :
  typed d → keyed d → newcomer owner d → aq_startPaused q = true → aq_DryRun q = false →
  apply_watch limits lifetimes q owner available now p n d = Ok (res, d') →
  unheld d (watch_id p) ∧ (status_of d' (watch_id p) = Some "paused" ∨ watch_in (watch_id p) d' = None).
Proof.
  intros Ht Hk Hn Hs Hd H. unfold apply_watch in H. rewrite Hd in H. cbn [unless orb] in H. apply tx_bind_inv in H as (? & ? & <-%check_target_pure & H).
  apply tx_bind_inv in H as (? & ? & Hc & H). apply checkHandoffHold_unheld in Hc as [Hu ->]; [|done..]. split; [done|].
  apply tx_bind_inv in H as (old & ? & [-> ->]%gets_inv & H). cbv zeta in H. apply tx_bind_inv in H as (? & ? & [_ ->]%reject_inv & H).
  apply tx_bind_inv in H as (? & ? & [Hex ->]%reject_inv & H). apply tx_bind_inv in H as ([[[record reset] state] n'] & d3 & Hp & H).
  destruct (planned_spec _ _ _ _ _ _ _ _ _ _ _ _ Hp) as (-> & Eplan & _). rewrite Hs in Hex. cbn [andb] in Hex.
  assert (Hst : r_Status record = "paused").
  { eapply planned_paused; [exact Hs| |exact Hp]. destruct (default "" _ ≟ ""); [by left|]. right. by apply negb_false_iff. }
  apply tx_bind_inv in H as (? & d4 & Hi & [_ ->]%ret_inv). match type of Hi with unless ?b _ _ = _ => destruct b eqn:Eskip end; cbn [unless] in Hi.
  - apply ret_inv in Hi as [_ ->]. right. apply andb_true_iff in Eskip as [_ Enr]. rewrite Enr, andb_true_r in Hex. apply negb_false_iff, bool_decide_eq_true_1 in Hex.
    destruct (watch_in (watch_id p) d) as [r|] eqn:Er; [|done]. by destruct (watch_in_row _ _ _ Ht Er) as (_ & [] & _).
  - left. apply install_status in Hi. rewrite Hst in Hi. unfold r_ID, r_Definition in Hi. by rewrite Eplan in Hi.
Qed.
Lemma apply_core_paused lifetimes oversized owner q b p closing now d res d' :
  bu_Watches b = [p] → typed d → keyed d → newcomer owner d → aq_startPaused q = true → aq_DryRun q = false →
  apply_core limits storage me lifetimes oversized owner q b closing now d = Ok (res, d') →
  unheld d (watch_id p) ∧ (status_of d' (watch_id p) = Some "paused" ∨ watch_in (watch_id p) d' = None).
Proof.
  intros Hb Ht Hk Hn Hs Hd H. unfold apply_core in H. apply tx_bind_inv in H as (? & ? & [_ ->]%reject_inv & H). unfold live_watches, captureReview in H.
  do 2 apply tx_bind_inv in H as (? & ? & [_ ->]%gets_inv & H). apply tx_bind_inv in H as (? & ? & [_ ->]%reject_inv & H).
  apply tx_bind_inv in H as (? & d1 & Hc & H). assert (d1 = d) as -> by (symmetry; revert Hc; unfold check_destinations; match goal with |- ?t _ = _ → _ => assert (respects eq t); [respects_tac|eauto] end).
  apply tx_bind_inv in H as (? & d1 & Hdst & H). assert (Ht1 : typed d1) by (by eapply (apply_destinations_steps well_typed)).
  apply (apply_destinations_spares (fun _ => False)) in Hdst as (E1 & _ & _). apply tx_bind_inv in H as (? & d2 & Hw & H). rewrite Hb in Hw. cbn [apply_watches] in Hw.
  apply tx_bind_inv in Hw as ([change n] & d3 & Hw & H2). apply tx_bind_inv in H2 as (? & ? & [_ ->]%ret_inv & [_ ->]%ret_inv).
  apply tx_bind_inv in H as (? & ? & [_ ->]%gets_inv & H). do 2 apply tx_bind_inv in H as (? & ? & [_ ->]%reject_inv & H). apply ret_inv in H as [_ ->].
  apply apply_watch_paused in Hw as [Hu Hst]; [|done|intros k r; rewrite E1; apply Hk|intros k Ek; rewrite E1; by apply Hn|done|done].
  split; [|done]. intros k r. rewrite <- E1. apply Hu.
Qed.

Lemma check_replaced_pure l : respects eq (for_each check_replaced l).
Proof. unfold check_replaced, find_destination. respects_tac. Qed.

(** What the check of a preparation leaves: nothing changed, or the held source
    it returns to gave up its hold. *)
Lemma check_prepare_inv q b w d dm :
  fenced me d → clean (hp_Peer q) → check_prepare q b w d = Ok (tt, dm) →
  hp_ReturnOf q = "" ∧ dm = d ∨
  hp_ReturnOf q ≠ "" ∧ ∃ r r', db_handoffs d !! hp_ReturnOf q = Some r ∧ phase_of r = "paused" ∧ dm = d <| db_handoffs := <[hp_ReturnOf q := r']> (db_handoffs d) |> ∧
    row_ok me (hp_ReturnOf q) r' ∧ same_transfer (hr_body r) (hr_body r') ∧ phase_of r' = "returned" ∧ held_of r' = false ∧ hr_watch r = w ∧ h_Peer (hr_body r) = hp_Peer q.
Proof.
  intros Hf Cp H. unfold check_prepare in H. apply tx_bind_inv in H as (? & d1 & Hc & H). apply check_replaced_pure in H as <-. unfold check_return in Hc.
  destruct (decide (hp_ReturnOf q = "")) as [E|E]; [rewrite (bool_decide_eq_true_2 _ E) in Hc; apply ret_inv in Hc as [_ ->]; by left|].
  rewrite (bool_decide_eq_false_2 _ E) in Hc. cbn [unless] in Hc. right. split; [done|].
  apply tx_bind_inv in Hc as (h0 & ? & (-> & r & Hr & <-)%GetHandoff_inv & H). apply tx_bind_inv in H as (w0 & ? & [_ ->]%GetWatch_inv & H).
  apply tx_bind_inv in H as (? & ? & [Hb ->]%reject_inv & Hs). bools. pose proof (fn_rows _ _ Hf _ _ Hr) as K.
  rewriting Hs r Hst Hpk. { unfold phase_ok. cbn. match goal with H : h_Role _ = "source" |- _ => rewrite H end. unfold phases. set_solver. }
  destruct (rewrite_row me _ r _ _ _ _ Hme Hr K Hst Hpk Hs) as (r' & Ed & K' & Hw & Hsame & Ep & Eh & _).
  exists r, r'. split_and!; try done. by rewrite (ro_watch _ _ _ K).
Qed.

Lemma prepare_evolves ctx granted q b p closing lifetimes now later d a d' :
  fenced me d → bu_Watches b = [p] → clean (watch_id p) → clean (hp_Peer q) → clean (hp_ReturnOf q) → typed d' →
  apply_tx limits storage me approved lifetimes (fun _ => false) ctx (prepare_mutation me ctx granted q b p later) (prepare_request q) b closing now d = Ok (a, d') →
  evolves me None d d'.
Proof.
  intros Hf Hb Cw Cp Cr Ht H. unfold apply_tx in H. apply tx_bind_inv in H as (? & ? & <-%authorizeBundle_pure & H). apply tx_bind_inv in H as (done & dm & Hbeg & H).
  cbn [prepare_mutation handoffMutation mu_begin] in Hbeg. set (m := prepare_mutation _ _ _ _ _ _ _) in H.
  destruct (begin_handoff_inv _ _ _ _ _ _ _ Hbeg) as [[-> ->]|(-> & Hn & Hc)]; [apply ret_inv in H as [_ ->]; by apply evolves_refl|]. cbn [prepared_handoff h_ID] in Hn.
  assert (Htm : typed dm) by (eapply (check_prepare_steps well_typed); [apply steps_SaveHandoff|exact Hc|apply Hf]).
  apply tx_bind_inv in H as (res & d1 & Hcore & H). apply tx_bind_inv in H as (? & d2 & Hfin & [_ ->]%ret_inv). apply check_prepare_inv in Hc as Hcase; [|done..].
  assert (Hnm : db_handoffs dm !! hp_ID q = None).
  { destruct Hcase as [[_ ->]|(_ & r & r' & Hr & _ & -> & _)]; [done|]. cbn. rewrite lookup_insert_ne; [done|]. intros E. by rewrite <- E, Hr in Hn. }
  assert (Hkm : keyed dm).
  { intros k y Hx. destruct Hcase as [[_ ->]|(Hne & r & r' & Hr & _ & -> & _)]; [by eapply fenced_keyed|]. cbn in Hx.
    apply lookup_insert_Some in Hx as [[<- _]|[_ Hx]]; [done|by eapply fenced_keyed]. }
  assert (Hnew : newcomer (mu_owner m) dm) by (intros k Hk; cbn in Hk; by injection Hk as <-).
  destruct (apply_core_paused _ _ _ (prepare_request q) _ p _ _ _ _ _ Hb Htm Hkm Hnew eq_refl eq_refl Hcore) as [Hu Hst].
  assert (Hsp : spares_held dm d1) by (eapply (apply_core_spares _ _ _ dm); [exact Hkm|exact Hnew| |exact Hcore]; unfold spares_held; reflexivity).
  cbn [m prepare_mutation handoffMutation mu_finish] in Hfin. apply finish_handoff_inv in Hfin as (w & revs & Hw & Hs). cbn [prepared_handoff h_WatchID] in Hw.
  destruct Hst as [Hst|Hst]; [|by rewrite Hw in Hst]. assert (Hn1 : db_handoffs d1 !! hp_ID q = None) by (by destruct Hsp as (-> & _)).
  apply (new_row me) in Hs as (r' & Ed' & K' & Hwr & Sr & Ep & Eh & _); [|done|exact Hn1|done|done|done|done|cbn; unfold phase_ok, phases; set_solver].
  cbn in Hwr, Ep, Eh, Ed', K'. destruct Hcase as [[Er ->]|(Hne & o & o' & Ho & Hpo & -> & Ko & So & Epo & Eho & Wo & Po)].
  - eapply (added_evolves me d d1 d2 (hp_ID q) r'); [done|done|done|done|done|done|by rewrite Hwr|by rewrite Hwr|by left|]. destruct Sr as (-> & _). exact Er.
  - eapply (returned_evolves me d _ d1 d2 (hp_ReturnOf q) o o' (hp_ID q) r'); [done|done|done|done|done|reflexivity|done|done|done|done|done|done|done|by rewrite Hwr|by rewrite Hwr|done|].
    destruct Sr as (S1 & _ & _ & S4 & S5 & S6). split_and!; [by rewrite S5|by rewrite S1|by rewrite Hwr|by rewrite S6|by left].
Qed.
End Steps.

(** * Transfers between instances

    Any number of instances, each with its own tables, and the receipts their
    administrators were shown.  An instance works on its own tables, with any
    operation in any order; where an operation takes the receipt of another
    instance, it is one that instance once showed, however stale. *)

(** Requests arrive as JSON, whose strings are well-formed text. *)
Definition decoded (o : runtime_op) : Prop :=
  match o with
  | prepare_handoff _ _ q b _ _ _ _ => (∀ p, p ∈ bu_Watches b → clean (watch_id p)) ∧ clean (hp_Peer q) ∧ clean (hp_ReturnOf q)
  | pause_handoff _ _ q _ _ _ _ _ => clean (hq_WatchID q) ∧ clean (hq_Peer q)
  | _ => True
  end.
(** The receipt an operation is given. *)
Definition op_receipt (o : runtime_op) : option Handoff :=
  match o with
  | activate_handoff _ _ _ source _ _ _ _ _ _ => Some source
  | release_handoff _ _ _ target => Some target
  | _ => None
  end.

Record network := { nw_tables : string → db; nw_shown : list Handoff }.

Section Net.
Context `{L : Libraries} (limits : Budgets) (jitter : duration) (storage : db → Z) (range : gmap string State → list (string * State)) (approved : list string).

(** The network after an operation at [me], and after a receipt was shown. *)
Definition work (me : string) (o : runtime_op) (n : network) : network :=
  {| nw_tables := fun i => if decide (i = me) then perform limits jitter storage range me approved o (nw_tables n me) else nw_tables n i;
     nw_shown := nw_shown n |}.
Definition show (h : Handoff) (n : network) : network := {| nw_tables := nw_tables n; nw_shown := h :: nw_shown n |}.

Inductive net_step (n : network) : network → Prop :=
| works me o : clean me → decoded o → (∀ s, op_receipt o = Some s → s ∈ nw_shown n) → net_step n (work me o n)
| shows me id h : clean me → View (GetHandoff id) (nw_tables n me) = Ok h → net_step n (show h n).

Definition new_network : network := {| nw_tables := fun _ => empty_db; nw_shown := [] |}.

(** ** One operation *)

Lemma update_evolves {A : Type} me receipt (t : tx A) d :
  fenced me d → (∀ a d', t d = Ok (a, d') → evolves me receipt d d') → evolves me receipt d (fst (Update t d)).
Proof. intros Hf H. destruct (update_cases t d) as [->|(a & E)]; [by apply evolves_refl|by eapply H]. Qed.

Lemma perform_evolves me o d :
  clean me → fenced me d → decoded o → evolves me (op_receipt o) d (perform limits jitter storage range me approved o d).
Proof.
  intros Hme Hf Ho. assert (Ht : typed (perform limits jitter storage range me approved o d)) by (apply (perform_steps well_typed), Hf).
  assert (Hord : ordinary o → evolves me None d (perform limits jitter storage range me approved o d)).
  { intros Hord. apply respected_evolves; [done|done|]. by apply ordinary_respected; [apply Hf|by eapply fenced_keyed|apply Hf|]. }
  destruct o as [| | | | | | | | | | |ctx granted q b closing lts now later|ctx granted q closing lt now checked later|ctx granted i source closing lt next saved armed at_|ctx granted i lt now|ctx granted i target|ctx granted i key digest now|ctx granted i key digest outcome];
    try (by apply Hord); clear Hord; cbn [perform op_receipt decoded] in *.
  - destruct Ho as (Hb & Cp & Cr). destruct (prepare_effect limits storage me approved lts ctx granted q b closing now later d) as [E|(p & Hp & E)]; rewrite E in *; [by apply evolves_refl|].
    assert (Hw : bu_Watches b = [p]).
    { unfold transferred in Hp. destruct (bu_Watches b) as [|p' [|]]; [done| |done]. apply bind_Ok in Hp as (? & _ & [= <-]). done. }
    match type of Ht with context [Update ?t d] => destruct (update_cases t d) as [E'|(a & H)] end; [rewrite E'; by apply evolves_refl|].
    eapply prepare_evolves; [done|done|exact Hw| |done|done|done|exact H]. apply Hb. rewrite Hw. by left.
  - destruct Ho. by apply pause_evolves.
  - apply update_evolves; [done|]. intros a d' H. by eapply ActivateHandoff_evolves.
  - apply update_evolves; [done|]. intros a d' H. by eapply CancelPreparedHandoff_evolves.
  - apply update_evolves; [done|]. intros a d' H. by eapply ReleaseHandoff_evolves.
  - apply update_evolves; [done|]. intros a d' H. by eapply begin_probe_evolves.
  - apply update_evolves; [done|]. intros a d' H. by eapply finish_probe_evolves.
Qed.

(** ** What holds in every reachable network *)

(** The instance that showed a receipt still has the transfer, or purged its
    watch; what was final then is so now. *)
Definition since_shown (h : Handoff) (d : db) : Prop :=
  h_WatchID h ∈ db_purged d ∨
  ∃ r, db_handoffs d !! h_ID h = Some r ∧ hr_watch r = h_WatchID h ∧ h_Role (hr_body r) = h_Role h ∧ h_Peer (hr_body r) = h_Peer h ∧
    (final (h_Phase h) → phase_of r = h_Phase h).
Lemma since_shown_advances h d d' : advances d d' → since_shown h d → since_shown h d'.
Proof.
  intros [A1 A2] [H|(r & Hr & W & R & P & F)]; [left; set_solver|]. destruct (A2 _ _ Hr) as [Hp|(r' & Hr' & W' & R' & P' & F')]; [left; by rewrite <- W|].
  right. exists r'. split_and!; [done|congruence..|]. intros Hf. pose proof (F Hf) as E. rewrite <- E. apply F'. by rewrite E.
Qed.

Record network_ok (n : network) : Prop := {
  no_fenced me : clean me → fenced me (nw_tables n me);
  no_shown h : h ∈ nw_shown n → clean (h_Instance h) ∧ since_shown h (nw_tables n (h_Instance h));
  no_confirmed me k r : clean me → db_handoffs (nw_tables n me) !! k = Some r → phase_of r = "active" ∨ phase_of r = "released" →
    ∃ s, s ∈ nw_shown n ∧ confirms me k r s }.

Lemma empty_fenced me : fenced me empty_db.
Proof. split; [apply empty_typed|..]; intros *; cbn; by rewrite ?lookup_empty. Qed.
Lemma new_network_ok : network_ok new_network.
Proof. split; [intros; apply empty_fenced|by intros h ?%not_elem_of_nil|]. intros me k r _. cbn. by rewrite lookup_empty. Qed.

Lemma confirms_follows me k r0 r s : follows r0 r → phase_of r0 = phase_of r → confirms me k r0 s → confirms me k r s.
Proof. intros (W & _ & P & _) E (C1 & C2 & C3 & C4 & C5 & C6). split_and!; [done|done|congruence|congruence|by rewrite <- E|by rewrite <- E]. Qed.

Lemma net_step_ok n n' : network_ok n → net_step n n' → network_ok n'.
Proof.
  intros [N1 N2 N3] [me o Hme Hd Hs|me id h Hme Hh].
  - destruct (perform_evolves me o (nw_tables n me) Hme (N1 me Hme) Hd) as (F & A & B). split; cbn [work nw_tables nw_shown].
    + intros i Hi. destruct (decide (i = me)) as [->|]; [done|by apply N1].
    + intros h Hh. destruct (N2 h Hh) as [Ci Hsince]. split; [done|]. destruct (decide (h_Instance h = me)) as [E|]; [|done]. rewrite E in Hsince. by eapply since_shown_advances.
    + intros i k r Hi. destruct (decide (i = me)) as [->|]; [|by apply N3]. intros Hr Hp. destruct (B _ _ Hr Hp) as [(r0 & Hr0 & Hf & E)|(s & Es & Hc)].
      * destruct (N3 me k r0) as (s & Hin & Hc); [done|done|by rewrite E|]. exists s. split; [done|]. by eapply confirms_follows.
      * exists s. split; [by apply Hs|done].
  - split; cbn [show nw_tables nw_shown]; [done| |].
    + intros x [->|Hx]%elem_of_cons; [|by apply N2]. unfold View in Hh. apply fmap_Ok in Hh as ([h' d'] & H & Eh). cbn in Eh. subst h'.
      apply GetHandoff_inv in H as (_ & r & Hr & <-). destruct (fn_rows _ _ (N1 me Hme) _ _ Hr) as [K1 K2 K3 K4 K5 K6]. rewrite K4. split; [done|]. right. exists r. rewrite K2. by split_and!.
    + intros i k r Hi Hr Hp. destruct (N3 i k r Hi Hr Hp) as (s & Hin & Hc). exists s. split; [by right|done].
Qed.
Lemma reachable_ok n : rtc net_step new_network n → network_ok n.
Proof. intros H. assert (G : ∀ m, rtc net_step m n → network_ok m → network_ok n) by (induction 1; eauto using net_step_ok). by eapply G, new_network_ok. Qed.

(** C6: A transfer never leaves its watch running on both sides.  Whatever the
    instances of a network do - their whole runtime, transfers prepared, paused,
    activated, canceled, released and returned in any order and any number of
    times, with receipts however stale - once a target has activated a transfer,
    its source does not run the watch, unless the source in turn has activated a
    reverse transfer of it back from that target. *)
Theorem handoff_exclusive n me k r :
  rtc net_step new_network n → clean me → db_handoffs (nw_tables n me) !! k = Some r →
  h_Role (hr_body r) = "target" → h_Phase (hr_body r) = "active" →
  let source := nw_tables n (h_Peer (hr_body r)) in
  status_of source (hr_watch r) ≠ Some "running" ∨
  ∃ k' x, db_handoffs source !! k' = Some x ∧ h_Role (hr_body x) = "target" ∧ h_Phase (hr_body x) = "active" ∧ h_ReturnOf (hr_body x) = k ∧
    hr_watch x = hr_watch r ∧ h_Peer (hr_body x) = me.
Proof.
  intros [N1 N2 N3]%reachable_ok Hme Hr Hrole Hp source. destruct (N3 me k r Hme Hr (or_introl Hp)) as (s & Hin & C1 & C2 & C3 & C4 & C5 & _).
  specialize (C5 Hp). destruct (N2 s Hin) as [Ci Hs]. rewrite C3 in *. fold source in Hs. pose proof (N1 _ Ci) as Hf. fold source in Hf.
  destruct Hs as [Hpur|(y & Hy & W & R & P & _)].
  { left. unfold status_of. rewrite <- C4. destruct (db_watches source !! h_WatchID s) as [w|] eqn:E; [|done].
    by destruct (ty_watches _ (fn_typed _ _ Hf) _ _ E) as (_ & _ & _ & []). }
  rewrite C1, C4 in *. rewrite C5 in R. rewrite C2 in P. pose proof (fn_rows _ _ Hf _ _ Hy) as Ky.
  destruct (phase_cases _ (ro_phase _ _ _ Ky)) as [[? _]|[_ [[E Eh]|[[E _]|[E _]]]]]; [congruence|..].
  - left. by rewrite <- W, (fn_held _ _ Hf _ _ Hy Eh).
  - exfalso. destruct (N3 _ _ _ Ci Hy (or_intror E)) as (s2 & Hin2 & D1 & _ & D3 & D4 & _ & D6). destruct (D6 E) as [_ D7]. destruct (N2 s2 Hin2) as [_ Hs2].
    rewrite D3, P in Hs2. destruct Hs2 as [Hpur|(z & Hz & _ & _ & _ & F)].
    + destruct (ty_handoffs _ (fn_typed _ _ (N1 me Hme)) _ _ Hr) as [w Hw]. destruct (ty_watches _ (fn_typed _ _ (N1 me Hme)) _ _ Hw) as (_ & _ & _ & []). by rewrite <- W, <- D4.
    + rewrite D1, Hr in Hz. injection Hz as <-. rewrite D7 in F. rewrite F in Hp; [done|]. right. by left.
  - destruct (fn_return _ _ Hf _ _ Hy E) as (k' & x & Hx & V1 & V2 & V3 & V4 & V5). destruct V5 as [V5|V5].
    + left. rewrite <- W, <- V3. destruct (phase_cases _ (ro_phase _ _ _ (fn_rows _ _ Hf _ _ Hx))) as [[_ [[_ Hh]|[[? _]|[? _]]]]|[? _]]; [|congruence..].
      by rewrite (fn_held _ _ Hf _ _ Hx Hh).
    + right. exists k', x. split_and!; [done|done|done|done|congruence|congruence].
Qed.
End Net.
