(* ===== verification/RetentionFacts.v ===== *)
(** * Maintenance ends

    Every transaction of a maintenance pass that reports progress leaves less
    for the rest of the pass: the rows still ahead of the cursors, and those the
    direct deletions would remove, only become fewer.  So the loops of
    [App.maintain] end. *)
From S2P Require Import Prelude GoText GoTime GoJson Watch Plan Evaluator RecordJson Outbox PushReceipts Records Access Render Acceptance Lifecycle Maintenance Apply Runtime.
From S2P Require Import TxLogic RuntimeSteps Integrity AcceptOnce.

(** ** Lexicographic comparisons *)

(** A three-way comparison that composes. *)
Record composes {A : Type} (cmp : A → A → comparison) : Prop := {
  co_left a b c : cmp a b = Eq → cmp a c = cmp b c;
  co_right a b c : cmp b c = Eq → cmp a c = cmp a b;
  co_trans a b c : cmp a b = Lt → cmp b c = Lt → cmp a c = Lt }.

Lemma composes_Z {A : Type} (f : A → Z) : composes (fun a b => f a ?= f b).
Proof. split; intros a b c; rewrite ?Z.compare_eq_iff, ?Z.compare_lt_iff; [by intros ->..|lia]. Qed.
Lemma composes_string {A : Type} (f : A → string) : composes (fun a b => str_compare (f a) (f b)).
Proof.
  split; intros a b c; [by intros ->%str_compare_eq..|]. intros H1 H2. destruct (str_compare (f a) (f c)) eqn:E; [|done|].
  - apply str_compare_eq in E. rewrite E, str_compare_antisym, H2 in H1. done.
  - destruct (str_le_trans (f a) (f b) (f c)); [unfold str_le; congruence..|done].
Qed.
Lemma composes_eq {A : Type} : composes (fun _ _ : A => Eq).
Proof. by split. Qed.
Lemma composes_lex {A : Type} (f g : A → A → comparison) :
  composes f → composes g → composes (fun a b => match f a b with Eq => g a b | c => c end).
Proof.
  intros F G. split; intros a b c.
  - destruct (f a b) eqn:E; try done. intros H. rewrite (co_left _ F _ _ c E). by rewrite (co_left _ G _ _ c H).
  - destruct (f b c) eqn:E; try done. intros H. rewrite (co_right _ F a _ _ E). by rewrite (co_right _ G a _ _ H).
  - destruct (f a b) eqn:E1, (f b c) eqn:E2; try done; intros H1 H2.
    + rewrite (co_left _ F _ _ c E1), E2. by eapply (co_trans _ G).
    + by rewrite (co_left _ F _ _ c E1), E2.
    + by rewrite (co_right _ F a _ _ E2), E1.
    + by rewrite (co_trans _ F _ _ _ E1 E2).
Qed.

Lemma sweep_composes f : composes (sweep_compare f).
Proof.
  unfold sweep_compare. apply composes_lex; [apply (composes_Z cu_At)|]. apply composes_lex.
  - destruct (rf_numeric f); [apply (composes_Z (fun c => number_of (cu_Key c)))|apply (composes_string cu_Key)].
  - destruct (rf_secondKey f); [apply (composes_string cu_Extra)|apply composes_eq].
Qed.
Lemma sweep_compare_refl f c : sweep_compare f c c = Eq.
Proof. unfold sweep_compare. rewrite !Z.compare_refl, !str_compare_refl. by destruct (rf_numeric f), (rf_secondKey f). Qed.
Lemma pair_composes : composes pair_compare.
Proof. unfold pair_compare. apply composes_lex; [apply (composes_string fst)|apply (composes_string snd)]. Qed.
Lemma pair_compare_refl k : pair_compare k k = Eq.
Proof. unfold pair_compare. by rewrite !str_compare_refl. Qed.

(** ** Counting *)

Lemma filter_length_le {A : Type} (P Q : A → Prop) `{!∀ x, Decision (P x), !∀ x, Decision (Q x)} (l : list A) :
  (∀ x, Q x → P x) → (length (filter Q l) <= length (filter P l))%nat.
Proof.
  intros Hi. induction l as [|a l IH]; [done|]. rewrite !filter_cons. destruct (decide (Q a)) as [HQ|HQ].
  - rewrite decide_True by auto. cbn. lia.
  - destruct (decide (P a)); cbn; lia.
Qed.
Lemma filter_length_lt {A : Type} (P Q : A → Prop) `{!∀ x, Decision (P x), !∀ x, Decision (Q x)} (l : list A) a :
  (∀ x, Q x → P x) → a ∈ l → P a → ¬ Q a → (length (filter Q l) < length (filter P l))%nat.
Proof.
  intros Hi Ha HP HQ. induction l as [|b l IH]; [by apply not_elem_of_nil in Ha|]. pose proof (filter_length_le P Q l Hi) as Hle. rewrite !filter_cons.
  apply elem_of_cons in Ha as [<-|Ha]; [rewrite decide_False, decide_True by done; cbn; lia|]. specialize (IH Ha).
  destruct (decide (Q b)); [rewrite decide_True by auto; cbn; lia|]. destruct (decide (P b)); cbn; lia.
Qed.

Lemma filter_submseteq {A : Type} (P : A → Prop) `{!∀ x, Decision (P x)} (l k : list A) : l ⊆+ k → filter P l ⊆+ filter P k.
Proof. intros [m Hm]%submseteq_Permutation. rewrite Hm, (list.filter_app P). by apply submseteq_inserts_r. Qed.

Lemma some_elem {A : Type} (l : list A) : 0 < Z.of_nat (length l) → ∃ a, a ∈ l.
Proof. destruct l as [|a l]; cbn; [lia|]. exists a. by left. Qed.

Lemma sum_list_le {A : Type} (f g : A → nat) (l : list A) : (∀ a, a ∈ l → (f a <= g a)%nat) → (sum_list_with f l <= sum_list_with g l)%nat.
Proof. induction l as [|a l IH]; intros H; cbn; [done|]. pose proof (H a ltac:(left)). specialize (IH ltac:(intros; apply H; by right)). lia. Qed.
Lemma sum_list_lt {A : Type} (f g : A → nat) (l : list A) a :
  (∀ a, a ∈ l → (f a <= g a)%nat) → a ∈ l → (f a < g a)%nat → (sum_list_with f l < sum_list_with g l)%nat.
Proof.
  intros H Ha Hlt. induction l as [|b l IH]; [by apply not_elem_of_nil in Ha|]. cbn. pose proof (H b ltac:(left)).
  pose proof (sum_list_le f g l ltac:(intros; apply H; by right)). apply elem_of_cons in Ha as [<-|Ha]; [lia|].
  specialize (IH ltac:(intros; apply H; by right) Ha). lia.
Qed.

(** ** Sweeping a family *)

(** The rows the pass still has ahead of it. *)
Definition finished (pass : string) (stored : option retentionCursor) : bool :=
  match stored with Some c => (cu_Pass c ≟ pass) && cu_Done c | None => false end.
Definition left_rows (f : retentionFamily) (pass : string) (cutoff : Z) (d : db) : nat :=
  let stored := db_cursors d !! cursor_name f in
  if finished pass stored then 0%nat
  else length (filter (fun c => cu_At c < cutoff ∧ sweep_compare f (resumed stored pass) c = Lt) (rf_rows f d)).

Definition fewer (f : retentionFamily) (d d' : db) : Prop := rf_rows f d' ⊆+ rf_rows f d.
#[global] Instance fewer_preorder f : PreOrder (fewer f).
Proof. split; [intros d; unfold fewer; reflexivity|]. intros a b c Hab Hbc. unfold fewer in *. by etrans. Qed.

Lemma left_rows_fewer f pass cutoff d d' : fewer f d d' → db_cursors d' !! cursor_name f = db_cursors d !! cursor_name f →
  (left_rows f pass cutoff d' <= left_rows f pass cutoff d)%nat.
Proof.
  intros Hf Hc. unfold left_rows. rewrite Hc. destruct (finished pass _); [done|]. by apply submseteq_length, filter_submseteq.
Qed.

(** What a sweep does. *)
Lemma scan_inv f pass cutoff limit d n d' :
  scanRetentionFamily f pass cutoff limit d = Ok (n, d') →
  let stored := db_cursors d !! cursor_name f in
  let cursor := resumed stored pass in
  let page := take limit (remaining f cutoff cursor d) in
  finished pass stored = true ∧ n = 0 ∧ d' = d ∨
  finished pass stored = false ∧ n = Z.of_nat (length page) ∧
    (page = [] ∧ d' = d <| db_cursors := <[cursor_name f := mkCursor pass (cu_At cursor) (cu_Key cursor) (cu_Extra cursor) true]> (db_cursors d) |> ∨
     ∃ c d1 u, list.last page = Some c ∧ rf_delete f page d = Ok (u, d1) ∧
       d' = d1 <| db_cursors := <[cursor_name f := mkCursor pass (cu_At c) (cu_Key c) (cu_Extra c) false]> (db_cursors d1) |>).
Proof.
  unfold scanRetentionFamily. intros H. tx_inv. cbv zeta. fold (finished pass (db_cursors d !! cursor_name f)) in H.
  destruct (finished pass _); [tx_inv; by left|]. tx_inv. right. split; [done|]. split; [done|].
  destruct (list.last _) as [c|] eqn:E; tx_inv.
  - right. eexists c, _, _. split; [done|]. split; [eassumption|]. done.
  - left. split; [by apply last_None|done].
Qed.

Lemma resumed_moved pass at_ key extra : resumed (Some (mkCursor pass at_ key extra false)) pass = mkCursor pass at_ key extra false.
Proof. unfold resumed. cbn. by rewrite bool_decide_eq_true_2. Qed.
Lemma resumed_same pass c : cu_Pass c = pass → resumed (Some c) pass = mkCursor pass (cu_At c) (cu_Key c) (cu_Extra c) (cu_Done c).
Proof. intros Hp. unfold resumed. cbn. by rewrite bool_decide_eq_true_2. Qed.
Definition same_cursors (d d' : db) : Prop := db_cursors d' = db_cursors d.
#[global] Instance same_cursors_preorder : PreOrder same_cursors.
Proof. split; [by intros d|]. intros a b c Hab Hbc. unfold same_cursors in *. congruence. Qed.

(** The rows of a family are not the cursors, and deleting among them adds none. *)
Record sweepable (f : retentionFamily) : Prop := {
  sw_rows d m : rf_rows f (d <| db_cursors := m |>) = rf_rows f d;
  sw_fewer l : respects (fewer f) (rf_delete f l);
  sw_cursors l : respects same_cursors (rf_delete f l) }.

Lemma left_rows_set f pass cutoff d c : sweepable f →
  left_rows f pass cutoff (d <| db_cursors := <[cursor_name f := c]> (db_cursors d) |>) =
  if finished pass (Some c) then 0%nat else length (filter (fun x => cu_At x < cutoff ∧ sweep_compare f (resumed (Some c) pass) x = Lt) (rf_rows f d)).
Proof.
  intros [Hr _ _]. unfold left_rows. rewrite Hr. change (db_cursors (d <| db_cursors := ?m |>)) with m. by rewrite lookup_insert_eq.
Qed.

(** A page is behind the cursor it moves. *)
Lemma scan_left f pass cutoff limit d n d' : sweepable f → scanRetentionFamily f pass cutoff limit d = Ok (n, d') →
  0 <= n ∧ (left_rows f pass cutoff d' <= left_rows f pass cutoff d)%nat ∧ (0 < n → (left_rows f pass cutoff d' < left_rows f pass cutoff d)%nat).
Proof.
  intros Hf H. apply scan_inv in H as [(_ & -> & ->)|(Hfin & -> & H)]; [split_and!; (done || lia)|]. split; [lia|].
  destruct H as [[Hp ->]|(c & d1 & u & Hlast & Hdel & ->)]; rewrite left_rows_set by done; cbn [finished cu_Pass cu_Done]; rewrite bool_decide_eq_true_2 by done.
  - rewrite Hp. cbn. lia.
  - assert (Hc : c ∈ take limit (remaining f cutoff (resumed (db_cursors d !! cursor_name f) pass) d)) by (by apply last_Some_elem_of).
    apply remaining_old in Hc as (Hrow & Hat & Hlt). cbn [andb]. rewrite resumed_moved.
    match goal with |- (?x <= _)%nat ∧ _ => assert (x < left_rows f pass cutoff d)%nat; [|lia] end. unfold left_rows. rewrite Hfin.
    eapply Nat.le_lt_trans; [apply submseteq_length, filter_submseteq, (sw_fewer _ Hf _ _ _ _ Hdel)|].
    eapply (filter_length_lt _ _ _ c); [|exact Hrow|done|].
    + intros x [Hx Hlt']. split; [done|]. by eapply (co_trans _ (sweep_composes f)).
    + intros [_ Heq]. change (sweep_compare f c c = Lt) in Heq. by rewrite sweep_compare_refl in Heq.
Qed.

(** ** The families *)

(** What deleting among the families leaves: fewer rows of each, and the other
    tables of a pass untouched. *)
Record swept (d d' : db) : Prop := {
  sp_events : db_events d' ⊆ db_events d; sp_observations : db_observations d' ⊆ db_observations d; sp_watches : db_watches d' ⊆ db_watches d;
  sp_revisions : db_revisions d' ⊆ db_revisions d; sp_created : db_created d' ⊆ db_created d;
  sp_cursors : db_cursors d' = db_cursors d; sp_receipts : db_receipts d' = db_receipts d; sp_push : pt_receipts (db_push d') = pt_receipts (db_push d);
  sp_backoff : tb_backoff (db_outbox d') = tb_backoff (db_outbox d); sp_outbox : tb_outbox (db_outbox d') = tb_outbox (db_outbox d);
  sp_streams : tb_streams (db_outbox d') = tb_streams (db_outbox d) }.
#[global] Instance swept_preorder : PreOrder swept.
Proof. split; [by split|]. intros a b c [] []. split; by (etrans; eassumption) || congruence. Qed.

Lemma map_rows_fewer `{Countable K} {A B : Type} (f : K * A → B) (m m' : gmap K A) : m' ⊆ m → f <$> map_to_list m' ⊆+ f <$> map_to_list m.
Proof. intros Hm. by apply fmap_submseteq, map_to_list_submseteq. Qed.
Lemma swept_fewer f d d' : f ∈ retentionFamilies → swept d d' → fewer f d d'.
Proof.
  intros Hf []. unfold retentionFamilies in Hf.
  repeat (apply elem_of_cons in Hf as [->|Hf]); [| | | | |by apply not_elem_of_nil in Hf]; unfold fewer; cbn [rf_rows]; try by apply map_rows_fewer.
  apply fmap_submseteq, filter_submseteq. by apply map_to_list_submseteq.
Qed.
Lemma swept_logs id d d' : swept d d' → fewer (logs_family id) d d'.
Proof. intros []. apply fmap_submseteq, filter_submseteq. by apply map_to_list_submseteq. Qed.

Lemma family_swept f l : f ∈ retentionFamilies → respects swept (rf_delete f l).
Proof.
  intros Hf. unfold retentionFamilies in Hf. repeat (apply elem_of_cons in Hf as [->|Hf]); [| | | | |by apply not_elem_of_nil in Hf].
  3: { cbn [rf_delete watches_family]. unfold delete_watches. respects_tac. apply respects_modify. intros d. split; try done. apply map_filter_subseteq. }
  all: apply respects_modify; intros d; split; try done; apply map_filter_subseteq.
Qed.
Lemma logs_swept id l : respects swept (rf_delete (logs_family id) l).
Proof. apply respects_modify. intros d. split; try done. apply map_filter_subseteq. Qed.

Lemma family_sweepable f : f ∈ retentionFamilies → sweepable f.
Proof.
  intros Hf. split.
  - intros d m. unfold retentionFamilies in Hf. by repeat (apply elem_of_cons in Hf as [->|Hf]); [..|apply not_elem_of_nil in Hf].
  - intros l d a d' H. by eapply swept_fewer, family_swept.
  - intros l d a d' H. by eapply sp_cursors, family_swept.
Qed.
Lemma logs_sweepable id : sweepable (logs_family id).
Proof.
  split; [done| |]; intros l d a d' H; apply logs_swept in H; [by apply swept_logs|apply H].
Qed.

Lemma cursor_name_inj f g : f ∈ retentionFamilies → g ∈ retentionFamilies → cursor_name f = cursor_name g → f = g.
Proof.
  unfold retentionFamilies. intros Hf Hg. repeat (apply elem_of_cons in Hf as [->|Hf]); [..|by apply not_elem_of_nil in Hf];
    repeat (apply elem_of_cons in Hg as [->|Hg]); by (apply not_elem_of_nil in Hg || done).
Qed.

(** ** One retention transaction *)

Section Work.
Context (pass : string) (cutoff : Z).

Definition direct_work (d : db) : nat :=
  length (receipt_entries d) + size (pt_receipts (db_push d)) + size (tb_backoff (db_outbox d)) + length (tb_outbox (db_outbox d)) + length (tb_streams (db_outbox d)).
(** What is left of the pass. *)
Definition work (d : db) : nat := direct_work d + sum_list_with (fun f => left_rows f pass cutoff d) retentionFamilies.

(** The reported progress is paid for. *)
Definition paid (t : tx Z) : Prop := ∀ d n d', t d = Ok (n, d') → 0 <= n ∧ (work d' <= work d)%nat ∧ (0 < n → (work d' < work d)%nat).

Lemma paid_bind (t : tx Z) (k : Z → tx Z) : paid t → (∀ n, 0 <= n → ∃ u : tx Z, paid u ∧ ∀ d, k n d = (m ← u; mret (n + m)) d) → paid (t ≫= k).
Proof.
  intros Ht Hk d n d' H. apply tx_bind_inv in H as (a & d1 & H1 & H2). destruct (Ht _ _ _ H1) as (A1 & A2 & A3).
  destruct (Hk a A1) as (u & Hu & E). rewrite E in H2. apply tx_bind_inv in H2 as (b & d2 & H2 & [= <- <-]). destruct (Hu _ _ _ H2) as (B1 & B2 & B3).
  split_and!; [lia|lia|]. intros Hn. destruct (Z.eq_dec a 0) as [->|]; [specialize (B3 ltac:(lia)); lia|specialize (A3 ltac:(lia)); lia].
Qed.
Lemma paid_zero : paid (mret 0).
Proof. intros d n d' [= <- <-]. split_and!; lia. Qed.

Lemma total_progress_paid {A : Type} (f : A → tx Z) l : (∀ a, a ∈ l → paid (f a)) → paid (total_progress f l).
Proof.
  induction l as [|a l IH]; intros H; cbn [total_progress]; [apply paid_zero|]. apply paid_bind; [apply H; by left|]. intros n _.
  exists (total_progress f l). split; [apply IH; intros; apply H; by right|done].
Qed.

Lemma scan_paid f limit : f ∈ retentionFamilies → paid (scanRetentionFamily f pass cutoff limit).
Proof.
  intros Hf d n d' H. destruct (scan_left f pass cutoff limit d n d' (family_sweepable _ Hf) H) as (A & B & C).
  assert (Hs : swept d (d' <| db_cursors := db_cursors d |>) ∧ ∀ g, g ∈ retentionFamilies → cursor_name g ≠ cursor_name f → db_cursors d' !! cursor_name g = db_cursors d !! cursor_name g).
  { apply scan_inv in H as [(_ & _ & ->)|(_ & _ & [(_ & ->)|(c & d1 & u & _ & Hd & ->)])]; [by split..| |].
    - split; [by split|]. intros g _ Hne. cbn. by rewrite lookup_insert_ne.
    - apply family_swept in Hd; [|done]. split; [destruct Hd; by split|]. intros g _ Hne. cbn. rewrite lookup_insert_ne by done. by rewrite (sp_cursors _ _ Hd). }
  destruct Hs as [Hs Hcur]. assert (Hd : direct_work d' = direct_work d).
  { destruct Hs. unfold direct_work, receipt_entries. cbn in *. congruence. }
  assert (Hle : ∀ g, g ∈ retentionFamilies → (left_rows g pass cutoff d' <= left_rows g pass cutoff d)%nat).
  { intros g Hg. destruct (decide (cursor_name g = cursor_name f)) as [E|Hne]; [by rewrite (cursor_name_inj _ _ Hg Hf E)|].
    apply left_rows_fewer; [|by apply Hcur]. pose proof (swept_fewer g _ _ Hg Hs) as Hw. unfold fewer in *. by rewrite (sw_rows _ (family_sweepable _ Hg)) in Hw. }
  unfold work. rewrite Hd. split_and!; [done| |].
  - pose proof (sum_list_le _ _ _ Hle). lia.
  - intros Hn. pose proof (sum_list_lt _ _ _ f Hle Hf (C Hn)). lia.
Qed.

(** The direct deletions leave the families and their cursors. *)
Lemma direct_paid (t : tx Z) :
  (∀ d n d', t d = Ok (n, d') → 0 <= n ∧ (direct_work d' <= direct_work d)%nat ∧ (0 < n → (direct_work d' < direct_work d)%nat) ∧
    (∀ f, f ∈ retentionFamilies → rf_rows f d' = rf_rows f d) ∧ db_cursors d' = db_cursors d) → paid t.
Proof.
  intros H d n d' E. destruct (H _ _ _ E) as (A & B & C & D & F). split; [done|].
  assert (Hs : sum_list_with (fun f => left_rows f pass cutoff d') retentionFamilies = sum_list_with (fun f => left_rows f pass cutoff d) retentionFamilies).
  { apply Nat.le_antisymm; apply sum_list_le; intros f Hf; unfold left_rows; by rewrite (D f Hf), F. }
  unfold work. rewrite Hs. split; [lia|]. intros Hn. specialize (C Hn). lia.
Qed.
Lemma same_rows d d' : db_events d' = db_events d → db_observations d' = db_observations d → db_watches d' = db_watches d →
  db_revisions d' = db_revisions d → db_created d' = db_created d → ∀ f, f ∈ retentionFamilies → rf_rows f d' = rf_rows f d.
Proof.
  intros E1 E2 E3 E4 E5 f Hf. unfold retentionFamilies in Hf.
  repeat (apply elem_of_cons in Hf as [->|Hf]); [..|by apply not_elem_of_nil in Hf]; cbn; unfold deleted_watches; by rewrite ?E1, ?E2, ?E3, ?E4, ?E5.
Qed.

Lemma elem_of_receipt_entries d i k x : (i, k, x) ∈ receipt_entries d ↔ rows i (db_receipts d) !! k = Some x.
Proof.
  unfold receipt_entries, rows. rewrite list_elem_of_bind. split.
  - intros ([j m] & Hin & Hm%elem_of_map_to_list). apply list_elem_of_fmap in Hin as ([k' y] & E & Hk%elem_of_map_to_list). cbn in *. simplify_eq. by rewrite Hm.
  - destruct (db_receipts d !! i) as [m|] eqn:E; cbn; [|by rewrite lookup_empty]. intros Hk. exists (i, m). split; [|by apply elem_of_map_to_list].
    apply list_elem_of_fmap. exists (k, x). split; [done|]. by apply elem_of_map_to_list.
Qed.
Lemma receipt_entries_NoDup d : NoDup (receipt_entries d).
Proof.
  unfold receipt_entries. apply NoDup_bind; [| |apply NoDup_map_to_list].
  - intros [i m] [j m'] y Hi%elem_of_map_to_list Hj%elem_of_map_to_list ([k x] & -> & _)%list_elem_of_fmap ([k' x'] & E & _)%list_elem_of_fmap.
    cbn in *. injection E as -> _ _. by simplify_eq.
  - intros [i m] _. apply NoDup_fmap; [|apply NoDup_map_to_list]. intros [k x] [k' x']. cbn. by intros [= -> ->].
Qed.

Lemma RetainReceipts_paid now limit : paid (RetainReceipts now limit).
Proof.
  apply direct_paid. intros d n d' H. unfold RetainReceipts in H. tx_inv. set (l := first_rows _ _ _) in *.
  assert (Hsub : ∀ e, e ∈ l → e ∈ receipt_entries d).
  { by intros e [_ ?]%elem_of_first%list_elem_of_filter. }
  set (d' := d <| db_receipts := _ |>).
  assert (Hold : ∀ e, e ∈ receipt_entries d' → e ∈ receipt_entries d ∧ e ∉ l).
  { intros [[i k] x] He%elem_of_receipt_entries. apply rows_drop_all in He as [He Hn]. split; [by apply elem_of_receipt_entries|apply Hn]. }
  assert (Hle : (length (receipt_entries d') <= length (receipt_entries d))%nat).
  { apply submseteq_length, NoDup_submseteq; [apply receipt_entries_NoDup|]. intros e He. by apply Hold. }
  unfold direct_work. change (pt_receipts (db_push d')) with (pt_receipts (db_push d)). change (db_outbox d') with (db_outbox d).
  split_and!; [lia|lia| |by apply same_rows|done]. intros Hn. destruct (some_elem _ Hn) as [e He].
  assert (length (e :: receipt_entries d') <= length (receipt_entries d))%nat; [|cbn in *; lia].
  apply submseteq_length, NoDup_submseteq.
  - apply list.NoDup_cons. split; [|apply receipt_entries_NoDup]. intros [_ Hne]%Hold. by apply Hne.
  - intros x [->|Hx]%elem_of_cons; [by apply Hsub|by apply Hold].
Qed.

Lemma delete_all_size l t t' : delete_all l t = Ok t' → (size (pt_receipts t') <= size (pt_receipts t))%nat ∧
  ((∃ k, head l = Some k ∧ is_Some (pt_receipts t !! k)) → (size (pt_receipts t') < size (pt_receipts t))%nat).
Proof.
  revert t. induction l as [|k l IH]; intros t; cbn [delete_all]; [intros [= <-]; split; [lia|by intros (k & ? & _)]|].
  intros (t1 & H1 & H2)%bind_Ok. apply IH in H2 as [H2 _]. unfold delete_receipt in H1. destruct (pt_receipts t !! k) as [old|] eqn:E.
  - apply bind_Ok in H1 as (s & _ & [= <-]). cbn in H2. pose proof (map_size_delete_Some k (pt_receipts t) (mk_is_Some _ _ E)) as Hs.
    assert (0 < size (pt_receipts t))%nat; [|lia]. destruct (size (pt_receipts t)) eqn:Ez; [|lia]. apply map_size_empty_inv in Ez. by rewrite Ez, lookup_empty in E.
  - injection H1 as <-. split; [done|]. intros (k' & [= <-] & [x Hx]). congruence.
Qed.
Lemma RetainPushes_paid now limit : paid (RetainPushes now limit).
Proof.
  apply direct_paid. intros d n d' H. unfold RetainPushes in H. apply tx_bind_inv in H as (l & d1 & [= <- <-] & H).
  unfold on_push, RetainPush in H. destruct (delete_all _ _) as [t|] eqn:E; [|done]. injection H as <- <-.
  destruct (delete_all_size _ _ _ E) as [Hle Hlt]. unfold direct_work, receipt_entries. cbn. split_and!; [lia|lia| |by apply same_rows|done]. intros Hn.
  destruct Hlt as []; [|lia..]. destruct (expired_push now limit (db_push d)) as [|k l] eqn:El; [cbn in Hn; lia|]. exists k. split; [done|].
  assert (Hk : k ∈ expired_push now limit (db_push d)) by (rewrite El; by left). unfold expired_push in Hk.
  apply list_elem_of_fmap in Hk as ([k' x] & -> & Hk). apply elem_of_first in Hk.
  apply elem_of_map_to_list, map_lookup_filter_Some in Hk as [Hk _]. eauto.
Qed.

Lemma RetainBackoff_paid now limit : paid (RetainBackoff now limit).
Proof.
  apply direct_paid. intros d n d' H. unfold RetainBackoff in H. tx_inv. set (l := take limit _) in *. unfold direct_work, receipt_entries. cbn.
  set (m := filter _ (tb_backoff (db_outbox d))). assert (Hm : m ⊆ tb_backoff (db_outbox d)) by apply map_filter_subseteq.
  pose proof (map_subseteq_size _ _ Hm). split_and!; [lia|lia| |by apply same_rows|done]. intros Hn.
  assert (m ⊂ tb_backoff (db_outbox d)) as Hlt%map_subset_size; [|lia]. split; [done|]. intros Hsub.
  destruct (some_elem _ Hn) as [k Hk]. pose proof Hk as Hk'.
  unfold l, sort_strings in Hk. apply elem_of_first, list_elem_of_fmap in Hk as ([k' t] & -> & [_ Hk%elem_of_map_to_list]%list_elem_of_filter).
  eapply lookup_weaken in Hk; [|exact Hsub]. apply map_lookup_filter_Some in Hk as [_ Hk]. done.
Qed.
Lemma RetainOutbox_paid at_ limit : paid (RetainOutbox at_ limit).
Proof.
  apply direct_paid. intros d n d' H. unfold RetainOutbox in H. tx_inv. set (l := r_id <$> _) in *. unfold direct_work, receipt_entries. cbn.
  pose proof (length_filter (fun r => r_id r ∉ l) (tb_outbox (db_outbox d))). split_and!; [lia|lia| |by apply same_rows|done].
  intros Hn. destruct (some_elem _ Hn) as [k Hk]. pose proof Hk as Hk'. apply list_elem_of_fmap in Hk as (r & -> & [_ Hr]%elem_of_first%list_elem_of_filter).
  pose proof (length_filter_lt (fun r => r_id r ∉ l) _ r Hr ltac:(by intros [])). lia.
Qed.
Lemma RetainStreams_paid limit : paid (RetainStreams limit).
Proof.
  apply direct_paid. intros d n d' H. unfold RetainStreams in H. tx_inv. set (l := (fun s : stream => (st_watch s, st_destination s)) <$> _) in *.
  unfold direct_work, receipt_entries. cbn. pose proof (length_filter (fun s => (st_watch s, st_destination s) ∉ l) (tb_streams (db_outbox d))).
  split_and!; [lia|lia| |by apply same_rows|done]. intros Hn. destruct (some_elem _ Hn) as [k Hk]. pose proof Hk as Hk'.
  apply list_elem_of_fmap in Hk as (r & -> & Hr).
  assert (Hr' : r ∈ tb_streams (db_outbox d)).
  { assert (Hf : r ∈ filter (fun s => orphan_stream (db_outbox d) s = true) (tb_streams (db_outbox d))) by (rewrite <- (take_drop limit); apply elem_of_app; by left).
    by apply list_elem_of_filter in Hf as [_ ?]. }
  pose proof (length_filter_lt (fun s => (st_watch s, st_destination s) ∉ l) _ r Hr' ltac:(by intros [])). lia.
Qed.

Lemma RetainBatch_paid cutoff_time now limit : timestamp cutoff_time = cutoff → paid (RetainBatch cutoff_time now limit pass).
Proof.
  intros Ecut d n d' H. unfold RetainBatch in H. rewrite Ecut in H. apply tx_bind_inv in H as (? & ? & [_ ->]%reject_inv & H). cbv zeta in H.
  repeat match goal with
  | H : (_ ≫= _) _ = Ok _ |- _ => apply tx_bind_inv in H as (? & ? & ? & H)
  end. injection H as <- <-.
  repeat match goal with
  | H : RetainReceipts _ _ _ = Ok _ |- _ => apply RetainReceipts_paid in H as (? & ? & ?)
  | H : RetainPushes _ _ _ = Ok _ |- _ => apply RetainPushes_paid in H as (? & ? & ?)
  | H : RetainBackoff _ _ _ = Ok _ |- _ => apply RetainBackoff_paid in H as (? & ? & ?)
  | H : RetainOutbox _ _ _ = Ok _ |- _ => apply RetainOutbox_paid in H as (? & ? & ?)
  | H : RetainStreams _ _ = Ok _ |- _ => apply RetainStreams_paid in H as (? & ? & ?)
  | H : total_progress _ _ _ = Ok _ |- _ => apply total_progress_paid in H as (? & ? & ?); [|intros; by apply scan_paid]
  end. lia.
Qed.
End Work.

(** ** The loops *)

Lemma until_done_more (t : tx bool) n m d x : (n <= m)%nat → until_done n t d = Some x → until_done m t d = Some x.
Proof.
  revert m d. induction n as [|n IH]; intros m d Hle; [done|]. destruct m as [|m]; [lia|]. cbn [until_done]. destruct (Update t d) as [d' [[|]|]]; try done.
  apply IH. lia.
Qed.

(** Transactions that leave less of a measure end. *)
Lemma until_done_ends (P : db → Prop) (mu : db → nat) (t : tx bool) d :
  (∀ d b d', P d → t d = Ok (b, d') → P d' ∧ (b = false → (mu d' < mu d)%nat)) → P d →
  ∃ x, until_done (S (mu d)) t d = Some x ∧ P (fst x).
Proof.
  intros Ht. remember (mu d) as n eqn:En. revert d En. induction (lt_wf n) as [n _ IH]. intros d -> Hd. cbn [until_done]. unfold Update.
  destruct (t d) as [[[|] d']|e] eqn:E; [eexists; split; [done|by eapply Ht]| |by eexists].
  destruct (Ht _ _ _ Hd E) as [Hd' Hlt]. specialize (Hlt eq_refl). destruct (IH _ Hlt d' eq_refl Hd') as (x & Hx & HP).
  exists x. split; [|done]. eapply until_done_more; [|exact Hx]. lia.
Qed.

(** ** Pages of entities *)

Lemma elem_of_entity_keys d k : k ∈ entity_keys d ↔ is_Some (rows (fst k) (db_entities d) !! snd k).
Proof.
  unfold entity_keys, rows. rewrite list_elem_of_bind. split.
  - intros ([i m] & (key & -> & (x & -> & Hx%elem_of_map_to_list')%list_elem_of_fmap)%list_elem_of_fmap & Hm%elem_of_map_to_list). cbn in *. rewrite Hm. eauto.
  - destruct (db_entities d !! fst k) as [m|] eqn:E; cbn; [|rewrite lookup_empty; by intros []]. intros [s Hk]. exists (fst k, m). split; [|by apply elem_of_map_to_list].
    apply list_elem_of_fmap. exists (snd k). cbn. split; [by destruct k|]. apply list_elem_of_fmap. exists (snd k, s). split; [done|]. by apply elem_of_map_to_list.
Qed.
Lemma entity_keys_NoDup d : NoDup (entity_keys d).
Proof.
  unfold entity_keys. apply NoDup_bind; [| |apply NoDup_map_to_list].
  - intros [i m] [j m'] y Hi%elem_of_map_to_list Hj%elem_of_map_to_list (k & -> & _)%list_elem_of_fmap (k' & E & _)%list_elem_of_fmap.
    cbn in *. injection E as -> _. by simplify_eq.
  - intros [i m] _. apply NoDup_fmap; [|apply NoDup_fst_map_to_list]. by intros k k' [= ->].
Qed.

(** At most the key [k] is new, and the cursor stays. *)
Definition only_key (k : string * string) (d d' : db) : Prop :=
  (∀ x, x ∈ entity_keys d' → x ∈ entity_keys d ∨ x = k) ∧ db_maintenance d' = db_maintenance d.
#[global] Instance only_key_preorder k : PreOrder (only_key k).
Proof.
  split; [intros d; split; [auto|done]|]. intros a b c [A1 A2] [B1 B2]. split; [|congruence]. intros x Hx. destruct (B1 x Hx) as [H|]; [by apply A1|by right].
Qed.
Lemma only_key_same k f : (∀ d, db_entities (f d) = db_entities d ∧ db_maintenance (f d) = db_maintenance d) → respects (only_key k) (modify f).
Proof. intros H. apply respects_modify. intros d. destruct (H d) as [E1 E2]. split; [|done]. intros x. rewrite !elem_of_entity_keys, E1. auto. Qed.

Section Pages.
Context `{L : Libraries}.

Lemma maintainEntity_keys p key s now : respects (only_key (r_ID (mp_record p), key)) (maintainEntity p key s now).
Proof.
  assert (Hev : ∀ id l, respects (only_key (r_ID (mp_record p), key)) (insert_evidence id l)).
  { intros id l. induction l; cbn [insert_evidence]; respects_tac. by apply only_key_same. }
  unfold maintainEntity, AppendEvent, SaveEntity, saveEntityData, syncEntityPins. respects_tac; try (by apply only_key_same); apply respects_modify; intros d; (split; [|done]);
    intros x; rewrite !elem_of_entity_keys; cbn; rewrite ?rows_drop, ?rows_put; destruct (decide _) as [[E1 E2]|]; auto; intros Hx.
  1: by destruct Hx. all: right; destruct x; cbn in *; congruence.
Qed.

Lemma maintain_one_keys now e d a d' : typed d → maintain_one now e d = Ok (a, d') → only_key (fst e) d d'.
Proof.
  intros Ht H. unfold maintain_one in H. apply tx_bind_inv in H as (r & d1 & Hr & H). apply tx_bind_inv in H as (p & d2 & Hp & H).
  unfold GetWatch in Hr. tx_inv. destruct (watch_in _ d) as [r'|] eqn:E; [|done]. tx_inv. destruct (watch_in_row _ _ _ Ht E) as (Hid & _).
  match goal with H : newMaintenancePolicy _ = Ok _ |- _ => unfold newMaintenancePolicy in H; cbv zeta in H; apply bind_Ok in H as (w & _ & [= <-]) end.
  apply maintainEntity_keys in H. cbn in H. rewrite Hid in H. by destruct e as [[i key] s].
Qed.

Definition ahead_of (cursor : string * string) (d : db) : nat := length (filter (fun k => pair_compare cursor k = Lt) (entity_keys d)).

Lemma upcoming_elem cursor n d k : k ∈ take n (upcoming cursor d) → k ∈ entity_keys d ∧ pair_compare cursor k = Lt.
Proof. by intros [? ?]%elem_of_first%list_elem_of_filter. Qed.

(** A page that is not the last is behind the cursor it moves. *)
Lemma maintain_page_shorter now d b d' : typed d → maintain_page now d = Ok (b, d') →
  typed d' ∧ (b = false → (ahead_of (db_maintenance d') d' < ahead_of (db_maintenance d) d)%nat).
Proof.
  intros Ht H. split; [by eapply (maintain_page_steps well_typed)|]. unfold maintain_page in H. apply tx_bind_inv in H as ([es stop] & d1 & Hn & H).
  apply tx_bind_inv in H as (u & d2 & Hfor & H). injection H as <- <-. unfold NextMaintenanceEntities in Hn. tx_inv.
  match goal with H : (es, stop) = _ |- _ => injection H as -> -> end. set (ks := take _ (upcoming _ d)) in *. intros Hb.
  match type of Hfor with for_each _ ?l ?dm = _ => set (d1 := dm) in *; set (es := l) in * end.
  assert (Ht1 : typed d1) by (by eapply (steps_maintenance (R := well_typed))).
  assert (Hes : ∀ e, e ∈ es → fst e ∈ entity_keys d).
  { intros e He. unfold es in He. apply list_elem_of_omap in He as (k & Hk & He). destruct (entities_of _ d !! _) as [s|]; [|done]. injection He as <-. by apply upcoming_elem in Hk as [? _]. }
  assert (Hkeys : (∀ x, x ∈ entity_keys d2 → x ∈ entity_keys d) ∧ db_maintenance d2 = default ("", "") (list.last ks)).
  { pose (P := fun m => typed m ∧ (∀ x, x ∈ entity_keys m → x ∈ entity_keys d) ∧ db_maintenance m = default ("", "") (list.last ks)).
    cut (P d2); [by intros (_ & ?)|]. refine (triple_for_each P (maintain_one now) es _ d1 _ _ _ Hfor); [|done].
    intros e He m a m' (Hm & Hx & Hc) E. destruct (maintain_one_keys _ _ _ _ _ Hm E) as [K1 K2]. split_and!; [|intros k Hk; destruct (K1 k Hk) as [?| ->]; auto|congruence].
    by eapply (maintain_one_steps well_typed). }
  destruct Hkeys as [Hkeys ->]. clearbody d1. destruct ks as [|k0 ks0] eqn:Eks; [done|]. rewrite <- Eks. destruct (list.last ks) as [k|] eqn:Ek; [|by apply last_None in Ek; congruence].
  assert (Hk : k ∈ ks) by (by apply last_Some_elem_of). apply upcoming_elem in Hk as [Hk Hlt]. unfold ahead_of. cbn [default].
  eapply Nat.le_lt_trans; [apply submseteq_length, filter_submseteq, NoDup_submseteq; [apply entity_keys_NoDup|exact Hkeys]|].
  eapply (filter_length_lt _ _ _ k); [|done|done|by rewrite pair_compare_refl]. intros y Hy. by eapply (co_trans _ pair_composes).
Qed.
End Pages.

(** ** A pass *)

Section Pass.
Context `{L : Libraries}.

Lemma pages_end now d : typed d → ∃ n x, until_done n (maintain_page now) d = Some x ∧ typed (fst x).
Proof.
  intros Ht. destruct (until_done_ends typed (fun d => ahead_of (db_maintenance d) d) (maintain_page now) d) as (x & H1 & H2); [|done|eauto].
  intros m b m' Hm H. by eapply maintain_page_shorter.
Qed.

Lemma no_progress_ends (t : tx Z) (mu : db → nat) d :
  respects well_typed t → (∀ d n d', t d = Ok (n, d') → 0 <= n ∧ (0 < n → (mu d' < mu d)%nat)) → typed d →
  ∃ n x, until_done n (no_progress t) d = Some x ∧ typed (fst x).
Proof.
  intros Hw Ht Hd. destruct (until_done_ends typed mu (no_progress t) d) as (x & H1 & H2); [|done|eauto].
  intros m b m' Hm H. unfold no_progress in H. apply tx_bind_inv in H as (n & m1 & H & [= <- <-]). split; [by eapply Hw|].
  destruct (Ht _ _ _ H) as [Hn Hlt]. intros Hz%Z.eqb_neq. apply Hlt. lia.
Qed.

Lemma retention_end cutoff now limit pass d : typed d → ∃ n x, until_done n (no_progress (RetainBatch cutoff now limit pass)) d = Some x ∧ typed (fst x).
Proof.
  apply (no_progress_ends _ (work pass (timestamp cutoff))); [apply RetainBatch_steps; exact _|].
  intros m n m' H. apply (RetainBatch_paid pass _ cutoff now limit eq_refl) in H as (? & _ & ?). done.
Qed.

Lemma logs_end id cutoff limit pass d : typed d → ∃ n x, until_done n (no_progress (RetainLogSummariesBatch id cutoff limit pass)) d = Some x ∧ typed (fst x).
Proof.
  apply (no_progress_ends _ (left_rows (logs_family id) pass (timestamp cutoff))); [apply RetainLogSummariesBatch_steps; exact _|].
  intros m n m' H. unfold RetainLogSummariesBatch in H. apply tx_bind_inv in H as (? & ? & [_ ->]%reject_inv & H).
  apply scan_left in H as (? & _ & ?); [done|apply logs_sweepable].
Qed.

Lemma retain_all_logs_more pass now l n m d x : (n <= m)%nat → retain_all_logs n pass now l d = Some x → retain_all_logs m pass now l d = Some x.
Proof.
  intros Hle. revert d. induction l as [|r l IH]; intros d; cbn [retain_all_logs]; [done|]. destruct (log_retention r) as [retention|]; [|apply IH].
  destruct (until_done n _ d) as [y|] eqn:E; [|done]. rewrite (until_done_more _ _ _ _ _ Hle E). destruct y as [d' [|]]; [apply IH|done].
Qed.
Lemma all_logs_end pass now l d : typed d → ∃ n x, retain_all_logs n pass now l d = Some x ∧ typed (fst x).
Proof.
  revert d. induction l as [|r l IH]; intros d Hd; cbn [retain_all_logs]; [by exists 0%nat, (d, Ok ())|].
  destruct (log_retention r) as [retention|]; [|by apply IH].
  destruct (logs_end (r_ID r) (Add now (- retention)) 64 pass d Hd) as (n & [d1 [u|e]] & H1 & Hd1); [|exists n; rewrite H1; eauto].
  destruct (IH d1 Hd1) as (m & x & H2 & Hx). exists (max n m), x. rewrite (until_done_more _ _ _ _ _ (Nat.le_max_l n m) H1). split; [|done].
  eapply retain_all_logs_more; [|exact H2]. lia.
Qed.

Lemma maintain_more limits pass now n m d x : (n <= m)%nat → maintain n limits pass now d = Some x → maintain m limits pass now d = Some x.
Proof.
  intros Hle. unfold maintain. destruct (until_done n (maintain_page now) d) as [y|] eqn:E1; [|done]. rewrite (until_done_more _ _ _ _ _ Hle E1).
  destruct y as [d1 [|]]; [|done]. destruct (until_done n _ d1) as [y|] eqn:E2; [|done]. rewrite (until_done_more _ _ _ _ _ Hle E2).
  destruct y as [d2 [|]]; [|done]. destruct (View GetWatches d2); [|done]. by apply retain_all_logs_more.
Qed.
Lemma maintain_end limits pass now d : typed d → ∃ n x, maintain n limits pass now d = Some x ∧ typed (fst x).
Proof.
  intros Hd. unfold maintain. destruct (pages_end now d Hd) as (n1 & [d1 [u1|e1]] & H1 & Hd1); [|exists n1; rewrite H1; eauto].
  destruct (retention_end (Add now (- g_Retention limits)) now 64 pass d1 Hd1) as (n2 & [d2 [u2|e2]] & H2 & Hd2).
  2: { exists (max n1 n2). rewrite (until_done_more _ _ _ _ _ (Nat.le_max_l n1 n2) H1), (until_done_more _ _ _ _ _ (Nat.le_max_r n1 n2) H2). eauto. }
  destruct (View GetWatches d2) as [records|e] eqn:Ev.
  - destruct (all_logs_end pass now records d2 Hd2) as (n3 & x & H3 & Hx). exists (max (max n1 n2) n3), x.
    rewrite (until_done_more _ n1 (max (max n1 n2) n3) _ _ ltac:(lia) H1), (until_done_more _ n2 (max (max n1 n2) n3) _ _ ltac:(lia) H2), Ev. split; [|done]. eapply retain_all_logs_more; [|exact H3]. lia.
  - exists (max n1 n2). rewrite (until_done_more _ _ _ _ _ (Nat.le_max_l n1 n2) H1), (until_done_more _ _ _ _ _ (Nat.le_max_r n1 n2) H2), Ev. eauto.
Qed.

(** C21: A maintenance pass ends.  Whatever the runtime did before, from empty
    tables, the loops of [App.maintain] - pages of entities until one is empty,
    retention transactions until one makes no progress, then the log summaries
    of each watch likewise - finish after finitely many transactions, with a
    result or an error, and leave well-formed tables: a page or batch that
    reports progress removes rows or moves its cursor past rows that stay. *)
Theorem maintain_returns limits jitter storage range instance approved pass now l :
  let d := runtime_run limits jitter storage range instance approved empty_db l in
  ∃ n x, typed (fst x) ∧ ∀ m, (n <= m)%nat → maintain m limits pass now d = Some x.
Proof.
  intros d. destruct (maintain_end limits pass now d) as (n & x & Hx & Ht); [apply run_typed, empty_typed|].
  exists n, x. split; [done|]. intros m Hm. by eapply maintain_more.
Qed.
End Pass.
