(* ===== verification/RetentionExact.v ===== *)
(** * What a retention pass removes

    It keeps every event that is recent, that an entity still refers to or that
    an undelivered intent announces, with its evidence; and it removes the old
    events nothing referred to when it started.  A deleted watch to which a
    transfer still refers makes the whole pass fail. *)
From S2P Require Import Prelude GoText GoTime GoJson Watch Plan Evaluator RecordJson Outbox PushReceipts Records Access Render Acceptance Lifecycle Maintenance Apply Runtime.
From S2P Require Import OutboxFacts OutboxLinks TxLogic RuntimeSteps Integrity RetentionFacts.

(** ** Row numbers *)

Lemma ParseInt_Itoa n : 0 <= n <= max_int64 → ParseInt (Itoa n) = Some n.
Proof.
  intros Hn. unfold Itoa. rewrite (proj2 (Z.ltb_ge n 0)) by lia. destruct (format_nat_spec n) as (Hv & Hd & Hne); [lia|].
  destruct (format_nat n) as [|c r] eqn:E; [done|]. cbn [ParseInt]. assert (Hc : is_digit c = true) by (cbn in Hd; by apply andb_true_iff in Hd as [? _]).
  rewrite !bool_decide_eq_false_2 by (intros ->; vm_compute in Hc; done). unfold parse_digits. rewrite bool_decide_eq_false_2 by done. rewrite Hd, Hv. cbn [negb orb].
  rewrite (proj2 (Z.leb_le min_int64 n)), (proj2 (Z.leb_le n max_int64)) by (unfold min_int64 in *; lia). done.
Qed.
Lemma number_of_Itoa n : 0 <= n <= max_int64 → number_of (Itoa n) = n.
Proof.
  intros Hn. unfold number_of, key_number. destruct (Itoa n ≟ "") eqn:E; [|by rewrite ParseInt_Itoa].
  apply bool_decide_eq_true_1 in E. pose proof (ParseInt_Itoa n Hn) as H. by rewrite E in H.
Qed.

(** *** The order of a sweep *)

Lemma sweep_compare_antisym f a b : sweep_compare f b a = CompOpp (sweep_compare f a b).
Proof.
  unfold sweep_compare. rewrite (Z.compare_antisym (cu_At a)). destruct (cu_At a ?= cu_At b); cbn; try done. destruct (rf_numeric f).
  - rewrite (Z.compare_antisym (number_of (cu_Key a))). destruct (_ ?= _); cbn; try done. destruct (rf_secondKey f); [apply str_compare_antisym|done].
  - rewrite (str_compare_antisym (cu_Key a)). destruct (str_compare _ _); cbn; try done. destruct (rf_secondKey f); [apply str_compare_antisym|done].
Qed.
#[global] Instance sweep_le_total f : Total (sweep_le f).
Proof. intros a b. unfold sweep_le. rewrite (sweep_compare_antisym f b a). destruct (sweep_compare f b a); cbn; auto. Qed.
#[global] Instance sweep_le_trans f : Transitive (sweep_le f).
Proof.
  intros a b c. unfold sweep_le. destruct (sweep_compare f a b) eqn:E1; [|destruct (sweep_compare f b c) eqn:E2|done]; intros _ H.
  - by rewrite (co_left _ (sweep_composes f) _ _ c E1).
  - by rewrite (co_right _ (sweep_composes f) a _ _ E2), E1.
  - by rewrite (co_trans _ (sweep_composes f) _ _ _ E1 E2).
  - done.
Qed.

#[global] Instance retentionCursor_eq_dec : EqDecision retentionCursor.
Proof. solve_decision. Defined.

(** What a page leaves comes after its last row. *)
Lemma after_page f cutoff cursor d n c x :
  list.last (take n (remaining f cutoff cursor d)) = Some c → x ∈ remaining f cutoff cursor d → x ∉ take n (remaining f cutoff cursor d) → sweep_le f c x.
Proof.
  intros Hc%last_Some_elem_of Hx Hn. pose proof (StronglySorted_merge_sort (sweep_le f) (filter (fun c => cu_At c < cutoff ∧ sweep_compare f cursor c = Lt) (rf_rows f d))) as Hs.
  fold (remaining f cutoff cursor d) in Hs. rewrite <- (take_drop n (remaining _ _ _ _)) in Hs, Hx. apply elem_of_app in Hx as [?|Hx]; [done|]. by eapply StronglySorted_app_1_elem_of.
Qed.
Lemma remaining_elem f cutoff cursor d x : x ∈ rf_rows f d → cu_At x < cutoff → sweep_compare f cursor x = Lt → x ∈ remaining f cutoff cursor d.
Proof. intros H1 H2 H3. unfold remaining. rewrite (merge_sort_Permutation (sweep_le f)). by apply list_elem_of_filter. Qed.

(** ** Events that stay *)

Section Kept.
Context `{L : Libraries} (cutoff : Z) (id : string) (y : event_row) (checkpoint : option Checkpoint) (cited : gset Z) (before : gmap Z observation_row).

(** Recent, referred to by an entity, or announced by an intent not yet settled. *)
Definition held (d : db) : Prop :=
  cutoff <= timestamp (ev_At (y_body y)) ∨ pinned "event" id d = true ∨ ∃ r, r ∈ tb_outbox (db_outbox d) ∧ r_event r = id ∧ is_live r = true.
Definition kept (d : db) : Prop :=
  typed d ∧ db_events d !! id = Some y ∧ held d ∧ db_replays d !! id = checkpoint ∧
  NoDup (r_id <$> tb_outbox (db_outbox d)) ∧
  ∀ n, n ∈ cited → (id, n) ∈ db_evidence d ∧ db_observations d !! n = before !! n.

(** Steps that leave what holds the event. *)
Definition undisturbed (d d' : db) : Prop :=
  db_events d' = db_events d ∧ db_replays d' = db_replays d ∧ db_evidence d' = db_evidence d ∧ db_pins d' = db_pins d ∧
  (∀ n, (∃ e, (e, n) ∈ db_evidence d) → db_observations d' !! n = db_observations d !! n) ∧
  (NoDup (r_id <$> tb_outbox (db_outbox d)) → NoDup (r_id <$> tb_outbox (db_outbox d')) ∧
   ∀ r, r ∈ tb_outbox (db_outbox d) → is_live r = true → r ∈ tb_outbox (db_outbox d')).
#[global] Instance undisturbed_preorder : PreOrder undisturbed.
Proof.
  split; [by intros d|]. intros a b c (A1 & A2 & A3 & A4 & A5 & A6) (B1 & B2 & B3 & B4 & B5 & B6). split_and!; try congruence.
  - intros n Hn. rewrite B5; [by apply A5|]. by rewrite A3.
  - intros [Hn H]%A6. apply B6 in Hn as [Hn' H']. auto.
Qed.
Lemma undisturbed_kept {A : Type} (t : tx A) : respects undisturbed t → respects well_typed t → preserves kept t.
Proof.
  intros H1 H2 d a d' (Ht & Hy & Hh & Hr & Hn & Hc) E. destruct (H1 _ _ _ E) as (E1 & E2 & E3 & E4 & E5 & E6). destruct (E6 Hn) as [Hn' E7]. split; [by eapply H2|].
  rewrite E1, E2, E3. split_and!; try done.
  - destruct Hh as [?|[Hp|(r & Hr1 & Hr2 & Hr3)]]; [by left|right; left|right; right; eauto]. unfold pinned in *. by rewrite E4.
  - intros n Hin. destruct (Hc n Hin) as [Hc1 Hc2]. split; [done|]. rewrite E5; eauto.
Qed.
Lemma untouched_undisturbed f :
  (∀ d, db_events (f d) = db_events d ∧ db_replays (f d) = db_replays d ∧ db_evidence (f d) = db_evidence d ∧ db_pins (f d) = db_pins d ∧
        db_observations (f d) = db_observations d ∧ tb_outbox (db_outbox (f d)) = tb_outbox (db_outbox d)) → respects undisturbed (modify f).
Proof. intros H. apply respects_modify. intros d. destruct (H d) as (E1 & E2 & E3 & E4 & E5 & E6). split_and!; try done; intros; by rewrite ?E5, ?E6. Qed.

Lemma RetainOutbox_undisturbed at_ limit : respects undisturbed (RetainOutbox at_ limit).
Proof.
  intros d n d' H. unfold RetainOutbox in H. tx_inv. set (l := r_id <$> first_rows _ _ _). split_and!; try done. intros Hn. cbn. split.
  - by apply NoDup_keys_filter.
  - intros r Hr Hl. apply list_elem_of_filter. split; [|done]. intros (r' & E & Hr')%list_elem_of_fmap. apply elem_of_first, list_elem_of_filter in Hr' as [[_ Hl'] Hr'].
    assert (r = r') as ->; [|congruence]. by apply (NoDup_fmap_inj r_id _ _ _ Hn).
Qed.

Lemma cited_spec n d : Maintenance.cited n d = true ↔ ∃ e, (e, n) ∈ db_evidence d.
Proof.
  unfold Maintenance.cited. rewrite bool_decide_eq_true. split; [intros ([e m] & Hin & <-); by exists e|intros [e He]; by exists (e, n)].
Qed.

(** The families other than the events. *)
Lemma other_undisturbed f l : f ∈ retentionFamilies → rf_name f ≠ "events" → respects undisturbed (rf_delete f l).
Proof.
  intros Hf Hn. unfold retentionFamilies in Hf. repeat (apply elem_of_cons in Hf as [->|Hf]); [done| | | | |by apply not_elem_of_nil in Hf].
  - apply respects_modify. intros d. split_and!; try done. intros n [e He]. cbn. unfold delete_observations. cbn.
    destruct (db_observations d !! n) as [b|] eqn:E; [|by apply map_lookup_filter_None; left]. apply map_lookup_filter_Some. split; [done|]. cbn.
    unfold removable_observation. rewrite (proj2 (cited_spec n d)) by eauto. by rewrite andb_false_r.
  - cbn [rf_delete watches_family]. unfold delete_watches. respects_tac. by apply untouched_undisturbed.
  - by apply untouched_undisturbed.
  - by apply untouched_undisturbed.
Qed.

(** The events that are held are not among those deleted. *)
Lemma events_kept pass limit : preserves kept (scanRetentionFamily events_family pass cutoff limit).
Proof.
  intros d n d' (Ht & Hy & Hh & Hr & Hnd & Hc) H. assert (Hin : events_family ∈ retentionFamilies) by left.
  assert (Ht' : typed d') by (eapply (scanRetentionFamily_steps well_typed (fun d m => retained_cursors d m)); [|exact H|done]; intros l; by apply retained_family).
  unfold kept. split; [done|]. apply scan_inv in H as [(_ & _ & ->)|(_ & _ & [(_ & ->)|(c & d1 & u & _ & Hd & ->)])]; [by split_and!..|].
  set (page := take limit _) in *. cbn [rf_delete events_family] in Hd. apply modify_inv in Hd as ->. set (gone := filter _ (db_events d)) in *.
  assert (Hid : id ∉ dom gone).
  { intros [y' [Hy' Hg]%map_lookup_filter_Some]%elem_of_dom. rewrite Hy in Hy'. injection Hy' as <-. cbn in Hg. apply andb_true_iff in Hg as [Hk Hg].
    unfold removable_event in Hg. apply andb_true_iff in Hg as [Hq%negb_true_iff Hp%negb_true_iff]. destruct Hh as [Hold|[?|(r & Hr1 & Hr2 & _)]]; [|congruence|].
    - unfold key_in in Hk. apply bool_decide_eq_true_1, list_elem_of_fmap in Hk as (x & Ex & Hx). apply remaining_old in Hx as (Hx & Hat & _).
      apply list_elem_of_fmap in Hx as ([i z] & -> & Hz%elem_of_map_to_list). cbn in *. apply Itoa_inj in Ex. rewrite (ty_sequences _ Ht _ _ _ _ Hy Hz Ex) in Hy.
      rewrite Hy in Hz. injection Hz as <-. lia.
    - unfold queued in Hq. pose proof (existsb_none _ _ Hq _ Hr1) as Hb. cbn in Hb. apply bool_decide_eq_false_1 in Hb. done. }
  cbn. split_and!; [by apply map_lookup_filter_Some|exact Hh| |done|].
  - destruct checkpoint as [p|]; [by apply map_lookup_filter_Some|by apply map_lookup_filter_None; left].
  - intros m Hm. destruct (Hc m Hm) as [Hc1 Hc2]. split; [by apply elem_of_filter|done].
Qed.

Lemma scan_kept f pass limit : f ∈ retentionFamilies → preserves kept (scanRetentionFamily f pass cutoff limit).
Proof.
  intros Hf. destruct (decide (rf_name f = "events")) as [Hn|Hn].
  - assert (f = events_family) as ->; [|by apply events_kept]. unfold retentionFamilies in Hf.
    repeat (apply elem_of_cons in Hf as [->|Hf]; [done|]). by apply not_elem_of_nil in Hf.
  - apply undisturbed_kept; apply scanRetentionFamily_steps; try exact _; try (intros; by apply other_undisturbed); [done|intros; apply retained_cursors|intros; by apply retained_family].
Qed.

Lemma total_progress_preserves {A : Type} (P : db → Prop) (f : A → tx Z) l : (∀ a, a ∈ l → preserves P (f a)) → preserves P (total_progress f l).
Proof.
  induction l as [|a l IH]; intros H; cbn [total_progress]; [by apply triple_ret|].
  eapply triple_bind; [apply H; by left|]. intros ?. eapply triple_bind; [apply IH; intros; apply H; by right|]. intros ?. by apply triple_ret.
Qed.

Lemma RetainBatch_kept at_ now limit pass : timestamp at_ = cutoff → preserves kept (RetainBatch at_ now limit pass).
Proof.
  intros Ecut. unfold RetainBatch. rewrite Ecut. eapply (triple_bind _ _ _ (fun _ => kept)); [apply triple_reject; auto|]. intros ?. cbv zeta.
  eapply triple_bind; [apply undisturbed_kept; [unfold RetainReceipts; respects_tac; by apply untouched_undisturbed|apply retained_receipts]|]. intros ?.
  eapply triple_bind; [apply undisturbed_kept; [apply RetainPushes_steps; [exact _|intros d t _; repeat split; auto]|apply retained_pushes]|]. intros ?.
  eapply triple_bind; [apply undisturbed_kept; [unfold RetainBackoff; respects_tac; by apply untouched_undisturbed|apply retained_backoff]|]. intros ?.
  eapply triple_bind; [apply undisturbed_kept; [apply RetainOutbox_undisturbed|apply retained_intents]|]. intros ?.
  eapply triple_bind; [apply total_progress_preserves; intros f Hf; by apply scan_kept|]. intros ?.
  eapply triple_bind; [apply undisturbed_kept; [unfold RetainStreams; respects_tac; by apply untouched_undisturbed|apply retained_streams]|]. intros ?. by apply triple_ret.
Qed.
End Kept.

Lemma until_done_preserves (P : db → Prop) (t : tx bool) n d d' r : preserves P t → until_done n t d = Some (d', r) → P d → P d'.
Proof.
  intros Ht. revert d. induction n as [|n IH]; intros d; cbn [until_done]; [done|]. unfold Update. destruct (t d) as [[[|] d1]|e] eqn:E.
  - intros [= <- _] Hd. by eapply Ht.
  - intros H Hd. eapply IH; [exact H|]. by eapply Ht.
  - by intros [= <- _].
Qed.
Lemma no_progress_preserves (P : db → Prop) (t : tx Z) : preserves P t → preserves P (no_progress t).
Proof. intros Ht. eapply triple_bind; [exact Ht|]. intros ?. by apply triple_ret. Qed.

(** ** Events that go *)

Section Gone.
Context `{L : Libraries} (pass : string) (cutoff : Z) (id : string) (y : event_row).

Definition place : retentionCursor := position (timestamp (ev_At (y_body y))) (Itoa (y_sequence y)) "".
Abbreviation stored d := (db_cursors d !! cursor_name events_family).

(** Database row numbers. *)
Definition numbered (d : db) : Prop := ∀ i z, db_events d !! i = Some z → 0 <= y_sequence z <= max_int64.

(** While the event is there nothing refers to it, and the sweep has it ahead. *)
Definition awaiting (d : db) : Prop :=
  typed d ∧ numbered d ∧ ∀ z, db_events d !! id = Some z →
    z = y ∧ removable_event d id = true ∧ finished pass (stored d) = false ∧ sweep_compare events_family (resumed (stored d) pass) place = Lt.

(** Steps that add no event and no reference. *)
Definition easing (d d' : db) : Prop :=
  db_events d' ⊆ db_events d ∧ stored d' = stored d ∧ (removable_event d id = true → removable_event d' id = true).
#[global] Instance easing_preorder : PreOrder easing.
Proof. split; [by intros d|]. intros a b c (A1 & A2 & A3) (B1 & B2 & B3). split_and!; [by etrans|congruence|auto]. Qed.
Lemma easing_awaiting {A : Type} (t : tx A) : respects easing t → respects well_typed t → preserves awaiting t.
Proof.
  intros H1 H2 d a d' (Ht & Hn & Hz) E. destruct (H1 _ _ _ E) as (E1 & E2 & E3). split_and!; [by eapply H2| |].
  - intros i z Hi. eapply Hn. by eapply lookup_weaken.
  - intros z Hi. destruct (Hz z) as (A1 & A2 & A3 & A4); [by eapply lookup_weaken|]. rewrite E2. auto.
Qed.

Lemma removable_less d d' :
  db_pins d' = db_pins d → (∀ r, r ∈ tb_outbox (db_outbox d') → r ∈ tb_outbox (db_outbox d)) → removable_event d id = true → removable_event d' id = true.
Proof.
  intros Hp Hr. unfold removable_event, pinned. rewrite Hp. intros [Hq%negb_true_iff ->]%andb_true_iff. rewrite andb_true_r. apply negb_true_iff.
  unfold queued in *. destruct (existsb _ (tb_outbox (db_outbox d'))) eqn:E; [|done]. apply existsb_exists in E as (r & Hin%list_elem_of_In & He).
  pose proof (existsb_none _ _ Hq r (Hr _ Hin)). congruence.
Qed.
Lemma easing_modify f :
  (∀ d, db_events (f d) = db_events d ∧ stored (f d) = stored d ∧ db_pins (f d) = db_pins d ∧
        ∀ r, r ∈ tb_outbox (db_outbox (f d)) → r ∈ tb_outbox (db_outbox d)) → respects easing (modify f).
Proof. intros H. apply respects_modify. intros d. destruct (H d) as (E1 & E2 & E3 & E4). split_and!; [by rewrite E1|done|by apply removable_less]. Qed.

Lemma other_easing f cut limit : f ∈ retentionFamilies → rf_name f ≠ "events" → respects easing (scanRetentionFamily f pass cut limit).
Proof.
  intros Hf Hn d n d' H. apply scan_inv in H as H'. destruct H' as [(_ & _ & ->)|(_ & _ & H')]; [done|].
  assert (Hs : ∀ m c, stored (m <| db_cursors := <[cursor_name f := c]> (db_cursors m) |>) = stored m).
  { intros m c. cbn. apply lookup_insert_ne. intros E. by apply (cursor_name_inj f events_family Hf ltac:(left)) in E as ->. }
  destruct H' as [(_ & ->)|(c & d1 & u & _ & Hd & ->)]; [split_and!; [done|apply Hs|by apply removable_less]|].
  pose proof (family_swept _ _ Hf _ _ _ Hd) as Hw. assert (Hp : db_pins d1 = db_pins d).
  { clear -Hf Hd. unfold retentionFamilies in Hf. repeat (apply elem_of_cons in Hf as [->|Hf]); [| | | | |by apply not_elem_of_nil in Hf].
    3: { cbn [rf_delete watches_family] in Hd. unfold delete_watches in Hd. by tx_inv. } all: cbn [rf_delete] in Hd; apply modify_inv in Hd as ->; done. }
  split_and!; [apply Hw|rewrite Hs; by rewrite (sp_cursors _ _ Hw)|apply removable_less; [done|]; intros r; cbn; by rewrite (sp_outbox _ _ Hw)].
Qed.

Lemma place_row d : db_events d !! id = Some y → place ∈ rf_rows events_family d.
Proof. intros H. apply list_elem_of_fmap. exists (id, y). split; [done|]. by apply elem_of_map_to_list. Qed.

(** The sweep reaches the event, and deletes it. *)
Lemma events_awaiting limit d n d' :
  (0 < limit)%nat → timestamp (ev_At (y_body y)) < cutoff → awaiting d → scanRetentionFamily events_family pass cutoff limit d = Ok (n, d') →
  awaiting d' ∧ (n = 0 → db_events d' !! id = None).
Proof.
  intros Hlimit Hold (Ht & Hn & Hz) H.
  assert (Ht' : typed d') by (eapply (scanRetentionFamily_steps well_typed (fun d m => retained_cursors d m)); [|exact H|done]; intros l; apply retained_family; by left).
  assert (Hsub : db_events d' ⊆ db_events d).
  { apply scan_inv in H as [(_ & _ & ->)|(_ & _ & [(_ & ->)|(c & d1 & u & _ & Hd & ->)])]; [done..|]. apply (family_swept events_family) in Hd as []; [done|left]. }
  assert (Hn' : numbered d') by (intros i z Hi; eapply Hn; by eapply lookup_weaken).
  destruct (db_events d' !! id) as [z|] eqn:Ez; [|split; [|done]; split_and!; [done|done|congruence]].
  destruct (Hz z) as (-> & Hrem & Hfin & Hlt); [by eapply lookup_weaken|]. assert (Hy : db_events d !! id = Some y) by (by eapply lookup_weaken).
  pose proof (remaining_elem events_family cutoff _ d place (place_row d Hy) Hold Hlt) as Hin.
  apply scan_inv in H as [(Hf & _)|(_ & -> & H)]; [congruence|]. set (page := take limit _) in *.
  assert (Hpage : page ≠ []) by (unfold page; destruct limit; [lia|]; destruct (remaining _ _ _ _); [by apply not_elem_of_nil in Hin|done]).
  split; [|intros E; by destruct page]. destruct H as [(Hp & _)|(c & d1 & u & Hlast & Hd & ->)]; [done|].
  destruct (decide (place ∈ page)) as [Hpl|Hpl].
  - exfalso. cbn [rf_delete events_family] in Hd. apply modify_inv in Hd as ->. cbn in Ez. apply map_lookup_filter_Some in Ez as [_ Hg]. cbn in Hg. apply Hg, elem_of_dom.
    exists y. apply map_lookup_filter_Some. split; [done|]. cbn. rewrite Hrem, andb_true_r. apply bool_decide_eq_true_2, list_elem_of_fmap. by exists place.
  - pose proof (after_page _ _ _ _ _ _ _ Hlast Hin Hpl) as Hle.
    assert (Hcp : sweep_compare events_family c place = Lt).
    { unfold sweep_le in Hle. destruct (sweep_compare events_family c place) eqn:E; [|done|done]. exfalso. apply Hpl.
      apply last_Some_elem_of in Hlast as Hc. apply remaining_old in Hc as (Hrow & _ & _). apply list_elem_of_fmap in Hrow as ([i z] & -> & Hi%elem_of_map_to_list).
      assert (place = position (timestamp (ev_At (y_body z))) (Itoa (y_sequence z)) "") as ->; [|by apply last_Some_elem_of].
      unfold sweep_compare, place in E. cbn in E. destruct (_ ?= _) eqn:E1 in E; [|done|done]. rewrite !number_of_Itoa in E by (by eapply Hn).
      destruct (_ ?= _) eqn:E2 in E; try done. apply Z.compare_eq in E1, E2. unfold place. congruence. }
    pose proof (family_swept events_family _ ltac:(left) _ _ _ Hd) as Hw.
    split_and!; [done|done|]. intros z Hz'. change (db_events d1 !! id = Some z) in Hz'. change (db_events d1 !! id = Some y) in Ez. split; [congruence|].
    split; [|cbn [stored]; change (db_cursors (d1 <| db_cursors := ?m |>)) with m; rewrite lookup_insert_eq; cbn [finished cu_Done]; rewrite andb_false_r, resumed_moved; done].
    apply (removable_less d); [|intros r; cbn; by rewrite (sp_outbox _ _ Hw)|done]. cbn [rf_delete events_family] in Hd. apply modify_inv in Hd as ->. done.
Qed.

(** A step after which the event is still awaited, or still gone. *)
Definition calmly (d d' : db) : Prop := (awaiting d → awaiting d') ∧ (db_events d !! id = None → db_events d' !! id = None).
#[global] Instance calmly_preorder : PreOrder calmly.
Proof. split; [by intros d|]. intros a b c [A1 A2] [B1 B2]. split; auto. Qed.
Lemma calmly_easing {A : Type} (t : tx A) : respects easing t → respects well_typed t → respects calmly t.
Proof.
  intros H1 H2 d a d' E. split; [intros Hd; by eapply (easing_awaiting t)|]. destruct (H1 _ _ _ E) as (Hs & _). intros Hn.
  destruct (db_events d' !! id) eqn:E'; [|done]. by rewrite (lookup_weaken _ _ _ _ E' Hs) in Hn.
Qed.

Lemma others_calmly l limit : (∀ f, f ∈ l → f ∈ retentionFamilies ∧ rf_name f ≠ "events") →
  respects calmly (total_progress (fun f => scanRetentionFamily f pass cutoff limit) l).
Proof.
  intros Hl. apply total_progress_steps; [exact _|]. intros f Hf. destruct (Hl f Hf) as [Hf1 Hf2].
  apply calmly_easing; [by apply other_easing|]. apply scanRetentionFamily_steps; [exact _|intros; apply retained_cursors|intros; by apply retained_family].
Qed.
Lemma progress_positive {A : Type} (f : A → tx Z) l d n d' : (∀ a d n d', a ∈ l → f a d = Ok (n, d') → 0 <= n) → total_progress f l d = Ok (n, d') → 0 <= n.
Proof.
  revert d n d'. induction l as [|a l IH]; intros d n d' Hf; cbn [total_progress]; [by intros [= <- _]|].
  intros (m & d1 & H1 & H)%tx_bind_inv. apply tx_bind_inv in H as (k & d2 & H2 & [= <- _]). pose proof (Hf _ _ _ _ ltac:(left) H1).
  pose proof (IH _ _ _ ltac:(intros; eapply Hf; [by right|done]) H2). lia.
Qed.
Lemma direct_calmly now at_ limit :
  respects calmly (RetainReceipts now limit) ∧ respects calmly (RetainPushes at_ limit) ∧ respects calmly (RetainBackoff now limit) ∧
  respects calmly (RetainOutbox now limit) ∧ respects calmly (RetainStreams limit).
Proof.
  split_and!; apply calmly_easing;
    try (apply retained_receipts || apply retained_pushes || apply retained_backoff || apply retained_intents || apply retained_streams).
  - unfold RetainReceipts. respects_tac. by apply easing_modify.
  - apply RetainPushes_steps; [exact _|]. intros d t _. split_and!; [done|done|by apply removable_less].
  - unfold RetainBackoff. respects_tac. by apply easing_modify.
  - unfold RetainOutbox. respects_tac. apply easing_modify. intros d. split_and!; try done. by intros r [_ ?]%list_elem_of_filter.
  - unfold RetainStreams. respects_tac. by apply easing_modify.
Qed.

Lemma RetainBatch_awaiting at_ now limit d n d' :
  timestamp at_ = cutoff → timestamp (ev_At (y_body y)) < cutoff → awaiting d → RetainBatch at_ now limit pass d = Ok (n, d') →
  awaiting d' ∧ (n = 0 → db_events d' !! id = None).
Proof.
  intros Ecut Hold Hd H. unfold RetainBatch in H. rewrite Ecut in H. apply tx_bind_inv in H as (? & ? & [Hlim ->]%reject_inv & H). cbv zeta in H.
  assert (Hlimit : (0 < Z.to_nat limit)%nat) by (unfold invalid_batch in Hlim; repeat (apply orb_false_iff in Hlim as [Hlim _]); apply Z.ltb_ge in Hlim; lia).
  destruct (direct_calmly (timestamp now) now (Z.to_nat limit)) as (C1 & C2 & C3 & _ & C5). destruct (direct_calmly cutoff now (Z.to_nat limit)) as (_ & _ & _ & C4 & _).
  apply tx_bind_inv in H as (n1 & d1 & H1 & H). apply tx_bind_inv in H as (n2 & d2 & H2 & H). apply tx_bind_inv in H as (n3 & d3 & H3 & H).
  apply tx_bind_inv in H as (n4 & d4 & H4 & H). apply tx_bind_inv in H as (n5 & d5 & H5 & H). apply tx_bind_inv in H as (n6 & d6 & H6 & [= <- <-]).
  pose proof (RetainReceipts_paid pass cutoff _ _ _ _ _ H1) as [P1 _]. pose proof (RetainPushes_paid pass cutoff _ _ _ _ _ H2) as [P2 _].
  pose proof (RetainBackoff_paid pass cutoff _ _ _ _ _ H3) as [P3 _]. pose proof (RetainOutbox_paid pass cutoff _ _ _ _ _ H4) as [P4 _].
  pose proof (RetainStreams_paid pass cutoff _ _ _ _ H6) as [P6 _].
  assert (Hd4 : awaiting d4) by (eapply C4, C3, C2, C1; done).
  unfold retentionFamilies in H5. cbn [total_progress] in H5. apply tx_bind_inv in H5 as (m1 & e1 & E1 & H5). apply tx_bind_inv in H5 as (m2 & e2 & E2 & [= <- <-]).
  destruct (events_awaiting _ _ _ _ Hlimit Hold Hd4 E1) as [Hw Hg].
  pose proof (scan_paid pass cutoff events_family _ ltac:(left) _ _ _ E1) as [Q1 _].
  change (total_progress (fun f => scanRetentionFamily f pass cutoff (Z.to_nat limit)) (tail retentionFamilies) e1 = Ok (m2, e2)) in E2.
  assert (Q2 : 0 <= m2).
  { eapply progress_positive; [|exact E2]. intros f d0 k d0' Hf E. by destruct (scan_paid pass cutoff f _ ltac:(by right) _ _ _ E). }
  apply others_calmly in E2 as [F1 F2].
  2: { intros f Hf. split; [by right|]. cbn in Hf. repeat (apply elem_of_cons in Hf as [->|Hf]; [done|]). by apply not_elem_of_nil in Hf. }
  apply C5 in H6 as [G1 G2]. split; [auto|]. intros Hz. apply G2, F2, Hg. lia.
Qed.
End Gone.

(** ** A pass that cannot begin *)

Section Stopped.
Context `{L : Libraries} (pass : string) (cutoff : Z) (limit : nat) (id : string).

(** The cursor of a family when the pass before has reached its end. *)
Definition unstarted (stored : option retentionCursor) : Prop := ∀ c, stored = Some c → cu_Done c = true ∧ cu_Pass c ≠ pass.
Lemma unstarted_finished stored : unstarted stored → finished pass stored = false.
Proof. intros H. destruct stored as [c|]; [|done]. cbn. by rewrite (bool_decide_eq_false_2 _ (proj2 (H c eq_refl))). Qed.
Lemma unstarted_resumed stored : unstarted stored → resumed stored pass = mkCursor pass min_int64 "" "" false.
Proof.
  intros H. unfold resumed. destruct stored as [c|]; cbn; [|by rewrite andb_false_r].
  destruct (H c eq_refl) as [Hd Hp]. by rewrite (bool_decide_eq_false_2 _ Hp), Hd.
Qed.

(** The rows of a family before the cutoff fit in a page, which then holds them all. *)
Definition fits (f : retentionFamily) (d : db) : Prop := Z.of_nat (length (filter (fun c => cu_At c < cutoff) (rf_rows f d))) <= Z.of_nat limit.
Abbreviation page f d := (take limit (remaining f cutoff (mkCursor pass min_int64 "" "" false) d)).
Lemma page_whole f d x : fits f d → x ∈ rf_rows f d → min_int64 < cu_At x < cutoff → x ∈ page f d.
Proof.
  intros Hf Hx [H1 H2]. assert (Hin : x ∈ remaining f cutoff (mkCursor pass min_int64 "" "" false) d).
  { apply remaining_elem; [done..|]. unfold sweep_compare. cbn [cu_At]. by rewrite (proj2 (Z.compare_lt_iff _ _) H1). }
  rewrite take_ge; [done|]. unfold remaining. rewrite (Permutation_length (merge_sort_Permutation (sweep_le f) _)).
  unfold fits in Hf. etrans; [|apply Nat2Z.inj_le, Hf]. apply filter_length_le. by intros ? [? _].
Qed.

Lemma tx_bind_ok {A B : Type} (m : tx A) (k : A → tx B) d a d1 : m d = Ok (a, d1) → (m ≫= k) d = k a d1.
Proof. intros H. unfold mbind, tx_bind. by rewrite H. Qed.
Lemma tx_bind_err {A B : Type} (m : tx A) (k : A → tx B) d e : m d = Err e → (m ≫= k) d = Err e.
Proof. intros H. unfold mbind, tx_bind. by rewrite H. Qed.
Lemma scan_started f d : unstarted (db_cursors d !! cursor_name f) →
  scanRetentionFamily f pass cutoff limit d =
  (cursor ← (match list.last (page f d) with
             | Some c => rf_delete f (page f d) ;; mret (mkCursor pass (cu_At c) (cu_Key c) (cu_Extra c) false)
             | None => mret (mkCursor pass min_int64 "" "" true)
             end : tx retentionCursor);
   modify (fun d => d <| db_cursors := <[cursor_name f := cursor]> (db_cursors d) |>) ;; mret (Z.of_nat (length (page f d)))) d.
Proof.
  intros H. unfold scanRetentionFamily. rewrite (tx_bind_ok (gets _) _ d (db_cursors d !! cursor_name f) d) by done.
  fold (finished pass (db_cursors d !! cursor_name f)). rewrite (unstarted_finished _ H), (unstarted_resumed _ H). cbv zeta. cbn [cu_Key cu_At cu_Extra].
  rewrite (tx_bind_ok (reject _ _) _ d tt d) by (by rewrite andb_false_r). by rewrite (tx_bind_ok (gets _) _ d (page f d) d).
Qed.
Lemma scan_page f d : unstarted (db_cursors d !! cursor_name f) → (∀ l, ∃ d1, rf_delete f l d = Ok (tt, d1)) →
  ∃ n c d1, scanRetentionFamily f pass cutoff limit d = Ok (n, d1 <| db_cursors := <[cursor_name f := c]> (db_cursors d1) |>) ∧
    (page f d = [] ∧ d1 = d ∨ rf_delete f (page f d) d = Ok (tt, d1)).
Proof.
  intros H Hd. rewrite (scan_started f d H). destruct (list.last (page f d)) as [c|] eqn:El.
  - destruct (Hd (page f d)) as [d1 E]. do 3 eexists. split; [|right; exact E]. erewrite tx_bind_ok; [|erewrite tx_bind_ok; [|exact E]; reflexivity]. reflexivity.
  - do 3 eexists. split; [|left; split; [by apply last_None|reflexivity]]. erewrite tx_bind_ok; [|reflexivity]. reflexivity.
Qed.
Lemma scan_fails f d e : unstarted (db_cursors d !! cursor_name f) → page f d ≠ [] → rf_delete f (page f d) d = Err e →
  scanRetentionFamily f pass cutoff limit d = Err e.
Proof.
  intros H Hne Hd. rewrite (scan_started f d H). destruct (list.last (page f d)) as [c|] eqn:El; [|by apply last_None in El].
  apply tx_bind_err. by apply tx_bind_err.
Qed.

(** Nothing but events refers to the deleted watch. *)
Definition deserted (d : db) : Prop := removable_watch (d <| db_events := ∅ |>) id = true.
Lemma deserted_removable d : deserted d → (∀ i y, db_events d !! i = Some y → y_watch y ≠ id) → removable_watch d id = true.
Proof.
  unfold deserted, removable_watch. cbn. rewrite map_to_list_empty. cbn. intros H Hy. repeat (apply andb_true_iff in H as [H ?]).
  repeat (apply andb_true_iff; split); try done. apply negb_true_iff, not_true_iff_false. intros ([i y] & Hi%list_elem_of_In%elem_of_map_to_list & Hb)%existsb_exists.
  by apply bool_decide_eq_true_1, (Hy i y Hi) in Hb.
Qed.

(** Steps that only remove what refers to the watch. *)
Record lighter (d d' : db) : Prop := {
  lg_watches : db_watches d' = db_watches d; lg_handoffs : db_handoffs d' = db_handoffs d; lg_pins : db_pins d' = db_pins d;
  lg_rows r : r ∈ tb_outbox (db_outbox d') → r ∈ tb_outbox (db_outbox d);
  lg_observations : db_observations d' ⊆ db_observations d; lg_entities : db_entities d' = db_entities d; lg_timers : db_timers d' = db_timers d;
  lg_receipts k x : rows id (db_receipts d') !! k = Some x → rows id (db_receipts d) !! k = Some x }.
#[global] Instance lighter_preorder : PreOrder lighter.
Proof. split; [by split|]. intros a b c [] []. split; try congruence; [auto|by etrans|auto]. Qed.
Lemma lighter_deserted d d' : lighter d d' → deserted d → deserted d'.
Proof.
  intros [L1 _ _ L4 L5 L6 L7 L8]. unfold deserted, removable_watch. cbn. rewrite L1, L6, L7. intros H. repeat (apply andb_true_iff in H as [H ?]).
  repeat (apply andb_true_iff; split); try done.
  - apply negb_true_iff, not_true_iff_false. intros ([n b] & Hn%list_elem_of_In%elem_of_map_to_list & Hb)%existsb_exists.
    match goal with H : negb (existsb (fun kv => b_watch _ ≟ id) _) = true |- _ => apply negb_true_iff in H; rewrite (existsb_none _ _ H (n, b)) in Hb; [done|] end.
    apply elem_of_map_to_list. by eapply lookup_weaken.
  - apply negb_true_iff, not_true_iff_false. intros (r & Hr%list_elem_of_In & Hb)%existsb_exists.
    match goal with H : negb (existsb (fun r => r_watch r ≟ id) _) = true |- _ => apply negb_true_iff in H; rewrite (existsb_none _ _ H r) in Hb; [done|] end. auto.
  - apply Nat.eqb_eq, map_size_empty_iff, map_empty. intros k. destruct (rows id (db_receipts d') !! k) as [x|] eqn:E; [|done].
    exfalso. by eapply size_none; [|apply L8].
Qed.

(** A statement that completes, removing only what refers to the watch. *)
Definition clears (t : tx Z) (d : db) : Prop := ∃ n d', t d = Ok (n, d') ∧ lighter d d' ∧ db_events d' = db_events d ∧ db_cursors d' = db_cursors d.
Lemma receipts_clear now d : ∃ n d', RetainReceipts now limit d = Ok (n, d') ∧ lighter d d' ∧ db_events d' = db_events d ∧ db_cursors d' = db_cursors d ∧ db_push d' = db_push d.
Proof.
  do 2 eexists. split; [reflexivity|]. split_and!; try done. split; try done. intros k x. cbn. apply rows_drop_all.
Qed.
Lemma pushes_clear now d : stats_ok (db_push d) → clears (RetainPushes now limit) d.
Proof.
  intros Hs. destruct (delete_all_ok (expired_push now limit (db_push d)) (db_push d) Hs) as (t & E & _). unfold clears, RetainPushes.
  rewrite (tx_bind_ok (gets _) _ d (expired_push now limit (db_push d)) d) by done. unfold on_push, RetainPush. rewrite E. do 2 eexists. split; [reflexivity|].
  by split_and!; [split|..].
Qed.
Lemma backoff_clear now d : clears (RetainBackoff now limit) d.
Proof. do 2 eexists. split; [reflexivity|]. by split_and!; [split|..]. Qed.
Lemma outbox_clear d : clears (RetainOutbox cutoff limit) d.
Proof. do 2 eexists. split; [reflexivity|]. split_and!; try done. split; try done. cbn. by intros r [_ ?]%list_elem_of_filter. Qed.

(** The sweep of the events takes those of the watch, and leaves the rest of it. *)
Lemma events_clear d :
  unstarted (db_cursors d !! cursor_name events_family) → fits events_family d →
  (∀ i y, db_events d !! i = Some y → y_watch y = id → removable_event d i = true ∧ min_int64 < timestamp (ev_At (y_body y)) < cutoff) →
  ∃ n d', scanRetentionFamily events_family pass cutoff limit d = Ok (n, d') ∧ lighter d d' ∧
    (∀ i y, db_events d' !! i = Some y → y_watch y ≠ id) ∧ ∀ f, f ∈ tail retentionFamilies → db_cursors d' !! cursor_name f = db_cursors d !! cursor_name f.
Proof.
  intros Hu Hf Hy. destruct (scan_page events_family d Hu) as (n & c & d1 & E & Hd); [intros l; by eexists|]. exists n. eexists. split; [exact E|].
  assert (Hc : ∀ (m : gmap string retentionCursor) f, f ∈ tail retentionFamilies → <[cursor_name events_family := c]> m !! cursor_name f = m !! cursor_name f).
  { intros m f Hin. apply lookup_insert_ne. cbn in Hin. repeat (apply elem_of_cons in Hin as [->|Hin]; [done|]). by apply not_elem_of_nil in Hin. }
  assert (Hpage : ∀ i y, db_events d !! i = Some y → y_watch y = id → position (timestamp (ev_At (y_body y))) (Itoa (y_sequence y)) "" ∈ page events_family d).
  { intros i y Hi Hw. apply page_whole; [done| |by apply (Hy i y)]. apply list_elem_of_fmap. exists (i, y). split; [done|]. by apply elem_of_map_to_list. }
  destruct Hd as [[Hnil ->]|Hd].
  - split_and!; [by split| |intros f Hin; cbn; by apply Hc]. intros i y Hi Hw. pose proof (Hpage i y Hi Hw) as Hp. rewrite Hnil in Hp. by apply not_elem_of_nil in Hp.
  - cbn [rf_delete events_family] in Hd. apply modify_inv in Hd as ->. split_and!; [by split| |intros f Hin; cbn; by apply Hc].
    intros i y Hi Hw. cbn in Hi. apply map_lookup_filter_Some in Hi as [Hi Hg]. cbn in Hg. apply Hg, elem_of_dom. exists y. apply map_lookup_filter_Some. split; [done|]. cbn.
    rewrite (proj1 (Hy i y Hi Hw)), andb_true_r. apply bool_decide_eq_true_2, list_elem_of_fmap. eexists. split; [|by apply (Hpage i y)]. done.
Qed.
Lemma observations_clear d : unstarted (db_cursors d !! cursor_name observations_family) →
  ∃ n d', scanRetentionFamily observations_family pass cutoff limit d = Ok (n, d') ∧ lighter d d' ∧ db_events d' = db_events d ∧
    db_cursors d' !! cursor_name watches_family = db_cursors d !! cursor_name watches_family.
Proof.
  intros Hu. destruct (scan_page observations_family d Hu) as (n & c & d1 & E & Hd); [intros l; by eexists|]. exists n. eexists. split; [exact E|].
  destruct Hd as [[_ ->]|Hd]; [split_and!; [by split|done|by apply lookup_insert_ne]|].
  cbn [rf_delete observations_family] in Hd. apply modify_inv in Hd as ->. split_and!; [|done|by apply lookup_insert_ne]. split; try done. apply map_filter_subseteq.
Qed.

(** The watch is in the page, and the transfer refers to it. *)
Lemma watches_stopped d w k h :
  unstarted (db_cursors d !! cursor_name watches_family) → fits watches_family d → db_watches d !! id = Some w → min_int64 < w_next w < cutoff →
  removable_watch d id = true → db_handoffs d !! k = Some h → hr_watch h = id → scanRetentionFamily watches_family pass cutoff limit d = Err constraint.
Proof.
  intros Hu Hf Hw Hat Hrem Hh Hid. destruct (removable_watch_inv d id Hrem) as ((w' & Hw' & Hs) & _). rewrite Hw in Hw'. injection Hw' as <-.
  assert (Hin : position (w_next w) id "" ∈ page watches_family d).
  { apply page_whole; [done| |done]. apply list_elem_of_fmap. exists (id, w). split; [done|]. apply list_elem_of_filter. split; [done|]. by apply elem_of_map_to_list. }
  apply scan_fails; [done|intros E; rewrite E in Hin; by apply not_elem_of_nil in Hin|]. cbn [rf_delete watches_family]. unfold delete_watches.
  erewrite tx_bind_ok by reflexivity. erewrite tx_bind_ok by reflexivity. apply tx_bind_err. unfold reject.
  match goal with |- (if ?b then _ else _) _ = _ => replace b with true; [done|] end. symmetry. apply existsb_exists. exists (k, h). split.
  - by apply list_elem_of_In, elem_of_map_to_list.
  - apply bool_decide_eq_true_2. cbn [snd]. rewrite Hid. apply elem_of_list_to_set, list_elem_of_filter. split; [done|]. apply list_elem_of_fmap. by exists (position (w_next w) id "").
Qed.

Lemma RetainBatch_stopped at_ now size d w k h :
  timestamp at_ = cutoff → Z.to_nat size = limit → invalid_batch size pass = false → stats_ok (db_push d) →
  (∀ f, f ∈ retentionFamilies → unstarted (db_cursors d !! cursor_name f)) → fits events_family d → fits watches_family d →
  db_watches d !! id = Some w → min_int64 < w_next w < cutoff → deserted d →
  (∀ i y, db_events d !! i = Some y → y_watch y = id → removable_event d i = true ∧ min_int64 < timestamp (ev_At (y_body y)) < cutoff) →
  db_handoffs d !! k = Some h → hr_watch h = id → RetainBatch at_ now size pass d = Err constraint.
Proof.
  intros Ecut Elim Hv Hs Hu Hfe Hfw Hw Hat Hd Hy Hh Hid. unfold RetainBatch. rewrite Hv, Ecut, Elim. erewrite tx_bind_ok by reflexivity. cbv zeta.
  destruct (receipts_clear (timestamp now) d) as (n1 & d1 & E1 & L1 & V1 & C1 & P1). rewrite (tx_bind_ok _ _ _ _ _ E1).
  destruct (pushes_clear now d1) as (n2 & d2 & E2 & L2 & V2 & C2); [by rewrite P1|]. rewrite (tx_bind_ok _ _ _ _ _ E2).
  destruct (backoff_clear (timestamp now) d2) as (n3 & d3 & E3 & L3 & V3 & C3). rewrite (tx_bind_ok _ _ _ _ _ E3).
  destruct (outbox_clear d3) as (n4 & d4 & E4 & L4 & V4 & C4). rewrite (tx_bind_ok _ _ _ _ _ E4).
  assert (L0 : lighter d d4) by (do 3 (etrans; [eassumption|]); eassumption). assert (V : db_events d4 = db_events d) by congruence.
  assert (C : db_cursors d4 = db_cursors d) by congruence. clear E1 E2 E3 E4. unfold retentionFamilies. cbn [total_progress]. apply tx_bind_err.
  destruct (events_clear d4) as (n5 & d5 & E5 & L5 & V5 & C5).
  { rewrite C. apply Hu. by left. } { unfold fits. cbn. by rewrite V. }
  { intros i y Hi Hiw. rewrite V in Hi. destruct (Hy i y Hi Hiw). split; [|done]. by eapply removable_less; [apply (lg_pins _ _ L0)|apply (lg_rows _ _ L0)|]. }
  rewrite (tx_bind_ok _ _ _ _ _ E5). apply tx_bind_err.
  destruct (observations_clear d5) as (n6 & d6 & E6 & L6 & V6 & C6); [rewrite C5, C by (by left); apply Hu; right; by left|].
  rewrite (tx_bind_ok _ _ _ _ _ E6). apply tx_bind_err. assert (L' : lighter d d6) by (do 2 (etrans; [eassumption|]); eassumption).
  apply tx_bind_err. apply (watches_stopped d6 w k h); [|unfold fits; cbn; unfold deleted_watches; by rewrite (lg_watches _ _ L')|by rewrite (lg_watches _ _ L')|done|
    |by rewrite (lg_handoffs _ _ L')|done].
  - rewrite C6, C5, C by (right; by left). apply Hu. do 2 right. by left.
  - apply deserted_removable; [by eapply lighter_deserted|]. by rewrite V6.
Qed.
End Stopped.

(** ** A pass *)

Section Pass.
Context `{L : Libraries} (limits : Budgets) (jitter : duration) (storage : db → Z) (range : gmap string State → list (string * State)).
Context (instance : string) (approved : list string).
Abbreviation pass_over n cutoff now limit pass d := (until_done n (no_progress (RetainBatch cutoff now limit pass)) d).

(** C19: Retention keeps what is in use.  Whatever the runtime did before, a
    retention pass - completed, failed or cut short - leaves every event that is
    not older than the cutoff, that the state of some entity refers to, or that
    an intent still pending or leased announces; it leaves the event's replay
    checkpoint, its evidence, and the observations that evidence cites. *)
Theorem retention_keeps_used l n cutoff now limit pass d' r id y :
  let d := runtime_run limits jitter storage range instance approved empty_db l in
  pass_over n cutoff now limit pass d = Some (d', r) → db_events d !! id = Some y → held (timestamp cutoff) id y d →
  db_events d' !! id = Some y ∧ db_replays d' !! id = db_replays d !! id ∧
  ∀ k, (id, k) ∈ db_evidence d → (id, k) ∈ db_evidence d' ∧ db_observations d' !! k = db_observations d !! k ∧ is_Some (db_observations d !! k).
Proof.
  intros d H Hy Hh. assert (Ht : typed d) by apply run_typed, empty_typed.
  pose (cited := set_map snd (filter (fun p : string * Z => fst p = id) (db_evidence d)) : gset Z).
  assert (Hk : kept (timestamp cutoff) id y (db_replays d !! id) cited (db_observations d) d').
  { eapply until_done_preserves; [by apply no_progress_preserves, RetainBatch_kept|exact H|]. split_and!; try done.
    - apply sorted_lt_NoDup, (lk_wf _ _ (ty_outbox _ Ht)).
    - intros k ([i k'] & -> & [Hi Hin]%elem_of_filter)%fin_sets.elem_of_map. cbn in *. by subst i. }
  destruct Hk as (_ & A & _ & B & _ & C). split_and!; [done|done|]. intros k Hin. destruct (C k) as [C1 C2].
  { apply fin_sets.elem_of_map. exists (id, k). split; [done|]. by apply elem_of_filter. }
  split_and!; [done|done|]. by apply (ty_evidence _ Ht id).
Qed.

(** C20: Retention removes what is not.  Whatever the runtime did before, when a
    new pass completes (one whose predecessor reached its end), every event older than the cutoff that, when the pass
    began, no intent announced and no entity state referred to is gone, however
    many pages of rows the sweep had to examine.  (Row numbers are those of a
    64-bit key, and instants those of a 64-bit column.) *)
Theorem retention_removes_unused l n cutoff now limit pass d' id y :
  let d := runtime_run limits jitter storage range instance approved empty_db l in
  (∀ c, db_cursors d !! cursor_name events_family = Some c → cu_Pass c ≠ pass ∧ cu_Done c = true) → numbered d →
  pass_over n cutoff now limit pass d = Some (d', Ok tt) → db_events d !! id = Some y → removable_event d id = true →
  min_int64 < timestamp (ev_At (y_body y)) < timestamp cutoff → db_events d' !! id = None.
Proof.
  intros d Hfresh Hn H Hy Hrem Hat. assert (Ht : typed d) by apply run_typed, empty_typed.
  assert (Hw : awaiting pass id y d).
  { split_and!; [done|done|]. intros z Hz. rewrite Hy in Hz. injection Hz as <-. split_and!; try done.
    - destruct (db_cursors d !! cursor_name events_family) as [c|] eqn:E; [|done]. cbn. by rewrite (bool_decide_eq_false_2 _ (proj1 (Hfresh c eq_refl))).
    - assert (E : cu_At (resumed (db_cursors d !! cursor_name events_family) pass) = min_int64).
      { unfold resumed. destruct (db_cursors d !! cursor_name events_family) as [c|]; cbn; [|by rewrite andb_false_r].
        destruct (Hfresh c eq_refl) as [Hp Hdone]. by rewrite (bool_decide_eq_false_2 _ Hp), Hdone. }
      unfold sweep_compare. rewrite E. change (cu_At (place y)) with (timestamp (ev_At (y_body y))). by rewrite (proj2 (Z.compare_lt_iff _ _) (proj1 Hat)). }
  clear Hfresh Hn Hy Hrem Ht. clearbody d. revert d H Hw. induction n as [|n IH]; intros d; cbn [until_done]; [done|]. unfold Update, no_progress.
  destruct ((m ← RetainBatch cutoff now limit pass; mret (m =? 0)) d) as [[b d1]|] eqn:E; [|done]. apply tx_bind_inv in E as (m & d2 & E & [= <- <-]).
  intros H Hw. destruct (RetainBatch_awaiting pass _ id y cutoff now limit d m d2 eq_refl (proj2 Hat) Hw E) as [Hw2 Hgone]. destruct (Z.eqb_spec m 0) as [->|].
  - injection H as <-. by apply Hgone.
  - by apply (IH d2).
Qed.

(** C35: A finished transfer stops retention.  The row of a transfer refers to its
    watch, and the sweep of deleted watches does not ask for it.  On any
    tables, take a deleted watch older than the cutoff to which
    nothing refers but the row of some transfer - canceled ones included - and old
    events that nothing uses.  When a new pass begins (the predecessor's sweeps
    reached their end) and the old events and deleted watches fit in its first
    page, its first transaction fails on the reference: the pass ends there with
    nothing removed, of this watch or of any other.  (Instants are those of a
    64-bit column, and the counters of accepted pushes agree with their table.) *)
Theorem transfer_stops_retention n cutoff now limit pass id w k h d :
  invalid_batch limit pass = false → stats_ok (db_push d) → (∀ f, f ∈ retentionFamilies → unstarted pass (db_cursors d !! cursor_name f)) →
  fits (timestamp cutoff) (Z.to_nat limit) events_family d → fits (timestamp cutoff) (Z.to_nat limit) watches_family d →
  db_watches d !! id = Some w → min_int64 < w_next w < timestamp cutoff → deserted id d →
  (∀ i y, db_events d !! i = Some y → y_watch y = id → removable_event d i = true ∧ min_int64 < timestamp (ev_At (y_body y)) < timestamp cutoff) →
  db_handoffs d !! k = Some h → hr_watch h = id →
  pass_over (S n) cutoff now limit pass d = Some (d, Err constraint).
Proof.
  intros Hv Hs Hu Hfe Hfw Hw Hat Hd Hy Hh Hid. cbn [until_done]. unfold Update, no_progress.
  rewrite (tx_bind_err _ _ _ constraint); [done|]. by apply (RetainBatch_stopped pass (timestamp cutoff) (Z.to_nat limit) id cutoff now limit d w k h).
Qed.
End Pass.
