(* ===== verification/EvidenceRun.v ===== *)
(** * Every recorded event can be replayed

    Over any run of the runtime from empty tables, [App.Evidence] verifies each
    stored event that an evaluation announced. *)
From S2P Require Import Prelude GoText GoTime GoJson Watch Plan PlanSpec Evaluator.
From S2P Require Import RecordJson EvidenceFacts Outbox PushReceipts Records Access Render Acceptance Lifecycle Maintenance Apply Handoff Runtime Evidence TxLogic.
From S2P Require Import RuntimeSteps EvidenceTables EvidenceAccept EvidenceLifecycle EvidenceRetention.

#[local] Arguments event_id : simpl never.
#[local] Arguments Revision : simpl never.

(** Between purges and retention, a definition row stays. *)
#[global] Instance grows_steps `{L : Libraries} : TableSteps grows.
Proof. split; [split; [split|]|..]; intros; try solve [eauto with tx]; try (by apply same_grows); [exact _|apply respects_same_grows, SaveHandoff_same]. Qed.

Lemma grows_agrees record d d' :
  grows d d' → v_definition <$> db_revisions d !! (r_ID record, r_Revision record) = Some (r_Definition record) →
  v_definition <$> db_revisions d' !! (r_ID record, r_Revision record) = Some (r_Definition record).
Proof. intros (_ & H & _) Hd. destruct (db_revisions d !! _) as [v|] eqn:E; [|done]. by rewrite (H _ _ E). Qed.
Lemma stored_agrees record d : v_definition <$> db_revisions d !! (r_ID record, r_Revision record) = Some (r_Definition record) → agrees record d.
Proof. intros H v Hv. rewrite Hv in H. by injection H. Qed.

(** ** The run *)

Section Run.
Context `{L : Libraries} (limits : Budgets) (jitter : duration) (storage : db → Z) (range : gmap string State → list (string * State)).
Context (instance : string) (approved : list string).
Hypothesis Hrange : ∀ m, range m ≡ₚ map_to_list m.

(** What callers supply: compiled watches with well-formed texts, and for a
    batch observations that are copies and a record, however stale, whose
    revision digest does not name a different stored definition. *)
Definition op_ok (d : db) (o : runtime_op) : Prop :=
  match o with
  | apply_bundle _ _ b _ _ _ | prepare_handoff _ _ _ b _ _ _ _ => Forall watch_ok (bu_Watches b)
  | accept_batch record b input _ _ _ _ => agrees record d ∧ batch_ok b input
  | _ => True
  end.

Lemma update_evident {A : Type} (t : tx A) d : preserves (evident None) t → evident None d → evident None (fst (Update t d)).
Proof. intros Ht Hd. unfold Update. destruct (t d) as [[a d']|] eqn:E; [by eapply Ht|done]. Qed.

Lemma timer_batch_ok t : text_ok (tm_Entity t) → batch_ok (timer_batch t) (timer_input t).
Proof.
  intros Ht. split; [|done|].
  - apply Forall_singleton. unfold observation_normal, copy_observation. cbn. done.
  - unfold timer_input. repeat apply text_ok_app; try (by apply ascii_ok); try (apply ascii_ok, ascii_Itoa). apply Revision_ok.
Qed.

Lemma GetWatch_agrees id d r : evident None d → View (GetWatch id) d = Ok r → agrees r d.
Proof.
  intros Hd. unfold View. intros ([r' d'] & H & Hr)%fmap_Ok. cbn in Hr. subst r'.
  destruct (GetWatch_watching _ _ _ _ Hd H) as [[_ Hw] _]. unfold GetWatch in H. tx_inv. destruct (watch_in id d); [|done]. tx_inv.
  intros v Hv. rewrite Hv in Hw. by injection Hw.
Qed.

Lemma run_timers_ok closing now l d :
  Forall (fun t => text_ok (tm_Entity t)) l → evident None d → evident None (fst (run_timers limits jitter storage closing now l d)).
Proof.
  intros Hl. revert d. induction Hl as [|t l Ht _ IH]; intros d Hd; cbn [run_timers]; [done|].
  destruct (View (GetWatch (tm_WatchID t)) d) as [r|] eqn:Er; [|done].
  pose proof (acceptPush_evident limits jitter storage r (timer_batch t) (timer_input t) None closing now now d (timer_batch_ok t Ht)
    (GetWatch_agrees _ _ _ Hd Er) Hd) as He.
  destruct (acceptPush _ _ _ _ _ _ _ _ _ _ d) as [d1 [|e]]; cbn [fst] in *; [auto|]. destruct (e ≟ ErrStale); auto.
Qed.

Lemma due_timers_ok now d l : timers_ok d → View (DueTimers now 100) d = Ok l → Forall (fun t => text_ok (tm_Entity t)) l.
Proof.
  intros Hd. unfold View. intros ([l' d'] & H & ->)%fmap_Ok. unfold DueTimers in H. tx_inv. cbn [fst]. apply Forall_take.
  rewrite (merge_sort_Permutation timer_le). apply list.Forall_forall. intros t [_ Hin]%list_elem_of_filter.
  unfold all_timers in Hin. apply list_elem_of_bind in Hin as ([id m] & Hin & Hm%elem_of_map_to_list). cbn in Hin.
  apply list_elem_of_fmap in Hin as ([k y] & -> & Hk%elem_of_map_to_list). apply (Hd id k y). unfold rows. by rewrite Hm.
Qed.

Lemma PauseForHandoff_evident ctx granted q closing lifetime now checked later d :
  evident None d → evident None (fst (PauseForHandoff limits range instance approved ctx granted q closing lifetime now checked later d)).
Proof.
  intros He. unfold PauseForHandoff. destruct (_ || _); [done|]. cbv zeta.
  match goal with |- context [Update ?t d] => assert (H : evident None (fst (Update t d))); [|by destruct (Update t d) as [? []]] end.
  apply update_evident; [|done]. apply lifecycle_evident; [done|apply pause_begin_same|apply finish_handoff_same].
Qed.

(** One operation, on evident tables. *)
Lemma perform_ok d o : op_ok d o → evident None d → evident None (perform limits jitter storage range instance approved o d).
Proof.
  intros Ho He.
  assert (Hout : ∀ t, evident None (d <| db_outbox := t |>)) by (intros t; by eapply evident_same; [|exact He]).
  destruct o as [ctx q b closing lts now|record b input push closing now later|ctx id q closing lt now|lts now|closing now|now|now pass|id cutoff pass|now lease token|i r next now|id now|ctx granted q b closing lts now later|ctx granted q closing lt now checked later|ctx granted i source closing lt next saved armed at_|ctx granted i lt now|ctx granted i target|ctx granted i key digest now|ctx granted i key digest outcome].
  - cbn [perform]. destruct (apply_effect limits storage instance approved lts noMutation q b ctx closing now d) as [->| ->]; [done|].
    apply update_evident; [by apply apply_tx_evident; [|apply respects_ret; exact _..]|done].
  - destruct Ho as [Hin Hb]. by apply acceptPush_evident.
  - apply update_evident; [by apply lifecycle_evident; [|apply respects_ret; exact _..]|done].
  - apply update_evident; [by apply clockShift_evident|done].
  - cbn [perform]. unfold RunTimers. destruct (View (DueTimers now 100) d) as [l|] eqn:El; [|done].
    apply run_timers_ok; [eapply due_timers_ok; [by eapply ed_timers|exact El]|done].
  - apply update_evident; [apply maintain_page_evident|done].
  - eapply (respects_update stays_evident); [apply RetainBatch_steps; exact _|done].
  - eapply (respects_update stays_evident); [apply RetainLogSummariesBatch_steps; exact _|done].
  - cbn [perform]. destruct (Claim _ _ _ _) as [[t x]|]; [apply Hout|done].
  - cbn [perform]. destruct (Finish _ _ _ _ _) as [t|]; [apply Hout|done].
  - cbn [perform]. destruct (Outbox.Retry _ _ _) as [t|]; [apply Hout|done].
  - cbn [perform]. destruct (prepare_effect limits storage instance approved lts ctx granted q b closing now later d) as [->|(p & _ & ->)]; [done|].
    apply update_evident; [|done]. apply apply_tx_evident; [done|apply prepare_begin_same|apply finish_handoff_same].
  - by apply PauseForHandoff_evident.
  - apply update_evident; [apply ActivateHandoff_evident|done].
  - apply update_evident; [apply CancelPreparedHandoff_evident|done].
  - apply update_evident; [|done]. apply triple_same; [|apply evident_same]. apply ReleaseHandoff_steps; first [exact _|apply SaveHandoff_same].
  - apply update_evident; [|done]. apply triple_same; [|apply evident_same]. apply begin_probe_steps; first [exact _|apply SaveHandoff_same].
  - apply update_evident; [|done]. apply triple_same; [|apply evident_same]. apply finish_probe_steps; first [exact _|apply SaveHandoff_same].
Qed.

(** Operations supplied in the states they meet. *)
Fixpoint run_ok (d : db) (l : list runtime_op) : Prop :=
  match l with [] => True | o :: l => op_ok d o ∧ run_ok (perform limits jitter storage range instance approved o d) l end.

Lemma run_ok_app d l k : run_ok d (l ++ k) ↔ run_ok d l ∧ run_ok (runtime_run limits jitter storage range instance approved d l) k.
Proof. revert d. induction l as [|o l IH]; intros d; cbn [run_ok app]; [naive_solver|]. rewrite IH. unfold runtime_run. cbn [fold_left]. tauto. Qed.

Lemma runtime_run_ok d l : run_ok d l → evident None d → evident None (runtime_run limits jitter storage range instance approved d l).
Proof. revert d. induction l as [|o l IH]; intros d; [done|]. intros [Ho Hl] Hd. by apply IH, perform_ok. Qed.

Lemma empty_evident : evident None empty_db.
Proof. split; cbn; intros *; rewrite ?lookup_empty; try done. Qed.

(** C2: A recorded event can be replayed, for watches whose messages are text.
    Take a run of the runtime from empty tables in which ([run_ok])
    - every applied or prepared watch was compiled from a definition whose name is
      valid UTF-8, and its message template writes well-formed text on every
      input ([watch_ok]; the code does not check this, and a template that cuts a
      character breaks the property: [cut_message_not_reproduced]),
    - the observations of every batch are in normal form, its entity and its input
      identity are well-formed text ([batch_ok]),
    - the record a batch is accepted for, however stale, does not contradict the
      definition stored under its revision ([agrees]),
    and otherwise any run - applied bundles, accepted batches, pushes, timers,
    pauses, resumptions, deletions, purges, clock discontinuities, expiry of entities, retention of old history, deliveries
    and transfers of watches, in any order and with failures rolled back -
    [App.Evidence] succeeds for every stored event: it is verified from its
    checkpoint (the definition row compiles to the recorded revision, and the
    evaluation of the stored observation from the stored prior state emits the
    event again, byte for byte), or it has no checkpoint and is one of the eight
    administrative events. *)
Theorem recorded_evidence_verifies l id y :
  run_ok empty_db l →
  let d := runtime_run limits jitter storage range instance approved empty_db l in
  db_events d !! id = Some y →
  ∃ p status, StoredEvidence id d = Ok (p, status) ∧
    (status = "verified" ∨
     status = "unavailable: lifecycle event or predates schema 2" ∧ db_replays d !! id = None ∧ ev_Type (y_body y) ∈ lifecycle_kinds).
Proof.
  intros Hl d Hy. pose proof (runtime_run_ok _ _ Hl empty_evident) as He. fold d in He.
  unfold StoredEvidence, GetEvent, GetDefinition, GetReplay. rewrite Hy. cbn [fmap option_fmap option_map with_sequence ev_WatchID ev_Revision].
  destruct (ed_events _ _ He _ _ Hy) as (_ & [v Hv] & Hkind). rewrite Hv. cbn [fmap option_fmap option_map].
  destruct (db_replays d !! id) as [c|] eqn:Ec.
  - destruct (ed_replays _ _ He _ _ Ec) as (y' & v' & Hy' & Hv' & Hev). rewrite Hy in Hy'. injection Hy' as <-. rewrite Hv in Hv'. injection Hv' as <-.
    destruct (Hev (y_sequence y)) as [H1 [x H2]]. cbv zeta in H1, H2. rewrite H1. cbn [mbind result_bind]. rewrite H2. cbn. eauto.
  - eexists _, _. split; [done|]. right. split_and!; [done|done|]. by apply Hkind.
Qed.
End Run.
