(* ===== verification/EvidenceExamples.v ===== *)
(** * A concrete run of the runtime

    A watch on a load above 80 with a webhook: applied, observed high, low and
    unavailable, moved across a clock discontinuity, paused and resumed.
    Then a message that is not text, the same watch under retention, moved to
    another instance, and prepared there and canceled. *)

From S2P Require Import Prelude GoText GoFloat GoTime GoJson Sha256 Watch Numeric Evaluator RecordJson EvaluatorExamples LogExamples Plan PlanExamples Outbox OutboxFacts.
From S2P Require Import PushReceipts Records Access Render Acceptance Lifecycle Maintenance Apply Handoff Runtime Evidence EvidenceFacts RuntimeSteps EvidenceTables EvidenceAccept EvidenceLifecycle.
From S2P Require Import EntityCache Integrity AcceptOnce HandoffFacts HandoffFence HandoffNet RetentionFacts RetentionExact EvidenceRun.

(** ** Libraries *)

Definition libraries_with (t : string → result template) : Libraries :=
  {| parse_template := t; compile_jq := any_jq; compile_regexp := prefix_pattern; url_parse := simple_url |}.
#[local] Instance sample_libraries : Libraries := libraries_with plain_template.

(** ** The watch *)

Definition load_watch (message : string) : Definition_ :=
  {| d_APIVersion := APIVersion; d_Kind := "Watch"; d_Metadata := {| md_ID := "load"; md_Name := "Load" |};
     d_Spec := {| sp_Source := polled;
       sp_Condition := {| c_Field := "load"; c_Operator := "gt"; c_Value := VFloat (of_int 80); c_Numeric := ""; c_MissingFor := ""; c_DedupFor := "" |};
       sp_Policy := {| p_Trigger := ""; p_Consecutive := 0; p_RecoverAfter := 0; p_OnUnknown := ""; p_Interval := ""; p_MaxGap := "" |};
       sp_GroupBy := []; sp_Match := ∅; sp_Message := message; sp_Destinations := [{| t_Ref := "ops"; t_Events := [] |}];
       sp_Limits := {| l_MaxEntities := 0; l_MaxSamples := 50; l_MaxBytes := 0; l_MaxOutputs := 0; l_IdleTTL := "" |} |} |}.

Definition no_plan : Compiled := {| cp_Definition := load_watch ""; cp_Revision := ""; cp_Fingerprint := ""; cp_Permissions := [] |}.
Definition load_plan : Compiled := Eval vm_compute in match compile (load_watch "load is high") with Ok c => c | Err _ => no_plan end.
Lemma load_plan_ok : compile (load_watch "load is high") = Ok load_plan.
Proof. vm_compute. reflexivity. Qed.

(** ** The run *)

Definition at_second (n : Z) : time := from_unix_nano (1700000000 * Second + n * Second).
Definition loaded (n : Z) : Observation :=
  {| o_Entity := ""; o_Deadline := None; o_Sequence := 0; o_InputID := ""; o_AcceptedAt := zero_time; o_ObservedAt := None;
     o_Fields := {[ "load" := VFloat (of_int n) ]}; o_Health := "ok"; o_Detail := "" |}.
Definition unavailable : Observation :=
  {| o_Entity := ""; o_Deadline := None; o_Sequence := 0; o_InputID := ""; o_AcceptedAt := zero_time; o_ObservedAt := None;
     o_Fields := ∅; o_Health := "unknown"; o_Detail := "connection refused" |}.
Definition batch (l : list Observation) : Batch :=
  {| bt_ExpectedCursor := None; bt_FreshUntil := zero_time; bt_Entity := ""; bt_Deadline := zero_time; bt_Observations := l; bt_Cursor := ""; bt_RetryAt := zero_time |}.

Definition install_request : ApplyRequest :=
  {| aq_startPaused := false; aq_resetPaused := false; aq_Review := None; aq_Manifest := "kind: Watch"; aq_DryRun := false; aq_Expected := ∅ |}.
Definition ask (action : string) : LifecycleRequest :=
  {| lr_ExpectedGeneration := None; lr_Action := action; lr_Expected := ""; lr_CancelPending := false |}.

Definition no_storage (d : db) : Z := 0.
Abbreviation sample_run := (runtime_run DefaultLimits 0 no_storage map_to_list "instance" []).
Definition setup : list runtime_op :=
  [apply_bundle None install_request {| bu_Watches := [load_plan]; bu_Destinations := [compiled_hook] |} false (fun id => "first life") (at_second 0)].
Definition installed_db : db := sample_run empty_db setup.
Definition no_record : WatchRecord := mkRecord "" no_plan 0 "" zero_time "" zero_time "".
Definition load_record : WatchRecord := Eval vm_compute in match View (GetWatch "load") installed_db with Ok r => r | Err _ => no_record end.

Definition session : list runtime_op :=
  (setup ++
   [accept_batch load_record (batch [loaded 95]) "poll-1" None false (at_second 10) (at_second 10);
    accept_batch load_record (batch [unavailable; loaded 97]) "poll-2" None false (at_second 20) (at_second 20);
    accept_batch load_record (batch [loaded 10]) "poll-3" None false (at_second 30) (at_second 30);
    shift_clock (fun id => "second life") (at_second 40);
    request_lifecycle None "load" (ask "pause") false "third life" (at_second 50);
    request_lifecycle None "load" (ask "resume") false "fourth life" (at_second 60);
    maintain_entities (at_second 70); retain_history (at_second 70) "pass-1"])%list.
Definition session_db : db := sample_run empty_db session.

(** The operations are supplied as the runtime's callers do. *)
Lemma load_watch_ok : watch_ok load_plan.
Proof.
  split; [exists (load_watch "load is high"); split; [reflexivity|exact load_plan_ok]|].
  intros t [= <-] ctx buf H. vm_compute in H. injection H as <-. by apply ascii_ok.
Qed.
Lemma loaded_ok n : n ∈ [95; 97; 10] → observation_normal (loaded n).
Proof. intros H. repeat (apply elem_of_cons in H as [->|H]; [vm_compute; reflexivity|]). by apply not_elem_of_nil in H. Qed.
Lemma installed_definition : v_definition <$> db_revisions installed_db !! (r_ID load_record, r_Revision load_record) = Some (r_Definition load_record).
Proof. vm_compute. reflexivity. Qed.

Lemma batches_ok :
  batch_ok (batch [loaded 95]) "poll-1" ∧ batch_ok (batch [unavailable; loaded 97]) "poll-2" ∧ batch_ok (batch [loaded 10]) "poll-3".
Proof.
  assert (observation_normal unavailable) by (vm_compute; reflexivity).
  split_and!; (split; [repeat constructor; try done; apply loaded_ok; set_solver|by apply ascii_ok..]).
Qed.

Lemma session_ok : run_ok DefaultLimits 0 no_storage map_to_list "instance" [] empty_db session.
Proof.
  unfold session. apply run_ok_app. split.
  - cbn [run_ok setup]. split; [|exact I]. apply Forall_singleton, load_watch_ok.
  - fold installed_db. generalize installed_definition. generalize installed_db. intros d Hd. destruct batches_ok as (H1 & H2 & H3).
    cbn [run_ok op_ok app]. split_and!; try exact I; try assumption; cbn [perform]; apply stored_agrees;
      repeat (eapply grows_agrees; [apply (acceptPush_steps grows)|]); exact Hd.
Qed.

(** Two observations of one batch, an unavailable source first, in the tables of
    the installed watch. *)
Definition pair_batch : list Observation :=
  stamped (batch [unavailable; loaded 97]) "poll-1" (at_second 10) 0 [unavailable; loaded 97].
Definition recorded_db : db :=
  match AppendObservations "load" (r_Revision load_record) 1 pair_batch installed_db with Ok (_, d) => d | Err _ => empty_db end.
Definition load_evaluator : Evaluator :=
  match New parse_template (r_Definition load_record) (r_Revision load_record) with Ok e => e | Err _ => built nothing end.
Abbreviation directly := (direct_all DefaultLimits load_record load_evaluator (at_second 10) (zip_with sequenced pair_batch [1; 2])).

Lemma cache_transparent_witness :
  (match directly recorded_db with Ok (_, d) => size (db_events d) | Err _ => 0 end = 4)%nat ∧
  same_outcome (evaluate_batch DefaultLimits load_record load_evaluator (at_second 10) pair_batch [1; 2] recorded_db) (directly recorded_db).
Proof.
  split; [vm_compute; reflexivity|].
  apply (cache_transparent DefaultLimits load_record load_evaluator (at_second 10) pair_batch [1; 2] recorded_db); [vm_compute; reflexivity|reflexivity].
Defined.

(** An input, another one, and the first again with other contents. *)
Abbreviation sample_accept := (acceptPush DefaultLimits 0 no_storage).
Definition accepted_db : db :=
  fst (sample_accept load_record (batch [loaded 95]) "poll-1" None false (at_second 10) (at_second 10) installed_db).
Definition accepted_receipt : Receipt := {| rc_First := 1; rc_Last := 1; rc_Duplicate := false |}.
Definition between : list runtime_op :=
  [accept_batch load_record (batch [unavailable; loaded 97]) "poll-2" None false (at_second 20) (at_second 20); deliver_timers false (at_second 25);
   retain_history (at_second 26) "pass-1"].
Definition later_db : db := sample_run accepted_db between.
Definition later_record : WatchRecord := Eval vm_compute in match View (GetWatch "load") later_db with Ok r => r | Err _ => no_record end.
Abbreviation repetition := (sample_accept load_record (batch [loaded 10]) "poll-1" None false (at_second 30) (at_second 30) later_db).

Lemma pair_with {A B : Type} (p : A * B) (b : B) : snd p = b → p = (fst p, b).
Proof. destruct p. cbn. by intros ->. Qed.
Lemma accepted_receipt_ok :
  snd (sample_accept load_record (batch [loaded 95]) "poll-1" None false (at_second 10) (at_second 10) installed_db) = Ok (accepted_receipt, None).
Proof. vm_compute. reflexivity. Qed.
Lemma repetition_checked : match check_input load_record (batch [loaded 10]) "poll-1" with Ok _ => true | Err _ => false end = true.
Proof. vm_compute. reflexivity. Qed.
Lemma later_record_ok : View (GetWatch "load") later_db = Ok later_record.
Proof. vm_compute. reflexivity. Qed.

Lemma accepted_once_witness :
  quiet later_db (fst repetition) ∧ repetition = (later_db, Ok ({| rc_First := 1; rc_Last := 1; rc_Duplicate := true |}, None)).
Proof.
  destruct (accepted_once DefaultLimits 0 no_storage map_to_list "instance" [] setup between load_record load_record (batch [loaded 95]) (batch [loaded 10])
    "poll-1" false false (at_second 10) (at_second 30) (at_second 10) (at_second 30) load_record accepted_receipt accepted_db) as (H1 & _ & H3).
  - vm_compute. reflexivity.
  - exact (pair_with _ _ accepted_receipt_ok).
  - reflexivity.
  - repeat constructor; try (vm_compute; reflexivity); vm_compute; discriminate.
  - vm_compute. reflexivity.
  - reflexivity.
  - reflexivity.
  - split; [exact H1|]. pose proof repetition_checked as Hok. destruct (check_input load_record (batch [loaded 10]) "poll-1") as [e|] eqn:He; [|discriminate Hok].
    apply (H3 later_record e); [exact later_record_ok|reflexivity..|first [exact He|reflexivity]].
Defined.

(** The event of one type. *)
Definition announced_as (kind : string) (d : db) : option (string * event_row) :=
  head (filter (fun kv => ev_Type (y_body (snd kv)) = kind) (map_to_list (db_events d))).
Definition firing : string * event_row := Eval vm_compute in
  default ("", {| y_sequence := 0; y_watch := ""; y_body := SourceRecovered (built nothing) unavailable |}) (announced_as "firing" session_db).

Lemma recorded_evidence_verifies_witness :
  ev_Type (y_body (snd firing)) = "firing" ∧ ∃ p, StoredEvidence (fst firing) session_db = Ok (p, "verified").
Proof.
  split; [reflexivity|].
  assert (Hy : db_events session_db !! fst firing = Some (snd firing)) by (vm_compute; reflexivity).
  destruct (recorded_evidence_verifies DefaultLimits 0 no_storage map_to_list "instance" [] (fun m => reflexivity _) session (fst firing) (snd firing) session_ok Hy)
    as (p & status & H & [->|(_ & Hr & _)]); [by exists p|].
  exfalso. vm_compute in Hr. discriminate Hr.
Defined.

(** *** The tables of the run *)

Lemma runtime_tables_typed_witness :
  typed session_db ∧ db_events session_db ≠ ∅ ∧ db_observations session_db ≠ ∅ ∧ db_destinations session_db ≠ ∅ ∧ tb_outbox (db_outbox session_db) ≠ [] ∧
  db_evidence session_db ≠ ∅ ∧ db_replays session_db ≠ ∅.
Proof.
  split; [exact (runtime_tables_typed DefaultLimits 0 no_storage map_to_list "instance" [] session)|].
  repeat split; apply (bool_decide_eq_true_1 _); vm_compute; reflexivity.
Defined.

(** ** A message that is not text

    The builtin [slice] of text/template can cut a character: the message is
    stored as U+FFFD, the replay encodes the raw bytes as an escape, and
    [Verify] rejects an event the runtime itself recorded. *)
Definition cut_text : string := "{{slice `€` 0 1}}".
Definition cut_template (text : string) : result template := if text ≟ cut_text then Ok (fun _ => ([one (bz 0xE2)], None)) else plain_template text.
#[local] Instance cut_libraries : Libraries := libraries_with cut_template.

Definition cut_plan : Compiled := Eval vm_compute in match compile (load_watch cut_text) with Ok c => c | Err _ => no_plan end.
Abbreviation cut_run := (runtime_run DefaultLimits 0 no_storage map_to_list "instance" [] empty_db).
Definition cut_setup : list runtime_op :=
  [apply_bundle None install_request {| bu_Watches := [cut_plan]; bu_Destinations := [compiled_hook] |} false (fun id => "first life") (at_second 0)].
Definition cut_record : WatchRecord := Eval vm_compute in match View (GetWatch "load") (cut_run cut_setup) with Ok r => r | Err _ => no_record end.
Definition cut_db : db := cut_run (cut_setup ++ [accept_batch cut_record (batch [loaded 95]) "poll-1" None false (at_second 10) (at_second 10)])%list.
Definition cut_event : string * event_row := Eval vm_compute in default firing (announced_as "firing" cut_db).

(** The firing event is stored together with a checkpoint, and [App.Evidence]
    reports that the replay did not reproduce it: the theorem on recorded evidence
    needs its condition on the templates. *)
Lemma cut_message_not_reproduced :
  compile (load_watch cut_text) = Ok cut_plan ∧ db_events cut_db !! fst cut_event = Some (snd cut_event) ∧ is_Some (db_replays cut_db !! fst cut_event) ∧
  ev_Type (y_body (snd cut_event)) = "firing" ∧ StoredEvidence (fst cut_event) cut_db = Err "replay did not reproduce the recorded event".
Proof.
  split; [vm_compute; reflexivity|]. split; [vm_compute; reflexivity|]. split; [apply (bool_decide_unpack _); vm_compute; exact I|]. split; [reflexivity|vm_compute; reflexivity].
Qed.

(** * A concrete retention pass

    The watch above, forty days after it fired: the event of its
    installation is removed, the one whose notification is pending stays. *)

#[local] Existing Instance sample_libraries.

Definition history : list runtime_op := (setup ++ [accept_batch load_record (batch [loaded 95]) "poll-1" None false (at_second 10) (at_second 10)])%list.
Definition history_db : db := sample_run empty_db history.
Definition forty_days : time := at_second (40 * 24 * 3600).
Definition thirty_days_ago : time := Add forty_days (- (30 * 24 * Hour)).
Definition retained : option (db * result unit) := until_done 12 (no_progress (RetainBatch thirty_days_ago forty_days 64 "pass-1")) history_db.
Definition retained_db : db := match retained with Some (d, _) => d | None => empty_db end.

Lemma retained_ok : retained = Some (retained_db, Ok tt).
Proof.
  unfold retained_db. assert (H : match retained with Some (_, Ok tt) => true | _ => false end = true) by (vm_compute; reflexivity).
  destruct retained as [[d [[]|]]|]; [reflexivity|discriminate H..].
Qed.

Definition nothing_announced : string * event_row := ("", {| y_sequence := 0; y_watch := ""; y_body := SourceRecovered (built nothing) unavailable |}).
Definition old_firing : string * event_row := Eval vm_compute in default nothing_announced (announced_as "firing" history_db).
Definition old_applied : string * event_row := Eval vm_compute in default nothing_announced (announced_as "applied" history_db).
Lemma firing_recorded : db_events history_db !! fst old_firing = Some (snd old_firing).
Proof. vm_compute. reflexivity. Qed.
Lemma applied_recorded : db_events history_db !! fst old_applied = Some (snd old_applied).
Proof. vm_compute. reflexivity. Qed.
Lemma firing_pending : existsb (fun r => (r_event r ≟ fst old_firing) && is_live r) (tb_outbox (db_outbox history_db)) = true.
Proof. vm_compute. reflexivity. Qed.
Lemma history_numbered : forallb (fun kv => (0 <=? y_sequence (snd kv)) && (y_sequence (snd kv) <=? max_int64)) (map_to_list (db_events history_db)) = true.
Proof. vm_compute. reflexivity. Qed.

Lemma numbered_check d :
  forallb (fun kv => (0 <=? y_sequence (snd kv)) && (y_sequence (snd kv) <=? max_int64)) (map_to_list (db_events d)) = true → numbered d.
Proof.
  intros H i z Hz. rewrite forallb_forall in H. specialize (H (i, z)). apply andb_true_iff in H as [H1%Z.leb_le H2%Z.leb_le]; [done|].
  by apply list_elem_of_In, elem_of_map_to_list.
Qed.
Lemma pending_check id d :
  existsb (fun r => (r_event r ≟ id) && is_live r) (tb_outbox (db_outbox d)) = true → ∃ r, r ∈ tb_outbox (db_outbox d) ∧ r_event r = id ∧ is_live r = true.
Proof.
  intros (r & Hr%list_elem_of_In & Hb)%existsb_exists. apply andb_true_iff in Hb as [Hb1%bool_decide_eq_true_1 Hb2]. eauto.
Qed.

Lemma retention_keeps_used_witness :
  ev_Type (y_body (snd old_firing)) = "firing" ∧ timestamp (ev_At (y_body (snd old_firing))) < timestamp thirty_days_ago ∧
  db_events retained_db !! fst old_firing = Some (snd old_firing).
Proof.
  split; [reflexivity|]. split; [vm_compute; reflexivity|].
  apply (retention_keeps_used DefaultLimits 0 no_storage map_to_list "instance" [] history 12 thirty_days_ago forty_days 64 "pass-1" retained_db (Ok tt) (fst old_firing) (snd old_firing));
    [exact retained_ok|exact firing_recorded|]. right. right. exact (pending_check _ _ firing_pending).
Defined.

Lemma retention_removes_unused_witness :
  ev_Type (y_body (snd old_applied)) = "applied" ∧ db_events retained_db !! fst old_applied = None.
Proof.
  split; [reflexivity|].
  apply (retention_removes_unused DefaultLimits 0 no_storage map_to_list "instance" [] history 12 thirty_days_ago forty_days 64 "pass-1" retained_db (fst old_applied) (snd old_applied)).
  - intros c H. revert H. vm_compute. discriminate.
  - exact (numbered_check _ history_numbered).
  - exact retained_ok.
  - exact applied_recorded.
  - vm_compute. reflexivity.
  - vm_compute. split; reflexivity.
Defined.

(** * A concrete transfer

    The watch above moves from one instance to another: prepared
    at the target, paused at the source, activated with the receipt of the pause.
    And a transfer that was canceled, whose row stops retention. *)

#[local] Existing Instance sample_libraries.

Definition transfer_id : string := "0123456789abcdef0123456789abcdef0123456789abcdef0123456789abcdef".
Definition moved_bundle : Bundle := {| bu_Watches := [load_plan]; bu_Destinations := [compiled_hook] |}.
Definition exact_review : ApplyPreconditions :=
  match View (captureReview "cloud" "kind: Watch" moved_bundle) empty_db with
  | Ok r => r
  | Err _ => {| ap_Instance := ""; ap_ManifestHash := ""; ap_Watches := None; ap_Destinations := None |}
  end.
Definition preparation : HandoffPrepare :=
  {| hp_ReturnOf := ""; hp_ID := transfer_id; hp_Peer := "home"; hp_Manifest := "kind: Watch"; hp_Review := Some exact_review |}.
Definition pause_source : HandoffPause :=
  {| hq_ID := transfer_id; hq_Peer := "cloud"; hq_WatchID := "load"; hq_Revision := r_Revision load_record; hq_Generation := 1;
     hq_Destinations := Some {[ "ops" := cd_Revision compiled_hook ]} |}.

Definition home_work : list runtime_op :=
  (setup ++ [accept_batch load_record (batch [loaded 10]) "poll-1" None false (at_second 10) (at_second 10);
             pause_handoff None (Ok tt) pause_source false "life" (at_second 13) (at_second 13) (at_second 13)])%list.
Definition cloud_work : list runtime_op := [prepare_handoff None (Ok tt) preparation moved_bundle false (fun _ => "life") (at_second 12) (at_second 12)].

Abbreviation sample_work := (HandoffNet.work DefaultLimits 0 no_storage map_to_list []).
Abbreviation sample_step := (HandoffNet.net_step DefaultLimits 0 no_storage map_to_list []).
Definition paused_network : network :=
  fold_left (fun n o => sample_work "home" o n) home_work (fold_left (fun n o => sample_work "cloud" o n) cloud_work new_network).
Definition no_receipt : Handoff := mkHandoff "" "" "" "" zero_time "" "" "" "" "" "" "" "" 0 ∅ false zero_time.
Definition pause_receipt : Handoff := match View (GetHandoff transfer_id) (nw_tables paused_network "home") with Ok h => h | Err _ => no_receipt end.
Definition activation : runtime_op :=
  activate_handoff None (Ok tt) transfer_id pause_receipt false "life" (at_second 14) (at_second 14) (at_second 14) (at_second 14).
Definition moved_network : network := sample_work "cloud" activation (show pause_receipt paused_network).

(** Operations at one instance. *)
Lemma work_reaches me l n : clean me → Forall decoded l → Forall (fun o => op_receipt o = None) l →
  rtc sample_step n (fold_left (fun n o => sample_work me o n) l n).
Proof.
  intros Hme Hl. revert n. induction Hl as [|o l Ho _ IH]; intros n Hr; [reflexivity|]. inversion Hr as [|? ? Hn Hr']; subst. cbn [fold_left].
  eapply rtc_l; [apply works; [exact Hme|exact Ho|by rewrite Hn]|]. by apply IH.
Qed.
Lemma receipt_shown : View (GetHandoff transfer_id) (nw_tables paused_network "home") = Ok pause_receipt.
Proof.
  unfold pause_receipt. assert (H : match View (GetHandoff transfer_id) (nw_tables paused_network "home") with Ok _ => true | Err _ => false end = true) by (vm_compute; reflexivity).
  by destruct (View _ _).
Qed.
Lemma moved_reachable : rtc sample_step new_network moved_network.
Proof.
  transitivity paused_network.
  - transitivity (fold_left (fun n o => sample_work "cloud" o n) cloud_work new_network); apply work_reaches; try (by vm_compute); repeat constructor; cbn; try done.
    intros p ->%list_elem_of_singleton. by vm_compute.
  - eapply rtc_l; [apply (shows _ _ _ _ _ _ "home" transfer_id); [by vm_compute|exact receipt_shown]|]. apply rtc_once, works; [by vm_compute|done|].
    intros s Hs. change (Some pause_receipt = Some s) in Hs. apply (inj Some) in Hs as <-. apply elem_of_cons. left. reflexivity.
Qed.
Lemma activated : match db_handoffs (nw_tables moved_network "cloud") !! transfer_id with
  | Some r => (h_Role (hr_body r) ≟ "target") && (h_Phase (hr_body r) ≟ "active") && (h_Peer (hr_body r) ≟ "home") && (hr_watch r ≟ "load") | None => false end = true.
Proof. vm_compute. reflexivity. Qed.

Lemma handoff_exclusive_witness : ∃ r,
  db_handoffs (nw_tables moved_network "cloud") !! transfer_id = Some r ∧ hr_watch r = "load" ∧
  (status_of (nw_tables moved_network (h_Peer (hr_body r))) (hr_watch r) ≠ Some "running" ∨
   ∃ k' x, db_handoffs (nw_tables moved_network (h_Peer (hr_body r))) !! k' = Some x ∧ h_Role (hr_body x) = "target" ∧ h_Phase (hr_body x) = "active" ∧
     h_ReturnOf (hr_body x) = transfer_id ∧ hr_watch x = hr_watch r ∧ h_Peer (hr_body x) = "cloud").
Proof.
  pose proof activated as H. destruct (db_handoffs (nw_tables moved_network "cloud") !! transfer_id) as [r|] eqn:E; [|discriminate H]. exists r. bools.
  split; [reflexivity|]. split; [assumption|].
  refine (handoff_exclusive DefaultLimits 0 no_storage map_to_list [] moved_network "cloud" transfer_id r moved_reachable _ E _ _); [vm_compute; reflexivity|assumption|assumption].
Defined.

(** ** A canceled transfer

    The target prepared and canceled: a deleted watch, the row of the transfer,
    and the two events, forty days later. *)

Definition canceled_db : db :=
  runtime_run DefaultLimits 0 no_storage map_to_list "cloud" [] empty_db (cloud_work ++ [cancel_handoff None (Ok tt) transfer_id "life" (at_second 20)])%list.
Definition no_watch : watch_row := mkWatchRow "" 0 "" 0 "" 0 "" "".
Definition canceled_watch : watch_row := Eval vm_compute in default no_watch (db_watches canceled_db !! "load").

(** Every event of the watch is old and used by nothing. *)
Definition all_stale (cutoff : Z) (id : string) (d : db) : bool :=
  forallb (fun kv => negb (y_watch (snd kv) ≟ id) ||
    (removable_event d (fst kv) && (min_int64 <? timestamp (ev_At (y_body (snd kv)))) && (timestamp (ev_At (y_body (snd kv))) <? cutoff))) (map_to_list (db_events d)).
Lemma stale_check cutoff id d : all_stale cutoff id d = true →
  ∀ i y, db_events d !! i = Some y → y_watch y = id → removable_event d i = true ∧ min_int64 < timestamp (ev_At (y_body y)) < cutoff.
Proof.
  intros H i y Hi Hw. unfold all_stale in H. rewrite forallb_forall in H. specialize (H (i, y) (proj1 (list_elem_of_In _ _) (proj2 (elem_of_map_to_list _ _ _) Hi))).
  cbn [fst snd] in H. rewrite (bool_decide_eq_true_2 _ Hw) in H. cbn [negb orb] in H.
  apply andb_true_iff in H as [[H1 H2%Z.ltb_lt]%andb_true_iff H3%Z.ltb_lt]. auto.
Qed.
Lemma canceled_stale : all_stale (timestamp thirty_days_ago) "load" canceled_db = true.
Proof. vm_compute. reflexivity. Qed.
Lemma canceled_transfer : match db_handoffs canceled_db !! transfer_id with Some r => (h_Phase (hr_body r) ≟ "canceled") && (hr_watch r ≟ "load") | None => false end = true.
Proof. vm_compute. reflexivity. Qed.

Lemma transfer_stops_retention_witness :
  status_of canceled_db "load" = Some "deleted" ∧ dom (db_events canceled_db) ≠ ∅ ∧
  until_done 12 (no_progress (RetainBatch thirty_days_ago forty_days 64 "pass-1")) canceled_db = Some (canceled_db, Err constraint).
Proof.
  split; [vm_compute; reflexivity|]. split; [apply (bool_decide_eq_true_1 _); vm_compute; reflexivity|].
  pose proof canceled_transfer as H. destruct (db_handoffs canceled_db !! transfer_id) as [r|] eqn:E; [|discriminate H]. bools.
  apply (transfer_stops_retention 11 thirty_days_ago forty_days 64 "pass-1" "load" canceled_watch transfer_id r).
  - vm_compute. reflexivity.
  - vm_compute. exact I.
  - intros f Hf c Hc. exfalso. assert (En : db_cursors canceled_db = ∅) by (vm_compute; reflexivity). rewrite En, lookup_empty in Hc. discriminate Hc.
  - vm_compute. discriminate.
  - vm_compute. discriminate.
  - vm_compute. reflexivity.
  - vm_compute. split; reflexivity.
  - vm_compute. reflexivity.
  - exact (stale_check _ _ _ canceled_stale).
  - exact E.
  - assumption.
Defined.
