(* ===== verification/OutboxSpec.v ===== *)
(** * What the outbox promises

    Order within a stream, exact wake-up times, fairness between streams, and
    acknowledgements that take effect at most once. *)

From S2P Require Import Prelude GoText GoJson Watch Plan Outbox OutboxFacts.

(** ** Stream activity *)

Definition empty_tables (events : gset string) (revisions : gmap (string * string) CompiledDestination) : tables :=
  mkTables [] 1 [] ∅ [] events revisions.

Lemma empty_wf events revisions : wf_tables (empty_tables events revisions).
Proof. constructor; cbn; try constructor; intros ? ?%not_elem_of_nil; done. Qed.

(** whatever is enqueued, claimed, acknowledged, retried or canceled, the
    scheduling rows are exact: each watch and destination has one row, it is
    active exactly while one of its intents is pending or leased, and every
    such intent has one. *)
Lemma streams_exact events revisions ops :
  let t := foldl step (empty_tables events revisions) ops in
  NoDup (stream_key <$> tb_streams t) ∧
  (∀ s, s ∈ tb_streams t → st_active s = true ↔ ∃ r, r ∈ tb_outbox t ∧ row_key r = stream_key s ∧ is_live r = true) ∧
  (∀ r, r ∈ tb_outbox t → is_live r = true → ∃ s, s ∈ tb_streams t ∧ stream_key s = row_key r ∧ st_active s = true).
Proof.
  intros t. destruct (steps_wf (empty_tables events revisions) ops (empty_wf _ _)) as [_ _ W3 W4 W5 _]. fold t in W3, W4, W5.
  assert (Hiff : ∀ s, s ∈ tb_streams t → st_active s = true ↔ ∃ r, r ∈ tb_outbox t ∧ row_key r = stream_key s ∧ is_live r = true).
  { intros s Hs. rewrite (W4 s Hs), existsb_In. split; intros (r & Hr & H).
    - exists r. rewrite live_in_key in H. by bools.
    - exists r. split; [done|]. rewrite live_in_key. destruct H as [-> ->]. by rewrite bool_decide_eq_true_2. }
  split_and!; [done|done|]. intros r Hr Hl. destruct (proj1 (list_elem_of_fmap _ _ _) (W5 r Hr Hl)) as (s & Hk & Hs).
  exists s. split_and!; [done|done|]. apply Hiff; [done|]. by exists r.
Qed.

(** ** Order *)

Lemma find_first (p : row → bool) l o :
  StronglySorted Z.lt (r_id <$> l) → find p l = Some o → ∀ r, r ∈ l → p r = true → r_id o <= r_id r.
Proof.
  induction l as [|x l IH]; cbn; [done|]. intros Hs. inversion Hs as [|? ? Hs' Hx]; subst. destruct (p x) eqn:E.
  - intros [= ->] r [->|Hr]%elem_of_cons _; [lia|]. rewrite list.Forall_forall in Hx.
    specialize (Hx (r_id r) (list_elem_of_fmap_2 _ _ _ Hr)). lia.
  - intros Hf r [->|Hr]%elem_of_cons Hp; [congruence|]. by apply IH.
Qed.

Lemma Claim_inv now lease token t t' i :
  wf_tables t → Claim now lease token t = Ok (t', Some i) → ∃ s o d,
  claim_row (timestamp now) t = Some (s, o) ∧ o ∈ tb_outbox t ∧ row_key o = stream_key s ∧ is_live o = true ∧
  i = intent_of (lease_row token (timestamp (Add now lease)) o) d ∧
  t' = (update_row (lease_row token (timestamp (Add now lease))) o t)
         <| tb_streams := take_turn (st_watch s) (st_destination s) (tb_streams (update_row (lease_row token (timestamp (Add now lease))) o t)) |>.
Proof.
  intros Hw H. unfold Claim in H. apply fail_if_bind in H as [_ H]. destruct (claim_row _ t) as [[s o]|] eqn:E; [|done].
  destruct (claim_row_elem _ _ _ _ E) as (_ & _ & Ho & _). destruct (oldest_elem _ _ _ _ Ho) as (Hin & Hk & Hl).
  apply bind_Ok in H as (j & Hj & H). injection H as <- <-.
  destruct (read_updated t (lease_row token (timestamp (Add now lease))) o Hw Hin (lease_identity _ _)) as (d & _ & Hr).
  rewrite Hr in Hj. injection Hj as <-. exists s, o, d. injection Hk as Hkw Hkd. rewrite <- Hkw, <- Hkd. split_and!; try done.
  unfold row_key, stream_key. congruence.
Qed.

(** C4: deliveries start in event order: a claim hands out the oldest live intent
    of its watch and destination, and never an intent whose lease still runs. *)
Theorem Claim_in_order now lease token t t' i :
  wf_tables t → Claim now lease token t = Ok (t', Some i) →
  (∀ r, r ∈ tb_outbox t → is_live r = true → row_key r = (it_WatchID i, it_DestinationID i) → it_ID i <= r_id r) ∧
  (∃ r, r ∈ tb_outbox t ∧ r_id r = it_ID i ∧ it_Attempts i = r_attempts r + 1 ∧ (r_status r = "leased" → r_lease r <= timestamp now)) ∧
  (∃ r, r ∈ tb_outbox t' ∧ r_id r = it_ID i ∧ r_status r = "leased" ∧ r_token r = token ∧ r_lease r = timestamp (Add now lease)).
Proof.
  intros Hw H. destruct (Claim_inv _ _ _ _ _ _ Hw H) as (s & o & d & Hc & Hin & Hk & Hl & -> & ->). cbn.
  destruct (claim_row_elem _ _ _ _ Hc) as (_ & _ & Ho & Hcl). split_and!.
  - intros r Hr Hlr Hkr. apply (find_first _ _ _ (wt_ids t Hw) Ho); [done|]. rewrite live_in_key, Hlr, Hkr.
    rewrite bool_decide_eq_true_2; [done|exact Hk].
  - exists o. split_and!; try done. intros Hs. unfold claimable in Hcl. rewrite Hs in Hcl. bools.
    match goal with Hx : (_ || _) = true |- _ => apply orb_true_iff in Hx as [Hx|Hx]; bools; [done|lia] end.
  - exists (lease_row token (timestamp (Add now lease)) o). split_and!; try done.
    destruct (update_row_tables (lease_row token (timestamp (Add now lease))) o t) as (-> & _). apply updated_elem; auto.
Qed.

(** ** Wake-up times *)

Lemma max_lease_le now p ps :
  foldr (fun r n => Z.max (r_lease r) n) (r_lease p) ps <= now ↔ ∀ r, r ∈ p :: ps → r_lease r <= now.
Proof.
  induction ps as [|q ps IH]; cbn.
  - split; [by intros H r ->%list_elem_of_singleton|]. intros H. apply H. left.
  - rewrite Z.max_lub_iff, IH. split.
    + intros [Hq H] r [->|[->|Hr]%elem_of_cons]%elem_of_cons; [apply H; left|done|apply H; by right].
    + intros H. split; [apply H; right; left|]. intros r [->|Hr]%elem_of_cons; apply H; [left|by do 2 right].
Qed.

Lemma claimable_due now t o : 0 <= now → is_live o = true → claimable now t o = (due_at t o <=? now).
Proof.
  intros Hn Hl. apply eq_true_iff_eq. rewrite Z.leb_le. unfold claimable, due_at.
  rewrite !andb_true_iff, !negb_true_iff, !Z.max_lub_iff.
  assert (H1 : ((r_status o ≟ "pending") && (r_next o <=? now)) || ((r_status o ≟ "leased") && (r_lease o <=? now)) = true ↔
               (if r_status o ≟ "leased" then r_lease o else r_next o) <= now).
  { unfold is_live in Hl. destruct (r_status o ≟ "leased") eqn:E.
    - apply bool_decide_eq_true in E. rewrite E, (bool_decide_eq_false_2 ("leased" = "pending")) by done. cbn. by rewrite Z.leb_le.
    - rewrite orb_false_r in Hl. rewrite Hl. cbn. by rewrite orb_false_r, Z.leb_le. }
  assert (H2 : match backoff_of o t with Some v => now <? v | None => false end = false ↔ default 0 (backoff_of o t) <= now).
  { destruct (backoff_of o t) as [v|]; cbn; [by rewrite Z.ltb_ge|]. split; [done|done]. }
  rewrite H1, H2, <- (and_assoc (_ <= now)). do 2 apply and_iff_compat_l.
  rewrite existsb_false. destruct (List.filter (leased_with o) (tb_outbox t)) as [|p ps] eqn:E.
  - split; [done|]. intros _ x Hx. apply andb_false_iff. left. apply not_true_iff_false. intros Hlw.
      assert (x ∈ List.filter (leased_with o) (tb_outbox t)) as Hin by by apply elem_of_filter_bool. rewrite E in Hin. by apply not_elem_of_nil in Hin.
  - rewrite max_lease_le, <- E. split.
    + intros H r [Hr Hlw]%elem_of_filter_bool. specialize (H r Hr). rewrite Hlw in H. cbn in H. by apply Z.ltb_ge.
    + intros H x Hx. destruct (leased_with o x) eqn:Hlw; [|done]. cbn. apply Z.ltb_ge, H. by apply elem_of_filter_bool.
Qed.

Lemma first_of_None l : first_of l = None ↔ l = [].
Proof. destruct l as [|x l]; [done|]. split; [|done]. cbn. destruct (first_of l); [by destruct (stream_compare _ _)|done]. Qed.

Lemma next_delivery_spec t now : 
  (∃ d, next_delivery t = Some d ∧ d <= now) ↔ ∃ s d, s ∈ tb_streams t ∧ stream_due t s = Some d ∧ d <= now.
Proof.
  unfold next_delivery. induction (tb_streams t) as [|s l IH]; cbn.
  - split; [by intros (d & ? & _)|]. by intros (s & d & ?%not_elem_of_nil & _).
  - split.
    + intros (d & Hd & Hle). destruct (stream_due t s) as [a|] eqn:Ea; cbn in Hd.
      * destruct (foldr _ None l) as [b|] eqn:Eb; injection Hd as <-; [|exists s, a; split_and!; [left|done|done]].
        destruct (Z.le_gt_cases a b); [exists s, a; split_and!; [left|done|lia]|].
        destruct (proj1 IH) as (s' & d' & ? & ? & ?); [exists b; split; [done|lia]|]. exists s', d'. split_and!; [by right|done|done].
      * destruct (proj1 IH) as (s' & d' & ? & ? & ?); [by exists d|]. exists s', d'. split_and!; [by right|done|done].
    + intros (s' & d & [->|Hs]%elem_of_cons & Hd & Hle).
      * rewrite Hd. destruct (foldr _ None l) as [b|]; cbn; eexists; (split; [done|lia]).
      * destruct (proj2 IH) as (b & Hb & ?); [by exists s', d|]. rewrite Hb. destruct (stream_due t s); cbn; eexists; (split; [done|lia]).
Qed.

(** the wake-up time is exact: at any instant since 1970, a claim finds an
    intent exactly when [NextDelivery]'s instant has been reached, so sleeping
    workers neither miss a delivery nor spin. *)
Lemma NextDelivery_exact now lease token t :
  wf_tables t → 0 < lease → 0 <= timestamp now →
  (∃ t' i, Claim now lease token t = Ok (t', Some i)) ↔ (∃ d, next_delivery t = Some d ∧ d <= timestamp now).
Proof.
  intros Hw Hl Hn. rewrite next_delivery_spec.
  assert (Hc : (∃ t' i, Claim now lease token t = Ok (t', Some i)) ↔ claim_row (timestamp now) t ≠ None).
  { destruct (Claim_succeeds now lease token t Hw Hl) as (t' & i & H). rewrite H. revert H. unfold Claim.
    rewrite (proj2 (Z.leb_gt _ _) Hl). cbn [fail_if mbind result_bind]. destruct (claim_row _ t) as [[s o]|].
    - intros (j & _ & H)%bind_Ok. injection H as <- <-. split; [done|]. intros _. by eexists _, _.
    - intros [= <- <-]. split; [by intros (? & ? & ?)|done]. }
  rewrite Hc. unfold claim_row. rewrite first_of_None. split.
  - destruct (omap _ _) as [|[s o] l] eqn:E; [done|]. intros _.
    assert (Hin : (s, o) ∈ omap (candidate (timestamp now) t) (tb_streams t)) by (rewrite E; left).
    apply list_elem_of_omap in Hin as (s' & Hs & Hcand). unfold candidate in Hcand. destruct (st_active s') eqn:Ea; [|done].
    destruct (oldest _ _ t) as [o'|] eqn:Eo; [|done]. destruct (claimable _ t o') eqn:Ec; [|done]. injection Hcand as <- <-.
    rewrite claimable_due in Ec by (try done; by eapply oldest_elem). exists s', (due_at t o'). unfold stream_due. rewrite Ea, Eo. by bools.
  - intros (s & d & Hs & Hd & Hle) E. unfold stream_due in Hd. destruct (st_active s) eqn:Ea; [|done].
    destruct (oldest _ _ t) as [o|] eqn:Eo; [|done]. injection Hd as <-.
    assert (Hin : (s, o) ∈ omap (candidate (timestamp now) t) (tb_streams t)); [|rewrite E in Hin; by apply not_elem_of_nil in Hin].
    apply list_elem_of_omap. exists s. split; [done|]. unfold candidate. rewrite Ea, Eo, claimable_due by (try done; by eapply oldest_elem).
    by rewrite (proj2 (Z.leb_le _ _) Hle).
Qed.

(** * Fairness between streams and acknowledgements *)

(** ** The order of streams *)

(** The position of a stream in the claim order, without its activity. *)
Definition before (w d : string) (n : Z) (x : stream) : bool :=
  match stream_compare x (mkStream w d n true) with Lt => true | _ => false end.

Definition ahead (w d : string) (n : Z) (l : list stream) : nat := length (List.filter (before w d n) l).

Lemma top_turn_max l s : s ∈ l → st_turn s <= top_turn l.
Proof.
  destruct l as [|x l]; [by intros ?%not_elem_of_nil|]. cbn. intros Hs.
  assert (H : ∀ k, k <= foldr (fun s n => Z.max (st_turn s) n) k l ∧ ∀ y, y ∈ l → st_turn y <= foldr (fun s n => Z.max (st_turn s) n) k l).
  { clear. intros k. induction l as [|y l [IH1 IH2]]; cbn; [split; [lia|by intros ? ?%not_elem_of_nil]|]. split; [lia|].
    intros z [->|Hz]%elem_of_cons; [lia|]. specialize (IH2 z Hz). lia. }
  destruct (H (st_turn x)) as [H1 H2]. apply elem_of_cons in Hs as [->|Hs]; auto.
Qed.

Lemma stream_compare_antisym a b : stream_compare b a = CompOpp (stream_compare a b).
Proof.
  unfold stream_compare. rewrite (Z.compare_antisym (st_turn a) (st_turn b)), (str_compare_antisym (st_watch a)), (str_compare_antisym (st_destination a)).
  destruct (st_turn a ?= st_turn b), (str_compare (st_watch a) (st_watch b)); done.
Qed.

Lemma stream_compare_eq a b : stream_compare a b = Eq → stream_key a = stream_key b.
Proof.
  unfold stream_compare, stream_key. destruct (st_turn a ?= st_turn b); try done. destruct (str_compare (st_watch a) _) eqn:E; try done.
  intros E'. by rewrite (str_compare_eq _ _ E), (str_compare_eq _ _ E').
Qed.

#[local] Instance stream_le_trans : Transitive (fun a b => stream_compare a b ≠ Gt).
Proof.
  intros a b c. unfold stream_compare.
  destruct (Z.compare_spec (st_turn a) (st_turn b)) as [E1|E1|E1], (Z.compare_spec (st_turn b) (st_turn c)) as [E2|E2|E2]; try done;
    destruct (Z.compare_spec (st_turn a) (st_turn c)) as [E3|E3|E3]; try done; try lia.
  pose proof (transitivity (R := str_le) (x := st_watch a) (y := st_watch b) (z := st_watch c)) as Hw.
  pose proof (transitivity (R := str_le) (x := st_destination a) (y := st_destination b) (z := st_destination c)) as Hd.
  unfold str_le in *.
  destruct (str_compare (st_watch a) (st_watch b)) eqn:A, (str_compare (st_watch b) (st_watch c)) eqn:B; try done.
  - rewrite (str_compare_eq _ _ A), B. done.
  - rewrite (str_compare_eq _ _ A), B. done.
  - rewrite <- (str_compare_eq _ _ B), A. done.
  - intros _ _. specialize (Hw ltac:(done) ltac:(done)). destruct (str_compare (st_watch a) (st_watch c)) eqn:C; try done.
    apply str_compare_eq in C. rewrite C, str_compare_antisym, B in A. done.
Qed.

Lemma stream_compare_refl a : stream_compare a a = Eq.
Proof. unfold stream_compare. by rewrite Z.compare_refl, !str_compare_refl. Qed.

(** The chosen stream comes first. *)
Lemma first_of_least l x y : first_of l = Some x → y ∈ l → stream_compare (fst x) (fst y) ≠ Gt.
Proof.
  revert x y. induction l as [|z l IH]; intros x y; cbn; [done|]. destruct (first_of l) as [u|] eqn:E.
  - destruct (stream_compare (fst u) (fst z)) eqn:C; intros [= <-] [->|Hy]%elem_of_cons;
      try (by rewrite stream_compare_refl); try (by rewrite C); try (by apply (IH u));
      (apply (transitivity (R := fun a b => stream_compare a b ≠ Gt) (y := fst u)); [by rewrite stream_compare_antisym, C|by apply (IH u)]).
  - intros [= <-] [->|Hy]%elem_of_cons; [by rewrite stream_compare_refl|].
    apply first_of_None in E as ->. by apply not_elem_of_nil in Hy.
Qed.

(** ** Operations that serve no stream keep the order *)

Definition stands (w d : string) (n : Z) (l : list stream) : Prop := ∃ s, s ∈ l ∧ stream_key s = (w, d) ∧ st_turn s = n.

Definition quiet (l l' : list stream) : Prop :=
  ∀ w d n, stands w d n l → stands w d n l' ∧ ahead w d n l' = ahead w d n l.

#[local] Instance quiet_preorder : PreOrder quiet.
Proof.
  split; [by intros l w d n|]. intros a b c H1 H2 w d n H. destruct (H1 w d n H) as [Hb <-]. by apply H2.
Qed.

Lemma ahead_map w d n (g : stream → stream) l :
  (∀ s, s ∈ l → before w d n (g s) = before w d n s) → ahead w d n (map g l) = ahead w d n l.
Proof.
  unfold ahead. induction l as [|x l IH]; intros H; cbn; [done|]. rewrite H by left.
  destruct (before w d n x); cbn; [f_equal|]; apply IH; intros; apply H; by right.
Qed.

(** Changing activities only. *)
Lemma quiet_map (g : stream → stream) l : (∀ s, stream_key (g s) = stream_key s ∧ st_turn (g s) = st_turn s) → quiet l (map g l).
Proof.
  intros Hg w d n (s & Hs & Hk & Ht). split.
  - exists (g s). destruct (Hg s) as [-> ->]. split; [|done]. apply elem_of_map. by exists s.
  - apply ahead_map. intros x _. unfold before, stream_compare. destruct (Hg x) as [[= -> ->] ->]. done.
Qed.

Lemma quiet_snoc l s : st_turn s = top_turn l + 1 → quiet l (l ++ [s]).
Proof.
  intros Hs w d n (x & Hx & Hk & Ht). split; [exists x; split; [apply elem_of_app; by left|done]|].
  unfold ahead. rewrite List.filter_app, length_app. cbn. assert (before w d n s = false) as ->; [|cbn; lia].
  pose proof (top_turn_max l x Hx). unfold before, stream_compare. cbn. destruct (Z.compare_spec (st_turn s) n); [lia|lia|done].
Qed.

Lemma quiet_activate w d l : quiet l (activate w d l).
Proof.
  unfold activate. destruct (existsb _ l); [|by apply quiet_snoc]. apply quiet_map. intros s. by destruct (_ && _).
Qed.

Lemma quiet_update f r t : quiet (tb_streams t) (tb_streams (update_row f r t)).
Proof.
  unfold update_row, trigger. destruct (negb (is_live r) && is_live (f r)); [apply quiet_activate|].
  destruct (is_live r && negb (is_live (f r))); [|reflexivity]. apply quiet_map. intros s. by destruct (is_stream _ _ s).
Qed.

(** ** Serving a stream sends it to the back *)

Lemma take_turn_ahead w d n w0 d0 l s0 :
  stands w d n l → NoDup (stream_key <$> l) → s0 ∈ l → stream_key s0 = (w0, d0) → (w0, d0) ≠ (w, d) → before w d n s0 = true →
  stands w d n (take_turn w0 d0 l) ∧ (ahead w d n (take_turn w0 d0 l) < ahead w d n l)%nat.
Proof.
  intros (s & Hs & Hk & Ht) Hn H0 Hk0 Hne Hb. unfold take_turn. pose proof (top_turn_max l s Hs) as Htop. set (top := top_turn l) in *. split.
  - exists s. split; [|done]. apply elem_of_map. exists s. split; [|done]. rewrite is_stream_key, Hk. by rewrite bool_decide_eq_false_2.
  - assert (Hg : ∀ x, before w d n (x <| st_turn := top + 1 |>) = false).
    { intros x. unfold before, stream_compare. cbn. destruct (Z.compare_spec (top + 1) n); [lia|lia|done]. }
    clearbody top. clear Hs Htop. unfold ahead. induction l as [|x l IH]; [by apply not_elem_of_nil in H0|]. cbn in *.
    apply list.NoDup_cons in Hn as [Hx Hn]. apply elem_of_cons in H0 as [<-|H0].
    + rewrite is_stream_key, Hk0, bool_decide_eq_true_2, Hb by done. rewrite Hg. cbn.
      match goal with |- context [map ?g l] => assert (map g l = l) as ->; [|lia] end.
      rewrite <- (map_id l) at 2. apply map_ext_in. intros y Hy%list_elem_of_In. rewrite is_stream_key, bool_decide_eq_false_2; [done|].
      intros Hy'. apply Hx. rewrite Hk0, <- Hy'. by apply list_elem_of_fmap_2.
    + specialize (IH Hn H0). rewrite (is_stream_key w0 d0 x), bool_decide_eq_false_2.
      2:{ intros Hx'. apply Hx. rewrite Hx', <- Hk0. by apply list_elem_of_fmap_2. }
      destruct (before w d n x); cbn; lia.
Qed.

(** ** Runs *)

(** The stream an operation serves. *)
Definition served (t : tables) (o : op) : option (string * string) :=
  match o with
  | OClaim now lease token =>
      match Claim now lease token t with Ok (_, Some i) => Some (it_WatchID i, it_DestinationID i) | _ => None end
  | _ => None
  end.

(** At a claim, the stream has an intent that could be claimed. *)
Definition waiting (w d : string) (t : tables) (o : op) : bool :=
  match o with
  | OClaim now _ _ => existsb (fun s => is_stream w d s && present (candidate (timestamp now) t s)) (tb_streams t)
  | _ => true
  end.

(** The stream waits at every claim of the run and is never served. *)
Fixpoint passed_over (w d : string) (t : tables) (ops : list op) : bool :=
  match ops with
  | [] => true
  | o :: ops => waiting w d t o && negb (served t o ≟ Some (w, d)) && passed_over w d (step t o) ops
  end.

(** How many claims of the run served a stream. *)
Fixpoint claims (t : tables) (ops : list op) : nat :=
  match ops with [] => 0 | o :: ops => (if served t o then 1 else 0) + claims (step t o) ops end.

Lemma step_quiet t o : served t o = None → quiet (tb_streams t) (tb_streams (step t o)).
Proof.
  destruct o as [i|now lease token|i r next now|id now|w now]; cbn; intros Hs.
  - unfold Enqueue. destruct (existsb _ (tb_outbox t)); [reflexivity|]. cbn [fail_if mbind result_bind].
    destruct (_ || _); [reflexivity|]. apply quiet_activate.
  - destruct (Claim now lease token t) as [[t' [i|]]|] eqn:E; [done| |reflexivity].
    unfold Claim in E. apply fail_if_bind in E as [_ E]. destruct (claim_row _ t) as [[s o]|]; [by apply bind_Ok in E as (j & _ & [=])|].
    by injection E as <-.
  - unfold Finish. cbv zeta. destruct (negb _); [reflexivity|]. cbn [fail_if mbind result_bind].
    destruct (find _ (tb_outbox t)) as [x|]; [|reflexivity]. destruct (After _ now); apply quiet_update.
  - unfold Retry. destruct (read_intent id t); [|reflexivity]. cbn [mbind result_bind]. destruct (_ && _); [reflexivity|]. cbn [fail_if mbind result_bind].
    destruct (row_of id t) as [x|]; [|reflexivity]. apply quiet_update.
  - unfold CancelDeliveries. cbv zeta. set (ds := List.filter _ _). change (tb_streams t) with (tb_streams (t <| tb_attempts := (tb_attempts t ++ map (cancel_attempt (timestamp now)) ds)%list |>)) at 1.
    generalize (t <| tb_attempts := (tb_attempts t ++ map (cancel_attempt (timestamp now)) ds)%list |>). induction ds as [|r ds IH]; intros u; cbn; [reflexivity|].
    etransitivity; [apply quiet_update|apply IH].
Qed.

Lemma step_served w d n t o k :
  wf_tables t → stands w d n (tb_streams t) → served t o = Some k → k ≠ (w, d) → waiting w d t o = true →
  stands w d n (tb_streams (step t o)) ∧ (ahead w d n (tb_streams (step t o)) < ahead w d n (tb_streams t))%nat.
Proof.
  intros Hw Hst Hs Hk Hwait. destruct o as [|now lease token| | |]; try done. cbn in *.
  destruct (Claim now lease token t) as [[t' [i|]]|] eqn:E; try done. injection Hs as <-.
  destruct (Claim_inv _ _ _ _ _ _ Hw E) as (s0 & o & dd & Hc & Hin & Hkey & Hl & -> & ->). cbn in Hk |- *.
  destruct (claim_row_elem _ _ _ _ Hc) as (Hs0 & _).
  assert (Hstr : tb_streams (update_row (lease_row token (timestamp (Add now lease))) o t) = tb_streams t)
    by (unfold update_row, trigger; by rewrite Hl). rewrite Hstr.
  apply existsb_In in Hwait as (s & Hs & Hcand). rewrite is_stream_key in Hcand. bools.
  destruct Hst as (s' & Hs' & Hk' & Ht'). assert (s' = s) as ->.
  { apply (NoDup_fmap_inj stream_key (tb_streams t)); try done; [apply Hw|congruence]. }
  apply (take_turn_ahead w d n _ _ _ s0); try done; [by exists s|apply Hw| |].
  - intros Heq. apply Hk. unfold row_key, stream_key in *. congruence.
  - destruct (candidate (timestamp now) t s) as [[s1 o1]|] eqn:Ec; [|done].
    assert (s1 = s) as -> by (unfold candidate in Ec; repeat case_match; congruence).
    pose proof (first_of_least _ (s0, o) (s, o1) Hc) as Hle. specialize (Hle ltac:(apply list_elem_of_omap; by exists s)). cbn in Hle.
    unfold before. assert (stream_compare s0 (mkStream w d n true) = stream_compare s0 s) as ->.
    { unfold stream_compare. injection Hk' as -> ->. by rewrite Ht'. }
    destruct (stream_compare s0 s) eqn:C; [|done|done]. apply stream_compare_eq in C. exfalso. apply Hk. unfold row_key, stream_key in *. congruence.
Qed.

(** C30: no stream starves: while a stream has an intent that could be claimed,
    it is served after fewer claims than there are streams, whatever else is
    enqueued, acknowledged, retried or canceled in between. *)
Theorem Claim_fair w d t ops :
  wf_tables t → (w, d) ∈ stream_key <$> tb_streams t → passed_over w d t ops = true →
  (claims t ops < length (tb_streams t))%nat.
Proof.
  intros Hw (s & Hk & Hs)%list_elem_of_fmap Hp.
  assert (Hlt : ∀ n, stands w d n (tb_streams t) → (claims t ops <= ahead w d n (tb_streams t))%nat).
  { clear s Hk Hs. revert t Hw Hp. induction ops as [|o ops IH]; intros t Hw Hp n Hst; cbn in *; [lia|].
    apply andb_true_iff in Hp as [Hp Hrest]. apply andb_true_iff in Hp as [Hwait Hns]. bools.
    pose proof (step_wf t o Hw) as Hw'. destruct (served t o) as [k|] eqn:E.
    - destruct (step_served w d n t o k Hw Hst E) as [Hst' Hdec]; [congruence|done|]. specialize (IH _ Hw' Hrest n Hst'). lia.
    - destruct (step_quiet t o E w d n Hst) as [Hst' Heq]. specialize (IH _ Hw' Hrest n Hst'). lia. }
  specialize (Hlt (st_turn s) ltac:(by exists s)).
  assert (ahead w d (st_turn s) (tb_streams t) < length (tb_streams t))%nat; [|lia].
  unfold ahead. assert (Hnb : before w d (st_turn s) s = false).
  { unfold before. injection Hk as -> ->. replace (mkStream (st_watch s) (st_destination s) (st_turn s) true) with (s <| st_active := true |>) by by destruct s.
    assert (stream_compare s (s <| st_active := true |>) = stream_compare s s) as -> by done. by rewrite stream_compare_refl. }
  clear -Hs Hnb. induction (tb_streams t) as [|x l IH]; [by apply not_elem_of_nil in Hs|]. cbn.
  apply elem_of_cons in Hs as [<-|Hs]; [rewrite Hnb; pose proof (List.filter_length_le (before w d (st_turn s)) l); lia|].
  specialize (IH Hs). destruct (before w d (st_turn s) x); cbn; lia.
Qed.

(** * Acknowledgements and final states of intents *)

(** ** A delivered intent is final *)

Lemma update_row_keeps t f x r :
  wf_tables t → x ∈ tb_outbox t → r ∈ tb_outbox t → r ≠ x → r ∈ tb_outbox (update_row f x t).
Proof.
  intros Hw Hx Hr Hne. destruct (update_row_tables f x t) as (-> & _). apply updated_elem; [done|done|]. right. split; [done|].
  intros E. by apply Hne, (ids_inj t x r).
Qed.

Lemma update_rows_keep f ds t r :
  same_identity f → NoDup (r_id <$> ds) → (∀ x, x ∈ ds → x ∈ tb_outbox t) → wf_tables t → r ∉ ds → r ∈ tb_outbox t →
  r ∈ tb_outbox (fold_left (fun t x => update_row f x t) ds t).
Proof.
  intros Hf. revert t. induction ds as [|x ds IH]; intros t Hn Hin Hw Hnot Hr; [done|]. cbn. apply list.NoDup_cons in Hn as [Hx Hn].
  apply not_elem_of_cons in Hnot as [Hne Hnot]. assert (Hxt : x ∈ tb_outbox t) by (apply Hin; left).
  apply IH; [done| |by apply update_row_wf|done|by apply update_row_keeps].
  intros y Hy. apply update_row_keeps; [done|done|apply Hin; by right|]. intros ->. apply Hx. by apply list_elem_of_fmap_2.
Qed.

Lemma step_keeps_delivered t o r :
  wf_tables t → r ∈ tb_outbox t → r_status r = "delivered" → r ∈ tb_outbox (step t o).
Proof.
  intros Hw Hr Hd. assert (Hl : is_live r = false) by (unfold is_live; by rewrite Hd).
  destruct o as [i|now lease token|i re next now|id now|w now]; cbn.
  - unfold Enqueue. destruct (existsb _ (tb_outbox t)); [done|]. cbn [fail_if mbind result_bind].
    destruct (_ || _); [done|]. cbn. apply elem_of_app. by left.
  - destruct (Claim now lease token t) as [[t' [i|]]|] eqn:E; [| |done].
    + destruct (Claim_inv _ _ _ _ _ _ Hw E) as (s & o & d & _ & Ho & _ & Hlo & _ & ->). cbn. apply update_row_keeps; try done. congruence.
    + unfold Claim in E. apply fail_if_bind in E as [_ E]. destruct (claim_row _ t) as [[s o]|]; [by apply bind_Ok in E as (j & _ & [=])|].
      by injection E as <-.
  - unfold Finish. cbv zeta. destruct (negb _); [done|]. cbn [fail_if mbind result_bind].
    destruct (find _ (tb_outbox t)) as [x|] eqn:E; [|done]. apply find_elem in E as [Hx Hs]. bools.
    destruct (After _ now); cbn; apply update_row_keeps; try done; congruence.
  - unfold Retry, read_intent. destruct (row_of id t) as [x|] eqn:E; [|done]. apply find_elem in E as [Hx _].
    destruct (tb_revisions t !! _) as [d|]; [|done]. cbn [mbind result_bind]. destruct (_ && _) eqn:Es; [done|]. cbn.
    apply update_row_keeps; try done. intros ->. cbn in Es. by rewrite Hd in Es.
  - unfold CancelDeliveries. cbv zeta. apply update_rows_keep; auto with ding.
    + apply NoDup_filter_fmap, sorted_lt_NoDup, Hw.
    + by intros x [Hx _]%elem_of_filter_bool.
    + by eapply wf_tables_same.
    + intros [_ H]%elem_of_filter_bool. rewrite Hl, andb_false_r in H. done.
Qed.

(** A delivered intent is final: no later claim, acknowledgement, retry or
    cancellation changes it. *)
Lemma delivered_final t ops r :
  wf_tables t → r ∈ tb_outbox t → r_status r = "delivered" → r ∈ tb_outbox (foldl step t ops).
Proof.
  revert t. induction ops as [|o ops IH]; intros t Hw Hr Hd; cbn; [done|]. apply IH; [by apply step_wf|by apply step_keeps_delivered|done].
Qed.

(** ** Acknowledgements *)

Definition counted (p : row → bool) (l : list row) : nat := length (List.filter p l).
Definition indicator (b : bool) : nat := if b then 1 else 0.

Lemma counted_updated p t f x :
  wf_tables t → x ∈ tb_outbox t →
  (counted p (updated f x (tb_outbox t)) + indicator (p x) = counted p (tb_outbox t) + indicator (p (f x)))%nat.
Proof.
  intros Hw Hx. pose proof (sorted_lt_NoDup _ (wt_ids t Hw)) as Hn. clear Hw. unfold counted, updated.
  induction (tb_outbox t) as [|y l IH]; [by apply not_elem_of_nil in Hx|]. cbn in *. apply list.NoDup_cons in Hn as [Hy Hn].
  apply elem_of_cons in Hx as [<-|Hx].
  - rewrite Z.eqb_refl. assert (map (fun y => if r_id y =? r_id x then f y else y) l = l) as ->.
    { rewrite <- (map_id l) at 2. apply map_ext_in. intros z Hz%list_elem_of_In. destruct (Z.eqb_spec (r_id z) (r_id x)) as [E|]; [|done].
      exfalso. apply Hy. rewrite <- E. by apply list_elem_of_fmap_2. }
    destruct (p x), (p (f x)); cbn; lia.
  - specialize (IH Hx Hn). destruct (Z.eqb_spec (r_id y) (r_id x)) as [E|E].
    + exfalso. apply Hy. rewrite E. by apply list_elem_of_fmap_2.
    + destruct (p y); cbn; lia.
Qed.

(** Intents that hold a lease token. *)
Definition holds (token : string) (r : row) : bool := r_token r ≟ token.
Definition holders (token : string) (t : tables) : nat := counted (holds token) (tb_outbox t).

(** The operation acknowledges a lease, or creates one. *)
Definition acknowledges (token : string) (t : tables) (o : op) : bool :=
  match o with OFinish i r next now => (it_LeaseToken i ≟ token) && is_ok (Finish i r next now t) | _ => false end.
Definition creates (token : string) (o : op) : bool := match o with OClaim _ _ k => k ≟ token | _ => false end.

Fixpoint acknowledged (token : string) (t : tables) (ops : list op) : nat :=
  match ops with [] => 0 | o :: ops => indicator (acknowledges token t o) + acknowledged token (step t o) ops end.
Definition created (token : string) (ops : list op) : nat := length (List.filter (creates token) ops).

Lemma cancel_holders token ds t :
  token ≠ "" → NoDup (r_id <$> ds) → (∀ x, x ∈ ds → x ∈ tb_outbox t) → wf_tables t →
  (holders token (fold_left (fun t x => update_row cancel_row x t) ds t) <= holders token t)%nat.
Proof.
  intros Ht. revert t. induction ds as [|x ds IH]; intros t Hn Hin Hw; [done|]. cbn. apply list.NoDup_cons in Hn as [Hx Hn].
  assert (Hxt : x ∈ tb_outbox t) by (apply Hin; left).
  etransitivity; [apply IH; [done| |by apply update_row_wf; auto with ding]|].
  - intros y Hy. apply update_row_keeps; [done|done|apply Hin; by right|]. intros ->. apply Hx. by apply list_elem_of_fmap_2.
  - unfold holders. destruct (update_row_tables cancel_row x t) as (-> & _). pose proof (counted_updated (holds token) t cancel_row x Hw Hxt) as H.
    assert (holds token (cancel_row x) = false) as Hf by (apply bool_decide_eq_false; cbn; congruence). rewrite Hf in H. cbn in H. lia.
Qed.

Lemma step_holders token t o :
  token ≠ "" → wf_tables t →
  (indicator (acknowledges token t o) + holders token (step t o) <= holders token t + indicator (creates token o))%nat.
Proof.
  intros Ht Hw. assert (Hempty : ∀ r, r_token r = "" → holds token r = false) by (intros r E; apply bool_decide_eq_false; congruence).
  destruct o as [i|now lease tok|i re next now|id now|w now]; cbn.
  - unfold Enqueue. destruct (existsb _ (tb_outbox t)); [cbn; lia|]. cbn [fail_if mbind result_bind].
    destruct (_ || _); [cbn; lia|]. unfold holders, counted. cbn. rewrite List.filter_app, length_app. cbn. rewrite Hempty by done. cbn. lia.
  - destruct (Claim now lease tok t) as [[t' [i|]]|] eqn:E; [| |cbn; lia].
    + destruct (Claim_inv _ _ _ _ _ _ Hw E) as (s & o & d & _ & Ho & _ & _ & _ & ->). unfold holders. cbn [tb_outbox].
      change (tb_outbox (?u <| tb_streams := _ |>)) with (tb_outbox u).
      destruct (update_row_tables (lease_row tok (timestamp (Add now lease))) o t) as (-> & _).
      pose proof (counted_updated (holds token) t (lease_row tok (timestamp (Add now lease))) o Hw Ho) as H.
      change (holds token (lease_row tok (timestamp (Add now lease)) o)) with (tok ≟ token) in H. cbn. lia.
    + unfold Claim in E. apply fail_if_bind in E as [_ E]. destruct (claim_row _ t) as [[s o]|]; [by apply bind_Ok in E as (j & _ & [=])|].
      injection E as <-. cbn. lia.
  - unfold Finish. cbv zeta. destruct (negb _); [cbn; rewrite andb_false_r; cbn; lia|]. cbn [fail_if mbind result_bind].
    destruct (find _ (tb_outbox t)) as [x|] eqn:E; [|cbn; rewrite andb_false_r; cbn; lia]. apply find_elem in E as [Hx Hs].
    apply andb_true_iff in Hs as [_ Htok]. apply bool_decide_eq_true in Htok.
    cbn [is_ok]. rewrite andb_true_r. unfold holders. set (f := finish_row _ _ _).
    pose proof (counted_updated (holds token) t f x Hw Hx) as H. rewrite (Hempty (f x)) in H by done. cbn in H.
    assert (holds token x = (it_LeaseToken i ≟ token)) as Hh by (unfold holds; by rewrite Htok).
    rewrite Hh in H. destruct (update_row_tables f x t) as (Ho & _). destruct (After _ now); cbn -[update_row]; rewrite Ho; fold (counted (holds token) (updated f x (tb_outbox t))); lia.
  - unfold Retry, read_intent. destruct (row_of id t) as [x|] eqn:E; [|cbn; lia]. apply find_elem in E as [Hx _].
    destruct (tb_revisions t !! _) as [d|]; [|cbn; lia]. cbn [mbind result_bind]. destruct (_ && _) eqn:Es; [cbn; lia|].
    cbn -[update_row]. unfold holders. cbn -[update_row]. destruct (update_row_tables (retry_row (timestamp now)) x t) as (-> & _).
    pose proof (counted_updated (holds token) t (retry_row (timestamp now)) x Hw Hx) as H.
    change (holds token (retry_row (timestamp now) x)) with (holds token x) in H.
    fold (counted (holds token) (updated (retry_row (timestamp now)) x (tb_outbox t))). lia.
  - unfold CancelDeliveries. cbv zeta. rewrite Nat.add_0_r. etransitivity; [apply (cancel_holders token); [done| | |by eapply wf_tables_same]|done].
    + apply NoDup_filter_fmap, sorted_lt_NoDup, Hw.
    + by intros x [Hx _]%elem_of_filter_bool.
Qed.

(** C31: a lease is acknowledged at most once: over any interleaving of
    operations, the successful acknowledgements that carry a token are at most
    the intents holding it at the start plus the claims that created it, so a
    fresh token finalises one attempt only and a stale worker is refused. *)
Theorem acknowledged_once token t ops :
  token ≠ "" → wf_tables t → (acknowledged token t ops <= holders token t + created token ops)%nat.
Proof.
  intros Ht. revert t. induction ops as [|o ops IH]; intros t Hw; cbn; [lia|].
  pose proof (step_holders token t o Ht Hw). specialize (IH (step t o) (step_wf t o Hw)).
  unfold created in *. cbn. destruct (creates token o); cbn in *; lia.
Qed.
