(* ===== verification/Delivery.v ===== *)
(** * One delivery attempt: [internal/delivery/http.go] and [DeliverOne] of
    [internal/watchrun/workers.go]

    The network, the terminal and the notification service are an environment
    record; so are the decoders of provider responses.  What the code decides
    from their answers is the model. *)
From S2P Require Import Prelude GoText GoFloat GoTime GoJson Watch Evaluator Plan Outbox OutboxFacts.

(** ** Retry times *)

Definition year_seconds : Z := 365 * 24 * 3600.

(** [RetryAfter]; [parse_time] is [http.ParseTime]. *)
Definition RetryAfter (parse_time : string → option time) (value : string) (now : time) : time :=
  let dated := match parse_time value with Some date => if After date now then date else zero_time | None => zero_time end in
  match ParseInt (TrimSpace value) with
  | Some seconds =>
      if 0 <=? seconds
      then let seconds := if year_seconds <? seconds then year_seconds else seconds in Add now (seconds * Second)
      else dated
  | None => dated
  end.

(** The loop of [Backoff]: double while below an hour, at most [n] times. *)
Fixpoint double_up (n : nat) (d : duration) : duration :=
  match n with
  | O => d
  | S n => if d <? Hour then double_up n (wrap64 (d * 2)) else d
  end.

Definition Backoff (initial : duration) (attempt : Z) : duration :=
  let initial := if initial <=? 0 then Second else initial in
  let d := double_up (Z.to_nat (attempt - 1)) initial in
  if (Hour <? d) || (d <=? 0) then Hour else d.

(** ** HTTP *)

Record Request := { rq_URL : string; rq_Body : string; rq_Header : gmap string string; rq_Provider : string }.

(** A response; a body that could not be read is [None], and at most 64 KiB and
    one byte are read. *)
Record Response := { rs_StatusCode : Z; rs_RetryAfter : string; rs_Body : option string }.
Inductive Reply := InvalidRequest | TransportFailed | Replied (r : Response).

Record Decoders := {
  dec_time : string → option time;
  dec_discord_retry : string → option float64;
  dec_telegram_retry : string → option Z;
  dec_telegram : string → option (bool * Z * Z);   (* ok, error_code, retry_after *)
  dec_pagerduty : string → option string }.

(** [math.Ceil] of a positive number, as an integer. *)
Definition ceil_int (x : float64) : Z :=
  match x with
  | S754_finite false m e => if 0 <=? e then Zpos m * 2 ^ e else (Zpos m + 2 ^ (- e) - 1) / 2 ^ (- e)
  | _ => 0
  end.

Definition later (a b : time) : time := if After a b then a else b.
Definition max_body : Z := 64 * 1024.

(** The retry hints in the bodies of failed requests. *)
Definition discord_retry (dec : Decoders) (body : string) (now : time) : option time :=
  match dec_discord_retry dec body with
  | Some r => if flt (S754_zero false) r && negb (IsNaN r) && negb (IsInf r)
              then Some (Add now (ceil_int (fmul (math_Min r (of_int year_seconds)) (of_int Second)))) else None
  | None => None
  end.
Definition telegram_retry (dec : Decoders) (body : string) (now : time) : option time :=
  match dec_telegram_retry dec body with
  | Some n => if 0 <? n then Some (RetryAfter (dec_time dec) (Itoa n) now) else None
  | None => None
  end.
Definition raise (hint : option time) (t : time) : time := match hint with Some h => later h t | None => t end.

Definition retryable_status (code : Z) : bool := (code =? 408) || (code =? 429) || (500 <=? code).

(** What a readable body of a successful response means to its provider. *)
Definition accepted (dec : Decoders) (provider body : string) (retryAt now : time) : Result :=
  let delivered := {| re_Outcome := Delivered; re_RetryAt := zero_time; re_Detail := "" |} in
  if provider ≟ "slack" then
    if negb (TrimSpace body ≟ "ok") then {| re_Outcome := Permanent; re_RetryAt := zero_time; re_Detail := "Slack rejected delivery" |} else delivered
  else if provider ≟ "telegram" then
    match dec_telegram dec body with
    | None => {| re_Outcome := Retryable; re_RetryAt := zero_time; re_Detail := "invalid Telegram response" |}
    | Some (ok, code, retry) =>
        if ok : bool then delivered
        else {| re_Outcome := if retryable_status code then Retryable else Permanent;
                re_RetryAt := if 0 <? retry then RetryAfter (dec_time dec) (Itoa retry) now else retryAt;
                re_Detail := "Telegram rejected delivery" |}
    end
  else if provider ≟ "pagerduty" then
    match dec_pagerduty dec body with
    | None => {| re_Outcome := Retryable; re_RetryAt := zero_time; re_Detail := "invalid PagerDuty response" |}
    | Some status => if negb (status ≟ "success")
                     then {| re_Outcome := Permanent; re_RetryAt := zero_time; re_Detail := "PagerDuty rejected delivery" |} else delivered
    end
  else delivered.

Definition HTTP (dec : Decoders) (reply : Reply) (provider : string) (now : time) : Result :=
  match reply with
  | InvalidRequest => {| re_Outcome := Permanent; re_RetryAt := zero_time; re_Detail := "invalid delivery request" |}
  | TransportFailed => {| re_Outcome := Retryable; re_RetryAt := zero_time; re_Detail := "delivery transport failed" |}
  | Replied r =>
      let code := rs_StatusCode r in
      let detail := "HTTP " ++ Itoa code in
      let retryAt := RetryAfter (dec_time dec) (rs_RetryAfter r) now in
      let readable := match rs_Body r with Some b => if len b <=? max_body then Some b else None | None => None end in
      if (code <? 200) || (300 <=? code) then
        let retryAt := match readable with
                       | Some b => if (provider ≟ "discord") && (code =? 429) then raise (discord_retry dec b now) retryAt else retryAt
                       | None => retryAt
                       end in
        let retryAt := match readable with
                       | Some b => if provider ≟ "telegram" then raise (telegram_retry dec b now) retryAt else retryAt
                       | None => retryAt
                       end in
        {| re_Outcome := if retryable_status code then Retryable else Permanent; re_RetryAt := retryAt; re_Detail := detail |}
      else
        match readable with
        | None => {| re_Outcome := Retryable; re_RetryAt := zero_time; re_Detail := "invalid delivery response" |}
        | Some body => accepted dec provider body retryAt now
        end
  end.

(** ** The environment of a worker *)

Inductive console_end := Written (ok : bool) | Interrupted.

Record Environment := {
  env_lookup : option (string → option string);
  env_console : string → console_end;
  env_message : string → bool;              (* the payload decodes as a desktop message *)
  env_notify : option (string → bool);      (* the notification service, if any *)
  env_url : string → option URL;
  env_header : string → string;             (* the canonical form of a header name *)
  env_http : Request → Reply;
  env_decoders : Decoders }.

Definition console (env : Environment) (payload : string) : Result :=
  match env_console env payload with
  | Written true => {| re_Outcome := Delivered; re_RetryAt := zero_time; re_Detail := "" |}
  | Written false => {| re_Outcome := Retryable; re_RetryAt := zero_time; re_Detail := "console_write_failed" |}
  | Interrupted => {| re_Outcome := Retryable; re_RetryAt := zero_time; re_Detail := "console_interrupted" |}
  end.

(** [source.Resolve] *)
Definition Resolve (ref : option SecretRef) (lookup : option (string → option string)) : result string :=
  match ref, lookup with
  | Some r, Some f =>
      match f (Env r) with
      | Some v => if v ≟ "" then Err "missing credential" else Ok v
      | None => Err "missing credential"
      end
  | _, _ => Err "missing credential reference"
  end.

(** [source.URL] *)
Definition endpoint_ok (url_parse : string → option URL) (value : string) : bool :=
  match url_parse value with
  | None => false
  | Some u => negb (u_Host u ≟ "") && ((u_Scheme u ≟ "http") || (u_Scheme u ≟ "https")) && negb (u_User u)
  end.

(** Headers and their credentials: one missing credential fails the request. *)
Definition add_header (env : Environment) (h : result (gmap string string)) (kv : string * SecretRef) : result (gmap string string) :=
  m ← h; v ← Resolve (Some (snd kv)) (env_lookup env); Ok (<[env_header env (fst kv) := v]> m).
Definition headers (env : Environment) (event : string) (refs : gmap string SecretRef) : result (gmap string string) :=
  foldl (add_header env) (Ok (<["X-Ding-Event-Id" := event]> {["Idempotency-Key" := event]})) (map_to_list refs).

(** ** [DeliverOne] *)

Definition spec_of (i : Intent) : DestinationSpec := dst_Spec (cd_Definition (it_Destination i)).

Definition deadline (i : Intent) : time :=
  let cycle := if negb (IsZero (it_CycleStartedAt i)) then it_CycleStartedAt i else it_CreatedAt i in
  Add cycle (duration_or_zero (ds_MaxAge (spec_of i))).

Definition exhausted (retryAt : time) : Result :=
  {| re_Outcome := Exhausted; re_RetryAt := retryAt; re_Detail := "delivery policy exhausted" |}.

Definition within_policy (i : Intent) (now : time) : bool :=
  (it_Attempts i <=? ds_MaxAttempts (spec_of i)) && Before now (deadline i).

(** The attempt at a destination of each type. *)
Definition send (env : Environment) (i : Intent) (now : time) : Result :=
  let d := spec_of i in
  let permanent detail := {| re_Outcome := Permanent; re_RetryAt := zero_time; re_Detail := detail |} in
  if ds_Type d ≟ "console" then console env (it_Payload i)
  else if ds_Type d ≟ "desktop" then
    match env_notify env with
    | Some notify =>
        if negb (env_message env (it_Payload i)) then permanent "desktop_unavailable"
        else if notify (it_Payload i) then {| re_Outcome := Delivered; re_RetryAt := zero_time; re_Detail := "accepted_by_os" |}
        else {| re_Outcome := Retryable; re_RetryAt := zero_time; re_Detail := "desktop_unavailable_or_permission_denied" |}
    | None => permanent "desktop_unavailable"
    end
  else
    match Resolve (ds_URLRef d) (env_lookup env), headers env (it_EventID i) (ds_Headers d) with
    | Ok endpoint, Ok hs =>
        if negb (endpoint_ok (env_url env) endpoint) then permanent "invalid_endpoint"
        else HTTP (env_decoders env)
               (env_http env {| rq_URL := endpoint; rq_Body := it_Payload i; rq_Header := hs; rq_Provider := ds_Type d |}) (ds_Type d) now
    | _, _ => permanent "missing_credentials"
    end.

Definition attempt_result (env : Environment) (i : Intent) (now : time) : Result :=
  if within_policy i now then send env i now else exhausted zero_time.

(** The delay before a retry; [jitter] is the random quarter at most of it. *)
Definition retry_delay (i : Intent) : duration := Backoff (duration_or_zero (ds_InitialBackoff (spec_of i))) (it_Attempts i).

(** What is stored for a result: the result and the next attempt's instant. *)
Definition settle (i : Intent) (r : Result) (finished : time) (jitter : duration) (shutdown : bool) : Result * time :=
  let '(r, next) :=
    if re_Outcome r ≟ Retryable then
      let next := Add finished (retry_delay i + jitter) in
      let next := if After (re_RetryAt r) next then re_RetryAt r else next in
      if (ds_MaxAttempts (spec_of i) <=? it_Attempts i) || negb (Before next (deadline i))
      then (exhausted (re_RetryAt r), next) else (r, next)
    else (r, finished) in
  if shutdown && negb (re_Outcome r ≟ Delivered)
  then ({| re_Outcome := Retryable; re_RetryAt := zero_time; re_Detail := "shutdown_interrupted" |}, finished)
  else (r, next).

Definition lease_time : duration := 30 * Second.

(** One worker.  The claim and the acknowledgement are two transactions:
    [meanwhile] is what others commit to the outbox between them, and [commit] is
    whether the second one can be committed at all.  The results are the flag and
    the error the code returns. *)
Definition DeliverOne (env : Environment) (now finished : time) (jitter : duration) (shutdown : bool) (token : string)
    (meanwhile : list op) (commit : bool) (t : tables) : tables * (bool * result unit) :=
  match Claim now lease_time token t with
  | Err e => (t, (false, Err e))
  | Ok (t, None) => (t, (false, Ok tt))
  | Ok (t, Some i) =>
      let '(r, next) := settle i (attempt_result env i now) finished jitter shutdown in
      let t := foldl step t meanwhile in
      match (if commit then Finish i r next finished t else Err "commit failed") with
      | Ok t => (t, (true, Ok tt))
      | Err e => (t, (true, Err e))
      end
  end.
