(* ===== verification/DeliveryFacts.v ===== *)
(** * The retry policy is respected, and a concrete outbox *)

From S2P Require Import Prelude GoText GoFloat GoTime GoJson Sha256 Watch Numeric Evaluator LogWindow LogFrame LogClassify LogExamples Plan PlanFacts PlanSpec.
From S2P Require Import PlanExamples Outbox OutboxFacts OutboxSpec Delivery.

(** ** Backoff *)

Lemma Hour_value : Hour = 3600000000000.
Proof. reflexivity. Qed.

Lemma double_up_closed n d : 0 < d → 0 < double_up n d ∧ Z.min Hour (double_up n d) = Z.min Hour (d * 2 ^ Z.of_nat n).
Proof.
  revert d. induction n as [|n IH]; intros d Hd; cbn [double_up]; [cbn; lia|].
  rewrite Nat2Z.inj_succ, Z.pow_succ_r by lia. pose proof (Z.pow_pos_nonneg 2 (Z.of_nat n)).
  destruct (Z.ltb_spec d Hour).
  - rewrite wrap64_id by (rewrite Hour_value in *; unfold is_int64, min_int64, max_int64; lia).
    destruct (IH (d * 2)) as [? ->]; [lia|]. split; [done|]. f_equal. lia.
  - split; [done|]. nia.
Qed.

(** the retry delay is the initial backoff (one second when it is not
    positive) doubled once per earlier attempt, and at most an hour. *)
Lemma Backoff_closed initial attempt :
  Backoff initial attempt = Z.min Hour ((if initial <=? 0 then Second else initial) * 2 ^ Z.max 0 (attempt - 1)).
Proof.
  unfold Backoff. set (d := if initial <=? 0 then Second else initial).
  assert (Hd : 0 < d) by (subst d; destruct (Z.leb_spec initial 0); [reflexivity|lia]).
  destruct (double_up_closed (Z.to_nat (attempt - 1)) d Hd) as [Hp Hm]. replace (Z.of_nat (Z.to_nat (attempt - 1))) with (Z.max 0 (attempt - 1)) in Hm by lia. rewrite <- Hm.
  destruct (Z.ltb_spec Hour (double_up (Z.to_nat (attempt - 1)) d)); cbn [orb]; [lia|].
  destruct (Z.leb_spec (double_up (Z.to_nat (attempt - 1)) d) 0); lia.
Qed.

Lemma Backoff_pos initial attempt : 0 < Backoff initial attempt.
Proof.
  unfold Backoff. destruct (_ || _) eqn:E; [reflexivity|]. apply orb_false_iff in E as [_ E]. by bools.
Qed.

(** ** Retries *)

(** a retry respects the destination's policy and its provider: an attempt
    that is stored for retry had attempts left, and its next instant is at least
    the backoff after the attempt, not before the provider's retry time, and
    before the end of the intent's maximum age. *)
Lemma settle_within_policy i r finished jitter r' next :
  0 <= jitter → settle i r finished jitter false = (r', next) → re_Outcome r' = Retryable →
  r' = r ∧ it_Attempts i < ds_MaxAttempts (spec_of i) ∧ Add finished (retry_delay i) <= next ∧ re_RetryAt r <= next ∧ next < deadline i.
Proof.
  intros Hj. unfold settle, Add. cbn [andb]. destruct (re_Outcome r ≟ Retryable) eqn:Er.
  - set (n0 := finished + (retry_delay i + jitter)). destruct (_ || _) eqn:Ep; intros [= <- <-]; [discriminate|]. intros _.
    apply orb_false_iff in Ep as [Ea Ed]. bools. unfold Before in Ed. unfold After in *. bools. split_and!; try done.
    + destruct (Z.ltb_spec n0 (re_RetryAt r)); subst n0; lia.
    + destruct (Z.ltb_spec n0 (re_RetryAt r)); subst n0; lia.
  - intros [= <- <-] Hr. bools. done.
Qed.

(** ** Outcomes *)

Definition known_outcome (r : Result) : bool :=
  bool_decide (re_Outcome r ∈ [Delivered; Retryable; Permanent; Exhausted; Canceled]).

Ltac known := unfold known_outcome; cbn; apply bool_decide_eq_true; set_solver.

Lemma HTTP_known dec reply provider now : known_outcome (HTTP dec reply provider now) = true.
Proof. unfold HTTP, accepted. repeat (case_match; cbn); known. Qed.

Lemma attempt_result_known env i now : known_outcome (attempt_result env i now) = true.
Proof.
  unfold attempt_result, send, console. repeat (case_match; cbn); try apply HTTP_known; known.
Qed.

Lemma settle_known i r finished jitter shutdown r' next :
  known_outcome r = true → settle i r finished jitter shutdown = (r', next) → known_outcome r' = true.
Proof.
  unfold settle. intros Hr. destruct (re_Outcome r ≟ Retryable).
  - destruct (_ || _); cbn; destruct shutdown; cbn; try (destruct (negb _)); intros [= <- _]; try done; known.
  - destruct (shutdown && _); intros [= <- _]; [known|done].
Qed.

(** only an accepted request counts as delivered, and only transient failures
    are retried: an HTTP delivery is [delivered] only for a 2xx response whose
    body was read and accepted by its provider, a response outside 2xx is retried
    exactly for 408, 429 and 5xx, and everything else is permanent. *)
Lemma HTTP_outcome dec reply provider now :
  let o := re_Outcome (HTTP dec reply provider now) in
  (o = Delivered → ∃ r body, reply = Replied r ∧ 200 <= rs_StatusCode r < 300 ∧ rs_Body r = Some body ∧ len body <= 65536 ∧
     (provider = "slack" → TrimSpace body = "ok") ∧ (provider = "telegram" → ∃ code retry, dec_telegram dec body = Some (true, code, retry)) ∧
     (provider = "pagerduty" → dec_pagerduty dec body = Some "success")) ∧
  (∀ r, reply = Replied r → rs_StatusCode r < 200 ∨ 300 <= rs_StatusCode r →
     o = if retryable_status (rs_StatusCode r) then Retryable else Permanent).
Proof.
  intros o. split.
  - subst o. unfold HTTP. destruct reply as [| |r]; try discriminate. destruct (_ || _) eqn:Ec; [by destruct (retryable_status _)|].
    destruct (rs_Body r) as [b|] eqn:Eb; [|discriminate]. destruct (Z.leb_spec (len b) max_body) as [Hb|]; [|discriminate].
    intros Ha. exists r, b. bools. split_and!; try done.
    + intros ->. unfold accepted in Ha. rewrite (bool_decide_eq_true_2 ("slack" = "slack")) in Ha by done.
      destruct (negb _) eqn:En; [discriminate|]. by bools.
    + intros ->. unfold accepted in Ha. rewrite (bool_decide_eq_false_2 ("telegram" = "slack")), (bool_decide_eq_true_2 ("telegram" = "telegram")) in Ha by done.
      destruct (dec_telegram dec b) as [[[ok code] retry]|]; [|discriminate].
      destruct ok; [by eexists _, _|]. by destruct (retryable_status code).
    + intros ->. unfold accepted in Ha. rewrite (bool_decide_eq_false_2 ("pagerduty" = "slack")), (bool_decide_eq_false_2 ("pagerduty" = "telegram")),
        (bool_decide_eq_true_2 ("pagerduty" = "pagerduty")) in Ha by done.
      destruct (dec_pagerduty dec b) as [st|]; [|discriminate].
      destruct (negb _) eqn:En; [discriminate|]. bools. by subst.
  - intros r -> Hc. subst o. cbn. destruct (_ || _) eqn:Ec; [done|]. bools. lia.
Qed.

(** ** Attempts are counted *)

Lemma update_row_trace t f x r :
  wf_tables t → x ∈ tb_outbox t → same_identity f → r ∈ tb_outbox t →
  ∃ r', r' ∈ tb_outbox (update_row f x t) ∧ r_id r' = r_id r ∧ (r' = r ∧ r_id r ≠ r_id x ∨ r = x ∧ r' = f x).
Proof.
  intros Hw Hx Hf Hr. destruct (update_row_tables f x t) as (-> & _). destruct (Z.eq_dec (r_id r) (r_id x)) as [E|E].
  - assert (r = x) as -> by by apply (ids_inj t). exists (f x). split_and!; [apply updated_elem; auto|apply Hf|by right].
  - exists r. split_and!; [apply updated_elem; auto|done|by left].
Qed.

Lemma cancel_attempts ds t r :
  NoDup (r_id <$> ds) → (∀ x, x ∈ ds → x ∈ tb_outbox t) → wf_tables t → r ∈ tb_outbox t →
  ∃ r', r' ∈ tb_outbox (fold_left (fun t x => update_row cancel_row x t) ds t) ∧ r_id r' = r_id r ∧ r_attempts r' = r_attempts r.
Proof.
  revert t r. induction ds as [|x ds IH]; intros t r Hn Hin Hw Hr; cbn; [by exists r|]. apply list.NoDup_cons in Hn as [Hx Hn].
  assert (Hxt : x ∈ tb_outbox t) by (apply Hin; left).
  destruct (update_row_trace t cancel_row x r Hw Hxt cancel_identity Hr) as (r1 & Hr1 & Hid & Hor).
  assert (Ha : r_attempts r1 = r_attempts r) by by destruct Hor as [[-> _]|[-> ->]].
  destruct (IH (update_row cancel_row x t) r1 Hn) as (r2 & H2 & Hid2 & Ha2); [|by apply update_row_wf; auto with ding|done|].
  - intros y Hy. destruct (update_row_trace t cancel_row x y Hw Hxt cancel_identity (Hin y ltac:(by right))) as (y' & Hy' & _ & [[-> _]|[-> _]]); [done|].
    exfalso. apply Hx. by apply list_elem_of_fmap_2.
  - exists r2. split_and!; [done|congruence|congruence].
Qed.

(** The operation hands out the intent with an attempt number of at most [m]. *)
Definition hands_out (id m : Z) (t : tables) (o : op) : bool :=
  match o with
  | OClaim now lease token => match Claim now lease token t with Ok (_, Some i) => (it_ID i =? id) && (it_Attempts i <=? m) | _ => false end
  | _ => false
  end.
Fixpoint handouts (id m : Z) (t : tables) (ops : list op) : nat :=
  match ops with [] => 0 | o :: ops => (if hands_out id m t o then 1 else 0) + handouts id m (step t o) ops end.
Definition not_retried (id : Z) (ops : list op) : bool :=
  forallb (fun o => match o with ORetry id' _ => negb (id' =? id) | _ => true end) ops.

Lemma step_attempts t o r m :
  wf_tables t → r ∈ tb_outbox t → not_retried (r_id r) [o] = true →
  ∃ r', r' ∈ tb_outbox (step t o) ∧ r_id r' = r_id r ∧ r_attempts r <= r_attempts r' ∧
        (hands_out (r_id r) m t o = true → r_attempts r + 1 <= r_attempts r' ∧ r_attempts r + 1 <= m).
Proof.
  intros Hw Hr Hno. destruct o as [i|now lease token|i re next now|id now|w now]; cbn.
  - exists r. split_and!; try done; try lia. unfold Enqueue. destruct (existsb _ (tb_outbox t)); [done|]. cbn [fail_if mbind result_bind].
    destruct (_ || _); [done|]. cbn. apply elem_of_app. by left.
  - destruct (Claim now lease token t) as [[t' [i|]]|] eqn:E; [| |exists r; split_and!; try done; lia].
    + destruct (Claim_inv _ _ _ _ _ _ Hw E) as (s & o & d & _ & Ho & _ & _ & -> & ->).
      destruct (update_row_trace t (lease_row token (timestamp (Add now lease))) o r Hw Ho (lease_identity _ _) Hr) as (r' & Hr' & Hid & Hor).
      exists r'. split_and!; try done; [destruct Hor as [[-> _]|[-> ->]]; cbn; lia|]. cbn. intros H. bools.
      destruct Hor as [[-> Hne]|[-> ->]]; [lia|]. cbn. lia.
    + unfold Claim in E. apply fail_if_bind in E as [_ E]. destruct (claim_row _ t) as [[s o]|]; [by apply bind_Ok in E as (j & _ & [=])|].
      injection E as <-. exists r. split_and!; try done; lia.
  - unfold Finish. cbv zeta. destruct (negb _); [exists r; split_and!; try done; lia|]. cbn [fail_if mbind result_bind].
    destruct (find _ (tb_outbox t)) as [x|] eqn:E; [|exists r; split_and!; try done; lia]. apply find_elem in E as [Hx _].
    set (f := finish_row _ _ _). destruct (update_row_trace t f x r Hw Hx (finish_identity _ _ _) Hr) as (r' & Hr' & Hid & Hor).
    exists r'. split_and!; try done; [by destruct (After _ now)|]. destruct Hor as [[-> _]|[-> ->]]; cbn; lia.
  - cbn in Hno. bools. unfold Retry, read_intent. destruct (row_of id t) as [x|] eqn:E; [|exists r; split_and!; try done; lia].
    apply find_elem in E as [Hx Hxid]. bools. destruct (tb_revisions t !! _) as [d|]; [|exists r; split_and!; try done; lia].
    cbn [mbind result_bind]. destruct (_ && _); [exists r; split_and!; try done; lia|].
    destruct (update_row_trace t (retry_row (timestamp now)) x r Hw Hx (retry_identity _) Hr) as (r' & Hr' & Hid & [[-> _]|[-> _]]); [|congruence].
    exists r. split_and!; try done; lia.
  - destruct (cancel_attempts (List.filter (fun r => (r_watch r ≟ w) && is_live r) (tb_outbox t))
      (t <| tb_attempts := (tb_attempts t ++ map (cancel_attempt (timestamp now)) (List.filter (fun r => (r_watch r ≟ w) && is_live r) (tb_outbox t)))%list |>) r)
      as (r' & Hr' & Hid & Ha).
    + apply NoDup_filter_fmap, sorted_lt_NoDup, Hw.
    + by intros x [Hx _]%elem_of_filter_bool.
    + by eapply wf_tables_same.
    + done.
    + exists r'. split_and!; try done; lia.
Qed.

(** C32: the number of attempts is bounded: however workers, crashes, lease
    expiries and cancellations interleave, an intent is handed out for an attempt
    numbered within the destination's limit at most that many times until it is
    retried by hand. *)
Theorem attempts_bounded t ops r m :
  wf_tables t → r ∈ tb_outbox t → not_retried (r_id r) ops = true →
  (handouts (r_id r) m t ops <= Z.to_nat (m - r_attempts r))%nat.
Proof.
  revert t r. induction ops as [|o ops IH]; intros t r Hw Hr Hno; cbn [handouts]; [lia|].
  assert (Ho : not_retried (r_id r) [o] = true ∧ not_retried (r_id r) ops = true) by (cbn in *; rewrite andb_true_r; by apply andb_true_iff).
  destruct Ho as [Ho Hops]. destruct (step_attempts t o r m Hw Hr Ho) as (r' & Hr' & Hid & Hle & Hh).
  specialize (IH (step t o) r' (step_wf t o Hw) Hr'). rewrite Hid in IH. specialize (IH Hops).
  destruct (hands_out (r_id r) m t o); [destruct (Hh eq_refl)|]; lia.
Qed.

(** ** One worker *)

Lemma known_final r : known_outcome r = true → final_status (if re_Outcome r ≟ Retryable then "pending" else re_Outcome r) = true.
Proof.
  unfold known_outcome. intros H. apply bool_decide_eq_true in H. unfold final_status. apply bool_decide_eq_true.
  case_bool_decide as E; set_unfold in H; set_unfold; [by left|]. naive_solver.
Qed.

(** An acknowledgement by the current holder of a lease. *)
Lemma Finish_succeeds i r next now t x :
  known_outcome r = true → wf_tables t → x ∈ tb_outbox t → r_id x = it_ID i → r_status x = "leased" → r_token x = it_LeaseToken i →
  ∃ t', Finish i r next now t = Ok t' ∧
    tb_outbox t' = updated (finish_row (if re_Outcome r ≟ Retryable then "pending" else re_Outcome r) (timestamp next) (re_Detail r)) x (tb_outbox t) ∧
    tb_attempts t' = (tb_attempts t ++ [{| at_outbox := it_ID i; at_attempt := it_Attempts i; at_time := timestamp now;
                                          at_outcome := re_Outcome r; at_detail := re_Detail r |}])%list.
Proof.
  intros Hk Hw Hx Hid Hs Ht. unfold Finish. cbv zeta. rewrite (known_final r Hk). cbn [negb fail_if mbind result_bind].
  destruct (find _ (tb_outbox t)) as [y|] eqn:E.
  - apply find_elem in E as [Hy Hb]. bools. assert (y = x) as -> by (apply (ids_inj t); [done|done|done|congruence]).
    set (f := finish_row _ _ _). destruct (update_row_tables f x t) as (Ho & _ & _ & Ha & _).
    eexists. split; [done|]. destruct (After _ now); cbn -[update_row]; by rewrite Ho, Ha.
  - exfalso. apply find_none with (x := x) in E; [|by apply list_elem_of_In]. rewrite Hid, Z.eqb_refl, Hs, Ht in E.
    by rewrite !bool_decide_eq_true_2 in E.
Qed.

(** *** A lease while it runs *)

(** What others may do without ending a lease: claim before it runs out,
    acknowledge other leases, cancel the deliveries of other watches. *)
Definition leaves_lease (x : row) (o : OutboxFacts.op) : Prop :=
  match o with
  | OClaim now _ _ => timestamp now < r_lease x
  | OFinish i _ _ _ => it_ID i ≠ r_id x ∨ it_LeaseToken i ≠ r_token x
  | OCancel w _ => w ≠ r_watch x
  | OEnqueue _ | ORetry _ _ => True
  end.

Lemma updated_other f (r x : row) l : x ∈ l → r_id x ≠ r_id r → x ∈ updated f r l.
Proof. intros Hx Hne. apply elem_of_map. exists x. by rewrite (proj2 (Z.eqb_neq _ _) Hne). Qed.
Lemma update_row_other f r x t : x ∈ tb_outbox t → r_id x ≠ r_id r → x ∈ tb_outbox (update_row f r t).
Proof. intros Hx Hne. destruct (update_row_tables f r t) as (-> & _). by apply updated_other. Qed.
Lemma update_rows_other f ds x t :
  x ∈ tb_outbox t → (∀ r, r ∈ ds → r_id x ≠ r_id r) → x ∈ tb_outbox (fold_left (fun t r => update_row f r t) ds t).
Proof.
  revert t. induction ds as [|r ds IH]; intros t Hx Hds; [done|]. cbn [fold_left]. apply IH; [|intros y Hy; apply Hds; by right].
  apply update_row_other; [done|]. apply Hds. by left.
Qed.

Lemma lease_kept t o x : wf_tables t → x ∈ tb_outbox t → r_status x = "leased" → leaves_lease x o → x ∈ tb_outbox (OutboxFacts.step t o).
Proof.
  intros Hw Hx Hs Ho. assert (Hne : ∀ y, y ∈ tb_outbox t → y ≠ x → r_id x ≠ r_id y) by (intros y Hy Hn E; by apply Hn, (ids_inj t)).
  destruct o as [i|now lease token|i r next now|id now|w now]; cbn [OutboxFacts.step].
  - destruct (Enqueue i t) as [[t' id]|] eqn:E; [|done]. unfold Enqueue in E. apply fail_if_bind in E as [_ E]. apply fail_if_bind in E as [_ E]. injection E as <- _.
    cbn. apply elem_of_app. by left.
  - destruct (Claim now lease token t) as [[t' [i|]]|] eqn:E; [| |done].
    + destruct (Claim_inv _ _ _ _ _ _ Hw E) as (s & o & d & Hc & Hin & _ & _ & _ & ->). apply update_row_other; [done|]. apply Hne; [done|]. intros ->.
      apply claim_row_elem in Hc as (_ & _ & _ & Hcl). unfold claimable in Hcl. rewrite Hs in Hcl. cbn in Ho. bools. naive_solver lia.
    + unfold Claim in E. apply fail_if_bind in E as [_ E]. destruct (claim_row _ t) as [[s o]|]; [by apply bind_Ok in E as (j & _ & [=])|]. by injection E as <-.
  - destruct (Finish i r next now t) as [t'|] eqn:E; [|done]. unfold Finish in E. cbv zeta in E. apply fail_if_bind in E as [_ E].
    destruct (find _ (tb_outbox t)) as [y|] eqn:Ey; [|done]. apply find_elem in Ey as [Hy Hb]. bools. injection E as <-.
    assert (Hkeep : x ∈ tb_outbox (update_row (finish_row (if re_Outcome r ≟ Retryable then "pending" else re_Outcome r) (timestamp next) (re_Detail r)) y t)); [|by destruct (After _ now)].
    apply update_row_other; [done|]. apply Hne; [done|]. intros ->. cbn in Ho. destruct Ho; congruence.
  - destruct (Retry id now t) as [t'|] eqn:E; [|done]. unfold Retry in E. apply bind_Ok in E as (i & Hi & E). apply fail_if_bind in E as [Hst E].
    destruct (row_of id t) as [y|] eqn:Ey; [|done]. injection E as <-. apply update_row_other; [done|]. unfold read_intent in Hi. rewrite Ey in Hi.
    destruct (find_elem _ _ _ Ey) as [Hy _]. apply Hne; [done|]. intros ->. destruct (tb_revisions t !! _); [|done]. injection Hi as <-. cbn in Hst. by rewrite Hs in Hst.
  - unfold CancelDeliveries. cbv zeta. apply update_rows_other; [done|]. intros y [Hy Hb]%elem_of_filter_bool. bools. apply Hne; [done|]. intros ->. cbn in Ho. congruence.
Qed.
Lemma leases_kept t l x : wf_tables t → x ∈ tb_outbox t → r_status x = "leased" → Forall (leaves_lease x) l → x ∈ tb_outbox (foldl OutboxFacts.step t l).
Proof.
  intros Hw Hx Hs Hl. revert t Hw Hx. induction Hl as [|o l Ho _ IH]; intros t Hw Hx; [done|]. cbn [foldl]. apply IH; [by apply step_wf|by apply lease_kept].
Qed.

(** C33: A worker's round, whatever others do to the outbox between its two
    transactions.  An idle round changes nothing and reports no error.  A busy one
    holds the row [x] it claimed, one attempt further, for thirty seconds.  If
    nobody ends that lease and the second transaction can be committed, the round
    succeeds.  When it succeeds, the row that still carried its token is settled
    with the outcome the policy decided and left without a lease, and exactly one
    attempt record is added.  When it fails, the round itself stores nothing: either the
    transaction could not be committed, or the answer is stale because no row
    carries its lease any more. *)
Theorem DeliverOne_settles env now finished jitter shutdown token meanwhile commit t t' worked e :
  wf_tables t → DeliverOne env now finished jitter shutdown token meanwhile commit t = (t', (worked, e)) →
  (worked = false → e = Ok tt ∧ t' = t) ∧
  (worked = true → ∃ t1 i o, Claim now lease_time token t = Ok (t1, Some i) ∧ o ∈ tb_outbox t ∧
     let x := lease_row token (timestamp (Add now lease_time)) o in
     let t2 := foldl OutboxFacts.step t1 meanwhile in
     let held y := r_id y = r_id x ∧ r_status y = "leased" ∧ r_token y = token in
     let '(r, next) := settle i (attempt_result env i now) finished jitter shutdown in
     let settled := finish_row (if re_Outcome r ≟ Retryable then "pending" else re_Outcome r) (timestamp next) (re_Detail r) in
     x ∈ tb_outbox t1 ∧ r_id x = it_ID i ∧ (commit = true → Forall (leaves_lease x) meanwhile → e = Ok tt) ∧
     (e = Ok tt → commit = true ∧ ∃ y, y ∈ tb_outbox t2 ∧ held y ∧ tb_outbox t' = updated settled y (tb_outbox t2) ∧ r_status (settled y) ≠ "leased" ∧
        tb_attempts t' = (tb_attempts t2 ++ [{| at_outbox := it_ID i; at_attempt := it_Attempts i; at_time := timestamp finished;
                                                at_outcome := re_Outcome r; at_detail := re_Detail r |}])%list) ∧
     (e ≠ Ok tt → t' = t2 ∧ (commit = false ∨ e = Err "stale generation" ∧ ∀ y, y ∈ tb_outbox t2 → ¬ held y))).
Proof.
  intros Hw. unfold DeliverOne. destruct (Claim_succeeds now lease_time token t Hw ltac:(reflexivity)) as (t1 & [i|] & Hc); rewrite Hc.
  2:{ intros [= <- <- <-]. split; [|done]. intros _. split; [done|]. unfold Claim in Hc. apply fail_if_bind in Hc as [_ Hc].
      destruct (claim_row _ t) as [[s o]|]; [by apply bind_Ok in Hc as (j & _ & [=])|]. by injection Hc as <-. }
  pose proof (Claim_wf _ _ _ _ _ _ Hw Hc) as Hw1. destruct (Claim_inv _ _ _ _ _ _ Hw Hc) as (s & o & d & _ & Ho & _ & _ & Hi & Ht1).
  destruct (settle i (attempt_result env i now) finished jitter shutdown) as [r next] eqn:Es.
  pose proof (settle_known _ _ _ _ _ _ _ (attempt_result_known env i now) Es) as Hk.
  set (x := lease_row token (timestamp (Add now lease_time)) o). set (t2 := foldl OutboxFacts.step t1 meanwhile).
  assert (Hx : x ∈ tb_outbox t1).
  { rewrite Ht1. cbn. destruct (update_row_tables (lease_row token (timestamp (Add now lease_time))) o t) as (-> & _). apply updated_elem; auto. }
  assert (Hw2 : wf_tables t2) by by apply steps_wf. intros H.
  assert (Hid : r_id x = it_ID i ∧ token = it_LeaseToken i) by by rewrite Hi. destruct Hid as [Hid Htok].
  assert (Hnot : ∀ st, final_status st = true → st ≠ "leased") by (intros st Hf ->; done).
  assert (Hfin : ∀ y, y ∈ tb_outbox t2 → r_id y = r_id x ∧ r_status y = "leased" ∧ r_token y = token → ∃ t3, Finish i r next finished t2 = Ok t3 ∧ _)
    by (intros y Hy (E1 & E2 & E3); exact (Finish_succeeds i r next finished t2 y Hk Hw2 Hy (eq_trans E1 Hid) E2 (eq_trans E3 Htok))).
  assert (Hdec : (∃ y, y ∈ tb_outbox t2 ∧ r_id y = r_id x ∧ r_status y = "leased" ∧ r_token y = token) ∨ Finish i r next finished t2 = Err "stale generation").
  { unfold Finish. cbv zeta. rewrite (known_final r Hk). cbn [negb fail_if mbind result_bind]. destruct (find _ (tb_outbox t2)) as [y|] eqn:E; [left|by right].
    apply find_elem in E as [Hy Hb]. bools. exists y. rewrite Hid, Htok. done. }
  destruct commit.
  - destruct Hdec as [(y & Hy & Hh)|Hf].
    + destruct (Hfin y Hy Hh) as (t3 & Hf & Hout & Hatt). rewrite Hf in H. injection H as <- <- <-. split; [done|]. intros _. exists t1, i, o.
      rewrite Es. fold x t2. split_and!; try done. intros _. split; [done|]. exists y. destruct Hh as (Hh1 & Hh2 & Hh3). split_and!; try done. by apply Hnot, known_final.
    + rewrite Hf in H. injection H as <- <- <-. split; [done|]. intros _. exists t1, i, o. rewrite Es. fold x t2.
      assert (Hgone : ∀ y, y ∈ tb_outbox t2 → ¬ (r_id y = r_id x ∧ r_status y = "leased" ∧ r_token y = token)).
      { intros y Hy Hh. destruct (Hfin y Hy Hh) as (t3 & Hf' & _). congruence. }
      split_and!; try done; [|by auto]. intros _ Hl. exfalso. by apply (Hgone x); [apply leases_kept|].
  - injection H as <- <- <-. split; [done|]. intros _. exists t1, i, o. rewrite Es. fold x t2. split_and!; try done. by auto.
Qed.

(** * A concrete outbox: two watches share a webhook *)

Definition rev1 : string := cd_Revision compiled_hook.
Definition blank_intent : Intent :=
  {| it_ID := 0; it_EventID := ""; it_WatchID := ""; it_DestinationID := "ops"; it_DestinationRevision := rev1; it_Payload := "{}";
     it_Status := ""; it_Attempts := 0; it_NextAt := zero_time; it_CycleStartedAt := zero_time; it_CreatedAt := moment 100;
     it_LeaseToken := ""; it_Destination := compiled_hook |}.
Definition intent (event watch : string) : Intent :=
  {| it_ID := 0; it_EventID := event; it_WatchID := watch; it_DestinationID := "ops"; it_DestinationRevision := rev1; it_Payload := "{}";
     it_Status := ""; it_Attempts := 0; it_NextAt := moment 100; it_CycleStartedAt := zero_time; it_CreatedAt := moment 100;
     it_LeaseToken := ""; it_Destination := compiled_hook |}.

Definition fresh : tables := empty_tables {["e1"; "e2"; "e3"]} {[("ops", rev1) := compiled_hook]}.
Definition filled : tables :=
  Eval vm_compute in foldl OutboxFacts.step fresh [OEnqueue (intent "e1" "cpu"); OEnqueue (intent "e2" "cpu"); OEnqueue (intent "e3" "disk")].

Lemma filled_run : filled = foldl OutboxFacts.step fresh [OEnqueue (intent "e1" "cpu"); OEnqueue (intent "e2" "cpu"); OEnqueue (intent "e3" "disk")].
Proof. vm_cast_no_check (eq_refl filled). Qed.
Lemma filled_wf : wf_tables filled.
Proof. rewrite filled_run. apply steps_wf, empty_wf. Qed.

Definition claimed_cpu : tables * Intent :=
  match Claim (moment 101) lease_time "k1" filled with Ok (t, Some i) => (t, i) | _ => (filled, blank_intent) end.
Lemma claimed_cpu_ok : Claim (moment 101) lease_time "k1" filled = Ok (fst claimed_cpu, Some (snd claimed_cpu)).
Proof. vm_cast_no_check (eq_refl (Ok (fst claimed_cpu, Some (snd claimed_cpu)))). Qed.
Lemma claimed_wf : wf_tables (fst claimed_cpu).
Proof. exact (Claim_wf _ _ _ _ _ _ filled_wf claimed_cpu_ok). Qed.

Lemma Claim_in_order_witness :
  it_ID (snd claimed_cpu) = 1 ∧ ∀ r, r ∈ tb_outbox filled → is_live r = true → row_key r = ("cpu", "ops") → 1 <= r_id r.
Proof.
  split; [vm_compute; reflexivity|].
  exact (proj1 (Claim_in_order (moment 101) lease_time "k1" filled (fst claimed_cpu) (snd claimed_cpu) filled_wf claimed_cpu_ok)).
Defined.

(** With the first intent leased, the other watch's intent is due already. *)
Lemma NextDelivery_exact_witness : ∃ t' i, Claim (moment 102) lease_time "k2" (fst claimed_cpu) = Ok (t', Some i).
Proof.
  apply (NextDelivery_exact (moment 102) lease_time "k2" (fst claimed_cpu) claimed_wf).
  - reflexivity.
  - vm_compute. discriminate.
  - eexists. split; [vm_compute; reflexivity|]. vm_compute. discriminate.
Defined.

(** One claim passes the disk stream over; a second one must serve it. *)
Lemma Claim_fair_witness :
  (claims filled [OClaim (moment 101) lease_time "k1"; OEnqueue (intent "e3" "cpu")] < length (tb_streams filled))%nat ∧
  served (fst claimed_cpu) (OClaim (moment 102) lease_time "k2") = Some ("disk", "ops").
Proof.
  split; [|vm_compute; reflexivity].
  apply (Claim_fair "disk" "ops" filled); [exact filled_wf| |vm_compute; reflexivity].
  apply (bool_decide_eq_true_1 _). vm_compute. reflexivity.
Defined.

Definition delivered_result : Result := {| re_Outcome := Delivered; re_RetryAt := zero_time; re_Detail := "" |}.
Definition acked : op := OFinish (snd claimed_cpu) delivered_result (moment 103) (moment 103).

Lemma acknowledged_once_witness :
  acknowledged "k1" filled [OClaim (moment 101) lease_time "k1"; acked; acked] = 1%nat ∧
  (acknowledged "k1" filled [OClaim (moment 101) lease_time "k1"; acked; acked] <= 1)%nat.
Proof.
  split; [vm_compute; reflexivity|].
  exact (acknowledged_once "k1" filled [OClaim (moment 101) lease_time "k1"; acked; acked] ltac:(discriminate) filled_wf).
Defined.

Definition after_ack : tables := OutboxFacts.step (fst claimed_cpu) acked.
Lemma after_ack_wf : wf_tables after_ack.
Proof. apply step_wf, claimed_wf. Qed.
Definition first_row : row := Eval vm_compute in default (mkRow 0 "" "" "" "" "" "" 0 0 0 "" 0 "" 0) (head (tb_outbox after_ack)).

Lemma delivered_final_witness :
  first_row ∈ tb_outbox (foldl OutboxFacts.step after_ack [ORetry 1 (moment 104); OCancel "cpu" (moment 105); OClaim (moment 106) lease_time "k3"]).
Proof.
  apply (delivered_final after_ack); [exact after_ack_wf| |reflexivity].
  replace (tb_outbox after_ack) with (first_row :: tail (tb_outbox after_ack)) by (vm_compute; reflexivity). left.
Defined.

(** ** A worker *)

Definition no_decoders : Decoders :=
  {| dec_time := fun _ => None; dec_discord_retry := fun _ => None; dec_telegram_retry := fun _ => None; dec_telegram := fun _ => None;
     dec_pagerduty := fun _ => None |}.
(** A receiver that answers 503 with a retry hint. *)
Definition busy : Environment :=
  {| env_lookup := Some (fun name => if name ≟ "HOOK_URL" then Some "https://example.org/hook" else None); env_console := fun _ => Interrupted;
     env_message := fun _ => true; env_notify := None; env_url := simple_url; env_header := fun s => s;
     env_http := fun _ => Replied {| rs_StatusCode := 503; rs_RetryAfter := "30"; rs_Body := Some "" |}; env_decoders := no_decoders |}.

Example busy_result : attempt_result busy (snd claimed_cpu) (moment 101) =
  {| re_Outcome := Retryable; re_RetryAt := moment 131; re_Detail := "HTTP 503" |}.
Proof. vm_compute. reflexivity. Qed.

Lemma settle_within_policy_witness :
  let '(r, next) := settle (snd claimed_cpu) (attempt_result busy (snd claimed_cpu) (moment 101)) (moment 102) 0 false in
  re_Outcome r = Retryable ∧ next = moment 131 ∧ Add (moment 102) (retry_delay (snd claimed_cpu)) <= next.
Proof.
  destruct (settle _ _ _ _ _) as [r next] eqn:E.
  assert (Hr : re_Outcome r = Retryable) by (vm_compute in E; injection E as <- _; reflexivity).
  split; [exact Hr|]. split; [vm_compute in E; injection E as _ <-; reflexivity|].
  exact (proj1 (proj2 (proj2 (settle_within_policy _ _ _ 0 r next (Z.le_refl 0) E Hr)))).
Defined.

(** A round that meets another worker and a new intent, and one that finds its
    intent canceled. *)
Definition busy_round (meanwhile : list OutboxFacts.op) : tables * (bool * result unit) :=
  DeliverOne busy (moment 101) (moment 102) 0 false "k1" meanwhile true filled.
Lemma round_parts {A B C : Type} (x : A * (B * C)) : x = (fst x, (fst (snd x), snd (snd x))).
Proof. by destruct x as [? []]. Qed.
Lemma busy_round_parts l :
  DeliverOne busy (moment 101) (moment 102) 0 false "k1" l true filled = (fst (busy_round l), (fst (snd (busy_round l)), snd (snd (busy_round l)))).
Proof. unfold busy_round. apply round_parts. Qed.
Abbreviation shared_round := (busy_round [OClaim (moment 102) lease_time "k2"]).
Abbreviation canceled_round := (busy_round [OCancel "cpu" (moment 102)]).
Lemma shared_round_result :
  fst (snd shared_round) = true ∧ length (tb_attempts (fst shared_round)) = 1%nat ∧ (r_status <$> head (tb_outbox (fst shared_round))) = Some "pending".
Proof. split_and!; vm_compute; reflexivity. Qed.
Lemma canceled_round_result : fst (snd canceled_round) = true ∧ snd (snd canceled_round) = Err "stale generation".
Proof. split; vm_compute; reflexivity. Qed.

Lemma DeliverOne_settles_witness :
  (fst (snd shared_round) = true ∧ snd (snd shared_round) = Ok tt ∧ length (tb_attempts (fst shared_round)) = 1%nat ∧
   (r_status <$> head (tb_outbox (fst shared_round))) = Some "pending") ∧
  (fst (snd canceled_round) = true ∧ snd (snd canceled_round) = Err "stale generation" ∧
   ∃ t1 i, Claim (moment 101) lease_time "k1" filled = Ok (t1, Some i) ∧ fst canceled_round = OutboxFacts.step t1 (OCancel "cpu" (moment 102))).
Proof.
  destruct shared_round_result as (Hw1 & Ha & Hs), canceled_round_result as [Hw2 He]. split.
  - split; [exact Hw1|]. split; [|split; [exact Ha|exact Hs]].
    destruct (proj2 (DeliverOne_settles busy (moment 101) (moment 102) 0 false "k1" [OClaim (moment 102) lease_time "k2"] true filled _ _ _ filled_wf (busy_round_parts _)) Hw1)
      as (t1 & i & o & _ & _ & H). destruct (settle _ _ _ _ _) as [r next]. destruct H as (_ & _ & Hok & _). refine (Hok eq_refl _).
    constructor; [|constructor]. cbn [leaves_lease]. vm_compute. reflexivity.
  - split; [exact Hw2|]. split; [exact He|].
    destruct (proj2 (DeliverOne_settles busy (moment 101) (moment 102) 0 false "k1" [OCancel "cpu" (moment 102)] true filled _ _ _ filled_wf (busy_round_parts _)) Hw2)
      as (t1 & i & o & Hc & _ & H). exists t1, i. split; [exact Hc|]. destruct (settle _ _ _ _ _) as [r next]. destruct H as (_ & _ & _ & _ & H).
    refine (proj1 (H _)). rewrite He. discriminate.
Defined.

Definition third_row : row := Eval vm_compute in default (mkRow 0 "" "" "" "" "" "" 0 0 0 "" 0 "" 0) (list.last (tb_outbox filled)).

Lemma attempts_bounded_witness :
  (handouts 3 8 filled [OClaim (moment 101) lease_time "k1"; OClaim (moment 102) lease_time "k2"; OClaim (moment 200) lease_time "k3";
                        OClaim (moment 201) lease_time "k4"] <= 8)%nat.
Proof.
  apply (attempts_bounded filled _ third_row 8 filled_wf); [|vm_compute; reflexivity].
  replace (tb_outbox filled) with (take 2 (tb_outbox filled) ++ [third_row])%list by (vm_compute; reflexivity). apply elem_of_app. right. left.
Defined.
