(* ===== verification/Transform.v ===== *)
(** * Bounded JSON input: [internal/transform]

    [ValidateJSON] walks the tokens of [json.Decoder], which is modelled with its
    own state machine, before a document is projected; [Project] selects flat
    scalar fields from the documents an itemsPath or a jq program yields.  The jq
    interpreter is third-party: compiled, a program is a function from its input
    to the sequence of its outputs.  The deadline of a context is a predicate on
    the number of the check that asks. *)
From S2P Require Import Prelude GoText GoFloat GoJson GoRegexp.

Definition ErrLimit : string := "JSON output exceeds configured limit".
Definition ErrDeadline : string := "context deadline exceeded".

(** ** [json.Decoder.Token] *)

Inductive tstate := TopValue | ArrayStart | ArrayValue | ArrayComma | ObjectStart | ObjectKey | ObjectColon | ObjectValue | ObjectComma.
#[global] Instance tstate_eq_dec : EqDecision tstate.
Proof. solve_decision. Defined.

Record decoder := mkDecoder { de_rest : string; de_state : tstate; de_stack : list tstate }.

(** A delimiter, a key or string, a number (under [UseNumber] its text, of which
    the program asks the float64), or another scalar. *)
Inductive json_token :=
| Delim (c : ascii)
| TokString (s : string)
| TokNumber (f : option float64)
| TokOther.

Definition tokenValueAllowed (s : tstate) : bool :=
  match s with TopValue | ArrayStart | ArrayValue | ObjectValue => true | _ => false end.
Definition tokenValueEnd (s : tstate) : tstate :=
  match s with ArrayStart | ArrayValue => ArrayComma | ObjectValue => ObjectComma | s => s end.

Definition ends_array (s : tstate) : bool := match s with ArrayStart | ArrayComma => true | _ => false end.
Definition ends_object (s : tstate) : bool := match s with ObjectStart | ObjectComma => true | _ => false end.
Definition wants_key (s : tstate) : bool := match s with ObjectStart | ObjectKey => true | _ => false end.

(** [Decode] of a scalar that is not a string. *)
Definition scan_scalar (s : string) : option (json_token * string) :=
  match first_prefix ["true"; "false"; "null"] s with
  | Some r => Some (TokOther, r)
  | None => '(f, r) ← scan_number_text s; Some (TokNumber f, r)
  end.

Definition push_state (d : decoder) (r : string) (s : tstate) : decoder := mkDecoder r s (de_state d :: de_stack d).
Definition pop_state (d : decoder) (r : string) : decoder :=
  match de_stack d with
  | s :: stack => mkDecoder r (tokenValueEnd s) stack
  | [] => mkDecoder r TopValue []
  end.

(** One token; commas and colons only move the state.  [None] is an error or the
    end of the input; a colon or comma is followed by a token, so two rounds are
    enough. *)
Fixpoint Token_rounds (fuel : nat) (d : decoder) : option (json_token * decoder) :=
  match skip_space (de_rest d) with
  | "" => None
  | String c r as s =>
      let st := de_state d in
      if c ≟ "["%char then
        if tokenValueAllowed st then Some (Delim c, push_state d r ArrayStart) else None
      else if c ≟ "]"%char then
        if ends_array st then Some (Delim c, pop_state d r) else None
      else if c ≟ "{"%char then
        if tokenValueAllowed st then Some (Delim c, push_state d r ObjectStart) else None
      else if c ≟ "}"%char then
        if ends_object st then Some (Delim c, pop_state d r) else None
      else if c ≟ ":"%char then
        match st, fuel with
        | ObjectColon, S fuel => Token_rounds fuel (mkDecoder r ObjectValue (de_stack d))
        | _, _ => None
        end
      else if c ≟ ","%char then
        match st, fuel with
        | ArrayComma, S fuel => Token_rounds fuel (mkDecoder r ArrayValue (de_stack d))
        | ObjectComma, S fuel => Token_rounds fuel (mkDecoder r ObjectKey (de_stack d))
        | _, _ => None
        end
      else if zb c =? 34 then
        if wants_key st then
          '(x, r) ← read_string r; Some (TokString x, mkDecoder r ObjectColon (de_stack d))
        else if tokenValueAllowed st then
          '(x, r) ← read_string r; Some (TokString x, mkDecoder r (tokenValueEnd st) (de_stack d))
        else None
      else if tokenValueAllowed st then
        '(t, r) ← scan_scalar s; Some (t, mkDecoder r (tokenValueEnd st) (de_stack d))
      else None
  end.
Definition Token (d : decoder) : option (json_token * decoder) := Token_rounds 2 d.

(** [More]: the next byte closes nothing. *)
Definition More (d : decoder) : bool :=
  match skip_space (de_rest d) with
  | "" => false
  | String c _ => negb (c ≟ "]"%char) && negb (c ≟ "}"%char)
  end.

(** ** [ValidateJSON] *)

Definition trunc_float (x : float64) : bool :=
  match x with
  | S754_zero _ => true
  | S754_finite _ m e => if 0 <=? e then true else (Zpos m mod 2 ^ (- e) =? 0)
  | _ => false
  end.
Definition magnitude (x : float64) : float64 :=
  match x with S754_finite _ m e => S754_finite false m e | S754_zero _ => S754_zero false | S754_infinity _ => S754_infinity false | S754_nan => S754_nan end.
Definition max_exact : float64 := of_int 9007199254740991.

Definition bad_number (f : option float64) : bool :=
  match f with
  | None => true
  | Some f => IsInf f || IsNaN f || (trunc_float f && flt max_exact (magnitude f))
  end.

Section Validate.
Context (expired : Z → bool) (maxDepth maxNodes : Z).

(** The closure [value]; the state is the number of nodes and the decoder.  Every
    call reads a token, so the length of the input is enough fuel. *)
Fixpoint check_value (fuel : nat) (depth nodes : Z) (d : decoder) : result (Z * decoder) :=
  match fuel with
  | O => Err "fuel"
  | S fuel =>
      let nodes := nodes + 1 in
      fail_if ((maxDepth <? depth) || (maxNodes <? nodes)) ErrLimit ;;
      fail_if (expired nodes) ErrDeadline ;;
      match Token d with
      | None => Err "invalid JSON"
      | Some (Delim c, d) =>
          if c ≟ "{"%char then
            '(nodes, d) ← check_members fuel depth nodes ∅ d;
            match Token d with
            | Some (Delim c, d) => if c ≟ "}"%char then Ok (nodes, d) else Err "invalid object"
            | _ => Err "invalid object"
            end
          else if c ≟ "["%char then
            '(nodes, d) ← check_elements fuel depth nodes d;
            match Token d with
            | Some (Delim c, d) => if c ≟ "]"%char then Ok (nodes, d) else Err "invalid array"
            | _ => Err "invalid array"
            end
          else Err "unexpected delimiter"
      | Some (TokNumber f, d) =>
          fail_if (bad_number f) "number outside supported range; encode large identifiers as strings" ;; Ok (nodes, d)
      | Some (_, d) => Ok (nodes, d)
      end
  end
with check_members (fuel : nat) (depth nodes : Z) (seen : gset string) (d : decoder) : result (Z * decoder) :=
  match fuel with
  | O => Err "fuel"
  | S fuel =>
      if negb (More d) then Ok (nodes, d) else
      match Token d with
      | None => Err "invalid object key"
      | Some (TokString name, d) =>
          if bool_decide (name ∈ seen) then Err "duplicate or invalid object key" else
          '(nodes, d) ← check_value fuel (depth + 1) nodes d;
          check_members fuel depth nodes ({[ name ]} ∪ seen) d
      | Some _ => Err "duplicate or invalid object key"
      end
  end
with check_elements (fuel : nat) (depth nodes : Z) (d : decoder) : result (Z * decoder) :=
  match fuel with
  | O => Err "fuel"
  | S fuel =>
      if negb (More d) then Ok (nodes, d) else
      '(nodes, d) ← check_value fuel (depth + 1) nodes d;
      check_elements fuel depth nodes d
  end.

Definition start (raw : string) : decoder := mkDecoder raw TopValue [].

(** The nodes it visited; the code drops the number. *)
Definition ValidateJSON (raw : string) : result Z :=
  fail_if (negb (ValidString raw)) "JSON must be UTF-8" ;;
  fail_if (negb (HasPrefix (TrimSpace raw) "{")) "JSON input must be an object" ;;
  '(nodes, d) ← check_value (2 * String.length raw + 2) 1 0 (start raw);
  fail_if (negb (skip_space (de_rest d) ≟ "")) "expected one JSON document" ;;
  Ok nodes.
End Validate.

(** ** [Project] *)

Definition Scalar (v : value) : bool :=
  match v with
  | VNil | VBool _ | VInt _ | VInt64 _ => true
  | VString s => ValidString s
  | VFloat f => negb (IsNaN f) && negb (IsInf f)
  | VArray _ | VObject _ => false
  end.

Fixpoint Field_path (parts : list string) (v : value) : option value :=
  match parts with
  | [] => Some v
  | part :: parts => match v with VObject l => obj_get part l ≫= Field_path parts | _ => None end
  end.
Definition Field (v : value) (path : string) : option value := Field_path (Split path ".") v.

(** One step of the iterator over the inputs: a value or an error. *)
Inductive output := Output (v : value) | Failed.

Section Project.
Context (CompileJQ : string → result (value → list output)) (expired : Z → bool).

(** The fields of one output. *)
Definition select (fields_ : gmap string string) (v : value) : result fields :=
  match v with
  | VObject l =>
      if decide (fields_ = ∅) then
        fail_if (negb (forallb (fun kv => Scalar (snd kv)) l)) "output fields must be scalar; select nested fields explicitly" ;;
        Ok (list_to_map l)
      else
        let selected := omap (fun path => Field v path) fields_ in
        fail_if (bool_decide (¬ map_Forall (fun _ v => Scalar v = true) selected)) "selected fields must be scalar" ;;
        Ok selected
  | _ => Err "transform output must be an object"
  end.

(** The loop; [n] is the number of outputs so far, [used] their encoded bytes. *)
Fixpoint project_loop (fields_ : gmap string string) (maxOutputs maxBytes : Z) (n used : Z) (values : list output) : result (list fields) :=
  fail_if (expired n) ErrDeadline ;;
  match values with
  | [] => Ok []
  | Failed :: _ => Err "transform evaluation failed"
  | Output v :: values =>
      fail_if (maxOutputs <=? n) ErrLimit ;;
      selected ← select fields_ v;
      match MarshalFields selected, copy_fields selected with
      | Some encoded, Some copied =>
          let used := used + len encoded in
          fail_if (maxBytes <? used) ErrLimit ;;
          rest ← project_loop fields_ maxOutputs maxBytes (n + 1) used values;
          Ok ((copied ∪ selected) :: rest)
      | _, _ => Err "invalid transform output"
      end
  end.

Definition project_inputs (expression itemsPath : string) (maxOutputs : Z) (input : value) : result (list output) :=
  if negb (itemsPath ≟ "") then
    fail_if (negb (expression ≟ "")) "itemsPath cannot be combined with jq" ;;
    match Field input itemsPath with
    | Some (VArray ((_ :: _) as items)) =>
        fail_if (maxOutputs <? Z.of_nat (length items)) ErrLimit ;; Ok (map Output items)
    | _ => Err "itemsPath must select a nonempty array"
    end
  else if negb (expression ≟ "") then code ← CompileJQ expression; Ok (code input)
  else Ok [Output input].

Definition Project (raw expression : string) (fields_ : gmap string string) (maxOutputs maxBytes : Z) (itemsPath : string) : result (list fields) :=
  fail_if ((maxOutputs <? 1) || (maxBytes <? 1) || (maxBytes <? len raw) || negb (ValidString raw))
    "transform input exceeds limits or is not UTF-8" ;;
  input ← match Unmarshal raw with Some v => Ok v | None => Err "invalid source JSON" end;
  values ← project_inputs expression itemsPath maxOutputs input;
  project_loop fields_ maxOutputs maxBytes 0 0 values.
End Project.

(** ** Examples *)

Definition never_expired (n : Z) : bool := false.
Definition validated (s : string) : Z := match ValidateJSON never_expired 4 10 (dq s) with Ok n => n | Err _ => -1 end.

Example ValidateJSON_cases :
  map validated ["{'a':1,'b':[true,null]}"; "{}"; " { 'a' : { 'b' : { 'c' : 1 } } } "; "{'a':{'b':{'c':{'d':1}}}}"; "{'a':1,'a':2}"; "[1]"; "{'a':1}x";
    "{'a':9007199254740993}"; "{'a':9007199254740991}"; "{'a':1e999}"; "{'a':[1,]}"; "{'a':[1 2]}"; "{'a' 1}"; "{'a':01}"; "{'a':0.5}"; "{,}"; "{'a':1,}"; ""]
  = [5; 1; 4; -1; -1; -1; -1; -1; 2; -1; -1; -1; -1; -1; 2; -1; -1; -1].
Proof. vm_compute. reflexivity. Qed.
