(* ===== verification/TransformFacts.v ===== *)
(** * What the structural check of a document guarantees

    The token walk of [ValidateJSON] and the reader of [json.Unmarshal] are two
    readers of the same text; a document the first accepts is read by the second
    as an object with the same number of nodes, so no member of it is lost to a
    duplicate key. *)
From S2P Require Import Prelude GoText GoFloat GoJson GoRegexp Transform.

Abbreviation slen := String.length.

(** ** Lengths *)

Lemma span_app f s a b : span f s = (a, b) → s = a ++ b.
Proof.
  revert a b. induction s as [|c s IH]; intros a b; cbn; [by intros [= <- <-]|].
  destruct (f c); [|by intros [= <- <-]]. destruct (span f s) as [x y]. intros [= <- <-]. cbn. by rewrite (IH x y).
Qed.

Lemma skip_space_length s : (slen (skip_space s) <= slen s)%nat.
Proof.
  unfold skip_space. destruct (span json_space s) as [a b] eqn:E. apply span_app in E. subst. cbn. rewrite str_length_app. lia.
Qed.

Lemma skip_space_starts s c r : skip_space s = String c r → json_space c = false.
Proof.
  unfold skip_space. induction s as [|d s IH]; cbn [span]; [done|]. destruct (json_space d) eqn:E.
  - revert IH. destruct (span json_space s) as [a b]. auto.
  - cbn. by intros [= <- <-].
Qed.

Lemma skip_space_idem s : skip_space (skip_space s) = skip_space s.
Proof.
  destruct (skip_space s) as [|c r] eqn:E; [done|]. apply skip_space_starts in E. unfold skip_space. cbn [span]. by rewrite E.
Qed.

Lemma digits1_length s d r : digits1 s = Some (d, r) → (slen s = slen d + slen r ∧ 0 < slen d)%nat.
Proof.
  unfold digits1. destruct (span is_digit s) as [a b] eqn:E. case_bool_decide as Ha; [done|]. intros [= <- <-].
  apply span_app in E. subst. rewrite str_length_app. split; [done|]. destruct a; [done|]. cbn. lia.
Qed.

Lemma scan_frac_length s d r : scan_frac s = Some (d, r) → (slen r <= slen s)%nat.
Proof.
  unfold scan_frac. intros H. destruct s as [|c s]; [by simplify_eq|].
  destruct (decide (c = "."%char)) as [->|Hc].
  - apply digits1_length in H as [H _]. cbn. lia.
  - destruct c as [[] [] [] [] [] [] [] []]; simplify_eq; done.
Qed.

Lemma scan_exp_length s e r : scan_exp s = Some (e, r) → (slen r <= slen s)%nat.
Proof.
  unfold scan_exp. destruct s as [|c s]; [by intros [= <- <-]|]. destruct (_ || _); [|by intros [= <- <-]].
  assert (∃ neg t, match s with String "+" r => (false, r) | String "-" r => (true, r) | _ => (false, s) end = (neg, t) ∧ (slen t <= slen s)%nat)
    as (neg & t & -> & Ht).
  { destruct s as [|d s]; [by exists false, ""|]. destruct d as [[] [] [] [] [] [] [] []]; eexists _, _; (split; [reflexivity|cbn; lia]). }
  intros H. apply bind_Some in H as ([d u] & Hd & H). simplify_eq. apply digits1_length in Hd. cbn. lia.
Qed.

Lemma str_drop_length n s : slen (str_drop n s) = (slen s - n)%nat.
Proof. revert s. induction n as [|n IH]; intros [|c s]; cbn; auto. Qed.

Lemma scan_number_text_length s x r : scan_number_text s = Some (x, r) → (slen r < slen s)%nat.
Proof.
  unfold scan_number_text.
  assert (∃ neg t, match s with String "-" r => (true, r) | _ => (false, s) end = (neg, t) ∧ (slen t <= slen s)%nat) as (neg & t & -> & Ht).
  { destruct s as [|d s]; [by exists false, ""|]. destruct d as [[] [] [] [] [] [] [] []]; eexists _, _; (split; [reflexivity|cbn; lia]). }
  intros H. apply bind_Some in H as ([int u] & Hi & H). apply digits1_length in Hi.
  assert (∃ int' u', (if HasPrefix int "0" then ("0", str_drop 1 int ++ u) else (int, u)) = (int', u') ∧ (slen u' < slen t)%nat)
    as (int' & u' & E & Hu).
  { destruct (HasPrefix int "0"); eexists _, _; (split; [reflexivity|]); rewrite ?str_length_app, ?str_drop_length; lia. }
  rewrite E in H. apply bind_Some in H as ([fr u2] & Hf & H). apply bind_Some in H as ([e u3] & He & H).
  apply scan_frac_length in Hf. apply scan_exp_length in He. destruct (scale10 _ _ _). simplify_eq. lia.
Qed.

Lemma strip_prefix_length p s r : strip_prefix p s = Some r → slen s = (slen p + slen r)%nat.
Proof. intros H%strip_prefix_Some. subst. apply str_length_app. Qed.

Lemma hex4_length s n r : hex4 s = Some (n, r) → slen s = (4 + slen r)%nat.
Proof.
  destruct s as [|a [|b [|c [|d s]]]]; try done. cbn [hex4]. intros H.
  do 4 (apply bind_Some in H as (? & _ & H)). by simplify_eq.
Qed.

Lemma scan_u_length s t r : scan_u s = Some (t, r) → (slen r < slen s)%nat.
Proof.
  unfold scan_u. intros H. apply bind_Some in H as ([n u] & Hn & H). apply hex4_length in Hn.
  destruct (_ || _); [simplify_eq; lia|]. destruct (n <? _); [|simplify_eq; lia].
  assert ((∃ r2, u = String "\" (String "u" r2) ∧ ('(lo, r3) ← hex4 r2;
        if (0xDC00 <=? lo) && (lo <=? 0xDFFF)
        then Some (encode_rune ((n - 0xD800) * 1024 + (lo - 0xDC00) + 0x10000), r3)
        else Some (replacement, u)) = Some (t, r)) ∨ r = u) as [(r2 & -> & H2)| ->]; [| |lia].
  { destruct u as [|c u]; [right; by simplify_eq|].
    destruct (decide (c = "\"%char)) as [->|Hc]; [|right; destruct c as [[] [] [] [] [] [] [] []]; simplify_eq; done].
    destruct u as [|c u]; [right; by simplify_eq|].
    destruct (decide (c = "u"%char)) as [->|Hc]; [left; by exists u|right; destruct c as [[] [] [] [] [] [] [] []]; simplify_eq; done]. }
  apply bind_Some in H2 as ([lo r3] & Hlo & H2). apply hex4_length in Hlo. cbn in Hn. destruct (_ && _); simplify_eq; cbn; lia.
Qed.

Lemma scan_escape_length s t r : scan_escape s = Some (t, r) → (slen r < slen s)%nat.
Proof.
  unfold scan_escape. destruct s as [|c s]; [done|]. intros H.
  assert (scan_u s = Some (t, r) ∨ r = s) as [Hu| ->]; [|apply scan_u_length in Hu; cbn; lia|cbn; lia].
  destruct (decide (c = "u"%char)) as [->|Hc]; [by left|right].
  destruct c as [[] [] [] [] [] [] [] []]; first [by destruct (Hc eq_refl) | by destruct (str_existsb _ _); simplify_eq].
Qed.

Lemma scan_string_length fuel s t r : scan_string fuel s = Some (t, r) → (slen r < slen s)%nat.
Proof.
  revert s t r. induction fuel as [|fuel IH]; intros s t r H; [done|]. destruct s as [|c s]; [done|]. cbn [scan_string] in H.
  destruct (zb c =? 34); [simplify_eq; cbn; lia|]. destruct (zb c =? 92).
  - apply bind_Some in H as ([x u] & Hx & H). apply bind_Some in H as ([y v] & Hy & H). simplify_eq.
    apply scan_escape_length in Hx. apply IH in Hy. cbn. lia.
  - destruct (zb c <? 32); [done|]. destruct (decode1 (String c s)) as [[p u]|] eqn:E; [|done].
    apply bind_Some in H as ([y v] & Hy & H). simplify_eq. apply decode1_shrinks in E. apply IH in Hy. lia.
Qed.

Lemma read_string_length s t r : read_string s = Some (t, r) → (slen r < slen s)%nat.
Proof. apply scan_string_length. Qed.

Lemma first_prefix_length l s r : Forall (fun p => 0 < slen p)%nat l → first_prefix l s = Some r → (slen r < slen s)%nat.
Proof.
  induction 1 as [|p l Hp Hl IH]; cbn; [done|]. destruct (strip_prefix p s) eqn:E; [|done].
  intros [= ->]. apply strip_prefix_length in E. lia.
Qed.

Lemma scan_scalar_length s t r : scan_scalar s = Some (t, r) → (slen r < slen s)%nat.
Proof.
  unfold scan_scalar. destruct (first_prefix _ s) as [u|] eqn:E.
  - intros [= <- <-]. eapply first_prefix_length; [|exact E]. repeat constructor.
  - intros H. apply bind_Some in H as ([x v] & Hx & H). simplify_eq. by apply scan_number_text_length in Hx.
Qed.

(** ** Measures of a value *)

Fixpoint value_nodes (v : value) : Z :=
  match v with
  | VArray l => 1 + foldr (fun x n => value_nodes x + n) 0 l
  | VObject l => 1 + foldr (fun kv n => value_nodes (snd kv) + n) 0 l
  | _ => 1
  end.
Fixpoint value_depth (v : value) : Z :=
  match v with
  | VArray l => 1 + foldr (fun x n => Z.max (value_depth x) n) 0 l
  | VObject l => 1 + foldr (fun kv n => Z.max (value_depth (snd kv)) n) 0 l
  | _ => 1
  end.
(** The integer a float is, if it is one. *)
Definition integer_value (x : float64) : option Z :=
  match x with
  | S754_zero _ => Some 0
  | S754_finite s m e =>
      let n := if 0 <=? e then Zpos m * 2 ^ e else Zpos m / 2 ^ (- e) in
      if (0 <=? e) || (Zpos m mod 2 ^ (- e) =? 0) then Some (if s : bool then - n else n) else None
  | _ => None
  end.
(** A number that is finite and, if it is an integer, one of those that float64
    represents together with both neighbours. *)
Definition exact_number (x : float64) : bool :=
  is_finite x && match integer_value x with Some n => Z.abs n <? 2 ^ 53 | None => true end.
Fixpoint exact_numbers (v : value) : bool :=
  match v with
  | VFloat f => exact_number f
  | VArray l => forallb exact_numbers l
  | VObject l => forallb (fun kv => exact_numbers (snd kv)) l
  | _ => true
  end.

Definition members_nodes (l : list (string * value)) : Z := foldr (fun kv n => value_nodes (snd kv) + n) 0 l.
Definition members_depth (l : list (string * value)) : Z := foldr (fun kv n => Z.max (value_depth (snd kv)) n) 0 l.
Definition members_exact (l : list (string * value)) : bool := forallb (fun kv => exact_numbers (snd kv)) l.
Definition elements_nodes (l : list value) : Z := foldr (fun x n => value_nodes x + n) 0 l.
Definition elements_depth (l : list value) : Z := foldr (fun x n => Z.max (value_depth x) n) 0 l.

Lemma members_nodes_perm l k : l ≡ₚ k → members_nodes l = members_nodes k.
Proof. unfold members_nodes. induction 1; cbn; lia. Qed.
Lemma members_depth_perm l k : l ≡ₚ k → members_depth l = members_depth k.
Proof. unfold members_depth. induction 1; cbn; lia. Qed.
Lemma members_exact_perm l k : l ≡ₚ k → members_exact l = members_exact k.
Proof.
  unfold members_exact. induction 1; cbn; [done| | |congruence]; [by f_equal|]. by destruct (exact_numbers x.2), (exact_numbers y.2).
Qed.

Lemma object_of_perm l : NoDup (l.*1) → ∃ k, object_of l = VObject k ∧ k ≡ₚ l.
Proof.
  intros Hn. exists (sorted_fields (list_to_map (reverse l))). split; [done|]. unfold sorted_fields.
  rewrite merge_sort_Permutation, map_to_list_to_map; [by rewrite reverse_Permutation|].
  rewrite fmap_reverse. by rewrite reverse_Permutation.
Qed.

Lemma object_of_measures l : NoDup (l.*1) →
  value_nodes (object_of l) = 1 + members_nodes l ∧ value_depth (object_of l) = 1 + members_depth l ∧ exact_numbers (object_of l) = members_exact l.
Proof.
  intros (k & -> & Hk)%object_of_perm.
  pose proof (members_nodes_perm _ _ Hk). pose proof (members_depth_perm _ _ Hk). pose proof (members_exact_perm _ _ Hk).
  unfold members_nodes, members_depth, members_exact in *. cbn. by repeat split; congruence.
Qed.

(** ** Tokens *)

(** Decides which byte comes next. *)
Ltac next_byte :=
  match goal with |- context [if bool_decide (?c = ?k) then _ else _] => case_bool_decide; [subst c|] end.

Lemma Token_colon d t d' : de_state d = ObjectColon → Token d = Some (t, d') →
  ∃ r, skip_space (de_rest d) = String ":" r ∧ Token_rounds 1 (mkDecoder r ObjectValue (de_stack d)) = Some (t, d').
Proof.
  intros Hs. unfold Token. cbn [Token_rounds]. rewrite Hs. cbn [tokenValueAllowed ends_array ends_object wants_key].
  destruct (skip_space (de_rest d)) as [|c r]; [done|].
  do 4 (next_byte; [done|]). next_byte; [by eauto|]. next_byte; [done|]. by destruct (zb c =? 34).
Qed.

Lemma Token_array_comma d t d' : de_state d = ArrayComma → Token d = Some (t, d') →
  ∃ c r, skip_space (de_rest d) = String c r ∧
    ((c = "]"%char ∧ t = Delim c ∧ d' = pop_state d r) ∨
     (c = ","%char ∧ Token_rounds 1 (mkDecoder r ArrayValue (de_stack d)) = Some (t, d'))).
Proof.
  intros Hs. unfold Token. cbn [Token_rounds]. rewrite Hs. cbn [tokenValueAllowed ends_array ends_object wants_key].
  destruct (skip_space (de_rest d)) as [|c r]; [done|]. intros H. exists c, r. split; [done|]. revert H.
  next_byte; [done|]. next_byte; [intros [= <- <-]; by left|]. do 3 (next_byte; [done|]).
  next_byte; [by right|]. by destruct (zb c =? 34).
Qed.

Lemma Token_object_comma d t d' : de_state d = ObjectComma → Token d = Some (t, d') →
  ∃ c r, skip_space (de_rest d) = String c r ∧
    ((c = "}"%char ∧ t = Delim c ∧ d' = pop_state d r) ∨
     (c = ","%char ∧ Token_rounds 1 (mkDecoder r ObjectKey (de_stack d)) = Some (t, d'))).
Proof.
  intros Hs. unfold Token. cbn [Token_rounds]. rewrite Hs. cbn [tokenValueAllowed ends_array ends_object wants_key].
  destruct (skip_space (de_rest d)) as [|c r]; [done|]. intros H. exists c, r. split; [done|]. revert H.
  do 3 (next_byte; [done|]). next_byte; [intros [= <- <-]; by left|]. next_byte; [done|].
  next_byte; [by right|]. by destruct (zb c =? 34).
Qed.

Lemma Token_key n d t d' : wants_key (de_state d) = true → Token_rounds n d = Some (t, d') →
  ∃ c r, skip_space (de_rest d) = String c r ∧
    ((c = "}"%char ∧ t = Delim c ∧ d' = pop_state d r) ∨
     (∃ k r', (zb c =? 34) = true ∧ read_string r = Some (k, r') ∧ t = TokString k ∧ d' = mkDecoder r' ObjectColon (de_stack d))).
Proof.
  intros Hs H. assert (tokenValueAllowed (de_state d) = false ∧ ends_array (de_state d) = false) as [H1 H2] by (by destruct (de_state d)).
  destruct n; cbn [Token_rounds] in H; destruct (skip_space (de_rest d)) as [|c r]; try done;
    exists c, r; (split; [done|]); revert H; rewrite H1, H2, Hs.
  all: do 3 (next_byte; [done|]); next_byte; [destruct (ends_object _); [intros [= <- <-]; by left|done]|].
  all: next_byte; [by destruct (de_state d)|]; next_byte; [by destruct (de_state d)|].
  all: destruct (zb c =? 34) eqn:E; [|done]; intros HS; apply bind_Some in HS as ([k r2] & Hk & HS); simplify_eq; right; eauto 10.
Qed.

Lemma Token_value n d t d' : tokenValueAllowed (de_state d) = true → Token_rounds n d = Some (t, d') →
  ∃ c r, skip_space (de_rest d) = String c r ∧
    ((c = "["%char ∧ t = Delim c ∧ d' = push_state d r ArrayStart) ∨
     (c = "{"%char ∧ t = Delim c ∧ d' = push_state d r ObjectStart) ∨
     (c = "]"%char ∧ t = Delim c ∧ d' = pop_state d r) ∨
     (c ≠ "{"%char ∧ c ≠ "["%char ∧ (zb c =? 34) = true ∧
        ∃ x r', read_string r = Some (x, r') ∧ t = TokString x ∧ d' = mkDecoder r' (tokenValueEnd (de_state d)) (de_stack d)) ∨
     (c ≠ "{"%char ∧ c ≠ "["%char ∧ (zb c =? 34) = false ∧
        ∃ r', scan_scalar (String c r) = Some (t, r') ∧ d' = mkDecoder r' (tokenValueEnd (de_state d)) (de_stack d))).
Proof.
  intros Ha H. assert (ends_object (de_state d) = false ∧ wants_key (de_state d) = false) as [H1 H2] by (by destruct (de_state d)).
  destruct n; cbn [Token_rounds] in H; destruct (skip_space (de_rest d)) as [|c r]; try done;
    exists c, r; (split; [done|]); revert H; rewrite Ha, H1, H2.
  all: next_byte; [intros [= <- <-]; by left|]; next_byte; [destruct (ends_array _); [intros [= <- <-]; by do 2 right; left|done]|].
  all: next_byte; [intros [= <- <-]; by right; left|]; next_byte; [done|].
  all: next_byte; [by destruct (de_state d)|]; next_byte; [by destruct (de_state d)|].
  all: destruct (zb c =? 34) eqn:E; intros HS; apply bind_Some in HS as ([k r2] & Hk & HS); simplify_eq; do 3 right; [left|right]; eauto 10.
Qed.

(** ** The two readers agree *)

(** Whatever fuel the consumed text warrants, [json.Unmarshal]'s reader reads
    [v] from [s] and leaves [r]. *)
Definition reads (s : string) (v : value) (r : string) : Prop :=
  (slen r < slen s)%nat ∧
  ∀ f open, (2 * slen s <= f + 2 * slen r)%nat → open + value_depth v <= maxNestingDepth → scan_value f open s = Some (v, r).
Definition reads_members (s : string) (l : list (string * value)) (r : string) : Prop :=
  (slen r < slen s)%nat ∧
  ∀ f open, (2 * slen s <= f + 2 * slen r)%nat → open + members_depth l <= maxNestingDepth → scan_members f open s = Some (l, r).
Definition reads_elements (s : string) (l : list value) (r : string) : Prop :=
  (slen r < slen s)%nat ∧
  ∀ f open, (2 * slen s <= f + 2 * slen r)%nat → open + elements_depth l <= maxNestingDepth → scan_elements f open s = Some (l, r).

(** Where the value starts that the next token begins. *)
Inductive at_value (d : decoder) : decoder → Prop :=
| at_here : tokenValueAllowed (de_state d) = true → at_value d d
| at_colon r : de_state d = ObjectColon → skip_space (de_rest d) = String ":" r → at_value d (mkDecoder r ObjectValue (de_stack d))
| at_comma r : de_state d = ArrayComma → skip_space (de_rest d) = String "," r → at_value d (mkDecoder r ArrayValue (de_stack d)).

Lemma at_value_stack d d1 : at_value d d1 → de_stack d1 = de_stack d ∧ tokenValueAllowed (de_state d1) = true.
Proof. by destruct 1. Qed.

Definition before_value (s : tstate) : bool := match s with TopValue | ArrayStart | ArrayComma | ObjectColon => true | _ => false end.

(** A token of a value is read where the value starts. *)
Lemma Token_at_value d t d' : before_value (de_state d) = true → Token d = Some (t, d') →
  (t = Delim "]" ∧ de_state d = ArrayComma) ∨ ∃ d1 n, at_value d d1 ∧ Token_rounds n d1 = Some (t, d').
Proof.
  intros Hb H. destruct (de_state d) eqn:E; try done.
  - right. exists d, 2%nat. split; [constructor; by rewrite E|done].
  - right. exists d, 2%nat. split; [constructor; by rewrite E|done].
  - destruct (Token_array_comma d t d' E H) as (c & r & Hs & [(-> & -> & ->)|(-> & Ht)]); [by left|].
    right. eexists _, _. split; [by eapply at_comma|done].
  - apply Token_colon in H as (r & Hs & H); [|done]. right. eexists _, _. split; [by eapply at_colon|done].
Qed.

Lemma scan_scalar_value c r t r' : scan_scalar (String c r) = Some (t, r') →
  (∃ f, t = TokNumber f ∧ first_prefix ["true"; "false"; "null"] (String c r) = None ∧ scan_number_text (String c r) = Some (f, r')) ∨
  (t = TokOther ∧ ∃ v, value_nodes v = 1 ∧ value_depth v = 1 ∧ exact_numbers v = true ∧
     ∀ {A : Type} (num : option A) (k : value → string → option A),
       match first_prefix ["true"] (String c r) with Some r => k (VBool true) r | None =>
       match first_prefix ["false"] (String c r) with Some r => k (VBool false) r | None =>
       match first_prefix ["null"] (String c r) with Some r => k VNil r | None => num end end end = k v r').
Proof.
  unfold scan_scalar. destruct (first_prefix ["true"; "false"; "null"] (String c r)) as [u|] eqn:E.
  - intros [= <- <-]. right. split; [done|]. cbn [first_prefix] in E |- *.
    destruct (strip_prefix "true" (String c r)); [injection E as ->; by exists (VBool true)|].
    destruct (strip_prefix "false" (String c r)); [injection E as ->; by exists (VBool false)|].
    destruct (strip_prefix "null" (String c r)); [injection E as ->; by exists VNil|done].
  - intros H. apply bind_Some in H as ([f u] & Hu & H). simplify_eq. left. eauto.
Qed.

(** The guard on numbers leaves exact ones. *)
Lemma good_number_exact f : mantissa_fits f → bad_number (Some f) = false → exact_number f = true.
Proof.
  unfold bad_number, exact_number. intros Hm [[Hi Hn]%orb_false_iff Ht]%orb_false_iff. unfold is_finite. rewrite Hi, Hn. cbn [negb andb].
  destruct f as [s|s| |s m e]; cbn [integer_value]; try done. cbn [mantissa_fits] in Hm. cbn [trunc_float magnitude] in Ht.
  change max_exact with (S754_finite false 9007199254740991 0) in Ht. destruct (Z.leb_spec 0 e) as [He|He]; cbn [orb].
  - assert (e = 0) as ->. { destruct e; [done| |lia]. discriminate Ht. } rewrite Z.mul_1_r. apply Z.ltb_lt. destruct s; lia.
  - destruct (_ =? 0); [|done]. assert (0 <= Zpos m / 2 ^ (- e) <= Zpos m).
    { split; [apply Z.div_pos; [lia|apply Z.pow_pos_nonneg; lia]|]. apply Z.div_le_upper_bound; [apply Z.pow_pos_nonneg; lia|].
      pose proof (Z.pow_pos_nonneg 2 (- e)). nia. }
    apply Z.ltb_lt. destruct s; lia.
Qed.
Lemma scan_number_text_fits s f r : scan_number_text s = Some (Some f, r) → mantissa_fits f.
Proof.
  unfold scan_number_text. destruct (match s with String "-" r => _ | _ => _ end) as [neg s1]. intros ([int s2] & _ & H)%bind_Some.
  destruct (if HasPrefix int "0" then _ else _) as [int' s3]. apply bind_Some in H as ([frac s4] & _ & H). apply bind_Some in H as ([e s5] & _ & H).
  destruct (scale10 _ _ _) as [a b]. destruct (IsInf _); [done|]. injection H as <- _. apply float_of_ratio_fits.
Qed.

Lemma scalar_reads s c r t r' : skip_space s = String c r → c ≠ "{"%char → c ≠ "["%char → (zb c =? 34) = false →
  scan_scalar (String c r) = Some (t, r') → match t with TokNumber f => bad_number f = false | _ => True end →
  ∃ v, reads s v r' ∧ value_nodes v = 1 ∧ value_depth v = 1 ∧ exact_numbers v = true.
Proof.
  intros Hs H1 H2 H3 H Ht. pose proof (skip_space_length s) as Hl. rewrite Hs in Hl.
  pose proof (scan_scalar_length _ _ _ H) as Hl2.
  apply scan_scalar_value in H as [(f & -> & Hp & Hf)|(-> & v & Hn & Hd & Hx & Hv)].
  - destruct f as [f|]; [|done]. exists (VFloat f). split; [|repeat split; apply good_number_exact; [by eapply scan_number_text_fits|done]]. split; [lia|].
    intros [|n] open Hfuel _; [lia|]. cbn [scan_value]. rewrite Hs, H3.
    rewrite (bool_decide_false (c = "{"%char)), (bool_decide_false (c = "["%char)) by done.
    cbn [first_prefix] in Hp |- *. repeat case_match; try done. unfold scan_number. by rewrite Hf.
  - exists v. split; [|done]. split; [lia|].
    intros [|n] open Hfuel _; [lia|]. cbn [scan_value]. rewrite Hs, H3.
    rewrite (bool_decide_false (c = "{"%char)), (bool_decide_false (c = "["%char)) by done.
    apply (Hv _ _ (fun v r => Some (v, r))).
Qed.

Section Agree.
Context (expired : Z → bool) (maxDepth maxNodes : Z).

Definition value_claim (fuel : nat) : Prop := ∀ depth nodes d nodes' d',
  before_value (de_state d) = true → check_value expired maxDepth maxNodes fuel depth nodes d = Ok (nodes', d') →
  ∃ d1 v r, at_value d d1 ∧ reads (de_rest d1) v r ∧ d' = mkDecoder r (tokenValueEnd (de_state d1)) (de_stack d) ∧
    nodes' = nodes + value_nodes v ∧ nodes' <= maxNodes ∧ depth + value_depth v <= maxDepth + 1 ∧ exact_numbers v = true.

Definition member_start (d : decoder) (s : string) : Prop :=
  (de_state d = ObjectStart ∧ s = de_rest d) ∨ (de_state d = ObjectComma ∧ skip_space (de_rest d) = String "," s).
Definition members_claim (fuel : nat) : Prop := ∀ depth nodes seen d nodes' d' d'',
  ends_object (de_state d) = true → nodes <= maxNodes → depth <= maxDepth →
  check_members expired maxDepth maxNodes fuel depth nodes seen d = Ok (nodes', d') → Token d' = Some (Delim "}", d'') →
  (∃ r, skip_space (de_rest d) = String "}" r ∧ d'' = pop_state d r ∧ nodes' = nodes) ∨
  (∃ s l r, member_start d s ∧ reads_members s l r ∧ d'' = pop_state d r ∧ nodes' = nodes + members_nodes l ∧ nodes' <= maxNodes ∧
     depth + members_depth l <= maxDepth ∧ members_exact l = true ∧ NoDup (l.*1) ∧ ∀ k, k ∈ l.*1 → k ∉ seen).

Definition element_start (d : decoder) (s : string) : Prop :=
  (de_state d = ArrayStart ∧ s = de_rest d) ∨ (de_state d = ArrayComma ∧ skip_space (de_rest d) = String "," s).
Definition elements_claim (fuel : nat) : Prop := ∀ depth nodes d nodes' d' d'',
  ends_array (de_state d) = true → nodes <= maxNodes → depth <= maxDepth →
  check_elements expired maxDepth maxNodes fuel depth nodes d = Ok (nodes', d') → Token d' = Some (Delim "]", d'') →
  (∃ r, skip_space (de_rest d) = String "]" r ∧ d'' = pop_state d r ∧ nodes' = nodes) ∨
  (∃ s l r, element_start d s ∧ reads_elements s l r ∧ d'' = pop_state d r ∧ nodes' = nodes + elements_nodes l ∧ nodes' <= maxNodes ∧
     depth + elements_depth l <= maxDepth ∧ forallb exact_numbers l = true).

Lemma reads_members_one s c r0 k r1 r2 v r3 r :
  skip_space s = String c r0 → (zb c =? 34) = true → read_string r0 = Some (k, r1) → skip_space r1 = String ":" r2 → reads r2 v r3 →
  skip_space r3 = String "}" r → reads_members s [(k, v)] r.
Proof.
  intros H1 H2 H3 H4 [Hl Hv] H5. apply read_string_length in H3 as L3.
  pose proof (skip_space_length s) as L1. pose proof (skip_space_length r1) as L4. pose proof (skip_space_length r3) as L5.
  rewrite H1 in L1. rewrite H4 in L4. rewrite H5 in L5. cbn in L1, L4, L5. split; [lia|].
  intros [|f] open Hf Ho; [lia|]. cbn [scan_members]. rewrite H1, H2. cbn [negb]. rewrite H3. cbn [mbind option_bind].
  rewrite H4, Hv; [|lia|cbn in Ho; lia]. cbn [mbind option_bind]. by rewrite H5.
Qed.

Lemma reads_members_cons s c r0 k r1 r2 v r3 r4 l r :
  skip_space s = String c r0 → (zb c =? 34) = true → read_string r0 = Some (k, r1) → skip_space r1 = String ":" r2 → reads r2 v r3 →
  skip_space r3 = String "," r4 → reads_members r4 l r → reads_members s ((k, v) :: l) r.
Proof.
  intros H1 H2 H3 H4 [Hl Hv] H5 [Hm Hs]. apply read_string_length in H3 as L3.
  pose proof (skip_space_length s) as L1. pose proof (skip_space_length r1) as L4. pose proof (skip_space_length r3) as L5.
  rewrite H1 in L1. rewrite H4 in L4. rewrite H5 in L5. cbn in L1, L4, L5. split; [lia|].
  intros [|f] open Hf Ho; [lia|]. cbn [scan_members]. rewrite H1, H2. cbn [negb]. rewrite H3. cbn [mbind option_bind].
  change (members_depth ((k, v) :: l)) with (Z.max (value_depth v) (members_depth l)) in Ho.
  rewrite H4, Hv; [|lia|lia]. cbn [mbind option_bind]. rewrite H5, Hs by lia. done.
Qed.

Lemma reads_elements_one s v r1 r : reads s v r1 → skip_space r1 = String "]" r → reads_elements s [v] r.
Proof.
  intros [Hl Hv] H5. pose proof (skip_space_length r1) as L5. rewrite H5 in L5. cbn in L5. split; [lia|].
  intros [|f] open Hf Ho; [lia|]. cbn [scan_elements]. rewrite Hv; [|lia|cbn in Ho; lia]. cbn [mbind option_bind]. by rewrite H5.
Qed.

Lemma reads_elements_cons s v r1 r2 l r :
  reads s v r1 → skip_space r1 = String "," r2 → reads_elements r2 l r → reads_elements s (v :: l) r.
Proof.
  intros [Hl Hv] H5 [Hm Hs]. pose proof (skip_space_length r1) as L5. rewrite H5 in L5. cbn in L5. split; [lia|].
  intros [|f] open Hf Ho; [lia|]. cbn [scan_elements].
  change (elements_depth (v :: l)) with (Z.max (value_depth v) (elements_depth l)) in Ho.
  rewrite Hv by lia. cbn [mbind option_bind]. rewrite H5, Hs by lia. done.
Qed.

Lemma value_depth_pos v : 1 <= value_depth v.
Proof.
  destruct v; cbn; try lia.
  - assert (0 <= foldr (fun x n => Z.max (value_depth x) n) 0 l) by (induction l; cbn; lia). lia.
  - assert (0 <= foldr (fun kv n => Z.max (value_depth (snd kv)) n) 0 l) by (induction l; cbn; lia). lia.
Qed.

Lemma check_members_agree fuel : value_claim fuel → members_claim fuel → members_claim (S fuel).
Proof.
  intros HV HM depth nodes seen d nodes' d' d'' Hst Hn Hd H Hclose. cbn [check_members] in H.
  destruct (negb (More d)) eqn:Em.
  - injection H as <- <-. left. unfold More in Em.
    destruct (de_state d) eqn:E; try done.
    + apply Token_key in Hclose as (c & r & Hs & [(-> & _ & ->)|(? & ? & _ & _ & [=] & _)]); [by eauto|by rewrite E].
    + apply Token_object_comma in Hclose as (c & r & Hs & [(-> & _ & ->)|(-> & _)]); [by eauto| |done]. by rewrite Hs in Em.
  - right. destruct (Token d) as [[[c|name|f|] d1]|] eqn:Et; try done.
    case_bool_decide as Hseen; [done|]. apply bind_Ok in H as ([n1 d2] & Hv & H).
    assert (∃ s c r0 r1, member_start d s ∧ skip_space s = String c r0 ∧ (zb c =? 34) = true ∧ read_string r0 = Some (name, r1) ∧
      d1 = mkDecoder r1 ObjectColon (de_stack d)) as (s & c & r0 & r1 & Hms & Hs & Hc & Hr & ->).
    { destruct (de_state d) eqn:E; try done.
      - apply Token_key in Et as (c & r & Hs & [(_ & [=] & _)|(k & r' & Hc & Hr & [= <-] & ->)]); [|by rewrite E].
        exists (de_rest d), c, r, r'. split; [by left|done].
      - apply Token_object_comma in Et as (c & r & Hs & [(_ & [=] & _)|(-> & Ht)]); [|done].
        apply Token_key in Ht as (c & r' & Hs' & [(_ & [=] & _)|(k & r'' & Hc & Hr & [= <-] & ->)]); [|done].
        exists r, c, r', r''. split; [by right|done]. }
    apply HV in Hv as (d3 & v & r3 & Hat & Hreads & -> & -> & Hmax & Hdep & Hex); [|done].
    inversion Hat as [Ha|r2 _ Hcol|]; subst; try done. cbn [de_rest de_state de_stack tokenValueEnd] in *.
    pose proof (value_depth_pos v).
    destruct (HM depth _ _ (mkDecoder r3 ObjectComma (de_stack d)) _ _ _ eq_refl Hmax Hd H Hclose) as [(r & Hs3 & -> & ->)|(s4 & l & r & Hst4 & Hm & -> & -> & Hmax' & Hdep' & Hex' & Hnd & Hdis)].
    + exists s, [(name, v)], r. split; [done|]. split; [by eapply reads_members_one|]. cbn.
      repeat split; try lia; [by rewrite Hex|by apply NoDup_singleton|]. intros k Hk%list_elem_of_singleton. congruence.
    + destruct Hst4 as [[? _]|[_ Hs4]]; [done|]. cbn in Hs4. exists s, ((name, v) :: l), r. split; [done|].
      split; [by eapply reads_members_cons|].
      unfold members_nodes, members_depth, members_exact in *. cbn.
      repeat split; try lia; [by rewrite Hex| |].
      * constructor; [|done]. intros Hin. by apply (Hdis name Hin), elem_of_union_l, elem_of_singleton.
      * intros k [->|Hk]%elem_of_cons; [done|]. intros Hks. by apply (Hdis k Hk), elem_of_union_r.
Qed.

(** An element starts where its text does, after a comma if it is not the first. *)
Lemma at_element d d1 : ends_array (de_state d) = true → at_value d d1 →
  element_start d (de_rest d1) ∧ tokenValueEnd (de_state d1) = ArrayComma.
Proof.
  intros Hst Hat. inversion Hat as [Ha|r E|r E Hs]; subst; cbn.
  - destruct (de_state d1) eqn:E; try done. split; [by left|done].
  - by rewrite E in Hst.
  - split; [by right|done].
Qed.

Lemma check_elements_agree fuel : value_claim fuel → elements_claim fuel → elements_claim (S fuel).
Proof.
  intros HV HE depth nodes d nodes' d' d'' Hst Hn Hd H Hclose. cbn [check_elements] in H.
  destruct (negb (More d)) eqn:Em.
  - injection H as <- <-. left. unfold More in Em.
    destruct (de_state d) eqn:E; try done.
    + apply Token_value in Hclose as (c & r & Hs & Hcase); [|by rewrite E]. rewrite Hs in Em.
      destruct Hcase as [(-> & [=] & _)|[(-> & [=] & _)|[(-> & _ & ->)|[(_ & _ & _ & x & r' & _ & [=] & _)|(_ & _ & _ & r' & Hsc & _)]]]];
        [by eauto|].
      exfalso. unfold scan_scalar in Hsc. destruct (first_prefix _ _); [done|]. apply bind_Some in Hsc as ([? ?] & _ & [=]).
    + apply Token_array_comma in Hclose as (c & r & Hs & [(-> & _ & ->)|(-> & _)]); [by eauto| |done]. by rewrite Hs in Em.
  - right. apply bind_Ok in H as ([n1 d2] & Hv & H).
    apply HV in Hv as (d3 & v & r3 & Hat & Hreads & -> & -> & Hmax & Hdep & Hex); [|by destruct (de_state d)].
    destruct (at_element d d3 Hst Hat) as [Hstart Hend]. rewrite Hend in H. pose proof (value_depth_pos v).
    destruct (HE depth _ (mkDecoder r3 ArrayComma (de_stack d)) _ _ _ eq_refl Hmax Hd H Hclose)
      as [(r & Hs3 & -> & ->)|(s4 & l & r & Hst4 & Hm & -> & -> & Hmax' & Hdep' & Hex')].
    + exists (de_rest d3), [v], r. split; [done|]. split; [by eapply reads_elements_one|]. cbn.
      repeat split; try lia. by rewrite Hex.
    + destruct Hst4 as [[? _]|[_ Hs4]]; [done|]. cbn in Hs4. exists (de_rest d3), (v :: l), r. split; [done|].
      split; [by eapply reads_elements_cons|]. unfold elements_nodes, elements_depth in *. cbn.
      repeat split; try lia. by rewrite Hex.
Qed.

Lemma scan_members_skip f open s : scan_members f open (skip_space s) = scan_members f open s.
Proof. destruct f; cbn [scan_members]; [done|]. by rewrite skip_space_idem. Qed.
Lemma scan_value_skip f open s : scan_value f open (skip_space s) = scan_value f open s.
Proof. destruct f; cbn [scan_value]; [done|]. by rewrite skip_space_idem. Qed.
Lemma scan_elements_skip f open s : scan_elements f open (skip_space s) = scan_elements f open s.
Proof. destruct f; cbn [scan_elements]; [done|]. by rewrite scan_value_skip. Qed.

(** Members start with a quote, elements with no closing bracket. *)
Lemma scan_members_starts f open s x : scan_members f open s = Some x → ∀ t, skip_space s ≠ String "}" t.
Proof. destruct f; cbn [scan_members]; [done|]. intros H t E. by rewrite E in H. Qed.
Lemma scan_value_starts f open s x : scan_value f open s = Some x → ∀ t, skip_space s ≠ String "]" t.
Proof. destruct f; cbn [scan_value]; [done|]. intros H t E. by rewrite E in H. Qed.
Lemma scan_elements_starts f open s x : scan_elements f open s = Some x → ∀ t, skip_space s ≠ String "]" t.
Proof.
  destruct f; cbn [scan_elements]; [done|]. intros H. apply bind_Some in H as ([v r] & Hv & _). by eapply scan_value_starts.
Qed.

Lemma reads_object s r0 l r : skip_space s = String "{" r0 → reads_members r0 l r → NoDup (l.*1) → reads s (object_of l) r.
Proof.
  intros Hs [Hl Hm] Hnd. pose proof (skip_space_length s) as L. rewrite Hs in L. cbn in L. split; [lia|].
  destruct (object_of_measures l Hnd) as (_ & -> & _). intros [|f] open Hf Ho; [lia|].
  assert (0 <= members_depth l) by (unfold members_depth; clear; induction l; cbn; lia).
  specialize (Hm f (open + 1) ltac:(lia) ltac:(lia)).
  cbn [scan_value]. rewrite Hs. change (zb "{" =? 34) with false. cbn iota. rewrite (bool_decide_true ("{"%char = "{"%char)) by done.
  destruct (Z.ltb_spec maxNestingDepth (open + 1)); [lia|].
  pose proof (scan_members_starts _ _ _ _ Hm) as Hne. rewrite <- scan_members_skip in Hm.
  destruct (skip_space r0) as [|c t]; [by rewrite Hm|].
  destruct c as [[] [] [] [] [] [] [] []]; first [by destruct (Hne t) | by rewrite Hm].
Qed.

Lemma reads_array s r0 l r : skip_space s = String "[" r0 → reads_elements r0 l r → reads s (VArray l) r.
Proof.
  intros Hs [Hl Hm]. pose proof (skip_space_length s) as L. rewrite Hs in L. cbn in L. split; [lia|].
  change (value_depth (VArray l)) with (1 + elements_depth l). intros [|f] open Hf Ho; [lia|].
  assert (0 <= elements_depth l) by (unfold elements_depth; clear; induction l; cbn; lia).
  specialize (Hm f (open + 1) ltac:(lia) ltac:(lia)).
  cbn [scan_value]. rewrite Hs. change (zb "[" =? 34) with false. cbn iota.
  rewrite (bool_decide_false ("["%char = "{"%char)), (bool_decide_true ("["%char = "["%char)) by done.
  destruct (Z.ltb_spec maxNestingDepth (open + 1)); [lia|].
  pose proof (scan_elements_starts _ _ _ _ Hm) as Hne. rewrite <- scan_elements_skip in Hm.
  destruct (skip_space r0) as [|c t]; [by rewrite Hm|].
  destruct c as [[] [] [] [] [] [] [] []]; first [by destruct (Hne t) | by rewrite Hm].
Qed.

Lemma reads_empty_object s r0 r : skip_space s = String "{" r0 → skip_space r0 = String "}" r → reads s (VObject []) r.
Proof.
  intros Hs H0. pose proof (skip_space_length s) as L. pose proof (skip_space_length r0) as L0. rewrite Hs in L. rewrite H0 in L0. cbn in L, L0.
  split; [lia|]. intros [|f] open Hf Ho; [lia|]. cbn in Ho. cbn [scan_value]. rewrite Hs. change (zb "{" =? 34) with false. cbn iota.
  rewrite (bool_decide_true ("{"%char = "{"%char)) by done.
  destruct (Z.ltb_spec maxNestingDepth (open + 1)); [lia|]. by rewrite H0.
Qed.

Lemma reads_empty_array s r0 r : skip_space s = String "[" r0 → skip_space r0 = String "]" r → reads s (VArray []) r.
Proof.
  intros Hs H0. pose proof (skip_space_length s) as L. pose proof (skip_space_length r0) as L0. rewrite Hs in L. rewrite H0 in L0. cbn in L, L0.
  split; [lia|]. intros [|f] open Hf Ho; [lia|]. cbn in Ho. cbn [scan_value]. rewrite Hs. change (zb "[" =? 34) with false. cbn iota.
  rewrite (bool_decide_false ("["%char = "{"%char)), (bool_decide_true ("["%char = "["%char)) by done.
  destruct (Z.ltb_spec maxNestingDepth (open + 1)); [lia|]. by rewrite H0.
Qed.

Lemma reads_string s c r0 x r : skip_space s = String c r0 → (zb c =? 34) = true → read_string r0 = Some (x, r) → reads s (VString x) r.
Proof.
  intros Hs Hc Hr. pose proof (skip_space_length s) as L. rewrite Hs in L. cbn in L. apply read_string_length in Hr as Lr.
  split; [lia|]. intros [|f] open Hf Ho; [lia|]. cbn [scan_value]. by rewrite Hs, Hc, Hr.
Qed.

(** The value at [d1] and what is left after it. *)
Definition value_read (depth nodes : Z) (d1 : decoder) (nodes' : Z) (d' : decoder) : Prop :=
  ∃ v r, reads (de_rest d1) v r ∧ d' = mkDecoder r (tokenValueEnd (de_state d1)) (de_stack d1) ∧
    nodes' = nodes + value_nodes v ∧ nodes' <= maxNodes ∧ depth + value_depth v <= maxDepth + 1 ∧ exact_numbers v = true.

Lemma object_read fuel depth nodes d1 r0 nodes' d2 d' :
  members_claim fuel → skip_space (de_rest d1) = String "{" r0 → nodes + 1 <= maxNodes → depth <= maxDepth →
  check_members expired maxDepth maxNodes fuel depth (nodes + 1) ∅ (push_state d1 r0 ObjectStart) = Ok (nodes', d2) →
  Token d2 = Some (Delim "}", d') → value_read depth nodes d1 nodes' d'.
Proof.
  intros HM Hs Hn Hd H Hclose.
  destruct (HM _ _ _ (push_state d1 r0 ObjectStart) _ _ _ eq_refl Hn Hd H Hclose)
    as [(r & Hr & -> & ->)|(s & l & r & Hst & Hm & -> & -> & Hmax & Hdep & Hex & Hnd & _)].
  - exists (VObject []), r. split; [by eapply reads_empty_object|]. cbn. repeat split; lia.
  - destruct Hst as [[_ ->]|[? _]]; [|done]. cbn in Hm. exists (object_of l), r.
    split; [by eapply reads_object|]. destruct (object_of_measures l Hnd) as (-> & -> & ->). cbn. repeat split; try done; lia.
Qed.

Lemma array_read fuel depth nodes d1 r0 nodes' d2 d' :
  elements_claim fuel → skip_space (de_rest d1) = String "[" r0 → nodes + 1 <= maxNodes → depth <= maxDepth →
  check_elements expired maxDepth maxNodes fuel depth (nodes + 1) (push_state d1 r0 ArrayStart) = Ok (nodes', d2) →
  Token d2 = Some (Delim "]", d') → value_read depth nodes d1 nodes' d'.
Proof.
  intros HE Hs Hn Hd H Hclose.
  destruct (HE _ _ (push_state d1 r0 ArrayStart) _ _ _ eq_refl Hn Hd H Hclose)
    as [(r & Hr & -> & ->)|(s & l & r & Hst & Hm & -> & -> & Hmax & Hdep & Hex)].
  - exists (VArray []), r. split; [by eapply reads_empty_array|]. cbn. repeat split; lia.
  - destruct Hst as [[_ ->]|[? _]]; [|done]. cbn in Hm. exists (VArray l), r. split; [by eapply reads_array|].
    unfold elements_nodes, elements_depth in *. cbn. repeat split; try done; lia.
Qed.

Lemma check_value_agree fuel : members_claim fuel → elements_claim fuel → value_claim (S fuel).
Proof.
  intros HM HE depth nodes d nodes' d' Hst H. cbn [check_value] in H.
  apply fail_if_bind in H as [Hlim H]. apply fail_if_bind in H as [_ H]. apply orb_false_iff in Hlim as [Hd%Z.ltb_ge Hn%Z.ltb_ge].
  destruct (Token d) as [[t d0]|] eqn:Et; [|done].
  destruct (Token_at_value d t d0 Hst Et) as [[-> _]|(d1 & n & Hat & Ht)]; [done|].
  destruct (at_value_stack d d1 Hat) as [Estack Hall]. exists d1. rewrite <- Estack.
  enough (value_read depth nodes d1 nodes' d') as (v & r & Hv) by (exists v, r; by split).
  apply Token_value in Ht as (c & r & Hs & Hcase); [|done].
  destruct Hcase as [(-> & -> & ->)|[(-> & -> & ->)|[(-> & -> & ->)|[(H1 & H2 & H3 & x & r' & Hr & -> & ->)|(H1 & H2 & H3 & r' & Hsc & ->)]]]].
  - rewrite (bool_decide_false ("["%char = "{"%char)), (bool_decide_true ("["%char = "["%char)) in H by done.
    apply bind_Ok in H as ([n1 d2] & Hc & H). destruct (Token d2) as [[[c| | |] d3]|] eqn:E2; try done.
    case_bool_decide; [|done]. subst c. injection H as <- <-. by eapply array_read.
  - rewrite (bool_decide_true ("{"%char = "{"%char)) in H by done.
    apply bind_Ok in H as ([n1 d2] & Hc & H). destruct (Token d2) as [[[c| | |] d3]|] eqn:E2; try done.
    case_bool_decide; [|done]. subst c. injection H as <- <-. by eapply object_read.
  - done.
  - injection H as <- <-. exists (VString x), r'. split; [by eapply reads_string|]. cbn. repeat split; lia.
  - destruct (scalar_reads (de_rest d1) c r t r' Hs H1 H2 H3 Hsc) as (v & Hv & Hvn & Hvd & Hvx).
    { destruct t; try done. by apply fail_if_bind in H as [Hb _]. }
    assert (nodes' = nodes + 1 ∧ d' = mkDecoder r' (tokenValueEnd (de_state d1)) (de_stack d1)) as [-> ->].
    { unfold scan_scalar in Hsc. destruct (first_prefix _ _); [injection Hsc as <- <-; by injection H as <- <-|].
      apply bind_Some in Hsc as ([f u] & _ & [= <- <-]). apply fail_if_bind in H as [_ H]. by injection H as <- <-. }
    exists v, r'. split; [done|]. rewrite Hvn, Hvd. repeat split; try done; lia.
Qed.

Lemma readers_agree fuel : value_claim fuel ∧ members_claim fuel ∧ elements_claim fuel.
Proof.
  induction fuel as [|fuel (HV & HM & HE)]; [by repeat split; intros ?*|].
  split; [by apply check_value_agree|]. split; [by apply check_members_agree|by apply check_elements_agree].
Qed.
End Agree.

(** ** The first byte *)

Lemma str_app_assoc a b c : (a ++ b) ++ c = a ++ b ++ c.
Proof. induction a as [|x a IH]; cbn; [done|]. by rewrite IH. Qed.

Lemma str_rev_cons c s : str_rev (String c s) = str_rev s ++ one c.
Proof. unfold str_rev. cbn. by rewrite str_rev_app_spec. Qed.

Lemma str_rev_appn a b : str_rev (a ++ b) = str_rev b ++ str_rev a.
Proof.
  induction a as [|c a IH]; cbn [append]; [by rewrite str_app_nil_r|]. by rewrite !str_rev_cons, IH, str_app_assoc.
Qed.

Lemma str_rev_rev s : str_rev (str_rev s) = s.
Proof. induction s as [|c s IH]; [done|]. by rewrite str_rev_cons, str_rev_appn, IH. Qed.

Lemma first_prefix_suffix l s r : first_prefix l s = Some r → ∃ p, p ∈ l ∧ s = p ++ r.
Proof.
  induction l as [|p l IH]; cbn; [done|]. destruct (strip_prefix p s) eqn:E.
  - intros [= ->]. apply strip_prefix_Some in E. exists p. split; [by left|done].
  - intros (q & Hq & ->)%IH. exists q. split; [by right|done].
Qed.

Lemma trim_with_suffix l n s : ∃ a, s = a ++ trim_with l n s.
Proof.
  revert s. induction n as [|n IH]; intros s; cbn; [by exists ""|]. destruct (first_prefix l s) as [r|] eqn:E; [|by exists ""].
  apply first_prefix_suffix in E as (p & _ & ->). destruct (IH r) as [a Ha]. exists (p ++ a). by rewrite str_app_assoc, <- Ha.
Qed.

(** Trimming the end keeps the first byte of what is left. *)
Lemma TrimSpace_first s c t : TrimSpace s = String c t → ∃ t', trim_with space_runes (slen s) s = String c t'.
Proof.
  unfold TrimSpace. set (l := trim_with space_runes (slen s) s). intros H.
  destruct (trim_with_suffix (map str_rev space_runes) (slen l) (str_rev l)) as [a Ha].
  apply (f_equal str_rev) in Ha. rewrite str_rev_rev, str_rev_appn, H in Ha. cbn in Ha. eauto.
Qed.

(** Space that is no JSON space starts no value. *)
Lemma odd_space p r f open x : p ∈ space_runes → scan_value f open (p ++ r) = Some x → ∃ c, p = one c ∧ json_space c = true.
Proof.
  intros Hp H. destruct f as [|f]; [done|]. unfold space_runes in Hp. cbn [map app] in Hp.
  repeat (apply elem_of_cons in Hp as [->|Hp]); try (eexists; split; [reflexivity|reflexivity]); try (by apply elem_of_nil in Hp);
    exfalso; cbn in H; discriminate H.
Qed.

Lemma skip_space_cons c s : json_space c = true → skip_space (String c s) = skip_space s.
Proof. intros H. unfold skip_space. cbn [span]. rewrite H. by destruct (span json_space s). Qed.

(** What remains after trimming starts the value that is read. *)
Lemma trimmed_first n s c t f open x :
  json_space c = false → trim_with space_runes n s = String c t → scan_value f open s = Some x → ∃ t', skip_space s = String c t'.
Proof.
  intros Hc. revert s. induction n as [|n IH]; intros s Ht Hx; cbn [trim_with] in Ht.
  { subst s. exists t. unfold skip_space. cbn [span]. by rewrite Hc. }
  destruct (first_prefix space_runes s) as [r|] eqn:E.
  - apply first_prefix_suffix in E as (p & Hp & ->). destruct (odd_space p r f open x Hp Hx) as (d & -> & Hd).
    cbn [one append] in *. rewrite skip_space_cons by done. apply IH; [done|].
    rewrite <- scan_value_skip, <- (skip_space_cons d r Hd), scan_value_skip. done.
  - subst s. exists t. unfold skip_space. cbn [span]. by rewrite Hc.
Qed.

Lemma ValidateJSON_reads expired maxDepth maxNodes raw nodes :
  maxDepth <= maxNestingDepth → ValidateJSON expired maxDepth maxNodes raw = Ok nodes →
  ∃ l, Unmarshal raw = Some (VObject l) ∧ value_nodes (VObject l) = nodes ∧ nodes <= maxNodes ∧
    value_depth (VObject l) <= maxDepth ∧ exact_numbers (VObject l) = true.
Proof.
  intros Hmax H. unfold ValidateJSON in H. apply fail_if_bind in H as [_ H]. apply fail_if_bind in H as [Hbrace H].
  apply bind_Ok in H as ([n d] & Hc & H). apply fail_if_bind in H as [Hend H]. injection H as ->.
  apply (proj1 (readers_agree expired maxDepth maxNodes _)) in Hc as (d1 & v & r & Hat & [Hl Hr] & -> & -> & Hn & Hd & Hx); [|done].
  inversion Hat as [Ha|? [=]|? [=]]; subst. cbn [de_rest start de_state de_stack] in *.
  assert (Unmarshal raw = Some v) as Hu.
  { unfold Unmarshal. rewrite Hr by lia. cbn [mbind option_bind]. by destruct (skip_space r ≟ ""). }
  assert (∃ t', skip_space raw = String "{" t') as [t' Ht].
  { apply negb_false_iff in Hbrace. unfold HasPrefix in Hbrace. destruct (TrimSpace raw) as [|c t] eqn:E; [done|].
    assert (c = "{"%char) as ->. { cbn [String.prefix] in Hbrace. destruct (ascii_dec "{" c) as [E1|E1]; [by symmetry|discriminate]. }
    apply TrimSpace_first in E as [u Hu']. eapply (trimmed_first _ raw "{" u (S (2 * slen raw)) 0); [done|exact Hu'|apply Hr; lia]. }
  assert (∃ l, v = VObject l) as [l ->].
  { specialize (Hr (S (2 * slen raw)) 0 ltac:(lia) ltac:(lia)). cbn [scan_value] in Hr. rewrite Ht in Hr.
    change (zb "{" =? 34) with false in Hr. cbn iota in Hr. rewrite (bool_decide_true ("{"%char = "{"%char)) in Hr by done.
    destruct (_ <? _); [done|]. destruct (skip_space t') as [|c u]; [by apply bind_Some in Hr as ([? ?] & _ & [= <- _]); eauto|].
    destruct c as [[] [] [] [] [] [] [] []]; first [injection Hr as <- _; by eauto | by apply bind_Some in Hr as ([? ?] & _ & [= <- _]); eauto]. }
  exists l. repeat split; try done; lia.
Qed.

(** C9: A document the structural check accepts is unambiguous: [json.Unmarshal] reads
    it as an object with exactly the nodes that were visited (so no member replaced
    another), within the configured depth and number of nodes; every number in it is
    finite, and every one that is an integer lies strictly between -2^53 and 2^53,
    where float64 tells neighbouring integers apart. *)
Theorem ValidateJSON_unambiguous expired maxDepth maxNodes raw nodes :
  maxDepth <= maxNestingDepth → ValidateJSON expired maxDepth maxNodes raw = Ok nodes →
  ∃ l, Unmarshal raw = Some (VObject l) ∧ value_nodes (VObject l) = nodes ∧ nodes <= maxNodes ∧
    value_depth (VObject l) <= maxDepth ∧ exact_numbers (VObject l) = true.
Proof. apply ValidateJSON_reads. Qed.
