(* ===== verification/Sources.v ===== *)
(** * Acquisition: [internal/source], [internal/watchrun/push.go], [internal/watchrun/ingest.go]

    What a poll, a command or a pushed document becomes: a batch of observations
    that acceptance takes.  The network, the process and the readers of times and
    of the cursor are an environment; the jq interpreter is the function
    [Project] takes.  The watch a batch belongs to is the record the caller
    read. *)
From S2P Require Import Prelude GoText GoFloat GoTime GoJson GoRegexp Sha256 Watch Evaluator Plan Outbox PushReceipts Records Acceptance Delivery Transform.

Record validators := { va_ETag : string; va_Modified : string }.
Definition no_validators : validators := {| va_ETag := ""; va_Modified := "" |}.

(** A request for a source and the answer to it; a body that could not be read is
    [None]. *)
Record source_request := { sq_URL : string; sq_Header : gmap string string }.
Record source_response := { sr_Status : Z; sr_RetryAfter : string; sr_ETag : string; sr_Modified : string; sr_Body : option string }.
Inductive source_reply := NoReply | Answer (r : source_response).

(** How a command ended; [timeout] is whether its deadline had passed. *)
Inductive ending := SetupFailed | StartFailed (timeout : bool) | AttachFailed (timeout : bool) | Exited (failed timeout : bool).

Record Environment := {
  en_lookup : option (string → option string);
  en_url : string → option URL;
  en_request : string → bool;   (* [http.NewRequest] accepts the URL *)
  en_header : string → string;   (* the canonical form of a header name *)
  en_http : source_request → source_reply;
  en_http_time : string → option time;
  en_rfc3339 : string → option time;
  en_validators : string → option validators;
  en_jq : string → result (value → list output);
  en_expired : Z → bool }.

Section Sources.
Context (env : Environment).

Definition observation (health detail : string) (f : fields) (at_ : option time) : Observation :=
  {| o_Entity := ""; o_Deadline := None; o_Sequence := 0; o_InputID := ""; o_AcceptedAt := zero_time; o_ObservedAt := at_; o_Fields := f;
     o_Health := health; o_Detail := detail |}.

(** ** Observations *)

Definition observed_at (field : string) (f : fields) : result (option time) :=
  if field ≟ "" then Ok None
  else match f !! field with
       | Some (VString text) =>
           match en_rfc3339 env text with Some t => Ok (Some t) | None => Err "observed time must be an RFC3339 string" end
       | _ => Err "observed time must be an RFC3339 string"
       end.

Fixpoint observe_all (outputs : list fields) (field : string) : result (list Observation) :=
  match outputs with
  | [] => Ok []
  | f :: outputs => at_ ← observed_at field f; rest ← observe_all outputs field; Ok (observation "ok" "" f at_ :: rest)
  end.

Definition Observations (outputs : list fields) (field : string) : result (list Observation) :=
  l ← observe_all outputs field;
  Ok (match l with [] => [observation "unchanged" "" ∅ None] | l => l end).

Definition batch (cursor : string) (l : list Observation) : Batch :=
  {| bt_ExpectedCursor := None; bt_FreshUntil := zero_time; bt_Entity := ""; bt_Deadline := zero_time; bt_Observations := l;
     bt_Cursor := cursor; bt_RetryAt := zero_time |}.
Definition unknown_batch (cursor reason : string) : Batch := batch cursor [observation "unknown" reason ∅ None].
Definition with_retry (b : Batch) (at_ : time) : Batch :=
  {| bt_ExpectedCursor := bt_ExpectedCursor b; bt_FreshUntil := bt_FreshUntil b; bt_Entity := bt_Entity b; bt_Deadline := bt_Deadline b;
     bt_Observations := bt_Observations b; bt_Cursor := bt_Cursor b; bt_RetryAt := at_ |}.

(** ** HTTP *)

(** [Resolve] of a reference, whose failures all report missing credentials. *)
Definition credential (ref : option SecretRef) : option string :=
  match Resolve ref (en_lookup env) with Ok v => Some v | Err _ => None end.

Definition project_body (s : Source) : bool := negb (bool_decide (s_Fields s = ∅)) || negb (s_JQ s ≟ "") || negb (s_ItemsPath s ≟ "").

Definition endpoint_of (s : Source) : option string :=
  match s_URLRef s with Some ref => credential (Some ref) | None => Some (s_URL s) end.

(** Every header's credential, or none. *)
Definition resolved (refs : gmap string SecretRef) : option (gmap string string) :=
  let m := omap (fun ref => credential (Some ref)) refs in
  if decide (dom m = dom refs) then Some m else None.

(** The request's headers, under their canonical names. *)
Definition header_of (m : gmap string string) : gmap string string :=
  foldl (fun h kv => <[en_header env (fst kv) := snd kv]> h) ∅ (map_to_list m).

Definition conditional (project : bool) (v : validators) (header : gmap string string) : gmap string string :=
  let header := if project && negb (va_ETag v ≟ "") then <["If-None-Match" := va_ETag v]> header else header in
  if project && negb (va_Modified v ≟ "") then <["If-Modified-Since" := va_Modified v]> header else header.

Definition cached_validators (cursor : string) : option validators :=
  if cursor ≟ "" then Some no_validators else en_validators env cursor.

(** [json.Marshal] of the struct, whose members are left out when empty. *)
Definition marshal_validators (etag modified : string) : string :=
  object_text ((if etag ≟ "" then [] else [member "etag" (quote etag)]) ++ (if modified ≟ "" then [] else [member "modified" (quote modified)])).

(** The answer to the request, from the status on. *)
Definition read_response (sp : Spec) (cursor : string) (cached : validators) (r : source_response) (now : time) : Batch :=
  let s := sp_Source sp in
  let project := project_body s in
  let retryAt := RetryAfter (en_http_time env) (sr_RetryAfter r) now in
  let unknown reason := with_retry (unknown_batch cursor reason) retryAt in
  if sr_Status r =? 304 then
    if negb project || ((va_ETag cached ≟ "") && (va_Modified cached ≟ "")) then unknown "source_unexpected_304"
    else with_retry (batch cursor [observation "unchanged" "" ∅ None]) retryAt
  else if (300 <=? sr_Status r) && (sr_Status r <? 400) then unknown "source_redirect_rejected"
  else
    let outputs :=
      if project then
        match sr_Body r with
        | None => Err "source_read_failed"
        | Some body =>
            if l_MaxBytes (sp_Limits sp) <? len body then Err "source_response_too_large"
            else match Project (en_jq env) (en_expired env) body (s_JQ s) (s_Fields s) (l_MaxOutputs (sp_Limits sp)) (l_MaxBytes (sp_Limits sp)) (s_ItemsPath s) with
                 | Ok l => Ok l
                 | Err _ => Err "source_invalid_projection"
                 end
        end
      else Ok [∅] in
    match outputs with
    | Err reason => unknown reason
    | Ok outputs =>
        match Observations (map (fun f => <["http.status" := VInt (sr_Status r)]> f) outputs) (s_ObservedAtField s) with
        | Err _ => unknown "source_invalid_observed_time"
        | Ok l => with_retry (batch (if project then marshal_validators (sr_ETag r) (sr_Modified r) else "") l) retryAt
        end
    end.

(** The request a poll would send, if it gets that far. *)
Definition http_request (sp : Spec) (cursor : string) : result (source_request * validators) :=
  let s := sp_Source sp in
  endpoint ← match endpoint_of s with Some e => Ok e | None => Err "missing_credentials" end;
  fail_if (negb (endpoint_ok (en_url env) endpoint)) "invalid_endpoint" ;;
  fail_if (negb (en_request env endpoint)) "invalid_request" ;;
  header ← match resolved (s_Headers s) with Some h => Ok h | None => Err "missing_credentials" end;
  cached ← match cached_validators cursor with Some v => Ok v | None => Err "invalid_checkpoint" end;
  Ok ({| sq_URL := endpoint; sq_Header := conditional (project_body s) cached (header_of header) |}, cached).

Definition HTTP_Fetch (p : Compiled) (cursor : string) (now : time) : Batch :=
  let sp := d_Spec (cp_Definition p) in
  match http_request sp cursor with
  | Err reason => unknown_batch cursor reason
  | Ok (request, cached) =>
      match en_http env request with
      | Answer r => read_response sp cursor cached r now
      | NoReply => unknown_batch cursor "source_transport_failed"
      end
  end.

(** ** Commands *)

(** The captured output of a command: a write past the limit fails, and the
    command is stopped. *)
Record capture := { ca_stdout : string; ca_used : Z; ca_exceeded : bool }.
Definition capture_write (limit : Z) (c : capture) (w : bool * string) : capture :=
  let '(keep, p) := w in
  if limit <? ca_used c + len p then {| ca_stdout := ca_stdout c; ca_used := ca_used c; ca_exceeded := true |}
  else {| ca_stdout := if keep : bool then ca_stdout c ++ p else ca_stdout c; ca_used := ca_used c + len p; ca_exceeded := ca_exceeded c |}.
Definition captured_output (limit : Z) (writes : list (bool * string)) : capture :=
  foldl (capture_write limit) {| ca_stdout := ""; ca_used := 0; ca_exceeded := false |} writes.

(** [ran] is what the process writes, with the stream (standard output is kept),
    and how it ends, for its arguments, directory and environment. *)
Definition Command_Fetch (ran : list string → string → list string → list (bool * string) * ending) (p : Compiled) (cursor : string) : Batch :=
  let sp := d_Spec (cp_Definition p) in
  let s := sp_Source sp in
  if bool_decide (s_Argv s = []) || (s_Directory s ≟ "") then unknown_batch cursor "command_invalid"
  else match resolved (s_Env s) with
  | None => unknown_batch cursor "missing_credentials"
  | Some e =>
      let '(writes, how) := ran (s_Argv s) (s_Directory s) (map (fun kv => fst kv ++ "=" ++ snd kv) (sorted_fields e)) in
      match how with
      | SetupFailed => unknown_batch cursor "command_process_setup_failed"
      | StartFailed timeout => unknown_batch cursor (if timeout then "command_timeout" else "command_start_failed")
      | AttachFailed timeout => unknown_batch cursor (if timeout then "command_timeout" else "command_process_setup_failed")
      | Exited failed timeout =>
          let c := captured_output (l_MaxBytes (sp_Limits sp)) writes in
          if ca_exceeded c then unknown_batch cursor "command_output_limit"
          else if timeout then unknown_batch cursor "command_timeout"
          else if failed then unknown_batch cursor "command_failed"
          else match Project (en_jq env) (en_expired env) (ca_stdout c) (s_JQ s) (s_Fields s) (l_MaxOutputs (sp_Limits sp)) (l_MaxBytes (sp_Limits sp)) (s_ItemsPath s) with
               | Err _ => unknown_batch cursor "command_invalid_projection"
               | Ok outputs =>
                   match Observations outputs (s_ObservedAtField s) with
                   | Err _ => unknown_batch cursor "command_invalid_observed_time"
                   | Ok l => batch cursor l
                   end
               end
      end
  end.

(** ** Pushed documents *)

Definition ErrInput : string := "invalid push input".

Definition NewPushInput (producer key raw : string) (maxReceipts : Z) (horizon : duration) : PushInput :=
  {| pi_ValidUntil := zero_time; pi_Producer := producer; pi_Key := key; pi_Digest := sha256_hex raw; pi_Bytes := len raw;
     pi_MaxReceipts := maxReceipts; pi_Horizon := horizon |}.

Definition ReplayPush (record : WatchRecord) (input : PushInput) (now : time) (d : db) : result PushReceipt :=
  View (reject (negb (IsZero (pi_ValidUntil input)) && negb (Before now (pi_ValidUntil input))) ErrProducerExpired ;;
        current ← GetWatch (r_ID record);
        reject ((r_Status current ≟ "deleted") || negb (r_Lifetime current ≟ r_Lifetime record)) ErrStale ;;
        found ← GetPushReceipt (r_Lifetime record) (pi_Producer input) (pi_Key input) (pi_Digest input) now;
        lift found) d.

Definition groups_present (groups : list string) (f : fields) : bool :=
  forallb (fun g => match f !! g with Some VNil | None => false | Some _ => true end) groups.

Definition PreparePush (record : WatchRecord) (raw : string) (maxDepth maxNodes : Z) : result Batch :=
  let sp := r_Spec record in
  let s := sp_Source sp in
  fail_if (negb (s_Type s ≟ "push") || negb (r_Status record ≟ "running")) ErrStale ;;
  fail_if (negb (s_JQ s ≟ "")) ErrInput ;;
  match ValidateJSON (en_expired env) maxDepth maxNodes raw with
  | Err _ => Err ErrInput
  | Ok _ =>
      match Project (en_jq env) (en_expired env) raw "" (s_Fields s) (l_MaxOutputs (sp_Limits sp)) (l_MaxBytes (sp_Limits sp)) (s_ItemsPath s) with
      | Err _ => Err ErrInput
      | Ok outputs =>
          fail_if (negb (forallb (groups_present (sp_GroupBy sp)) outputs)) ErrInput ;;
          match Observations outputs (s_ObservedAtField s) with
          | Err _ => Err ErrInput
          | Ok l => Ok (batch (r_Cursor record) l)
          end
      end
  end.

Section Commit.
Context `{L : Libraries} (limits : Budgets) (jitter : duration) (storage : db → Z).

(** [id] is the random acceptance identity. *)
Definition CommitPush (record : WatchRecord) (b : Batch) (input : PushInput) (id : string) (closing : bool) (now later : time) (d : db) :
    db * result (Receipt * option PushReceipt) :=
  if (pi_Producer input ≟ "") || (pi_Key input ≟ "") || (256 <? len (pi_Key input)) || (pi_MaxReceipts input <? 1) || (pi_Horizon input <=? 0)
  then (d, Err ErrInput)
  else acceptPush limits jitter storage record b id (Some input) closing now later d.

(** [token] is the random identity of an input without one. *)
Definition IngestReserved (record : WatchRecord) (raw inputID token : string) (closing : bool) (now later : time) (d : db) :
    db * result (Receipt * option PushReceipt) :=
  let sp := r_Spec record in
  let s := sp_Source sp in
  if negb (s_Type s ≟ "push") || negb (r_Status record ≟ "running") then (d, Err ErrStale) else
  let inputID := if inputID ≟ "" then token else inputID in
  if 256 <? len inputID then (d, Err ErrInput) else
  match Project (en_jq env) (en_expired env) raw (s_JQ s) (s_Fields s) (l_MaxOutputs (sp_Limits sp)) (l_MaxBytes (sp_Limits sp)) (s_ItemsPath s) with
  | Err _ => (d, Err ErrInput)
  | Ok outputs =>
      match Observations outputs (s_ObservedAtField s) with
      | Err _ => (d, Err ErrInput)
      | Ok l => acceptPush limits jitter storage record (batch (r_Cursor record) l) inputID None closing now later d
      end
  end.
End Commit.
End Sources.
