(* ===== verification/SourcesFacts.v ===== *)
(** * What acquisition hands to acceptance, with concrete polls *)

From S2P Require Import Prelude GoText GoFloat GoTime GoJson GoRegexp Sha256 Watch Evaluator EvaluatorExamples Plan PlanExamples Outbox PushReceipts Records Acceptance.
From S2P Require Import Delivery Transform TransformFacts Sources.

(** ** Projection *)

Lemma json_copy_scalar v w : Scalar v = true → json_copy v = Some w → Scalar w = true.
Proof.
  destruct v; cbn [Scalar json_copy]; intros Hs H; try done; simplify_eq; try done.
  - destruct (is_finite (of_int z)) eqn:E; [|done]. by simplify_eq.
  - destruct (is_finite (of_int z)) eqn:E; [|done]. by simplify_eq.
  - destruct (is_finite f) eqn:E; [|done]. by simplify_eq.
  - cbn. apply sanitize_is_valid.
Qed.

Definition flat (f : fields) : Prop := map_Forall (fun _ v => Scalar v = true) f.

Lemma select_flat fs v f : select fs v = Ok f → flat f.
Proof.
  unfold select. destruct v; try done. destruct (decide (fs = ∅)) as [->|Hne].
  - intros [Hc H]%fail_if_bind. injection H as <-. apply negb_false_iff in Hc.
    intros k x Hx%elem_of_list_to_map_2. rewrite forallb_forall in Hc. apply (Hc (k, x)). by apply list_elem_of_In.
  - intros [Hc H]%fail_if_bind. injection H as <-. apply bool_decide_eq_false in Hc. by apply dec_stable in Hc.
Qed.

Lemma copy_fields_flat f g : flat f → copy_fields f = Some g → flat g.
Proof.
  unfold copy_fields. intros Hf H. apply fmap_Some in H as (l & Hl & ->). cbn.
  intros k x Hx%elem_of_list_to_map_2. rewrite reverse_Permutation in Hx.
  apply mapM_Some_1 in Hl. apply list_elem_of_lookup in Hx as [i Hi].
  destruct (Forall2_lookup_r _ _ _ _ _ Hl Hi) as ([k' v] & Hk & Hv). cbn in Hv.
  apply fmap_Some in Hv as (w & Hw & [= -> ->]). eapply json_copy_scalar; [|exact Hw].
  apply (Hf k'). apply list_elem_of_lookup_2 in Hk. unfold sorted_fields in Hk. rewrite merge_sort_Permutation in Hk.
  by apply elem_of_map_to_list in Hk.
Qed.

Lemma flat_union f g : flat f → flat g → flat (f ∪ g).
Proof. intros Hf Hg. by apply map_Forall_union_2. Qed.

Section Projection.
Context (jq : string → result (value → list output)) (expired : Z → bool).

Lemma project_loop_flat fs maxOutputs maxBytes n used values outs :
  project_loop expired fs maxOutputs maxBytes n used values = Ok outs →
  Forall flat outs ∧ (outs ≠ [] → n + Z.of_nat (length outs) <= maxOutputs).
Proof.
  revert n used outs. induction values as [|[v|] values IH]; intros n used outs H; cbn [project_loop] in H;
    apply fail_if_bind in H as [_ H]; [by simplify_eq| |done].
  apply fail_if_bind in H as [Hn%Z.leb_gt H]. apply bind_Ok in H as (sel & Hsel & H).
  destruct (MarshalFields sel); [|done]. destruct (copy_fields sel) as [copied|] eqn:Ec; [|done].
  apply fail_if_bind in H as [_ H]. apply bind_Ok in H as (rest & Hrest & H). simplify_eq.
  apply IH in Hrest as [Hr Hl]. apply select_flat in Hsel. split.
  - constructor; [|done]. apply flat_union; [by eapply copy_fields_flat|done].
  - intros _. destruct rest; cbn in *; [lia|]. specialize (Hl ltac:(done)). lia.
Qed.

Lemma Project_flat raw expression fs maxOutputs maxBytes itemsPath outs :
  Project jq expired raw expression fs maxOutputs maxBytes itemsPath = Ok outs →
  1 <= maxOutputs ∧ Forall flat outs ∧ Z.of_nat (length outs) <= maxOutputs.
Proof.
  unfold Project. intros [Hc H]%fail_if_bind. apply bind_Ok in H as (v & _ & H). apply bind_Ok in H as (vs & _ & H).
  apply project_loop_flat in H as [Hf Hl]. bools. split; [lia|]. split; [done|]. destruct outs; [cbn; lia|]. specialize (Hl ltac:(done)). lia.
Qed.
End Projection.

(** ** Observations *)

Section Observed.
Context (env : Environment).

Lemma observe_all_fields outs field l :
  observe_all env outs field = Ok l → Forall2 (fun f o => ∃ at_, o = observation "ok" "" f at_) outs l.
Proof.
  revert l. induction outs as [|f outs IH]; intros l H; cbn in H; [by simplify_eq; constructor|].
  apply bind_Ok in H as (at_ & _ & H). apply bind_Ok in H as (rest & Hrest & H). simplify_eq. constructor; eauto.
Qed.

(** Either one observation per output, in order, or the single unchanged one. *)
Lemma Observations_shape outs field l :
  Observations env outs field = Ok l →
  (outs = [] ∧ l = [observation "unchanged" "" ∅ None]) ∨ (outs ≠ [] ∧ Forall2 (fun f o => ∃ at_, o = observation "ok" "" f at_) outs l).
Proof.
  unfold Observations. intros H. apply bind_Ok in H as (k & Hk%observe_all_fields & [= <-]).
  destruct Hk; [by left|right]. split; [done|by constructor].
Qed.

Lemma Observations_count outs field l max :
  Observations env outs field = Ok l → 1 <= max → Z.of_nat (length outs) <= max → 1 <= Z.of_nat (length l) <= max.
Proof.
  intros [(-> & ->)|(Hne & H)]%Observations_shape Hm Hl; [done|]. rewrite <- (Forall2_length H).
  destruct outs; [done|]. cbn in *. lia.
Qed.
End Observed.

(** ** Batches *)

Section Batches.
Context (env : Environment).

Definition outputs_limit (p : Compiled) : Z := l_MaxOutputs (sp_Limits (d_Spec (cp_Definition p))).
Definition sized (p : Compiled) (b : Batch) : Prop := 1 <= Z.of_nat (length (bt_Observations b)) <= outputs_limit p.

(** The outputs an answer has for the watch: those of its body, which was read
    whole and within the limit, or one without fields when only the status
    matters. *)
Definition projected (sp : Spec) (r : source_response) (outs : list fields) : Prop :=
  let s := sp_Source sp in
  if project_body s then
    ∃ body, sr_Body r = Some body ∧ len body <= l_MaxBytes (sp_Limits sp) ∧
      Project (en_jq env) (en_expired env) body (s_JQ s) (s_Fields s) (l_MaxOutputs (sp_Limits sp)) (l_MaxBytes (sp_Limits sp)) (s_ItemsPath s) = Ok outs
  else outs = [∅].

(** The verdicts of a poll that reached the server. *)
Inductive polled (sp : Spec) (cursor : string) (cached : validators) (r : source_response) : Batch → Prop :=
| polled_unknown reason at_ : polled sp cursor cached r (with_retry (unknown_batch cursor reason) at_)
| polled_unchanged at_ :
    sr_Status r = 304 → project_body (sp_Source sp) = true → va_ETag cached ≠ "" ∨ va_Modified cached ≠ "" →
    polled sp cursor cached r (with_retry (batch cursor [observation "unchanged" "" ∅ None]) at_)
| polled_observed outs l at_ :
    (sr_Status r < 300 ∨ 400 <= sr_Status r) → projected sp r outs → Z.of_nat (length outs) <= Z.max 1 (l_MaxOutputs (sp_Limits sp)) → Forall flat outs →
    Observations env (map (fun f => <["http.status" := VInt (sr_Status r)]> f) outs) (s_ObservedAtField (sp_Source sp)) = Ok l →
    polled sp cursor cached r
      (with_retry (batch (if project_body (sp_Source sp) then marshal_validators (sr_ETag r) (sr_Modified r) else "") l) at_).

Lemma conditional_sent v header : va_ETag v ≠ "" ∨ va_Modified v ≠ "" →
  is_Some (conditional true v header !! "If-None-Match") ∨ is_Some (conditional true v header !! "If-Modified-Since").
Proof.
  unfold conditional. cbn [andb]. intros Hv. destruct (decide (va_Modified v = "")) as [E|E].
  - destruct Hv as [Hv|Hv]; [|done]. left. rewrite (bool_decide_false _ Hv), (bool_decide_true _ E). cbn. rewrite lookup_insert_eq. eauto.
  - right. rewrite (bool_decide_false _ E). cbn. rewrite lookup_insert_eq. eauto.
Qed.

Lemma read_response_polled sp cursor cached r now : polled sp cursor cached r (read_response env sp cursor cached r now).
Proof.
  unfold read_response. destruct (Z.eqb_spec (sr_Status r) 304) as [E|E].
  { destruct (project_body _) eqn:Ep; cbn [negb orb]; [|apply polled_unknown].
    destruct (bool_decide (va_ETag cached = "") && bool_decide (va_Modified cached = "")) eqn:Ev; [apply polled_unknown|].
    apply polled_unchanged; [done|done|]. apply andb_false_iff in Ev as [Ev%bool_decide_eq_false|Ev%bool_decide_eq_false]; auto. }
  destruct ((300 <=? sr_Status r) && (sr_Status r <? 400)) eqn:E3; [apply polled_unknown|].
  assert (sr_Status r < 300 ∨ 400 <= sr_Status r) as Hst by (apply andb_false_iff in E3 as [?%Z.leb_gt|?%Z.ltb_ge]; lia).
  destruct (project_body (sp_Source sp)) eqn:Ep.
  - destruct (sr_Body r) as [body|] eqn:Ebody; [|apply polled_unknown]. destruct (Z.ltb_spec (l_MaxBytes (sp_Limits sp)) (len body)) as [|Hb]; [apply polled_unknown|].
    destruct (Project _ _ _ _ _ _ _ _) as [outs|] eqn:Epr; [|apply polled_unknown].
    assert (Hpr : projected sp r outs) by (unfold projected; rewrite Ep; exists body; split_and!; [exact Ebody|exact Hb|exact Epr]). apply Project_flat in Epr as (_ & Hf & Hl).
    destruct (Observations _ _ _) as [l|] eqn:Eo; [|apply polled_unknown].
    pose proof (polled_observed sp cursor cached r outs l (RetryAfter (en_http_time env) (sr_RetryAfter r) now) Hst Hpr ltac:(lia) Hf Eo) as H.
    by rewrite Ep in H.
  - destruct (Observations _ _ _) as [l|] eqn:Eo; [|apply polled_unknown].
    pose proof (polled_observed sp cursor cached r [∅] l (RetryAfter (en_http_time env) (sr_RetryAfter r) now) Hst ltac:(unfold projected; by rewrite Ep) ltac:(cbn; lia)
      ltac:(by repeat constructor) Eo) as H.
    by rewrite Ep in H.
Qed.

Lemma polled_sized p cursor cached r b : 1 <= outputs_limit p → polled (d_Spec (cp_Definition p)) cursor cached r b → sized p b.
Proof.
  intros H1 Hp. unfold sized. destruct Hp as [reason at_|at_ _ _ _|outs l at_ _ _ Hl _ Ho]; cbn; [lia|lia|].
  eapply Observations_count; [exact Ho|done|]. rewrite length_map. unfold outputs_limit in *. lia.
Qed.

Lemma HTTP_Fetch_sized p cursor now : 1 <= outputs_limit p → sized p (HTTP_Fetch env p cursor now).
Proof.
  intros H1. unfold HTTP_Fetch. destruct (http_request _ _ _) as [[request cached]|]; [|unfold sized; cbn; lia].
  destruct (en_http env request) as [|r]; [unfold sized; cbn; lia|]. eapply polled_sized; [done|apply read_response_polled].
Qed.

Lemma Command_Fetch_sized ran p cursor : 1 <= outputs_limit p → sized p (Command_Fetch env ran p cursor).
Proof.
  intros H1. assert (∀ reason, sized p (unknown_batch cursor reason)) as Hu by (intros; unfold sized; cbn; lia).
  unfold Command_Fetch. destruct (_ || _); [auto|]. destruct (resolved _ _); [|auto].
  destruct (ran _ _ _) as [writes how]. destruct how as [|t|t|failed timeout]; auto.
  destruct (ca_exceeded _); [auto|]. destruct timeout; [auto|]. destruct failed; [auto|].
  destruct (Project _ _ _ _ _ _ _ _) as [outs|] eqn:Epr; [|auto]. apply Project_flat in Epr as (_ & Hf & Hl).
  destruct (Observations _ _ _) as [l|] eqn:Eo; [|auto]. eapply Observations_count; eauto.
Qed.

Lemma PreparePush_sound record raw maxDepth maxNodes b :
  PreparePush env record raw maxDepth maxNodes = Ok b →
  r_Status record = "running" ∧ (∃ nodes, ValidateJSON (en_expired env) maxDepth maxNodes raw = Ok nodes) ∧
  sized (r_Plan record) b ∧ bt_Cursor b = r_Cursor record ∧
  Forall (fun o => o_Health o = "ok" → flat (o_Fields o) ∧ groups_present (sp_GroupBy (r_Spec record)) (o_Fields o) = true) (bt_Observations b).
Proof.
  unfold PreparePush. intros [Hs H]%fail_if_bind. apply fail_if_bind in H as [_ H].
  destruct (ValidateJSON _ _ _ _) as [nodes|] eqn:Ev; [|done]. destruct (Project _ _ _ _ _ _ _ _) as [outs|] eqn:Epr; [|done].
  apply Project_flat in Epr as (H1 & Hf & Hl). apply fail_if_bind in H as [Hg H]. apply negb_false_iff in Hg.
  destruct (Observations _ _ _) as [l|] eqn:Eo; [|done]. injection H as <-. bools.
  split; [done|]. split; [by eauto|]. split; [by eapply Observations_count|]. split; [done|].
  cbn. apply Observations_shape in Eo as [(-> & ->)|(_ & Ho)]; [by repeat constructor|].
  rewrite forallb_forall in Hg. apply list.Forall_forall. intros o Hin _.
  apply list_elem_of_lookup in Hin as [i Hi]. destruct (Forall2_lookup_r _ _ _ _ _ Ho Hi) as (f & Hfi & at_ & ->). cbn.
  apply list_elem_of_lookup_2 in Hfi. split; [by apply (proj1 (list.Forall_forall _ _) Hf)|].
  apply Hg. by apply list_elem_of_In.
Qed.
End Batches.

(** Whatever the source answers, a poll, a command and a prepared push hand over a
    batch that passes acceptance's guard on the number of observations, so a batch
    is refused there only for its input identity or its watch's definition. *)
Lemma acquired_batch_admitted `{L : Libraries} env ran p cursor now record raw maxDepth maxNodes input :
  1 <= outputs_limit p → r_Plan record = p → input ≠ "" → len input <= 256 →
  let admitted b := check_input record b input = New parse_template (r_Definition record) (r_Revision record) in
  admitted (HTTP_Fetch env p cursor now) ∧ admitted (Command_Fetch env ran p cursor) ∧
  (∀ b, PreparePush env record raw maxDepth maxNodes = Ok b → admitted b).
Proof.
  intros H1 Hp Hi Hlen admitted.
  assert (∀ b, sized p b → admitted b) as Hsized.
  { intros b [Hlo Hhi]. unfold admitted, check_input. rewrite (bool_decide_false (input = "")) by done. unfold outputs_limit in Hhi.
    unfold r_Spec, r_Definition in *. rewrite Hp in *.
    destruct (Z.ltb_spec 256 (len input)); [lia|]. destruct (Z.eqb_spec (Z.of_nat (length (bt_Observations b))) 0); [lia|].
    destruct (Z.ltb_spec (l_MaxOutputs (sp_Limits (d_Spec (cp_Definition p)))) (Z.of_nat (length (bt_Observations b)))); [lia|]. done. }
  split; [by apply Hsized, HTTP_Fetch_sized|]. split; [by apply Hsized, Command_Fetch_sized|].
  intros b Hb. apply Hsized. apply PreparePush_sound in Hb as (_ & _ & Hs & _). by rewrite Hp in Hs.
Qed.

(** C40: What a poll hands over.  One of three cases holds.  The poll keeps its cursor
    and reports one unknown observation, without an event of the condition.  Or the
    answer is a 304 to a request that carried a validator of the cursor, and the
    poll keeps its cursor and reports one unchanged observation.  Or the answer is
    no redirect and its outputs were projected: then the cursor becomes the answer's
    own validators (or none, for a watch of the status alone), and there is one
    observation per output, in order, with the output's fields, among which
    [http.status] is the status of the answer whatever the body says; for a body
    without outputs, there is one unchanged observation. *)
Theorem HTTP_Fetch_verdict env p cursor now :
  let b := HTTP_Fetch env p cursor now in
  let sp := d_Spec (cp_Definition p) in
  (bt_Cursor b = cursor ∧ ∃ reason, bt_Observations b = [observation "unknown" reason ∅ None]) ∨
  (∃ request cached r, http_request env sp cursor = Ok (request, cached) ∧ en_http env request = Answer r ∧
     ((bt_Cursor b = cursor ∧ bt_Observations b = [observation "unchanged" "" ∅ None] ∧ sr_Status r = 304 ∧
       (is_Some (sq_Header request !! "If-None-Match") ∨ is_Some (sq_Header request !! "If-Modified-Since"))) ∨
      ((sr_Status r < 300 ∨ 400 <= sr_Status r) ∧
       bt_Cursor b = (if project_body (sp_Source sp) then marshal_validators (sr_ETag r) (sr_Modified r) else "") ∧
       ∃ outs, projected env sp r outs ∧
         ((outs = [] ∧ bt_Observations b = [observation "unchanged" "" ∅ None]) ∨
          (outs ≠ [] ∧ Forall2 (fun f o => ∃ at_, o = observation "ok" "" (<["http.status" := VInt (sr_Status r)]> f) at_) outs (bt_Observations b)))))).
Proof.
  cbv zeta. unfold HTTP_Fetch. set (sp := d_Spec (cp_Definition p)).
  destruct (http_request env sp cursor) as [[request cached]|] eqn:Eq; [|left; cbn; eauto].
  destruct (en_http env request) as [|r] eqn:Er; [left; cbn; eauto|].
  destruct (read_response_polled env sp cursor cached r now) as [reason at_|at_ H304 Hp Hv|outs l at_ Hst Hpr Hl Hf Ho]; [left; cbn; eauto| |].
  - right. exists request, cached, r. split; [done|]. split; [done|]. left. cbn. repeat split; [done|].
    unfold http_request in Eq. do 2 (apply bind_Ok in Eq as (? & _ & Eq)). apply fail_if_bind in Eq as [_ Eq].
    apply bind_Ok in Eq as (? & _ & Eq). apply bind_Ok in Eq as (? & _ & [= <- <-]). cbn. rewrite Hp. by apply conditional_sent.
  - right. exists request, cached, r. split; [done|]. split; [done|]. right. split; [done|]. cbn. split; [done|]. exists outs. split; [done|].
    apply Observations_shape in Ho as [(Hn & ->)|(Hn & Ho)]; [left; by destruct outs|right]. split; [by destruct outs|]. by apply Forall2_fmap_l in Ho.
Qed.

(** * Concrete documents and polls *)

Definition pushed : string := dq "{'host':'db1','load':0.75,'tags':['a',{'b':null}]}".

Lemma ValidateJSON_unambiguous_witness :
  ∃ l, Unmarshal pushed = Some (VObject l) ∧ value_nodes (VObject l) = 7 ∧ value_depth (VObject l) <= 4 ∧ exact_numbers (VObject l) = true.
Proof.
  destruct (ValidateJSON_unambiguous never_expired 4 10 pushed 7) as (l & Hl & Hn & _ & Hd & Hx).
  - vm_compute. discriminate.
  - vm_compute. reflexivity.
  - exists l. split; [exact Hl|]. split; [exact Hn|]. split; [exact Hd|exact Hx].
Defined.

(** A poll of the compiled example watch: an answer, then a 304 to the validators
    of that answer, then a redirect. *)
Definition answered_with (status : Z) (body : string) : source_response :=
  {| sr_Status := status; sr_RetryAfter := ""; sr_ETag := "v1"; sr_Modified := ""; sr_Body := Some body |}.
Definition world (status : Z) (body : string) : Environment :=
  {| en_lookup := None; en_url := simple_url; en_request := fun _ => true; en_header := fun s => s; en_http := fun _ => Answer (answered_with status body);
     en_http_time := fun _ => None; en_rfc3339 := fun _ => None;
     en_validators := fun s => if s ≟ dq "{'etag':'v1'}" then Some {| va_ETag := "v1"; va_Modified := "" |} else None;
     en_jq := fun _ => Err "no jq"; en_expired := never_expired |}.
Definition poll (status : Z) (cursor : string) : list (string * option value) * string :=
  let b := HTTP_Fetch (world status (dq "{'stats':{'load':0.5}}")) plan cursor 0 in
  (map (fun o => (o_Health o ++ ":" ++ o_Detail o, o_Fields o !! "load")) (bt_Observations b), bt_Cursor b).

Example polls :
  poll 200 "" = ([("ok:", Some (VFloat (float_of_ratio false 1 2)))], dq "{'etag':'v1'}") ∧
  poll 304 (dq "{'etag':'v1'}") = ([("unchanged:", None)], dq "{'etag':'v1'}") ∧
  poll 304 "" = ([("unknown:source_unexpected_304", None)], "") ∧
  poll 302 (dq "{'etag':'v1'}") = ([("unknown:source_redirect_rejected", None)], dq "{'etag':'v1'}") ∧
  poll 200 "{" = ([("unknown:invalid_checkpoint", None)], "{").
Proof. vm_compute. repeat split. Qed.

Lemma HTTP_Fetch_verdict_witness :
  let body := dq "{'stats':{'load':0.5}}" in
  let b := HTTP_Fetch (world 200 body) plan "" 0 in
  bt_Cursor b = dq "{'etag':'v1'}" ∧
  ∃ outs, projected (world 200 body) (d_Spec (cp_Definition plan)) (answered_with 200 body) outs ∧ outs ≠ [] ∧
    Forall2 (fun f o => ∃ at_, o = observation "ok" "" (<["http.status" := VInt 200]> f) at_) outs (bt_Observations b).
Proof.
  intros body b. destruct (HTTP_Fetch_verdict (world 200 body) plan "" 0) as [(_ & reason & H)|(request & cached & r & _ & Hr & [(_ & _ & H & _)|(_ & Hc & outs & Hp & H)])].
  - vm_compute in H. discriminate H.
  - injection Hr as <-. discriminate H.
  - injection Hr as <-. split; [subst b; rewrite Hc; vm_compute; reflexivity|]. exists outs. split; [exact Hp|]. destruct H as [[_ H]|H]; [vm_compute in H; discriminate H|exact H].
Defined.
