(* ===== verification/Passwords.v ===== *)
(** * Sign-in names and stored passwords: [internal/identity/password.go], [internal/identity/profile.go]

    A stored password is a text with fixed Argon2id parameters, the salt and
    the key in unpadded base64.  Argon2 ([golang.org/x/crypto]) is a parameter;
    the two verification slots of the process are the argument [busy]. *)
From S2P Require Import Prelude GoText.
#[local] Open Scope string_scope.
#[local] Open Scope Z_scope.

(** ** Names *)

Definition is_lower : ascii → bool := in_range 97 122.
Definition username_char (c : ascii) : bool := is_lower c || is_digit c || (c ≟ "_"%char) || (c ≟ "."%char) || (c ≟ "-"%char).
(** [^[a-z][a-z0-9_.-]{2,63}$] *)
Definition usernamePattern (s : string) : bool :=
  match s with
  | String c rest => is_lower c && str_forallb username_char rest && (2 <=? len rest) && (len rest <=? 63)
  | EmptyString => false
  end.
Definition Username (raw : string) : result string :=
  let n := ToLower (TrimSpace raw) in
  fail_if (negb (usernamePattern n)) "username must be 3–64 letters, numbers, dots, underscores or hyphens, starting with a letter" ;;
  Ok n.

(** [unicode.IsControl] on the bytes of a rune: U+0000–U+001F, U+007F–U+009F. *)
Definition IsControl (p : piece) : bool :=
  match p with
  | Rune (String c "") => in_range 0 31 c || in_range 127 127 c
  | Rune (String a (String b "")) => (zb a =? 0xC2) && in_range 0x80 0x9F b
  | _ => false
  end.
Definition DisplayName (raw : string) : result string :=
  let name := TrimSpace raw in
  fail_if (negb (ValidString name) || (name ≟ "") || (100 <? Z.of_nat (length (decode name))) || existsb IsControl (decode name))
    "display name must contain 1–100 characters on one line" ;;
  Ok name.

(** ** [base64.RawStdEncoding] *)

Definition base64_alphabet : string := "ABCDEFGHIJKLMNOPQRSTUVWXYZabcdefghijklmnopqrstuvwxyz0123456789+/".
Definition base64_char (v : Z) : ascii := default "A"%char (String.get (Z.to_nat v) base64_alphabet).
Definition base64_value (c : ascii) : option Z :=
  if in_range 65 90 c then Some (zb c - 65)
  else if in_range 97 122 c then Some (zb c - 71)
  else if is_digit c then Some (zb c + 4)
  else if c ≟ "+"%char then Some 62
  else if c ≟ "/"%char then Some 63
  else None.

Fixpoint EncodeToString (s : string) : string :=
  match s with
  | EmptyString => ""
  | String a EmptyString => String (base64_char (zb a / 4)) (one (base64_char (zb a mod 4 * 16)))
  | String a (String b EmptyString) =>
      String (base64_char (zb a / 4)) (String (base64_char (zb a mod 4 * 16 + zb b / 16)) (one (base64_char (zb b mod 16 * 4))))
  | String a (String b (String c rest)) =>
      String (base64_char (zb a / 4)) (String (base64_char (zb a mod 4 * 16 + zb b / 16))
        (String (base64_char (zb b mod 16 * 4 + zb c / 64)) (String (base64_char (zb c mod 64)) (EncodeToString rest))))
  end.

(** Line breaks are skipped; the unused bits of a last group are ignored. *)
Definition newline (c : ascii) : bool := (zb c =? 10) || (zb c =? 13).
Fixpoint without_newlines (s : string) : string :=
  match s with EmptyString => "" | String c s => if newline c then without_newlines s else String c (without_newlines s) end.
Fixpoint decode_groups (s : string) : option string :=
  match s with
  | EmptyString => Some ""
  | String _ EmptyString => None
  | String a (String b EmptyString) =>
      x ← base64_value a; y ← base64_value b; Some (one (bz (x * 4 + y / 16)))
  | String a (String b (String c EmptyString)) =>
      x ← base64_value a; y ← base64_value b; z ← base64_value c;
      Some (String (bz (x * 4 + y / 16)) (one (bz (y mod 16 * 16 + z / 4))))
  | String a (String b (String c (String d rest))) =>
      x ← base64_value a; y ← base64_value b; z ← base64_value c; w ← base64_value d;
      more ← decode_groups rest;
      Some (String (bz (x * 4 + y / 16)) (String (bz (y mod 16 * 16 + z / 4)) (String (bz (z mod 4 * 64 + w)) more)))
  end.
Definition DecodeString (s : string) : option string := decode_groups (without_newlines s).

(** ** Passwords *)

Definition passwordParameters : string := "$argon2id$v=19$m=19456,t=2,p=1$".
Definition dummyPassword : string :=
  (passwordParameters ++ "AAAAAAAAAAAAAAAAAAAAAA$AAAAAAAAAAAAAAAAAAAAAAAAAAAAAAAAAAAAAAAAAAA")%string.
Definition ErrPasswordBusy : string := "password verification busy".

Section Argon2.
(** [argon2.IDKey(password, salt, 2, 19*1024, 1, 32)] *)
Context (IDKey : string → string → string).

Definition passwordKey (busy : bool) (password salt : string) : result string :=
  fail_if busy ErrPasswordBusy ;; Ok (IDKey password salt).

(** [salt] are the 16 bytes [rand.Read] gave. *)
Definition HashPassword (busy : bool) (salt password : string) : result string :=
  fail_if ((len password <? 12) || (1024 <? len password)) "password must contain 12–1024 bytes" ;;
  key ← passwordKey busy password salt;
  Ok (passwordParameters ++ EncodeToString salt ++ "$" ++ EncodeToString key)%string.

Definition VerifyPassword (busy : bool) (hash password : string) : result bool :=
  if 1024 <? len password then Ok false
  else
    let missing := hash ≟ "" in
    let hash := if missing then dummyPassword else hash in
    match strip_prefix passwordParameters hash with
    | None => Ok false
    | Some rest =>
        match Split rest "$" with
        | [p0; p1] =>
            if negb ((len p0 =? 22) && (len p1 =? 43)) then Ok false
            else match DecodeString p0, DecodeString p1 with
                 | Some salt, Some want =>
                     got ← passwordKey busy password salt;
                     Ok ((got ≟ want) && negb missing)
                 | _, _ => Ok false
                 end
        | _ => Ok false
        end
    end.
End Argon2.

(** ** Encoding and decoding *)

Lemma bz_zb c : bz (zb c) = c.
Proof. unfold bz, zb. by rewrite N2Z.id, ascii_N_embedding. Qed.

Lemma base64_value_char v : 0 <= v < 64 → base64_value (base64_char v) = Some v.
Proof.
  intros H. assert (Hall : forallb (fun v => bool_decide (base64_value (base64_char v) = Some v)) (seqZ 0 64) = true) by (vm_compute; reflexivity).
  rewrite forallb_forall in Hall. specialize (Hall v). rewrite <- list_elem_of_In, elem_of_seqZ in Hall.
  specialize (Hall H). by bools.
Qed.

Lemma base64_char_plain v : 0 <= v < 64 → newline (base64_char v) = false ∧ base64_char v ≠ "$"%char.
Proof.
  intros H. assert (Hall : forallb (fun v => negb (newline (base64_char v)) && negb (bool_decide (base64_char v = "$"%char))) (seqZ 0 64) = true)
    by (vm_compute; reflexivity).
  rewrite forallb_forall in Hall. specialize (Hall v). rewrite <- list_elem_of_In, elem_of_seqZ in Hall. specialize (Hall H). by bools.
Qed.

(** Three bytes at a time. *)
Lemma triples_ind (P : string → Prop) :
  P "" → (∀ a, P (one a)) → (∀ a b, P (String a (one b))) → (∀ a b c s, P s → P (String a (String b (String c s)))) → ∀ s, P s.
Proof.
  intros H0 H1 H2 H3 s. remember (String.length s) as n eqn:Hn. revert s Hn.
  induction n as [n IH] using (well_founded_induction lt_wf). intros [|a [|b [|c s]]] Hn; [done|apply H1|apply H2|].
  apply H3, (IH (String.length s)); cbn in Hn; [lia|done].
Qed.

Lemma decode_groups_encode s : decode_groups (EncodeToString s) = Some s.
Proof.
  induction s as [|a|a b|a b c s IH] using triples_ind; cbn -[base64_char base64_value Z.div Z.modulo Z.mul Z.add bz]; [done|..].
  all: pose proof (zb_range a); try pose proof (zb_range b); try pose proof (zb_range c).
  all: rewrite !base64_value_char by (split; [|apply Z.lt_le_trans with 64]; Z.div_mod_to_equations; lia).
  all: cbn -[Z.div Z.modulo Z.mul Z.add bz EncodeToString]; rewrite ?IH; cbn -[Z.div Z.modulo Z.mul Z.add bz].
  - f_equal. f_equal. rewrite <- (bz_zb a) at 3. f_equal. Z.div_mod_to_equations; lia.
  - repeat f_equal; [rewrite <- (bz_zb a) at 3|rewrite <- (bz_zb b) at 3]; f_equal; Z.div_mod_to_equations; lia.
  - repeat f_equal; [rewrite <- (bz_zb a) at 3|rewrite <- (bz_zb b) at 3|rewrite <- (bz_zb c) at 3]; f_equal; Z.div_mod_to_equations; lia.
Qed.

Definition plain (c : ascii) : bool := negb (newline c) && negb (c ≟ "$"%char).

Lemma EncodeToString_plain s : str_forallb plain (EncodeToString s) = true.
Proof.
  assert (Hc : ∀ v, 0 <= v < 64 → plain (base64_char v) = true).
  { intros v Hv. unfold plain. destruct (base64_char_plain v Hv) as [-> Hd]. by rewrite bool_decide_eq_false_2. }
  induction s as [|a|a b|a b c s IH] using triples_ind; cbn -[base64_char Z.div Z.modulo Z.mul Z.add plain]; [done|..].
  all: pose proof (zb_range a); try pose proof (zb_range b); try pose proof (zb_range c).
  all: rewrite !Hc by (split; [|apply Z.lt_le_trans with 64]; Z.div_mod_to_equations; lia).
  all: done.
Qed.

Lemma EncodeToString_len s : len (EncodeToString s) = (len s * 8 + 5) / 6.
Proof.
  unfold len. induction s as [|a|a b|a b c s IH] using triples_ind; [done..|]. cbn [EncodeToString String.length].
  rewrite !Nat2Z.inj_succ, IH. Z.div_mod_to_equations; lia.
Qed.

Lemma without_newlines_plain s : str_forallb plain s = true → without_newlines s = s.
Proof.
  induction s as [|c s IH]; cbn; [done|]. unfold plain at 1. destruct (newline c); cbn; [done|]. intros [_ H]%andb_true_iff. by rewrite IH.
Qed.

Lemma str_rev_step c cur : str_rev (String c cur) = str_rev cur ++ one c.
Proof. unfold str_rev at 1. cbn. by rewrite str_rev_app_spec. Qed.

Lemma split_on_last a cur : str_forallb plain a = true → split_on "$" a cur = [str_rev cur ++ a].
Proof.
  revert cur. induction a as [|c a IH]; intros cur H; cbn; [by rewrite str_app_nil_r|].
  cbn in H. apply andb_true_iff in H as [Hc H]. unfold plain in Hc. bools.
  rewrite bool_decide_eq_false_2, IH, str_rev_step, <- str_app_assoc by done. done.
Qed.

Lemma split_on_sep a b cur : str_forallb plain a = true → split_on "$" (a ++ "$" ++ b) cur = (str_rev cur ++ a) :: split_on "$" b "".
Proof.
  revert cur. induction a as [|c a IH]; intros cur H; cbn; [by rewrite str_app_nil_r|].
  cbn in H. apply andb_true_iff in H as [Hc H]. unfold plain in Hc. bools. rewrite bool_decide_eq_false_2 by done.
  etrans; [by apply IH|]. rewrite str_rev_step, <- str_app_assoc. done.
Qed.

(** ** Checking a password against its stored form *)

Section Argon2_facts.
Context (IDKey : string → string → string).

Lemma parsed_hash salt key :
  len salt = 16 → len key = 32 →
  Split (EncodeToString salt ++ "$" ++ EncodeToString key) "$" = [EncodeToString salt; EncodeToString key] ∧
  len (EncodeToString salt) = 22 ∧ len (EncodeToString key) = 43 ∧
  DecodeString (EncodeToString salt) = Some salt ∧ DecodeString (EncodeToString key) = Some key.
Proof.
  intros Hs Hk. pose proof (EncodeToString_plain salt) as Ps. pose proof (EncodeToString_plain key) as Pk. unfold DecodeString.
  rewrite !EncodeToString_len, Hs, Hk, !without_newlines_plain, !decode_groups_encode by done. split_and!; [|done..].
  unfold Split. by rewrite split_on_sep, split_on_last by done.
Qed.

(** A stored password accepts exactly the texts with the same Argon2 key under
    its salt: the password itself among them, and no text of more than 1024
    bytes.  A busy process answers with an error and accepts nothing. *)
Lemma stored_password_checks busy salt password hash attempt :
  len salt = 16 → len (IDKey password salt) = 32 → HashPassword IDKey false salt password = Ok hash →
  VerifyPassword IDKey busy hash attempt =
    if 1024 <? len attempt then Ok false
    else if busy then Err ErrPasswordBusy
    else Ok (bool_decide (IDKey attempt salt = IDKey password salt)).
Proof.
  intros Hs Hk. unfold HashPassword. intros [_ H]%fail_if_bind. change (passwordKey IDKey false password salt) with (@Ok string (IDKey password salt)) in H.
  apply bind_Ok in H as (key & Ek & H). assert (key = IDKey password salt) as -> by congruence.
  assert (hash = passwordParameters ++ EncodeToString salt ++ "$" ++ EncodeToString (IDKey password salt)) as -> by congruence. unfold VerifyPassword. destruct (1024 <? len attempt); [done|].
  rewrite bool_decide_eq_false_2 by done. cbv zeta iota. rewrite strip_prefix_app. destruct (parsed_hash salt _ Hs Hk) as (-> & -> & -> & -> & ->).
  unfold passwordKey. destruct busy; cbn; [done|]. by rewrite andb_true_r.
Qed.

(** Nothing signs in where no password is stored. *)
Lemma missing_password_refused busy attempt : VerifyPassword IDKey busy "" attempt ≠ Ok true.
Proof.
  unfold VerifyPassword. destruct (1024 <? len attempt); [done|]. rewrite bool_decide_eq_true_2 by done. cbv zeta iota. unfold dummyPassword. rewrite strip_prefix_app. destruct (Split _ _) as [|? [|? [|]]]; try done. destruct (negb _); [done|].
  destruct (DecodeString _); [|done]. destruct (DecodeString _); [|done]. unfold passwordKey. destruct busy; cbn; [done|].
  by rewrite andb_false_r.
Qed.
End Argon2_facts.
