(* ===== verification/Control.v ===== *)
(** * The server's control database: [internal/serverstate], tables and shared statements

    The server keeps the identities of a team and what they may use in one
    database: users and their external identities, workspaces and memberships,
    browser and device sessions, one-time codes, producers ("services") and
    their keys, model connections, sealed credentials, usage and receipts.  A
    table is a finite map from its primary key to the other columns.  A
    transaction is a function from the tables to a value and new tables, or an
    error after which the tables are as before; statements that break a
    uniqueness, foreign-key or check constraint fail.

    Random values ([ID]) and the clock are arguments; an operation that reads
    the clock several times reads one value.  Lists and maps that the code
    keeps as JSON text are kept as what reading the text gives back: invalid
    UTF-8 replaced. *)
From S2P Require Import Prelude GoText Sha256 Access.

(** ** Rows *)

(** [users]; a NULL username or password is [None]. *)
Record user_row := mkUser { us_name : string; us_username : option string; us_password : option string; us_disabled : bool; us_created : Z }.
#[export] Instance eta_user_row : Eta user_row := fun r => mkUser (us_name r) (us_username r) (us_password r) (us_disabled r) (us_created r).
#[export] Instance upd_us_name : FieldUpdate us_name := ltac:(field_update).
#[export] Instance upd_us_password : FieldUpdate us_password := ltac:(field_update).
#[export] Instance upd_us_disabled : FieldUpdate us_disabled := ltac:(field_update).

Record workspace_row := mkWorkspace { ws_name : string; ws_created : Z; ws_deleting : bool }.
#[export] Instance eta_workspace_row : Eta workspace_row := fun r => mkWorkspace (ws_name r) (ws_created r) (ws_deleting r).
#[export] Instance upd_ws_name : FieldUpdate ws_name := ltac:(field_update).
#[export] Instance upd_ws_deleting : FieldUpdate ws_deleting := ltac:(field_update).

(** [sessions], by the hash of the token. *)
Record session_row := mkSession {
  se_user : string; se_workspace : string; se_scopes : list string; se_csrf : string; se_kind : string; se_expires : Z }.
(** [logins], by the hash of the state parameter. *)
Record login_row := mkLogin { lo_cipher : string; lo_expires : Z }.
(** [devices]; an unapproved request has no user and no workspace. *)
Record device_row := mkDevice {
  de_user : option string; de_scopes : option (list string); de_challenge : string; de_workspace : option string; de_expires : Z }.
(** [activations], by the hash of the token. *)
Record activation_row := mkActivation { ac_user : string; ac_workspace : string; ac_expires : Z }.
(** [mcp_bindings], by user, workspace and client. *)
Record binding_row := mkBinding { bi_credential : string; bi_cipher : string }.

(** [service_grants] and [service_keys], by id. *)
Record grant_row := mkGrant {
  gr_hash : string; gr_name : string; gr_workspace : string; gr_createdBy : string; gr_scopes : list string; gr_watches : list string;
  gr_expires : Z; gr_lifetimes : gmap string string }.
#[export] Instance eta_grant_row : Eta grant_row := fun r =>
  mkGrant (gr_hash r) (gr_name r) (gr_workspace r) (gr_createdBy r) (gr_scopes r) (gr_watches r) (gr_expires r) (gr_lifetimes r).
#[export] Instance upd_gr_hash : FieldUpdate gr_hash := ltac:(field_update).
#[export] Instance upd_gr_expires : FieldUpdate gr_expires := ltac:(field_update).
Record key_row := mkKey { ke_service : string; ke_hash : string; ke_expires : Z; ke_created : Z; ke_used : Z }.
#[export] Instance eta_key_row : Eta key_row := fun r => mkKey (ke_service r) (ke_hash r) (ke_expires r) (ke_created r) (ke_used r).
#[export] Instance upd_ke_expires : FieldUpdate ke_expires := ltac:(field_update).
#[export] Instance upd_ke_used : FieldUpdate ke_used := ltac:(field_update).

(** [usage], by workspace and period; [reservations], by id; [probes], by
    workspace and id. *)
Record usage_row := mkUsage { ug_checks : Z; ug_deliveries : Z; ug_bytes : Z }.
Record reservation_row := mkReservation { rv_workspace : string; rv_period : string; rv_created : Z }.
Record probe_row := mkProbe { pb_digest : string; pb_outcome : string; pb_at : Z }.
(** [WebhookConnection] as it is kept in the [body] column. *)
Record connection := mkConnection {
  cn_ID : string; cn_Name : string; cn_Workspace : string; cn_Provider : string; cn_Watch : string; cn_Repositories : list string;
  cn_Account : string; cn_Live : bool; cn_Events : list string; cn_PreviousUntil : time }.
(** [webhook_connections], by id. *)
Record webhook_row := mkWebhook {
  wh_workspace : string; wh_lifetime : string; wh_body : connection; wh_secret : string; wh_previous : option string; wh_until : Z }.
(** [audit] *)
Record audit_row := mkAudit { au_Sequence : Z; au_Actor : string; au_Workspace : string; au_Action : string; au_Target : string; au_At : Z }.

Record control := mkControl {
  ct_settings : gmap string string;
  ct_users : gmap string user_row;
  ct_identities : gmap (string * string) string;
  ct_workspaces : gmap string workspace_row;
  ct_memberships : gmap (string * string) string;
  ct_audit : list audit_row;
  ct_sequence : Z;
  ct_grants : gmap string grant_row;
  ct_keys : gmap string key_row;
  ct_activations : gmap string activation_row;
  ct_secrets : gmap (string * string) string;
  ct_usage : gmap (string * string) usage_row;
  ct_reservations : gmap string reservation_row;
  ct_sessions : gmap string session_row;
  ct_logins : gmap string login_row;
  ct_probes : gmap (string * string) probe_row;
  ct_devices : gmap string device_row;
  ct_bindings : gmap (string * string * string) binding_row;
  ct_proofs : gmap (string * string) string;
  ct_webhooks : gmap string webhook_row }.
#[export] Instance eta_control : Eta control := fun c =>
  mkControl (ct_settings c) (ct_users c) (ct_identities c) (ct_workspaces c) (ct_memberships c) (ct_audit c) (ct_sequence c) (ct_grants c)
    (ct_keys c) (ct_activations c) (ct_secrets c) (ct_usage c) (ct_reservations c) (ct_sessions c) (ct_logins c) (ct_probes c)
    (ct_devices c) (ct_bindings c) (ct_proofs c) (ct_webhooks c).
#[export] Instance upd_ct_settings : FieldUpdate ct_settings := ltac:(field_update).
#[export] Instance upd_ct_users : FieldUpdate ct_users := ltac:(field_update).
#[export] Instance upd_ct_identities : FieldUpdate ct_identities := ltac:(field_update).
#[export] Instance upd_ct_workspaces : FieldUpdate ct_workspaces := ltac:(field_update).
#[export] Instance upd_ct_memberships : FieldUpdate ct_memberships := ltac:(field_update).
#[export] Instance upd_ct_audit : FieldUpdate ct_audit := ltac:(field_update).
#[export] Instance upd_ct_sequence : FieldUpdate ct_sequence := ltac:(field_update).
#[export] Instance upd_ct_grants : FieldUpdate ct_grants := ltac:(field_update).
#[export] Instance upd_ct_keys : FieldUpdate ct_keys := ltac:(field_update).
#[export] Instance upd_ct_activations : FieldUpdate ct_activations := ltac:(field_update).
#[export] Instance upd_ct_secrets : FieldUpdate ct_secrets := ltac:(field_update).
#[export] Instance upd_ct_usage : FieldUpdate ct_usage := ltac:(field_update).
#[export] Instance upd_ct_reservations : FieldUpdate ct_reservations := ltac:(field_update).
#[export] Instance upd_ct_sessions : FieldUpdate ct_sessions := ltac:(field_update).
#[export] Instance upd_ct_logins : FieldUpdate ct_logins := ltac:(field_update).
#[export] Instance upd_ct_probes : FieldUpdate ct_probes := ltac:(field_update).
#[export] Instance upd_ct_devices : FieldUpdate ct_devices := ltac:(field_update).
#[export] Instance upd_ct_bindings : FieldUpdate ct_bindings := ltac:(field_update).
#[export] Instance upd_ct_proofs : FieldUpdate ct_proofs := ltac:(field_update).
#[export] Instance upd_ct_webhooks : FieldUpdate ct_webhooks := ltac:(field_update).

Definition empty_control : control := mkControl ∅ ∅ ∅ ∅ ∅ [] 0 ∅ ∅ ∅ ∅ ∅ ∅ ∅ ∅ ∅ ∅ ∅ ∅ ∅.

(** ** Transactions *)

Definition ErrNoRows : string := "sql: no rows in result set".
Definition constraint : string := "constraint failed".

Definition ctl (A : Type) : Type := control → result (A * control).
#[export] Instance ctl_ret : MRet ctl := fun A a c => Ok (a, c).
#[export] Instance ctl_bind : MBind ctl := fun A B f m c => match m c with Ok (a, c') => f a c' | Err e => Err e end.

Definition throw {A : Type} (e : string) : ctl A := fun _ => Err e.
Definition liftr {A : Type} (r : result A) : ctl A := fun c => match r with Ok a => Ok (a, c) | Err e => Err e end.
Definition get {A : Type} (f : control → A) : ctl A := fun c => Ok (f c, c).
Definition exec (f : control → control) : ctl unit := fun c => Ok (tt, f c).
Definition refuse (b : bool) (e : string) : ctl unit := if b then throw e else mret tt.
(** A query for one row. *)
Definition query_row {A : Type} (e : string) (f : control → option A) : ctl A :=
  fun c => match f c with Some a => Ok (a, c) | None => Err e end.

(** A transaction commits or rolls back. *)
Definition commit {A : Type} (t : ctl A) (c : control) : control * result A :=
  match t c with Ok (a, c') => (c', Ok a) | Err e => (c, Err e) end.

(** Rows of a table: [WHERE], [DELETE ... WHERE] and [COUNT]. *)
Definition where_ `{Countable K} {A : Type} (p : K → A → bool) (m : gmap K A) : gmap K A := filter (fun kv => p (fst kv) (snd kv) = true) m.
Definition without `{Countable K} {A : Type} (p : K → A → bool) (m : gmap K A) : gmap K A := filter (fun kv => p (fst kv) (snd kv) = false) m.
Definition count `{Countable K} {A : Type} (p : K → A → bool) (m : gmap K A) : Z := Z.of_nat (size (where_ p m)).

Definition is_Some_b {A : Type} (o : option A) : bool := match o with Some _ => true | None => false end.

(** What comes back of a list or map written as JSON text. *)
Definition stored (l : list string) : list string := map sanitize l.
Definition stored_map (m : gmap string string) : gmap string string :=
  fold_left (fun acc k => match m !! k with Some v => <[sanitize k := sanitize v]> acc | None => acc end)
    (sort_strings (fst <$> map_to_list m)) ∅.

(** ** Shared queries *)

(** [TokenHash] *)
Definition TokenHash (value : string) : string := sha256_hex value.

Definition enabled (u : string) (c : control) : bool :=
  match ct_users c !! u with Some r => negb (us_disabled r) | None => false end.
Definition available (w : string) (c : control) : bool :=
  match ct_workspaces c !! w with Some r => negb (ws_deleting r) | None => false end.

(** [qPrincipal1], [qmemberActor1], [qClaimDevice2]: the role of an enabled
    user in a workspace that is not being deleted. *)
Definition role_of (u w : string) (c : control) : option string :=
  if enabled u c && available w c then ct_memberships c !! (u, w) else None.

(** An owner who can sign in: enabled, with a password or an identity
    ([qChangeMember2], [qDeleteUser1], [qDisableUser3]). *)
Definition has_identity (u : string) (c : control) : bool := negb (count (fun _ user => user ≟ u) (ct_identities c) =? 0).
Definition can_sign_in (u : string) (c : control) : bool :=
  match ct_users c !! u with
  | Some r => negb (us_disabled r) && (is_Some_b (us_password r) || has_identity u c)
  | None => false
  end.
Definition signing_owner (w : string) (c : control) (k : string * string) (role : string) : bool :=
  (snd k ≟ w) && (role ≟ Owner) && can_sign_in (fst k) c.

(** [DB.Principal] *)
Definition DB_Principal (user workspace kind : string) (scopes : list string) (c : control) : result Principal :=
  match role_of user workspace c with
  | Some role => Ok {| pn_User := user; pn_Workspace := workspace; pn_Role := role; pn_Kind := kind; pn_Operator := false; pn_Scopes := scopes |}
  | None => Err ErrNoRows
  end.

(** [memberActor]: the actor's role is read again in the transaction. *)
Definition with_role (p : Principal) (role : string) : Principal :=
  {| pn_User := pn_User p; pn_Workspace := pn_Workspace p; pn_Role := role; pn_Kind := pn_Kind p; pn_Operator := pn_Operator p;
     pn_Scopes := pn_Scopes p |}.
Definition memberActor (p : Principal) : ctl Principal :=
  role ← query_row "member administration denied" (role_of (pn_User p) (pn_Workspace p));
  refuse (negb (Allows (with_role p role) "members")) "member administration denied" ;;
  mret (with_role p role).

(** [audit] keeps the last ten thousand entries. *)
Definition audit (now : time) (actor workspace action target : string) : ctl unit :=
  exec (fun c =>
    let n := ct_sequence c + 1 in
    c <| ct_sequence := n |>
      <| ct_audit := List.filter (fun a => n - 10000 <? au_Sequence a)
                       (ct_audit c ++ [mkAudit n actor workspace action target (Unix now)]) |>).

(** [INSERT INTO memberships], with its [CHECK(role IN ...)] and foreign keys;
    with [ON CONFLICT] the role is replaced, without it the row must be new. *)
Definition upsert_membership (user workspace role : string) : ctl unit :=
  c ← get id;
  refuse (negb (Role_Valid role) || negb (is_Some_b (ct_users c !! user)) || negb (is_Some_b (ct_workspaces c !! workspace))) constraint ;;
  exec (fun c => c <| ct_memberships := <[(user, workspace) := role]> (ct_memberships c) |>).
Definition insert_membership (user workspace role : string) : ctl unit :=
  old ← get (fun c => ct_memberships c !! (user, workspace));
  refuse (is_Some_b old) constraint ;;
  upsert_membership user workspace role.

(** [INSERT INTO users], failing with [e], and [INSERT INTO workspaces] *)
Definition username_taken (name : option string) (c : control) : bool :=
  match name with Some n => negb (count (fun _ u => us_username u ≟ Some n) (ct_users c) =? 0) | None => false end.
Definition insert_user (e id : string) (r : user_row) : ctl unit :=
  c ← get Datatypes.id;
  refuse (is_Some_b (ct_users c !! id) || username_taken (us_username r) c) e ;;
  exec (fun c => c <| ct_users := <[id := r]> (ct_users c) |>).
Definition insert_workspace (id : string) (r : workspace_row) : ctl unit :=
  old ← get (fun c => ct_workspaces c !! id);
  refuse (is_Some_b old) constraint ;;
  exec (fun c => c <| ct_workspaces := <[id := r]> (ct_workspaces c) |>).

(** [UPDATE users SET ... WHERE id=?] *)
Definition update_user (id : string) (f : user_row → user_row) (c : control) : control :=
  c <| ct_users := alter f id (ct_users c) |>.

(** ** Deleting rows that others refer to *)

Definition drop_user (u : string) (c : control) : control :=
  c <| ct_users := delete u (ct_users c) |>
    <| ct_identities := without (fun _ user => user ≟ u) (ct_identities c) |>
    <| ct_memberships := without (fun k _ => fst k ≟ u) (ct_memberships c) |>
    <| ct_activations := without (fun _ a => ac_user a ≟ u) (ct_activations c) |>
    <| ct_sessions := without (fun _ s => se_user s ≟ u) (ct_sessions c) |>
    <| ct_devices := without (fun _ d => de_user d ≟ Some u) (ct_devices c) |>
    <| ct_bindings := without (fun k _ => fst (fst k) ≟ u) (ct_bindings c) |>.

Definition drop_grants (p : string → grant_row → bool) (c : control) : control :=
  let gone := where_ p (ct_grants c) in
  c <| ct_grants := without p (ct_grants c) |>
    <| ct_keys := without (fun _ k => is_Some_b (gone !! ke_service k)) (ct_keys c) |>.

Definition drop_workspace (w : string) (c : control) : control :=
  drop_grants (fun _ g => gr_workspace g ≟ w) c
    <| ct_workspaces := delete w (ct_workspaces c) |>
    <| ct_memberships := without (fun k _ => snd k ≟ w) (ct_memberships c) |>
    <| ct_activations := without (fun _ a => ac_workspace a ≟ w) (ct_activations c) |>
    <| ct_secrets := without (fun k _ => fst k ≟ w) (ct_secrets c) |>
    <| ct_usage := without (fun k _ => fst k ≟ w) (ct_usage c) |>
    <| ct_reservations := without (fun _ r => rv_workspace r ≟ w) (ct_reservations c) |>
    <| ct_probes := without (fun k _ => fst k ≟ w) (ct_probes c) |>
    <| ct_devices := without (fun _ d => de_workspace d ≟ Some w) (ct_devices c) |>
    <| ct_bindings := without (fun k _ => snd (fst k) ≟ w) (ct_bindings c) |>
    <| ct_proofs := without (fun k _ => fst k ≟ w) (ct_proofs c) |>
    <| ct_webhooks := without (fun _ h => wh_workspace h ≟ w) (ct_webhooks c) |>.

(** [revokeUser]: every credential that acts as the user. *)
Definition revokeUser (u : string) : ctl unit :=
  exec (fun c =>
    c <| ct_sessions := without (fun _ s => se_user s ≟ u) (ct_sessions c) |>
      <| ct_devices := without (fun _ d => de_user d ≟ Some u) (ct_devices c) |>
      <| ct_activations := without (fun _ a => ac_user a ≟ u) (ct_activations c) |>
      <| ct_bindings := without (fun k _ => fst (fst k) ≟ u) (ct_bindings c) |>).
