(* ===== verification/ControlAccounts.v ===== *)
(** * Accounts of the server: users, identities, members, passwords, settings

    [internal/serverstate]: [users.go], [members.go], [passwords.go],
    [user_security.go], [identity_link.go], [profile.go], [workspace_profile.go],
    [accounts_delete.go], [settings.go], [instance.go], [login_audit.go].
    Where the code reads the database before it begins a transaction, the
    tables of that read are the argument [before]: other operations may run in
    between. *)
From S2P Require Import Prelude GoText Sha256 Access Passwords Control.

Definition from_unix (s : Z) : time := (s + unix_offset) * Second.

(** ** Users and identities *)

Record User := { u_ID : string; u_Name : string; u_Username : string; u_Disabled : bool }.
Record Workspace := { w_ID : string; w_Name : string; w_CreatedAt : time }.
Record Enrollment := { en_Workspace : Workspace; en_User : string }.
Record Membership := { m_Workspace : string; m_Name : string; m_Role : string }.
Record Member := { me_User : User; me_Role : string }.

Definition user_of (id : string) (r : user_row) : User :=
  {| u_ID := id; u_Name := us_name r; u_Username := default "" (us_username r); u_Disabled := us_disabled r |}.
Definition workspace_of (id : string) (r : workspace_row) : Workspace :=
  {| w_ID := id; w_Name := ws_name r; w_CreatedAt := from_unix (ws_created r) |}.

Definition DB_User (id : string) (c : control) : result User :=
  match ct_users c !! id with Some r => Ok (user_of id r) | None => Err ErrNoRows end.

Definition DB_Workspace (id : string) (c : control) : result Workspace :=
  match ct_workspaces c !! id with
  | Some r => if ws_deleting r then Err ErrNoRows else Ok (workspace_of id r)
  | None => Err ErrNoRows
  end.
Definition Workspaces (c : control) : list Workspace :=
  omap (fun id => r ← ct_workspaces c !! id; if ws_deleting r then None else Some (workspace_of id r))
    (sort_strings (fst <$> map_to_list (ct_workspaces c))).

Definition IdentityUser (issuer subject : string) (c : control) : result User :=
  match ct_identities c !! (issuer, subject) with
  | Some u => match ct_users c !! u with
              | Some r => if us_disabled r then Err ErrNoRows else Ok (user_of u r)
              | None => Err ErrNoRows
              end
  | None => Err ErrNoRows
  end.

(** [IdentitySubject]: the one subject of an enabled user at an issuer. *)
Definition subjects (user issuer : string) (c : control) : list string :=
  if enabled user c then (fun kv : string * string * string => snd (fst kv)) <$> map_to_list (where_ (fun k u => (fst k ≟ issuer) && (u ≟ user)) (ct_identities c))
  else [].
Definition IdentitySubject (user issuer : string) (c : control) : result string :=
  match subjects user issuer c with
  | [subject] => Ok subject
  | _ => Err "one verified provider identity is required"
  end.

(** The workspaces of a user that are not being deleted, by id. *)
Definition workspaces_of (user : string) (c : control) : list string :=
  sort_strings (List.filter (fun w => available w c) ((fun kv : string * string * string => snd (fst kv)) <$> map_to_list (where_ (fun k _ => fst k ≟ user) (ct_memberships c)))).

Definition IdentityWorkspace (issuer subject : string) (c : control) : result Enrollment :=
  u ← IdentityUser issuer subject c;
  match workspaces_of (u_ID u) c with
  | id :: _ => w ← DB_Workspace id c; Ok {| en_Workspace := w; en_User := u_ID u |}
  | [] => Err ErrNoRows
  end.

(** [Memberships] and [Members], ordered by name and id. *)
Definition name_le (a b : string * string) : Prop :=
  match str_compare (fst a) (fst b) with Lt => True | Eq => str_le (snd a) (snd b) | Gt => False end.
#[export] Instance name_le_dec a b : Decision (name_le a b).
Proof. unfold name_le, str_le. destruct (str_compare _ _); apply _. Defined.

Definition Memberships (user : string) (c : control) : list Membership :=
  if enabled user c then
    take 100 (merge_sort (fun a b => name_le (m_Name a, m_Workspace a) (m_Name b, m_Workspace b))
      (omap (fun kv : string * string * string => let w := snd (fst kv) in
               r ← ct_workspaces c !! w;
               if ws_deleting r then None else Some {| m_Workspace := w; m_Name := ws_name r; m_Role := snd kv |})
         (map_to_list (where_ (fun k _ => fst k ≟ user) (ct_memberships c)))))
  else [].
Definition Members (workspace : string) (c : control) : list Member :=
  take 1000 (merge_sort (fun a b => name_le (u_Name (me_User a), u_ID (me_User a)) (u_Name (me_User b), u_ID (me_User b)))
    (omap (fun kv : string * string * string => let u := fst (fst kv) in
             r ← ct_users c !! u; Some {| me_User := user_of u r; me_Role := snd kv |})
       (map_to_list (where_ (fun k _ => snd k ≟ workspace) (ct_memberships c))))).

Definition insert_identity (issuer subject user : string) : ctl unit :=
  c ← get id;
  refuse (is_Some_b (ct_identities c !! (issuer, subject)) || negb (is_Some_b (ct_users c !! user))) constraint ;;
  exec (fun c => c <| ct_identities := <[(issuer, subject) := user]> (ct_identities c) |>).

(** [Enroll]; [uid] and [wid] are the random ids. *)
Definition Enroll (before : control) (issuer subject : string) (limit : Z) (uid wid : string) (now : time) : ctl Enrollment :=
  refuse ((issuer ≟ "") || (subject ≟ "") || (1024 <? len issuer) || (512 <? len subject) || (limit <? 0) || (1000 <? limit)) "invalid enrollment" ;;
  match IdentityWorkspace issuer subject before with
  | Ok out => mret out
  | Err _ =>
      existing ← get (fun c => ct_identities c !! (issuer, subject));
      refuse (is_Some_b existing) "user has no available workspace" ;;
      n ← get (fun c => Z.of_nat (size (ct_workspaces c)));
      refuse (limit <=? n) "workspace enrollment is closed" ;;
      insert_user constraint uid (mkUser "" None None false (Unix now)) ;;
      insert_identity issuer subject uid ;;
      insert_workspace wid (mkWorkspace "Personal workspace" (Unix now) false) ;;
      insert_membership uid wid Owner ;;
      mret {| en_Workspace := {| w_ID := wid; w_Name := "Personal workspace"; w_CreatedAt := now |}; en_User := uid |}
  end.

(** ** Members *)

Definition signing_owners (w : string) (c : control) : Z := count (signing_owner w c) (ct_memberships c).

(** What goes with a removed membership: device sessions, device approvals,
    model connections and activations ([qChangeMember6] to [qChangeMember9]). *)
Definition revoke_member (user workspace : string) (c : control) : control :=
  c <| ct_sessions := without (fun _ s => (se_user s ≟ user) && (se_workspace s ≟ workspace) && negb (se_kind s ≟ "browser")) (ct_sessions c) |>
    <| ct_devices := without (fun _ d => (de_user d ≟ Some user) && (de_workspace d ≟ Some workspace)) (ct_devices c) |>
    <| ct_bindings := without (fun k _ => (fst (fst k) ≟ user) && (snd (fst k) ≟ workspace)) (ct_bindings c) |>
    <| ct_activations := without (fun _ a => (ac_user a ≟ user) && (ac_workspace a ≟ workspace)) (ct_activations c) |>.

Definition privileged (role : string) : bool := (role ≟ Owner) || (role ≟ Administrator).

(** [ChangeMember]; an empty role removes the membership. *)
Definition ChangeMember (p : Principal) (user role : string) (now : time) : ctl unit :=
  refuse ((user ≟ "") || (negb (role ≟ "") && negb (Role_Valid role))) "invalid member or role" ;;
  actor ← memberActor p;
  let w := pn_Workspace actor in
  old ← get (fun c => default "" (ct_memberships c !! (user, w)));
  refuse ((privileged old || privileged role) && negb (Allows actor "owners")) "owner permission required" ;;
  owners ← get (signing_owners w);
  refuse ((old ≟ Owner) && negb (role ≟ Owner) && (owners <=? 1)) "assign another owner first" ;;
  (if role ≟ "" then
     exec (fun c => revoke_member user w (c <| ct_memberships := delete (user, w) (ct_memberships c) |>))
   else
     active ← get (enabled user);
     refuse (negb active) "user unavailable" ;;
     upsert_membership user w role) ;;
  audit now (pn_User actor) w ("membership:" ++ role) user.

(** [qDeleteUser1]: the owned workspaces without another owner who can sign in. *)
Definition sole_owned (user : string) (c : control) : Z :=
  count (fun k role => (fst k ≟ user) && (role ≟ Owner) &&
           (count (fun k' role' => negb (fst k' ≟ user) && signing_owner (snd k) c k' role') (ct_memberships c) =? 0)) (ct_memberships c).

Definition DeleteUser (user : string) (now : time) : ctl unit :=
  sole ← get (sole_owned user);
  refuse (negb (sole =? 0)) "transfer workspace ownership first" ;;
  exec (drop_user user) ;;
  audit now user "" "user:delete" user.

Definition Audit (workspace : string) (before : Z) (c : control) : list audit_row :=
  take 100 (reverse (List.filter (fun a => (au_Workspace a ≟ workspace) && ((before =? 0) || (au_Sequence a <? before))) (ct_audit c))).

(** ** Passwords *)

Record Activation := { av_User : string; av_Token : string; av_ExpiresAt : time }.

Definition issue_activation (now : time) (token user workspace : string) : ctl Activation :=
  exec (fun c => c <| ct_activations := without (fun _ a => (ac_user a ≟ user) || (ac_expires a <=? Unix now)) (ct_activations c) |>) ;;
  c ← get id;
  refuse (is_Some_b (ct_activations c !! TokenHash token) || negb (is_Some_b (ct_users c !! user)) || negb (is_Some_b (ct_workspaces c !! workspace))) constraint ;;
  exec (fun c => c <| ct_activations := <[TokenHash token := mkActivation user workspace (Unix (Add now Hour))]> (ct_activations c) |>) ;;
  mret {| av_User := user; av_Token := token; av_ExpiresAt := Add now Hour |}.

Definition bad_name (name : string) : bool := (TrimSpace name ≟ "") || (100 <? len name).

Section Argon.
(** [argon2.IDKey]; [busy] and [salt] as in [HashPassword]. *)
Context (IDKey : string → string → string).

Definition Bootstrap (busy : bool) (salt : string) (username name password uid wid : string) (now : time) : ctl Enrollment :=
  username ← liftr (Username username);
  refuse (bad_name name) "name must contain 1–100 bytes" ;;
  hash ← liftr (HashPassword IDKey busy salt password);
  n ← get (fun c => size (ct_users c));
  refuse (negb (n =? 0)%nat) "instance already initialized; use host recovery" ;;
  insert_user constraint uid (mkUser name (Some username) (Some hash) false (Unix now)) ;;
  insert_workspace wid (mkWorkspace "Team" (Unix now) false) ;;
  insert_membership uid wid Owner ;;
  audit now uid wid "instance:bootstrap" uid ;;
  mret {| en_Workspace := {| w_ID := wid; w_Name := "Team"; w_CreatedAt := now |}; en_User := uid |}.

(** [Activate]: the one-time code is deleted by the statement that reads it. *)
Definition Activate (busy : bool) (salt : string) (token password : string) (now : time) : ctl unit :=
  refuse (negb (len token =? 64)) "activation expired or unavailable" ;;
  hash ← liftr (HashPassword IDKey busy salt password);
  a ← query_row "activation expired or unavailable" (fun c =>
        a ← ct_activations c !! TokenHash token;
        if (Unix now <? ac_expires a) && enabled (ac_user a) c then Some a else None);
  exec (fun c => c <| ct_activations := delete (TokenHash token) (ct_activations c) |>) ;;
  exec (update_user (ac_user a) (fun u => u <| us_password := Some hash |>)) ;;
  revokeUser (ac_user a) ;;
  audit now (ac_user a) (ac_workspace a) "password:set" (ac_user a).

Definition find_username (name : string) (c : control) : option string :=
  match map_to_list (where_ (fun _ u => us_username u ≟ Some name) (ct_users c)) with (id, _) :: _ => Some id | [] => None end.

Definition RecoverPassword (busy : bool) (salt : string) (username password : string) (now : time) : ctl unit :=
  username ← liftr (Username username);
  hash ← liftr (HashPassword IDKey busy salt password);
  user ← query_row "user not found" (find_username username);
  exec (update_user user (fun u => u <| us_password := Some hash |> <| us_disabled := false |>)) ;;
  revokeUser user ;;
  audit now "host-operator" "" "password:recover" user.

(** [ChangePassword] holds the access lock over the check and the change. *)
Definition ChangePassword (busy : bool) (salt : string) (user old password : string) (now : time) : ctl unit :=
  hash ← query_row "password unavailable" (fun c => r ← ct_users c !! user; if us_disabled r then None else us_password r);
  valid ← liftr (VerifyPassword IDKey busy hash old);
  refuse (negb valid) "current password is incorrect" ;;
  hash ← liftr (HashPassword IDKey busy salt password);
  exec (update_user user (fun u => u <| us_password := Some hash |>)) ;;
  revokeUser user ;;
  audit now user "" "password:change" user.
End Argon.

(** [PasswordUser]: the enabled user with this name and a password. *)
Definition PasswordUser (username : string) (c : control) : result (User * string) :=
  match map_to_list (where_ (fun _ u => (us_username u ≟ Some username) && is_Some_b (us_password u) && negb (us_disabled u)) (ct_users c)) with
  | (id, r) :: _ => Ok (user_of id r, default "" (us_password r))
  | [] => Err ErrNoRows
  end.

Definition Invite (p : Principal) (username name role uid token : string) (now : time) : ctl Activation :=
  username ← liftr (Username username);
  refuse (negb (Role_Valid role) || bad_name name) "valid name and role required" ;;
  actor ← memberActor p;
  refuse (privileged role && negb (Allows actor "owners")) ErrDenied ;;
  n ← get (fun c => Z.of_nat (size (ct_users c)));
  refuse (1000 <=? n) "instance user limit reached" ;;
  insert_user "username unavailable" uid (mkUser name (Some username) None false (Unix now)) ;;
  insert_membership uid (pn_Workspace actor) role ;;
  out ← issue_activation now token uid (pn_Workspace actor);
  audit now (pn_User actor) (pn_Workspace actor) "user:invite" uid ;;
  mret out.

Definition memberships_count (user : string) (c : control) : Z := count (fun k _ => fst k ≟ user) (ct_memberships c).

Definition ResetInvitation (p : Principal) (user token : string) (now : time) : ctl Activation :=
  actor ← memberActor p;
  role ← query_row ErrDenied (fun c => ct_memberships c !! (user, pn_Workspace actor));
  n ← get (memberships_count user);
  refuse (negb (n =? 1) || (role ≟ Owner) || ((role ≟ Administrator) && negb (Allows actor "owners"))) "host recovery required for this user" ;;
  out ← issue_activation now token user (pn_Workspace actor);
  audit now (pn_User actor) (pn_Workspace actor) "password:reset-issued" user ;;
  mret out.

Definition DisableUser (p : Principal) (user : string) (disabled : bool) (now : time) : ctl unit :=
  actor ← memberActor p;
  role ← query_row ErrNoRows (fun c => ct_memberships c !! (user, pn_Workspace actor));
  n ← get (memberships_count user);
  refuse (negb (n =? 1) || (privileged role && negb (Allows actor "owners"))) "host recovery required for this user" ;;
  others ← get (fun c => count (fun k role => negb (fst k ≟ user) && signing_owner (pn_Workspace actor) c k role) (ct_memberships c));
  refuse (disabled && (role ≟ Owner) && (others =? 0)) "assign another owner first" ;;
  exec (update_user user (fun u => u <| us_disabled := disabled |>)) ;;
  (if disabled then revokeUser user else mret tt) ;;
  audit now (pn_User actor) (pn_Workspace actor) "user:disabled" user.

(** ** Names of users and workspaces *)

Definition InitializeDisplayName (user raw : string) : ctl unit :=
  name ← liftr (DisplayName raw);
  exec (update_user user (fun u => if (us_name u ≟ "") && negb (us_disabled u) then u <| us_name := name |> else u)).

Definition UpdateDisplayName (user raw : string) (now : time) : ctl unit :=
  name ← liftr (DisplayName raw);
  active ← get (enabled user);
  refuse (negb active) "account unavailable" ;;
  exec (update_user user (fun u => u <| us_name := name |>)) ;;
  audit now user "" "profile:update" user.

Definition RenameWorkspace (p : Principal) (raw : string) (now : time) : ctl unit :=
  name ← liftr (DisplayName raw);
  refuse (negb (pn_Kind p ≟ "browser")) ErrDenied ;;
  role ← query_row ErrDenied (role_of (pn_User p) (pn_Workspace p));
  refuse (negb (Allows (with_role p role) "owners")) ErrDenied ;;
  exec (fun c => c <| ct_workspaces := alter (fun r => if ws_deleting r then r else r <| ws_name := name |>) (pn_Workspace p) (ct_workspaces c) |>) ;;
  audit now (pn_User p) (pn_Workspace p) "workspace:rename" (pn_Workspace p).

(** ** Deleting a workspace *)

Definition BeginWorkspaceDelete (id : string) : ctl unit :=
  w ← get (fun c => ct_workspaces c !! id);
  refuse (negb (is_Some_b w)) "workspace unavailable" ;;
  exec (fun c => c <| ct_workspaces := alter (fun r => r <| ws_deleting := true |>) id (ct_workspaces c) |>).
Definition DeletingWorkspaces (c : control) : list string := fst <$> map_to_list (where_ (fun _ r => ws_deleting r) (ct_workspaces c)).
Definition FinishWorkspaceDelete (id : string) : ctl unit :=
  exec (fun c => match ct_workspaces c !! id with Some r => if ws_deleting r then drop_workspace id c else c | None => c end).

(** ** Pinned settings *)

(** [INSERT ... ON CONFLICT(key) DO NOTHING] *)
Definition pin (key value : string) (c : control) : control :=
  match ct_settings c !! key with Some _ => c | None => c <| ct_settings := <[key := value]> (ct_settings c) |> end.
Definition pin_checked (key value differs : string) : ctl unit :=
  exec (pin key value) ;;
  saved ← query_row ErrNoRows (fun c => ct_settings c !! key);
  refuse (negb (saved ≟ value)) differs.

Definition ConfigureDataKey (key : string) : ctl unit :=
  refuse (negb (len key =? 32)) "data key must contain 32 bytes" ;;
  pin_checked "data_key" (sha256_hex ("ding.cloud.key.v1/" ++ key)) "data key differs from initialized state; restore the original external key".
Definition ConfigureHosting (hosting : string) : ctl unit :=
  refuse (negb (hosting ≟ "cloud") && negb (hosting ≟ "self-hosted")) "invalid hosting profile" ;;
  pin_checked "hosting" hosting "hosting profile differs from the initialized instance".
Definition join (sep : string) (l : list string) : string :=
  match l with [] => "" | a :: l => fold_left (fun acc b => acc ++ sep ++ b)%string l a end.
Definition ConfigureLoginMethods (methods : list string) : ctl unit :=
  let value := join "," (sort_strings methods) in
  refuse (negb (value ≟ "password") && negb (value ≟ "oidc") && negb (value ≟ "oidc,password")) "invalid login methods" ;;
  pin_checked "login_methods" value "login methods differ from the initialized instance".
Definition ConfigureOIDCIssuer (issuer : string) : ctl unit :=
  refuse (issuer ≟ "") "OIDC issuer required" ;;
  pin_checked "oidc_issuer" issuer "OIDC issuer differs from the initialized instance".
Definition InstanceID (fresh : string) : ctl string :=
  exec (pin "instance_id" fresh) ;;
  query_row ErrNoRows (fun c => ct_settings c !! "instance_id").

Definition enableOIDCProvider (issuer : string) : ctl unit :=
  methods ← query_row ErrNoRows (fun c => ct_settings c !! "login_methods");
  refuse (negb (methods ≟ "password") && negb (methods ≟ "oidc,password")) "this operation extends an initialized password login profile" ;;
  pin_checked "oidc_issuer" issuer "issuer differs from the pin_checked identity provider" ;;
  exec (fun c => c <| ct_settings := alter (fun _ => "oidc,password") "login_methods" (ct_settings c) |>).

Section Urls.
(** What [url.Parse] gives: scheme, host name, credentials, query, fragment. *)
Context (url_parse : string → option (string * string * bool * string * string)).

Definition validOIDCIssuer (issuer : string) : bool :=
  match url_parse issuer with
  | Some (scheme, hostname, userinfo, query, fragment) =>
      (scheme ≟ "https") && negb (hostname ≟ "") && negb userinfo && (query ≟ "") && (fragment ≟ "") && (len issuer <=? 1024)
  | None => false
  end.

Definition EnableOIDC (user issuer subject : string) (now : time) : ctl unit :=
  refuse (negb (validOIDCIssuer issuer) || (subject ≟ "") || (512 <? len subject) || (user ≟ "")) "provide an exact existing user and verified HTTPS issuer/subject" ;;
  enableOIDCProvider issuer ;;
  workspace ← query_row "existing active user with a workspace required" (fun c => if enabled user c then head (workspaces_of user c) else None);
  current ← get (fun c => ct_identities c !! (issuer, subject));
  refuse (match current with Some u => negb (u ≟ user) | None => false end) "identity is already linked to another user" ;;
  (match current with Some _ => mret tt | None => insert_identity issuer subject user end) ;;
  audit now "operator" workspace "identity.link" user.

Definition EnableOIDCLogin (issuer : string) (now : time) : ctl unit :=
  refuse (negb (validOIDCIssuer issuer)) "provide an exact HTTPS issuer" ;;
  enableOIDCProvider issuer ;;
  audit now "operator" "" "identity.enable" issuer.
End Urls.

Definition LoginFailure (claimed : string) (now : time) : ctl unit := audit now "unauthenticated" "" "login:failed" (TokenHash claimed).
