(* ===== verification/ControlSessions.v ===== *)
(** * Sessions, sign-in flows, device approvals and model connections

    [internal/serverstate]: [sessions.go], [devices.go], [mcp.go], the session
    functions of [user_security.go], [backup.go].  Tokens, verifiers and states are the
    bearer texts; the database keeps their SHA-256 hash.  Sealing (AES-GCM under
    a key derived from the vault's master key and a label, with a random nonce)
    is a parameter. *)
From S2P Require Import Prelude GoText Sha256 Access Control ControlAccounts.

(** ** Sessions *)

Record Session := {
  s_User : string; s_Workspace : string; s_Scopes : list string; s_Kind : string; s_ExpiresAt : time; s_Token : string; s_CSRF : string;
  s_csrfHash : string }.

Definition ValidCSRF (s : Session) (value : string) : bool := negb (value ≟ "") && (TokenHash value ≟ s_csrfHash s).

Definition week : duration := 7 * 24 * Hour.

Definition expire_sessions (now : time) (c : control) : control :=
  c <| ct_sessions := without (fun _ s => se_expires s <=? Unix now) (ct_sessions c) |>.
Definition session_count (user : string) (c : control) : Z := count (fun _ s => se_user s ≟ user) (ct_sessions c).

(** [INSERT INTO sessions] *)
Definition insert_session (hash : string) (s : session_row) : ctl unit :=
  c ← get id;
  refuse (is_Some_b (ct_sessions c !! hash) || negb (is_Some_b (ct_users c !! se_user s))) constraint ;;
  exec (fun c => c <| ct_sessions := <[hash := s]> (ct_sessions c) |>).

(** [NewSession]; [token] and [csrf] are the random values. *)
Definition NewSession (token csrf : string) (user workspace kind : string) (scopes : list string) (now : time) : ctl Session :=
  refuse (negb (kind ≟ "browser") && negb (kind ≟ "device")) "invalid session kind" ;;
  exec (expire_sessions now) ;;
  n ← get (session_count user);
  refuse (20 <=? n) "too many active sessions; revoke an existing connection" ;;
  role ← get (role_of user workspace);
  refuse (negb (is_Some_b role)) "workspace unavailable" ;;
  refuse ((kind ≟ "device") && (length scopes =? 0)%nat) "device scopes required" ;;
  insert_session (TokenHash token) (mkSession user workspace (stored scopes) (TokenHash csrf) kind (Unix (Add now week))) ;;
  audit now user workspace ("session:" ++ kind) (TokenHash token) ;;
  mret {| s_User := user; s_Workspace := workspace; s_Scopes := scopes; s_Kind := kind; s_ExpiresAt := Add now week; s_Token := token;
          s_CSRF := csrf; s_csrfHash := TokenHash csrf |}.

(** [qSession1]: the user is enabled; a browser session needs some workspace of
    the user, another session its own workspace. *)
Definition has_workspace (user : string) (c : control) : bool :=
  negb (count (fun k _ => (fst k ≟ user) && available (snd k) c) (ct_memberships c) =? 0).
Definition session_live (now : time) (s : session_row) (c : control) : bool :=
  (Unix now <? se_expires s) && enabled (se_user s) c &&
  (if se_kind s ≟ "browser" then has_workspace (se_user s) c else available (se_workspace s) c).

Definition DB_Session (token : string) (now : time) (c : control) : result Session :=
  if negb (len token =? 64) then Err "invalid session"
  else match ct_sessions c !! TokenHash token with
       | Some s =>
           if session_live now s c then
             Ok {| s_User := se_user s; s_Workspace := se_workspace s; s_Scopes := se_scopes s; s_Kind := se_kind s;
                   s_ExpiresAt := from_unix (se_expires s); s_Token := token; s_CSRF := ""; s_csrfHash := se_csrf s |}
           else Err ErrNoRows
       | None => Err ErrNoRows
       end.

Definition RevokeSession (token : string) : ctl unit := exec (fun c => c <| ct_sessions := delete (TokenHash token) (ct_sessions c) |>).
Definition RevokeUserSession (user hash : string) : ctl unit :=
  exec (fun c => c <| ct_sessions := without (fun h s => (se_user s ≟ user) && (h ≟ hash)) (ct_sessions c) |>).

(** [Sessions]: the live sessions of a user, the latest first; the order of
    sessions that expire in the same second is the database's. *)
Record SessionInfo := { si_ID : string; si_Workspace : string; si_Kind : string; si_ExpiresAt : time; si_Current : bool }.
Definition later_first (a b : string * session_row) : Prop := se_expires (snd b) <= se_expires (snd a).
#[export] Instance later_first_dec a b : Decision (later_first a b).
Proof. unfold later_first. apply _. Defined.
Definition Sessions (user token : string) (now : time) (c : control) : list SessionInfo :=
  (fun kv : string * session_row =>
     {| si_ID := fst kv; si_Workspace := se_workspace (snd kv); si_Kind := se_kind (snd kv); si_ExpiresAt := from_unix (se_expires (snd kv));
        si_Current := fst kv ≟ TokenHash token |}) <$>
  take 20 (merge_sort later_first
    (map_to_list (where_ (fun _ s => (se_user s ≟ user) && (Unix now <? se_expires s)) (ct_sessions c)))).

(** ** Device approvals *)

Definition BeginDevice (challenge fresh : string) (now : time) : ctl string :=
  refuse (negb (len challenge =? 64)) "invalid device challenge" ;;
  exec (fun c => c <| ct_devices := without (fun _ d => de_expires d <=? Unix now) (ct_devices c) |>) ;;
  n ← get (fun c => Z.of_nat (size (ct_devices c)));
  refuse (1000 <=? n) "device connection capacity reached" ;;
  old ← get (fun c => ct_devices c !! fresh);
  refuse (is_Some_b old) constraint ;;
  exec (fun c => c <| ct_devices := <[fresh := mkDevice None None challenge None (Unix (Add now (10 * Minute)))]> (ct_devices c) |>) ;;
  mret fresh.

Definition pending (now : time) (d : device_row) : bool := negb (is_Some_b (de_workspace d)) && (Unix now <? de_expires d).
Definition DevicePending (id : string) (now : time) (c : control) : bool :=
  match ct_devices c !! id with Some d => pending now d | None => false end.

(** [ApproveDevice]; the approver's role is read in [before]. *)
Definition ApproveDevice (before : control) (id user workspace : string) (scopes : list string) (now : time) : ctl unit :=
  match DB_Principal user workspace "browser" [] before with
  | Err _ => throw "membership required"
  | Ok p =>
      refuse (length scopes =? 0)%nat "membership required" ;;
      refuse (existsb (fun scope => negb (Allows p scope)) scopes) "scope not permitted" ;;
      d ← get (fun c => ct_devices c !! id);
      match d with
      | Some d =>
          refuse (negb (pending now d)) "device request expired or already approved" ;;
          c ← get Datatypes.id;
          refuse (negb (is_Some_b (ct_users c !! user)) || negb (is_Some_b (ct_workspaces c !! workspace))) constraint ;;
          exec (fun c => c <| ct_devices := <[id := mkDevice (Some user) (Some (stored scopes)) (de_challenge d) (Some workspace) (de_expires d)]> (ct_devices c) |>)
      | None => throw "device request expired or already approved"
      end
  end.

(** [ClaimDevice]; [None] while the request waits for its approval. *)
Definition ClaimDevice (token : string) (id verifier : string) (now : time) : ctl (option Session) :=
  refuse (negb (len id =? 64) || negb (len verifier =? 64)) "invalid device proof" ;;
  d ← query_row ErrNoRows (fun c => d ← ct_devices c !! id; if Unix now <? de_expires d then Some d else None);
  refuse (negb (de_challenge d ≟ TokenHash verifier)) "invalid device proof" ;;
  let user := default "" (de_user d) in
  let workspace := default "" (de_workspace d) in
  let scopes := default [] (de_scopes d) in
  if workspace ≟ "" then mret None
  else
    role ← query_row "workspace is unavailable" (role_of user workspace);
    exec (expire_sessions now) ;;
    n ← get (session_count user);
    refuse (20 <=? n) "too many active connections" ;;
    let principal := mkPrincipal user workspace role "browser" false [] in
    refuse (existsb (fun scope => negb (Allows principal scope)) scopes) "permissions changed; approve a new connection" ;;
    insert_session (TokenHash token) (mkSession user workspace scopes "" "device" (Unix (Add now week))) ;;
    exec (fun c => c <| ct_devices := delete id (ct_devices c) |>) ;;
    mret (Some {| s_User := user; s_Workspace := workspace; s_Scopes := scopes; s_Kind := "device"; s_ExpiresAt := Add now week;
                  s_Token := token; s_CSRF := ""; s_csrfHash := "" |}).

(** ** Model connections *)

(** The rows that [qMCPWorkspaces1] and [qResolveMCPWorkspace1] join. *)
Definition bound_workspaces (user client : string) (c : control) : list string :=
  sort_strings (List.filter (fun w => available w c && is_Some_b (ct_memberships c !! (user, w)))
    ((fun kv : string * string * string * binding_row => snd (fst (fst kv))) <$>
       map_to_list (where_ (fun k _ => (fst (fst k) ≟ user) && (snd k ≟ client)) (ct_bindings c)))).

Definition MCPWorkspaces (user client : string) (c : control) : list Membership :=
  if enabled user c then
    omap (fun w => r ← ct_workspaces c !! w; role ← ct_memberships c !! (user, w); Some {| m_Workspace := w; m_Name := ws_name r; m_Role := role |})
      (bound_workspaces user client c)
  else [].

Definition ResolveMCPWorkspace (user client selected : string) (c : control) : result string :=
  match List.filter (fun w => (selected ≟ "") || (w ≟ selected)) (bound_workspaces user client c) with
  | [w] => Ok w
  | _ => Err "select one approved workspace"
  end.

Definition MCPClients (user workspace : string) (c : control) : list string :=
  sort_strings ((fun kv : string * string * string * binding_row => snd (fst kv)) <$>
    map_to_list (where_ (fun k _ => (fst (fst k) ≟ user) && (snd (fst k) ≟ workspace)) (ct_bindings c))).

Definition UnbindMCP (user workspace client : string) : ctl unit :=
  exec (fun c => c <| ct_bindings := delete (user, workspace, client) (ct_bindings c) |>).

Definition LocalAgentBinding (token : string) (c : control) : result (string * string * string) :=
  match map_to_list (where_ (fun k b => (bi_credential b ≟ TokenHash token) && HasPrefix (snd k) "local:") (ct_bindings c)) with
  | (k, _) :: _ => Ok k
  | [] => Err ErrNoRows
  end.

(** ** Sealed texts *)

Definition nul : string := one (bz 0).

Section Vault.
(** [Seal label nonce plain data] and [Open label cipher data]: the text is
    authenticated together with [data]. *)
Context (Seal : string → string → string → string → string) (Open : string → string → string → option string).

(** [BeginLogin]; [plain] is the JSON text of the flow.  [ConsumeLogin] deletes
    the flow in the statement that reads it and commits before decrypting. *)
Record Login := { l_Verifier : string; l_Nonce : string; l_ReturnPath : string }.

Definition BeginLogin (nonce : string) (encode : Login → string) (state : string) (login : Login) (now : time) : ctl unit :=
  refuse (negb (len state =? 64) || (128 <? len (l_Verifier login)) || negb (len (l_Nonce login) =? 64) || (256 <? len (l_ReturnPath login)))
    "invalid login transaction" ;;
  let hash := TokenHash state in
  exec (fun c => c <| ct_logins := without (fun _ l => lo_expires l <=? Unix now) (ct_logins c) |>) ;;
  n ← get (fun c => Z.of_nat (size (ct_logins c)));
  refuse (1000 <=? n) "login capacity reached; try later" ;;
  old ← get (fun c => ct_logins c !! hash);
  refuse (is_Some_b old) constraint ;;
  exec (fun c => c <| ct_logins := <[hash := mkLogin (Seal "_login" nonce (encode login) hash) (Unix (Add now (10 * Minute)))]> (ct_logins c) |>).

Definition take_login (state : string) (now : time) : ctl string :=
  refuse (negb (len state =? 64)) "invalid login state" ;;
  l ← query_row ErrNoRows (fun c => l ← ct_logins c !! TokenHash state; if Unix now <? lo_expires l then Some l else None);
  exec (fun c => c <| ct_logins := delete (TokenHash state) (ct_logins c) |>) ;;
  mret (lo_cipher l).
Definition open_login (decode : string → option Login) (state cipher : string) : result Login :=
  match Open "_login" cipher (TokenHash state) with
  | Some plain => match decode plain with Some l => Ok l | None => Err "invalid JSON" end
  | None => Err "login decryption failed"
  end.
Definition ConsumeLogin (decode : string → option Login) (state : string) (now : time) (c : control) : control * result Login :=
  match commit (take_login state now) c with
  | (c', Ok cipher) => (c', open_login decode state cipher)
  | (c', Err e) => (c', Err e)
  end.

(** [BindMCP]; [raw] is the JSON text of a valid connection with bearer text
    [credential]. *)
Definition binding_data (user workspace client : string) : string := (user ++ nul ++ workspace ++ nul ++ client)%string.
Definition BindMCP (before : control) (nonce : string) (user workspace client : string) (valid : result unit) (raw credential : string) : ctl unit :=
  match DB_Principal user workspace "browser" [] before with
  | Err _ => throw "membership required"
  | Ok _ =>
      refuse ((client ≟ "") || (512 <? len client)) "invalid OAuth client" ;;
      liftr valid ;;
      n ← get (fun c => count (fun k _ => (fst (fst k) ≟ user) && (snd (fst k) ≟ workspace)) (ct_bindings c));
      refuse (10 <=? n) "disconnect an existing model client first" ;;
      c ← get id;
      refuse (is_Some_b (ct_bindings c !! (user, workspace, client)) || negb (count (fun _ b => bi_credential b ≟ TokenHash credential) (ct_bindings c) =? 0)
              || negb (is_Some_b (ct_users c !! user)) || negb (is_Some_b (ct_workspaces c !! workspace)))
        "client already connected or workspace unavailable" ;;
      exec (fun c => c <| ct_bindings := <[(user, workspace, client) :=
        mkBinding (TokenHash credential) (Seal ("mcp/" ++ workspace) nonce raw (binding_data user workspace client))]> (ct_bindings c) |>)
  end.
Definition MCP (user workspace client : string) (c : control) : result string :=
  match ct_bindings c !! (user, workspace, client) with
  | Some b => match Open ("mcp/" ++ workspace) (bi_cipher b) (binding_data user workspace client) with
              | Some plain => Ok plain
              | None => Err "model connection unavailable"
              end
  | None => Err ErrNoRows
  end.
End Vault.

(** ** A restored copy *)

(** [QuarantineRestore] on a database that passed its integrity check: nothing
    issued before the backup is accepted again. *)
Definition QuarantineRestore : ctl unit :=
  exec (fun c => c <| ct_webhooks := ∅ |> <| ct_grants := ∅ |> <| ct_keys := ∅ |> <| ct_activations := ∅ |> <| ct_sessions := ∅ |>
                   <| ct_logins := ∅ |> <| ct_devices := ∅ |> <| ct_bindings := ∅ |> <| ct_proofs := ∅ |>).
