(* ===== verification/ControlServices.v ===== *)
(** * Producers and their keys, and provider webhooks

    [internal/serverstate]: [services.go], [service_keys.go],
    [ingest_guard.go], [webhooks.go].  A producer ("service") is a grant of
    scopes on watches; its keys rotate under it. *)
From S2P Require Import Prelude GoText Sha256 GoTime Access Control ControlAccounts.

(** ** Grants *)

Record Service := {
  sv_LastUsedAt : option time; sv_Lifetimes : gmap string string; sv_KeyID : string; sv_ID : string; sv_Name : string; sv_Workspace : string;
  sv_CreatedBy : string; sv_Scopes : list string; sv_Watches : list string; sv_ExpiresAt : time; sv_Token : string }.

(** [scanService] *)
Definition scanService (id : string) (g : grant_row) (expires : Z) (key : string) (used : Z) : Service :=
  {| sv_LastUsedAt := if 0 <? used then Some (from_unix used) else None; sv_Lifetimes := gr_lifetimes g; sv_KeyID := key; sv_ID := id;
     sv_Name := gr_name g; sv_Workspace := gr_workspace g; sv_CreatedBy := gr_createdBy g; sv_Scopes := gr_scopes g; sv_Watches := gr_watches g;
     sv_ExpiresAt := from_unix expires; sv_Token := "" |}.

Definition slash (c : ascii) : bool := (c ≟ "/"%char) || (c ≟ "\"%char).
Definition validateService (name : string) (scopes watches : list string) (days : Z) : result unit :=
  fail_if ((TrimSpace name ≟ "") || (100 <? len name) || (days <? 1) || (90 <? days) || (length scopes =? 0)%nat || (3 <? Z.of_nat (length scopes))
           || (100 <? Z.of_nat (length watches))) "provide name, bounded scopes, and expiry of 1–90 days" ;;
  fail_if (existsb (fun s => negb (bool_decide (s ∈ ["inspect"; "retry"; "ingest"]))) scopes) "service scope is not supported" ;;
  fail_if (bool_decide ("ingest" ∈ scopes) && (length watches =? 0)%nat) "ingest requires explicit watch IDs" ;;
  fail_if (existsb (fun id => (id ≟ "") || (128 <? len id) || str_existsb slash id) watches) "invalid watch ID".

Definition service_prefix : string := "ding_service_".
Definition days_of (days : Z) : duration := days * 24 * Hour.

(** [INSERT INTO service_grants] and [INSERT INTO service_keys] *)
Definition insert_grant (id : string) (g : grant_row) : ctl unit :=
  c ← get Datatypes.id;
  refuse (is_Some_b (ct_grants c !! id) || negb (count (fun _ o => gr_hash o ≟ gr_hash g) (ct_grants c) =? 0)
          || negb (is_Some_b (ct_workspaces c !! gr_workspace g))) constraint ;;
  exec (fun c => c <| ct_grants := <[id := g]> (ct_grants c) |>).
Definition insert_key (id : string) (k : key_row) : ctl unit :=
  c ← get Datatypes.id;
  refuse (is_Some_b (ct_keys c !! id) || negb (count (fun _ o => ke_hash o ≟ ke_hash k) (ct_keys c) =? 0)
          || negb (is_Some_b (ct_grants c !! ke_service k))) constraint ;;
  exec (fun c => c <| ct_keys := <[id := k]> (ct_keys c) |>).

(** [CreateBoundService]; [sid], [kid] and [secret] are the random values. *)
Definition CreateBoundService (p : Principal) (name : string) (scopes watches : list string) (days : Z) (lifetimes : gmap string string)
    (sid kid secret : string) (now : time) : ctl Service :=
  liftr (validateService name scopes watches days) ;;
  actor ← memberActor p;
  exec (drop_grants (fun _ g => gr_expires g <=? Unix now)) ;;
  n ← get (fun c => count (fun _ g => gr_workspace g ≟ pn_Workspace actor) (ct_grants c));
  refuse (100 <=? n) "workspace service limit reached" ;;
  let token := (service_prefix ++ secret)%string in
  let expires := Add now (days_of days) in
  insert_grant sid (mkGrant (TokenHash token) name (pn_Workspace actor) (pn_User actor) (stored scopes) (stored watches) (Unix expires) (stored_map lifetimes)) ;;
  insert_key kid (mkKey sid (TokenHash token) (Unix expires) (UnixNano now) 0) ;;
  audit now (pn_User actor) (pn_Workspace actor) "service:create" sid ;;
  mret {| sv_LastUsedAt := None; sv_Lifetimes := lifetimes; sv_KeyID := kid; sv_ID := sid; sv_Name := name; sv_Workspace := pn_Workspace actor;
          sv_CreatedBy := pn_User actor; sv_Scopes := scopes; sv_Watches := watches; sv_ExpiresAt := expires; sv_Token := token |}.
Definition CreateService (p : Principal) (name : string) (scopes watches : list string) (days : Z) (sid kid secret : string) (now : time) : ctl Service :=
  CreateBoundService p name scopes watches days ∅ sid kid secret now.

Definition Services (workspace : string) (c : control) : list Service :=
  omap (fun id => g ← ct_grants c !! id; Some (scanService id g (gr_expires g) "" 0))
    (take 100 (sort_strings (fst <$> map_to_list (where_ (fun _ g => gr_workspace g ≟ workspace) (ct_grants c))))).

(** [ServiceToken]: the key of this text, unexpired, of a workspace that is not
    being deleted. *)
Definition find_key (hash : string) (now : time) (c : control) : option (string * key_row) :=
  head (map_to_list (where_ (fun _ k => (ke_hash k ≟ hash) && (Unix now <? ke_expires k)) (ct_keys c))).
Definition ServiceToken (token : string) (now : time) (c : control) : result Service :=
  if negb (len token =? len service_prefix + 64) then Err "invalid service credential"
  else match find_key (TokenHash token) now c with
       | Some (kid, k) =>
           match ct_grants c !! ke_service k with
           | Some g => if available (gr_workspace g) c then Ok (scanService (ke_service k) g (ke_expires k) kid (ke_used k)) else Err ErrNoRows
           | None => Err ErrNoRows
           end
       | None => Err ErrNoRows
       end.

Definition RevokeService (p : Principal) (id : string) (now : time) : ctl unit :=
  actor ← memberActor p;
  exec (drop_grants (fun sid g => (gr_workspace g ≟ pn_Workspace actor) && (sid ≟ id))) ;;
  audit now (pn_User actor) (pn_Workspace actor) "service:revoke" id.

(** [NoteServiceUse] *)
Definition NoteServiceUse (s : Service) (now : time) : ctl unit :=
  if (sv_KeyID s ≟ "") || (match sv_LastUsedAt s with Some t => Sub now t <? Minute | None => false end) then mret tt
  else exec (fun c => c <| ct_keys := alter (fun k => if ke_used k <? Unix (Add now (- Minute)) then k <| ke_used := Unix now |> else k) (sv_KeyID s) (ct_keys c) |>).

(** ** Keys *)

(** [ORDER BY created_at DESC,id DESC LIMIT 1] *)
Definition newer_key (a b : string * key_row) : bool :=
  (ke_created (snd b) <? ke_created (snd a)) ||
  ((ke_created (snd b) =? ke_created (snd a)) && match str_compare (fst a) (fst b) with Gt => true | _ => false end).
Definition newest_key (service : string) (c : control) : option string :=
  fst <$> fold_right (fun k best => match best with Some b => if newer_key k b then Some k else Some b | None => Some k end) None
            (map_to_list (where_ (fun _ k => ke_service k ≟ service) (ct_keys c))).

(** [qRotateService2], [qRotateService3]: the newest key stays, until the end
    of the overlap at most. *)
Definition retire_keys (service : string) (until : Z) (c : control) : control :=
  let keep := newest_key service c in
  c <| ct_keys := (fun k => if ke_service k ≟ service then k <| ke_expires := Z.min (ke_expires k) until |> else k) <$>
                    without (fun kid k => (ke_service k ≟ service) && negb (Some kid ≟ keep)) (ct_keys c) |>.

Definition RotateService (p : Principal) (id : string) (days overlapSeconds : Z) (kid secret : string) (now : time) : ctl Service :=
  refuse ((days <? 1) || (90 <? days) || (overlapSeconds <? 0) || (86400 <? overlapSeconds)) "expiry must be 1–90 days and overlap 0–86400 seconds" ;;
  actor ← memberActor p;
  g ← query_row ErrNoRows (fun c => g ← ct_grants c !! id; if gr_workspace g ≟ pn_Workspace actor then Some g else None);
  exec (retire_keys id (Unix (Add now (overlapSeconds * Second)))) ;;
  let token := (service_prefix ++ secret)%string in
  let expires := Add now (days_of days) in
  insert_key kid (mkKey id (TokenHash token) (Unix expires) (UnixNano now) 0) ;;
  c ← get Datatypes.id;
  refuse (negb (count (fun sid o => negb (sid ≟ id) && (gr_hash o ≟ TokenHash token)) (ct_grants c) =? 0)) constraint ;;
  exec (fun c => c <| ct_grants := alter (fun g => g <| gr_expires := Unix expires |> <| gr_hash := TokenHash token |>) id (ct_grants c) |>) ;;
  audit now (pn_User actor) (pn_Workspace actor) "service:rotate" id ;;
  mret {| sv_LastUsedAt := None; sv_Lifetimes := gr_lifetimes g; sv_KeyID := kid; sv_ID := id; sv_Name := gr_name g; sv_Workspace := gr_workspace g;
          sv_CreatedBy := gr_createdBy g; sv_Scopes := gr_scopes g; sv_Watches := gr_watches g; sv_ExpiresAt := expires; sv_Token := token |}.

(** [ServiceKeys]; the order of keys of the same instant is the database's. *)
Record ServiceKey := { sk_LastUsedAt : option time; sk_ID : string; sk_ExpiresAt : time }.
Definition newer_first (a b : string * key_row) : Prop := ke_created (snd b) <= ke_created (snd a).
#[export] Instance newer_first_dec a b : Decision (newer_first a b).
Proof. unfold newer_first. apply _. Defined.
Definition ServiceKeys (workspace id : string) (c : control) : list ServiceKey :=
  match ct_grants c !! id with
  | Some g =>
      if gr_workspace g ≟ workspace then
        (fun kv : string * key_row => {| sk_LastUsedAt := if 0 <? ke_used (snd kv) then Some (from_unix (ke_used (snd kv))) else None;
           sk_ID := fst kv; sk_ExpiresAt := from_unix (ke_expires (snd kv)) |}) <$>
        merge_sort newer_first (map_to_list (where_ (fun _ k => ke_service k ≟ id) (ct_keys c)))
      else []
  | None => []
  end.

Definition RevokeServiceKey (p : Principal) (id key : string) (now : time) : ctl unit :=
  actor ← memberActor p;
  exec (fun c => c <| ct_keys := without (fun kid k => (kid ≟ key) && (ke_service k ≟ id) &&
    match ct_grants c !! id with Some g => gr_workspace g ≟ pn_Workspace actor | None => false end) (ct_keys c) |>) ;;
  audit now (pn_User actor) (pn_Workspace actor) "service:key-revoke" key.

Definition UpdateService (p : Principal) (id name : string) (scopes watches : list string) (lifetimes : gmap string string) (now : time) : ctl Service :=
  liftr (validateService name scopes watches 1) ;;
  actor ← memberActor p;
  g ← query_row "producer unavailable" (fun c => g ← ct_grants c !! id; if gr_workspace g ≟ pn_Workspace actor then Some g else None);
  let g' := mkGrant (gr_hash g) name (gr_workspace g) (gr_createdBy g) (stored scopes) (stored watches) (gr_expires g) (stored_map lifetimes) in
  exec (fun c => c <| ct_grants := <[id := g']> (ct_grants c) |>) ;;
  audit now (pn_User actor) (pn_Workspace actor) "service:update" id ;;
  mret (scanService id g' (gr_expires g') "" 0).

(** ** Guards of the acceptance transaction (PostgreSQL) *)

Definition ErrServiceRevoked : string := "producer credential expired or unavailable".

(** The guard's lock: what it reads under the row locks, and when the key
    expires; [guard_check] runs again at the commit. *)
Definition guard_check (deadline : Z) (now : time) : result unit := fail_if (negb (Before now (from_unix deadline))) ErrServiceRevoked.
Definition key_of (hash service : string) (c : control) : option key_row :=
  snd <$> head (map_to_list (where_ (fun _ k => (ke_hash k ≟ hash) && (ke_service k ≟ service)) (ct_keys c))).
Definition IngestGuard (token producer workspace watch lifetime : string) (now : time) (c : control) : result Z :=
  match ct_grants c !! producer with
  | Some g =>
      if available workspace c && (gr_workspace g ≟ workspace) then
        match key_of (TokenHash token) producer c with
        | Some k =>
            fail_if (negb (bool_decide ("ingest" ∈ gr_scopes g)) || negb (bool_decide (watch ∈ gr_watches g))
                     || negb (default "" (gr_lifetimes g !! watch) ≟ lifetime)) ErrServiceRevoked ;;
            guard_check (ke_expires k) now ;;
            Ok (ke_expires k)
        | None => Err ErrServiceRevoked
        end
      else Err ErrServiceRevoked
  | None => Err ErrServiceRevoked
  end.

(** ** Webhooks *)

Definition copy_connection (n : connection) : option connection :=
  until ← copy_time (cn_PreviousUntil n);
  Some (mkConnection (sanitize (cn_ID n)) (sanitize (cn_Name n)) (sanitize (cn_Workspace n)) (sanitize (cn_Provider n)) (sanitize (cn_Watch n))
    (stored (cn_Repositories n)) (sanitize (cn_Account n)) (cn_Live n) (stored (cn_Events n)) until).

Section Sealed.
Context (Seal : string → string → string → string → string) (Open : string → string → string → option string).

Definition check_connection (n : connection) (lifetime secret : string) : result unit :=
  fail_if ((cn_Name n ≟ "") || (100 <? len (cn_Name n)) || (cn_Watch n ≟ "") || (lifetime ≟ "") || (len secret <? 16) || (4096 <? len secret)
           || negb (bool_decide (cn_Provider n ∈ ["github"; "stripe"; "workos"])))
    "provide a name, provider, existing push watch and a strong signing secret" ;;
  fail_if ((100 <? Z.of_nat (length (cn_Repositories n))) || (100 <? Z.of_nat (length (cn_Events n)))) "connection resource limit exceeded" ;;
  fail_if ((cn_Provider n ≟ "github") && (length (cn_Repositories n) =? 0)%nat) "GitHub requires explicit immutable repository IDs" ;;
  fail_if ((cn_Provider n ≟ "stripe") && ((cn_Account n ≟ "") || (length (cn_Events n) =? 0)%nat))
    "Stripe requires its account ID and explicit snapshot event types" ;;
  fail_if ((cn_Provider n ≟ "workos") && (negb (cn_Events n ≟ ["user.created"]) || negb (length (cn_Repositories n) =? 0)%nat
           || negb (cn_Account n ≟ "") || cn_Live n))
    "WorkOS connections require only the user.created event; the environment is bound by its signing secret" ;;
  fail_if (existsb (fun id => (id ≟ "") || (32 <? len id)) (cn_Repositories n)) "invalid repository ID" ;;
  fail_if (existsb (fun e => (e ≟ "") || (128 <? len e)) (cn_Events n)) "invalid event type".

Definition CreateWebhook (nonce wid : string) (p : Principal) (n : connection) (lifetime secret : string) (now : time) : ctl connection :=
  liftr (check_connection n lifetime secret) ;;
  let n := mkConnection wid (cn_Name n) (pn_Workspace p) (cn_Provider n) (cn_Watch n) (cn_Repositories n) (cn_Account n) (cn_Live n) (cn_Events n) (cn_PreviousUntil n) in
  body ← liftr (match copy_connection n with Some b => Ok b | None => Err "json: unsupported value" end);
  actor ← memberActor p;
  k ← get (fun c => count (fun _ h => wh_workspace h ≟ pn_Workspace actor) (ct_webhooks c));
  refuse (100 <=? k) "connection capacity reached" ;;
  c ← get id;
  refuse (is_Some_b (ct_webhooks c !! wid) || negb (is_Some_b (ct_workspaces c !! cn_Workspace n))) constraint ;;
  exec (fun c => c <| ct_webhooks := <[wid := mkWebhook (cn_Workspace n) lifetime body (Seal (cn_Workspace n) nonce secret ("webhook:" ++ wid)) None 0]> (ct_webhooks c) |>) ;;
  audit now (pn_User actor) (pn_Workspace actor) "webhook:create" wid ;;
  mret n.

(** [Webhook]: the connection with its signing secret, and the previous one
    until the end of its overlap. *)
Definition open_secret (n : connection) (cipher : string) : result string :=
  match Open (cn_Workspace n) cipher ("webhook:" ++ cn_ID n) with Some s => Ok s | None => Err "webhook secret unavailable" end.
Definition Webhook (wid : string) (now : time) (c : control) : result (connection * string * string * option string) :=
  match ct_webhooks c !! wid with
  | Some h =>
      if available (wh_workspace h) c then
        secret ← open_secret (wh_body h) (wh_secret h);
        previous ← match wh_previous h with
                   | Some cipher => if negb (cipher ≟ "") && Before now (from_unix (wh_until h)) then Some <$> open_secret (wh_body h) cipher else Ok None
                   | None => Ok None
                   end;
        Ok (wh_body h, wh_lifetime h, secret, previous)
      else Err ErrNoRows
  | None => Err ErrNoRows
  end.
Definition Webhooks (workspace : string) (c : control) : list connection :=
  omap (fun id => wh_body <$> ct_webhooks c !! id) (sort_strings (fst <$> map_to_list (where_ (fun _ h => wh_workspace h ≟ workspace) (ct_webhooks c)))).

Definition RotateWebhook (nonce : string) (p : Principal) (wid secret : string) (overlap : Z) (now : time) : ctl unit :=
  refuse ((len secret <? 16) || (4096 <? len secret) || (overlap <? 0) || (86400 <? overlap)) "invalid signing secret or overlap" ;;
  actor ← memberActor p;
  h ← query_row "connection unavailable" (fun c => h ← ct_webhooks c !! wid; if wh_workspace h ≟ pn_Workspace actor then Some h else None);
  exec (fun c => c <| ct_webhooks := <[wid := mkWebhook (wh_workspace h) (wh_lifetime h) (wh_body h)
    (Seal (pn_Workspace p) nonce secret ("webhook:" ++ wid)) (Some (wh_secret h)) (Unix (Add now (overlap * Second)))]> (ct_webhooks c) |>) ;;
  audit now (pn_User actor) (pn_Workspace actor) "webhook:rotate" wid.

Definition DeleteWebhook (p : Principal) (wid : string) (now : time) : ctl unit :=
  actor ← memberActor p;
  exec (fun c => c <| ct_webhooks := without (fun id h => (id ≟ wid) && (wh_workspace h ≟ pn_Workspace actor)) (ct_webhooks c) |>) ;;
  audit now (pn_User actor) (pn_Workspace actor) "webhook:delete" wid.

(** [WebhookIngestGuard]: [authorized] is the provider's check of the request. *)
Definition WebhookIngestGuard (wid workspace : string) (authorized : bool) (deadline : time) (now : time) (c : control) : result unit :=
  let held := match ct_webhooks c !! wid with Some h => wh_workspace h ≟ workspace | None => false end in
  fail_if (negb (available workspace c) || negb held || negb authorized || (negb (IsZero deadline) && negb (Before now deadline))) ErrServiceRevoked.
End Sealed.
