(* ===== verification/ControlUsage.v ===== *)
(** * Budgets, receipts and sealed credentials of a workspace

    [internal/serverstate]: [usage.go], [probes.go], [secrets.go],
    [handoffs.go], [retention.go]. *)
From S2P Require Import Prelude GoText Sha256 GoTime Access Control.

(** ** Outbound budgets *)

Definition MonthlyChecks : Z := 30000.
Definition MonthlyDeliveries : Z := 1000.
Definition MonthlyBytes : Z := Z.shiftl 128 20.
Definition RequestReservation : Z := Z.shiftl 1 20 + 1 + Z.shiftl 96 10.

(** [now.UTC().Format("2006-01")] *)
Definition month_text (y m : Z) : string := (pad 4 y ++ "-" ++ pad 2 m)%string.
Definition period (t : time) : string := month_text (cv_year (date_of t)) (cv_month (date_of t)).

(** A zero limit is no limit. *)
Record OutboundBudget := { bg_Checks : Z; bg_Deliveries : Z; bg_Bytes : Z }.
Definition Reservation : Type := string * string * string.

Definition within (limit used : Z) : bool := (limit =? 0) || (used <=? limit).
(** [qReserveBudget4]: the charge, unless it exceeds the budget. *)
Definition charge (b : OutboundBudget) (checks deliveries : Z) (u : usage_row) : option usage_row :=
  let u' := mkUsage (ug_checks u + checks) (ug_deliveries u + deliveries) (ug_bytes u + RequestReservation) in
  if within (bg_Checks b) (ug_checks u') && within (bg_Deliveries b) (ug_deliveries u') && within (bg_Bytes b) (ug_bytes u') then Some u' else None.

Definition ReserveBudget (workspace : string) (delivery : bool) (now : time) (b : OutboundBudget) (fresh : string) : ctl Reservation :=
  exec (fun c => c <| ct_reservations := without (fun _ r => (rv_workspace r ≟ workspace) && (rv_created r <? Unix (Add now (- Hour)))) (ct_reservations c) |>) ;;
  active ← get (fun c => count (fun _ r => rv_workspace r ≟ workspace) (ct_reservations c));
  refuse (4 <=? active) "workspace outbound concurrency exhausted" ;;
  w ← get (fun c => ct_workspaces c !! workspace);
  refuse (negb (is_Some_b w)) constraint ;;
  let u0 c := default (mkUsage 0 0 0) (ct_usage c !! (workspace, period now)) in
  u ← query_row "workspace monthly outbound budget exhausted; inspect cloud usage"
        (fun c => charge b (if delivery then 0 else 1) (if delivery then 1 else 0) (u0 c));
  exec (fun c => c <| ct_usage := <[(workspace, period now) := u]> (ct_usage c) |>) ;;
  old ← get (fun c => ct_reservations c !! fresh);
  refuse (is_Some_b old) constraint ;;
  exec (fun c => c <| ct_reservations := <[fresh := mkReservation workspace (period now) (Unix now)]> (ct_reservations c) |>) ;;
  mret (fresh, workspace, period now).
Definition Reserve (workspace : string) (delivery : bool) (now : time) (fresh : string) : ctl Reservation :=
  ReserveBudget workspace delivery now {| bg_Checks := MonthlyChecks; bg_Deliveries := MonthlyDeliveries; bg_Bytes := MonthlyBytes |} fresh.

(** [Finish]: the unused part of the reservation is returned once. *)
Definition refund (workspace per : string) (bytes : Z) (c : control) : control :=
  c <| ct_usage := alter (fun u => mkUsage (ug_checks u) (ug_deliveries u) (ug_bytes u - bytes)) (workspace, per) (ct_usage c) |>.
Definition FinishReservation (r : Reservation) (used : Z) : ctl unit :=
  let '(id, workspace, per) := r in
  refuse ((used <? 0) || (RequestReservation <? used)) "invalid network charge" ;;
  held ← get (fun c => match ct_reservations c !! id with Some v => (rv_workspace v ≟ workspace) && (rv_period v ≟ per) | None => false end);
  if (held : bool) then
    exec (fun c => refund workspace per (RequestReservation - used) (c <| ct_reservations := delete id (ct_reservations c) |>))
  else mret tt.

Definition Usage (workspace : string) (now : time) (c : control) : usage_row := default (mkUsage 0 0 0) (ct_usage c !! (workspace, period now)).

(** ** Receipts of external tests *)

Definition operation_char (c : ascii) : bool :=
  in_range 65 90 c || in_range 97 122 c || is_digit c || (c ≟ "_"%char) || (c ≟ "-"%char).
(** [^[A-Za-z0-9_-]{16,128}$] *)
Definition operationID (s : string) : bool := str_forallb operation_char s && (16 <=? len s) && (len s <=? 128).

(** [BeginProbe]: whether this call reserved the test. *)
Definition BeginProbe (workspace id digest : string) (now : time) : ctl (probe_row * bool) :=
  refuse (negb (operationID id) || negb (len digest =? 64)) "invalid probe identity" ;;
  old ← get (fun c => ct_probes c !! (workspace, id));
  match old with
  | Some p =>
      refuse (negb (pb_digest p ≟ digest)) "operation key was already used for a different test or credential revision" ;;
      mret (p, false)
  | None =>
      n ← get (fun c => count (fun k _ => fst k ≟ workspace) (ct_probes c));
      refuse (1000 <=? n) "workspace test-receipt quota reached" ;;
      w ← get (fun c => ct_workspaces c !! workspace);
      refuse (negb (is_Some_b w)) constraint ;;
      let p := mkProbe digest "pending" (Unix now) in
      exec (fun c => c <| ct_probes := <[(workspace, id) := p]> (ct_probes c) |>) ;;
      mret (p, true)
  end.
Definition FinishProbe (workspace id outcome : string) : ctl unit :=
  refuse (negb (outcome ≟ "accepted") && negb (outcome ≟ "failed")) "invalid probe outcome" ;;
  p ← query_row "probe is no longer pending" (fun c => p ← ct_probes c !! (workspace, id); if pb_outcome p ≟ "pending" then Some p else None);
  exec (fun c => c <| ct_probes := <[(workspace, id) := mkProbe (pb_digest p) outcome (pb_at p)]> (ct_probes c) |>).

(** ** Sealed credentials *)

(** [^[A-Za-z_][A-Za-z0-9_]{0,127}$] *)
Definition name_start (c : ascii) : bool := in_range 65 90 c || in_range 97 122 c || (c ≟ "_"%char).
Definition secretName (s : string) : bool :=
  match s with String c rest => name_start c && str_forallb (fun d => name_start d || is_digit d) rest && (len rest <=? 127) | EmptyString => false end.
Definition secret_data (workspace name : string) : string := (workspace ++ one (bz 0) ++ name)%string.

Definition audit_as (ctx : option Principal) (now : time) (workspace action target : string) : ctl unit :=
  match ctx with Some p => audit now (pn_User p) workspace action target | None => mret tt end.

Section Sealed_secrets.
Context (Seal : string → string → string → string → string) (Open : string → string → string → option string).

Definition Put (nonce : string) (ctx : option Principal) (workspace name value : string) (now : time) : ctl unit :=
  refuse (negb (secretName name) || (value ≟ "") || (Z.shiftl 16 10 <? len value)) "credential name or size is invalid" ;;
  n ← get (fun c => count (fun k _ => fst k ≟ workspace) (ct_secrets c));
  old ← get (fun c => ct_secrets c !! (workspace, name));
  refuse ((20 <=? n) && negb (is_Some_b old)) "workspace allows at most twenty credentials" ;;
  w ← get (fun c => ct_workspaces c !! workspace);
  refuse (negb (is_Some_b w)) constraint ;;
  exec (fun c => c <| ct_secrets := <[(workspace, name) := Seal workspace nonce value (secret_data workspace name)]> (ct_secrets c) |>) ;;
  audit_as ctx now workspace "credential:put" name.

Definition GetWithRevision (workspace name : string) (c : control) : result (string * string) :=
  match ct_secrets c !! (workspace, name) with
  | Some cipher => match Open workspace cipher (secret_data workspace name) with
                   | Some plain => Ok (plain, TokenHash cipher)
                   | None => Err "credential decryption failed"
                   end
  | None => Err ErrNoRows
  end.
Definition Get (workspace name : string) (c : control) : result string := fst <$> GetWithRevision workspace name c.

(** [Vault.Lookup]: the workspace is fixed when the function is made. *)
Definition Lookup_secret (workspace : string) (c : control) (name : string) : option string :=
  match Get workspace name c with Ok v => if v ≟ "" then None else Some v | Err _ => None end.
End Sealed_secrets.

Definition secret_revision (workspace name : string) (c : control) : result string :=
  match ct_secrets c !! (workspace, name) with Some cipher => Ok (TokenHash cipher) | None => Err ErrNoRows end.
Definition Names (workspace : string) (c : control) : list string :=
  sort_strings ((fun kv : string * string * string => snd (fst kv)) <$> map_to_list (where_ (fun k _ => fst k ≟ workspace) (ct_secrets c))).
Definition Delete (ctx : option Principal) (workspace name : string) (now : time) : ctl unit :=
  exec (fun c => c <| ct_secrets := delete (workspace, name) (ct_secrets c) |>) ;;
  audit_as ctx now workspace "credential:delete" name.

(** ** Proofs of a transfer test; [raw] is the JSON text *)

Definition SaveHandoffProof (workspace id raw : string) : ctl unit :=
  refuse ((Z.shiftl 32 10 <? len raw) || negb (len id =? 64)) "invalid handoff proof" ;;
  n ← get (fun c => count (fun k _ => (fst k ≟ workspace) && negb (snd k ≟ id)) (ct_proofs c));
  refuse (1000 <=? n) "handoff proof capacity reached" ;;
  w ← get (fun c => ct_workspaces c !! workspace);
  refuse (negb (is_Some_b w)) constraint ;;
  exec (fun c => c <| ct_proofs := <[(workspace, id) := raw]> (ct_proofs c) |>).
Definition HandoffProof (workspace id : string) (c : control) : result string :=
  match ct_proofs c !! (workspace, id) with Some raw => Ok raw | None => Err ErrNoRows end.

(** ** Collecting what expired *)

(** The month of [now.AddDate(0, -3, 0)]: a day that month does not have runs
    into the next one. *)
Definition months_in (y m : Z) : Z := default 31 (month_days (is_leap y) !! Z.to_nat (m - 1)).
Definition three_months_before (t : time) : string :=
  let d := date_of t in
  let y := if cv_month d <=? 3 then cv_year d - 1 else cv_year d in
  let m := if cv_month d <=? 3 then cv_month d + 9 else cv_month d - 3 in
  if cv_day d <=? months_in y m then month_text y m
  else if m =? 12 then month_text (y + 1) 1 else month_text y (m + 1).

Definition Collect (now : time) : ctl unit :=
  exec (fun c =>
    c <| ct_sessions := without (fun _ s => se_expires s <=? Unix now) (ct_sessions c) |>
      <| ct_logins := without (fun _ l => lo_expires l <=? Unix now) (ct_logins c) |>
      <| ct_devices := without (fun _ d => de_expires d <=? Unix now) (ct_devices c) |>
      <| ct_reservations := without (fun _ r => rv_created r <? Unix (Add now (- Hour))) (ct_reservations c) |>
      <| ct_usage := without (fun k _ => match str_compare (snd k) (three_months_before now) with Lt => true | _ => false end) (ct_usage c) |>).
