(* ===== verification/ControlRun.v ===== *)
(** * Transactions of the control database, and its operations as steps

    Inversion of the combinators, and relations between the tables before and
    after that every successful transaction built from them respects. *)

From S2P Require Import Prelude GoText Access Passwords Control ControlAccounts ControlSessions ControlServices ControlUsage.

(** ** Inversion *)

Section Inversion.
Context {A B : Type}.

Lemma ctl_bind_inv (m : ctl A) (f : A → ctl B) c r : (m ≫= f) c = Ok r → ∃ a c1, m c = Ok (a, c1) ∧ f a c1 = Ok r.
Proof. unfold mbind, ctl_bind. destruct (m c) as [[a c1]|] eqn:E; [|done]. eauto. Qed.
Lemma ctl_ret_inv (a b : A) c c' : @mret ctl ctl_ret A a c = Ok (b, c') → b = a ∧ c' = c.
Proof. by intros [= <- <-]. Qed.
Lemma get_inv (f : control → A) c a c' : get f c = Ok (a, c') → a = f c ∧ c' = c.
Proof. by intros [= <- <-]. Qed.
Lemma row_inv e (f : control → option A) c a c' : query_row e f c = Ok (a, c') → f c = Some a ∧ c' = c.
Proof. unfold query_row. destruct (f c); [|done]. by intros [= <- <-]. Qed.
Lemma liftr_inv (r : result A) c a c' : liftr r c = Ok (a, c') → r = Ok a ∧ c' = c.
Proof. unfold liftr. destruct r; [|done]. by intros [= <- <-]. Qed.
Lemma exec_inv (f : control → control) c (a : unit) c' : exec f c = Ok (a, c') → c' = f c.
Proof. by intros [= _ <-]. Qed.
Lemma refuse_inv b e c (a : unit) c' : refuse b e c = Ok (a, c') → b = false ∧ c' = c.
Proof. unfold refuse. destruct b; [done|]. by intros [= _ <-]. Qed.
Lemma throw_inv e c (r : A * control) : throw e c = Ok r → False.
Proof. done. Qed.
End Inversion.

(** Split a successful transaction into its statements. *)
Ltac ctl_step H :=
  lazymatch type of H with
  | (_ ≫= _) _ = Ok _ =>
      let a := fresh "a" in let c := fresh "c" in let Hm := fresh "Hm" in
      apply ctl_bind_inv in H as (a & c & Hm & H); ctl_step Hm; try ctl_step H
  | mret _ _ = Ok (_, _) => apply ctl_ret_inv in H as [? ?]; subst
  | get _ _ = Ok (_, _) => apply get_inv in H as [? ?]; subst
  | query_row _ _ _ = Ok (_, _) => apply row_inv in H as [H ?]; subst
  | liftr _ _ = Ok (_, _) => apply liftr_inv in H as [H ?]; subst
  | exec _ _ = Ok (_, _) => apply exec_inv in H; subst
  | refuse _ _ _ = Ok (_, _) => apply refuse_inv in H as [H ?]; subst
  | throw _ _ = Ok _ => destruct (throw_inv _ _ _ H)
  | _ => idtac
  end.

Lemma commit_cases {A : Type} (t : ctl A) c : (∃ a c', t c = Ok (a, c') ∧ commit t c = (c', Ok a)) ∨ (∃ e, t c = Err e ∧ commit t c = (c, Err e)).
Proof. unfold commit. destruct (t c) as [[a c']|e]; [left; eauto|right; eauto]. Qed.

(** ** Relations every statement respects *)

Definition respecting {A : Type} (R : relation control) (t : ctl A) : Prop := ∀ c a c', t c = Ok (a, c') → R c c'.

Section Respecting.
Context (R : relation control) `{!PreOrder R}.

Lemma respecting_ret {A : Type} (a : A) : respecting R (mret a).
Proof. intros c b c' [_ ->]%ctl_ret_inv. reflexivity. Qed.
Lemma respecting_bind {A B : Type} (m : ctl A) (f : A → ctl B) : respecting R m → (∀ a, respecting R (f a)) → respecting R (m ≫= f).
Proof. intros Hm Hf c b c' (a & c1 & H1 & H2)%ctl_bind_inv. etrans; [by eapply Hm|by eapply Hf]. Qed.
Lemma respecting_get {A : Type} (f : control → A) : respecting R (get f).
Proof. intros c b c' [_ ->]%get_inv. reflexivity. Qed.
Lemma respecting_row {A : Type} e (f : control → option A) : respecting R (query_row e f).
Proof. intros c b c' [_ ->]%row_inv. reflexivity. Qed.
Lemma respecting_liftr {A : Type} (r : result A) : respecting R (liftr r).
Proof. intros c b c' [_ ->]%liftr_inv. reflexivity. Qed.
Lemma respecting_refuse b e : respecting R (refuse b e).
Proof. intros c u c' [_ ->]%refuse_inv. reflexivity. Qed.
Lemma respecting_throw {A : Type} e : respecting R (throw (A := A) e).
Proof. by intros c u c' H. Qed.
Lemma respecting_exec f : (∀ c, R c (f c)) → respecting R (exec f).
Proof. intros H c u c' ->%exec_inv. apply H. Qed.
Lemma respecting_commit {A : Type} (t : ctl A) c : respecting R t → R c (fst (commit t c)).
Proof. intros H. destruct (commit_cases t c) as [(a & c' & E & ->)|(e & E & ->)]; [by eapply H|reflexivity]. Qed.
End Respecting.

(** [agrees f]: the tables [f] are unchanged; [shrinks f]: rows are only
    deleted from the table [f]. *)
Definition agrees {X : Type} (f : control → X) : relation control := fun c c' => f c' = f c.
Definition shrinks `{Countable K} {X : Type} (f : control → gmap K X) : relation control := fun c c' => f c' ⊆ f c.

#[export] Instance agrees_preorder {X : Type} (f : control → X) : PreOrder (agrees f).
Proof. unfold agrees. split; [done|intros a b c; congruence]. Qed.
#[export] Instance shrinks_preorder `{Countable K} {X : Type} (f : control → gmap K X) : PreOrder (shrinks f).
Proof. unfold shrinks. split; [intros c; reflexivity|]. intros a b c H1 H2. by etrans. Qed.

Lemma without_subseteq `{Countable K} {X : Type} (p : K → X → bool) (m : gmap K X) : without p m ⊆ m.
Proof. apply map_filter_subseteq. Qed.
Lemma without_lookup `{Countable K} {X : Type} (p : K → X → bool) (m : gmap K X) k x :
  without p m !! k = Some x ↔ m !! k = Some x ∧ p k x = false.
Proof. unfold without. by rewrite map_lookup_filter_Some. Qed.
Lemma where_lookup `{Countable K} {X : Type} (p : K → X → bool) (m : gmap K X) k x :
  where_ p m !! k = Some x ↔ m !! k = Some x ∧ p k x = true.
Proof. unfold where_. by rewrite map_lookup_filter_Some. Qed.

Lemma count_zero `{Countable K} {X : Type} (p : K → X → bool) (m : gmap K X) :
  count p m = 0 ↔ ∀ k x, m !! k = Some x → p k x = false.
Proof.
  unfold count. split.
  - intros Hz k x Hk. destruct (p k x) eqn:E; [|done]. assert (size (where_ p m) = 0%nat) as Hs%map_size_empty_inv by lia.
    assert (where_ p m !! k = Some x) as Hw by (by apply where_lookup). rewrite Hs in Hw. by rewrite lookup_empty in Hw.
  - intros H1. assert (where_ p m = ∅) as ->; [|done]. apply map_empty. intros k. apply eq_None_not_Some. intros [x [H2 H3]%where_lookup].
    by rewrite (H1 k x H2) in H3.
Qed.
Lemma count_empty `{Countable K} {X : Type} (p : K → X → bool) : count p (∅ : gmap K X) = 0.
Proof. apply count_zero. by intros k x ?%lookup_empty_Some. Qed.
Lemma count_nonzero `{Countable K} {X : Type} (p : K → X → bool) (m : gmap K X) :
  count p m ≠ 0 ↔ ∃ k x, m !! k = Some x ∧ p k x = true.
Proof.
  split.
  - intros Hz. destruct (map_choose (where_ p m)) as (k & x & [H1 H2]%where_lookup); [|eauto].
    intros E. apply Hz. unfold count. by rewrite E.
  - intros (k & x & H1 & H2) Hz. rewrite count_zero in Hz. by rewrite (Hz k x H1) in H2.
Qed.
Lemma count_nonneg `{Countable K} {X : Type} (p : K → X → bool) (m : gmap K X) : 0 <= count p m.
Proof. unfold count. lia. Qed.

Lemma count_two `{Countable K} {X : Type} (p : K → X → bool) (m : gmap K X) k0 :
  2 <= count p m → ∃ k x, k ≠ k0 ∧ m !! k = Some x ∧ p k x = true.
Proof.
  unfold count. intros H2. destruct (map_choose (delete k0 (where_ p m))) as (k & x & [Hne [H3 H4]%where_lookup]%lookup_delete_Some).
  { intros E. pose proof (map_size_delete k0 (where_ p m)) as Hs. rewrite E, map_size_empty in Hs.
    destruct (where_ p m !! k0); [destruct (size (where_ p m)) as [|[|]]|]; cbn in *; lia. }
  eauto.
Qed.

(** Counting in a table whose counted rows were counted in another. *)
Lemma count_le `{Countable K} {X Y : Type} (p : K → X → bool) (q : K → Y → bool) (m : gmap K X) (m' : gmap K Y) :
  (∀ k x, m !! k = Some x → p k x = true → ∃ y, m' !! k = Some y ∧ q k y = true) → count p m <= count q m'.
Proof.
  intros Hsub. unfold count. apply inj_le. rewrite <- !(size_dom (D := gset K)). apply subseteq_size. intros k [x [H1 H2]%where_lookup]%elem_of_dom.
  destruct (Hsub k x H1 H2) as (y & H3 & H4). apply elem_of_dom. exists y. by apply where_lookup.
Qed.
Lemma count_one `{Countable K} {X : Type} (p : K → X → bool) (m : gmap K X) k0 :
  (∀ k x, m !! k = Some x → p k x = true → k = k0) → count p m <= 1.
Proof.
  intros Hk. unfold count. rewrite <- (size_dom (D := gset K)). change 1 with (Z.of_nat 1). apply inj_le. rewrite <- (size_singleton (C := gset K) k0).
  apply subseteq_size. intros k [x [H1 H2]%where_lookup]%elem_of_dom. apply elem_of_singleton. by eapply Hk.
Qed.
Lemma count_insert `{Countable K} {X : Type} (p : K → X → bool) (m : gmap K X) k x : count p (<[k := x]> m) <= count p m + (if p k x then 1 else 0).
Proof.
  destruct (p k x) eqn:Ep.
  - unfold count. rewrite <- !(size_dom (D := gset K)).
    assert (Hs : dom (where_ p (<[k := x]> m)) ⊆ ({[k]} ∪ dom (where_ p m) : gset K)).
    { intros k' [y [H1 H2]%where_lookup]%elem_of_dom. apply lookup_insert_Some in H1 as [[-> _]|[_ H1]]; [set_solver|].
      apply elem_of_union. right. apply elem_of_dom. exists y. by apply where_lookup. }
    apply subseteq_size in Hs. pose proof (size_union_alt ({[k]} : gset K) (dom (where_ p m))) as Hu. rewrite size_singleton in Hu.
    assert (size (dom (where_ p m) ∖ {[k]} : gset K) ≤ size (dom (where_ p m) : gset K))%nat by (apply subseteq_size; set_solver). lia.
  - rewrite Z.add_0_r. apply count_le. intros k' y H1 H2. exists y. split; [|done]. apply lookup_insert_Some in H1 as [[-> ->]|[_ H1]]; [congruence|done].
Qed.

Lemma count_delete `{Countable K} {X : Type} (p : K → X → bool) (m : gmap K X) k x :
  m !! k = Some x → p k x = true → count p (delete k m) = count p m - 1.
Proof.
  intros Hk Hp. unfold count. assert (Hd : where_ p (delete k m) = delete k (where_ p m)) by apply map_filter_delete.
  assert (Hw : where_ p m !! k = Some x) by (by apply where_lookup). rewrite Hd.
  pose proof (map_size_insert_None k x (delete k (where_ p m)) (lookup_delete_eq _ _)) as Hs. rewrite (insert_delete_id _ _ _ Hw) in Hs. lia.
Qed.

Create HintDb ctl.

(** A transaction respects [R] when its writes do. *)
Ltac respect :=
  repeat match goal with
  | |- respecting _ (mret _) => apply respecting_ret, _
  | |- respecting _ (_ ≫= _) => apply respecting_bind; [apply _| |intros ?]
  | |- respecting _ (get _) => apply respecting_get, _
  | |- respecting _ (query_row _ _) => apply respecting_row, _
  | |- respecting _ (liftr _) => apply respecting_liftr, _
  | |- respecting _ (refuse _ _) => apply respecting_refuse, _
  | |- respecting _ (throw _) => apply respecting_throw
  | |- respecting _ (match ?x with _ => _ end) => destruct x
  | |- respecting _ (let _ := _ in _) => cbv zeta
  | |- respecting (agrees _) (exec _) => apply respecting_exec; intros ?; reflexivity
  | |- respecting (shrinks _) (exec _) =>
      apply respecting_exec; intros ?;
      first [unfold shrinks; reflexivity | unfold shrinks; apply without_subseteq | unfold shrinks; apply delete_subseteq | unfold shrinks; apply map_empty_subseteq]
  | |- respecting _ _ => solve [auto with ctl nocore]
  | |- respecting ?R ?t =>
      lazymatch t with
      | exec _ => fail
      | _ => let t' := eval red in t in change (respecting R t')
      end
  end.

(** * Operations of the server's control database as steps

    Every operation of [internal/serverstate] that changes the database, with
    its arguments, the random values it drew and the clock.  A run is any
    sequence of them: the operations that read before they write carry the
    tables of their read, whatever they were. *)

Inductive cop :=
| c_Enroll (before : control) (issuer subject : string) (limit : Z) (uid wid : string) (now : time)
| c_ChangeMember (p : Principal) (user role : string) (now : time)
| c_DeleteUser (user : string) (now : time)
| c_Bootstrap (busy : bool) (salt username name password uid wid : string) (now : time)
| c_Activate (busy : bool) (salt token password : string) (now : time)
| c_RecoverPassword (busy : bool) (salt username password : string) (now : time)
| c_ChangePassword (busy : bool) (salt user old password : string) (now : time)
| c_Invite (p : Principal) (username name role uid token : string) (now : time)
| c_ResetInvitation (p : Principal) (user token : string) (now : time)
| c_DisableUser (p : Principal) (user : string) (disabled : bool) (now : time)
| c_InitializeDisplayName (user raw : string)
| c_UpdateDisplayName (user raw : string) (now : time)
| c_RenameWorkspace (p : Principal) (raw : string) (now : time)
| c_BeginWorkspaceDelete (id : string)
| c_FinishWorkspaceDelete (id : string)
| c_ConfigureDataKey (key : string)
| c_ConfigureHosting (hosting : string)
| c_ConfigureLoginMethods (methods : list string)
| c_ConfigureOIDCIssuer (issuer : string)
| c_InstanceID (fresh : string)
| c_EnableOIDC (user issuer subject : string) (now : time)
| c_EnableOIDCLogin (issuer : string) (now : time)
| c_LoginFailure (claimed : string) (now : time)
| c_NewSession (token csrf user workspace kind : string) (scopes : list string) (now : time)
| c_RevokeSession (token : string)
| c_RevokeUserSession (user hash : string)
| c_BeginDevice (challenge fresh : string) (now : time)
| c_ApproveDevice (before : control) (id user workspace : string) (scopes : list string) (now : time)
| c_ClaimDevice (token id verifier : string) (now : time)
| c_UnbindMCP (user workspace client : string)
| c_BeginLogin (nonce state : string) (login : Login) (now : time)
| c_ConsumeLogin (state : string) (now : time)
| c_BindMCP (before : control) (nonce user workspace client : string) (valid : result unit) (raw credential : string)
| c_QuarantineRestore
| c_CreateBoundService (p : Principal) (name : string) (scopes watches : list string) (days : Z) (lifetimes : gmap string string)
    (sid kid secret : string) (now : time)
| c_RevokeService (p : Principal) (id : string) (now : time)
| c_NoteServiceUse (s : Service) (now : time)
| c_RotateService (p : Principal) (id : string) (days overlapSeconds : Z) (kid secret : string) (now : time)
| c_RevokeServiceKey (p : Principal) (id key : string) (now : time)
| c_UpdateService (p : Principal) (id name : string) (scopes watches : list string) (lifetimes : gmap string string) (now : time)
| c_CreateWebhook (nonce wid : string) (p : Principal) (n : connection) (lifetime secret : string) (now : time)
| c_RotateWebhook (nonce : string) (p : Principal) (wid secret : string) (overlap : Z) (now : time)
| c_DeleteWebhook (p : Principal) (wid : string) (now : time)
| c_ReserveBudget (workspace : string) (delivery : bool) (now : time) (b : OutboundBudget) (fresh : string)
| c_Finish (r : Reservation) (used : Z)
| c_BeginProbe (workspace id digest : string) (now : time)
| c_FinishProbe (workspace id outcome : string)
| c_Put (nonce : string) (ctx : option Principal) (workspace name value : string) (now : time)
| c_Delete (ctx : option Principal) (workspace name : string) (now : time)
| c_SaveHandoffProof (workspace id raw : string)
| c_Collect (now : time).

Section Run.
Context (IDKey : string → string → string) (url_parse : string → option (string * string * bool * string * string))
  (Seal : string → string → string → string → string) (encode : Login → string).

Definition forget {A : Type} (t : ctl A) : ctl unit := _ ← t; mret tt.

(** The transaction of an operation; [ConsumeLogin] commits before it decrypts. *)
Definition transact (o : cop) : ctl unit :=
  match o with
  | c_Enroll before issuer subject limit uid wid now => forget (Enroll before issuer subject limit uid wid now)
  | c_ChangeMember p user role now => ChangeMember p user role now
  | c_DeleteUser user now => DeleteUser user now
  | c_Bootstrap busy salt username name password uid wid now => forget (Bootstrap IDKey busy salt username name password uid wid now)
  | c_Activate busy salt token password now => Activate IDKey busy salt token password now
  | c_RecoverPassword busy salt username password now => RecoverPassword IDKey busy salt username password now
  | c_ChangePassword busy salt user old password now => ChangePassword IDKey busy salt user old password now
  | c_Invite p username name role uid token now => forget (Invite p username name role uid token now)
  | c_ResetInvitation p user token now => forget (ResetInvitation p user token now)
  | c_DisableUser p user disabled now => DisableUser p user disabled now
  | c_InitializeDisplayName user raw => InitializeDisplayName user raw
  | c_UpdateDisplayName user raw now => UpdateDisplayName user raw now
  | c_RenameWorkspace p raw now => RenameWorkspace p raw now
  | c_BeginWorkspaceDelete id => BeginWorkspaceDelete id
  | c_FinishWorkspaceDelete id => FinishWorkspaceDelete id
  | c_ConfigureDataKey key => ConfigureDataKey key
  | c_ConfigureHosting hosting => ConfigureHosting hosting
  | c_ConfigureLoginMethods methods => ConfigureLoginMethods methods
  | c_ConfigureOIDCIssuer issuer => ConfigureOIDCIssuer issuer
  | c_InstanceID fresh => forget (InstanceID fresh)
  | c_EnableOIDC user issuer subject now => EnableOIDC url_parse user issuer subject now
  | c_EnableOIDCLogin issuer now => EnableOIDCLogin url_parse issuer now
  | c_LoginFailure claimed now => LoginFailure claimed now
  | c_NewSession token csrf user workspace kind scopes now => forget (NewSession token csrf user workspace kind scopes now)
  | c_RevokeSession token => RevokeSession token
  | c_RevokeUserSession user hash => RevokeUserSession user hash
  | c_BeginDevice challenge fresh now => forget (BeginDevice challenge fresh now)
  | c_ApproveDevice before id user workspace scopes now => ApproveDevice before id user workspace scopes now
  | c_ClaimDevice token id verifier now => forget (ClaimDevice token id verifier now)
  | c_UnbindMCP user workspace client => UnbindMCP user workspace client
  | c_BeginLogin nonce state login now => BeginLogin Seal nonce encode state login now
  | c_ConsumeLogin state now => forget (take_login state now)
  | c_BindMCP before nonce user workspace client valid raw credential => BindMCP Seal before nonce user workspace client valid raw credential
  | c_QuarantineRestore => QuarantineRestore
  | c_CreateBoundService p name scopes watches days lifetimes sid kid secret now =>
      forget (CreateBoundService p name scopes watches days lifetimes sid kid secret now)
  | c_RevokeService p id now => RevokeService p id now
  | c_NoteServiceUse s now => NoteServiceUse s now
  | c_RotateService p id days overlapSeconds kid secret now => forget (RotateService p id days overlapSeconds kid secret now)
  | c_RevokeServiceKey p id key now => RevokeServiceKey p id key now
  | c_UpdateService p id name scopes watches lifetimes now => forget (UpdateService p id name scopes watches lifetimes now)
  | c_CreateWebhook nonce wid p n lifetime secret now => forget (CreateWebhook Seal nonce wid p n lifetime secret now)
  | c_RotateWebhook nonce p wid secret overlap now => RotateWebhook Seal nonce p wid secret overlap now
  | c_DeleteWebhook p wid now => DeleteWebhook p wid now
  | c_ReserveBudget workspace delivery now b fresh => forget (ReserveBudget workspace delivery now b fresh)
  | c_Finish r used => FinishReservation r used
  | c_BeginProbe workspace id digest now => forget (BeginProbe workspace id digest now)
  | c_FinishProbe workspace id outcome => FinishProbe workspace id outcome
  | c_Put nonce ctx workspace name value now => Put Seal nonce ctx workspace name value now
  | c_Delete ctx workspace name now => Delete ctx workspace name now
  | c_SaveHandoffProof workspace id raw => SaveHandoffProof workspace id raw
  | c_Collect now => Collect now
  end.

Definition perform (o : cop) (c : control) : control := fst (commit (transact o) c).
Definition perform_all (os : list cop) (c : control) : control := fold_left (fun c o => perform o c) os c.
(** The operation's transaction commits. *)
Definition succeeds (o : cop) (c : control) : bool := is_ok (transact o c).
End Run.
