(* ===== verification/ControlFacts.v ===== *)
(** * Every workspace keeps an owner who can sign in

    The account tables through all operations: rows refer to existing rows, and
    whatever is invited, promoted, demoted, removed, disabled, deleted or
    recovered, a workspace has an enabled owner with a password or an identity. *)
From S2P Require Import Prelude GoText Access Passwords Control ControlAccounts ControlSessions ControlServices ControlUsage ControlRun.

(** The tables the invariant is about. *)
Definition accounts (c : control) := (ct_users c, ct_identities c, ct_workspaces c, ct_memberships c).

(** An enabled user with a password or an identity. *)
Definition signs (u : string) (c : control) : Prop :=
  ∃ r, ct_users c !! u = Some r ∧ us_disabled r = false ∧ (is_Some (us_password r) ∨ ∃ k, ct_identities c !! k = Some u).

Definition owned (w : string) (c : control) : Prop := ∃ u, ct_memberships c !! (u, w) = Some Owner ∧ signs u c.

Record sound_accounts (c : control) : Prop := {
  sa_members : ∀ u w r, ct_memberships c !! (u, w) = Some r → is_Some (ct_users c !! u) ∧ is_Some (ct_workspaces c !! w);
  sa_identities : ∀ k u, ct_identities c !! k = Some u → is_Some (ct_users c !! u);
  sa_owned : ∀ w, is_Some (ct_workspaces c !! w) → owned w c }.

Lemma is_Some_b_spec {A : Type} (o : option A) : is_Some_b o = true ↔ is_Some o.
Proof. destruct o; cbn; split; [eauto|done|done|by intros [? [=]]]. Qed.
Lemma is_Some_b_false {A : Type} (o : option A) : is_Some_b o = false ↔ o = None.
Proof. by destruct o. Qed.

Lemma can_sign_in_spec u c : can_sign_in u c = true ↔ signs u c.
Proof.
  unfold can_sign_in, signs, has_identity. destruct (ct_users c !! u) as [r|]; [|by split; [|intros (? & ? & _)]].
  rewrite andb_true_iff, orb_true_iff, !negb_true_iff, is_Some_b_spec, Z.eqb_neq, count_nonzero. split.
  - intros [Hd [Hp|(k & x & Hk & Hx)]]; exists r; split_and!; auto. right. bools. subst. eauto.
  - intros (r' & [= <-] & Hd & [Hp|[k Hk]]); (split; [done|]); auto. right. exists k, u. split; [done|]. by apply bool_decide_eq_true.
Qed.

Lemma signing_owner_spec w c u role : signing_owner w c u role = true ↔ snd u = w ∧ role = Owner ∧ signs (fst u) c.
Proof. unfold signing_owner. rewrite !andb_true_iff, !bool_decide_eq_true, can_sign_in_spec. tauto. Qed.

Lemma signs_agrees u c c' : agrees accounts c c' → signs u c → signs u c'.
Proof. intros [= Hu Hi Hw Hm]. unfold signs. by rewrite Hu, Hi. Qed.

Lemma sound_agrees c c' : agrees accounts c c' → sound_accounts c → sound_accounts c'.
Proof.
  intros Hag [Hm Hi Ho]. pose proof Hag as Hag'. injection Hag' as Hu Hid Hw Hmm. split.
  - intros u w r. rewrite Hmm, Hu, Hw. apply Hm.
  - intros k u. rewrite Hid, Hu. apply Hi.
  - intros w. rewrite Hw. intros [u [H1 H2]]%Ho. exists u. rewrite Hmm. split; [done|]. by apply (signs_agrees _ c).
Qed.

(** A change that takes no account and no way to sign in away, keeps the
    workspaces and the memberships. *)
Lemma sound_grows c c' :
  (∀ u, is_Some (ct_users c !! u) → is_Some (ct_users c' !! u)) → (∀ u, signs u c → signs u c') →
  (∀ w, is_Some (ct_workspaces c' !! w) ↔ is_Some (ct_workspaces c !! w)) → ct_memberships c' = ct_memberships c →
  (∀ k u, ct_identities c' !! k = Some u → is_Some (ct_users c' !! u)) → sound_accounts c → sound_accounts c'.
Proof.
  intros Hu Hs Hw Hmm Hid [Hm Hi Ho]. split; [|done|].
  - intros u w r. rewrite Hmm. intros [H1 H2]%Hm. split; [auto|]. by apply Hw.
  - intros w [u [H1 H2]]%Hw%Ho. exists u. rewrite Hmm. auto.
Qed.

(** ** Statements *)

Lemma update_user_lookup u f c v : ct_users (update_user u f c) !! v = (if decide (u = v) then f else Datatypes.id) <$> ct_users c !! v.
Proof.
  unfold update_user. cbn. destruct (decide (u = v)) as [->|Hne]; [by rewrite lookup_alter_eq|]. rewrite lookup_alter_ne by done. by destruct (ct_users c !! v).
Qed.

(** Changing a user without disabling it or removing its password. *)
Lemma sound_update_user u f c :
  (∀ r, ct_users c !! u = Some r → us_disabled r = false → us_disabled (f r) = false) →
  (∀ r, is_Some (us_password r) → is_Some (us_password (f r))) →
  sound_accounts c → sound_accounts (update_user u f c).
Proof.
  intros Hd Hp Hc. assert (Hex : ∀ v, is_Some (ct_users (update_user u f c) !! v) ↔ is_Some (ct_users c !! v)) by (intros v; by rewrite update_user_lookup, fmap_is_Some).
  apply (sound_grows c); [by intros v; rewrite Hex| |done|done| |done].
  - intros v (r & Hv & Hdis & H). exists ((if decide (u = v) then f else Datatypes.id) r). rewrite update_user_lookup, Hv. split; [done|].
    destruct (decide (u = v)) as [->|]; [|done]. split; [by eapply Hd|]. destruct H as [H|H]; [left; by apply Hp|right; exact H].
  - intros k v Hk. apply Hex. by apply (sa_identities _ Hc k).
Qed.

Lemma audit_agrees now actor w action target : respecting (agrees accounts) (audit now actor w action target).
Proof. respect. Qed.
Lemma revokeUser_agrees u : respecting (agrees accounts) (revokeUser u).
Proof. respect. Qed.
Lemma memberActor_agrees p : respecting (agrees Datatypes.id) (memberActor p).
Proof. unfold memberActor. respect. Qed.

(** What [memberActor] establishes. *)
Lemma memberActor_inv p c a c' :
  memberActor p c = Ok (a, c') → c' = c ∧ ∃ role, role_of (pn_User p) (pn_Workspace p) c = Some role ∧ a = with_role p role ∧ Allows a "members" = true.
Proof. unfold memberActor. intros H. ctl_step H. bools. split; [done|]. eauto. Qed.

Lemma role_of_spec u w c role :
  role_of u w c = Some role ↔ enabled u c = true ∧ available w c = true ∧ ct_memberships c !! (u, w) = Some role.
Proof. unfold role_of. destruct (enabled u c), (available w c); cbn; naive_solver. Qed.

(** ** Operations *)

(** [keeps_sound t]: a successful [t] keeps the accounts sound. *)
Definition sound_step : relation control := fun c c' => sound_accounts c → sound_accounts c'.
#[export] Instance sound_step_preorder : PreOrder sound_step.
Proof. unfold sound_step. split; [by intros c|intros a b c; auto]. Qed.
Notation keeps_sound := (respecting sound_step).

Lemma keeps_agrees {A : Type} (t : ctl A) : respecting (agrees accounts) t → keeps_sound t.
Proof. intros H c a c' E Hc. exact (sound_agrees c c' (H c a c' E) Hc). Qed.

(** A new user who owns a new workspace. *)
Lemma sound_new_owner c c' uid wid r v ids :
  accounts c' = (<[uid := r]> (ct_users c), ids, <[wid := v]> (ct_workspaces c), <[(uid, wid) := Owner]> (ct_memberships c)) →
  (∀ k u, ids !! k = Some u → is_Some (<[uid := r]> (ct_users c) !! u)) → ct_identities c ⊆ ids →
  ct_users c !! uid = None → us_disabled r = false → is_Some (us_password r) ∨ (∃ k, ids !! k = Some uid) →
  sound_accounts c → sound_accounts c'.
Proof.
  intros [= Hu Hi Hw Hm] Hids Hsub Hnew Hd Hp [Sm Si So].
  assert (Hlift : ∀ u, signs u c → signs u c').
  { intros u (ru & H1 & H2 & H3). exists ru. rewrite Hu, Hi. assert (u ≠ uid) by congruence. rewrite lookup_insert_ne by done. split_and!; [done..|].
    destruct H3 as [H3|[k Hk]]; [by left|right; exists k]. by eapply lookup_weaken. }
  split.
  - intros u w role. rewrite Hm, Hu, Hw. intros [[[= <- <-] _]|[_ [H1 H2]%Sm]]%lookup_insert_Some; rewrite !lookup_insert_is_Some'; auto.
  - intros k u. rewrite Hi, Hu. apply Hids.
  - intros w. rewrite Hw. intros [->|[H1 H2]]%lookup_insert_is_Some.
    + exists uid. rewrite Hm, lookup_insert_eq. split; [done|]. exists r. by rewrite Hu, Hi, lookup_insert_eq.
    + destruct (So w H2) as (u & Hu1 & Hu2). exists u. split; [|by apply Hlift]. rewrite Hm, lookup_insert_ne; [done|]. congruence.
Qed.

Lemma Enroll_keeps before issuer subject limit uid wid now : keeps_sound (Enroll before issuer subject limit uid wid now).
Proof.
  intros c a c' H Hc. unfold Enroll in H. ctl_step H. destruct (IdentityWorkspace issuer subject before); ctl_step H; [done|].
  unfold insert_user, insert_identity, insert_workspace, insert_membership, upsert_membership in *. repeat match goal with H : _ = Ok _ |- _ => progress ctl_step H end. bools.
  repeat match goal with H : is_Some_b _ = false |- _ => apply is_Some_b_false in H end. cbn in *.
  eapply (sound_new_owner c _ uid wid); [reflexivity| | | | | |done]; cbn; [|by apply insert_subseteq|done|done|right; exists (issuer, subject); by rewrite lookup_insert_eq].
  intros k u [[_ <-]|[_ Hk]]%lookup_insert_Some; [rewrite lookup_insert_eq; eauto|]. apply lookup_insert_is_Some'. right. by eapply sa_identities.
Qed.

Ltac ctl_all := repeat match goal with H : _ = Ok _ |- _ => progress ctl_step H end; bools;
  repeat match goal with
  | H : is_Some_b _ = false |- _ => apply is_Some_b_false in H
  | H : is_Some_b _ = true |- _ => apply is_Some_b_spec in H
  end.

Section Argon_facts.
Context (IDKey : string → string → string).

Lemma Bootstrap_keeps busy salt username name password uid wid now : keeps_sound (Bootstrap IDKey busy salt username name password uid wid now).
Proof.
  intros c a c' H Hc. unfold Bootstrap, insert_user, insert_workspace, insert_membership, upsert_membership in H. ctl_step H. ctl_all. cbn in *.
  match goal with H : audit _ _ _ _ _ _ = Ok _ |- _ => apply audit_agrees in H; cbn in H; eapply (sound_new_owner c _ uid wid); [exact H|..] end; cbn; [|done|done|done|left; eauto|done].
  intros k u Hk. apply lookup_insert_is_Some'. right. by eapply sa_identities.
Qed.

Lemma set_password_keeps u h : keeps_sound (exec (update_user u (fun r => r <| us_password := Some h |>))).
Proof. apply respecting_exec. intros c Hc. apply sound_update_user; cbn; eauto. Qed.

Lemma Activate_keeps busy salt token password now : keeps_sound (Activate IDKey busy salt token password now).
Proof.
  unfold Activate. repeat first [apply set_password_keeps | apply keeps_agrees; solve [respect] | respect].
Qed.
Lemma RecoverPassword_keeps busy salt username password now : keeps_sound (RecoverPassword IDKey busy salt username password now).
Proof.
  unfold RecoverPassword. repeat first [apply keeps_agrees; solve [respect] | respect].
  apply respecting_exec. intros c Hc. apply sound_update_user; cbn; eauto.
Qed.
Lemma ChangePassword_keeps busy salt user old password now : keeps_sound (ChangePassword IDKey busy salt user old password now).
Proof. unfold ChangePassword. repeat first [apply set_password_keeps | apply keeps_agrees; solve [respect] | respect]. Qed.
End Argon_facts.

(** Another membership, of an existing user or a new one. *)
Lemma sound_add_member c c' us u w role :
  accounts c' = (us, ct_identities c, ct_workspaces c, <[(u, w) := role]> (ct_memberships c)) →
  ct_users c ⊆ us → is_Some (us !! u) → is_Some (ct_workspaces c !! w) →
  (ct_memberships c !! (u, w) = Some Owner → role ≠ Owner → ∃ u', u' ≠ u ∧ ct_memberships c !! (u', w) = Some Owner ∧ signs u' c) →
  sound_accounts c → sound_accounts c'.
Proof.
  intros [= Hu Hi Hw Hm] Hsub Hex Hwex Hother [Sm Si So].
  assert (Hlift : ∀ v, signs v c → signs v c') by (intros v (r & H1 & H2 & H3); exists r; rewrite Hu, Hi; split_and!; [by eapply lookup_weaken|done..]).
  assert (Hin : ∀ v, is_Some (ct_users c !! v) → is_Some (us !! v)) by (intros v [r Hv]; exists r; by eapply lookup_weaken).
  split.
  - intros v w' r. rewrite Hm, Hu, Hw. intros [[[= <- <-] _]|[_ [H1 H2]%Sm]]%lookup_insert_Some; auto.
  - intros k v. rewrite Hi, Hu. eauto.
  - intros w'. rewrite Hw. intros (v & Hv1 & Hv2)%So. destruct (decide ((u, w) = (v, w'))) as [[= <- <-]|Hne].
    + destruct (decide (role = Owner)) as [->|Hr]; [exists u; rewrite Hm, lookup_insert_eq; auto|].
      destruct (Hother Hv1 Hr) as (u' & Hn & H1 & H2). exists u'. rewrite Hm, lookup_insert_ne by congruence. auto.
    + exists v. rewrite Hm, lookup_insert_ne by done. auto.
Qed.

Lemma Invite_keeps p username name role uid token now : keeps_sound (Invite p username name role uid token now).
Proof.
  intros c a c' H Hc. unfold Invite, insert_user, insert_membership, upsert_membership, issue_activation in H. ctl_step H.
  match goal with H : memberActor _ _ = Ok _ |- _ => apply memberActor_inv in H as (-> & role' & Hrole & -> & Hal) end. ctl_all. cbn in *.
  match goal with H : audit _ _ _ _ _ _ = Ok _ |- _ => apply audit_agrees in H; unfold agrees in H; cbn in H;
    eapply (sound_add_member c _ _ uid (pn_Workspace p) role); [exact H|..] end; cbn; [by apply insert_subseteq|rewrite lookup_insert_eq; eauto|done| |done].
  intros Hold _. destruct (sa_members _ Hc _ _ _ Hold) as [[r Hr] _]. congruence.
Qed.

(** Two owners who can sign in: one is left when [u] is not counted. *)
Lemma two_owners w c u : 2 <= signing_owners w c → ∃ u', u' ≠ u ∧ ct_memberships c !! (u', w) = Some Owner ∧ signs u' c.
Proof.
  intros ([u' w'] & role & Hne & Hk & (Hw & -> & Hs)%signing_owner_spec)%(count_two _ _ (u, w)). cbn in *. subst w'.
  exists u'. split; [congruence|done].
Qed.

Lemma ChangeMember_keeps p user role now : keeps_sound (ChangeMember p user role now).
Proof.
  intros c a c' H Hc. unfold ChangeMember in H. apply ctl_bind_inv in H as ([] & ? & [Hv ->]%refuse_inv & H).
  apply ctl_bind_inv in H as (actor & ? & (-> & arole & Hrole & -> & Hal)%memberActor_inv & H). cbn in H.
  apply role_of_spec in Hrole as (_ & Hav & _). assert (Hwex : is_Some (ct_workspaces c !! pn_Workspace p)) by (unfold available in Hav; destruct (ct_workspaces c !! _); [eauto|done]).
  apply ctl_bind_inv in H as (old & ? & [-> ->]%get_inv & H). apply ctl_bind_inv in H as ([] & ? & [_ ->]%refuse_inv & H).
  apply ctl_bind_inv in H as (owners & ? & [-> ->]%get_inv & H). apply ctl_bind_inv in H as ([] & ? & [Hlast ->]%refuse_inv & H).
  assert (Hother : ct_memberships c !! (user, pn_Workspace p) = Some Owner → role ≠ Owner →
    ∃ u', u' ≠ user ∧ ct_memberships c !! (u', pn_Workspace p) = Some Owner ∧ signs u' c).
  { intros Ho Hr. rewrite Ho in Hlast. apply two_owners. apply andb_false_iff in Hlast as [Hl|Hl]; [|bools; lia].
    apply andb_false_iff in Hl as [Hl|Hl]; bools; [by destruct Hl|done]. }
  apply ctl_bind_inv in H as ([] & c1 & Hset & Hau). apply audit_agrees in Hau. apply (sound_agrees c1); [done|]. clear Hau c'.
  case_bool_decide as Er.
  - subst role. ctl_step Hset. eapply (sound_agrees (c <| ct_memberships := delete (user, pn_Workspace p) (ct_memberships c) |>)); [done|].
    destruct Hc as [Sm Si So]. split; cbn; [|done|].
    + intros u w r [_ H]%lookup_delete_Some. eauto.
    + intros w (u & H1 & H2)%So. destruct (decide ((user, pn_Workspace p) = (u, w))) as [[= <- <-]|Hne].
      * destruct (Hother H1) as (u' & Hn & H3 & H4); [done|]. exists u'. cbn. rewrite lookup_delete_ne by congruence. done.
      * exists u. cbn. by rewrite lookup_delete_ne.
  - unfold upsert_membership in Hset. ctl_step Hset. ctl_all. eapply (sound_add_member c _ _ user (pn_Workspace p) role); [reflexivity|done|done|done|done|done].
Qed.

Lemma DeleteUser_keeps user now : keeps_sound (DeleteUser user now).
Proof.
  intros c a c' H Hc. unfold DeleteUser in H. ctl_step H. apply audit_agrees in H. apply (sound_agrees (drop_user user c)); [done|]. bools. clear H c'.
  match goal with H : sole_owned _ _ = 0 |- _ => rename H into Hsole end. unfold sole_owned in Hsole. rewrite count_zero in Hsole.
  destruct Hc as [Sm Si So].
  assert (Hlift : ∀ u, u ≠ user → signs u c → signs u (drop_user user c)).
  { intros u Hne (r & H1 & H2 & H3). exists r. cbn. rewrite lookup_delete_ne by done. split_and!; [done..|]. destruct H3 as [H3|[k Hk]]; [by left|right].
    exists k. apply without_lookup. split; [done|]. by apply bool_decide_eq_false. }
  split; cbn.
  - intros u w r [H1 H2]%without_lookup. cbn in H2. bools. rewrite lookup_delete_ne by done. by apply Sm with r.
  - intros k u [H1 H2]%without_lookup. bools. rewrite lookup_delete_ne by done. by apply Si with k.
  - intros w (u & H1 & H2)%So. destruct (decide (u = user)) as [->|Hne].
    + specialize (Hsole _ _ H1). cbn in Hsole. rewrite !bool_decide_eq_true_2 in Hsole by done. cbn in Hsole.
      apply Z.eqb_neq, count_nonzero in Hsole as ([u' w'] & role & H3 & H4). apply andb_true_iff in H4 as [H4 (E & -> & H5)%signing_owner_spec]. cbn in *. subst w'. bools.
      exists u'. split; [|by apply Hlift]. apply without_lookup. split; [done|]. by apply bool_decide_eq_false.
    + exists u. split; [|by apply Hlift]. apply without_lookup. split; [done|]. by apply bool_decide_eq_false.
Qed.

(** A user with one membership, disabled while another owner is left. *)
Lemma sound_disable c user w role :
  ct_memberships c !! (user, w) = Some role → memberships_count user c = 1 →
  (role = Owner → ∃ u', u' ≠ user ∧ ct_memberships c !! (u', w) = Some Owner ∧ signs u' c) →
  sound_accounts c → sound_accounts (update_user user (fun u => u <| us_disabled := true |>) c).
Proof.
  intros Hm Hone Hother [Sm Si So]. set (c' := update_user _ _ _).
  assert (Hex : ∀ v, is_Some (ct_users c' !! v) ↔ is_Some (ct_users c !! v)) by (intros v; unfold c'; by rewrite update_user_lookup, fmap_is_Some).
  assert (Hlift : ∀ u, u ≠ user → signs u c → signs u c').
  { intros u Hne (r & H1 & H2 & H3). exists r. unfold c'. rewrite update_user_lookup, decide_False, H1 by done. done. }
  split.
  - intros u w' r H. rewrite Hex. apply (Sm u w' r H).
  - intros k u H. rewrite Hex. apply (Si k u H).
  - intros w' (u & H1 & H2)%So. destruct (decide (u = user)) as [->|Hne]; [|exists u; auto].
    assert (w' = w) as ->.
    { destruct (decide (w' = w)) as [|Hw]; [done|]. exfalso. assert (2 <= memberships_count user c); [|lia].
      unfold memberships_count, count. set (m := where_ _ _). assert (Ha : m !! (user, w) = Some role) by (apply where_lookup; split; [done|by apply bool_decide_eq_true]).
      assert (Hb : m !! (user, w') = Some Owner) by (apply where_lookup; split; [done|by apply bool_decide_eq_true]).
      assert (Hc : delete (user, w) m !! (user, w') = Some Owner) by (rewrite lookup_delete_ne; [done|congruence]).
      rewrite <- (insert_delete_id _ _ _ Ha), map_size_insert_None by apply lookup_delete_eq.
      rewrite <- (insert_delete_id _ _ _ Hc), map_size_insert_None by apply lookup_delete_eq. lia. }
    destruct Hother as (u' & Hn & H3 & H4); [congruence|]. exists u'. auto.
Qed.

Lemma DisableUser_keeps p user disabled now : keeps_sound (DisableUser p user disabled now).
Proof.
  intros c a c' H Hc. unfold DisableUser in H. apply ctl_bind_inv in H as (actor & ? & (-> & arole & _ & -> & _)%memberActor_inv & H). cbn in H.
  apply ctl_bind_inv in H as (role & ? & [Hrole ->]%row_inv & H). apply ctl_bind_inv in H as (n & ? & [-> ->]%get_inv & H).
  apply ctl_bind_inv in H as ([] & ? & [[Hn _]%orb_false_iff ->]%refuse_inv & H). apply ctl_bind_inv in H as (others & ? & [-> ->]%get_inv & H).
  apply ctl_bind_inv in H as ([] & ? & [Hlast ->]%refuse_inv & H). apply ctl_bind_inv in H as ([] & c1 & Hset%exec_inv & H). bools.
  assert (Hag : respecting (agrees accounts) ((if disabled then revokeUser user else mret tt) ;; audit now (pn_User (with_role p arole)) (pn_Workspace p) "user:disabled" user))
    by respect.
  apply Hag in H. apply (sound_agrees c1); [done|]. subst c1. destruct disabled; [|by apply sound_update_user].
  eapply sound_disable; [done|done| |done]. intros ->. rewrite !bool_decide_eq_true_2 in Hlast by done. cbn in Hlast.
  apply Z.eqb_neq, count_nonzero in Hlast as ([u' w'] & r & H3 & H4). apply andb_true_iff in H4 as [H4 (E & -> & H5)%signing_owner_spec]. cbn in *. bools. subst w'. eauto.
Qed.

Lemma InitializeDisplayName_keeps user raw : keeps_sound (InitializeDisplayName user raw).
Proof.
  unfold InitializeDisplayName. respect. apply respecting_exec. intros c Hc. apply sound_update_user; [..|done]; intros r; destruct (_ && _); cbn; auto.
Qed.
Lemma UpdateDisplayName_keeps user raw now : keeps_sound (UpdateDisplayName user raw now).
Proof.
  unfold UpdateDisplayName. repeat first [apply keeps_agrees; solve [respect] | respect]. apply respecting_exec. intros c Hc. by apply sound_update_user.
Qed.

(** Changing the row of a workspace. *)
Lemma sound_alter_workspace f w c : sound_accounts c → sound_accounts (c <| ct_workspaces := alter f w (ct_workspaces c) |>).
Proof. intros Hc. apply (sound_grows c); cbn; [done|done| |done|apply (sa_identities _ Hc)|done]. intros w'. apply lookup_alter_is_Some. Qed.

Lemma RenameWorkspace_keeps p raw now : keeps_sound (RenameWorkspace p raw now).
Proof.
  unfold RenameWorkspace. repeat first [apply keeps_agrees; solve [respect] | respect]. apply respecting_exec. intros c Hc. by apply sound_alter_workspace.
Qed.
Lemma BeginWorkspaceDelete_keeps id : keeps_sound (BeginWorkspaceDelete id).
Proof. unfold BeginWorkspaceDelete. respect. apply respecting_exec. intros c Hc. by apply sound_alter_workspace. Qed.

Lemma FinishWorkspaceDelete_keeps id : keeps_sound (FinishWorkspaceDelete id).
Proof.
  apply respecting_exec. intros c Hc. destruct (ct_workspaces c !! id) as [r|]; [|done]. destruct (ws_deleting r); [|done]. destruct Hc as [Sm Si So]. split; cbn.
  - intros u w role [H1 H2]%without_lookup. cbn in H2. bools. rewrite lookup_delete_ne by done. by apply Sm with role.
  - done.
  - intros w [Hne H]%lookup_delete_is_Some. destruct (So w H) as (u & H1 & H2). exists u. split; [|done]. apply without_lookup. split; [done|].
    by apply bool_decide_eq_false.
Qed.

Lemma insert_identity_keeps issuer subject user : keeps_sound (insert_identity issuer subject user).
Proof.
  intros c a c' H Hc. unfold insert_identity in H. ctl_step H. ctl_all. apply (sound_grows c); cbn; [done| |done|done| |done].
  - intros u (r & H1 & H2 & H3). exists r. split_and!; [done..|]. destruct H3 as [H3|[k Hk]]; [by left|right]. exists k. cbn. rewrite lookup_insert_ne; [done|]. intros <-. cbn in *. congruence.
  - intros k u [[_ <-]|[_ Hk]]%lookup_insert_Some; [done|]. by eapply sa_identities.
Qed.
Lemma pin_agrees key value : respecting (agrees accounts) (exec (pin key value)).
Proof. apply respecting_exec. intros c. unfold pin. by destruct (ct_settings c !! key). Qed.
#[export] Hint Resolve pin_agrees : ctl.
Lemma pinned_agrees key value differs : respecting (agrees accounts) (pin_checked key value differs).
Proof. unfold pin_checked. respect. Qed.
Lemma enableOIDCProvider_agrees issuer : respecting (agrees accounts) (enableOIDCProvider issuer).
Proof. unfold enableOIDCProvider. respect. Qed.
#[export] Hint Resolve pinned_agrees enableOIDCProvider_agrees : ctl.
Lemma enableOIDCProvider_keeps issuer : keeps_sound (enableOIDCProvider issuer).
Proof. apply keeps_agrees. respect. Qed.
#[export] Hint Resolve enableOIDCProvider_keeps insert_identity_keeps : ctl.
Lemma EnableOIDC_keeps parse user issuer subject now : keeps_sound (EnableOIDC parse user issuer subject now).
Proof.
  unfold EnableOIDC. repeat first [apply keeps_agrees; solve [respect] | respect].
Qed.

(** ** All operations *)

(** Writes that are conditional on a row. *)
Ltac exec_cases :=
  apply respecting_exec; intros ?; unfold pin, agrees, shrinks; repeat case_match;
  first [reflexivity | apply without_subseteq | apply delete_subseteq].

Section Steps.
Context (IDKey : string → string → string) (url_parse : string → option (string * string * bool * string * string))
  (Seal : string → string → string → string → string) (encode : Login → string).
Notation transact := (transact IDKey url_parse Seal encode).

Lemma forget_respecting {A : Type} R `{!PreOrder R} (t : ctl A) : respecting R t → respecting R (forget t).
Proof. intros H. unfold forget. apply respecting_bind; [done|done|]. intros a. by apply respecting_ret. Qed.

Lemma transact_keeps o : keeps_sound (transact o).
Proof.
  destruct o; cbn [ControlRun.transact].
  all: try (apply forget_respecting; [apply _|]).
  all: first [apply Enroll_keeps | apply ChangeMember_keeps | apply DeleteUser_keeps | apply Bootstrap_keeps | apply Activate_keeps
    | apply RecoverPassword_keeps | apply ChangePassword_keeps | apply Invite_keeps | apply DisableUser_keeps | apply InitializeDisplayName_keeps
    | apply UpdateDisplayName_keeps | apply RenameWorkspace_keeps | apply BeginWorkspaceDelete_keeps | apply FinishWorkspaceDelete_keeps
    | apply EnableOIDC_keeps | apply keeps_agrees].
  all: respect.
Qed.

Lemma perform_sound o c : sound_accounts c → sound_accounts (perform IDKey url_parse Seal encode o c).
Proof. apply (respecting_commit sound_step _ c (transact_keeps o)). Qed.

Lemma perform_all_sound os c : sound_accounts c → sound_accounts (perform_all IDKey url_parse Seal encode os c).
Proof. revert c. induction os as [|o os IH]; intros c Hc; cbn; [done|]. by apply IH, perform_sound. Qed.

Lemma empty_sound : sound_accounts empty_control.
Proof. split; cbn; [by intros u w r ?%lookup_empty_Some|by intros k u ?%lookup_empty_Some|by intros w [? ?%lookup_empty_Some]]. Qed.

(** C7: A workspace always has an owner who can sign in: in every database
    reached by any sequence of operations from the empty one, whatever succeeds
    or fails, each workspace has a member with the role owner who is not disabled
    and has a password or an external identity; and members and identities
    refer to existing users and workspaces. *)
Theorem workspace_keeps_owner os c w :
  c = perform_all IDKey url_parse Seal encode os empty_control → is_Some (ct_workspaces c !! w) →
  (∃ u, ct_memberships c !! (u, w) = Some Owner ∧ can_sign_in u c = true) ∧
  (∀ u role, ct_memberships c !! (u, w) = Some role → is_Some (ct_users c !! u)) ∧
  (∀ k u, ct_identities c !! k = Some u → is_Some (ct_users c !! u)).
Proof.
  intros -> Hw. destruct (perform_all_sound os empty_control empty_sound) as [Sm Si So].
  split_and!; [|by intros u role [H _]%Sm|done]. destruct (So w Hw) as (u & H1 & H2%can_sign_in_spec). eauto.
Qed.
End Steps.
