(* ===== verification/ControlAuth.v ===== *)
(** * What a session token stands for

    A token is accepted only if a sign-in or an approved device claim issued it
    in the run, to an enabled member, and nothing that ends the session happened
    since: sign-out, a new password, recovery, disabling, deleting or removing
    the user, a restored backup.  A device session goes back to the approval of
    a request whose verifier the claimer presented. *)
From S2P Require Import Prelude GoText Access Passwords Control ControlAccounts ControlSessions ControlServices ControlUsage ControlRun ControlFacts.
#[local] Open Scope list_scope.
#[local] Open Scope Z_scope.

Definition browser (user workspace role : string) : Principal := mkPrincipal user workspace role "browser" false [].

(** The operation, succeeding on [c], issues the session [r] under hash [h]. *)
Definition issues (o : cop) (c : control) (h : string) (r : session_row) : Prop :=
  match o with
  | c_NewSession token csrf user workspace kind scopes now =>
      h = TokenHash token ∧ r = mkSession user workspace (stored scopes) (TokenHash csrf) kind (Unix (Add now week)) ∧
      is_Some (role_of user workspace c)
  | c_ClaimDevice token id verifier now =>
      h = TokenHash token ∧ ∃ d role, ct_devices c !! id = Some d ∧ Unix now < de_expires d ∧ de_challenge d = TokenHash verifier ∧
        r = mkSession (default "" (de_user d)) (default "" (de_workspace d)) (default [] (de_scopes d)) "" "device" (Unix (Add now week)) ∧
        role_of (se_user r) (se_workspace r) c = Some role ∧
        ∀ scope, scope ∈ se_scopes r → Allows (browser (se_user r) (se_workspace r) role) scope = true
  | _ => False
  end.

(** The operation, succeeding on [c], ends the session [r] under hash [h]. *)
Definition revokes (o : cop) (c : control) (h : string) (r : session_row) : Prop :=
  match o with
  | c_RevokeSession token => h = TokenHash token
  | c_RevokeUserSession user hash => user = se_user r ∧ h = hash
  | c_ChangePassword _ _ user _ _ _ => user = se_user r
  | c_Activate _ _ token _ _ => ∃ a, ct_activations c !! TokenHash token = Some a ∧ ac_user a = se_user r
  | c_RecoverPassword _ _ username _ _ => ∃ n, Username username = Ok n ∧ find_username n c = Some (se_user r)
  | c_DisableUser _ user true _ => user = se_user r
  | c_DeleteUser user _ => user = se_user r
  | c_ChangeMember p user role _ => role = "" ∧ user = se_user r ∧ pn_Workspace p = se_workspace r ∧ se_kind r ≠ "browser"
  | c_QuarantineRestore => True
  | _ => False
  end.

Section Auth.
Context (IDKey : string → string → string) (url_parse : string → option (string * string * bool * string * string))
  (Seal : string → string → string → string → string) (encode : Login → string).
Notation transact := (transact IDKey url_parse Seal encode).
Notation perform := (perform IDKey url_parse Seal encode).
Notation perform_all := (perform_all IDKey url_parse Seal encode).
Notation succeeds := (succeeds IDKey url_parse Seal encode).

Lemma perform_cases o c : (∃ c', transact o c = Ok (tt, c') ∧ perform o c = c' ∧ succeeds o c = true) ∨ (perform o c = c ∧ succeeds o c = false).
Proof.
  unfold ControlRun.perform, ControlRun.succeeds. destruct (commit_cases (transact o) c) as [([] & c' & E & ->)|(e & E & ->)]; rewrite E; [left; eauto|by right].
Qed.

Lemma perform_all_snoc os o c : perform_all (os ++ [o]) c = perform o (perform_all os c).
Proof. unfold ControlRun.perform_all. by rewrite fold_left_app. Qed.

Lemma forget_inv {A : Type} (t : ctl A) c u c' : forget t c = Ok (u, c') → ∃ a, t c = Ok (a, c').
Proof. unfold forget. intros H. ctl_step H. eauto. Qed.

(** ** Sessions *)

Definition issuing (o : cop) : bool := match o with c_NewSession _ _ _ _ _ _ _ | c_ClaimDevice _ _ _ _ => true | _ => false end.

Lemma sessions_shrink o : issuing o = false → respecting (shrinks ct_sessions) (transact o).
Proof.
  intros Ho. destruct o; try discriminate Ho; cbn [ControlRun.transact]; try (apply forget_respecting; [apply _|]).
  all: respect.
  all: exec_cases.
Qed.

(** No session of the user is left. *)
Lemma revokeUser_sessions u c x c' h r : revokeUser u c = Ok (x, c') → ct_sessions c' !! h = Some r → se_user r ≠ u.
Proof. intros H. unfold revokeUser in H. ctl_step H. cbn. intros [_ H]%without_lookup. by bools. Qed.
Lemma audit_sessions now actor w action target : respecting (agrees ct_sessions) (audit now actor w action target).
Proof. respect. Qed.

(** A successful operation that ends a session leaves no row of it. *)
Lemma revokes_sessions o c c' h r : transact o c = Ok (tt, c') → revokes o c h r → ct_sessions c' !! h ≠ Some r.
Proof.
  intros H Hr Hin. destruct o; cbn [ControlRun.transact revokes] in *; try done.
  - (* ChangeMember *) destruct Hr as (-> & -> & Hw & Hk). unfold ChangeMember in H. ctl_step H.
    match goal with H : memberActor _ _ = Ok _ |- _ => apply memberActor_inv in H as (-> & arole & _ & -> & _) end.
    apply audit_sessions in H. unfold agrees in H. rewrite H in Hin. case_bool_decide; [|done]. ctl_all. cbn -[bool_decide] in Hin. apply without_lookup in Hin as [_ Hin].
    repeat (apply andb_false_iff in Hin as [Hin|Hin]); bools; congruence.
  - (* DeleteUser *) unfold DeleteUser in H. ctl_step H. apply audit_sessions in H. unfold agrees in H. rewrite H in Hin. cbn in Hin.
    apply without_lookup in Hin as [_ Hin]. by bools.
  - (* Activate *) destruct Hr as (a & Ha & Hu). unfold Activate in H. ctl_step H. apply audit_sessions in H. unfold agrees in H. rewrite H in Hin.
    cbv beta in *. match goal with H : (_ ≫= _) = Some _ |- _ => rewrite Ha in H; cbn in H; case_match; [|done]; simplify_eq end.
    match goal with H : revokeUser _ _ = Ok _ |- _ => by apply (revokeUser_sessions _ _ _ _ _ _ H) in Hin; congruence end.
  - (* RecoverPassword *) destruct Hr as (n & Hn & Hf). unfold RecoverPassword in H. ctl_step H. apply audit_sessions in H. unfold agrees in H. rewrite H in Hin.
    match goal with H : revokeUser _ _ = Ok _ |- _ => by apply (revokeUser_sessions _ _ _ _ _ _ H) in Hin; congruence end.
  - (* ChangePassword *) subst. unfold ChangePassword in H. ctl_step H. apply audit_sessions in H. unfold agrees in H. rewrite H in Hin.
    match goal with H : revokeUser _ _ = Ok _ |- _ => by apply (revokeUser_sessions _ _ _ _ _ _ H) in Hin; congruence end.
  - (* DisableUser *) destruct disabled; [|done]. subst. unfold DisableUser in H. ctl_step H. apply audit_sessions in H. unfold agrees in H. rewrite H in Hin.
    match goal with H : revokeUser _ _ = Ok _ |- _ => by apply (revokeUser_sessions _ _ _ _ _ _ H) in Hin; congruence end.
  - (* RevokeSession *) subst. unfold RevokeSession in H. ctl_step H. cbn in Hin. by apply lookup_delete_Some in Hin as [? _].
  - (* RevokeUserSession *) destruct Hr as [-> ->]. unfold RevokeUserSession in H. ctl_step H. cbn in Hin. apply without_lookup in Hin as [_ Hin].
    apply andb_false_iff in Hin as [Hin|Hin]; bools; congruence.
  - (* QuarantineRestore *) unfold QuarantineRestore in H. ctl_step H. cbn in Hin. by apply lookup_empty_Some in Hin.
Qed.
Lemma NewSession_sessions token csrf user workspace kind scopes now c a c' h r :
  NewSession token csrf user workspace kind scopes now c = Ok (a, c') → ct_sessions c' !! h = Some r →
  ct_sessions c !! h = Some r ∨ issues (c_NewSession token csrf user workspace kind scopes now) c h r.
Proof.
  intros H Hin. unfold NewSession, insert_session in H. ctl_step H. ctl_all.
  match goal with H : audit _ _ _ _ _ _ = Ok _ |- _ => apply audit_sessions in H; unfold agrees in H; rewrite H in Hin; clear H end. cbn in Hin.
  apply lookup_insert_Some in Hin as [[<- <-]|[_ Hin]]; [right|left; by apply without_lookup in Hin as [? _]]. cbn. auto.
Qed.

Lemma ClaimDevice_sessions token id verifier now c a c' h r :
  ClaimDevice token id verifier now c = Ok (a, c') → ct_sessions c' !! h = Some r →
  ct_sessions c !! h = Some r ∨ issues (c_ClaimDevice token id verifier now) c h r.
Proof.
  intros H Hin. unfold ClaimDevice in H. ctl_step H. cbv beta in *.
  match goal with H : (_ ≫= _) = Some ?d |- _ => rename H into Hd; rename d into d0 end.
  destruct (ct_devices c !! id) as [d|] eqn:Ed; [|done]. cbn in Hd. destruct (Unix now <? de_expires d) eqn:Hex; [|done]. simplify_eq. bools.
  case_bool_decide; [ctl_step H; auto|]. unfold insert_session in H. ctl_step H. ctl_all. cbv zeta in *. cbn -[Allows] in Hin.
  apply lookup_insert_Some in Hin as [[<- <-]|[_ Hin]]; [right|left; by apply without_lookup in Hin as [? _]]. cbn -[Allows]. split; [done|]. eexists _, _. split_and!; [done..|].
  intros scope Hs. match goal with H : existsb _ _ = false |- _ => rewrite existsb_false in H; specialize (H scope Hs); by bools end.
Qed.

Lemma step_sessions o c h r :
  ct_sessions (perform o c) !! h = Some r →
  (ct_sessions c !! h = Some r ∧ ¬ (succeeds o c = true ∧ revokes o c h r)) ∨ (succeeds o c = true ∧ issues o c h r).
Proof.
  destruct (perform_cases o c) as [(c' & E & -> & Hs)|[-> Hs]]; [|left; split; [done|]; rewrite Hs; by intros [? _]]. intros Hin.
  assert (Hrev : ¬ (succeeds o c = true ∧ revokes o c h r)) by (intros [_ Hr]; by apply (revokes_sessions o c c' h r)).
  destruct (issuing o) eqn:Hi; [|left; split; [|done]; by eapply lookup_weaken; [|eapply sessions_shrink]].
  destruct o; try discriminate Hi; cbn [ControlRun.transact] in E; apply forget_inv in E as [a E].
  - apply (NewSession_sessions _ _ _ _ _ _ _ _ _ _ h r E) in Hin as [Hin|Hin]; auto.
  - apply (ClaimDevice_sessions _ _ _ _ _ _ _ h r E) in Hin as [Hin|Hin]; auto.
Qed.

(** The row's history in a run. *)
Definition since (os : list cop) (h : string) (r : session_row) : Prop :=
  ∃ pre o post, os = pre ++ o :: post ∧ succeeds o (perform_all pre empty_control) = true ∧ issues o (perform_all pre empty_control) h r ∧
    ∀ mid o' rest, post = mid ++ o' :: rest →
      let c' := perform_all (pre ++ o :: mid) empty_control in ¬ (succeeds o' c' = true ∧ revokes o' c' h r).

Lemma sessions_since os h r : ct_sessions (perform_all os empty_control) !! h = Some r → since os h r.
Proof.
  induction os as [|o os IH] using rev_ind; [cbn; by intros ?%lookup_empty_Some|]. rewrite perform_all_snoc. intros [[Hin Hrev]|[Hs Hi]]%step_sessions.
  - destruct (IH Hin) as (pre & o0 & post & -> & Hs & Hi & Hpost). exists pre, o0, (post ++ [o]). split_and!; [by rewrite <- (assoc_L (++))|done..|].
    intros mid o' rest E. destruct (decide (rest = [])) as [->|Hne].
    + apply app_inj_tail in E as [-> ->]. done.
    + destruct (exists_last Hne) as (rest' & x & ->). rewrite app_comm_cons, (assoc_L (++)) in E. apply app_inj_tail in E as [E ->]. by apply (Hpost mid o' rest').
  - exists os, o, []. split_and!; [done..|]. intros mid o' rest E. by destruct mid.
Qed.

(** C3: A session token that is accepted was issued and not ended.  In every
    run from the empty database, if [DB.Session] accepts a token, some step of
    the run issued it: a sign-in, or a device claim with the verifier of the
    approved request, for a user who was an enabled member of the workspace at
    that moment and, for a device, whose role then permitted every scope of the
    session.  No later step that succeeded ended it: the session's sign-out, a
    change, reset or recovery of the user's password, disabling or deleting the
    user, removing the member (device sessions), restoring a backup.  The user
    is enabled and the week of the session is not over. *)
Theorem accepted_session_issued os token now s :
  let c := perform_all os empty_control in
  DB_Session token now c = Ok s →
  ∃ r, since os (TokenHash token) r ∧ s_User s = se_user r ∧ s_Workspace s = se_workspace r ∧ s_Kind s = se_kind r ∧ s_Scopes s = se_scopes r ∧
    Unix now < se_expires r ∧ enabled (s_User s) c = true.
Proof.
  cbn zeta. unfold DB_Session. destruct (len token =? 64); [|done]. cbn.
  destruct (ct_sessions _ !! TokenHash token) as [r|] eqn:E; [|done]. destruct (session_live _ _ _) eqn:Hl; [|done]. intros [= <-].
  exists r. split; [by apply sessions_since|]. cbn. unfold session_live in Hl. by bools.
Qed.

(** ** Device requests *)

(** The changes of the row of a device request. *)
Lemma step_devices o c id d :
  ct_devices (perform o c) !! id = Some d →
  ct_devices c !! id = Some d ∨
  (∃ challenge t, o = c_BeginDevice challenge id t ∧ d = mkDevice None None challenge None (Unix (Add t (10 * Minute)))) ∨
  (∃ before user workspace scopes t d0 p, o = c_ApproveDevice before id user workspace scopes t ∧ ct_devices c !! id = Some d0 ∧ pending t d0 = true ∧
     DB_Principal user workspace "browser" [] before = Ok p ∧ scopes ≠ [] ∧ (∀ scope, scope ∈ scopes → Allows p scope = true) ∧
     d = mkDevice (Some user) (Some (stored scopes)) (de_challenge d0) (Some workspace) (de_expires d0)).
Proof.
  destruct (perform_cases o c) as [(c' & E & -> & Hs)|[-> Hs]]; [|auto]. intros Hin.
  destruct (match o with c_BeginDevice _ _ _ | c_ApproveDevice _ _ _ _ _ _ => true | _ => false end) eqn:Hi.
  - destruct o; try discriminate Hi; cbn [ControlRun.transact] in E.
    + apply forget_inv in E as [a E]. unfold BeginDevice in E. ctl_step E. ctl_all. cbn in Hin.
      apply lookup_insert_Some in Hin as [[<- <-]|[_ Hin]]; [right; left; eauto|left; by apply without_lookup in Hin as [? _]].
    + unfold ApproveDevice in E. destruct (DB_Principal _ _ _ _ before) as [p|] eqn:Hp; [|done]. ctl_step E.
      destruct (ct_devices c !! id0) as [d0|] eqn:Ed; [|done]. ctl_step E. ctl_all. cbn in Hin.
      apply lookup_insert_Some in Hin as [[<- <-]|[_ Hin]]; [right; right|by left]. eexists _, _, _, _, _, d0, p. split_and!; [done..| | |done].
      * intros ->. done.
      * intros scope Hsc. match goal with H : existsb _ _ = false |- _ => rewrite existsb_false in H; specialize (H scope Hsc); by bools end.
  - left. assert (Hsh : respecting (shrinks ct_devices) (transact o)).
    { destruct o; try discriminate Hi; cbn [ControlRun.transact]; try (apply forget_respecting; [apply _|]). all: respect. all: exec_cases. }
    by eapply lookup_weaken; [|eapply Hsh].
Qed.

(** The run begins the request [id] with this challenge at [t], and somebody
    who held every scope then approves it. *)
Definition begun (os : list cop) (id challenge : string) (t : time) : Prop := ∃ pre post, os = pre ++ c_BeginDevice challenge id t :: post.
Definition approved (os : list cop) (id challenge user workspace : string) (scopes : list string) (t : time) : Prop :=
  ∃ pre before t' p post, os = pre ++ c_ApproveDevice before id user workspace scopes t' :: post ∧ begun pre id challenge t ∧
    Unix t' < Unix (Add t (10 * Minute)) ∧ scopes ≠ [] ∧ DB_Principal user workspace "browser" [] before = Ok p ∧ ∀ scope, scope ∈ scopes → Allows p scope = true.

Definition device_history (os : list cop) (id : string) (d : device_row) : Prop :=
  ∃ t, de_expires d = Unix (Add t (10 * Minute)) ∧
    ((d = mkDevice None None (de_challenge d) None (de_expires d) ∧ begun os id (de_challenge d) t) ∨
     (∃ user workspace scopes, d = mkDevice (Some user) (Some (stored scopes)) (de_challenge d) (Some workspace) (de_expires d) ∧
        approved os id (de_challenge d) user workspace scopes t)).

Lemma begun_app os os' id challenge t : begun os id challenge t → begun (os ++ os') id challenge t.
Proof. intros (pre & post & ->). exists pre, (post ++ os'). by rewrite <- (assoc_L (++)). Qed.
Lemma approved_app os os' id challenge user workspace scopes t :
  approved os id challenge user workspace scopes t → approved (os ++ os') id challenge user workspace scopes t.
Proof. intros (pre & before & t' & p & post & -> & H). exists pre, before, t', p, (post ++ os'). by rewrite <- (assoc_L (++)). Qed.
Lemma device_history_app os os' id d : device_history os id d → device_history (os ++ os') id d.
Proof.
  intros (t & He & [[Hd Hb]|(user & workspace & scopes & Hd & Ha)]); exists t; (split; [done|]); [left|right].
  - split; [done|]. by apply begun_app.
  - exists user, workspace, scopes. split; [done|]. by apply approved_app.
Qed.

Lemma devices_history os id d : ct_devices (perform_all os empty_control) !! id = Some d → device_history os id d.
Proof.
  revert d. induction os as [|o os IH] using rev_ind; [cbn; by intros d ?%lookup_empty_Some|]. intros d. rewrite perform_all_snoc.
  intros [Hin|[(challenge & t & -> & ->)|(before & user & workspace & scopes & t' & d0 & p & -> & Hin & Hp & Hpr & Hne & Hal & ->)]]%step_devices.
  - by apply device_history_app, IH.
  - exists t. split; [done|]. left. split; [done|]. by exists os, [].
  - destruct (IH d0 Hin) as (t & He & [[Hd Hb]|(u0 & w0 & s0 & Hd & _)]); [|rewrite Hd in Hp; by cbn in Hp].
    exists t. split; [done|]. right. exists user, workspace, scopes. split; [done|]. exists os, before, t', p, []. split_and!; try done.
    unfold pending in Hp. bools. by rewrite <- He.
Qed.

(** C15: A device gets a session only from its own approved request, once.  When
    [ClaimDevice] hands out a session after any run, the run began a request
    under this id with the hash of the verifier the claimer now presents, at most
    ten minutes ago, and a later step approved it for the session's user and
    workspace with the session's scopes, by a member whose role permitted each
    of them at the approval and, again, at the claim.  The claim consumes the
    request: no verifier claims it again. *)
Theorem device_session_approved os token id verifier now s c' :
  let c := perform_all os empty_control in
  ClaimDevice token id verifier now c = Ok (Some s, c') →
  (∃ scopes t, approved os id (TokenHash verifier) (s_User s) (s_Workspace s) scopes t ∧ s_Scopes s = stored scopes ∧ Unix now < Unix (Add t (10 * Minute))) ∧
  (∃ role, role_of (s_User s) (s_Workspace s) c = Some role ∧
     ∀ scope, scope ∈ s_Scopes s → Allows (browser (s_User s) (s_Workspace s) role) scope = true) ∧
  s_Kind s = "device" ∧ s_Token s = token ∧
  ∀ token' verifier' now', is_ok (ClaimDevice token' id verifier' now' c') = false.
Proof.
  cbn zeta. intros H. unfold ClaimDevice in H. ctl_step H. cbv beta in *.
  match goal with H : (_ ≫= _) = Some ?d |- _ => rename H into Hd; rename d into d0 end.
  destruct (ct_devices (perform_all os empty_control) !! id) as [d|] eqn:Ed; [|done]. cbn in Hd. destruct (Unix now <? de_expires d) eqn:Hex; [|done]. simplify_eq. bools.
  apply devices_history in Ed as (t & He & [[Hd _]|(user & workspace & scopes & Hd & Ha)]); [rewrite Hd in H; by cbn in H; ctl_step H|].
  rewrite Hd in H. cbn in H. case_bool_decide; [by ctl_step H|]. unfold insert_session in H. ctl_step H. ctl_all. cbv zeta in *. apply (inj Some) in H as ->.
  cbn -[Allows]. split_and!; try done.
  - exists scopes, t. split_and!; [by match goal with H : de_challenge _ = TokenHash verifier |- _ => rewrite <- H end|done|by rewrite <- He].
  - eexists. split; [done|]. intros scope Hs. match goal with H : existsb _ _ = false |- _ => rewrite existsb_false in H; specialize (H scope Hs); by bools end.
  - intros token' verifier' now'. unfold ClaimDevice, mbind, ctl_bind, refuse, query_row.
    destruct (negb (len id =? 64) || negb (len verifier' =? 64)); [done|]. cbn -[TokenHash]. by rewrite lookup_delete_eq.
Qed.
End Auth.
