(* ===== verification/ControlRoles.v ===== *)
(** * Who changes roles

    A membership changes only by an administrator or owner of its workspace, by
    the founding of the workspace, by its user leaving the server, or with the
    deletion of the workspace; to make or unmake an administrator or owner takes
    an owner. *)
From S2P Require Import Prelude GoText Access Passwords Control ControlAccounts ControlSessions ControlServices ControlUsage ControlRun ControlFacts ControlAuth.

Lemma Allows_owners p : Allows p "owners" = true → pn_Operator p = true ∨ pn_Role p = Owner.
Proof.
  unfold Allows. intros H. case_match; [done|]. destruct (pn_Operator p); [by left|]. case_match; [done|]. case_match; [done|].
  change (role_allows p "owners") with (pn_Role p ≟ Owner) in H. right. by bools.
Qed.

Lemma Allows_members p : Allows p "members" = true → pn_Operator p = true ∨ pn_Role p = Owner ∨ pn_Role p = Administrator.
Proof.
  unfold Allows. intros H. case_match; [done|]. destruct (pn_Operator p); [by left|]. case_match; [done|]. case_match; [done|].
  change (role_allows p "members") with ((pn_Role p ≟ Administrator) || (pn_Role p ≟ Owner)) in H. right. apply orb_true_iff in H as [H|H]; bools; auto.
Qed.

(** The operation by which [p] sets the role of [u]. *)
Definition administers (o : cop) (p : Principal) (u : string) : Prop :=
  match o with
  | c_ChangeMember q v _ _ => q = p ∧ v = u
  | c_Invite q _ _ _ uid _ _ => q = p ∧ uid = u
  | _ => False
  end.
(** The operation that founds the workspace [w] for [u]. *)
Definition founds (o : cop) (u w : string) : Prop :=
  match o with
  | c_Enroll _ _ _ _ uid wid _ => uid = u ∧ wid = w
  | c_Bootstrap _ _ _ _ _ uid wid _ => uid = u ∧ wid = w
  | _ => False
  end.

Section Roles.
Context (IDKey : string → string → string) (url_parse : string → option (string * string * bool * string * string))
  (Seal : string → string → string → string → string) (encode : Login → string).
Notation transact := (transact IDKey url_parse Seal encode).
Notation perform := (perform IDKey url_parse Seal encode).

Lemma audit_members now actor w action target : respecting (agrees ct_memberships) (audit now actor w action target).
Proof. respect. Qed.

(** What a successful role change by [p] had to check. *)
Definition authorized (p : Principal) (w : string) (c : control) (old new : option string) : Prop :=
  pn_Workspace p = w ∧ ∃ role, role_of (pn_User p) w c = Some role ∧
    (pn_Operator p = true ∨ role = Owner ∨ role = Administrator) ∧
    (privileged (default "" old) || privileged (default "" new) = true → pn_Operator p = true ∨ role = Owner).

Lemma ChangeMember_members p user role now c c' u w :
  ChangeMember p user role now c = Ok (tt, c') → ct_memberships c' !! (u, w) ≠ ct_memberships c !! (u, w) →
  user = u ∧ authorized p w c (ct_memberships c !! (u, w)) (ct_memberships c' !! (u, w)).
Proof.
  intros H Hne. unfold ChangeMember in H. apply ctl_bind_inv in H as ([] & ? & [_ ->]%refuse_inv & H).
  apply ctl_bind_inv in H as (actor & ? & (-> & arole & Hrole & -> & Hal%Allows_members)%memberActor_inv & H). cbn in H.
  apply ctl_bind_inv in H as (old & ? & [-> ->]%get_inv & H). apply ctl_bind_inv in H as ([] & ? & [Hown ->]%refuse_inv & H).
  apply ctl_bind_inv in H as (owners & ? & [-> ->]%get_inv & H). apply ctl_bind_inv in H as ([] & ? & [_ ->]%refuse_inv & H).
  apply ctl_bind_inv in H as ([] & c1 & Hset & Hau). apply audit_members in Hau. unfold agrees in Hau. rewrite Hau in *. clear Hau c'.
  assert (Hcase : (user, pn_Workspace p) = (u, w) ∧ (role = "" ∧ ct_memberships c1 !! (u, w) = None ∨ ct_memberships c1 !! (u, w) = Some role)).
  { case_bool_decide as Er.
    - ctl_step Hset. cbn in *. destruct (decide ((user, pn_Workspace p) = (u, w))) as [<-|Hk]; [|by rewrite lookup_delete_ne in Hne].
      rewrite lookup_delete_eq. auto.
    - unfold upsert_membership in Hset. ctl_step Hset. ctl_all. cbn in *.
      destruct (decide ((user, pn_Workspace p) = (u, w))) as [<-|Hk]; [|by rewrite lookup_insert_ne in Hne]. rewrite lookup_insert_eq. auto. }
  destruct Hcase as [[= <- <-] Hc1]. split; [done|]. split; [done|]. exists arole. split_and!; [done|cbn in Hal; tauto|]. intros Hpriv.
  assert (Hn : privileged (default "" (ct_memberships c1 !! (user, pn_Workspace p))) = privileged role) by (destruct Hc1 as [[-> ->]| ->]; done).
  rewrite Hn in Hpriv. rewrite Hpriv in Hown. cbn in Hown. bools. by apply Allows_owners in Hown.
Qed.

Lemma Invite_members p username name role uid token now c a c' u w :
  Invite p username name role uid token now c = Ok (a, c') → ct_memberships c' !! (u, w) ≠ ct_memberships c !! (u, w) →
  uid = u ∧ authorized p w c (ct_memberships c !! (u, w)) (ct_memberships c' !! (u, w)).
Proof.
  intros H Hne. unfold Invite, insert_user, insert_membership, upsert_membership, issue_activation in H. ctl_step H.
  match goal with H : memberActor _ _ = Ok _ |- _ => apply memberActor_inv in H as (-> & arole & Hrole & -> & Hal%Allows_members) end. ctl_all.
  match goal with H : audit _ _ _ _ _ _ = Ok _ |- _ => apply audit_members in H; unfold agrees in H; cbn in H; rename H into Hau end. rewrite Hau in *. cbn in *.
  destruct (decide ((uid, pn_Workspace p) = (u, w))) as [[= <- <-]|Hk]; [|by rewrite lookup_insert_ne in Hne]. rewrite lookup_insert_eq.
  split; [done|]. split; [done|]. exists arole. split_and!; [done|tauto|].
  match goal with H : ct_memberships _ !! _ = None |- _ => rewrite H end. cbn [default]. intros Hpriv.
  assert (Hr : privileged role = true) by (by apply orb_true_iff in Hpriv as [Hpriv|]).
  match goal with H : privileged role && _ = false |- _ => rewrite Hr in H; cbn in H; bools; by apply Allows_owners in H end.
Qed.

Lemma Enroll_members before issuer subject limit uid wid now c a c' u w :
  Enroll before issuer subject limit uid wid now c = Ok (a, c') → ct_memberships c' !! (u, w) ≠ ct_memberships c !! (u, w) →
  uid = u ∧ wid = w ∧ ct_workspaces c !! w = None.
Proof.
  intros H Hne. unfold Enroll in H. ctl_step H. destruct (IdentityWorkspace issuer subject before); ctl_step H; [done|].
  unfold insert_user, insert_identity, insert_workspace, insert_membership, upsert_membership in *. ctl_all. cbn in *.
  destruct (decide ((uid, wid) = (u, w))) as [[= <- <-]|Hk]; [done|by rewrite lookup_insert_ne in Hne].
Qed.
Lemma Bootstrap_members busy salt username name password uid wid now c a c' u w :
  Bootstrap IDKey busy salt username name password uid wid now c = Ok (a, c') → ct_memberships c' !! (u, w) ≠ ct_memberships c !! (u, w) →
  uid = u ∧ wid = w ∧ ct_workspaces c !! w = None.
Proof.
  intros H Hne. unfold Bootstrap, insert_user, insert_workspace, insert_membership, upsert_membership in H. ctl_step H. ctl_all.
  match goal with H : audit _ _ _ _ _ _ = Ok _ |- _ => apply audit_members in H; unfold agrees in H; rewrite H in Hne; clear H end. cbn in *.
  destruct (decide ((uid, wid) = (u, w))) as [[= <- <-]|Hk]; [done|by rewrite lookup_insert_ne in Hne].
Qed.

(** A membership that differs after deleting rows is gone. *)
Lemma without_change `{Countable K} {X : Type} (p : K → X → bool) (m : gmap K X) k :
  without p m !! k ≠ m !! k → without p m !! k = None ∧ ∃ x, p k x = true.
Proof.
  intros Hne. destruct (without p m !! k) as [x|] eqn:E; [apply without_lookup in E as [E _]; congruence|]. split; [done|].
  destruct (m !! k) as [x|] eqn:Em; [|done]. exists x. destruct (p k x) eqn:Ep; [done|].
  assert (without p m !! k = Some x) by (by apply without_lookup). congruence.
Qed.

(** Operations that leave the memberships alone. *)
Definition sets_members (o : cop) : bool :=
  match o with
  | c_Enroll _ _ _ _ _ _ _ | c_Bootstrap _ _ _ _ _ _ _ _ | c_ChangeMember _ _ _ _ | c_Invite _ _ _ _ _ _ _ | c_DeleteUser _ _ | c_FinishWorkspaceDelete _ => true
  | _ => false
  end.
Lemma members_agree o : sets_members o = false → respecting (agrees ct_memberships) (transact o).
Proof.
  intros Ho. destruct o; try discriminate Ho; cbn [ControlRun.transact]; try (apply forget_respecting; [apply _|]). all: respect. all: exec_cases.
Qed.

(** C16: No one gains or loses a role without authority.  If any operation, on
    any database, changes the role of a user in a workspace, then it is
    [ChangeMember] or [Invite] by an actor who is at that moment an enabled
    administrator or owner of this workspace (or the host operator), and an
    owner if the old or the new role is administrator or owner; or it founds the
    workspace, which did not exist, for this user; or it is this user's own
    departure from the server, or the end of the workspace's deletion, and the
    membership is gone. *)
Theorem role_change_authorized o c u w :
  let c' := perform o c in
  ct_memberships c' !! (u, w) ≠ ct_memberships c !! (u, w) →
  (∃ p, administers o p u ∧ authorized p w c (ct_memberships c !! (u, w)) (ct_memberships c' !! (u, w))) ∨
  (founds o u w ∧ ct_workspaces c !! w = None) ∨
  (((∃ t, o = c_DeleteUser u t) ∨ o = c_FinishWorkspaceDelete w) ∧ ct_memberships c' !! (u, w) = None).
Proof.
  cbn zeta. destruct (perform_cases IDKey url_parse Seal encode o c) as [(c' & E & -> & Hs)|[-> Hs]]; [|done]. intros Hne.
  destruct (sets_members o) eqn:Ho; [|apply (members_agree o Ho) in E; congruence].
  destruct o; try discriminate Ho; cbn [ControlRun.transact] in E; try (apply forget_inv in E as [a E]).
  - right. left. cbn. destruct (Enroll_members _ _ _ _ _ _ _ _ _ _ _ _ E Hne) as (-> & -> & ?). auto.
  - left. exists p. cbn. destruct (ChangeMember_members _ _ _ _ _ _ _ _ E Hne) as [-> ?]. auto.
  - right. right. unfold DeleteUser in E. ctl_step E. apply audit_members in E. unfold agrees in E. rewrite E in *. cbn in *.
    apply without_change in Hne as [Hn [x Hx]]. cbn in Hx. bools. subst. split; [left; eauto|done].
  - right. left. cbn. destruct (Bootstrap_members _ _ _ _ _ _ _ _ _ _ _ _ _ E Hne) as (-> & -> & ?). auto.
  - left. exists p. cbn. destruct (Invite_members _ _ _ _ _ _ _ _ _ _ _ _ E Hne) as [-> ?]. auto.
  - right. right. unfold FinishWorkspaceDelete in E. ctl_step E. destruct (ct_workspaces c !! id) as [r|]; [|done]. destruct (ws_deleting r); [|done]. cbn in *.
    apply without_change in Hne as [Hn [x Hx]]. cbn in Hx. bools. by split; [right; subst|].
Qed.
End Roles.

(** ** A reset that outlives a promotion *)

(** C37: A password reset outlives a promotion.  [ResetInvitation] refuses a reset
    for an owner, but [ChangeMember] withdraws a pending reset only when it removes
    the member.  On any database: whoever obtained a reset for a user of the
    workspace can, after the user was given any role there, still set the user's
    password with it until the hour has passed, and the user keeps the new role;
    when that role is owner, the same principal is refused a reset from then on. *)
Theorem stale_reset_takes_over_owner IDKey busy salt p q user token role password hash t1 t2 t3 c a c1 u c2 :
  ResetInvitation p user token t1 c = Ok (a, c1) → ChangeMember q user role t2 c1 = Ok (u, c2) → pn_Workspace q = pn_Workspace p → role ≠ "" →
  len token = 64 → Unix t3 < Unix (Add t1 Hour) → HashPassword IDKey busy salt password = Ok hash →
  (∃ c3, Activate IDKey busy salt token password t3 c2 = Ok (tt, c3) ∧ us_password <$> ct_users c3 !! user = Some (Some hash) ∧
     ct_memberships c3 !! (user, pn_Workspace p) = Some role) ∧
  (role = Owner → ∀ token' t, is_ok (ResetInvitation p user token' t c2) = false).
Proof.
  intros H1 H2 Hw Hrole Hlen Ht Hhash.
  assert (Ha : ct_activations c1 !! TokenHash token = Some (mkActivation user (pn_Workspace p) (Unix (Add t1 Hour)))).
  { unfold ResetInvitation, memberActor, issue_activation, audit in H1. ctl_step H1. cbn. apply lookup_insert_eq. }
  assert (Hc2 : ct_activations c2 = ct_activations c1 ∧ ct_users c2 = ct_users c1 ∧ enabled user c1 = true ∧
                ct_memberships c2 !! (user, pn_Workspace p) = Some role).
  { unfold ChangeMember, memberActor, upsert_membership, audit in H2. rewrite (bool_decide_eq_false_2 _ Hrole) in H2. cbn iota in H2. ctl_step H2. cbn.
    rewrite <- Hw. split_and!; try done; [by apply negb_false_iff|apply lookup_insert_eq]. }
  destruct Hc2 as (E1 & E2 & Hen & Hm). split.
  - destruct (ct_users c1 !! user) as [v|] eqn:Ev; [|unfold enabled in Hen; by rewrite Ev in Hen].
    unfold Activate, refuse, liftr, query_row, exec, mbind, ctl_bind. rewrite Hlen, Hhash. change (negb (64 =? 64)) with false. cbv beta iota delta [mret ctl_ret]. rewrite E1, Ha. cbn -[Unix Add update_user revokeUser audit delete].
    replace (enabled user c2) with true by (unfold enabled in *; by rewrite E2).
    rewrite (proj2 (Z.ltb_lt _ _) Ht). cbn -[Unix Add]. eexists. split; [reflexivity|]. cbn. rewrite E2, lookup_alter_eq, Ev. done.
  - intros -> token' t. destruct (ResetInvitation p user token' t c2) as [[b c3]|] eqn:H; [|done]. unfold ResetInvitation, memberActor in H. exfalso. ctl_step H.
    match goal with H : ct_memberships c2 !! _ = Some ?r |- _ => change (ct_memberships c2 !! (user, pn_Workspace p) = Some r) in H; rewrite Hm in H; injection H as <- end.
    match goal with H : _ || _ || _ = false |- _ => apply orb_false_iff in H as [[_ H]%orb_false_iff _]; done end.
Qed.
