(* ===== verification/ControlProducers.v ===== *)
(** * Producers: what a key stands for, and the budgets of a workspace

    A service credential is accepted only if it was issued with the grant or by
    a rotation in the run, has not expired, has not been revoked, and lies inside
    the overlap of every rotation since; a producer never has more than two keys. *)

From S2P Require Import Prelude GoText Access Passwords Control ControlAccounts ControlSessions ControlServices ControlUsage ControlRun ControlFacts ControlAuth.

#[local] Open Scope list_scope.
#[local] Open Scope Z_scope.

#[local] Opaque TokenHash.

(** [k] is what later statements made of [k0]. *)
Definition follows (k0 k : key_row) : Prop :=
  ke_service k = ke_service k0 ∧ ke_hash k = ke_hash k0 ∧ ke_created k = ke_created k0 ∧ ke_expires k <= ke_expires k0.
#[export] Instance follows_preorder : PreOrder follows.
Proof. unfold follows. split; [intros k; split_and!; lia || done|]. intros a b c (-> & -> & -> & ?) (-> & -> & -> & ?). split_and!; lia || done. Qed.

(** An administrator of the workspace. *)
Definition administrator (p : Principal) (w : string) (c : control) : Prop :=
  pn_Workspace p = w ∧ ∃ role, role_of (pn_User p) w c = Some role ∧ Allows (with_role p role) "members" = true.
Definition grant_in (id w : string) (c : control) : Prop := ∃ g, ct_grants c !! id = Some g ∧ gr_workspace g = w.

(** The operation, succeeding on [c], issues the key [k] under the id [kid]. *)
Definition issues_key (o : cop) (c : control) (kid : string) (k : key_row) : Prop :=
  match o with
  | c_CreateBoundService p _ scopes watches days _ sid kid' secret now =>
      kid = kid' ∧ k = mkKey sid (TokenHash (service_prefix ++ secret)) (Unix (Add now (days_of days))) (UnixNano now) 0 ∧ days <= 90 ∧
      administrator p (pn_Workspace p) c
  | c_RotateService p id days _ kid' secret now =>
      kid = kid' ∧ k = mkKey id (TokenHash (service_prefix ++ secret)) (Unix (Add now (days_of days))) (UnixNano now) 0 ∧ days <= 90 ∧
      administrator p (pn_Workspace p) c ∧ grant_in id (pn_Workspace p) c
  | _ => False
  end.

(** The operation, succeeding on [c], ends the key; a rotation ends every key
    but the newest and shortens that one to its overlap. *)
Definition ends_key (o : cop) (c : control) (kid : string) (k : key_row) : Prop :=
  match o with
  | c_RevokeService p id _ => id = ke_service k ∧ grant_in id (pn_Workspace p) c
  | c_RevokeServiceKey p id key _ => key = kid ∧ id = ke_service k ∧ grant_in id (pn_Workspace p) c
  | c_FinishWorkspaceDelete w => grant_in (ke_service k) w c ∧ ∃ r, ct_workspaces c !! w = Some r ∧ ws_deleting r = true
  | c_RotateService _ id _ overlap _ _ t => id = ke_service k ∧ (newest_key id c ≠ Some kid ∨ Unix (Add t (overlap * Second)) < ke_expires k)
  | c_QuarantineRestore => True
  | _ => False
  end.

Section Keys.
Context (IDKey : string → string → string) (url_parse : string → option (string * string * bool * string * string))
  (Seal : string → string → string → string → string) (encode : Login → string).
Notation transact := (transact IDKey url_parse Seal encode).
Notation perform := (perform IDKey url_parse Seal encode).
Notation perform_all := (perform_all IDKey url_parse Seal encode).
Notation succeeds := (succeeds IDKey url_parse Seal encode).

Definition sets_keys (o : cop) : bool :=
  match o with
  | c_CreateBoundService _ _ _ _ _ _ _ _ _ _ | c_RevokeService _ _ _ | c_NoteServiceUse _ _ | c_RotateService _ _ _ _ _ _ _ | c_RevokeServiceKey _ _ _ _
  | c_FinishWorkspaceDelete _ | c_QuarantineRestore => true
  | _ => false
  end.
Lemma keys_agree o : sets_keys o = false → respecting (agrees ct_keys) (transact o).
Proof.
  intros Ho. destruct o; try discriminate Ho; cbn [ControlRun.transact]; try (apply forget_respecting; [apply _|]). all: respect. all: exec_cases.
Qed.
Lemma audit_keys now actor w action target : respecting (agrees ct_keys) (audit now actor w action target).
Proof. respect. Qed.

Lemma drop_grants_keys p c kid k :
  ct_keys (drop_grants p c) !! kid = Some k ↔ ct_keys c !! kid = Some k ∧ ∀ g, ct_grants c !! ke_service k = Some g → p (ke_service k) g = false.
Proof.
  unfold drop_grants. cbn. rewrite without_lookup, is_Some_b_false, eq_None_not_Some. split; intros [H1 H2]; (split; [done|]).
  - intros g Hg. apply not_true_iff_false. intros Hp. apply H2. exists g. by apply where_lookup.
  - intros [g [Hg Hp]%where_lookup]. by rewrite (H2 g Hg) in Hp.
Qed.

Lemma retire_keys_keys service until c kid k :
  ct_keys (retire_keys service until c) !! kid = Some k →
  ∃ k0, ct_keys c !! kid = Some k0 ∧ follows k0 k ∧ (ke_service k = service → newest_key service c = Some kid ∧ ke_expires k <= until).
Proof.
  unfold retire_keys. cbn. rewrite lookup_fmap, fmap_Some. intros (k0 & [H1 H2]%without_lookup & ->). exists k0. split; [done|].
  case_bool_decide as Es; cbn; [|split; [reflexivity|]; by intros ?].
  apply andb_false_iff in H2 as [H2|H2]; bools; [done|]. split; [unfold follows; cbn; split_and!; lia || done|]. intros _. split; [done|lia].
Qed.

(** One step of the row of a key. *)
Lemma step_keys o c kid k :
  ct_keys (perform o c) !! kid = Some k →
  (∃ k0, ct_keys c !! kid = Some k0 ∧ follows k0 k ∧ ¬ (succeeds o c = true ∧ ends_key o c kid k)) ∨ (succeeds o c = true ∧ issues_key o c kid k).
Proof.
  destruct (perform_cases IDKey url_parse Seal encode o c) as [(c' & E & -> & Hs)|[-> Hs]]; [|left; exists k; split_and!; [done..|]; rewrite Hs; by intros [? _]].
  intros Hin. rewrite Hs. destruct (sets_keys o) eqn:Ho.
  2:{ apply (keys_agree o Ho) in E. unfold agrees in E. rewrite E in Hin. left. exists k. split_and!; [done..|]. intros [_ He]. by destruct o. }
  destruct o; try discriminate Ho; cbn [ControlRun.transact] in E; try (apply forget_inv in E as [a E]).
  - (* FinishWorkspaceDelete *) left. exists k. unfold FinishWorkspaceDelete in E. ctl_step E. cbn [ends_key].
    destruct (ct_workspaces c !! id) as [r|] eqn:Ew; [|split_and!; [done..|]; by intros (_ & _ & ? & [=] & _)].
    destruct (ws_deleting r) eqn:Ed; [|split_and!; [done..|]; intros (_ & _ & ? & [= <-] & ?); congruence].
    apply drop_grants_keys in Hin as [Hin Hg]. split_and!; [done..|]. intros (_ & (g & Hg1 & Hg2) & _). specialize (Hg g Hg1). by bools.
  - (* QuarantineRestore *) unfold QuarantineRestore in E. ctl_step E. cbn in Hin. by apply lookup_empty_Some in Hin.
  - (* CreateBoundService *) unfold CreateBoundService, insert_grant, insert_key in E. ctl_step E. ctl_all.
    match goal with H : memberActor _ _ = Ok _ |- _ => apply memberActor_inv in H as (-> & arole & Hrole & -> & Hal) end. ctl_all.
    match goal with H : audit _ _ _ _ _ _ = Ok _ |- _ => apply audit_keys in H; unfold agrees in H; rewrite H in Hin; clear H end. cbn -[drop_grants] in Hin.
    apply lookup_insert_Some in Hin as [[<- <-]|[_ Hin]].
    + right. split; [done|]. cbn. split_and!; [done|done| |split; [done|]; by exists arole].
      match goal with H : validateService _ _ _ _ = Ok _ |- _ => unfold validateService in H; res_inv; bools; lia end.
    + left. exists k. cbn [ends_key]. apply drop_grants_keys in Hin as [Hin _]. by split_and!; [done..|intros [_ []]].
  - (* RevokeService *) unfold RevokeService in E. ctl_step E.
    match goal with H : memberActor _ _ = Ok _ |- _ => apply memberActor_inv in H as (-> & arole & Hrole & -> & Hal) end.
    apply audit_keys in E. unfold agrees in E. rewrite E in Hin. apply drop_grants_keys in Hin as [Hin Hg]. left. exists k. split_and!; [done..|].
    cbn [ends_key]. intros (_ & -> & g & Hg1 & Hg2). specialize (Hg g Hg1). cbn in Hg. apply andb_false_iff in Hg as [Hg|Hg]; bools; congruence.
  - (* NoteServiceUse *) left. unfold NoteServiceUse in E. destruct (_ || _); ctl_step E; [exists k; by split_and!; [done..|intros [_ []]]|].
    cbn in Hin. apply lookup_alter_Some in Hin as [(<- & k0 & Hk & ->)|[_ Hin]]; [|exists k; by split_and!; [done..|intros [_ []]]].
    exists k0. split_and!; [done| |by intros [_ []]]. destruct (ke_used k0 <? _); unfold follows; cbn; split_and!; lia || done.
  - (* RotateService *) unfold RotateService, insert_key in E. ctl_step E. ctl_all.
    match goal with H : memberActor _ _ = Ok _ |- _ => apply memberActor_inv in H as (-> & arole & Hrole & -> & Hal) end. cbv beta in *.
    match goal with H : (_ ≫= _) = Some ?g |- _ => rename H into Hg; rename g into g0 end. ctl_all.
    match goal with H : audit _ _ _ _ _ _ = Ok _ |- _ => apply audit_keys in H; unfold agrees in H; rewrite H in Hin; clear H end. cbn -[retire_keys] in Hin.
    destruct (ct_grants c !! id) as [g|] eqn:Eg; [|done]. cbn in Hg. case_bool_decide as Ew; [|done]. simplify_eq.
    apply lookup_insert_Some in Hin as [[<- <-]|[_ Hin]].
    + right. split; [done|]. cbn. split_and!; [done|done|lia|split; [done|]; by exists arole|by exists g0].
    + left. apply retire_keys_keys in Hin as (k0 & Hk0 & Hf & Hnew). exists k0. split_and!; [done..|]. cbn [ends_key].
      intros (_ & -> & [Hn|Hn]); destruct (Hnew eq_refl); [done|lia].
  - (* RevokeServiceKey *) unfold RevokeServiceKey in E. ctl_step E.
    match goal with H : memberActor _ _ = Ok _ |- _ => apply memberActor_inv in H as (-> & arole & Hrole & -> & Hal) end.
    apply audit_keys in E. unfold agrees in E. rewrite E in Hin. cbn in Hin. apply without_lookup in Hin as [Hin Hp]. left. exists k. split_and!; [done..|].
    cbn [ends_key]. intros (_ & -> & -> & g & Hg1 & Hg2). rewrite Hg1, !bool_decide_eq_true_2 in Hp; done.
Qed.

(** The key's history in a run. *)
Definition key_since (os : list cop) (kid : string) (k : key_row) : Prop :=
  ∃ pre o post k0, os = pre ++ o :: post ∧ succeeds o (perform_all pre empty_control) = true ∧ issues_key o (perform_all pre empty_control) kid k0 ∧ follows k0 k ∧
    ∀ mid o' rest, post = mid ++ o' :: rest →
      let c' := perform_all (pre ++ o :: mid) empty_control in ¬ (succeeds o' c' = true ∧ ends_key o' c' kid k).

(** What ends a key would have ended the row it comes from. *)
Lemma ends_follows o c kid k0 k : follows k0 k → ends_key o c kid k → ends_key o c kid k0.
Proof.
  intros (Hs & _ & _ & He) H. destruct o; cbn [ends_key] in *; try done; rewrite Hs in *; try done.
  destruct H as [-> [H|H]]; (split; [done|]); [by left|right; lia].
Qed.

Lemma keys_since os kid k : ct_keys (perform_all os empty_control) !! kid = Some k → key_since os kid k.
Proof.
  revert k. induction os as [|o os IH] using rev_ind; [cbn; by intros k ?%lookup_empty_Some|]. intros k.
  rewrite perform_all_snoc. intros [(k1 & Hin & Hf & Hend)|[Hs Hi]]%step_keys.
  - destruct (IH k1 Hin) as (pre & o0 & post & k0 & -> & Hs & Hi & Hf0 & Hpost).
    exists pre, o0, (post ++ [o]), k0. split_and!; [by rewrite <- (assoc_L (++))|done|done|by etrans|].
    intros mid o' rest E. destruct (decide (rest = [])) as [->|Hne].
    + apply app_inj_tail in E as [-> ->]. done.
    + destruct (exists_last Hne) as (rest' & x & ->). rewrite app_comm_cons, (assoc_L (++)) in E. apply app_inj_tail in E as [E ->].
      cbn zeta. intros [H1 H2]. apply (Hpost mid o' rest' E). split; [done|]. by eapply ends_follows.
  - exists os, o, [], k. split_and!; [done..|]. intros mid o' rest E. by destruct mid.
Qed.

(** C14: A service credential that is accepted was issued, and is current.  In
    every run from the empty database, if [DB.ServiceToken] accepts a token, an
    administrator of the workspace issued it at some step with the producer or by
    a rotation, for at most ninety days that are not over; no later step that
    succeeded revoked the producer or this key, deleted the workspace or restored
    a backup; every later rotation of the producer found it to be the newest key
    and the moment of use lies inside that rotation's overlap.  The scopes,
    watches and workspace are those of the grant as it stands. *)
Theorem accepted_service_issued os token now s :
  let c := perform_all os empty_control in
  ServiceToken token now c = Ok s →
  ∃ k g, key_since os (sv_KeyID s) k ∧ ke_hash k = TokenHash token ∧ ke_service k = sv_ID s ∧ Unix now < ke_expires k ∧
    ct_grants c !! sv_ID s = Some g ∧ available (gr_workspace g) c = true ∧
    sv_Scopes s = gr_scopes g ∧ sv_Watches s = gr_watches g ∧ sv_Workspace s = gr_workspace g ∧ sv_Lifetimes s = gr_lifetimes g.
Proof.
  cbn zeta. unfold ServiceToken. destruct (negb _); [done|]. destruct (find_key _ _ _) as [[kid k]|] eqn:Ek; [|done].
  destruct (ct_grants _ !! ke_service k) as [g|] eqn:Eg; [|done]. destruct (available _ _) eqn:Ea; [|done]. intros [= <-]. exists k, g.
  unfold find_key in Ek. destruct (map_to_list _) as [|[kid' k'] l] eqn:El; [done|]. cbn in Ek. injection Ek as -> ->.
  assert (Hin : (kid, k) ∈ map_to_list (where_ (fun _ k => (ke_hash k ≟ TokenHash token) && (Unix now <? ke_expires k)) (ct_keys (perform_all os empty_control))))
    by (rewrite El; by left).
  apply elem_of_map_to_list, where_lookup in Hin as [Hin Hp]. bools. split_and!; try done. by apply keys_since.
Qed.

(** ** At most two keys *)

Definition keys_of (id : string) (c : control) : Z := count (fun _ k => ke_service k ≟ id) (ct_keys c).
Record sound_keys (c : control) : Prop := {
  sk_grant : ∀ kid k, ct_keys c !! kid = Some k → ∃ g, ct_grants c !! ke_service k = Some g ∧ ke_expires k <= gr_expires g;
  sk_two : ∀ id, keys_of id c <= 2 }.

Definition sound_keys_step : relation control := fun c c' => sound_keys c → sound_keys c'.
#[export] Instance sound_keys_step_preorder : PreOrder sound_keys_step.
Proof. unfold sound_keys_step. split; [by intros c|intros a b c; auto]. Qed.

Lemma sound_keys_agrees c c' : agrees (fun c => (ct_keys c, ct_grants c)) c c' → sound_keys c → sound_keys c'.
Proof. intros [= Hk Hg] [Sg St]. split; [intros kid k; rewrite Hk, Hg; apply Sg|]. intros id. unfold keys_of. rewrite Hk. apply St. Qed.

(** Rows of keys only go, expire earlier or note a use; the grants stay. *)
Lemma sound_keys_fewer c c' :
  (∀ kid k, ct_keys c' !! kid = Some k → ∃ k0, ct_keys c !! kid = Some k0 ∧ follows k0 k) →
  (∀ kid k g, ct_keys c' !! kid = Some k → ct_grants c !! ke_service k = Some g → ∃ g', ct_grants c' !! ke_service k = Some g' ∧ gr_expires g <= gr_expires g') →
  sound_keys c → sound_keys c'.
Proof.
  intros Hk Hg [Sg St]. split.
  - intros kid k Hin. destruct (Hk kid k Hin) as (k0 & Hin0 & Es & _ & _ & He). destruct (Sg kid k0 Hin0) as (g & Hgr & Hle). rewrite <- Es in Hgr.
    destruct (Hg kid k g Hin Hgr) as (g' & ? & ?). exists g'. split; [done|lia].
  - intros id. etrans; [|apply (St id)]. apply count_le. intros kid k Hin Hp. destruct (Hk kid k Hin) as (k0 & Hin0 & Es & _). exists k0. by rewrite <- Es.
Qed.

Lemma drop_grants_sound p c : sound_keys c → sound_keys (drop_grants p c).
Proof.
  apply sound_keys_fewer.
  - intros kid k [H _]%drop_grants_keys. by exists k.
  - intros kid k g [_ H]%drop_grants_keys Hg. exists g. split; [|done]. unfold drop_grants. cbn. apply without_lookup. auto.
Qed.
Lemma audit_sound_keys now actor w action target c a c' : audit now actor w action target c = Ok (a, c') → sound_keys c → sound_keys c'.
Proof. intros H. apply sound_keys_agrees. unfold audit in H. by ctl_step H. Qed.

Lemma CreateBoundService_sound p name scopes watches days lifetimes sid kid secret now :
  respecting sound_keys_step (CreateBoundService p name scopes watches days lifetimes sid kid secret now).
Proof.
  intros c a c' H Hc. unfold CreateBoundService, insert_grant, insert_key in H. ctl_step H. ctl_all.
  match goal with H : memberActor _ _ = Ok _ |- _ => apply memberActor_inv in H as (-> & arole & Hrole & -> & Hal) end. ctl_all.
  match goal with H : audit _ _ _ _ _ _ = Ok _ |- _ => apply (audit_sound_keys _ _ _ _ _ _ _ _ H); clear H end.
  apply (drop_grants_sound (fun _ g => gr_expires g <=? Unix now)) in Hc as [Sg St]. set (c0 := drop_grants _ c) in *. clearbody c0. cbn in *. split; cbn.
  - intros k' k [[<- <-]|[_ Hin]]%lookup_insert_Some; cbn; [rewrite lookup_insert_eq; by eexists|].
    destruct (Sg k' k Hin) as (g & Hg & ?). exists g. split; [|done]. rewrite lookup_insert_ne; [done|]. congruence.
  - intros id. unfold keys_of. cbn. etrans; [apply count_insert|]. cbn. case_bool_decide as Ei; [subst id|specialize (St id); unfold keys_of in St; lia].
    assert (count (fun _ k => ke_service k ≟ sid) (ct_keys c0) = 0) as ->; [|lia]. apply count_zero. intros k' k Hin. apply bool_decide_eq_false. intros Es.
    destruct (Sg k' k Hin) as (g & Hg & _). congruence.
Qed.

Lemma RotateService_sound p id days overlap kid secret now : respecting sound_keys_step (RotateService p id days overlap kid secret now).
Proof.
  intros c a c' H Hc. unfold RotateService, insert_key in H. ctl_step H. ctl_all.
  match goal with H : memberActor _ _ = Ok _ |- _ => apply memberActor_inv in H as (-> & arole & Hrole & -> & Hal) end. ctl_all.
  match goal with H : audit _ _ _ _ _ _ = Ok _ |- _ => apply (audit_sound_keys _ _ _ _ _ _ _ _ H); clear H end.
  destruct Hc as [Sg St]. remember (Unix (Add now (overlap * Second))) as until eqn:Eu. remember (Unix (Add now (days_of days))) as expires eqn:Ee.
  assert (Hle : until <= expires).
  { rewrite Eu, Ee. unfold Unix, Add, days_of. apply Z.sub_le_mono_r, Z.div_le_mono; [done|]. unfold Hour, Minute, Second, Millisecond, Microsecond, Nanosecond. lia. }
  cbn -[retire_keys]. split; cbn -[retire_keys].
  - intros k' k [[<- <-]|[_ Hin]]%lookup_insert_Some; cbn.
    + match goal with H : is_Some _ |- _ => destruct H as [g Hg] end. cbn in Hg. rewrite lookup_alter_eq, Hg. by eexists.
    + apply retire_keys_keys in Hin as (k0 & Hk0 & (Es & _ & _ & He) & Hu). destruct (Sg k' k0 Hk0) as (g & Hg & Hge). rewrite <- Es in Hg.
      destruct (decide (ke_service k = id)) as [E|Hne].
      * rewrite E in *. rewrite lookup_alter_eq, Hg. eexists. split; [done|]. cbn. destruct (Hu eq_refl) as [_ Hu2]. lia.
      * rewrite lookup_alter_ne by done. exists g. split; [done|lia].
  - intros id'. unfold keys_of. cbn -[retire_keys]. etrans; [apply count_insert|]. cbn [ke_service]. case_bool_decide as Ei.
    + subst id'. change 2 with (1 + 1). apply Z.add_le_mono_r.
      destruct (newest_key id c) as [k0|] eqn:En.
      * apply (count_one _ _ k0). intros k' k Hin Es. bools. apply retire_keys_keys in Hin as (? & _ & _ & Hu). destruct (Hu Es). congruence.
      * apply (count_one _ _ ""). intros k' k Hin Es. bools. apply retire_keys_keys in Hin as (? & _ & _ & Hu). destruct (Hu Es). congruence.
    + rewrite Z.add_0_r. etrans; [|apply (St id')]. apply count_le. intros k' k Hin Hp. apply retire_keys_keys in Hin as (k0 & Hk0 & (Es & _) & _). exists k0. by rewrite <- Es.
Qed.

Lemma transact_sound_keys o : respecting sound_keys_step (transact o).
Proof.
  destruct (match o with
    | c_CreateBoundService _ _ _ _ _ _ _ _ _ _ | c_RevokeService _ _ _ | c_NoteServiceUse _ _ | c_RotateService _ _ _ _ _ _ _ | c_RevokeServiceKey _ _ _ _
    | c_UpdateService _ _ _ _ _ _ _ | c_FinishWorkspaceDelete _ | c_QuarantineRestore => true | _ => false end) eqn:Ho.
  2:{ cut (respecting (agrees (fun c => (ct_keys c, ct_grants c))) (transact o)).
      { intros Hag c a c' E Hc. apply (sound_keys_agrees c); [|done]. by eapply Hag. }
      destruct o; try discriminate Ho; cbn [ControlRun.transact]; try (apply forget_respecting; [apply _|]). all: respect. all: exec_cases. }
  destruct o; try discriminate Ho; cbn [ControlRun.transact]; try (apply forget_respecting; [apply _|]); clear Ho.
  - apply respecting_exec. intros c Hc. destruct (ct_workspaces c !! id) as [r|]; [|done]. destruct (ws_deleting r); [|done].
    by apply (sound_keys_agrees (drop_grants (fun _ g => gr_workspace g ≟ id) c)), drop_grants_sound.
  - apply respecting_exec. intros c Hc. split; cbn; [by intros kid k ?%lookup_empty_Some|]. intros id. unfold keys_of. cbn. by rewrite count_empty.
  - apply CreateBoundService_sound.
  - intros c a c' H Hc. unfold RevokeService in H. ctl_step H. apply (audit_sound_keys _ _ _ _ _ _ _ _ H), drop_grants_sound.
    match goal with H : memberActor _ _ = Ok _ |- _ => by apply memberActor_inv in H as (-> & _) end.
  - unfold NoteServiceUse. respect. apply respecting_exec. intros c Hc. apply (sound_keys_fewer c); cbn; [|by intros k' k g _ Hg; exists g|done].
    intros kid k [(<- & k0 & Hk & ->)|[_ Hin]]%lookup_alter_Some; [|by exists k]. exists k0. split; [done|].
    destruct (ke_used k0 <? _); unfold follows; cbn; split_and!; lia || done.
  - apply RotateService_sound.
  - intros c a c' H Hc. unfold RevokeServiceKey in H. ctl_step H. apply (audit_sound_keys _ _ _ _ _ _ _ _ H). clear H.
    match goal with H : memberActor _ _ = Ok _ |- _ => apply memberActor_inv in H as (-> & _) end.
    apply (sound_keys_fewer c); cbn; [|by intros k' k g _ Hg; exists g|done]. intros k' k [Hin _]%without_lookup. by exists k.
  - intros c a c' H Hc. unfold UpdateService in H. ctl_step H. ctl_all.
    match goal with H : memberActor _ _ = Ok _ |- _ => apply memberActor_inv in H as (-> & _) end. ctl_all. cbv beta in *.
    match goal with H : audit _ _ _ _ _ _ = Ok _ |- _ => apply (audit_sound_keys _ _ _ _ _ _ _ _ H); clear H end.
    match goal with H : (_ ≫= _) = Some ?g |- _ => rename H into Hg; rename g into g0 end. destruct (ct_grants c !! id) as [g|] eqn:Eg; [|done]. cbn in Hg.
    case_bool_decide; [|done]. simplify_eq. apply (sound_keys_fewer c); cbn; [by intros k' k Hin; exists k| |done].
    intros k' k g' _ Hg'. destruct (decide (id = ke_service k)) as [->|Hne]; [|rewrite lookup_insert_ne by done; by exists g'].
    rewrite lookup_insert_eq. eexists. split; [done|]. cbn. by simplify_eq.
Qed.

(** A producer has at most two keys, the current one and the one it
    replaced, and none outlives its grant: so the sweep of expired grants at the
    creation of a producer never takes a key that is still valid.  In every
    database reached by any run. *)
Lemma producer_keys_bounded os :
  let c := perform_all os empty_control in
  (∀ id, keys_of id c <= 2) ∧
  ∀ kid k, ct_keys c !! kid = Some k → ∃ g, ct_grants c !! ke_service k = Some g ∧ ke_expires k <= gr_expires g.
Proof.
  cbn zeta. assert (Hs : sound_keys (perform_all os empty_control)) by
    (induction os as [|o os IH] using rev_ind;
      [split; cbn; [by intros kid k ?%lookup_empty_Some|]; intros id; unfold keys_of; cbn; by rewrite count_empty|];
     rewrite perform_all_snoc; revert IH; apply (respecting_commit sound_keys_step), transact_sound_keys; apply _).
  destruct Hs. auto.
Qed.
End Keys.

(** * Budgets are not overbooked, tests are not repeated

    The outbound reservations of a workspace, and the receipts of external
    tests, through all operations. *)


Definition spent (w p : string) (c : control) : usage_row := default (mkUsage 0 0 0) (ct_usage c !! (w, p)).
Definition held (w p : string) (c : control) : Z := count (fun _ r => (rv_workspace r ≟ w) && (rv_period r ≟ p)) (ct_reservations c).
Definition active (w : string) (c : control) : Z := count (fun _ r => rv_workspace r ≟ w) (ct_reservations c).

(** The month [p] of workspace [w] under the budget [b]. *)
Record budgeted (b : OutboundBudget) (w p : string) (c : control) : Prop := {
  bd_checks : within (bg_Checks b) (ug_checks (spent w p c)) = true;
  bd_deliveries : within (bg_Deliveries b) (ug_deliveries (spent w p c)) = true;
  bd_bytes : within (bg_Bytes b) (ug_bytes (spent w p c)) = true;
  bd_held : RequestReservation * held w p c <= ug_bytes (spent w p c);
  bd_active : active w c <= 4 }.

Definition nonnegative (b : OutboundBudget) : Prop := 0 <= bg_Checks b ∧ 0 <= bg_Deliveries b ∧ 0 <= bg_Bytes b.

(** Steps the theorem is about: reservations for [w] use [b], and the month is
    not one that [Collect] drops. *)
Definition keeps_month (b : OutboundBudget) (w p : string) (o : cop) : Prop :=
  match o with
  | c_ReserveBudget w' _ _ b' _ => w' = w → b' = b
  | c_Collect now => str_compare p (three_months_before now) ≠ Lt
  | _ => True
  end.

Section Budget.
Context (IDKey : string → string → string) (url_parse : string → option (string * string * bool * string * string))
  (Seal : string → string → string → string → string) (encode : Login → string).
Notation transact := (transact IDKey url_parse Seal encode).
Notation perform := (perform IDKey url_parse Seal encode).
Notation perform_all := (perform_all IDKey url_parse Seal encode).

Section Month.
Context (b : OutboundBudget) (w p : string).
Context (Hb : nonnegative b).

Lemma RequestReservation_pos : 0 < RequestReservation.
Proof. reflexivity. Qed.

(** Nothing spent, nothing held. *)
Lemma budgeted_fresh c : ct_usage c !! (w, p) = None → held w p c = 0 → active w c <= 4 → budgeted b w p c.
Proof.
  intros Hu Hh Ha. destruct Hb as (H1 & H2 & H3). split; unfold spent; rewrite ?Hu, ?Hh; cbn [default ug_checks ug_deliveries ug_bytes]; try lia;
    apply orb_true_iff; right; by apply Z.leb_le.
Qed.

(** Reservations only go, and the usage of the month stays. *)
Lemma budgeted_fewer c c' :
  ct_usage c' !! (w, p) = ct_usage c !! (w, p) → ct_reservations c' ⊆ ct_reservations c → budgeted b w p c → budgeted b w p c'.
Proof.
  intros Hu Hr [H1 H2 H3 H4 H5]. pose proof RequestReservation_pos.
  assert (held w p c' <= held w p c) by (apply count_le; intros k x Hk Hx; exists x; split; [by eapply lookup_weaken|done]).
  assert (active w c' <= active w c) by (apply count_le; intros k x Hk Hx; exists x; split; [by eapply lookup_weaken|done]).
  unfold spent in *. split; unfold spent; rewrite ?Hu; [done..| |lia]. nia.
Qed.

Lemma ReserveBudget_budgeted w' delivery now b' fresh c a c' :
  (w' = w → b' = b) → ReserveBudget w' delivery now b' fresh c = Ok (a, c') → budgeted b w p c → budgeted b w p c'.
Proof.
  intros Hbud H Hc. unfold ReserveBudget in H. ctl_step H. ctl_all. cbn in *.
  match goal with H : charge _ _ _ _ = Some ?u |- _ => rename H into Hch; rename u into u' end.
  remember (without (fun _ r => (rv_workspace r ≟ w') && (rv_created r <? Unix (Add now (- Hour)))) (ct_reservations c)) as rs eqn:Ers.
  assert (Hc0 : budgeted b w p (c <| ct_reservations := rs |>)) by (apply (budgeted_fewer c); [done|rewrite Ers; apply without_subseteq|done]).
  destruct Hc0 as [H1 H2 H3 H4 H5]. unfold spent, held, active in *. cbn in H1, H2, H3, H4, H5. pose proof RequestReservation_pos.
  pose proof (count_insert (fun _ r => (rv_workspace r ≟ w) && (rv_period r ≟ p)) rs fresh (mkReservation w' (ControlUsage.period now) (Unix now))) as Hheld.
  pose proof (count_insert (fun _ r => rv_workspace r ≟ w) rs fresh (mkReservation w' (ControlUsage.period now) (Unix now))) as Hact. cbn in Hheld, Hact.
  destruct (decide (w' = w)) as [->|Hw].
  2:{ rewrite (bool_decide_eq_false_2 (w' = w)) in Hheld, Hact by done. cbn in Hheld.
      split; unfold spent, held, active; cbn; rewrite ?lookup_insert_ne by congruence; [done..|nia|lia]. }
  rewrite (bool_decide_eq_true_2 (w = w)) in Hheld, Hact by done. rewrite Hbud in Hch by done. cbn in Hheld.
  destruct (decide (ControlUsage.period now = p)) as [Ep|Hp].
  2:{ rewrite (bool_decide_eq_false_2 (_ = p)) in Hheld by done. split; unfold spent, held, active; cbn; rewrite ?lookup_insert_ne by congruence; [done..|nia|lia]. }
  rewrite Ep in *. rewrite (bool_decide_eq_true_2 (p = p)) in Hheld by done. unfold charge in Hch. case_match eqn:Hin; [|done]. injection Hch as <-.
  apply andb_true_iff in Hin as [[Hin1 Hin2]%andb_true_iff Hin3].
  split; unfold spent, held, active; cbn -[within]; rewrite ?lookup_insert_eq; [done..|cbn; nia|lia].
Qed.

Lemma within_le limit x y : y <= x → within limit x = true → within limit y = true.
Proof. unfold within. rewrite !orb_true_iff, !Z.leb_le. intros ? [H|H]; [by left|right; lia]. Qed.

Lemma Finish_budgeted r used c a c' : FinishReservation r used c = Ok (a, c') → budgeted b w p c → budgeted b w p c'.
Proof.
  intros H Hc. unfold FinishReservation in H. destruct r as [[id w'] p']. ctl_step H. destruct (ct_reservations c !! id) as [v|] eqn:Ev; [|by ctl_step H].
  destruct ((rv_workspace v ≟ w') && (rv_period v ≟ p')) eqn:Em; ctl_step H; [|done]. bools.
  assert (Hr : budgeted b w p (c <| ct_reservations := delete id (ct_reservations c) |>)) by (apply (budgeted_fewer c); [done|apply delete_subseteq|done]).
  unfold refund. destruct (decide ((w', p') = (w, p))) as [[= -> ->]|Hne].
  2:{ revert Hr. apply budgeted_fewer; cbn; [by rewrite lookup_alter_ne|done]. }
  destruct Hc as [B1 B2 B3 B4 B5], Hr as [_ _ _ _ B5']. unfold spent, held, active in *. cbn in *. pose proof RequestReservation_pos.
  assert (Hcount : count (fun _ r => (rv_workspace r ≟ w) && (rv_period r ≟ p)) (delete id (ct_reservations c)) = count (fun _ r => (rv_workspace r ≟ w) && (rv_period r ≟ p)) (ct_reservations c) - 1).
  { apply (count_delete _ _ _ v Ev). by rewrite !bool_decide_eq_true_2. }
  destruct (ct_usage c !! (w, p)) as [u|] eqn:Eu; cbn in *.
  - split; unfold spent, held, active; cbn -[within]; rewrite ?lookup_alter_eq, ?Eu; cbn -[within]; [done|done| | |done].
    + apply (within_le _ (ug_bytes u)); [lia|done].
    + rewrite Hcount. lia.
  - split; unfold spent, held, active; cbn -[within]; rewrite ?lookup_alter_eq, ?Eu; cbn -[within]; [done..| |done]. rewrite Hcount. lia.
Qed.

Lemma step_budgeted o c : keeps_month b w p o → budgeted b w p c → budgeted b w p (perform o c).
Proof.
  intros Ho Hc. destruct (perform_cases IDKey url_parse Seal encode o c) as [(c' & E & -> & Hs)|[-> Hs]]; [|done].
  destruct (match o with c_FinishWorkspaceDelete _ | c_ReserveBudget _ _ _ _ _ | c_Finish _ _ | c_Collect _ => true | _ => false end) eqn:Hi.
  2:{ cut (respecting (agrees (fun c => (ct_usage c, ct_reservations c))) (transact o)).
      { intros Hag. apply Hag in E. injection E as Eu Er. apply (budgeted_fewer c); [by rewrite Eu|by rewrite Er|done]. }
      destruct o; try discriminate Hi; cbn [ControlRun.transact]; try (apply forget_respecting; [apply _|]). all: respect. all: exec_cases. }
  destruct o; try discriminate Hi; cbn [ControlRun.transact keeps_month] in *; try (apply forget_inv in E as [a E]).
  - unfold FinishWorkspaceDelete in E. ctl_step E. destruct (ct_workspaces c !! id) as [r|]; [|done]. destruct (ws_deleting r); [|done].
    destruct (decide (id = w)) as [->|Hne].
    + assert (Hz : ∀ q, count q (without (fun _ r => rv_workspace r ≟ w) (ct_reservations c)) = count (fun k r => q k r && negb (rv_workspace r ≟ w)) (ct_reservations c)).
      { intros q. apply Z.le_antisymm; apply count_le; intros k x; [intros [H1 H2]%without_lookup H3; exists x; split; [done|]; by rewrite H3, H2|].
        intros H1 H2. exists x. apply andb_true_iff in H2 as [H2 H3]. split; [apply without_lookup; split; [done|]; by apply negb_true_iff|done]. }
      apply budgeted_fresh; unfold held, active; cbn.
      * apply eq_None_not_Some. intros [x [_ Hx]%without_lookup]. cbn in Hx. by bools.
      * rewrite Hz. apply count_zero. intros k x Hk. case_bool_decide; cbn; [by rewrite andb_false_r|done].
      * rewrite Hz. transitivity 0; [|done]. apply Z.eq_le_incl, count_zero. intros k x Hk. by case_bool_decide.
    + apply (budgeted_fewer c); cbn; [|apply without_subseteq|done].
      destruct (ct_usage c !! (w, p)) as [u|] eqn:Eu; [apply without_lookup; split; [done|]; by apply bool_decide_eq_false|].
      apply eq_None_not_Some. intros [x [Hx _]%without_lookup]. congruence.
  - by eapply ReserveBudget_budgeted.
  - by eapply Finish_budgeted.
  - unfold Collect in E. ctl_step E. apply (budgeted_fewer c); cbn; [|apply without_subseteq|done].
    destruct (ct_usage c !! (w, p)) as [u|] eqn:Eu; [apply without_lookup; split; [done|]; cbn; by case_match|].
    apply eq_None_not_Some. intros [x [Hx _]%without_lookup]. congruence.
Qed.

(** C17: Outbound budgets are not overbooked.  In every run from the empty
    database whose reservations for the workspace use one budget, and for every
    month that no [Collect] of the run is three months past, the recorded checks,
    deliveries and bytes stay within the budget (a zero limit is no limit); the
    bytes recorded cover the reservation of every request still in flight, so a
    refund never takes back what another request holds; and at most four requests
    of the workspace are in flight.  Finishing a request again changes nothing. *)
Theorem budget_respected os :
  Forall (keeps_month b w p) os →
  let c := perform_all os empty_control in
  within (bg_Checks b) (ug_checks (spent w p c)) = true ∧ within (bg_Deliveries b) (ug_deliveries (spent w p c)) = true ∧
  within (bg_Bytes b) (ug_bytes (spent w p c)) = true ∧ RequestReservation * held w p c <= ug_bytes (spent w p c) ∧ active w c <= 4 ∧
  ∀ r used used' c1, FinishReservation r used c = Ok (tt, c1) → ∀ c2, FinishReservation r used' c1 = Ok (tt, c2) → c2 = c1.
Proof.
  intros Hos. cbn zeta. assert (Hc : budgeted b w p (perform_all os empty_control)).
  { induction os as [|o os IH] using rev_ind; [apply budgeted_fresh; [done|apply count_empty|unfold active; cbn; by rewrite count_empty]|]. apply Forall_app in Hos as [Hos Ho].
    rewrite perform_all_snoc. apply step_budgeted; [by inversion Ho|by apply IH]. }
  destruct Hc. split_and!; try done. intros [[id w'] p'] used used' c1 H1 c2 H2. unfold FinishReservation in *. ctl_step H1. ctl_step H2. cbv beta zeta in *.
  destruct (ct_reservations (perform_all os empty_control) !! id) as [v|] eqn:Ev; [|ctl_step H1; rewrite Ev in H2; by ctl_step H2].
  destruct ((rv_workspace v ≟ w') && (rv_period v ≟ p')) eqn:Em; ctl_step H1.
  - cbn in H2. rewrite lookup_delete_eq in H2. by ctl_step H2.
  - rewrite Ev, Em in H2. by ctl_step H2.
Qed.
End Month.

(** ** External tests *)

(** A receipt of the test exists, with this digest. *)
Definition tested (w id digest : string) (c : control) : Prop := ∃ q, ct_probes c !! (w, id) = Some q ∧ pb_digest q = digest.

Lemma step_tested w id digest o c : o ≠ c_FinishWorkspaceDelete w → tested w id digest c → tested w id digest (perform o c).
Proof.
  intros Ho (q & Hq & Hd). destruct (perform_cases IDKey url_parse Seal encode o c) as [(c' & E & -> & Hs)|[-> Hs]]; [|by exists q].
  destruct (match o with c_FinishWorkspaceDelete _ | c_BeginProbe _ _ _ _ | c_FinishProbe _ _ _ => true | _ => false end) eqn:Hi.
  2:{ cut (respecting (agrees ct_probes) (transact o)); [intros Hag; apply Hag in E; exists q; by rewrite E|].
      destruct o; try discriminate Hi; cbn [ControlRun.transact]; try (apply forget_respecting; [apply _|]). all: respect. all: exec_cases. }
  destruct o; try discriminate Hi; cbn [ControlRun.transact] in *; try (apply forget_inv in E as [a E]).
  - unfold FinishWorkspaceDelete in E. ctl_step E. exists q. split; [|done]. destruct (ct_workspaces c !! id0) as [r|]; [|done]. destruct (ws_deleting r); [|done].
    cbn. apply without_lookup. split; [done|]. apply bool_decide_eq_false. cbn. congruence.
  - unfold BeginProbe in E. ctl_step E. destruct (ct_probes c !! (workspace, id0)) as [q'|] eqn:Eq; ctl_step E; [by exists q|]. exists q. split; [|done]. cbn.
    rewrite lookup_insert_ne; [done|]. congruence.
  - unfold FinishProbe in E. ctl_step E. cbv beta in *. cbn.
    match goal with H : (_ ≫= _) = Some ?g |- _ => rename H into Hg; rename g into g0 end. destruct (ct_probes c !! (workspace, id0)) as [q'|] eqn:Eq; [|done].
    cbn in Hg. case_bool_decide; [|done]. simplify_eq. destruct (decide ((workspace, id0) = (w, id))) as [[= -> ->]|Hne].
    + exists (mkProbe (pb_digest g0) outcome (pb_at g0)). cbn. rewrite lookup_insert_eq. split; [done|]. cbn. congruence.
    + exists q. cbn. by rewrite lookup_insert_ne.
Qed.

(** C36: An external test is sent at most once per operation key.  Once
    [BeginProbe] has told one caller to send, then, whatever runs after it short
    of deleting the workspace, no call with the same key is told to send again:
    the same test is answered with its recorded outcome, pending if the process
    was lost in between, and another test or credential under the key is refused. *)
Theorem external_test_once w id digest t c q c1 os digest' t' :
  BeginProbe w id digest t c = Ok ((q, true), c1) → c_FinishWorkspaceDelete w ∉ os →
  let c2 := perform_all os c1 in
  match BeginProbe w id digest' t' c2 with
  | Ok ((q', send), c3) => send = false ∧ c3 = c2 ∧ digest' = digest ∧ ct_probes c2 !! (w, id) = Some q'
  | Err _ => digest' ≠ digest
  end.
Proof.
  intros H Hos. cbn zeta. assert (Hv : negb (operationID id) || negb (len digest =? 64) = false) by (unfold BeginProbe in H; by ctl_step H).
  assert (H1 : tested w id digest c1).
  { unfold BeginProbe in H. ctl_step H. destruct (ct_probes c !! (w, id)) as [q'|] eqn:Eq; ctl_step H; [done|]. eexists. cbn. rewrite lookup_insert_eq. done. }
  assert (H2 : tested w id digest (perform_all os c1)).
  { clear H. revert c1 H1. induction os as [|o os IH]; intros c1 H1; cbn; [done|]. apply not_elem_of_cons in Hos as [Ho Hos]. apply IH; [done|]. by apply step_tested. }
  destruct H2 as (q2 & Hq2 & Hd). destruct (BeginProbe w id digest' t' _) as [[[q' send] c3]|] eqn:E.
  - unfold BeginProbe in E. ctl_step E. rewrite Hq2 in E. ctl_step E. bools. simplify_eq. done.
  - intros ->. revert E. unfold BeginProbe, mbind, ctl_bind, refuse, get. rewrite Hv. cbn. rewrite Hq2, bool_decide_eq_true_2 by done. done.
Qed.
End Budget.
