(* ===== verification/ControlExamples.v ===== *)
(** * Runs of the control database

    A team is founded, members are invited, a device and a producer are
    connected: the inputs at which the theorems about accounts, sessions, keys
    and budgets are applied, and the run in which a password reset issued for a
    viewer outlives the viewer's promotion to owner. *)
From S2P Require Import Prelude GoText Access Passwords Control ControlAccounts ControlSessions ControlServices ControlUsage ControlRun ControlFacts ControlAuth ControlRoles ControlProducers.
#[local] Open Scope list_scope.
#[local] Open Scope Z_scope.

(** Stand-ins for Argon2 and sealing: any function will do. *)
Definition toy_key (password salt : string) : string := str_take 32 (password ++ "................................").
Definition toy_parse (raw : string) : option (string * string * bool * string * string) := None.
Definition toy_seal (label nonce plain data : string) : string := plain.
Definition toy_encode (l : Login) : string := l_Verifier l.
Notation run := (perform_all toy_key toy_parse toy_seal toy_encode).

Fixpoint times (n : nat) (s : string) : string := match n with O => "" | S n => s ++ times n s end.
Definition id64 (s : string) : string := times 64 s.
Definition t0 : time := from_unix 1700000000.
Definition after (s : Z) : time := Add t0 (s * Second).

Definition ana : string := id64 "a".
Definition team : string := id64 "w".
Definition as_ana : Principal := browser ana team "".
Definition salt : string := times 16 "s".

Definition found : list cop := [c_Bootstrap false salt "ana" "Ana" "correct horse" ana team t0].

(** ** Sessions and devices *)

Definition signed_in : list cop :=
  found ++ [c_NewSession (id64 "1") (id64 "2") ana team "browser" [] (after 10)].
Definition verifier : string := id64 "v".
Definition connecting : list cop :=
  found ++ [c_BeginDevice (TokenHash verifier) (id64 "d") (after 20);
            c_ApproveDevice (run found empty_control) (id64 "d") ana team ["inspect"; "manage"] (after 30)].

Lemma is_ok_inv {A : Type} (r : result A) : is_ok r = true → ∃ a, r = Ok a.
Proof. destruct r; [eauto|done]. Qed.
Lemma is_Some_b_inv {A : Type} (o : option A) : is_Some_b o = true → is_Some o.
Proof. apply is_Some_b_spec. Qed.

Lemma workspace_keeps_owner_witness :
  is_Some (ct_workspaces (run found empty_control) !! team) ∧
  ∃ u, ct_memberships (run found empty_control) !! (u, team) = Some Owner ∧ can_sign_in u (run found empty_control) = true.
Proof.
  assert (Hw : is_Some (ct_workspaces (run found empty_control) !! team)) by (apply is_Some_b_inv; vm_compute; reflexivity).
  split; [exact Hw|]. exact (proj1 (workspace_keeps_owner toy_key toy_parse toy_seal toy_encode found _ team eq_refl Hw)).
Defined.

Lemma accepted_session_issued_witness :
  ∃ s, DB_Session (id64 "1") (after 60) (run signed_in empty_control) = Ok s ∧
  ∃ r, since toy_key toy_parse toy_seal toy_encode signed_in (TokenHash (id64 "1")) r ∧ s_User s = se_user r.
Proof.
  assert (Hk : is_ok (DB_Session (id64 "1") (after 60) (run signed_in empty_control)) = true) by (vm_compute; reflexivity).
  destruct (is_ok_inv _ Hk) as [s E]. exists s. split; [exact E|].
  destruct (accepted_session_issued toy_key toy_parse toy_seal toy_encode signed_in (id64 "1") (after 60) s E) as (r & H1 & H2 & _). exists r. split; assumption.
Defined.

(** Whether a claim hands out a session. *)
Definition claimed (r : result (option Session * control)) : bool := match r with Ok (Some _, _) => true | _ => false end.
Lemma claimed_inv r : claimed r = true → ∃ s c', r = Ok (Some s, c').
Proof. destruct r as [[[s|] c']|]; try done. eauto. Qed.

Lemma device_session_approved_witness :
  ∃ s c', ClaimDevice (id64 "3") (id64 "d") verifier (after 40) (run connecting empty_control) = Ok (Some s, c') ∧
  ∃ scopes t, approved connecting (id64 "d") (TokenHash verifier) (s_User s) (s_Workspace s) scopes t ∧ s_Scopes s = stored scopes.
Proof.
  assert (Hk : claimed (ClaimDevice (id64 "3") (id64 "d") verifier (after 40) (run connecting empty_control)) = true) by (vm_compute; reflexivity).
  destruct (claimed_inv _ Hk) as (s & c' & E). exists s, c'. split; [exact E|].
  destruct (device_session_approved toy_key toy_parse toy_seal toy_encode connecting _ _ _ _ s c' E) as [(scopes & t & H1 & H2 & _) _]. exists scopes, t. split; assumption.
Defined.

(** ** Roles *)

Definition bob : string := id64 "b".
Definition invite_bob : cop := c_Invite as_ana "bob" "Bob" Viewer bob (id64 "4") (after 50).
Definition invited : list cop := found ++ [invite_bob].
Definition promote_bob : cop := c_ChangeMember as_ana bob Administrator (after 60).

Lemma role_change_authorized_witness :
  let c := run invited empty_control in let c' := perform toy_key toy_parse toy_seal toy_encode promote_bob c in
  ct_memberships c' !! (bob, team) ≠ ct_memberships c !! (bob, team) ∧
  ((∃ p, administers promote_bob p bob ∧ authorized p team c (ct_memberships c !! (bob, team)) (ct_memberships c' !! (bob, team))) ∨
   (founds promote_bob bob team ∧ ct_workspaces c !! team = None) ∨
   (((∃ t, promote_bob = c_DeleteUser bob t) ∨ promote_bob = c_FinishWorkspaceDelete team) ∧ ct_memberships c' !! (bob, team) = None)).
Proof.
  cbv zeta. assert (Hne : ct_memberships (perform toy_key toy_parse toy_seal toy_encode promote_bob (run invited empty_control)) !! (bob, team)
    ≠ ct_memberships (run invited empty_control) !! (bob, team)).
  { apply (proj1 (bool_decide_eq_false _)). vm_compute. reflexivity. }
  split; [exact Hne|]. exact (role_change_authorized toy_key toy_parse toy_seal toy_encode promote_bob (run invited empty_control) bob team Hne).
Defined.

(** ** Producers *)

Definition producer : string := id64 "p".
Definition secret (s : string) : string := id64 s.
Definition produced : list cop :=
  found ++ [c_CreateBoundService as_ana "ci" ["ingest"] ["build"] 30 {["build" := "life"]} producer (id64 "5") (secret "6") (after 100);
            c_RotateService as_ana producer 30 3600 (id64 "7") (secret "8") (after 200)].

Lemma accepted_service_issued_witness :
  ∃ s, ServiceToken (service_prefix ++ secret "6") (after 300) (run produced empty_control) = Ok s ∧
  ∃ k g, key_since toy_key toy_parse toy_seal toy_encode produced (sv_KeyID s) k ∧ ke_hash k = TokenHash (service_prefix ++ secret "6") ∧
    ct_grants (run produced empty_control) !! sv_ID s = Some g ∧ sv_Watches s = gr_watches g.
Proof.
  assert (Hk : is_ok (ServiceToken (service_prefix ++ secret "6") (after 300) (run produced empty_control)) = true) by (vm_compute; reflexivity).
  destruct (is_ok_inv _ Hk) as [s E]. exists s. split; [exact E|].
  destruct (accepted_service_issued toy_key toy_parse toy_seal toy_encode produced _ _ s E) as (k & g & H1 & H2 & _ & _ & H3 & _ & _ & H4 & _).
  exists k, g. split; [exact H1|]. split; [exact H2|]. split; [exact H3|exact H4].
Defined.

(** After the overlap the replaced key is refused, the new one is not. *)
Example replaced_key_ends :
  is_ok (ServiceToken (service_prefix ++ secret "6") (after 3900) (run produced empty_control)) = false ∧
  is_ok (ServiceToken (service_prefix ++ secret "8") (after 3900) (run produced empty_control)) = true.
Proof. split; vm_compute; reflexivity. Qed.

(** ** Budgets and tests *)

Definition small : OutboundBudget := {| bg_Checks := 2; bg_Deliveries := 1; bg_Bytes := 0 |}.
Definition month : string := ControlUsage.period t0.
Definition spending : list cop :=
  found ++ [c_ReserveBudget team false (after 1) small (id64 "r"); c_ReserveBudget team false (after 2) small (id64 "q");
            c_ReserveBudget team false (after 3) small (id64 "x"); c_Finish (id64 "r", team, month) 100; c_Collect (after 4)].

Lemma budget_respected_witness :
  Forall (keeps_month small team month) spending ∧
  ug_checks (spent team month (run spending empty_control)) = 2 ∧ within 2 (ug_checks (spent team month (run spending empty_control))) = true ∧
  RequestReservation * held team month (run spending empty_control) <= ug_bytes (spent team month (run spending empty_control)).
Proof.
  assert (Hos : Forall (keeps_month small team month) spending).
  { unfold spending, found. repeat constructor; cbn [keeps_month]; try (intros _; reflexivity). vm_compute. discriminate. }
  assert (Hb : nonnegative small) by (unfold nonnegative; cbn; lia).
  destruct (budget_respected toy_key toy_parse toy_seal toy_encode small team month Hb spending Hos) as (H1 & _ & _ & H4 & _).
  split; [exact Hos|]. split; [vm_compute; reflexivity|]. split; [exact H1|exact H4].
Defined.

Definition digest : string := id64 "e".
Definition began (r : result (probe_row * bool * control)) : bool := match r with Ok (_, true, _) => true | _ => false end.
Lemma began_inv r : began r = true → ∃ q c, r = Ok ((q, true), c).
Proof. destruct r as [[[q []] c]|]; try done. eauto. Qed.

Lemma external_test_once_witness :
  ∃ q c1, BeginProbe team "operation-key-0001" digest (after 5) (run found empty_control) = Ok ((q, true), c1) ∧
  match BeginProbe team "operation-key-0001" digest (after 900) (run [c_Collect (after 400)] c1) with
  | Ok ((_, send), _) => send = false
  | Err _ => False
  end.
Proof.
  assert (Hk : began (BeginProbe team "operation-key-0001" digest (after 5) (run found empty_control)) = true) by (vm_compute; reflexivity).
  destruct (began_inv _ Hk) as (q & c1 & E). exists q, c1. split; [exact E|].
  assert (Hos : c_FinishWorkspaceDelete team ∉ [c_Collect (after 400)]) by (intros H; apply list_elem_of_singleton in H; discriminate H).
  pose proof (external_test_once toy_key toy_parse toy_seal toy_encode team "operation-key-0001" digest (after 5) _ q c1 [c_Collect (after 400)] digest (after 900) E Hos) as H.
  cbv zeta in H. destruct (BeginProbe _ _ _ _ (run _ c1)) as [[[q' send] c3]|]; [exact (proj1 H)|exact (H eq_refl)].
Defined.

(** ** A reset that outlives a promotion *)

Definition mel : string := id64 "m".
Definition vic : string := id64 "z".
Definition as_mel : Principal := browser mel team "".
Definition hiring : list cop :=
  found ++ [c_Invite as_ana "mel" "Mel" Administrator mel (id64 "4") (after 50); c_Invite as_ana "vic" "Vic" Viewer vic (id64 "9") (after 51);
            c_Activate false salt (id64 "9") "vics own password" (after 52)].
(** The administrator asks for a reset of the viewer's password and keeps the
    code; the owner makes the viewer an owner; the administrator uses the code. *)
Abbreviation reset_issued := (ResetInvitation as_mel vic (id64 "t") (after 60) (run hiring empty_control)).
Abbreviation promotion c := (ChangeMember as_ana vic Owner (after 70) c).
Definition promoted : control :=
  match reset_issued with Ok (_, c1) => match promotion c1 with Ok (_, c2) => c2 | Err _ => empty_control end | Err _ => empty_control end.

Definition accepts_password (username attempt : string) (c : control) : bool :=
  match PasswordUser username c with
  | Ok (_, hash) => match VerifyPassword toy_key false hash attempt with Ok v => v | Err _ => false end
  | Err _ => false
  end.

Lemma promotion_ok : match reset_issued with Ok (_, c1) => is_ok (promotion c1) | Err _ => false end = true.
Proof. vm_compute. reflexivity. Qed.

Lemma stale_reset_takes_over_owner_witness :
  role_of vic team promoted = Some Owner ∧ role_of mel team promoted = Some Administrator ∧ accepts_password "vic" "mels chosen password" promoted = false ∧
  is_ok (ResetInvitation as_mel vic (id64 "u") (after 75) promoted) = false ∧
  ∃ c3, Activate toy_key false salt (id64 "t") "mels chosen password" (after 80) promoted = Ok (tt, c3) ∧ ct_memberships c3 !! (vic, team) = Some Owner.
Proof.
  do 3 (split; [vm_compute; reflexivity|]). pose proof promotion_ok as H. unfold promoted.
  destruct reset_issued as [[a c1]|] eqn:E1; [|discriminate H]. destruct (promotion c1) as [[u c2]|] eqn:E2; [|discriminate H].
  destruct (HashPassword toy_key false salt "mels chosen password") as [hash|] eqn:Eh; [|vm_compute in Eh; discriminate Eh].
  destruct (stale_reset_takes_over_owner toy_key false salt as_mel as_ana vic (id64 "t") Owner "mels chosen password" hash (after 60) (after 70) (after 80) _ a c1 u c2 E1 E2)
    as [(c3 & H1 & _ & H3) H4]; [reflexivity|discriminate|vm_compute; reflexivity|vm_compute; reflexivity|exact Eh|].
  split; [exact (H4 eq_refl _ _)|]. exists c3. split; [exact H1|exact H3].
Defined.
